(* ===== verification/_CoqProject ===== *)
-Q . S2P
Prelude.v
Decimals.v
StateMachine.v
Retry.v
PromotionEngine.v
Table.v
Processes.v
Door.v
Paging.v
Json.v
StableJson.v
CheckoutAddress.v
AuditTrail.v
InventoryModel.v
Inventory.v
InventoryQueries.v
IsoTime.v
Durable.v
PromotionClaims.v
Credit.v
CreditCommands.v
CreditSales.v
CreditService.v
Sales.v
Outbox.v
Shop.v
Carts.v
Checkout.v
StaffOrders.v
OrderCommands.v
Fulfilling.v
Payments.v
Purchasing.v
Stocktake.v
InventoryLedger.v
InventoryProofs.v
DurableSafety.v
CreditBooks.v
PurchasingProofs.v
PurchasingOrders.v
PurchasingCommands.v
PurchasingReceipts.v
StocktakeProofs.v
StocktakeSessions.v
InventoryExpiry.v
InventoryTransfer.v
TransferProofs.v
InventorySafety.v
InventoryProperties.v
InventoryQueryProofs.v
InventoryBehaviour.v
StocktakeProperties.v
PurchasingProperties.v
TransferProperties.v
DoorProofs.v
CreditRuns.v
CreditPostings.v
CreditBodies.v
CreditSaleProofs.v
CreditReturnProofs.v
CreditSafety.v
CreditProperties.v
PromotionCapacity.v
PromotionProperties.v
SalesBooks.v
OrderProofs.v
PaymentProofs.v
FulfillmentProofs.v
SalesSafety.v
OrderReplays.v
SalesProperties.v
ShopBooks.v
CartProofs.v
PlacingProofs.v
CheckoutProofs.v
ShopSafety.v
StaffOrderProofs.v
ShopProperties.v
OutboxProofs.v
OutboxProperties.v
