(* ===== verification/Prelude.v ===== *)
(** * A verification library of the Iraniyaragh commerce API

    The program is the NestJS service under [src/apps/api/src]: a shop for door hardware
    with a stock ledger, purchasing, count sheets, transfers, orders paid through a gateway
    or on credit, promotions and made-to-order doors, on one PostgreSQL database reached
    through Prisma.  Every request is served by a service method, which checks its input,
    opens a transaction, reads and writes tables and appends audit rows; a transaction the
    database aborts is tried again.  The library models these methods as executable
    functions on tables and proves what they promise.

    ** How code becomes definitions

    A computation that runs inside a transaction is a value of the monad [M S A] below: it
    maps the tables [S] to a result and the tables after it, or to the exception thrown,
    which carries no tables because the transaction rolls back.  [throw_if] and [unwrap]
    are the early throws of the source, [for_each] and [map_each] its loops; they stand in
    the order of the source.  A table is a [gmap] from primary keys to rows ([Table]); its
    unique columns, and those check constraints and triggers the code relies on, are
    written out where a row is created.  [transaction] makes a computation a total step of
    the committed state.

    Concurrency.  The database runs transactions at the isolation level Serializable, so
    other clients are seen only between transactions.  [Retry.env] holds them: [others k]
    is what they commit before attempt [k], [abort k] the error with which the database
    gives up attempt [k].  A theorem about a command quantifies over all environments; one
    about safety assumes of the others only that they keep the invariant (a rely
    condition, [store_rely], [sales_rely]).  The workers behind the outbox run outside of one
    transaction; they are programs ([Processes.prog]) whose statements interleave with each
    other and with everything else ([Processes.step]), which may be stopped between any two,
    and whose answers may be lost.  A theorem about them quantifies over all interleavings;
    of everything else it assumes the relation [Outbox.elsewhere].  The transaction of the
    consumer is Read Committed: its reads see what is committed by then, its writes take
    place together at the commit.

    Values.  [bigint] and integers are [Z].  A [number] of a request is an integer or
    something else ([Int], [NonInt]).  Stock and version columns of type [Int] are kept
    within 32 bits by [int4], whose violation is error P2020; the 64-bit bounds of money
    columns are checks of the source ([MAX_I64], [MAX_CREDIT_IRR]) and are proved.
    Strings are lists of code units below 256.  Times are milliseconds since 1970.

    Parameters.  What is not code of the repository is an argument: the identifiers the
    database draws ([cuid]), [randomUUID], SHA-256 ([hash], [digest]), the text order and
    case folding of the database, Unicode normalisation ([fold]) and the clock.  A
    page of a listing reads its rows in an order of the database's own ([scan]).  Where a
    property needs it, a hypothesis names the documented behaviour (distinct identifiers,
    texts told apart by the collation), and its witness instantiates it.  No property assumes
    that a hash function has no collisions.

    ** Files and what they model

    - [Prelude]: exceptions, the monad, lenses, JavaScript values, strings, sorting, and the
      lemmas and tactics the components share ([run_inv] inverts a run; [preserves] and
      [avoids] compose over the monad; [guarantees] is a run with a precondition and a
      two-state guarantee).  [Decimals]: decimal numerals.  [Table], [Paging]: tables and
      listings.  [Json], [StableJson]: JSON texts and the canonical text of a payload.
      [AuditTrail]: [modules/audit/audit-log.service.ts].  [IsoTime]: ISO timestamps as
      [Date] reads and prints them.
    - [StateMachine]: [common/state-machine.ts], the transition maps of orders, payments
      and fulfillments and [recordTransition].
    - [Retry]: [common/serializable-retry.ts] and [common/retry.ts].
    - [PromotionEngine]: [modules/promotions/promotion-engine.ts].  [PromotionClaims]:
      [promotions.service.ts], pricing under automatic promotions and a coupon, and the
      capacity of promotions; [PromotionCapacity] has its invariant, [PromotionProperties]
      its property.
    - Inventory, [modules/inventory/inventory.service.ts].  [InventoryModel] has the tables
      and the stock invariant; [Inventory] the stock commands (adjust, reserve, release,
      consume, expire, and the same for a whole order); [InventoryTransfer] the transfers;
      [InventoryQueries] the listings, public availability and the administration of
      warehouses and locations.  [InventoryLedger] has the abstract stock machine (levels
      and holds per place and variant) that [InventoryProofs] shows every command to
      implement; [InventorySafety] runs all public commands among other clients;
      [InventoryExpiry], [InventoryQueryProofs], [InventoryBehaviour], [TransferProofs],
      [TransferProperties] and [InventoryProperties] prove the properties.
    - [Durable]: the idempotent command that purchasing, stocktakes and credit share.  One
      transaction holds the command's effect, its record (actor, scope, digests of key and
      payload) and its response.  [DurableSafety] proves it runs once and joins it with the
      stock invariant.
    - [Purchasing], [modules/purchasing/purchasing.service.ts]: drafts, approval, closing,
      and goods receipts that post to the stock; proofs in [PurchasingProofs],
      [PurchasingOrders], [PurchasingCommands], [PurchasingReceipts] and
      [PurchasingProperties].
    - [Stocktake], [modules/stocktake/stocktake.service.ts]: count sheets from creation over
      the blind count to the approval that corrects the ledger; proofs in
      [StocktakeProofs], [StocktakeSessions] and [StocktakeProperties].
    - Credit, [modules/credit]: [Credit] has the tables and reads, [CreditCommands] the
      ledger commands of [credit.service.ts], [CreditSales] the approval of a sale
      ([credit-sale.service.ts]), compensations and payouts ([credit-return.service.ts]),
      [CreditService] the input checks and [executeCommand].  [CreditBooks] states the
      invariant of the books; [CreditRuns], [CreditPostings], [CreditBodies],
      [CreditSaleProofs], [CreditReturnProofs] prove that each command keeps it;
      [CreditSafety] has the database's reconciliation trigger as a function, and
      [CreditProperties] the properties.
    - Placed orders.  [Sales] has the tables (payments, picks, shipments, the outbox, records
      of commands, next to the tables of credit, promotions and door orders) and what the
      services share.  [OrderCommands]: [modules/orders/order-command.service.ts],
      cancellation and expiry.  [Fulfilling]: start, readiness, picks, dispatch and delivery
      ([fulfillment-command], [fulfillment-pick], [shipment-dispatch] and
      [shipment-delivery.service.ts]).  [Payments]: [modules/payments], initiation,
      verification and settlement (with [door-payment-settlement.ts]), recheck and refunds.
      [SalesBooks] has what the shared steps do and the invariant of orders, payments and
      refunds; [OrderProofs], [PaymentProofs] and [FulfillmentProofs] what each transaction
      does; [SalesSafety] that transactions and public commands keep the invariant among
      other clients; [OrderReplays] the repetition of recorded commands; [SalesProperties]
      the properties.
    - The shop in front of them, [modules/orders].  [Shop] has the catalog, carts, quotes and
      checkout records next to the tables of placed orders, and [cart-view.ts]; [Carts] the
      mutations of a customer's cart ([cart.service.ts], [cart-runtime.ts]) and its coupon
      ([cart-coupon.service.ts] with the limiter of [modules/promotions]); [Checkout] the
      preview and its quotes ([configured-shipping-quote.adapter.ts]) and the checkout
      ([checkout.service.ts]); [StaffOrders] the orders that staff enter
      ([staff-order.service.ts]); [CheckoutAddress] the form of a delivery address
      ([checkout-address.ts], [auth/mobile.ts]), over code points.  [ShopBooks] states the
      invariant; [CartProofs], [PlacingProofs], [CheckoutProofs] and [StaffOrderProofs] say
      what the transactions do; [ShopSafety] that they keep the invariants among other
      clients; [ShopProperties] has the properties.
    - Behind them, the workers.  [Processes] has programs that interleave, their runs alone
      ([exec]), schedules ([advanced]) and the rules that prove an invariant of all
      interleavings process by process ([wp], [steps_ok]).  [Outbox]: [modules/outbox] (relay,
      consumer, replay), the projection of events into notifications and the messages to
      customers of [modules/notifications], and the workers of [media-worker.ts].
      [OutboxProofs] shows that they keep the invariant; [OutboxProperties] has the
      properties.
    - [Door], [modules/custom-door-orders]: [door-pricing.ts], [door-manufacturing.ts] and
      [door-state.ts]; proofs in [DoorProofs].

    ** How the parts meet

    A service other than the inventory works on a [Durable.Domain]: the inventory tables
    and its own.  Goods receipts, stocktake approvals, credit sales and their compensations
    call the stock commands of [Inventory] on the first half, as the code calls
    [InventoryService] with its own transaction; their proofs use only the refinement
    lemmas of [InventoryProofs], so a property of the stock holds whatever service moved
    it.  Credit sales also drive the order and fulfillment machines of [StateMachine]
    through [recordTransition].  The commands on placed orders work on a domain whose own
    tables contain those of credit and of promotions: a cancellation or an expiry calls the
    release of the inventory and of the promotions, a settlement their consumption and
    confirmation, a refund the promotions' refund, all through lenses ([sales_credit],
    [sales_promo]), and the start of a fulfillment asks for the proof of money that a
    payment or a credit sale left.  The checkout works on the shop, whose tables contain all
    of these ([shop_sales]): it prices with [PromotionClaims], reserves promotion uses and
    stock, moves the order machine and writes the outbox, and the orders that it places
    start in the invariant that the commands on placed orders keep.  The events that all
    these write to the outbox are the input of the workers: [Outbox.Mail] holds the tables of
    placed orders next to the state of each delivery, and [elsewhere] says what the workers
    rely on (events are only added, orders and payments keep what messages tell).

    ** What the theorems show

    - Stock.  Every command implements the abstract stock machine; under any interleaving
      nothing is oversold (held quantities never exceed those on hand, nor these what the
      movements explain); a reservation is settled once; repeating a command with its key
      changes nothing; expiry takes its locks in one order; what the shop shows as
      available is exactly what can be reserved.
    - Listings.  Page after page, a listing of the inventory gives every row of its filter
      once in one strict order, in whatever order the database reads rows that compare
      equal.  [StocktakeProperties.shared_code_repeated] is a listing that does not.
      Codes of warehouses are unique, those of locations within their warehouse.
    - Transfers conserve the stock between shelves and transit and follow their life cycle.
    - Purchasing, stocktakes and credit.  A command, among other clients, either committed
      exactly once with its invariant kept, or failed and left nothing.  A receipt posts
      exactly its delivery and never exceeds the order; an approved count leaves exactly
      the counted stock; counters do not see the expected quantities before the review; the
      books of the credit ledger balance in every history, a sale ships what was reserved
      within the limit, and a compensation splits its amount between debt and refund and
      returns its goods to stock, except of a line whose key a movement bears already.
    - Placed orders.  In every history a shop order received nothing or exactly its total
      once, refunds stay within what was received, and a command only moves forward.  The key of
      a refund belongs to it in every later state; its repetition tells the refund with what
      the payment has by then.  A
      settlement ships the reserved stock and confirms the promotion uses, a cancellation or
      an expiry gives both back, each exactly once; a shipment holds exactly the ordered and
      picked lines of an order that is paid for; a recorded command answers its repetition.
    - The shop.  A mutation changes one quantity of one cart, once; while the version of a
      cart stays, so does what it holds; until it expires, a quote of a preview is
      accepted as quoted unless a promotion starts or ends; a checkout places exactly the
      order that was quoted, with its stock held balance by balance and its quote used, once for a key; an order of the staff is priced
      by the catalog alone and made once; an address has one form, and its digest tells
      addresses apart as far as the hash function does.
    - The outbox.  However the workers interleave and wherever they are stopped, an event has
      exactly one effect and its notifications once it is consumed, and none before; a
      customer gets no second message for an effect unless all before it were refused by rate
      limiting, and at most eight are tried.  A pass of the relay and a replay that nothing
      disturbs do exactly what they should, errors included; the checks of a replay take
      place in their order, and nothing is asked of the queue before the permission.
      [reconciliation_stays_open] is
      a schedule in which a reconciliation is left open.
    - State machines.  A status column is what its history of transitions leads to, two
      concurrent transitions of one state do not both succeed, and a fulfillment ends.
    - Retry runs an operation at most once and surfaces a defined error when it gives up.
    - Promotions.  Discounts stay within prices, are distributed to the last rial and do
      not depend on the order of promotions; the engine picks the best choice.  The used
      counts of promotions and coupons are exact and within their limits.
    - Doors.  Prices are the ceilings of exact rational formulas; a total is offered
      without a human only when no decision is open; production is gated by payment.

    ** Bounds and fuel

    No function runs on fuel chosen for convenience: the retry loops carry the number of
    attempts of the source (three, one or more when given), listings its page caps,
    and the loops over items recurse over their lists.  The expiry worker treats one batch
    of at most the size it is given, as the code does; the relay takes fifty events and a
    pass of the messages twenty-five effects, each at most eight times.  [pretty] prints
    integers of any size.

    ** Not modelled

    - Row locks ([FOR UPDATE]) are no steps of their own: serializable transactions do
      not need them to be correct, and the advisory locks are kept as a list only for the
      order in which they are taken.  Metrics, logging and back-off delays are left out.
    - Guest carts, the custom door order service, promotion administration and suppliers:
      their building blocks (carts, stock, prices, promotion capacity, state machines,
      durable commands) are modelled, and they may act as other clients.
    - The queue behind the outbox and the provider of text messages are other systems, which
      may answer anything at any time; the settings of the provider and the inbox that users
      read are left out.
    - Authentication rests on cryptographic libraries and a Redis server; media and invoices'
      PDF on external services and queues; catalog, content, blog and reports are mostly
      relational reads and record keeping.
    - The administration and storefront clients are React components that call the API. *)

From stdpp Require Export prelude strings gmap fin_maps sorting pretty.
From Stdlib Require Export ZArith Lia.
From Stdlib Require Import OrdersEx.

#[global] Set Default Goal Selector "!".

(** * Exceptions and results *)

(** The NestJS HTTP exception classes the services throw. *)
Inductive http_kind :=
  | BadRequestException
  | NotFoundException
  | ConflictException
  | UnprocessableEntityException
  | InternalServerErrorException
  | ServiceUnavailableException
  | HttpStatus (status : Z).  (** [new HttpException(body, status)] *)

(** A thrown value: an HTTP exception with its machine-readable [code] (absent
    when the code throws a bare message), an error of the Prisma client with its
    P-code and [meta.code], or an instance of a JavaScript error class. *)
Inductive exn :=
  | HttpException (kind : http_kind) (code : option string) (message : string)
  | PrismaClientKnownRequestError (code : string) (meta_code : option string)
  | JsError (cls : string) (message : string).

Inductive result (A : Type) :=
  | Ok (a : A)
  | Err (e : exn).
Arguments Ok {_} _.
Arguments Err {_} _.

(** A row that a CHECK constraint refuses. *)
Definition check_violation : exn :=
  JsError "PrismaClientUnknownRequestError" "new row violates check constraint".

(** Errors of the Prisma client: a unique index, a foreign key, a value out of its column's
    range, a row that is not there. *)
Definition P2002 : exn := PrismaClientKnownRequestError "P2002" None.
Definition P2003 : exn := PrismaClientKnownRequestError "P2003" None.
Definition P2020 : exn := PrismaClientKnownRequestError "P2020" None.
Definition P2025 : exn := PrismaClientKnownRequestError "P2025" None.

#[export] Instance http_kind_eq_dec : EqDecision http_kind.
Proof. solve_decision. Defined.
#[export] Instance exn_eq_dec : EqDecision exn.
Proof. solve_decision. Defined.

#[export] Instance result_ret : MRet result := fun _ a => Ok a.
#[export] Instance result_bind : MBind result := fun _ _ k m =>
  match m with Ok a => k a | Err e => Err e end.
#[export] Instance result_throw : MThrow exn result := fun _ e => Err e.

Definition is_ok {A} (r : result A) : bool :=
  match r with Ok _ => true | Err _ => false end.

(** * The transaction monad

    [M S A] runs on a database state [S]. A thrown exception carries no state:
    the enclosing [prisma.$transaction] rolls back and the caller keeps the
    state it had. *)
Definition M (S A : Type) : Type := S -> result (A * S).

#[export] Instance M_ret S : MRet (M S) := fun _ a s => Ok (a, s).
#[export] Instance M_bind S : MBind (M S) := fun _ _ k m s =>
  match m s with Ok (a, s') => k a s' | Err e => Err e end.
#[export] Instance M_throw S : MThrow exn (M S) := fun _ e _ => Err e.

Definition gets {S A} (f : S -> A) : M S A := fun s => Ok (f s, s).
Definition modify {S} (f : S -> S) : M S unit := fun s => Ok (tt, f s).
Definition lift_result {S A} (r : result A) : M S A := fun s =>
  match r with Ok a => Ok (a, s) | Err e => Err e end.

(** [if (b) throw e;] *)
Definition throw_if {S} (b : bool) (e : exn) : M S unit := fun s =>
  if b then Err e else Ok (tt, s).

(** [if (!x) throw e;] where [x] is used afterwards. *)
Definition unwrap {S A} (o : option A) (e : exn) : M S A := fun s =>
  match o with Some a => Ok (a, s) | None => Err e end.

(** [for (const x of xs) await f(x);] *)
Fixpoint for_each {S A} (xs : list A) (f : A -> M S unit) : M S unit :=
  match xs with
  | [] => mret tt
  | x :: xs => f x ;; for_each xs f
  end.

(** [const ys = []; for (const x of xs) ys.push(await f(x));] *)
Fixpoint map_each {S A B} (xs : list A) (f : A -> M S B) : M S (list B) :=
  match xs with
  | [] => mret []
  | x :: xs => y ← f x; ys ← map_each xs f; mret (y :: ys)
  end.

(** [let n = 0; for (const x of xs) n += await f(x);] *)
Fixpoint sum_each {S A} (xs : list A) (f : A -> M S Z) : M S Z :=
  match xs with
  | [] => mret 0%Z
  | x :: xs => n ← f x; rest ← sum_each xs f; mret (n + rest)%Z
  end.

(** A computation that starts a database transaction, as a total step of the
    committed state: an exception leaves the state unchanged. *)
Definition transaction {S A} (m : M S A) (s : S) : result A * S :=
  match m s with Ok (a, s') => (Ok a, s') | Err e => (Err e, s) end.

(** * Component views

    A service works on its own tables; a client whose state contains those
    tables runs the service's operations through a [Lens]. *)
Class Lens (S T : Type) := { view : S -> T; put : T -> S -> S }.
Class LensLaws (S T : Type) `{Lens S T} := {
  view_put : forall (t : T) (s : S), view (put t s) = t;
  put_view : forall s : S, put (view s : T) s = s;
  put_put : forall (t t' : T) (s : S), put t (put t' s) = put t s
}.

Definition zoom {S T A} `{Lens S T} (m : M T A) : M S A := fun s =>
  match m (view s) with Ok (a, t) => Ok (a, put t s) | Err e => Err e end.

(** * JavaScript values *)

(** A [number] argument before validation: an integral double, or any other
    double (a fraction, an infinity or NaN). *)
Inductive number := Int (z : Z) | NonInt.
#[export] Instance number_eq_dec : EqDecision number.
Proof. solve_decision. Defined.

Definition isInteger (n : number) : bool :=
  match n with Int _ => true | NonInt => false end.
Definition MAX_SAFE_INTEGER : Z := 9007199254740991.
Definition isSafeInteger (n : number) : bool :=
  match n with
  | Int z => (Z.abs z <=? MAX_SAFE_INTEGER)%Z
  | NonInt => false
  end.
(** The value of a number that passed [isInteger]. *)
Definition int_val (n : number) : Z := match n with Int z => z | NonInt => 0 end.

(** [function clampInt(value, min, max, fallback)] *)
Definition clampInt (value : option number) (lo hi fallback : Z) : Z :=
  match value with
  | Some (Int v) => Z.min hi (Z.max lo v)
  | _ => fallback
  end.

(** Strings are sequences of code units below 256. *)
Definition is_space (c : Ascii.ascii) : bool :=
  let n := Ascii.N_of_ascii c in
  ((9 <=? n) && (n <=? 13) || (n =? 32) || (n =? 160))%N.
Fixpoint trim_start (s : string) : string :=
  match s with
  | String c s' => if is_space c then trim_start s' else s
  | EmptyString => EmptyString
  end.
Fixpoint trim_end (s : string) : string :=
  match s with
  | String c s' =>
      match trim_end s' with
      | EmptyString => if is_space c then EmptyString else String c EmptyString
      | t => String c t
      end
  | EmptyString => EmptyString
  end.
(** [String.prototype.trim] *)
Definition trim (s : string) : string := trim_end (trim_start s).

Lemma trim_end_idem s : trim_end (trim_end s) = trim_end s.
Proof.
  induction s as [|c s IH]; [done|]. simpl. destruct (trim_end s) as [|c' t] eqn:E.
  - destruct (is_space c) eqn:Hc; simpl; [done|]. by rewrite Hc.
  - cbn [trim_end] in IH |- *. by rewrite IH.
Qed.
Lemma trim_start_idem s : trim_start (trim_start s) = trim_start s.
Proof. induction s as [|c s IH]; [done|]. simpl. destruct (is_space c) eqn:Hc; [done|]. simpl. by rewrite Hc. Qed.
Lemma trim_start_end s : trim_start (trim_end s) = trim_end (trim_start s).
Proof.
  induction s as [|c s IH]; [done|]. simpl. destruct (is_space c) eqn:Hc.
  - rewrite <- IH. destruct (trim_end s) as [|c' t]; [done|]. cbn [trim_start]. by rewrite Hc.
  - simpl. destruct (trim_end s) as [|c' t]; cbn [trim_start]; by rewrite Hc.
Qed.
Lemma trim_idem s : trim (trim s) = trim s.
Proof. unfold trim. by rewrite trim_start_end, trim_start_idem, trim_end_idem. Qed.

(** Decimal digits and the number they denote. *)
Definition is_digit (c : Ascii.ascii) : bool :=
  let n := Ascii.N_of_ascii c in ((48 <=? n) && (n <=? 57))%N.
Definition digit_value (c : Ascii.ascii) : Z := (Z.of_N (Ascii.N_of_ascii c) - 48)%Z.
Definition digits_value (ds : list Ascii.ascii) : Z :=
  foldl (fun n c => 10 * n + digit_value c)%Z 0%Z ds.

(** [/^(0|[1-9][0-9]{0,max-1})$/], with the number it denotes. *)
Definition parse_natural (max : nat) (ds : list Ascii.ascii) : option Z :=
  match ds with
  | [] => None
  | c :: rest =>
      if forallb is_digit ds && (length ds <=? max)%nat &&
         (bool_decide (digit_value c <> 0%Z) || bool_decide (rest = []))
      then Some (digits_value ds) else None
  end.

(** [randomUUID().replaceAll('-', '').toUpperCase()] *)
Definition upper_char (c : Ascii.ascii) : Ascii.ascii :=
  let n := Ascii.N_of_ascii c in
  if ((97 <=? n) && (n <=? 122))%N then Ascii.ascii_of_N (n - 32) else c.
Definition compact_uuid (uuid : string) : string :=
  String.string_of_list_ascii (upper_char <$>
    List.filter (fun c => negb (bool_decide (c = Ascii.ascii_of_N 45))) (String.list_ascii_of_string uuid)).

(** Truthiness of a string, and of [x?.trim()] for an optional string. *)
Definition truthy (s : string) : bool := negb (bool_decide (s = EmptyString)).
Definition truthy_opt (s : option string) : bool :=
  match s with Some s => truthy s | None => false end.
(** [a || b] on strings *)
Definition str_or (a b : string) : string := if truthy a then a else b.

(** [a < b] on strings: comparison by code units. *)
Definition js_ltb (a b : string) : bool :=
  match String_as_OT.compare a b with Lt => true | _ => false end.

(** [Array.prototype.sort] with a comparator.  The language fixes the result for a
    consistent comparator: the stable order in which [a] precedes [b] when
    [cmp a b <= 0]; here it is computed by insertion. *)
Definition cmp_le {A} (cmp : A -> A -> Z) (a b : A) : Prop := (cmp a b <= 0)%Z.
#[export] Instance cmp_le_dec {A} (cmp : A -> A -> Z) a b : Decision (cmp_le cmp a b) :=
  Z.le_dec (cmp a b) 0%Z.
Fixpoint sort_insert {A} (cmp : A -> A -> Z) (x : A) (l : list A) : list A :=
  match l with
  | [] => [x]
  | y :: l' => if decide (cmp_le cmp x y) then x :: l else y :: sort_insert cmp x l'
  end.
Definition js_sort {A} (cmp : A -> A -> Z) (l : list A) : list A :=
  foldr (sort_insert cmp) [] l.

(** [[...new Set(xs)]]: distinct elements in order of first occurrence. *)
Fixpoint unique_from {A} `{EqDecision A} (seen xs : list A) : list A :=
  match xs with
  | [] => []
  | x :: xs =>
      if decide (x ∈ seen) then unique_from seen xs
      else x :: unique_from (x :: seen) xs
  end.
Definition unique {A} `{EqDecision A} (xs : list A) : list A := unique_from [] xs.

(** [xs.slice(skip, skip + take)] on the rows of a page. *)
Definition page {A} (skip limit : Z) (xs : list A) : list A :=
  take (Z.to_nat limit) (drop (Z.to_nat skip) xs).

(** Sums of integers over a list. *)
Definition sumZ {A} (f : A -> Z) (l : list A) : Z :=
  foldr (fun a s => f a + s)%Z 0%Z l.

(** * Lemmas *)

Section monad.
Context {S : Type}.

Lemma bind_ok {A B} (m : M S A) (k : A -> M S B) s r :
  (m ≫= k) s = Ok r <-> exists a s', m s = Ok (a, s') /\ k a s' = Ok r.
Proof.
  unfold mbind, M_bind. destruct (m s) as [[a s']|e]; split; intros H.
  - by exists a, s'.
  - by destruct H as (? & ? & [= <- <-] & ?).
  - done.
  - by destruct H as (? & ? & ? & ?).
Qed.

Lemma bind_run {A B} (m : M S A) (k : A -> M S B) s a s' :
  m s = Ok (a, s') -> (m ≫= k) s = k a s'.
Proof. unfold mbind, M_bind. by intros ->. Qed.

Lemma bind_err {A B} (m : M S A) (k : A -> M S B) s e :
  m s = Err e -> (m ≫= k) s = Err e.
Proof. unfold mbind, M_bind. by intros ->. Qed.

Lemma ret_ok {A} (a : A) (s : S) r : (mret a : M S A) s = Ok r <-> r = (a, s).
Proof. unfold mret, M_ret. split; [by intros [= <-]|by intros ->]. Qed.

Lemma gets_ok {A} (f : S -> A) s r : gets f s = Ok r <-> r = (f s, s).
Proof. unfold gets. split; [by intros [= <-]|by intros ->]. Qed.

Lemma modify_ok (f : S -> S) s r : modify f s = Ok r <-> r = (tt, f s).
Proof. unfold modify. split; [by intros [= <-]|by intros ->]. Qed.

Lemma throw_if_ok b e (s : S) r : throw_if b e s = Ok r <-> b = false /\ r = (tt, s).
Proof. unfold throw_if. destruct b; naive_solver. Qed.

Lemma unwrap_ok {A} (o : option A) e (s : S) r :
  unwrap o e s = Ok r <-> exists a, o = Some a /\ r = (a, s).
Proof. unfold unwrap. destruct o; naive_solver. Qed.

Lemma lift_result_ok {A} (o : result A) (s : S) r :
  lift_result o s = Ok r <-> exists a, o = Ok a /\ r = (a, s).
Proof. unfold lift_result. destruct o; naive_solver. Qed.

Lemma throw_ok {A} (e : exn) (s : S) (r : A * S) : (mthrow e : M S A) s = Ok r <-> False.
Proof. done. Qed.
End monad.

(** [run_inv] opens a successful run into the runs of its steps. *)
Ltac run_step H :=
  first
  [ apply bind_ok in H;
    let a := fresh "x" in let s := fresh "s" in let H1 := fresh "Hrun" in
    destruct H as (a & s & H1 & H)
  | apply ret_ok in H; simplify_eq
  | apply gets_ok in H; simplify_eq
  | apply modify_ok in H; simplify_eq
  | let Hb := fresh "Hguard" in apply throw_if_ok in H; destruct H as [Hb H]; simplify_eq
  | let a := fresh "v" in let Ho := fresh "Hsome" in
    apply unwrap_ok in H; destruct H as (a & Ho & H); simplify_eq
  | let a := fresh "v" in let Ho := fresh "Hres" in
    apply lift_result_ok in H; destruct H as (a & Ho & H); simplify_eq
  | apply throw_ok in H; destruct H
  | idtac ].
Ltac run_inv :=
  repeat match goal with
  | H : (_ ≫= _) _ = Ok _ |- _ => run_step H
  | H : throw_if _ _ _ = Ok _ |- _ => run_step H
  | H : gets _ _ = Ok _ |- _ => run_step H
  | H : modify _ _ = Ok _ |- _ => run_step H
  | H : unwrap _ _ _ = Ok _ |- _ => run_step H
  | H : lift_result _ _ = Ok _ |- _ => run_step H
  | H : mret _ _ = Ok _ |- _ => run_step H
  | H : mthrow _ _ = Ok _ |- _ => run_step H
  end.

(** A loop of checks reads and throws only. *)
Lemma for_each_reads {S A} (f : A -> M S unit) l s u s' :
  (forall x s u s', f x s = Ok (u, s') -> s' = s) -> for_each l f s = Ok (u, s') -> s' = s.
Proof.
  intros Hf. induction l as [|x l IH]; simpl; intros H; run_inv; [done|].
  apply Hf in Hrun. subst. by apply IH.
Qed.

Lemma for_each_checks {S A} (b : A -> bool) (e : A -> exn) l (s : S) u s' :
  for_each l (fun x => throw_if (b x) (e x)) s = Ok (u, s') -> s' = s /\ forall x, x ∈ l -> b x = false.
Proof.
  revert s. induction l as [|x l IH]; simpl; intros s H; run_inv.
  - split; [done|]. intros x Hx. by apply elem_of_nil in Hx.
  - apply IH in H as [-> H]. split; [done|]. intros y [->|Hy]%elem_of_cons; [done|by apply H].
Qed.

(** * Preserved state predicates *)

(** Every successful run of [m] from a state with [P] ends in one with [P]. *)
Definition preserves {S A} (P : S -> Prop) (m : M S A) : Prop :=
  forall s a s', P s -> m s = Ok (a, s') -> P s'.

Create HintDb pres.

Section preserves.
Context {S : Type} (P : S -> Prop).

Lemma preserves_bind {A B} (m : M S A) (k : A -> M S B) :
  preserves P m -> (forall a, preserves P (k a)) -> preserves P (m ≫= k).
Proof. intros Hm Hk s b s' Hs H. run_inv. eapply Hk; [|done]. by eapply Hm. Qed.

Lemma preserves_ret {A} (a : A) : preserves P (mret a : M S A).
Proof. intros s b s' Hs H. by run_inv. Qed.

Lemma preserves_gets {A} (f : S -> A) : preserves P (gets f).
Proof. intros s b s' Hs H. by run_inv. Qed.

Lemma preserves_throw_if b e : preserves P (throw_if b e).
Proof. intros s c s' Hs H. by run_inv. Qed.

Lemma preserves_unwrap {A} (o : option A) e : preserves P (unwrap o e).
Proof. intros s c s' Hs H. by run_inv. Qed.

Lemma preserves_lift_result {A} (r : result A) : preserves P (lift_result r).
Proof. intros s c s' Hs H. by run_inv. Qed.

Lemma preserves_throw {A} (e : exn) : preserves P (mthrow e : M S A).
Proof. intros s c s' Hs H. by run_inv. Qed.

Lemma preserves_for_each {A} (xs : list A) (f : A -> M S unit) :
  (forall x, x ∈ xs -> preserves P (f x)) -> preserves P (for_each xs f).
Proof.
  induction xs as [|x xs IH]; intros Hf; simpl; [apply preserves_ret|].
  apply preserves_bind; [apply Hf; set_solver|]. intros _. apply IH. set_solver.
Qed.

Lemma preserves_sum_each {A} (xs : list A) (f : A -> M S Z) :
  (forall x, x ∈ xs -> preserves P (f x)) -> preserves P (sum_each xs f).
Proof.
  induction xs as [|x xs IH]; intros Hf; simpl; [apply preserves_ret|].
  apply preserves_bind; [apply Hf; set_solver|]. intros n.
  apply preserves_bind; [apply IH; set_solver|]. intros. apply preserves_ret.
Qed.

Lemma preserves_transaction {A} (m : M S A) s :
  preserves P m -> P s -> P (transaction m s).2.
Proof.
  intros Hm Hs. unfold transaction. destruct (m s) as [[a s']|e] eqn:E; [|done].
  by eapply Hm.
Qed.
End preserves.

Lemma preserves_modify {S} (P : S -> Prop) f : (forall s, P s -> P (f s)) -> preserves P (modify f).
Proof. intros Hf s b s' Hs H. run_inv. by apply Hf. Qed.

Lemma preserves_zoom {S T A} `{Lens S T} (P : S -> Prop) (m : M T A) :
  (forall s t, P s -> P (put t s)) -> preserves P (zoom m).
Proof.
  intros Hp s a s' Hs. unfold zoom. destruct (m (view s)) as [[x t]|]; [|done].
  intros [= _ <-]. by apply Hp.
Qed.

(** A run on a component. *)
Lemma zoom_ok {S T A} `{Lens S T} (m : M T A) (s : S) a s' :
  zoom m s = Ok (a, s') <-> exists t, m (view s) = Ok (a, t) /\ s' = put t s.
Proof.
  unfold zoom. destruct (m (view s)) as [[x t]|e]; split; intros E.
  - injection E as -> <-. eauto.
  - by destruct E as (t' & [= -> ->] & ->).
  - done.
  - by destruct E as (t' & [=] & _).
Qed.

#[export] Hint Resolve preserves_bind preserves_ret preserves_gets preserves_throw_if
  preserves_unwrap preserves_lift_result preserves_throw preserves_for_each preserves_sum_each : pres.

(** * Errors a computation never raises *)

Definition avoids {S A} (e : exn) (m : M S A) : Prop := forall s, m s <> Err e.

Section avoids.
Context {S : Type} (e : exn).

Lemma avoids_bind {A B} (m : M S A) (k : A -> M S B) :
  avoids e m -> (forall a, avoids e (k a)) -> avoids e (m ≫= k).
Proof.
  intros Hm Hk s. unfold mbind, M_bind. specialize (Hm s). destruct (m s) as [[a s']|e']; [apply Hk|congruence].
Qed.

Lemma avoids_ret {A} (a : A) : avoids e (mret a : M S A).
Proof. done. Qed.
Lemma avoids_gets {A} (f : S -> A) : avoids e (gets f).
Proof. done. Qed.
Lemma avoids_modify f : avoids e (modify (S := S) f).
Proof. done. Qed.
Lemma avoids_throw_if b e' : e' <> e -> avoids e (throw_if (S := S) b e').
Proof. intros He s. unfold throw_if. destruct b; congruence. Qed.
Lemma avoids_unwrap {A} (o : option A) e' : e' <> e -> avoids e (unwrap (S := S) o e').
Proof. intros He s. unfold unwrap. destruct o; congruence. Qed.

(** A failing sequence fails in a step. *)
Lemma bind_err_inv {A B} (m : M S A) (k : A -> M S B) s :
  (m ≫= k) s = Err e -> m s = Err e \/ exists a s', m s = Ok (a, s') /\ k a s' = Err e.
Proof. unfold mbind, M_bind. destruct (m s) as [[a s']|e']; naive_solver. Qed.
End avoids.

(** [solve_preserves] walks through monadic code, splitting its matches. *)
Ltac solve_preserves :=
  repeat match goal with
  | |- preserves _ (match ?x with _ => _ end) => destruct x
  | |- preserves _ (_ ≫= _) => apply preserves_bind
  | |- preserves _ (let _ := _ in _) => cbv zeta
  | |- forall _, _ => intro
  | |- preserves _ _ => solve [eauto with pres]
  end.

(** * Strings and sorting *)

Lemma js_ltb_lt a b : js_ltb a b = true <-> String_as_OT.lt a b.
Proof.
  unfold js_ltb, String_as_OT.lt. destruct (String_as_OT.compare a b); naive_solver.
Qed.

Lemma js_ltb_irrefl a : js_ltb a a = false.
Proof.
  apply not_true_is_false. rewrite js_ltb_lt. apply (irreflexivity String_as_OT.lt).
Qed.

Lemma js_ltb_trans a b c : js_ltb a b = true -> js_ltb b c = true -> js_ltb a c = true.
Proof. rewrite !js_ltb_lt. apply (transitivity (R := String_as_OT.lt)). Qed.

Lemma js_ltb_total a b : js_ltb a b = true \/ a = b \/ js_ltb b a = true.
Proof.
  rewrite !js_ltb_lt. destruct (String_as_OT.compare_spec a b); auto.
Qed.

Lemma js_ltb_antisym a b : js_ltb a b = true -> js_ltb b a = false.
Proof.
  intros H. apply not_true_is_false. intros H'.
  pose proof (js_ltb_trans _ _ _ H H') as H''. by rewrite js_ltb_irrefl in H''.
Qed.

Section sorting.
Context {A : Type} (cmp : A -> A -> Z).

Lemma sort_insert_Permutation x l : sort_insert cmp x l ≡ₚ x :: l.
Proof.
  induction l as [|y l IH]; simpl; [done|]. case_decide; [done|].
  rewrite IH. constructor.
Qed.

Lemma js_sort_Permutation l : js_sort cmp l ≡ₚ l.
Proof.
  induction l as [|x l IH]; [done|]. simpl. rewrite sort_insert_Permutation.
  by constructor.
Qed.

Lemma elem_of_js_sort x l : x ∈ js_sort cmp l <-> x ∈ l.
Proof. by rewrite js_sort_Permutation. Qed.

Lemma sort_insert_sorted x l :
  Transitive (cmp_le cmp) -> StronglySorted (cmp_le cmp) l ->
  Forall (fun y => cmp_le cmp x y \/ cmp_le cmp y x) l ->
  StronglySorted (cmp_le cmp) (sort_insert cmp x l).
Proof.
  intros Ht. induction 1 as [|y l Hs IH Hall]; intros Hx; simpl; [repeat constructor|].
  apply Forall_cons in Hx as [Hxy Hx]. case_decide as Hd.
  - constructor; [by constructor|]. constructor; [done|].
    eapply Forall_impl; [exact Hall|]. intros z Hz. by etrans.
  - constructor; [by apply IH|]. rewrite sort_insert_Permutation. constructor; [tauto|done].
Qed.

(** Sortedness for a comparator that decides every two elements of the list. *)
Lemma js_sort_sorted_pairs l :
  Transitive (cmp_le cmp) ->
  ForallOrdPairs (fun a b => cmp_le cmp a b \/ cmp_le cmp b a) l ->
  StronglySorted (cmp_le cmp) (js_sort cmp l).
Proof.
  intros Ht. induction 1 as [|x l Hx _ IH]; simpl; [constructor|].
  apply sort_insert_sorted; [done..|]. by rewrite js_sort_Permutation.
Qed.

Lemma js_sort_sorted `{!Total (cmp_le cmp), !Transitive (cmp_le cmp)} l :
  StronglySorted (cmp_le cmp) (js_sort cmp l).
Proof.
  apply js_sort_sorted_pairs; [done|]. induction l as [|x l IH]; constructor; [|done].
  apply Forall_forall. intros y _. apply total. apply _.
Qed.
End sorting.

(** * Sums *)

Lemma sumZ_cons {A} (f : A -> Z) x l : sumZ f (x :: l) = (f x + sumZ f l)%Z.
Proof. done. Qed.

Lemma sumZ_app {A} (f : A -> Z) l1 l2 : sumZ f (l1 ++ l2) = (sumZ f l1 + sumZ f l2)%Z.
Proof. induction l1; simpl; lia. Qed.

Lemma sumZ_nonneg {A} (f : A -> Z) l : (forall x, x ∈ l -> 0 <= f x)%Z -> (0 <= sumZ f l)%Z.
Proof.
  induction l as [|x l IH]; simpl; intros H; [lia|].
  pose proof (H x ltac:(set_solver)). specialize (IH ltac:(set_solver)). lia.
Qed.

Lemma sumZ_le {A} (f g : A -> Z) l :
  (forall x, x ∈ l -> f x <= g x)%Z -> (sumZ f l <= sumZ g l)%Z.
Proof.
  induction l as [|x l IH]; simpl; intros H; [lia|].
  pose proof (H x ltac:(set_solver)). specialize (IH ltac:(set_solver)). lia.
Qed.

Lemma sumZ_ext {A} (f g : A -> Z) l :
  (forall x, x ∈ l -> f x = g x)%Z -> sumZ f l = sumZ g l.
Proof.
  induction l as [|x l IH]; simpl; intros H; [lia|].
  rewrite (H x), IH; set_solver.
Qed.

Lemma sumZ_Permutation {A} (f : A -> Z) l1 l2 : l1 ≡ₚ l2 -> sumZ f l1 = sumZ f l2.
Proof. induction 1; simpl; lia. Qed.

#[export] Instance sumZ_Proper {A} (f : A -> Z) : Proper ((≡ₚ) ==> eq) (sumZ f).
Proof. intros l1 l2. apply sumZ_Permutation. Qed.

Lemma sumZ_add {A} (f g : A -> Z) l : sumZ (fun x => f x + g x)%Z l = (sumZ f l + sumZ g l)%Z.
Proof. induction l; simpl; lia. Qed.

Lemma sumZ_const {A} c (l : list A) : sumZ (fun _ => c) l = (c * Z.of_nat (length l))%Z.
Proof. induction l; simpl length; simpl; lia. Qed.

Lemma sumZ_scale {A} c (f : A -> Z) l : (c * sumZ f l)%Z = sumZ (fun x => c * f x)%Z l.
Proof. induction l; simpl; lia. Qed.

Lemma sumZ_swap {A B} (f : A -> B -> Z) l1 l2 :
  sumZ (fun a => sumZ (f a) l2) l1 = sumZ (fun b => sumZ (fun a => f a b) l1) l2.
Proof.
  induction l1 as [|a l1 IH].
  - simpl. rewrite sumZ_const. lia.
  - rewrite sumZ_cons, IH, <- sumZ_add. apply sumZ_ext. intros b _. by rewrite sumZ_cons.
Qed.

Lemma sumZ_fmap {A B} (f : B -> Z) (g : A -> B) l : sumZ f (g <$> l) = sumZ (fun x => f (g x)) l.
Proof. induction l as [|x l IH]; [done|]. simpl. f_equal. apply IH. Qed.

(** * Lists *)

Lemma fmap_fst_pair {A B} (f : A -> B) (l : list A) : fst <$> ((fun x => (x, f x)) <$> l) = l.
Proof. induction l as [|x l IH]; [done|]. simpl. f_equal. apply IH. Qed.

Lemma elem_of_unique_from {A} `{EqDecision A} (x : A) seen xs :
  x ∈ unique_from seen xs <-> x ∈ xs /\ x ∉ seen.
Proof.
  revert seen. induction xs as [|y xs IH]; intros seen; simpl; [set_solver|].
  case_decide.
  - rewrite IH. set_solver.
  - destruct (decide (x = y)) as [->|Hne]; [set_solver|].
    rewrite elem_of_cons, IH. set_solver.
Qed.

Lemma elem_of_unique {A} `{EqDecision A} (x : A) xs : x ∈ unique xs <-> x ∈ xs.
Proof. unfold unique. rewrite elem_of_unique_from. set_solver. Qed.

Lemma NoDup_unique_from {A} `{EqDecision A} (seen xs : list A) : NoDup (unique_from seen xs).
Proof.
  revert seen. induction xs as [|y xs IH]; intros seen; simpl; [constructor|].
  case_decide; [apply IH|]. constructor; [|apply IH].
  rewrite elem_of_unique_from. set_solver.
Qed.

Lemma NoDup_unique {A} `{EqDecision A} (xs : list A) : NoDup (unique xs).
Proof. apply NoDup_unique_from. Qed.

(** * Runs under a precondition with a two-state guarantee *)

(** From every state with [P], a successful run of [m] ends in a state with [P]
    that [R] relates to the first. *)
Definition guarantees {S A} (P : S -> Prop) (R : S -> S -> Prop) (m : M S A) : Prop :=
  forall s a s', P s -> m s = Ok (a, s') -> P s' /\ R s s'.
