(* ===== verification/Decimals.v ===== *)
(** Decimal numerals: the canonical digit strings, the numbers they denote, and the
    printing of a number. *)

From S2P Require Import Prelude.

Open Scope Z_scope.

(** * Decimal strings *)

Definition canonical (ds : list Ascii.ascii) : Prop :=
  Forall (fun c => is_digit c = true) ds /\ ds <> [] /\
  (digit_value (hd Ascii.zero ds) = 0 -> length ds = 1%nat).

Lemma digit_range c : is_digit c = true -> 0 <= digit_value c <= 9.
Proof. unfold is_digit, digit_value. rewrite andb_true_iff, !N.leb_le. lia. Qed.

Lemma digit_inj c1 c2 : digit_value c1 = digit_value c2 -> c1 = c2.
Proof.
  unfold digit_value. intros H. rewrite <- (Ascii.ascii_N_embedding c1), <- (Ascii.ascii_N_embedding c2).
  f_equal. lia.
Qed.

Lemma digits_value_snoc ds c : digits_value (ds ++ [c]) = 10 * digits_value ds + digit_value c.
Proof. unfold digits_value. by rewrite foldl_app. Qed.

Lemma digits_value_bounds ds :
  Forall (fun c => is_digit c = true) ds -> 0 <= digits_value ds < 10 ^ Z.of_nat (length ds).
Proof.
  induction ds as [|c ds IH] using rev_ind; intros H; [done|].
  apply Forall_app in H as [H Hc]. apply Forall_cons in Hc as [Hc _]. apply digit_range in Hc.
  rewrite digits_value_snoc, length_app. simpl length. specialize (IH H).
  rewrite Nat.add_1_r, Nat2Z.inj_succ, Z.pow_succ_r by lia. lia.
Qed.

(** A number without leading zeros is at least the power of ten of its length. *)
Lemma digits_value_lower c ds :
  is_digit c = true -> Forall (fun c => is_digit c = true) ds ->
  digit_value c * 10 ^ Z.of_nat (length ds) <= digits_value (c :: ds).
Proof.
  intros Hc. induction ds as [|d ds IH] using rev_ind; intros H.
  - unfold digits_value. simpl. lia.
  - apply Forall_app in H as [H Hd]. apply Forall_cons in Hd as [Hd _]. apply digit_range in Hd.
    change (c :: ds ++ [d]) with ((c :: ds) ++ [d]). rewrite digits_value_snoc, length_app.
    simpl length. specialize (IH H). rewrite Nat.add_1_r, Nat2Z.inj_succ, Z.pow_succ_r by lia. lia.
Qed.

Lemma digits_value_same_length ds1 ds2 :
  Forall (fun c => is_digit c = true) ds1 -> Forall (fun c => is_digit c = true) ds2 ->
  length ds1 = length ds2 -> digits_value ds1 = digits_value ds2 -> ds1 = ds2.
Proof.
  revert ds2. induction ds1 as [|c ds1 IH] using rev_ind; intros ds2 H1 H2 Hlen Hv.
  - by destruct ds2.
  - destruct ds2 as [|d ds2 _] using rev_ind; [by rewrite length_app in Hlen; simpl in Hlen; lia|].
    rewrite !length_app in Hlen. simpl in Hlen. rewrite !digits_value_snoc in Hv.
    apply Forall_app in H1 as [H1 Hc], H2 as [H2 Hd]. apply Forall_cons in Hc as [Hc _], Hd as [Hd _].
    pose proof (digit_range _ Hc). pose proof (digit_range _ Hd).
    assert (digit_value c = digit_value d) as Hcd%digit_inj by lia. subst d.
    f_equal. apply IH; [done..|lia|lia].
Qed.

(** Canonical numerals of equal value are equal. *)
Lemma canonical_inj ds1 ds2 :
  canonical ds1 -> canonical ds2 -> digits_value ds1 = digits_value ds2 -> ds1 = ds2.
Proof.
  assert (Hlen : forall ds1 ds2, canonical ds1 -> canonical ds2 ->
    digits_value ds1 = digits_value ds2 -> (length ds1 <= length ds2)%nat).
  { intros a b (Ha & Hne & Hz) (Hb & Hbne & _) Hv. destruct a as [|c a]; [done|]. simpl in Hz.
    apply Forall_cons in Ha as [Hc Ha]. pose proof (digits_value_lower c a Hc Ha) as Hlow.
    pose proof (digits_value_bounds b Hb) as Hup. pose proof (digit_range c Hc).
    destruct b as [|c' b]; [done|]. simpl.
    destruct (decide (digit_value c = 0)) as [H0|H0]; [specialize (Hz H0); lia|].
    destruct (decide (S (length a) <= S (length b))%nat); [lia|exfalso].
    assert (10 ^ Z.of_nat (length (c' :: b)) <= 10 ^ Z.of_nat (length a))
      by (apply Z.pow_le_mono_r; simpl; lia).
    assert (10 ^ Z.of_nat (length a) <= digit_value c * 10 ^ Z.of_nat (length a)) by nia. lia. }
  intros H1 H2 Hv. apply digits_value_same_length; [apply H1|apply H2| |done].
  pose proof (Hlen _ _ H1 H2 Hv). pose proof (Hlen _ _ H2 H1 (eq_sym Hv)). lia.
Qed.

Lemma parse_natural_Some max ds n :
  parse_natural max ds = Some n <-> canonical ds /\ (length ds <= max)%nat /\ n = digits_value ds.
Proof.
  unfold parse_natural, canonical. destruct ds as [|c rest]; [naive_solver|]. simpl hd.
  destruct (_ && _) eqn:E.
  - apply andb_true_iff in E as [[Hd Hl]%andb_true_iff Hz]. apply Nat.leb_le in Hl.
    rewrite forallb_forall in Hd. split; [|naive_solver]. intros [= <-]. split; [|done].
    split; [apply Forall_forall; intros x Hx; by apply Hd, list_elem_of_In|]. split; [done|].
    intros H0. apply orb_true_iff in Hz. rewrite !bool_decide_eq_true in Hz. destruct Hz as [Hz|Hz]; [done|].
    by rewrite Hz.
  - split; [done|]. intros [(Hd & _ & Hz) [Hl _]]. apply not_true_iff_false in E. destruct E.
    rewrite !andb_true_iff, orb_true_iff, !bool_decide_eq_true, Nat.leb_le. split; [split; [|done]|].
    + apply forallb_forall. intros x Hx. rewrite Forall_forall in Hd. by apply Hd, list_elem_of_In.
    + destruct (decide (digit_value c = 0)) as [H0|H0]; [|by left]. right.
      specialize (Hz H0). simpl in Hz. by destruct rest.
Qed.

(** ** Printing: [n.toString()] *)

Definition print_money (n : Z) : string := pretty (Z.to_N n).

Lemma pretty_char n : (n < 10)%N -> is_digit (pretty_N_char n) = true /\ digit_value (pretty_N_char n) = Z.of_N n.
Proof.
  intros H. assert (n ∈ [0; 1; 2; 3; 4; 5; 6; 7; 8; 9]%N) as Hn.
  { destruct n as [|p]; [set_solver|]. do 4 (destruct p as [p|p|]; try lia; try set_solver). }
  repeat (apply elem_of_cons in Hn as [->|Hn]; [done|]). by apply elem_of_nil in Hn.
Qed.

Lemma pretty_go n s :
  exists ds, String.list_ascii_of_string (pretty_N_go n s) = ds ++ String.list_ascii_of_string s /\
    Forall (fun c => is_digit c = true) ds /\ digits_value ds = Z.of_N n /\
    (n = 0%N -> ds = []) /\ (n <> 0%N -> ds <> [] /\ digit_value (hd Ascii.zero ds) <> 0).
Proof.
  revert s. induction (N.lt_wf_0 n) as [n _ IH]; intros s.
  destruct (decide (n = 0)%N) as [->|Hn].
  - exists []. rewrite pretty_N_go_0. done.
  - rewrite pretty_N_go_step by lia. assert (Hdiv : (n / 10 < n)%N) by (apply N.div_lt; lia).
    destruct (IH _ Hdiv (String (pretty_N_char (n `mod` 10)) s)) as (ds & -> & Hd & Hv & H0 & Hhd).
    assert (Hmod : (n `mod` 10 < 10)%N) by (apply N.mod_lt; lia). pose proof (N.div_mod n 10 ltac:(lia)).
    destruct (pretty_char _ Hmod) as [Hc Hcv]. exists (ds ++ [pretty_N_char (n `mod` 10)]).
    split; [by rewrite <- app_assoc|]. split; [by apply Forall_app; split; [|apply Forall_cons]|].
    split; [rewrite digits_value_snoc, Hv, Hcv; lia|]. split; [done|]. intros _. split; [by destruct ds|].
    destruct (decide (n / 10 = 0)%N) as [Hz|Hz].
    + rewrite (H0 Hz). simpl. rewrite Hcv. lia.
    + destruct (Hhd Hz) as [Hne Hlead]. by destruct ds.
Qed.

Lemma print_money_canonical n :
  0 <= n -> canonical (String.list_ascii_of_string (print_money n)) /\
  digits_value (String.list_ascii_of_string (print_money n)) = n.
Proof.
  intros Hn. unfold print_money, pretty, pretty_N. destruct (decide (Z.to_N n = 0)%N) as [H0|H0].
  - assert (n = 0) as -> by lia. vm_compute. split; [|done]. split; [by repeat constructor|done].
  - destruct (pretty_go (Z.to_N n) EmptyString) as (ds & -> & Hd & Hv & _ & Hhd). simpl.
    rewrite app_nil_r. destruct (Hhd H0) as [Hne Hlead]. rewrite Hv. split; [|lia].
    split; [done|]. split; [done|]. intros Hz. by destruct (Hlead Hz).
Qed.

Lemma list_ascii_inj s1 s2 :
  String.list_ascii_of_string s1 = String.list_ascii_of_string s2 -> s1 = s2.
Proof.
  intros H. rewrite <- (String.string_of_list_ascii_of_string s1), H.
  apply String.string_of_list_ascii_of_string.
Qed.
