(* ===== verification/StateMachine.v ===== *)
(** The order, payment and fulfillment state machines of
    [src/apps/api/src/common/state-machine.ts]: the transition maps,
    [canTransition], [assertTransition] and [recordTransition], which appends an
    immutable transition row and advances the denormalised status column in the
    same transaction.  The theorems relate the status column to the history. *)

From S2P Require Import Prelude.

(** * Data *)

Inductive OrderStatus :=
  | DRAFT | PENDING_PAYMENT | CREDIT_APPROVED | PAID | CANCELLED | RETURNED.
Inductive PaymentStatus :=
  | PAY_PENDING | PAY_PAID | PAY_FAILED | PAY_CANCELLED | PAY_REFUNDED
  | PAY_PARTIALLY_REFUNDED.
Inductive FulfillmentStatus :=
  | FUL_PENDING | FUL_PROCESSING | FUL_READY_TO_SHIP | FUL_SHIPPED
  | FUL_DELIVERED | FUL_CANCELLED | FUL_RETURNED.

#[export] Instance OrderStatus_eq_dec : EqDecision OrderStatus.
Proof. solve_decision. Defined.
#[export] Instance PaymentStatus_eq_dec : EqDecision PaymentStatus.
Proof. solve_decision. Defined.
#[export] Instance FulfillmentStatus_eq_dec : EqDecision FulfillmentStatus.
Proof. solve_decision. Defined.

(** [TransitionMap]: a set of successors for every status. *)
Definition TransitionMap (Status : Type) : Type := Status -> list Status.

Definition ORDER_TRANSITIONS : TransitionMap OrderStatus := fun from =>
  match from with
  | DRAFT => [PENDING_PAYMENT; CANCELLED]
  | PENDING_PAYMENT => [PAID; CREDIT_APPROVED; CANCELLED]
  | CREDIT_APPROVED => [CANCELLED; RETURNED]
  | PAID => []
  | CANCELLED => []
  | RETURNED => []
  end.

Definition PAYMENT_TRANSITIONS : TransitionMap PaymentStatus := fun from =>
  match from with
  | PAY_PENDING => [PAY_PAID; PAY_FAILED; PAY_CANCELLED]
  | PAY_PAID => [PAY_REFUNDED; PAY_PARTIALLY_REFUNDED]
  | PAY_FAILED => [PAY_PENDING; PAY_CANCELLED]
  | PAY_CANCELLED => [PAY_PENDING]
  | PAY_REFUNDED => []
  | PAY_PARTIALLY_REFUNDED => [PAY_REFUNDED]
  end.

Definition FULFILLMENT_TRANSITIONS : TransitionMap FulfillmentStatus := fun from =>
  match from with
  | FUL_PENDING => [FUL_PROCESSING; FUL_CANCELLED]
  | FUL_PROCESSING => [FUL_READY_TO_SHIP; FUL_CANCELLED]
  | FUL_READY_TO_SHIP => [FUL_SHIPPED; FUL_CANCELLED]
  | FUL_SHIPPED => [FUL_DELIVERED]
  | FUL_DELIVERED => [FUL_RETURNED]
  | FUL_CANCELLED => []
  | FUL_RETURNED => []
  end.

Definition order_status_str (s : OrderStatus) : string :=
  match s with
  | DRAFT => "DRAFT" | PENDING_PAYMENT => "PENDING_PAYMENT"
  | CREDIT_APPROVED => "CREDIT_APPROVED" | PAID => "PAID"
  | CANCELLED => "CANCELLED" | RETURNED => "RETURNED"
  end.
Definition payment_status_str (s : PaymentStatus) : string :=
  match s with
  | PAY_PENDING => "PENDING" | PAY_PAID => "PAID" | PAY_FAILED => "FAILED"
  | PAY_CANCELLED => "CANCELLED" | PAY_REFUNDED => "REFUNDED"
  | PAY_PARTIALLY_REFUNDED => "PARTIALLY_REFUNDED"
  end.
Definition fulfillment_status_str (s : FulfillmentStatus) : string :=
  match s with
  | FUL_PENDING => "PENDING" | FUL_PROCESSING => "PROCESSING"
  | FUL_READY_TO_SHIP => "READY_TO_SHIP" | FUL_SHIPPED => "SHIPPED"
  | FUL_DELIVERED => "DELIVERED" | FUL_CANCELLED => "CANCELLED"
  | FUL_RETURNED => "RETURNED"
  end.

(** [MACHINES] and [TARGETS]: the machine of a status type, its map and the name
    used in messages. *)
Class Machine (Status : Type) := {
  machine_eq_dec :: EqDecision Status;
  machine_name : string;
  machine_map : TransitionMap Status;
  status_str : Status -> string
}.
#[export] Instance order_machine : Machine OrderStatus := {|
  machine_name := "order"; machine_map := ORDER_TRANSITIONS;
  status_str := order_status_str |}.
#[export] Instance payment_machine : Machine PaymentStatus := {|
  machine_name := "payment"; machine_map := PAYMENT_TRANSITIONS;
  status_str := payment_status_str |}.
#[export] Instance fulfillment_machine : Machine FulfillmentStatus := {|
  machine_name := "fulfillment"; machine_map := FULFILLMENT_TRANSITIONS;
  status_str := fulfillment_status_str |}.

(** A row of [OrderTransition], [PaymentTransition] or [FulfillmentTransition]. *)
Record Transition (Status : Type) := mkTransition {
  tr_id : string;
  tr_parentId : string;
  tr_from : Status;
  tr_to : Status;
  tr_actorId : option string;
  tr_requestId : option string;
  tr_reason : option string
}.
Arguments mkTransition {_} _ _ _ _ _ _ _.
Arguments tr_id {_} _. Arguments tr_parentId {_} _. Arguments tr_from {_} _.
Arguments tr_to {_} _. Arguments tr_actorId {_} _. Arguments tr_requestId {_} _.
Arguments tr_reason {_} _.

(** The status column of every aggregate row and its transition rows, oldest
    first. *)
Record StatusDb (Status : Type) := mkStatusDb {
  sd_status : gmap string Status;
  sd_history : list (Transition Status)
}.
Arguments mkStatusDb {_} _ _.
Arguments sd_status {_} _. Arguments sd_history {_} _.

(** * Operations *)

Definition canTransition {Status} `{EqDecision Status}
    (from to : Status) (map : TransitionMap Status) : bool :=
  if bool_decide (from = to) then false else bool_decide (to ∈ map from).

Definition ORDER_STATE_CONFLICT_ERROR : string := "ORDER_STATE_CONFLICT".
Definition stateConflict (message : string) : exn :=
  HttpException ConflictException (Some ORDER_STATE_CONFLICT_ERROR) message.

Section machine.
Context {Status : Type} `{!Machine Status}.

Definition illegal_message (from to : Status) : string :=
  "Illegal state transition: " +:+ status_str from +:+ " -> " +:+ status_str to +:+ ".".

Definition assertTransition (from to : Status) (map : TransitionMap Status)
    (message : option string) : result unit :=
  if canTransition from to map then Ok tt
  else Err (stateConflict (default (illegal_message from to) message)).

Record TransitionMeta := {
  tm_actorId : option string;
  tm_requestId : option string;
  tm_reason : option string
}.

(** [tx.order.updateMany({ where: { id, status }, data: { status } })]: the
    number of rows changed and the new column. *)
Definition advance (id : string) (from to : Status) : M (StatusDb Status) Z :=
  fun db =>
    if bool_decide (sd_status db !! id = Some from)
    then Ok (1%Z, mkStatusDb (<[id := to]> (sd_status db)) (sd_history db))
    else Ok (0%Z, db).

(** [@@unique(\[parentId, requestId\])] of the transition tables; absent identifiers differ. *)
Definition request_taken (parentId : string) (requestId : option string) (db : StatusDb Status) : bool :=
  bool_decide (is_Some requestId) &&
  existsb (fun row => bool_decide (tr_parentId row = parentId) && bool_decide (tr_requestId row = requestId)) (sd_history db).

(** [tx\[target.delegate\].create] *)
Definition append_transition (row : Transition Status) : M (StatusDb Status) unit :=
  dup ← gets (request_taken (tr_parentId row) (tr_requestId row));
  throw_if dup P2002 ;;
  modify (fun db => mkStatusDb (sd_status db) (sd_history db ++ [row])).

Definition concurrent_message (parentId : string) (current : Status) : string :=
  machine_name +:+ " " +:+ parentId +:+ " is no longer " +:+ status_str current
    +:+ " - concurrent state change".

(** [rowId] is the identifier the database gives the transition row. *)
Definition recordTransition (rowId parentId : string) (currentStatus nextStatus : Status)
    (meta : TransitionMeta) : M (StatusDb Status) (Transition Status) :=
  lift_result (assertTransition currentStatus nextStatus machine_map None) ;;
  let row := mkTransition rowId parentId currentStatus nextStatus
               (tm_actorId meta) (tm_requestId meta) (tm_reason meta) in
  append_transition row ;;
  count ← advance parentId currentStatus nextStatus;
  throw_if (negb (bool_decide (count = 1%Z)))
    (stateConflict (concurrent_message parentId currentStatus)) ;;
  mret row.
End machine.

(** * Specification *)

Section spec.
Context {Status : Type} `{!Machine Status}.

(** One legal move of the machine. *)
Definition move (from to : Status) : Prop := to ∈ machine_map from /\ from <> to.

(** [path s rows t]: the rows lead from [s] to [t], each leaving the status the
    previous one entered, by legal moves only. *)
Inductive path : Status -> list (Transition Status) -> Status -> Prop :=
  | path_nil s : path s [] s
  | path_snoc s rows t row :
      path s rows t -> tr_from row = t -> move t (tr_to row) ->
      path s (rows ++ [row]) (tr_to row).

(** The transition rows of one aggregate. *)
Definition history_of (id : string) (db : StatusDb Status) : list (Transition Status) :=
  filter (fun row => tr_parentId row = id) (sd_history db).

(** The history explains the column: for every aggregate the rows lead from its
    initial status to its current one. *)
Definition consistent (init : gmap string Status) (db : StatusDb Status) : Prop :=
  (forall id t, sd_status db !! id = Some t ->
    exists s, init !! id = Some s /\ path s (history_of id db) t) /\
  (forall id, sd_status db !! id = None -> history_of id db = []).

(** Reachability by successful commands. *)
Inductive reachable (init : gmap string Status) : StatusDb Status -> Prop :=
  | reach_init : reachable init (mkStatusDb init [])
  | reach_step db db' rowId id from to meta row :
      reachable init db ->
      recordTransition rowId id from to meta db = Ok (row, db') ->
      reachable init db'.
End spec.

(** A numeric rank that every legal fulfillment move increases. *)
Definition fulfillment_rank (s : FulfillmentStatus) : nat :=
  match s with
  | FUL_PENDING => 0 | FUL_PROCESSING => 1 | FUL_READY_TO_SHIP => 2 | FUL_SHIPPED => 3
  | FUL_DELIVERED => 4 | FUL_CANCELLED => 5 | FUL_RETURNED => 5
  end.

(** * Lemmas *)

Section lemmas.
Context {Status : Type} `{!Machine Status}.
Implicit Types (from to s t : Status) (db : StatusDb Status).

Lemma canTransition_true from to :
  canTransition from to machine_map = true <-> move from to.
Proof. unfold canTransition, move. repeat case_bool_decide; naive_solver. Qed.

Lemma assertTransition_ok from to msg u :
  assertTransition from to machine_map msg = Ok u <-> move from to.
Proof.
  unfold assertTransition. destruct u. rewrite <- canTransition_true.
  by destruct (canTransition from to machine_map).
Qed.

(** A successful command: a legal move from the current status, one new row. *)
Lemma recordTransition_inv rowId id from to meta db row db' :
  recordTransition rowId id from to meta db = Ok (row, db') ->
  move from to /\ sd_status db !! id = Some from /\
  row = mkTransition rowId id from to (tm_actorId meta) (tm_requestId meta) (tm_reason meta) /\
  db' = mkStatusDb (<[id := to]> (sd_status db)) (sd_history db ++ [row]) /\
  request_taken id (tm_requestId meta) db = false.
Proof.
  unfold recordTransition, append_transition. intros H. run_inv.
  match goal with H : assertTransition _ _ _ _ = Ok _ |- _ =>
    apply assertTransition_ok in H end.
  unfold advance in *. simpl in *. by repeat case_bool_decide; simplify_eq/=.
Qed.

(** Conversely a legal move from the current status succeeds under a new request. *)
Lemma recordTransition_run rowId id from to meta db :
  move from to -> sd_status db !! id = Some from -> request_taken id (tm_requestId meta) db = false ->
  exists row db', recordTransition rowId id from to meta db = Ok (row, db').
Proof.
  intros Hm Hs Hr. unfold recordTransition.
  apply (assertTransition_ok _ _ None tt) in Hm.
  eexists _, _. erewrite bind_run; [|unfold lift_result; by rewrite Hm].
  erewrite bind_run; [|unfold append_transition; erewrite bind_run by reflexivity; simpl; by rewrite Hr].
  erewrite bind_run; [|unfold advance; simpl; by rewrite bool_decide_eq_true_2].
  done.
Qed.

Lemma history_of_snoc id db row st :
  history_of id (mkStatusDb st (sd_history db ++ [row])) =
  history_of id db ++ (if bool_decide (tr_parentId row = id) then [row] else []).
Proof.
  unfold history_of. simpl. rewrite filter_app. f_equal.
  rewrite filter_cons, filter_nil. case_decide; case_bool_decide; done.
Qed.

Lemma recordTransition_consistent init db rowId id from to meta row db' :
  consistent init db -> recordTransition rowId id from to meta db = Ok (row, db') ->
  consistent init db'.
Proof.
  intros [Hsome Hnone] H. apply recordTransition_inv in H as (Hm & Hcur & -> & -> & _).
  split; intros id'.
  - intros t. rewrite history_of_snoc. simpl. rewrite lookup_insert.
    case_decide as Hid; [subst id'|]; intros Ht; simplify_eq/=.
    + rewrite bool_decide_eq_true_2 by done.
      destruct (Hsome _ _ Hcur) as (s & ? & Hp). exists s. split; [done|].
      match goal with |- path s (_ ++ [?r]) _ => by apply (path_snoc _ _ from r) end.
    + rewrite bool_decide_eq_false_2, app_nil_r by done. by apply Hsome.
  - rewrite history_of_snoc. simpl. rewrite lookup_insert.
    case_decide; [done|]. intros Ht.
    rewrite bool_decide_eq_false_2, app_nil_r by done. by apply Hnone.
Qed.

Lemma reachable_consistent init db : reachable init db -> consistent init db.
Proof.
  induction 1 as [|db db' rowId id from to meta row _ IH Hrun].
  - split; intros id; simpl; [|done]. intros t Ht. exists t. split; [done|constructor].
  - by eapply recordTransition_consistent.
Qed.

Lemma path_length_rank (rank : Status -> nat) s rows t :
  (forall a b : Status, move a b -> rank a < rank b) ->
  path s rows t -> length rows + rank s <= rank t.
Proof.
  intros Hr. induction 1 as [|s rows t row _ IH _ Hm]; simpl; [lia|].
  rewrite length_app. simpl. apply Hr in Hm. lia.
Qed.
End lemmas.

Lemma fulfillment_rank_move (a b : FulfillmentStatus) :
  move a b -> fulfillment_rank a < fulfillment_rank b.
Proof.
  intros [H _]. destruct a; simpl in H; set_unfold in H;
    destruct_or?; subst; simpl; solve [done | lia].
Qed.

(** * Properties *)

(** [C36] In every state reachable by successful [recordTransition] commands the
    denormalised status column agrees with the history: for each aggregate the
    transition rows form an unbroken chain of legal moves of the machine that
    leads from the status it was created with to its current status. *)
Theorem history_explains_status {Status : Type} `{!Machine Status}
    (init : gmap string Status) (db : StatusDb Status) :
  reachable init db -> consistent init db.
Proof. apply reachable_consistent. Qed.

(** [recordTransition] succeeds exactly when the move is legal and the
    aggregate is still in the status the caller read, under a request that moved it not
    yet; it then appends one row and advances the column.  Of two commands issued from the same status the second
    one always fails, so no concurrent state change is lost. *)
Theorem recordTransition_optimistic {Status : Type} `{!Machine Status}
    rowId id from to meta (db : StatusDb Status) :
  (is_ok (recordTransition rowId id from to meta db) = true <->
     move from to /\ sd_status db !! id = Some from /\ request_taken id (tm_requestId meta) db = false) /\
  (forall row db', recordTransition rowId id from to meta db = Ok (row, db') ->
     sd_status db' = <[id := to]> (sd_status db) /\
     sd_history db' = sd_history db ++ [row] /\
     forall rowId2 to2 meta2,
       is_ok (recordTransition rowId2 id from to2 meta2 db') = false).
Proof.
  split.
  - split.
    + destruct (recordTransition _ _ _ _ _ _) as [[row db']|] eqn:E; [|done].
      apply recordTransition_inv in E. naive_solver.
    + intros (Hm & Hs & Hr). destruct (recordTransition_run rowId id from to meta db Hm Hs Hr)
        as (row & db' & ->). done.
  - intros row db' H. apply recordTransition_inv in H as (Hm & Hs & -> & -> & _).
    split_and!; [done..|]. intros rowId2 to2 meta2.
    destruct (recordTransition rowId2 _ _ _ _ _) as [[row2 db2]|] eqn:E; [|done].
    apply recordTransition_inv in E as (_ & Hs2 & _). simpl in Hs2.
    rewrite lookup_insert_eq in Hs2. destruct Hm. naive_solver.
Qed.

(** [C39] A fulfillment goes through at most five transitions in its life, and
    once shipped it can never be cancelled: its only further statuses are
    SHIPPED, DELIVERED and RETURNED. *)
Theorem fulfillment_bounded (init : gmap string FulfillmentStatus)
    (db : StatusDb FulfillmentStatus) id t :
  reachable init db -> sd_status db !! id = Some t ->
  length (history_of id db) <= 5 /\
  (FUL_SHIPPED ∈ (tr_to <$> history_of id db) \/ init !! id = Some FUL_SHIPPED ->
   t ∈ [FUL_SHIPPED; FUL_DELIVERED; FUL_RETURNED]).
Proof.
  intros Hr Ht. assert (Hc : consistent init db) by by apply reachable_consistent.
  destruct (proj1 Hc _ _ Ht) as (s & Hs & Hp). split.
  - pose proof (path_length_rank fulfillment_rank _ _ _ fulfillment_rank_move Hp).
    assert (fulfillment_rank t <= 5) by (destruct t; simpl; lia). lia.
  - rewrite Hs. clear Hs Hc Hr Ht. induction Hp as [s|s rows t row _ IH <- [Hm Hne]].
    + intros [H|[= ->]]; [by apply elem_of_nil in H|set_solver].
    + rewrite fmap_app, elem_of_app. intros H.
      assert (Hcase : tr_to row = FUL_SHIPPED \/
        tr_from row ∈ [FUL_SHIPPED; FUL_DELIVERED; FUL_RETURNED]).
      { destruct H as [[H|H]|H]; [right; apply IH; auto| |right; apply IH; auto].
        left. set_solver. }
      destruct Hcase as [->|Hcase]; [set_solver|].
      set_unfold in Hcase. destruct Hcase as [Hf|[Hf|Hf]];
        destruct Hf as [Hf|Hf] || idtac; rewrite ?Hf in Hm; simpl in Hm; set_solver.
Qed.

(** * Witnesses *)

Definition demo_meta : TransitionMeta :=
  {| tm_actorId := Some "staff"; tm_requestId := Some "req"; tm_reason := None |}.
Definition demo_init : gmap string FulfillmentStatus := {[ "f" := FUL_READY_TO_SHIP ]}.
Definition demo_shipped : StatusDb FulfillmentStatus :=
  mkStatusDb (<["f" := FUL_SHIPPED]> demo_init)
    [mkTransition "t1" "f" FUL_READY_TO_SHIP FUL_SHIPPED (Some "staff") (Some "req") None].

Lemma demo_reachable : reachable demo_init demo_shipped.
Proof.
  eapply (reach_step _ _ _ "t1" "f" FUL_READY_TO_SHIP FUL_SHIPPED demo_meta).
  - constructor.
  - vm_compute. reflexivity.
Qed.

Lemma history_explains_status_witness : consistent demo_init demo_shipped.
Proof. apply (history_explains_status demo_init demo_shipped). apply demo_reachable. Defined.

Lemma recordTransition_optimistic_witness :
  is_ok (recordTransition "t2" "f" FUL_READY_TO_SHIP FUL_CANCELLED demo_meta demo_shipped) = false.
Proof.
  apply (proj2 (recordTransition_optimistic "t1" "f" FUL_READY_TO_SHIP FUL_SHIPPED demo_meta
    (mkStatusDb demo_init [])) (mkTransition "t1" "f" FUL_READY_TO_SHIP FUL_SHIPPED
    (Some "staff") (Some "req") None) demo_shipped).
  vm_compute. reflexivity.
Defined.

Lemma fulfillment_bounded_witness :
  length (history_of "f" demo_shipped) <= 5 /\
  FUL_SHIPPED ∈ [FUL_SHIPPED; FUL_DELIVERED; FUL_RETURNED].
Proof.
  destruct (fulfillment_bounded demo_init demo_shipped "f" FUL_SHIPPED demo_reachable
    ltac:(vm_compute; reflexivity)) as [H1 H2].
  split; [exact H1|]. apply H2. left. vm_compute. constructor.
Defined.
