(* ===== verification/Retry.v ===== *)
(** Serializable transactions with bounded retry:
    [src/apps/api/src/common/serializable-retry.ts], the back-off of
    [src/apps/api/src/common/retry.ts] and the retry loop of the inventory
    service.  The database and the other clients are an [env]: what they commit
    before each attempt, and which attempts the database aborts. *)

From S2P Require Import Prelude.

(** * Classification of errors *)

Definition isPrismaTransactionConflict (error : exn) : bool :=
  match error with
  | PrismaClientKnownRequestError code meta =>
      bool_decide (code = "P2034") ||
      (bool_decide (code = "P2010") &&
       (bool_decide (meta = Some "40001") || bool_decide (meta = Some "40P01")))
  | _ => false
  end.

Definition isPrismaSerializableContention (error : exn) : bool :=
  match error with
  | PrismaClientKnownRequestError code _ =>
      bool_decide (code = "P2034") || bool_decide (code = "P2002")
  | _ => false
  end.

(** * Environment *)

(** [others k] is what other clients commit before attempt [k]; [abort k] is the
    error with which the database aborts attempt [k], if it does. *)
Record env (S : Type) := mkEnv {
  others : nat -> S -> S;
  abort : nat -> option exn
}.
Arguments mkEnv {_} _ _. Arguments others {_} _ _ _. Arguments abort {_} _ _.

(** One attempt: an aborted transaction leaves the committed state alone. *)
Definition attempt_tx {S A} (E : env S) (k : nat) (m : M S A) (s : S) : result A * S :=
  let s1 := others E k s in
  match abort E k with
  | Some e => (Err e, s1)
  | None => transaction m s1
  end.

(** * The retry loops *)

Definition SERIALIZABLE_RETRIES : Z := 3.

Section retry.
Context {S A : Type} (E : env S).

(** The catch clause common to the loops: [retryable] errors are retried while
    attempts remain and then replaced by [exhausted]. *)
Fixpoint retry_loop (retryable : exn -> bool) (exhausted : exn) (operation : M S A)
    (remaining k : nat) (s : S) : result A * S :=
  match remaining with
  | O => (Err (JsError "Error" "Unreachable serializable retry state."), s)
  | Datatypes.S remaining' =>
      match attempt_tx E k operation s with
      | (Ok a, s') => (Ok a, s')
      | (Err e, s') =>
          if retryable e then
            if bool_decide (remaining' = O) then (Err exhausted, s')
            else retry_loop retryable exhausted operation remaining' (Datatypes.S k) s'
          else (Err e, s')
      end
  end.

(** [common/serializable-retry.ts]: [withSerializableRetry(options)] *)
Definition withSerializableRetry (operation : M S A) (isContention : exn -> bool)
    (conflictMessage : string) (attempts : Z) (s : S) : result A * S :=
  let maxAttempts := Z.max 1 attempts in
  retry_loop
    (fun error => isContention error || isPrismaSerializableContention error)
    (HttpException ConflictException (Some "CONFLICT") conflictMessage)
    operation (Z.to_nat maxAttempts) 1 s.

(** [InventoryService.withSerializableRetry] *)
Definition stock_conflict : exn :=
  HttpException ConflictException None
    "Stock operation could not be applied because of concurrent updates. Refresh the current state and retry.".
Definition inventory_withSerializableRetry (operation : M S A) (s : S) : result A * S :=
  retry_loop isPrismaTransactionConflict stock_conflict operation
    (Z.to_nat SERIALIZABLE_RETRIES) 0 s.
End retry.

(** [common/retry.ts]: [retryDelayMs(attempt)]; [randomInt n] draws from [0..n-1]. *)
Definition RETRY_BASE_DELAY_MS : Z := 25.
Definition RETRY_MAX_DELAY_MS : Z := 150.
Definition retryDelayMs (randomInt : Z -> Z) (attempt : Z) : Z :=
  let cap := Z.min RETRY_MAX_DELAY_MS (RETRY_BASE_DELAY_MS * 2 ^ (attempt - 1)) in
  let half := (cap / 2)%Z in
  (half + randomInt (half + 1))%Z.

(** * Specification *)

(** The state after other clients' commits before attempts [k .. k+n-1] only. *)
Fixpoint drift {S} (E : env S) (k n : nat) (s : S) : S :=
  match n with
  | O => s
  | Datatypes.S n => drift E (Datatypes.S k) n (others E k s)
  end.

(** What a caller observes: one commit of the operation on a state other clients
    produced, or an error and no effect of its own. *)
Definition at_most_once {S A} (E : env S) (operation : M S A) (start max : nat) (s : S)
    (out : result A * S) : Prop :=
  exists j, j < max /\
    match out with
    | (Ok a, s') =>
        abort E (start + j) = None /\
        operation (drift E start (Datatypes.S j) s) = Ok (a, s')
    | (Err e, s') => s' = drift E start (Datatypes.S j) s
    end.

Lemma attempt_tx_spec {S A} (E : env S) k (m : M S A) s :
  match attempt_tx E k m s with
  | (Ok a, s') => abort E k = None /\ m (others E k s) = Ok (a, s')
  | (Err e, s') => s' = others E k s
  end.
Proof.
  unfold attempt_tx, transaction. destruct (abort E k) as [e|]; [done|].
  destruct (m (others E k s)) as [[a s']|e]; done.
Qed.

Lemma retry_loop_spec {S A} (E : env S) retryable exhausted (m : M S A) remaining k s :
  1 <= remaining ->
  at_most_once E m k remaining s (retry_loop E retryable exhausted m remaining k s).
Proof.
  revert k s. induction remaining as [|remaining IH]; intros k s Hr; [lia|]. simpl.
  pose proof (attempt_tx_spec E k m s) as Ha.
  destruct (attempt_tx E k m s) as [[a|e] s'].
  - exists 0. rewrite Nat.add_0_r. split; [lia|]. done.
  - subst s'. destruct (retryable e); [|exists 0; split; [lia|done]].
    case_bool_decide; [exists 0; split; [lia|done]|].
    destruct (IH (Datatypes.S k) (others E k s) ltac:(lia)) as (j & Hj & Hout).
    exists (Datatypes.S j). split; [lia|].
    destruct (retry_loop _ _ _ _ _ _ _) as [[a|e'] s']; [|done].
    by rewrite Nat.add_succ_r.
Qed.

(** A retry loop preserves what the operation and the other clients preserve. *)
Lemma retry_loop_preserves {S A} (P : S -> Prop) (E : env S) retryable exhausted (m : M S A)
    remaining k s :
  preserves P m -> (forall j t, P t -> P (others E j t)) -> P s ->
  P (retry_loop E retryable exhausted m remaining k s).2.
Proof.
  intros Hm Ho. revert k s. induction remaining as [|remaining IH]; intros k s Hs; [done|].
  simpl. pose proof (attempt_tx_spec E k m s) as Ha.
  destruct (attempt_tx E k m s) as [[a|e] s']; simpl.
  - destruct Ha as [_ Ha]. eapply Hm; [|done]. by apply Ho.
  - subst s'. destruct (retryable e); simpl; [|by apply Ho].
    case_bool_decide; simpl; [by apply Ho|]. apply IH. by apply Ho.
Qed.

Lemma retry_loop_exhausted {S A} (E : env S) retryable exhausted (m : M S A) e n k s :
  (forall k, abort E k = Some e) -> retryable e = true -> 1 <= n ->
  (retry_loop E retryable exhausted m n k s).1 = Err exhausted.
Proof.
  intros Habort He. revert k s. induction n as [|n IH]; intros k s Hn; [lia|].
  simpl. unfold attempt_tx. rewrite Habort, He.
  case_bool_decide; [done|]. apply IH. lia.
Qed.

(** * Properties *)

(** [C37] Retrying never applies an operation twice: whatever other clients commit
    between attempts and whichever attempts the database aborts,
    [withSerializableRetry] and the inventory loop stop after at most the
    configured number of attempts; they return a value only from a single
    committed attempt, and on every error the state holds no effect of the
    operation. *)
Theorem retry_at_most_once {S A : Type} (E : env S) (operation : M S A) s :
  (forall isContention message attempts,
     at_most_once E operation 1 (Z.to_nat (Z.max 1 attempts)) s
       (withSerializableRetry E operation isContention message attempts s)) /\
  at_most_once E operation 0 3 s (inventory_withSerializableRetry E operation s).
Proof.
  split; [intros isContention message attempts|]; apply retry_loop_spec; [lia|].
  unfold SERIALIZABLE_RETRIES. lia.
Qed.

(** A persistent serialization failure is reported as a 409 [CONFLICT] after
    the configured attempts, and a business error raised by the operation itself
    is never retried nor replaced. *)
Theorem retry_error_surface {S A : Type} (E : env S) (operation : M S A) isContention message
    attempts (s : S) :
  ((forall k, abort E k = Some (PrismaClientKnownRequestError "P2034" None)) ->
   (withSerializableRetry E operation isContention message attempts s).1 =
     Err (HttpException ConflictException (Some "CONFLICT") message)) /\
  (forall e, abort E 1 = None -> operation (others E 1 s) = Err e ->
   isContention e = false -> isPrismaSerializableContention e = false ->
   withSerializableRetry E operation isContention message attempts s =
     (Err e, others E 1 s)).
Proof.
  assert (Hmax : 1 <= Z.to_nat (Z.max 1 attempts)) by lia.
  unfold withSerializableRetry. split.
  - intros Habort. eapply retry_loop_exhausted; [done| |done]. apply orb_true_r.
  - intros e Ha Hop Hc Hp.
    destruct (Z.to_nat (Z.max 1 attempts)) as [|n] eqn:En; [lia|]. simpl.
    unfold attempt_tx, transaction. rewrite Ha, Hop. simpl. by rewrite Hc, Hp.
Qed.

(** * Witnesses *)

Definition demo_env : env Z :=
  mkEnv (fun k s => (s + 10)%Z)
    (fun k => if bool_decide (k = 1) then Some (PrismaClientKnownRequestError "P2034" None) else None).

Lemma retry_error_surface_witness :
  let e := HttpException BadRequestException None "bad" in
  withSerializableRetry (mkEnv (fun _ s => s) (fun _ => None)) (mthrow e : M Z unit)
    (fun _ => false) "conflict" 3 5%Z = (Err e, 5%Z).
Proof.
  intros e.
  apply (proj2 (retry_error_surface (mkEnv (fun _ s => s) (fun _ => None))
    (mthrow e : M Z unit) (fun _ => false) "conflict" 3 5%Z) e); reflexivity.
Defined.

(** The first attempt is aborted, the second commits once. *)
Example demo_retry :
  withSerializableRetry demo_env (modify (fun s => s + 1)%Z) (fun _ => false) "conflict" 3 0%Z
  = (Ok tt, 21%Z).
Proof. reflexivity. Qed.
