(* ===== verification/PromotionEngine.v ===== *)
(** The pure promotion pricing of
    [src/apps/api/src/modules/promotions/promotion-engine.ts]: line eligibility,
    the largest-remainder distribution of a discount, the application of one
    promotion and the choice between the stackable promotions and the best
    exclusive one.  Money is integer IRR ([bigint], here [Z]). *)

From S2P Require Import Prelude.
Open Scope Z_scope.

(** * Data *)

Inductive EngineKind := PERCENTAGE | FIXED_CART | FIXED_ITEM | FREE_SHIPPING.
Inductive TargetType := PRODUCT | VARIANT | CATEGORY | BRAND.

#[export] Instance EngineKind_eq_dec : EqDecision EngineKind.
Proof. solve_decision. Defined.

Record EngineTarget := mkTarget {
  tg_type : TargetType;
  tg_targetId : string;
  tg_exclude : bool
}.

Record EngineLine := mkLine {
  el_variantId : string;
  el_productId : string;
  el_categoryIds : list string;
  el_brandId : option string;
  el_unitPrice : Z;
  el_quantity : Z
}.

Record EnginePromotion := mkPromotion {
  ep_id : string;
  ep_couponId : option string;
  ep_name : string;
  ep_kind : EngineKind;
  ep_percentBp : option Z;
  ep_amount : option Z;
  ep_maxDiscount : option Z;
  ep_minOrder : option Z;
  ep_maxOrder : option Z;
  ep_stackable : bool;
  ep_priority : Z;
  ep_targets : list EngineTarget
}.

Record LineAllocation := mkAllocation { la_variantId : string; la_amount : Z }.

Record AppliedPromotion := mkApplied {
  ap_promotionId : string;
  ap_couponId : option string;
  ap_name : string;
  ap_kind : EngineKind;
  ap_itemDiscount : Z;
  ap_shippingDiscount : Z;
  ap_allocations : list LineAllocation
}.

Record EngineResult := mkResult {
  er_applied : list AppliedPromotion;
  er_itemDiscount : Z;
  er_shippingDiscount : Z;
  er_totalDiscount : Z
}.

(** [State]: what is left of every line and of the shipping price. *)
Record State := mkState { remaining : list Z; shipping : Z }.

(** * Operations *)

Definition target_matches (line : EngineLine) (t : EngineTarget) : bool :=
  match tg_type t with
  | PRODUCT => bool_decide (tg_targetId t = el_productId line)
  | VARIANT => bool_decide (tg_targetId t = el_variantId line)
  | CATEGORY => bool_decide (tg_targetId t ∈ el_categoryIds line)
  | BRAND => bool_decide (el_brandId line = Some (tg_targetId t))
  end.

Definition lineEligible (line : EngineLine) (targets : list EngineTarget) : bool :=
  if existsb (fun t => tg_exclude t && target_matches line t) targets then false
  else
    let includes := List.filter (fun t => negb (tg_exclude t)) targets in
    bool_decide (length includes = 0%nat) || existsb (target_matches line) includes.

Definition gross (l : EngineLine) : Z := el_unitPrice l * el_quantity l.

(** [xs[i]!] on a list of amounts. *)
Definition at_ (xs : list Z) (i : nat) : Z := nth i xs 0.

(** The comparator of [rems.sort]: larger remainder first, then smaller index. *)
Definition rem_cmp (a b : nat * Z) : Z :=
  if bool_decide (a.2 = b.2) then Z.of_nat a.1 - Z.of_nat b.1
  else if bool_decide (a.2 > b.2) then -1 else 1.

(** The loop [for (const { i } of rems)] of [distribute]. *)
Fixpoint give_left (rems : list (nat * Z)) (remaining out : list Z) (left : Z) : list Z :=
  match rems with
  | [] => out
  | (i, _) :: rems =>
      if bool_decide (left = 0) then out
      else if bool_decide (at_ out i < at_ remaining i)
      then give_left rems remaining (<[i := at_ out i + 1]> out) (left - 1)
      else give_left rems remaining out left
  end.

Definition distribute (total : Z) (remaining : list Z) (eligible : list nat) : list Z :=
  let base := sumZ (at_ remaining) eligible in
  let out := (fun _ => 0) <$> remaining in
  if bool_decide (total <= 0) || bool_decide (base <= 0) then out
  else
    let share i := Z.quot (total * at_ remaining i) base in
    let out := foldl (fun out i => <[i := share i]> out) out eligible in
    let given := sumZ share eligible in
    let rems := (fun i => (i, Z.rem (total * at_ remaining i) base)) <$> eligible in
    let rems := js_sort rem_cmp rems in
    give_left rems remaining out (total - given).

(** Indices of the eligible lines, in order. *)
Fixpoint eligible_from (i : nat) (lines : list EngineLine) (targets : list EngineTarget) : list nat :=
  match lines with
  | [] => []
  | l :: lines =>
      if lineEligible l targets then i :: eligible_from (S i) lines targets
      else eligible_from (S i) lines targets
  end.

Definition min_opt (x : Z) (cap : option Z) : Z :=
  match cap with Some m => Z.min x m | None => x end.

(** The three computations of [(alloc, item, ship)] in [applyOne]. *)
Definition free_shipping (promo : EnginePromotion) (lines : list EngineLine) (state : State)
    : list Z * Z * Z :=
  ((fun _ => 0) <$> lines, 0, min_opt (shipping state) (ep_maxDiscount promo)).

Definition fixed_item (promo : EnginePromotion) (lines : list EngineLine) (state : State)
    (eligible : list nat) : list Z * Z * Z :=
  let d i := Z.min (default 0 (ep_amount promo) *
                    from_option el_quantity 0 (lines !! i)) (at_ (remaining state) i) in
  let alloc := foldl (fun alloc i => <[i := d i]> alloc) ((fun _ => 0) <$> lines) eligible in
  let item := sumZ d eligible in
  match ep_maxDiscount promo with
  | Some m =>
      if bool_decide (item > m) then (distribute m alloc eligible, m, 0) else (alloc, item, 0)
  | None => (alloc, item, 0)
  end.

Definition cart_wide (promo : EnginePromotion) (state : State) (eligible : list nat)
    : list Z * Z * Z :=
  let eligibleTotal := sumZ (at_ (remaining state)) eligible in
  let total :=
    match ep_kind promo with
    | PERCENTAGE => Z.quot (eligibleTotal * default 0 (ep_percentBp promo) + 5000) 10000
    | _ => default 0 (ep_amount promo)
    end in
  let total := min_opt total (ep_maxDiscount promo) in
  let total := Z.min total eligibleTotal in
  (distribute total (remaining state) eligible, total, 0).

Definition below_min (promo : EnginePromotion) (orderValue : Z) : bool :=
  match ep_minOrder promo with Some m => bool_decide (orderValue < m) | None => false end.
Definition above_max (promo : EnginePromotion) (orderValue : Z) : bool :=
  match ep_maxOrder promo with Some m => bool_decide (orderValue > m) | None => false end.

(** The positive allocations of the lines, in line order. *)
Definition allocations_of (lines : list EngineLine) (alloc : list Z) : list LineAllocation :=
  mjoin (zip_with (fun l a => if bool_decide (a > 0) then [mkAllocation (el_variantId l) a] else [])
    lines alloc).

Definition applyOne (promo : EnginePromotion) (lines : list EngineLine) (state : State)
    (orderValue : Z) : option AppliedPromotion * State :=
  if below_min promo orderValue then (None, state)
  else if above_max promo orderValue then (None, state)
  else
    let eligible := eligible_from 0 lines (ep_targets promo) in
    let '(alloc, item, ship) :=
      match ep_kind promo with
      | FREE_SHIPPING => free_shipping promo lines state
      | FIXED_ITEM => fixed_item promo lines state eligible
      | PERCENTAGE | FIXED_CART => cart_wide promo state eligible
      end in
    if bool_decide (item + ship <= 0) then (None, state)
    else
      (Some (mkApplied (ep_id promo) (ep_couponId promo) (ep_name promo) (ep_kind promo)
               item ship (allocations_of lines alloc)),
       mkState (zip_with Z.sub (remaining state) alloc) (shipping state - ship)).

Definition applied_total (p : AppliedPromotion) : Z := ap_itemDiscount p + ap_shippingDiscount p.
Definition sum (a : list AppliedPromotion) : Z := sumZ applied_total a.

Definition promo_cmp (a b : EnginePromotion) : Z :=
  let d := ep_priority a - ep_priority b in
  if bool_decide (d = 0) then (if js_ltb (ep_id a) (ep_id b) then -1 else 1) else d.

(** The stackable pass: every stackable promotion is applied in turn to what the
    previous ones left. *)
Fixpoint stack (order : list EnginePromotion) (lines : list EngineLine) (state : State)
    (orderValue : Z) : list AppliedPromotion :=
  match order with
  | [] => []
  | p :: order =>
      let '(r, state') := applyOne p lines state orderValue in
      match r with
      | Some r => r :: stack order lines state' orderValue
      | None => stack order lines state' orderValue
      end
  end.

(** The exclusive pass: the best so far against each exclusive promotion alone. *)
Fixpoint best_of (order : list EnginePromotion) (lines : list EngineLine) (fresh : State)
    (orderValue : Z) (best : list AppliedPromotion) (bestTotal : Z) : list AppliedPromotion :=
  match order with
  | [] => best
  | p :: order =>
      match (applyOne p lines fresh orderValue).1 with
      | Some r =>
          if bool_decide (ap_itemDiscount r + ap_shippingDiscount r > bestTotal)
          then best_of order lines fresh orderValue [r] (ap_itemDiscount r + ap_shippingDiscount r)
          else best_of order lines fresh orderValue best bestTotal
      | None => best_of order lines fresh orderValue best bestTotal
      end
  end.

Definition fresh_state (lines : list EngineLine) (ship : Z) : State :=
  mkState (gross <$> lines) ship.

Definition evaluatePromotions (lines : list EngineLine) (ship : Z)
    (candidates : list EnginePromotion) : EngineResult :=
  let orderValue := sumZ gross lines in
  let order := js_sort promo_cmp candidates in
  let fresh := fresh_state lines ship in
  let stacked := stack (List.filter ep_stackable order) lines fresh orderValue in
  let best := best_of (List.filter (fun p => negb (ep_stackable p)) order) lines fresh orderValue
                stacked (sum stacked) in
  let itemDiscount := sumZ ap_itemDiscount best in
  let shippingDiscount := sumZ ap_shippingDiscount best in
  mkResult best itemDiscount shippingDiscount (itemDiscount + shippingDiscount).

(** * Lists of amounts *)

Lemma at_lookup xs i x : xs !! i = Some x -> at_ xs i = x.
Proof. intros H. unfold at_. apply nth_lookup_Some with (d := 0) in H. done. Qed.

Lemma at_insert_eq xs i x : (i < length xs)%nat -> at_ (<[i := x]> xs) i = x.
Proof. intros H. apply at_lookup. by apply list_lookup_insert_eq. Qed.

Lemma at_insert_ne xs i j x : i <> j -> at_ (<[i := x]> xs) j = at_ xs j.
Proof. intros H. unfold at_. rewrite !nth_lookup. by rewrite list_lookup_insert_ne. Qed.

Lemma at_zeros {A} (xs : list A) i : at_ ((fun _ => 0) <$> xs) i = 0.
Proof.
  unfold at_. rewrite nth_lookup, list_lookup_fmap. by destruct (xs !! i).
Qed.

(** Writing [f i] at every index of a duplicate-free list. *)
Lemma foldl_insert_length (f : nat -> Z) is_ out :
  length (foldl (fun out i => <[i := f i]> out) out is_) = length out.
Proof.
  revert out. induction is_ as [|i is_ IH]; intros out; simpl; [done|].
  by rewrite IH, length_insert.
Qed.

Lemma at_foldl_insert_notin (f : nat -> Z) is_ out j :
  j ∉ is_ -> at_ (foldl (fun out i => <[i := f i]> out) out is_) j = at_ out j.
Proof.
  revert out. induction is_ as [|i is_ IH]; intros out Hj; simpl; [done|].
  rewrite IH by set_solver. rewrite at_insert_ne; [done|set_solver].
Qed.

Lemma at_foldl_insert (f : nat -> Z) is_ out j :
  NoDup is_ -> j ∈ is_ -> (forall i, i ∈ is_ -> (i < length out)%nat) ->
  at_ (foldl (fun out i => <[i := f i]> out) out is_) j = f j.
Proof.
  revert out. induction is_ as [|i is_ IH]; intros out Hnd Hj Hlen; simpl; [set_solver|].
  apply NoDup_cons in Hnd as [Hi Hnd].
  destruct (decide (j = i)) as [->|Hne].
  - rewrite at_foldl_insert_notin by done. apply at_insert_eq, Hlen. set_solver.
  - apply IH; [done|set_solver|]. intros k Hk. rewrite length_insert. apply Hlen. set_solver.
Qed.

(** * The largest-remainder distribution *)

Definition positives (rems : list (nat * Z)) : nat := length (List.filter (fun x => 0 <? x.2) rems).

Lemma rem_cmp_le a b : cmp_le rem_cmp a b -> b.2 <= a.2.
Proof. unfold cmp_le, rem_cmp. repeat case_bool_decide; lia. Qed.

#[export] Instance rem_cmp_total : Total (cmp_le rem_cmp).
Proof. intros a b. unfold cmp_le, rem_cmp. repeat case_bool_decide; lia. Qed.
#[export] Instance rem_cmp_trans : Transitive (cmp_le rem_cmp).
Proof. intros a b c. unfold cmp_le, rem_cmp. repeat case_bool_decide; lia. Qed.

(** With room in the first [left] entries, exactly those receive one unit. *)
Lemma give_left_prefix rems rem_ out left :
  0 <= left -> (Z.to_nat left <= length rems)%nat ->
  NoDup (fst <$> rems) ->
  (forall i, i ∈ (fst <$> rems) -> (i < length out)%nat) ->
  Forall (fun x => at_ out x.1 < at_ rem_ x.1) (take (Z.to_nat left) rems) ->
  length (give_left rems rem_ out left) = length out /\
  forall j, at_ (give_left rems rem_ out left) j =
    at_ out j + (if bool_decide (j ∈ fst <$> take (Z.to_nat left) rems) then 1 else 0).
Proof.
  revert out left. induction rems as [|[i r] rems IH]; intros out left Hl Hn Hnd Hlen Hroom.
  { simpl in *. rewrite take_nil. split; [done|]. intros j. simpl. lia. }
  cbn [give_left]. case_bool_decide as H0.
  { subst left. simpl. split; [done|]. intros j. lia. }
  replace (Z.to_nat left) with (S (Z.to_nat (left - 1))) in * by lia.
  rewrite firstn_cons in *. apply Forall_cons in Hroom as [Hi Hroom]. simpl in Hi.
  rewrite bool_decide_eq_true_2 by done.
  rewrite fmap_cons in Hnd, Hlen. simpl in Hnd, Hlen, Hn. apply NoDup_cons in Hnd as [Hni Hnd].
  destruct (IH (<[i := at_ out i + 1]> out) (left - 1)) as [Hlen' Hat]; [lia|lia|done| | |].
  - intros k Hk. rewrite length_insert. apply Hlen. set_solver.
  - apply Forall_forall. intros x Hx. rewrite Forall_forall in Hroom.
    rewrite at_insert_ne; [by apply Hroom|]. intros ->. apply Hni.
    apply list_elem_of_fmap. exists x. split; [done|].
    by eapply elem_of_take in Hx as (? & ? & _); eapply list_elem_of_lookup_2.
  - rewrite length_insert in Hlen'. split; [done|]. intros j. rewrite Hat, fmap_cons. simpl.
    assert (Hsub : i ∉ fst <$> take (Z.to_nat (left - 1)) rems).
    { intros Hin. apply Hni. rewrite fmap_take in Hin.
      apply elem_of_take in Hin as (? & ? & _). by eapply list_elem_of_lookup_2. }
    destruct (decide (j = i)) as [->|Hne].
    + rewrite at_insert_eq by (apply Hlen; set_solver).
      rewrite (bool_decide_eq_false_2 _ Hsub), bool_decide_eq_true_2 by set_solver. lia.
    + rewrite at_insert_ne by done. f_equal.
      rewrite (bool_decide_ext _ (j ∈ i :: (fst <$> take (Z.to_nat (left - 1)) rems)))
        by set_solver. done.
Qed.

Lemma positives_cons x rems :
  positives (x :: rems) = ((if (0 <? x.2)%Z then 1 else 0) + positives rems)%nat.
Proof. unfold positives. simpl. by destruct (0 <? x.2). Qed.

Lemma sorted_prefix_positive rems n :
  StronglySorted (cmp_le rem_cmp) rems -> (n <= positives rems)%nat ->
  (n <= length rems)%nat /\ Forall (fun x => 0 < x.2) (take n rems).
Proof.
  revert n. induction rems as [|x rems IH]; intros n Hs Hn.
  { unfold positives in Hn. simpl in *. rewrite take_nil. split; [lia|constructor]. }
  inversion Hs as [|? ? Hs' Hall]; subst. destruct n as [|n]; [split; simpl; [lia|constructor]|].
  rewrite positives_cons in Hn. destruct (0 <? x.2) eqn:Ex; simpl in Hn.
  - destruct (IH n Hs') as [? ?]; [lia|].
    split; [simpl; lia|]. simpl. constructor; [lia|done].
  - exfalso. assert (Hz : positives rems = 0%nat); [|lia].
    clear Hn IH Hs Hs'. induction Hall as [|y rems Hy _ IHr]; [done|]. rewrite positives_cons.
    apply rem_cmp_le in Hy. destruct (0 <? y.2) eqn:Ey; [lia|]. by rewrite IHr.
Qed.

Lemma sum_rems_bound base rems :
  0 < base -> (forall x, x ∈ rems -> 0 <= x.2 < base) ->
  sumZ snd rems <= base * Z.of_nat (positives rems).
Proof.
  intros Hb. induction rems as [|x rems IH]; intros Hr; [simpl; lia|].
  pose proof (Hr x ltac:(set_solver)). specialize (IH ltac:(set_solver)).
  rewrite positives_cons. simpl. destruct (0 <? x.2) eqn:E; lia.
Qed.

Lemma sumZ_indicator (P : nat -> Prop) `{!forall i, Decision (P i)} is_ js :
  NoDup js -> js ⊆+ is_ -> NoDup is_ -> (forall i, P i <-> i ∈ js) ->
  sumZ (fun i => if bool_decide (P i) then 1 else 0) is_ = Z.of_nat (length js).
Proof.
  intros Hj Hsub Hi HP. apply submseteq_Permutation in Hsub as [k Hk].
  rewrite Hk, sumZ_app.
  rewrite Hk in Hi. apply NoDup_app in Hi as (_ & Hdisj & _).
  rewrite (sumZ_ext _ (fun _ => 1) js), (sumZ_ext _ (fun _ => 0) k).
  - rewrite !sumZ_const. lia.
  - intros x Hx. rewrite bool_decide_eq_false_2; [done|]. rewrite HP. set_solver.
  - intros x Hx. rewrite bool_decide_eq_true_2; [done|]. by rewrite HP.
Qed.

Section distribute.
Context (total : Z) (rem_ : list Z) (eligible : list nat).
Let base := sumZ (at_ rem_) eligible.
Let share i := Z.quot (total * at_ rem_ i) base.
Let rest i := Z.rem (total * at_ rem_ i) base.
Context (Htotal : 0 < total <= base) (Hnd : NoDup eligible)
  (Hlen : forall i, i ∈ eligible -> (i < length rem_)%nat)
  (Hnonneg : forall i, i ∈ eligible -> 0 <= at_ rem_ i).

Let rems := js_sort rem_cmp ((fun i => (i, rest i)) <$> eligible).
Let left := total - sumZ share eligible.

Local Lemma share_eq i : i ∈ eligible ->
  total * at_ rem_ i = base * share i + rest i /\ 0 <= rest i < base /\ 0 <= share i.
Proof.
  intros Hi. pose proof (Hnonneg i Hi). unfold share, rest.
  pose proof (Z.quot_rem' (total * at_ rem_ i) base).
  pose proof (Z.rem_bound_pos (total * at_ rem_ i) base ltac:(nia) ltac:(lia)).
  pose proof (Z.quot_pos (total * at_ rem_ i) base ltac:(nia) ltac:(lia)). lia.
Qed.

Local Lemma share_le i : i ∈ eligible -> share i <= at_ rem_ i /\
  (0 < rest i -> share i < at_ rem_ i).
Proof.
  intros Hi. pose proof (Hnonneg i Hi). destruct (share_eq i Hi) as (E & Hr & Hs).
  split; intros; nia.
Qed.

Local Lemma left_eq : base * left = sumZ rest eligible.
Proof.
  assert (H : total * base = base * sumZ share eligible + sumZ rest eligible); [|unfold left; lia].
  unfold base at 1.
  rewrite !sumZ_scale, <- sumZ_add. apply sumZ_ext.
  intros i Hi. pose proof (share_eq i Hi); lia.
Qed.

Local Lemma rems_fst : fst <$> rems ≡ₚ eligible.
Proof.
  unfold rems. rewrite js_sort_Permutation. by rewrite fmap_fst_pair.
Qed.

Local Lemma rems_elem x : x ∈ rems <-> x.1 ∈ eligible /\ x.2 = rest x.1.
Proof.
  unfold rems. rewrite elem_of_js_sort, list_elem_of_fmap. destruct x as [i r]. simpl.
  split; [by intros (? & [= -> ->] & ?)|]. intros [? ->]. eauto.
Qed.

Local Lemma left_bound : 0 <= left /\ (Z.to_nat left <= positives rems)%nat.
Proof.
  pose proof left_eq as Hl.
  assert (Hsum : sumZ rest eligible = sumZ snd rems).
  { unfold rems. rewrite js_sort_Permutation, sumZ_fmap. done. }
  pose proof (sumZ_nonneg rest eligible) as Hp.
  assert (Hp' : 0 <= sumZ rest eligible) by (apply Hp; intros i Hi; pose proof (share_eq i Hi); lia).
  assert (Hb : sumZ snd rems <= base * Z.of_nat (positives rems)).
  { apply sum_rems_bound; [lia|]. intros [i r] [Hi Hr]%rems_elem. simpl in *. subst.
    pose proof (share_eq i Hi); lia. }
  split; [nia|]. assert (left <= Z.of_nat (positives rems)) by nia. lia.
Qed.

Definition winners : list nat := fst <$> take (Z.to_nat left) rems.

Lemma distribute_at j :
  length (distribute total rem_ eligible) = length rem_ /\
  at_ (distribute total rem_ eligible) j =
    if bool_decide (j ∈ eligible) then share j + (if bool_decide (j ∈ winners) then 1 else 0) else 0.
Proof.
  unfold distribute. fold base. rewrite !bool_decide_eq_false_2 by lia. simpl.
  fold (share). change (fun i => Z.quot (total * at_ rem_ i) base) with share.
  change (fun i => (i, Z.rem (total * at_ rem_ i) base)) with (fun i => (i, rest i)).
  fold rems left. pose proof left_bound as [Hl0 Hl].
  destruct (sorted_prefix_positive rems (Z.to_nat left)) as [Hln Hpos]; [|done|].
  { apply js_sort_sorted; apply _. }
  set (out := foldl _ _ _).
  assert (Hout : length out = length rem_) by (unfold out; by rewrite foldl_insert_length, length_fmap).
  assert (Hat : forall i, i ∈ eligible -> at_ out i = share i).
  { intros i Hi. unfold out. apply at_foldl_insert; [done..|]. intros k Hk.
    rewrite length_fmap. by apply Hlen. }
  destruct (give_left_prefix rems rem_ out left) as [H1 H2].
  - done.
  - done.
  - rewrite rems_fst. done.
  - intros i. rewrite rems_fst, Hout. apply Hlen.
  - apply Forall_forall. intros x Hx. rewrite Forall_forall in Hpos.
    assert (Hxr : x ∈ rems) by (apply elem_of_take in Hx as (? & ? & _); by eapply list_elem_of_lookup_2).
    apply rems_elem in Hxr as [Hi Hr]. rewrite Hat by done.
    destruct (share_le x.1 Hi) as [_ Hs]. apply Hs. rewrite <- Hr. by apply Hpos.
  - split; [by rewrite H1|]. rewrite H2. change (fst <$> take (Z.to_nat left) rems) with winners.
    destruct (decide (j ∈ eligible)) as [Hj|Hj];
      [by rewrite Hat, (bool_decide_eq_true_2 _ Hj)|].
    rewrite (bool_decide_eq_false_2 _ Hj).
    assert (Hw : j ∉ winners).
    { intros Hw. apply Hj. rewrite <- rems_fst. unfold winners in Hw. rewrite fmap_take in Hw.
      apply elem_of_take in Hw as (? & ? & _). by eapply list_elem_of_lookup_2. }
    rewrite (bool_decide_eq_false_2 _ Hw), Z.add_0_r. unfold out. rewrite at_foldl_insert_notin by done.
    apply at_zeros.
Qed.

Local Lemma winner_rest j : j ∈ winners -> 0 < rest j.
Proof.
  pose proof left_bound as [_ Hl]. intros Hj.
  destruct (sorted_prefix_positive rems (Z.to_nat left)) as [_ Hpos];
    [apply js_sort_sorted; apply _|done|].
  unfold winners in Hj. apply list_elem_of_fmap in Hj as (x & -> & Hx).
  rewrite Forall_forall in Hpos. specialize (Hpos x Hx).
  apply elem_of_take in Hx as (? & Hx & _). apply list_elem_of_lookup_2, rems_elem in Hx.
  destruct Hx as [_ <-]. done.
Qed.
End distribute.

Section distribute_spec.
Context (total : Z) (rem_ : list Z) (eligible : list nat).
Notation base := (sumZ (at_ rem_) eligible).
Notation out := (distribute total rem_ eligible).
Context (Hbase : total <= base) (Hnd : NoDup eligible)
  (Hlen : forall i, i ∈ eligible -> (i < length rem_)%nat)
  (Hnonneg : forall i, i ∈ eligible -> 0 <= at_ rem_ i).

Lemma distribute_zero : total <= 0 -> out = (fun _ => 0) <$> rem_.
Proof. intros H. unfold distribute. by rewrite (bool_decide_eq_true_2 (total <= 0)). Qed.

Local Lemma winners_facts : 0 < total ->
  NoDup (winners total rem_ eligible) /\ winners total rem_ eligible ⊆+ eligible /\
  Z.of_nat (length (winners total rem_ eligible)) =
    total - sumZ (fun i => Z.quot (total * at_ rem_ i) base) eligible.
Proof.
  intros Hpos. pose proof (left_bound total rem_ eligible ltac:(lia) Hnonneg) as [H0 Hl].
  destruct (sorted_prefix_positive (js_sort rem_cmp
    ((fun i => (i, Z.rem (total * at_ rem_ i) base)) <$> eligible)) _
    ltac:(apply js_sort_sorted; apply _) Hl) as [Hln _].
  pose proof (rems_fst total rem_ eligible) as Hfst.
  unfold winners. rewrite fmap_take. split_and!.
  - apply (sublist_NoDup _ (fst <$> js_sort rem_cmp
      ((fun i => (i, Z.rem (total * at_ rem_ i) base)) <$> eligible))).
    + rewrite Hfst. done.
    + apply sublist_take.
  - etrans; [apply sublist_submseteq, sublist_take|]. by rewrite Hfst.
  - rewrite length_take, length_fmap, Nat.min_l by done. lia.
Qed.

Lemma distribute_spec :
  length out = length rem_ /\
  (forall j, j ∉ eligible -> at_ out j = 0) /\
  (forall j, j ∈ eligible -> 0 <= at_ out j <= at_ rem_ j) /\
  sumZ (at_ out) eligible = Z.max 0 total.
Proof.
  destruct (decide (total <= 0)) as [Hneg|Hpos].
  { rewrite distribute_zero by done. rewrite length_fmap. split_and!; [done|..].
    - intros j _. apply at_zeros.
    - intros j Hj. rewrite at_zeros. split; [done|]. by apply Hnonneg.
    - rewrite (sumZ_ext _ (fun _ => 0)), sumZ_const; [lia|]. intros. apply at_zeros. }
  assert (Ht : 0 < total <= base) by lia.
  pose proof (distribute_at total rem_ eligible Ht Hnd Hlen Hnonneg) as Hat.
  destruct (winners_facts ltac:(lia)) as (Hw1 & Hw2 & Hw3).
  split_and!.
  - by destruct (Hat 0%nat).
  - intros j Hj. destruct (Hat j) as [_ ->]. by rewrite bool_decide_eq_false_2.
  - intros j Hj. destruct (Hat j) as [_ ->]. rewrite bool_decide_eq_true_2 by done.
    pose proof (share_eq total rem_ eligible Ht Hnonneg j Hj).
    pose proof (share_le total rem_ eligible Ht Hnonneg j Hj).
    case_bool_decide as Hj'; [|lia].
    assert (0 < Z.rem (total * at_ rem_ j) base); [|lia].
    by apply (winner_rest total rem_ eligible Ht Hnonneg).
  - rewrite (sumZ_ext _ (fun j => Z.quot (total * at_ rem_ j) base +
      (if bool_decide (j ∈ winners total rem_ eligible) then 1 else 0))).
    + rewrite sumZ_add, (sumZ_indicator _ _ (winners total rem_ eligible)) by done. lia.
    + intros j Hj. destruct (Hat j) as [_ ->]. by rewrite bool_decide_eq_true_2.
Qed.
End distribute_spec.

(** The lines that receive the extra unit are those with the largest remainders. *)
Lemma winners_largest total rem_ eligible i j :
  0 < total <= sumZ (at_ rem_) eligible ->
  (forall i, i ∈ eligible -> 0 <= at_ rem_ i) ->
  i ∈ eligible -> j ∈ winners total rem_ eligible -> i ∉ winners total rem_ eligible ->
  let base := sumZ (at_ rem_) eligible in
  Z.rem (total * at_ rem_ i) base <= Z.rem (total * at_ rem_ j) base.
Proof.
  intros Ht Hnn Hi Hj Hni base. unfold winners in *. fold base in Hj, Hni.
  set (rems := js_sort rem_cmp _) in *. set (n := Z.to_nat _) in *.
  assert (Hs : StronglySorted (cmp_le rem_cmp) rems) by (apply js_sort_sorted; apply _).
  apply list_elem_of_fmap in Hj as ([j' rj] & -> & Hj). simpl.
  assert (Hir : (i, Z.rem (total * at_ rem_ i) base) ∈ rems).
  { unfold rems. rewrite elem_of_js_sort, list_elem_of_fmap. eauto. }
  assert (Hjr : (j', rj) ∈ rems).
  { apply elem_of_take in Hj as (? & ? & _). by eapply list_elem_of_lookup_2. }
  unfold rems in Hjr. rewrite elem_of_js_sort, list_elem_of_fmap in Hjr.
  destruct Hjr as (? & [= <- ->] & _).
  assert (Hid : (i, Z.rem (total * at_ rem_ i) base) ∈ drop n rems).
  { rewrite <- (take_drop n rems), elem_of_app in Hir. destruct Hir as [Hir|]; [|done].
    destruct Hni. apply list_elem_of_fmap. by eexists (_, _). }
  rewrite <- (take_drop n rems) in Hs. fold base.
  apply rem_cmp_le with (a := (j', Z.rem (total * at_ rem_ j') base)) (b := (i, _)).
  clear -Hs Hj Hid. induction (take n rems) as [|x l IH]; [by apply elem_of_nil in Hj|].
  simpl in Hs. inversion Hs as [|? ? Hs' Hall]; subst.
  apply elem_of_cons in Hj as [->|Hj]; [|by apply IH].
  rewrite Forall_forall in Hall. apply Hall. set_solver.
Qed.

(** * One promotion *)

Lemma elem_of_eligible_from k lines targets i :
  i ∈ eligible_from k lines targets <->
  exists l, (k <= i)%nat /\ lines !! (i - k)%nat = Some l /\ lineEligible l targets = true.
Proof.
  revert k. induction lines as [|l lines IH]; intros k; simpl; [set_solver|].
  assert (Hrest : i ∈ eligible_from (S k) lines targets <-> exists l0, (k < i)%nat /\
    (l :: lines) !! (i - k)%nat = Some l0 /\ lineEligible l0 targets = true).
  { rewrite IH. split; intros (l0 & Hi & Hl & He); exists l0; split_and!; try done; try lia.
    - replace (i - k)%nat with (S (i - S k)) by lia. done.
    - replace (i - k)%nat with (S (i - S k)) in Hl by lia. done. }
  destruct (lineEligible l targets) eqn:El.
  - rewrite elem_of_cons, Hrest. split.
    + intros [->|(l0 & ? & ?)]; [|exists l0; split; [lia|done]].
      exists l. by rewrite Nat.sub_diag.
    + intros (l0 & Hi & Hl & He). destruct (decide (i = k)); [by left|right].
      exists l0. split; [lia|done].
  - rewrite Hrest. split; intros (l0 & Hi & Hl & He); exists l0.
    + split; [lia|done].
    + split; [|done]. destruct (decide (i = k)) as [->|]; [|lia].
      rewrite Nat.sub_diag in Hl. simplify_eq/=. congruence.
Qed.

Lemma NoDup_eligible_from k lines targets : NoDup (eligible_from k lines targets).
Proof.
  revert k. induction lines as [|l lines IH]; intros k; simpl; [constructor|].
  destruct (lineEligible l targets); [|done]. constructor; [|done].
  rewrite elem_of_eligible_from. intros (? & ? & _). lia.
Qed.

Lemma eligible_lt lines targets i :
  i ∈ eligible_from 0 lines targets -> (i < length lines)%nat.
Proof.
  rewrite elem_of_eligible_from. intros (l & _ & Hl & _).
  rewrite Nat.sub_0_r in Hl. by eapply lookup_lt_Some.
Qed.

Lemma sumZ_at xs : sumZ id xs = sumZ (at_ xs) (seq 0 (length xs)).
Proof.
  induction xs as [|x xs IH] using rev_ind; [done|].
  rewrite length_app, sumZ_app, seq_app, sumZ_app, IH. simpl. f_equal.
  - apply sumZ_ext. intros i Hi%elem_of_seq. unfold at_. rewrite app_nth1; [done|lia].
  - unfold at_. rewrite app_nth2, Nat.sub_diag by lia. done.
Qed.

Lemma sumZ_support xs is_ :
  NoDup is_ -> (forall i, i ∈ is_ -> (i < length xs)%nat) ->
  (forall j, j ∉ is_ -> at_ xs j = 0) -> sumZ id xs = sumZ (at_ xs) is_.
Proof.
  intros Hnd Hlt Hz. rewrite sumZ_at.
  assert (Hsub : is_ ⊆+ seq 0 (length xs)).
  { apply NoDup_submseteq; [done|]. intros i Hi. apply elem_of_seq. specialize (Hlt i Hi). lia. }
  apply submseteq_Permutation in Hsub as [k Hk].
  assert (Hnd' : NoDup (is_ ++ k)) by (rewrite <- Hk; apply NoDup_seq).
  rewrite Hk, sumZ_app, (sumZ_ext (at_ xs) (fun _ => 0) k), sumZ_const; [lia|].
  intros x Hx. apply Hz. apply NoDup_app in Hnd' as (_ & Hd & _). intros Hi. by eapply Hd.
Qed.

(** A priced cart state: one nonnegative remainder per line. *)
Definition wf_state (lines : list EngineLine) (st : State) : Prop :=
  length (remaining st) = length lines /\ (forall j, 0 <= at_ (remaining st) j) /\ 0 <= shipping st.

(** What [applyOne] may take off the lines. *)
Definition sound_alloc (promo : EnginePromotion) (lines : list EngineLine) (rem_ alloc : list Z)
    (item : Z) : Prop :=
  length alloc = length lines /\ (forall j, 0 <= at_ alloc j <= at_ rem_ j) /\
  (forall j, j ∉ eligible_from 0 lines (ep_targets promo) -> at_ alloc j = 0) /\
  sumZ id alloc = item.

Section applyOne.
Context (promo : EnginePromotion) (lines : list EngineLine) (st : State).
Context (Hwf : wf_state lines st).
Notation eligible := (eligible_from 0 lines (ep_targets promo)).

Lemma distribute_sound total rem_ :
  length rem_ = length lines -> (forall j, 0 <= at_ rem_ j) ->
  0 <= total <= sumZ (at_ rem_) eligible ->
  sound_alloc promo lines rem_ (distribute total rem_ eligible) total.
Proof.
  intros Hlen Hnn Ht.
  destruct (distribute_spec total rem_ eligible) as (H1 & H2 & H3 & H4).
  - lia.
  - apply NoDup_eligible_from.
  - intros i Hi%eligible_lt. by rewrite Hlen.
  - intros i _. apply Hnn.
  - split_and!; [congruence| |done|].
    + intros j. destruct (decide (j ∈ eligible)) as [Hj|Hj]; [by apply H3|].
      rewrite H2 by done. split; [done|apply Hnn].
    + rewrite (sumZ_support _ eligible); [rewrite H4; lia|apply NoDup_eligible_from| |done].
      intros i Hi%eligible_lt. by rewrite H1, Hlen.
Qed.

Lemma cart_wide_sound alloc item ship :
  cart_wide promo st eligible = (alloc, item, ship) -> 0 < item + ship ->
  sound_alloc promo lines (remaining st) alloc item /\ ship = 0 /\
  item <= min_opt item (ep_maxDiscount promo).
Proof.
  destruct Hwf as (Hlen & Hnn & _). unfold cart_wide. intros [= <- <- <-] Hpos.
  split_and!; [|done|].
  - apply distribute_sound; [done|done|]. split; [lia|]. apply Z.le_min_r.
  - unfold min_opt. destruct (ep_maxDiscount promo); lia.
Qed.

Lemma fixed_item_sound alloc item ship :
  (forall l, l ∈ lines -> 0 <= el_quantity l) ->
  fixed_item promo lines st eligible = (alloc, item, ship) -> 0 < item + ship ->
  sound_alloc promo lines (remaining st) alloc item /\ ship = 0 /\
  item <= min_opt item (ep_maxDiscount promo).
Proof.
  destruct Hwf as (Hlen & Hnn & _). intros Hq. unfold fixed_item.
  set (d := fun i => Z.min _ (at_ (remaining st) i)). set (al := foldl _ _ _).
  assert (Hqi : forall i, 0 <= from_option el_quantity 0 (lines !! i)).
  { intros i. destruct (lines !! i) as [l|] eqn:El; simpl; [|lia].
    apply Hq. by eapply list_elem_of_lookup_2. }
  assert (Hd : 0 < sumZ d eligible -> forall i, 0 <= d i).
  { intros Hs. destruct (decide (default 0 (ep_amount promo) <= 0)) as [Ha|Ha].
    - pose proof (sumZ_le d (fun _ => 0) eligible) as Hle. rewrite sumZ_const in Hle.
      cut (sumZ d eligible <= 0 * Z.of_nat (length eligible)); [lia|]. apply Hle.
      intros i _. unfold d. specialize (Hqi i). nia.
    - intros i. unfold d. specialize (Hqi i). specialize (Hnn i). nia. }
  assert (Hal : length al = length lines).
  { unfold al. by rewrite foldl_insert_length, length_fmap. }
  assert (Hat : forall j, at_ al j = if bool_decide (j ∈ eligible) then d j else 0).
  { intros j. unfold al. case_bool_decide.
    - apply at_foldl_insert; [apply NoDup_eligible_from|done|].
      intros i Hi%eligible_lt. by rewrite length_fmap.
    - rewrite at_foldl_insert_notin by done. apply at_zeros. }
  assert (Hsound : 0 < sumZ d eligible ->
    sound_alloc promo lines (remaining st) al (sumZ d eligible)).
  { intros Hs. split_and!; [done| | |].
    - intros j. rewrite Hat. specialize (Hd Hs j). specialize (Hnn j).
      case_bool_decide; [|lia]. unfold d in *. lia.
    - intros j Hj. rewrite Hat. by rewrite bool_decide_eq_false_2.
    - rewrite (sumZ_support _ eligible); [|apply NoDup_eligible_from| |].
      + apply sumZ_ext. intros i Hi. rewrite Hat. by rewrite bool_decide_eq_true_2.
      + intros i Hi%eligible_lt. by rewrite Hal.
      + intros j Hj. rewrite Hat. by rewrite bool_decide_eq_false_2. }
  assert (Hsum : sumZ (at_ al) eligible = sumZ d eligible).
  { apply sumZ_ext. intros i Hi. rewrite Hat. by rewrite bool_decide_eq_true_2. }
  unfold min_opt. destruct (ep_maxDiscount promo) as [m|].
  2: { intros [= <- <- <-] Hpos. split_and!; [apply Hsound; lia|done|lia]. }
  case_bool_decide; intros [= <- <- <-] Hpos; (split_and!; [|done|lia]); [|apply Hsound; lia].
  destruct (Hsound ltac:(lia)) as (_ & Hb & _ & _).
  destruct (distribute_sound m al Hal ltac:(apply Hb) ltac:(lia)) as (H1 & H2 & H3 & H4).
  split_and!; [done| |done|done]. intros j. specialize (H2 j). specialize (Hb j). lia.
Qed.
End applyOne.

(** * Accounting per variant *)

(** The amounts of the lines whose variant satisfies [P]. *)
Definition wsum (P : string -> bool) (lines : list EngineLine) (xs : list Z) : Z :=
  sumZ id (zip_with (fun l x => if P (el_variantId l) then x else 0) lines xs).

(** What a promotion took off variants satisfying [P]. *)
Definition asum (P : string -> bool) (r : AppliedPromotion) : Z :=
  sumZ (fun a => if P (la_variantId a) then la_amount a else 0) (ap_allocations r).

Lemma wsum_true lines xs : length xs = length lines -> wsum (fun _ => true) lines xs = sumZ id xs.
Proof.
  revert xs. induction lines as [|l lines IH]; intros [|x xs] H; try done.
  unfold wsum in *. simpl in *. unfold id at 1. rewrite IH by lia. done.
Qed.

Lemma wsum_sub P lines xs ys :
  length xs = length lines -> length ys = length lines ->
  wsum P lines (zip_with Z.sub xs ys) = wsum P lines xs - wsum P lines ys.
Proof.
  revert xs ys. induction lines as [|l lines IH]; intros [|x xs] [|y ys] Hx Hy; try done.
  unfold wsum in *. simpl in *. rewrite IH by lia. unfold id. destruct (P _); lia.
Qed.

Lemma wsum_nonneg P lines xs : (forall j, 0 <= at_ xs j) -> 0 <= wsum P lines xs.
Proof.
  revert xs. induction lines as [|l lines IH]; intros [|x xs] H; try done.
  unfold wsum in *. simpl. specialize (IH xs ltac:(intros j; apply (H (S j)))).
  pose proof (H 0%nat) as H0. unfold at_ in H0. simpl in H0. unfold id in *. destruct (P _); lia.
Qed.

Lemma asum_allocations P lines alloc p q n k i s :
  (forall j, 0 <= at_ alloc j) ->
  asum P (mkApplied p q n k i s (allocations_of lines alloc)) = wsum P lines alloc.
Proof.
  unfold asum, allocations_of, wsum. simpl. revert alloc.
  induction lines as [|l lines IH]; intros [|x xs] H; try done. simpl.
  rewrite sumZ_app, IH by (intros j; apply (H (S j))).
  pose proof (H 0%nat) as H0. unfold at_ in H0. simpl in H0. unfold id in *.
  case_bool_decide; simpl; destruct (P _); lia.
Qed.

(** Lines as the cart holds them: no negative price or quantity. *)
Definition wf_lines (lines : list EngineLine) : Prop :=
  forall l, l ∈ lines -> 0 <= el_unitPrice l /\ 0 <= el_quantity l.

(** What one applied promotion is worth and where it comes from. *)
Definition applied_ok (promo : EnginePromotion) (lines : list EngineLine) (r : AppliedPromotion)
    : Prop :=
  ap_promotionId r = ep_id promo /\ ap_couponId r = ep_couponId promo /\
  0 <= ap_itemDiscount r /\ 0 <= ap_shippingDiscount r /\ 0 < applied_total r /\
  ap_itemDiscount r = asum (fun _ => true) r /\
  (forall m, ep_maxDiscount promo = Some m -> applied_total r <= m).

Lemma applyOne_none promo lines st ov st' : applyOne promo lines st ov = (None, st') -> st' = st.
Proof.
  unfold applyOne. repeat case_match; naive_solver.
Qed.

Lemma applyOne_some promo lines st ov r st' :
  wf_lines lines -> wf_state lines st -> applyOne promo lines st ov = (Some r, st') ->
  applied_ok promo lines r /\ wf_state lines st' /\
  (forall P, asum P r + wsum P lines (remaining st') = wsum P lines (remaining st)) /\
  (forall P, 0 <= asum P r) /\
  ap_shippingDiscount r + shipping st' = shipping st.
Proof.
  intros Hl Hwf. unfold applyOne. destruct (below_min _ _); [done|]. destruct (above_max _ _); [done|].
  set (eligible := eligible_from _ _ _).
  destruct (match ep_kind promo with PERCENTAGE | FIXED_CART => _ | FIXED_ITEM => _
            | FREE_SHIPPING => _ end) as [[alloc item] ship] eqn:E.
  case_bool_decide as Hpos; [done|]. intros [= <- <-].
  assert (Hs : sound_alloc promo lines (remaining st) alloc item /\
    0 <= ship <= shipping st /\ item + ship <= min_opt (item + ship) (ep_maxDiscount promo)).
  { destruct Hwf as (Hlen & Hnn & Hsh). destruct (ep_kind promo) eqn:Ek.
    1-2: apply (cart_wide_sound promo lines st) in E as (? & -> & ?);
      [rewrite Z.add_0_r; split_and!; [done|lia|done|done]|by split_and!|lia].
    - apply (fixed_item_sound promo lines st) in E as (? & -> & ?);
        [rewrite Z.add_0_r; split_and!; [done|lia|done|done]|by split_and!| |lia].
      intros l Hin. by apply Hl.
    - unfold free_shipping in E. injection E as <- <- <-. unfold sound_alloc. split_and!.
      + by rewrite length_fmap.
      + intros j. rewrite at_zeros. split; [done|apply Hnn].
      + intros j _. apply at_zeros.
      + rewrite sumZ_fmap, sumZ_const. unfold id. lia.
      + lia.
      + unfold min_opt in *. destruct (ep_maxDiscount promo); lia.
      + unfold min_opt in *. destruct (ep_maxDiscount promo); lia. }
  destruct Hs as ((Ha1 & Ha2 & Ha3 & Ha4) & Hship & Hcap).
  destruct Hwf as (Hlen & Hnn & Hsh).
  assert (Hitem : 0 <= item).
  { rewrite <- Ha4, sumZ_at. apply sumZ_nonneg. intros j _. by destruct (Ha2 j). }
  split_and!; simpl; try lia.
  - unfold applied_ok, applied_total. simpl. split_and!; try done; try lia.
    + rewrite asum_allocations by (intros j; apply Ha2). by rewrite wsum_true.
    + intros m Hm. rewrite Hm in Hcap. simpl in Hcap. lia.
  - split_and!; simpl; [rewrite length_zip_with; lia| |lia]. intros j.
    unfold at_ in *. specialize (Ha2 j). rewrite !nth_lookup in *. rewrite lookup_zip_with.
    destruct (remaining st !! j) as [x|] eqn:Ex; simpl in *; [|done].
    destruct (alloc !! j) as [y|] eqn:Ey; simpl in *; [lia|].
    apply lookup_lt_Some in Ex. apply lookup_ge_None in Ey. lia.
  - intros P. rewrite asum_allocations by (intros j; apply Ha2). rewrite wsum_sub by done. lia.
  - intros P. rewrite asum_allocations by (intros j; apply Ha2). apply wsum_nonneg. intros j.
    apply Ha2.
Qed.

(** * The stackable pass and the choice *)

(** The bounds every result list of the engine obeys. *)
Definition within (lines : list EngineLine) (st : State) (rs : list AppliedPromotion) : Prop :=
  (forall P, sumZ (asum P) rs <= wsum P lines (remaining st)) /\
  sumZ ap_shippingDiscount rs <= shipping st /\
  (forall r, r ∈ rs -> ap_itemDiscount r = asum (fun _ => true) r /\
     0 <= ap_itemDiscount r /\ 0 <= ap_shippingDiscount r /\ 0 < applied_total r).

Lemma within_nil lines st : wf_state lines st -> within lines st [].
Proof.
  intros (Hlen & Hnn & Hsh). split_and!; simpl; [|done|set_solver].
  intros P. by apply wsum_nonneg.
Qed.

Lemma within_cons promo lines st ov r st' rs :
  wf_lines lines -> wf_state lines st -> applyOne promo lines st ov = (Some r, st') ->
  within lines st' rs -> within lines st (r :: rs).
Proof.
  intros Hl Hwf Ha (H1 & H2 & H3).
  destruct (applyOne_some _ _ _ _ _ _ Hl Hwf Ha) as (Hok & Hwf' & Hsum & _ & Hship).
  split_and!; simpl; [|lia|].
  - intros P. specialize (H1 P). specialize (Hsum P). lia.
  - intros r' [->|Hr]%elem_of_cons; [|by apply H3]. unfold applied_ok in Hok. tauto.
Qed.

Lemma stack_within order lines st ov :
  wf_lines lines -> wf_state lines st -> within lines st (stack order lines st ov).
Proof.
  intros Hl. revert st. induction order as [|p order IH]; intros st Hwf; simpl.
  { by apply within_nil. }
  destruct (applyOne p lines st ov) as [[r|] st'] eqn:E.
  - eapply within_cons; [done..|]. apply IH. by eapply applyOne_some in E as (_ & ? & _).
  - apply applyOne_none in E as ->. by apply IH.
Qed.

(** The chosen list is the running best or one exclusive promotion, and it is at
    least as good as every alternative. *)
Lemma best_of_spec order lines st ov best total :
  sum best = total ->
  let out := best_of order lines st ov best total in
  (out = best \/ exists p r, p ∈ order /\ (applyOne p lines st ov).1 = Some r /\ out = [r]) /\
  total <= sum out /\
  (forall p r, p ∈ order -> (applyOne p lines st ov).1 = Some r -> applied_total r <= sum out).
Proof.
  intros Hsum. revert best total Hsum. induction order as [|p order IH]; intros best total Hsum.
  { simpl. split_and!; [by left|lia|set_solver]. }
  simpl. destruct (applyOne p lines st ov).1 as [r|] eqn:E.
  - case_bool_decide as Hgt.
    + destruct (IH [r] (ap_itemDiscount r + ap_shippingDiscount r)) as (H1 & H2 & H3).
      { unfold sum, applied_total. simpl. lia. }
      split_and!; [|lia|].
      * right. destruct H1 as [->|(p' & r' & ? & ? & ?)]; [exists p, r|exists p', r']; set_solver.
      * intros p' r' [->|Hp]%elem_of_cons Hr; [|by eapply H3].
        rewrite E in Hr. simplify_eq. unfold applied_total. lia.
    + destruct (IH best total Hsum) as (H1 & H2 & H3). split_and!; [|lia|].
      * destruct H1 as [->|(p' & r' & ? & ? & ?)]; [by left|right; exists p', r'; set_solver].
      * intros p' r' [->|Hp]%elem_of_cons Hr; [|by eapply H3].
        rewrite E in Hr. simplify_eq. unfold applied_total. lia.
  - destruct (IH best total Hsum) as (H1 & H2 & H3). split_and!; [|lia|].
    + destruct H1 as [->|(p' & r' & ? & ? & ?)]; [by left|right; exists p', r'; set_solver].
    + intros p' r' [->|Hp]%elem_of_cons Hr; [|by eapply H3]. congruence.
Qed.

Lemma fresh_state_wf lines ship : wf_lines lines -> 0 <= ship -> wf_state lines (fresh_state lines ship).
Proof.
  intros Hl Hs. split_and!; simpl; [by rewrite length_fmap| |done]. intros j. unfold at_.
  rewrite nth_lookup, list_lookup_fmap. destruct (lines !! j) as [l|] eqn:E; simpl; [|done].
  apply list_elem_of_lookup_2, Hl in E. unfold gross. nia.
Qed.

Lemma evaluate_within lines ship candidates :
  wf_lines lines -> 0 <= ship ->
  within lines (fresh_state lines ship) (er_applied (evaluatePromotions lines ship candidates)).
Proof.
  intros Hl Hs. unfold evaluatePromotions. simpl. pose proof (fresh_state_wf lines ship Hl Hs) as Hwf.
  destruct (best_of_spec (List.filter (fun p => negb (ep_stackable p)) (js_sort promo_cmp candidates))
    lines (fresh_state lines ship) (sumZ gross lines)
    (stack (List.filter ep_stackable (js_sort promo_cmp candidates)) lines
       (fresh_state lines ship) (sumZ gross lines)) _ eq_refl) as [[->|(p & r & Hp & Hr & ->)] _].
  - by apply stack_within.
  - destruct (applyOne p lines (fresh_state lines ship) (sumZ gross lines)) as [r' st'] eqn:E.
    simpl in Hr. subst r'. eapply within_cons; [done..|].
    apply within_nil. by eapply applyOne_some in E as (_ & ? & _).
Qed.

Lemma sumZ_asum_item lines st rs :
  within lines st rs -> sumZ ap_itemDiscount rs = sumZ (asum (fun _ => true)) rs.
Proof. intros (_ & _ & H). apply sumZ_ext. intros r Hr. by apply H. Qed.

(** * Order independence *)

Lemma promo_cmp_total_order a b :
  (cmp_le promo_cmp a b <->
   ep_priority a < ep_priority b \/ (ep_priority a = ep_priority b /\ js_ltb (ep_id a) (ep_id b) = true)).
Proof.
  unfold cmp_le, promo_cmp. case_bool_decide; [destruct (js_ltb _ _) eqn:E|]; naive_solver lia.
Qed.

(** [sort] with the engine's comparator, on promotions with pairwise distinct
    identifiers, depends only on the set of promotions. *)
Lemma strongly_sorted_unique {A} (R : A -> A -> Prop) (l1 l2 : list A) :
  (forall a b, a ∈ l1 -> b ∈ l1 -> R a b -> R b a -> a = b) ->
  StronglySorted R l1 -> StronglySorted R l2 -> l1 ≡ₚ l2 -> l1 = l2.
Proof.
  revert l2. induction l1 as [|a l1 IH]; intros l2 Hanti Hs1 Hs2 Hp.
  { by apply Permutation_nil_l in Hp as ->. }
  destruct l2 as [|b l2]; [by apply Permutation_nil_r in Hp|].
  inversion Hs1 as [|? ? Hs1' Ha]; inversion Hs2 as [|? ? Hs2' Hb]; subst.
  rewrite Forall_forall in Ha, Hb.
  assert (a = b) as ->.
  { assert (Hain : a ∈ b :: l2) by (rewrite <- Hp; set_solver).
    assert (Hbin : b ∈ a :: l1) by (rewrite Hp; set_solver).
    apply elem_of_cons in Hain as [|Hain]; [done|].
    apply elem_of_cons in Hbin as [|Hbin]; [done|].
    apply Hanti; [set_solver..|by apply Ha|by apply Hb]. }
  f_equal. apply IH; [|done..|by apply Permutation_cons_inv in Hp].
  intros x y Hx Hy. apply Hanti; set_solver.
Qed.

#[export] Instance promo_cmp_trans : Transitive (cmp_le promo_cmp).
Proof.
  intros a b c. rewrite !promo_cmp_total_order. intros [?|[? Hab]] [?|[? Hbc]]; [lia..|].
  right. split; [lia|]. by eapply js_ltb_trans.
Qed.

Lemma promo_pairs l :
  NoDup (ep_id <$> l) ->
  ForallOrdPairs (fun a b => cmp_le promo_cmp a b \/ cmp_le promo_cmp b a) l.
Proof.
  induction l as [|x l IH]; [constructor|]. rewrite fmap_cons, NoDup_cons. intros [Hx Hnd].
  constructor; [|by apply IH]. apply Forall_forall. intros y Hy. rewrite !promo_cmp_total_order.
  assert (Hid : ep_id x <> ep_id y).
  { intros He. apply Hx. rewrite He. apply list_elem_of_fmap. eauto. }
  destruct (Z.lt_total (ep_priority x) (ep_priority y)) as [?|[?|?]]; [by left; left| |by right; left].
  destruct (js_ltb_total (ep_id x) (ep_id y)) as [?|[He|?]]; [by left; right|done|by right; right].
Qed.

Lemma promo_sort_unique l1 l2 :
  NoDup (ep_id <$> l1) -> l1 ≡ₚ l2 -> js_sort promo_cmp l1 = js_sort promo_cmp l2.
Proof.
  intros Hnd Hp. apply (strongly_sorted_unique (cmp_le promo_cmp)).
  - intros a b _ _. rewrite !promo_cmp_total_order. intros [?|[? Hab]] [?|[? Hba]]; try lia.
    apply js_ltb_antisym in Hab. congruence.
  - apply js_sort_sorted_pairs; [apply _|]. by apply promo_pairs.
  - apply js_sort_sorted_pairs; [apply _|]. apply promo_pairs. by rewrite <- Hp.
  - by rewrite !js_sort_Permutation.
Qed.

(** * Properties *)

(** Splitting a discount over the eligible lines is exact: for a total that
    fits, the shares add up to it to the last rial, no line gets more than it is
    worth, every line gets its exact proportional share rounded down or that plus
    one, and only the lines with the largest remainders get the extra unit. *)
Theorem distribute_exact total rem_ eligible :
  0 < total <= sumZ (at_ rem_) eligible -> NoDup eligible ->
  (forall i, i ∈ eligible -> (i < length rem_)%nat /\ 0 <= at_ rem_ i) ->
  let out := distribute total rem_ eligible in
  let base := sumZ (at_ rem_) eligible in
  let floor i := total * at_ rem_ i / base in
  sumZ (at_ out) eligible = total /\
  (forall i, i ∈ eligible -> 0 <= at_ out i <= at_ rem_ i /\ floor i <= at_ out i <= floor i + 1) /\
  (forall i, i ∉ eligible -> at_ out i = 0) /\
  (forall i j, i ∈ eligible -> j ∈ eligible -> at_ out i = floor i -> at_ out j = floor j + 1 ->
     total * at_ rem_ i mod base <= total * at_ rem_ j mod base).
Proof.
  intros Ht Hnd H out base floor.
  assert (Hlen : forall i, i ∈ eligible -> (i < length rem_)%nat) by (intros i Hi; by apply H).
  assert (Hnn : forall i, i ∈ eligible -> 0 <= at_ rem_ i) by (intros i Hi; by apply H).
  destruct (distribute_spec total rem_ eligible ltac:(lia) Hnd Hlen Hnn) as (_ & H2 & H3 & H4).
  assert (Hat : forall i, i ∈ eligible -> at_ out i =
    floor i + (if bool_decide (i ∈ winners total rem_ eligible) then 1 else 0)).
  { intros i Hi. destruct (distribute_at total rem_ eligible Ht Hnd Hlen Hnn i) as [_ E].
    unfold out. rewrite E, bool_decide_eq_true_2 by done. f_equal. specialize (Hnn i Hi).
    apply Z.quot_div_nonneg; nia. }
  split_and!; [unfold out; lia| |done|].
  - intros i Hi. split; [by apply H3|]. rewrite Hat by done. case_bool_decide; lia.
  - intros i j Hi Hj Ei Ej. rewrite Hat in Ei, Ej by done.
    assert (Hwi : i ∉ winners total rem_ eligible).
    { intros Hin. rewrite bool_decide_eq_true_2 in Ei by done. lia. }
    assert (Hwj : j ∈ winners total rem_ eligible).
    { destruct (decide (j ∈ winners total rem_ eligible)); [done|].
      rewrite bool_decide_eq_false_2 in Ej by done. lia. }
    pose proof (winners_largest total rem_ eligible i j Ht Hnn Hi) as Hw. simpl in Hw.
    rewrite !Z.rem_mod_nonneg in Hw by (pose proof (Hnn i Hi); pose proof (Hnn j Hj); nia).
    by apply Hw.
Qed.

(** [C33] Whatever the promotions are configured to, the engine never discounts
    more than the customer pays: per variant, the discounts of all applied
    promotions together stay within the gross price of the lines of that variant,
    the shipping discount within the shipping price, every applied promotion is
    worth something and its item discount is exactly the sum of its line
    allocations; the totals of the result are the sums over the applied list. *)
Theorem engine_within_price lines ship candidates :
  wf_lines lines -> 0 <= ship ->
  let res := evaluatePromotions lines ship candidates in
  (forall v, sumZ (asum (fun w => bool_decide (w = v))) (er_applied res) <=
             wsum (fun w => bool_decide (w = v)) lines (gross <$> lines)) /\
  0 <= er_itemDiscount res <= sumZ gross lines /\
  0 <= er_shippingDiscount res <= ship /\
  er_totalDiscount res = sumZ applied_total (er_applied res) /\
  (forall r, r ∈ er_applied res ->
     0 < applied_total r /\ ap_itemDiscount r = sumZ la_amount (ap_allocations r)).
Proof.
  intros Hl Hs res. pose proof (evaluate_within lines ship candidates Hl Hs) as Hw.
  fold res in Hw. pose proof (sumZ_asum_item _ _ _ Hw) as Hitem. destruct Hw as (H1 & H2 & H3).
  assert (Ei : er_itemDiscount res = sumZ ap_itemDiscount (er_applied res)) by done.
  assert (Es : er_shippingDiscount res = sumZ ap_shippingDiscount (er_applied res)) by done.
  assert (Et : er_totalDiscount res = er_itemDiscount res + er_shippingDiscount res) by done.
  split_and!.
  - intros v. apply H1.
  - rewrite Ei. apply sumZ_nonneg. intros r Hr. by apply H3.
  - rewrite Ei, Hitem. etrans; [apply H1|]. simpl. rewrite wsum_true by by rewrite length_fmap.
    by rewrite sumZ_fmap.
  - rewrite Es. apply sumZ_nonneg. intros r Hr. by apply H3.
  - rewrite Es. apply H2.
  - rewrite Et, Ei, Es. unfold applied_total. by rewrite sumZ_add.
  - intros r Hr. destruct (H3 r Hr) as (-> & _ & _ & ?). done.
Qed.

(** [C38] The engine picks the better deal: its result is either all stackable
    promotions applied in turn or one exclusive promotion alone, and it is worth
    at least as much as the stack and as every exclusive promotion on its own. *)
Theorem engine_picks_best lines ship candidates :
  let order := js_sort promo_cmp candidates in
  let fresh := fresh_state lines ship in
  let stacked := stack (List.filter ep_stackable order) lines fresh (sumZ gross lines) in
  let res := evaluatePromotions lines ship candidates in
  (er_applied res = stacked \/
   exists p r, p ∈ candidates /\ ep_stackable p = false /\
     (applyOne p lines fresh (sumZ gross lines)).1 = Some r /\ er_applied res = [r]) /\
  sumZ applied_total stacked <= er_totalDiscount res /\
  (forall p r, p ∈ candidates -> ep_stackable p = false ->
     (applyOne p lines fresh (sumZ gross lines)).1 = Some r ->
     applied_total r <= er_totalDiscount res).
Proof.
  intros order fresh stacked res.
  destruct (best_of_spec (List.filter (fun p => negb (ep_stackable p)) order) lines fresh
    (sumZ gross lines) stacked (sum stacked) eq_refl) as (H1 & H2 & H3).
  assert (Et : er_totalDiscount res = sum (er_applied res)).
  { unfold sum, applied_total. by rewrite sumZ_add. }
  assert (Hin : forall p, p ∈ List.filter (fun p => negb (ep_stackable p)) order <->
    p ∈ candidates /\ ep_stackable p = false).
  { intros p. rewrite list_elem_of_In, filter_In, <- list_elem_of_In. unfold order.
    rewrite elem_of_js_sort, negb_true_iff. done. }
  rewrite Et. split_and!.
  - destruct H1 as [?|(p & r & Hp & Hr & ?)]; [by left|right]. apply Hin in Hp. exists p, r. tauto.
  - done.
  - intros p r Hp Hst Hr. eapply H3; [|done]. by apply Hin.
Qed.

(** Pricing is deterministic: the order in which the database returns the
    candidate promotions has no influence on the result. *)
Theorem engine_order_independent lines ship candidates candidates' :
  NoDup (ep_id <$> candidates) -> candidates ≡ₚ candidates' ->
  evaluatePromotions lines ship candidates = evaluatePromotions lines ship candidates'.
Proof.
  intros Hnd Hp. unfold evaluatePromotions. by rewrite (promo_sort_unique _ _ Hnd Hp).
Qed.

(** * Witnesses *)

Definition demo_line1 : EngineLine := mkLine "v1" "p1" ["c1"; "c0"] (Some "b1") 1000 3.
Definition demo_line2 : EngineLine := mkLine "v2" "p2" ["c2"] None 501 2.
Definition demo_percent : EnginePromotion :=
  mkPromotion "p-a" None "ten" PERCENTAGE (Some 1000) None None None None true 10 [].
Definition demo_fixed : EnginePromotion :=
  mkPromotion "p-b" (Some "cp") "fixed" FIXED_CART None (Some 700) None None None false 5
    [mkTarget CATEGORY "c0" false].

Example demo_engine :
  let res := evaluatePromotions [demo_line1; demo_line2] 300 [demo_percent; demo_fixed] in
  (er_itemDiscount res, ap_allocations <$> er_applied res) =
  (700, [[mkAllocation "v1" 700]]).
Proof. vm_compute. reflexivity. Qed.

Lemma distribute_exact_witness :
  sumZ (at_ (distribute 100 [333; 333; 334] [0; 1; 2]%nat)) [0; 1; 2]%nat = 100.
Proof.
  apply (distribute_exact 100 [333; 333; 334] [0; 1; 2]%nat).
  - vm_compute. split; [reflexivity|discriminate].
  - repeat constructor; set_solver.
  - intros i Hi. set_unfold in Hi. destruct Hi as [->|[->|[->|[]]]]; vm_compute; split; lia || discriminate.
Defined.

Lemma demo_wf_lines : wf_lines [demo_line1; demo_line2].
Proof. intros l Hl. set_unfold in Hl. destruct Hl as [->|[->|[]]]; vm_compute; split; discriminate. Qed.

Lemma engine_within_price_witness :
  er_itemDiscount (evaluatePromotions [demo_line1; demo_line2] 300 [demo_percent; demo_fixed]) <= 4002.
Proof.
  destruct (engine_within_price [demo_line1; demo_line2] 300 [demo_percent; demo_fixed]
    demo_wf_lines ltac:(lia)) as (_ & H & _).
  etrans; [apply H|]. vm_compute. discriminate.
Defined.

Lemma engine_order_independent_witness :
  evaluatePromotions [demo_line1; demo_line2] 300 [demo_percent; demo_fixed] =
  evaluatePromotions [demo_line1; demo_line2] 300 [demo_fixed; demo_percent].
Proof.
  apply (engine_order_independent [demo_line1; demo_line2] 300 [demo_percent; demo_fixed]).
  - repeat constructor; set_solver.
  - apply Permutation_swap.
Defined.
