(* ===== verification/Table.v ===== *)
(** Database tables: rows by primary key, lookups by unique columns, filtered
    reads, bulk updates and sums of a column.  A read without [orderBy] returns
    the rows in the table's own order, on which no theorem depends. *)

From S2P Require Import Prelude.

(** * Operations *)

Section table.
Context {R : Type}.
Implicit Types (t : gmap string R) (P : R -> bool).

Definition rows t : list R := snd <$> map_to_list t.

(** [findMany({ where })] *)
Definition find_many P t : list R := List.filter P (rows t).
(** [findUnique] / [findFirst] on other columns than the primary key. *)
Definition find_by P t : option R := head (find_many P t).
(** [count({ where })] *)
Definition count_rows P t : Z := Z.of_nat (length (find_many P t)).
(** [updateMany({ where, data })]: the new table; the count is [count_rows P t]. *)
Definition update_many P (f : R -> R) t : gmap string R :=
  (fun r => if P r then f r else r) <$> t.
(** [deleteMany({ where })] *)
Definition delete_many P t : gmap string R :=
  filter (fun kr => P kr.2 = false) t.

(** The sum of a column expression over the table. *)
Definition tsum (f : R -> Z) t : Z := map_fold (fun _ r acc => f r + acc)%Z 0%Z t.
End table.

(** * Lemmas *)

Section lemmas.
Context {R : Type}.
Implicit Types (t : gmap string R) (P : R -> bool) (f g : R -> Z).

Lemma elem_of_rows t r : r ∈ rows t <-> exists k, t !! k = Some r.
Proof.
  unfold rows. rewrite list_elem_of_fmap. split.
  - intros ([k r'] & -> & Hr). exists k. by apply elem_of_map_to_list.
  - intros [k Hk]. exists (k, r). split; [done|]. by apply elem_of_map_to_list.
Qed.

Lemma elem_of_find_many P t r : r ∈ find_many P t <-> (exists k, t !! k = Some r) /\ P r = true.
Proof.
  unfold find_many. by rewrite list_elem_of_In, filter_In, <- list_elem_of_In, elem_of_rows.
Qed.

Lemma find_by_Some P t r : find_by P t = Some r -> (exists k, t !! k = Some r) /\ P r = true.
Proof.
  unfold find_by. intros H. apply elem_of_find_many. apply head_Some_elem_of in H. done.
Qed.

Lemma find_by_None P t : find_by P t = None <-> forall k r, t !! k = Some r -> P r = false.
Proof.
  unfold find_by. split.
  - intros H k r Hr. destruct (P r) eqn:E; [|done].
    assert (Hin : r ∈ find_many P t) by (apply elem_of_find_many; eauto).
    destruct (find_many P t); [by apply elem_of_nil in Hin|done].
  - intros H. destruct (find_many P t) as [|r l] eqn:E; [done|].
    assert (Hin : r ∈ find_many P t) by (rewrite E; set_solver).
    apply elem_of_find_many in Hin as [[k Hk] HP]. rewrite (H k r Hk) in HP. done.
Qed.

(** At most one row satisfies [P]. *)
Definition unique_on P t : Prop :=
  forall k1 k2 r1 r2, t !! k1 = Some r1 -> t !! k2 = Some r2 -> P r1 = true -> P r2 = true -> k1 = k2.

Lemma find_by_unique P t k r :
  unique_on P t -> t !! k = Some r -> P r = true -> find_by P t = Some r.
Proof.
  intros Hu Hr HP. destruct (find_by P t) as [r'|] eqn:E.
  - apply find_by_Some in E as [[k' Hk'] HP']. rewrite (Hu _ _ _ _ Hk' Hr HP' HP) in Hk'. congruence.
  - rewrite find_by_None in E. rewrite (E k r Hr) in HP. done.
Qed.

Lemma find_by_inserted P t id r :
  t !! id = None -> find_by P t = None -> P r = true -> find_by P (<[id := r]> t) = Some r.
Proof.
  intros Hid Hn Hr. rewrite find_by_None in Hn.
  apply find_by_unique with (k := id); [|apply lookup_insert_eq|done].
  intros k1 k2 r1 r2 [[<- <-]|[_ H1]]%lookup_insert_Some [[<- <-]|[_ H2]]%lookup_insert_Some P1 P2; [done|..];
    first [apply Hn in H2|apply Hn in H1]; congruence.
Qed.

Lemma tsum_empty f : tsum f ∅ = 0%Z.
Proof. apply map_fold_empty. Qed.

Lemma tsum_insert_new f t k r : t !! k = None -> tsum f (<[k := r]> t) = (f r + tsum f t)%Z.
Proof. intros Hk. unfold tsum. rewrite map_fold_insert_L; [done| |done]. intros. lia. Qed.

Lemma tsum_delete f t k r : t !! k = Some r -> tsum f t = (f r + tsum f (delete k t))%Z.
Proof.
  intros Hk. rewrite <- (insert_delete_id t k r Hk) at 1. apply tsum_insert_new, lookup_delete_eq.
Qed.

Lemma tsum_insert f t k r r' :
  t !! k = Some r -> tsum f (<[k := r']> t) = (tsum f t - f r + f r')%Z.
Proof.
  intros Hk. rewrite (tsum_delete f t k r Hk), <- insert_delete_eq, tsum_insert_new.
  - lia.
  - apply lookup_delete_eq.
Qed.

Lemma tsum_ext f g t : (forall k r, t !! k = Some r -> f r = g r) -> tsum f t = tsum g t.
Proof.
  induction t as [|k r t Hk IH] using map_ind; intros H; [done|].
  rewrite !tsum_insert_new by done. f_equal.
  - apply (H k). apply lookup_insert_eq.
  - apply IH. intros k' r' Hr'. apply (H k'). rewrite lookup_insert_ne; [done|]. congruence.
Qed.

Lemma tsum_nonneg f t : (forall k r, t !! k = Some r -> 0 <= f r)%Z -> (0 <= tsum f t)%Z.
Proof.
  induction t as [|k r t Hk IH] using map_ind; intros H; [done|].
  rewrite tsum_insert_new by done.
  assert (0 <= f r)%Z by (apply (H k); apply lookup_insert_eq).
  assert (0 <= tsum f t)%Z; [|lia].
  apply IH. intros k' r' Hr'. apply (H k'). rewrite lookup_insert_ne; [done|]. congruence.
Qed.

Lemma tsum_0 f t : (forall k r, t !! k = Some r -> f r = 0)%Z -> tsum f t = 0%Z.
Proof.
  intros H. transitivity (tsum (fun _ => 0%Z) t); [by apply tsum_ext|].
  clear H. induction t as [|k r t Hk IH] using map_ind; [done|]. rewrite tsum_insert_new by done. lia.
Qed.

(** One row is a lower bound of a sum of nonnegative terms. *)
Lemma tsum_ge f t k r :
  (forall k r, t !! k = Some r -> 0 <= f r)%Z -> t !! k = Some r -> (f r <= tsum f t)%Z.
Proof.
  intros H Hk. rewrite (tsum_delete f t k r Hk).
  assert (0 <= tsum f (delete k t))%Z; [|lia]. apply tsum_nonneg.
  intros k' r' Hr'. apply lookup_delete_Some in Hr' as [_ Hr']. by apply (H k').
Qed.

Lemma tsum_fmap f (h : R -> R) t : tsum f (h <$> t) = tsum (fun r => f (h r)) t.
Proof.
  induction t as [|k r t Hk IH] using map_ind; [done|].
  rewrite fmap_insert, !tsum_insert_new; [by rewrite IH|done|].
  by rewrite lookup_fmap, Hk.
Qed.

(** Rows carry their own key in a column [f]. *)
Lemma NoDup_find_many (f : R -> string) P t :
  (forall k r, t !! k = Some r -> f r = k) -> NoDup (f <$> find_many P t).
Proof.
  intros Hf. assert (Hrows : NoDup (f <$> rows t)).
  { unfold rows. rewrite <- list_fmap_compose.
    rewrite (list_fmap_ext _ fst).
    - apply NoDup_fst_map_to_list.
    - intros i [k r] H%list_elem_of_lookup_2. apply elem_of_map_to_list in H. by apply Hf. }
  unfold find_many. induction (rows t) as [|r l IH]; simpl in *; [done|].
  apply NoDup_cons in Hrows as [Hr Hl]. destruct (P r); [|by apply IH].
  apply NoDup_cons. split; [|by apply IH]. contradict Hr.
  apply list_elem_of_fmap in Hr as (x & -> & Hx). apply list_elem_of_fmap. exists x.
  split; [done|]. apply list_elem_of_In, filter_In in Hx as [Hx _]. by apply list_elem_of_In.
Qed.

Lemma tsum_rows f t : tsum f t = sumZ f (rows t).
Proof.
  induction t as [|k r t Hk IH] using map_ind; [done|].
  rewrite tsum_insert_new by done. unfold rows. rewrite map_to_list_insert by done. simpl. by rewrite IH.
Qed.

Lemma sumZ_find_many f P t : sumZ f (find_many P t) = tsum (fun r => if P r then f r else 0%Z) t.
Proof.
  rewrite tsum_rows. unfold find_many. induction (rows t) as [|r l IH]; [done|].
  simpl. destruct (P r); simpl; lia.
Qed.

(** The sum over the rows of a unique key is the value of its row. *)
Lemma tsum_unique f P t :
  unique_on P t -> tsum (fun r => if P r then f r else 0%Z) t = from_option f 0%Z (find_by P t).
Proof.
  intros Hu. destruct (find_by P t) as [r|] eqn:E.
  - apply find_by_Some in E as [[k Hk] HP]. rewrite (tsum_delete _ t k r Hk), HP.
    rewrite tsum_0; [simpl; lia|]. intros k' r' [Hne Hk']%lookup_delete_Some.
    destruct (P r') eqn:HP'; [|done]. by destruct Hne, (Hu _ _ _ _ Hk Hk' HP HP').
  - rewrite find_by_None in E. apply tsum_0. intros k r Hk. by rewrite (E k r Hk).
Qed.

Lemma lookup_update_many P (h : R -> R) t k :
  update_many P h t !! k = (fun r => if P r then h r else r) <$> t !! k.
Proof. unfold update_many. apply lookup_fmap. Qed.

Lemma lookup_delete_many P t k r :
  delete_many P t !! k = Some r <-> t !! k = Some r /\ P r = false.
Proof. unfold delete_many. by rewrite map_lookup_filter_Some. Qed.
End lemmas.

(** * Counting rows *)

Lemma count_rows_tsum {R} (P : R -> bool) (t : gmap string R) : count_rows P t = tsum (fun r => if P r then 1%Z else 0%Z) t.
Proof.
  unfold count_rows. rewrite <- (sumZ_find_many (fun _ => 1%Z)), sumZ_const. lia.
Qed.

(** A row that is added or replaced counts for itself. *)
Lemma count_rows_insert {R} (P : R -> bool) (t : gmap string R) k r : t !! k = None ->
  count_rows P (<[k := r]> t) = (count_rows P t + if P r then 1 else 0)%Z.
Proof. intros H. rewrite !count_rows_tsum, tsum_insert_new by done. lia. Qed.
Lemma count_rows_replace {R} (P : R -> bool) (t : gmap string R) k r r' : t !! k = Some r ->
  count_rows P (<[k := r']> t) = (count_rows P t - (if P r then 1 else 0) + if P r' then 1 else 0)%Z.
Proof. intros H. by rewrite !count_rows_tsum, (tsum_insert _ _ _ r) by done. Qed.
Lemma count_rows_pos {R} (P : R -> bool) (t : gmap string R) k r : t !! k = Some r -> P r = true -> (1 <= count_rows P t)%Z.
Proof.
  intros H HP. rewrite count_rows_tsum.
  pose proof (tsum_ge (fun r => if P r then 1%Z else 0%Z) t k r) as Hg. cbv beta in Hg. rewrite HP in Hg.
  apply Hg; [intros k' x _; destruct (P x); lia|done].
Qed.
Lemma count_rows_ext {R} (P Q : R -> bool) (t : gmap string R) :
  (forall k r, t !! k = Some r -> P r = Q r) -> count_rows P t = count_rows Q t.
Proof. intros H. rewrite !count_rows_tsum. apply tsum_ext. intros k r Hr. by rewrite (H k r Hr). Qed.

(** * Unique columns under the writes *)

Section unique.
Context {R : Type} (P : R -> bool).

Lemma unique_on_insert t id r :
  t !! id = None -> unique_on P t -> (P r = true -> find_by P t = None) -> unique_on P (<[id := r]> t).
Proof.
  intros Hid Hu Hr k1 k2 r1 r2 H1 H2 P1 P2.
  apply lookup_insert_Some in H1 as [[<- <-]|[Hne1 H1]], H2 as [[<- <-]|[Hne2 H2]].
  - done.
  - apply Hr in P1 as Hn. rewrite find_by_None in Hn. apply Hn in H2. congruence.
  - apply Hr in P2 as Hn. rewrite find_by_None in Hn. apply Hn in H1. congruence.
  - by eapply Hu.
Qed.

Lemma unique_on_fmap t f : (forall r, P (f r) = P r) -> unique_on P t -> unique_on P (f <$> t).
Proof.
  intros Hf Hu k1 k2 r1 r2 H1 H2 P1 P2. rewrite lookup_fmap in H1, H2.
  apply fmap_Some in H1 as (x1 & H1 & ->), H2 as (x2 & H2 & ->). rewrite Hf in P1, P2. by eapply Hu.
Qed.

Lemma unique_on_update t id r r' :
  t !! id = Some r -> P r' = P r -> unique_on P t -> unique_on P (<[id := r']> t).
Proof.
  intros Hid Hr Hu k1 k2 r1 r2 H1 H2 P1 P2.
  apply lookup_insert_Some in H1 as [[<- <-]|[Hne1 H1]], H2 as [[<- <-]|[Hne2 H2]]; try done.
  - eapply Hu; [exact Hid|exact H2| |done]. by rewrite <- Hr.
  - eapply Hu; [exact H1|exact Hid|done|]. by rewrite <- Hr.
  - by eapply Hu.
Qed.
End unique.

(** * Matching the rows of two filters *)

Lemma tsum_le {R} (f g : R -> Z) (t : gmap string R) :
  (forall k r, t !! k = Some r -> f r <= g r)%Z -> (tsum f t <= tsum g t)%Z.
Proof.
  intros H. rewrite !tsum_rows. apply sumZ_le. intros r [k Hk]%elem_of_rows. by apply (H k).
Qed.

Lemma tsum_swap {R R'} (f : R -> R' -> Z) (t : gmap string R) (t' : gmap string R') :
  tsum (fun r => tsum (f r) t') t = tsum (fun r' => tsum (fun r => f r r') t) t'.
Proof.
  rewrite (tsum_ext _ (fun r => sumZ (f r) (rows t'))) by (intros; apply tsum_rows).
  rewrite (tsum_ext (fun r' => tsum _ t) (fun r' => sumZ (fun r => f r r') (rows t))) by (intros; apply tsum_rows).
  rewrite !tsum_rows. apply sumZ_swap.
Qed.

(** Rows of [P] that point to distinct rows of [Q] with the same amount sum to at
    most the rows of [Q]. *)
Lemma tsum_matched {R} (key : R -> string) (target : R -> option string) (P Q : R -> bool) (f g : R -> Z)
    (t : gmap string R) :
  (forall k r, t !! k = Some r -> key r = k) ->
  (forall k r, t !! k = Some r -> Q r = true -> 0 <= g r)%Z ->
  (forall k r, t !! k = Some r -> P r = true ->
     exists r', t !! key r' = Some r' /\ target r = Some (key r') /\ Q r' = true /\ g r' = f r) ->
  (forall k, unique_on (fun r => P r && bool_decide (target r = Some k)) t) ->
  (tsum (fun r => if P r then f r else 0) t <= tsum (fun r => if Q r then g r else 0) t)%Z.
Proof.
  intros Hkey Hpos Hto Huniq. set (F (r r' : R) := if P r && bool_decide (target r = Some (key r')) then (if Q r' then g r' else 0)%Z else 0%Z).
  transitivity (tsum (fun r => tsum (F r) t) t).
  - apply tsum_le. intros k r Hr. destruct (P r) eqn:HP.
    + destruct (Hto k r Hr HP) as (r' & Hr' & Ht & HQ & <-).
      rewrite (tsum_ext _ (fun x => if bool_decide (key x = key r') then (if Q x then g x else 0) else 0)%Z).
      * rewrite tsum_unique.
        -- rewrite (find_by_unique _ _ (key r') r'); [simpl; by rewrite HQ| |done|by apply bool_decide_eq_true].
           intros k1 k2 x1 x2 H1 H2 E1%bool_decide_eq_true E2%bool_decide_eq_true. apply Hkey in H1, H2. congruence.
        -- intros k1 k2 x1 x2 H1 H2 E1%bool_decide_eq_true E2%bool_decide_eq_true. apply Hkey in H1, H2. congruence.
      * intros k' x _. unfold F. rewrite HP, Ht. simpl. repeat case_bool_decide; congruence.
    + apply tsum_nonneg. intros k' x _. unfold F. rewrite HP. simpl. lia.
  - rewrite tsum_swap. apply tsum_le. intros k' x Hx. destruct (Q x) eqn:HQ.
    + pose proof (Hpos k' x Hx HQ). rewrite (tsum_ext _ (fun r => if P r && bool_decide (target r = Some (key x)) then g x else 0)%Z).
      * rewrite (tsum_unique (fun _ => g x)) by apply Huniq. destruct (find_by _ t); simpl; lia.
      * intros k r _. unfold F. by rewrite HQ.
    + rewrite tsum_0; [lia|]. intros k r _. unfold F. rewrite HQ. by destruct (_ && _).
Qed.
