(* ===== verification/Processes.v ===== *)
(** Programs that interleave.  A worker of the service runs outside of one transaction: it
    executes statements one by one, calls other systems between them, and may be stopped at
    any point, while other workers and requests do the same.  A [prog] is such a program, a
    [config] the running processes with the tables and the calls made so far, and [step] what
    may happen next.  The rule [steps_ok] proves invariants of all interleavings process by
    process: each keeps the invariant and what the other processes hold. *)

From S2P Require Import Prelude.

(** * Programs *)

(** [W] are the tables; a question of type [Q] goes to another system, [R q] is its answer. *)
Inductive prog (W Q : Type) (R : Q -> Type) (A : Type) : Type :=
  | Ret (a : A)
  | Throw (e : exn)
  | Stmt {B : Type} (m : M W B) (k : result B -> prog W Q R A)
  | Ask (q : Q) (k : R q -> prog W Q R A).
Arguments Ret {_ _ _ _} _.
Arguments Throw {_ _ _ _} _.
Arguments Stmt {_ _ _ _ _} _ _.
Arguments Ask {_ _ _ _} _ _.

Section programs.
Context {W Q : Type} {R : Q -> Type}.
Implicit Types (w : W).
Notation P := (prog W Q R).

Fixpoint bind_prog {A B} (f : A -> P B) (p : P A) : P B :=
  match p with
  | Ret a => f a
  | Throw e => Throw e
  | Stmt m k => Stmt m (fun r => bind_prog f (k r))
  | Ask q k => Ask q (fun r => bind_prog f (k r))
  end.

(** [try { p } catch (e) { h(e) }] *)
Fixpoint try_catch {A} (p : P A) (h : exn -> P A) : P A :=
  match p with
  | Ret a => Ret a
  | Throw e => h e
  | Stmt m k => Stmt m (fun r => try_catch (k r) h)
  | Ask q k => Ask q (fun r => try_catch (k r) h)
  end.

Definition of_result {A} (r : result A) : P A := match r with Ok a => Ret a | Err e => Throw e end.

(** One statement of the database, or one serializable transaction, awaited. *)
Definition stmt {A} (m : M W A) : P A := Stmt m of_result.
(** A read. *)
Definition query {A} (f : W -> A) : P A := stmt (gets f).
Definition ask (q : Q) : P (R q) := Ask q Ret.
End programs.

#[export] Instance prog_ret W Q R : MRet (prog W Q R) := fun _ a => Ret a.
#[export] Instance prog_bind W Q R : MBind (prog W Q R) := fun _ _ f p => bind_prog f p.
#[export] Instance prog_throw W Q R : MThrow exn (prog W Q R) := fun _ e => Throw e.

(** [if (b) throw e;] *)
Definition fail_if {W Q R} (b : bool) (e : exn) : prog W Q R unit := if b then Throw e else Ret tt.

(** [for (const x of xs) { acc = await f(acc, x); }] *)
Fixpoint each {W Q R X A} (f : A -> X -> prog W Q R A) (xs : list X) (acc : A) : prog W Q R A :=
  match xs with
  | [] => mret acc
  | x :: xs => acc ← f acc x; each f xs acc
  end.

(** * Running processes *)

Section running.
Context {W Q : Type} {R : Q -> Type}.
Notation P := (prog W Q R).

(** A call of another system with its answer. *)
Record call := mkCall { asked : Q; answer : R asked }.
Definition calls := list call.
Implicit Types (w : W) (l : calls).

Record config := mkConfig { tables : W; trace : calls; procs : gmap nat (P unit) }.

(** A program whose result nobody reads. *)
Definition forget {A} (p : P A) : P unit := bind_prog (fun _ => Ret tt) p.

(** What one process may do: its next statement takes place or fails, or its answer is lost
    before or after it took place; a question gets any answer. *)
Inductive pstep : P unit -> W * calls -> P unit -> W * calls -> Prop :=
  | step_stmt {B} (m : M W B) k w l b w' : m w = Ok (b, w') -> pstep (Stmt m k) (w, l) (k (Ok b)) (w', l)
  | step_refused {B} (m : M W B) k w l e : m w = Err e -> pstep (Stmt m k) (w, l) (k (Err e)) (w, l)
  | step_unsent {B} (m : M W B) k w l e : pstep (Stmt m k) (w, l) (k (Err e)) (w, l)
  | step_unheard {B} (m : M W B) k w l b w' e : m w = Ok (b, w') -> pstep (Stmt m k) (w, l) (k (Err e)) (w', l)
  | step_ask q k w l r : pstep (Ask q k) (w, l) (k r) (w, l ++ [mkCall q r]).

(** [starts]: the programs that may be started, at any time and any number of times.
    [others]: what everything that is not one of the processes may do to the tables. *)
Context (starts : P unit -> Prop) (others : W -> W -> Prop).

Inductive step : config -> config -> Prop :=
  | step_start c i p : procs c !! i = None -> starts p -> step c (mkConfig (tables c) (trace c) (<[i := p]> (procs c)))
  | step_proc c i p p' w l : procs c !! i = Some p -> pstep p (tables c, trace c) p' (w, l) ->
      step c (mkConfig w l (<[i := p']> (procs c)))
  | step_stop c i : step c (mkConfig (tables c) (trace c) (delete i (procs c)))
  | step_others c w : others (tables c) w -> step c (mkConfig w (trace c) (procs c)).

Definition reaches : config -> config -> Prop := rtc step.

(** * Running alone *)

(** The run of one process that nobody disturbs; [answers] is what the other systems say
    after the calls so far. *)
Context (answers : calls -> forall q : Q, R q).

Fixpoint exec {A} (p : P A) (s : W * calls) : result A * (W * calls) :=
  match p with
  | Ret a => (Ok a, s)
  | Throw e => (Err e, s)
  | Stmt m k =>
      match m s.1 with
      | Ok (b, w) => exec (k (Ok b)) (w, s.2)
      | Err e => exec (k (Err e)) s
      end
  | Ask q k => let r := answers s.2 q in exec (k r) (s.1, s.2 ++ [mkCall q r])
  end.
End running.
Arguments mkCall {_ _} _ _.
Arguments asked {_ _} _.
Arguments answer {_ _} _.
Arguments calls _ _ : clear implicits.
Arguments config _ _ _ : clear implicits.

(** * Laws of a run alone *)

Section exec.
Context {W Q : Type} {R : Q -> Type} (answers : calls Q R -> forall q : Q, R q).
Notation P := (prog W Q R).
Implicit Types (s : W * calls Q R).

Lemma exec_bind {A B} (p : P A) (f : A -> P B) s :
  exec answers (p ≫= f) s =
  match exec answers p s with (Ok a, s') => exec answers (f a) s' | (Err e, s') => (Err e, s') end.
Proof.
  change (p ≫= f) with (bind_prog f p). revert s. induction p as [a|e|C m k IH|q k IH]; intros s; simpl; [done|done| |apply IH].
  destruct (m s.1) as [[c w]|e]; apply IH.
Qed.

Lemma exec_try {A} (p : P A) h s :
  exec answers (try_catch p h) s =
  match exec answers p s with (Ok a, s') => (Ok a, s') | (Err e, s') => exec answers (h e) s' end.
Proof.
  revert s. induction p as [a|e|C m k IH|q k IH]; intros s; simpl; [done|done| |apply IH].
  destruct (m s.1) as [[c w]|e]; apply IH.
Qed.

Lemma exec_stmt {A} (m : M W A) s :
  exec answers (stmt m) s = match m s.1 with Ok (a, w) => (Ok a, (w, s.2)) | Err e => (Err e, s) end.
Proof. unfold stmt. simpl. by destruct (m s.1) as [[a w]|e]. Qed.

Lemma exec_query {A} (f : W -> A) s : exec answers (query f) s = (Ok (f s.1), s).
Proof. unfold query. rewrite exec_stmt. simpl. by destruct s. Qed.

Lemma exec_ask q s : exec answers (ask q) s = (Ok (answers s.2 q), (s.1, s.2 ++ [mkCall q (answers s.2 q)])).
Proof. done. Qed.

(** Calls are only added. *)
Lemma exec_calls {A} (p : P A) s : s.2 `prefix_of` (exec answers p s).2.2.
Proof.
  revert s. induction p as [a|e|C m k IH|q k IH]; intros s; simpl; [done|done| |].
  - destruct (m s.1) as [[c w]|e]; [apply (IH _ (w, s.2))|apply IH].
  - etrans; [|apply IH]. by apply prefix_app_r.
Qed.

(** A run alone is one of the interleavings. *)
Lemma exec_reaches {A} starts others (p : P A) s i ps : ps !! i = Some (forget p) ->
  exists p', (p' = Ret tt \/ exists e, p' = Throw e) /\
  reaches starts others (mkConfig s.1 s.2 ps) (mkConfig (exec answers p s).2.1 (exec answers p s).2.2 (<[i := p']> ps)).
Proof.
  revert s ps. induction p as [a|e|C m k IH|q k IH]; intros [w l] ps Hi; simpl in *.
  - exists (Ret tt). split; [by left|]. rewrite (insert_id ps) by done. constructor.
  - exists (Throw e). split; [right; by exists e|]. rewrite (insert_id ps) by done. constructor.
  - destruct (m w) as [[c w']|e] eqn:Em.
    + destruct (IH (Ok c) (w', l) (<[i := forget (k (Ok c))]> ps)) as (p' & Hp' & Hr); [by rewrite lookup_insert_eq|].
      exists p'. split; [done|]. rewrite insert_insert_eq in Hr. eapply rtc_l; [|exact Hr].
      eapply (step_proc _ _ (mkConfig w l ps)); [exact Hi|exact (step_stmt m (fun r => forget (k r)) w l c w' Em)].
    + destruct (IH (Err e) (w, l) (<[i := forget (k (Err e))]> ps)) as (p' & Hp' & Hr); [by rewrite lookup_insert_eq|].
      exists p'. split; [done|]. rewrite insert_insert_eq in Hr. eapply rtc_l; [|exact Hr].
      eapply (step_proc _ _ (mkConfig w l ps)); [exact Hi|exact (step_refused m (fun r => forget (k r)) w l e Em)].
  - destruct (IH (answers l q) (w, l ++ [mkCall q (answers l q)]) (<[i := forget (k (answers l q))]> ps)) as (p' & Hp' & Hr);
      [by rewrite lookup_insert_eq|].
    exists p'. split; [done|]. rewrite insert_insert_eq in Hr. eapply rtc_l; [|exact Hr].
    eapply (step_proc _ _ (mkConfig w l ps)); [exact Hi|exact (step_ask q (fun r => forget (k r)) w l (answers l q))].
Qed.
End exec.

(** * Schedules *)

(** An interleaving that is computed: processes are started and run some of their statements
    in turn, with [answers] as above. *)
Section schedules.
Context {W Q : Type} {R : Q -> Type} (answers : calls Q R -> forall q : Q, R q).
Context (starts : prog W Q R unit -> Prop) (others : W -> W -> Prop).
Notation P := (prog W Q R unit).

Fixpoint advance (n : nat) (p : P) (s : W * calls Q R) : P * (W * calls Q R) :=
  match n, p with
  | S n, Stmt m k =>
      match m s.1 with
      | Ok (b, w) => advance n (k (Ok b)) (w, s.2)
      | Err e => advance n (k (Err e)) s
      end
  | S n, Ask q k => let r := answers s.2 q in advance n (k r) (s.1, s.2 ++ [mkCall q r])
  | _, _ => (p, s)
  end.
Definition launched (i : nat) (p : P) (c : config W Q R) : config W Q R := mkConfig (tables c) (trace c) (<[i := p]> (procs c)).
Definition advanced (n i : nat) (c : config W Q R) : config W Q R :=
  match procs c !! i with
  | Some p => let out := advance n p (tables c, trace c) in mkConfig out.2.1 out.2.2 (<[i := out.1]> (procs c))
  | None => c
  end.
Definition disturbed (f : W -> W) (c : config W Q R) : config W Q R := mkConfig (f (tables c)) (trace c) (procs c).

Lemma reaches_launched i p c c0 : reaches starts others c0 c -> procs c !! i = None -> starts p -> reaches starts others c0 (launched i p c).
Proof. intros Hr Hi Hp. eapply rtc_r; [exact Hr|]. by apply step_start. Qed.
Lemma reaches_disturbed f c c0 : reaches starts others c0 c -> others (tables c) (f (tables c)) -> reaches starts others c0 (disturbed f c).
Proof. intros Hr Hf. eapply rtc_r; [exact Hr|]. by apply step_others. Qed.
Lemma advance_reaches n p w l i ps : ps !! i = Some p -> let out := advance n p (w, l) in
  reaches starts others (mkConfig w l ps) (mkConfig out.2.1 out.2.2 (<[i := out.1]> ps)).
Proof.
  revert p w l ps. induction n as [|n IH]; intros p w l ps Hi.
  { cbn. rewrite (insert_id ps) by done. constructor. }
  assert (Hgo : forall p' w' l', pstep p (w, l) p' (w', l') -> let out := advance n p' (w', l') in
    reaches starts others (mkConfig w l ps) (mkConfig out.2.1 out.2.2 (<[i := out.1]> ps))).
  { intros p' w' l' Hs out. eapply rtc_l; [by eapply (step_proc _ _ (mkConfig w l ps))|]. cbn.
    specialize (IH p' w' l' (<[i := p']> ps)). cbv zeta in IH. rewrite lookup_insert_eq, insert_insert_eq in IH. by apply IH. }
  destruct p as [a|e|B m k|q k]; cbn; try (rewrite (insert_id ps) by done; constructor).
  - destruct (m w) as [[b w']|e] eqn:E; apply Hgo; [by apply step_stmt|by eapply step_refused].
  - apply Hgo, step_ask.
Qed.
Lemma reaches_advanced n i c c0 : reaches starts others c0 c -> reaches starts others c0 (advanced n i c).
Proof.
  intros Hr. unfold advanced. destruct (procs c !! i) as [p|] eqn:Hp; [|done]. etrans; [exact Hr|].
  destruct c as [w l ps]. by apply advance_reaches.
Qed.
End schedules.

(** * Invariants of all interleavings *)

(** A process may hold a token [T]: a fact about the state that no other process disturbs.
    [moves] is the order in which the state goes on; what was true of an earlier state
    remains known through it. *)
Section invariants.
Context {W Q : Type} {R : Q -> Type}.
Notation P := (prog W Q R).
Notation S := (W * calls Q R)%type.
Context {T : Type} (inv : S -> Prop) (moves : S -> S -> Prop) `{!PreOrder moves}.
Context (holds : T -> S -> Prop) (apart : T -> T -> Prop) `{!Symmetric apart}.
Context (starts : P unit -> Prop) (others : W -> W -> Prop).

Definition owned (o : option T) (s : S) : Prop := match o with Some t => holds t s | None => True end.
Definition clear_of (o : option T) (t : T) : Prop := match o with Some u => apart t u | None => True end.

(** A process that holds [o] goes from [s] to [s'] and holds [o'] there. *)
Record goes (o : option T) (s : S) (o' : option T) (s' : S) : Prop := mkGoes {
  go_inv : inv s';
  go_moves : moves s s';
  go_owned : owned o' s';
  go_frame : forall t, holds t s -> clear_of o t -> holds t s' /\ clear_of o' t
}.

(** What [p] does from [s0] on, whatever happens between its statements, and [post] of its
    result. *)
Fixpoint wp {A} (p : P A) (post : S -> option T -> result A -> Prop) (s0 : S) (o : option T) : Prop :=
  match p with
  | Ret a => post s0 o (Ok a)
  | Throw e => post s0 o (Err e)
  | Stmt m k => forall s, moves s0 s -> inv s -> owned o s ->
      (forall e, wp (k (Err e)) post s o) /\
      forall b w, m s.1 = Ok (b, w) ->
        (exists o', goes o s o' (w, s.2) /\ wp (k (Ok b)) post (w, s.2) o') /\
        (exists o', goes o s o' (w, s.2) /\ forall e, wp (k (Err e)) post (w, s.2) o')
  | Ask q k => forall s r, moves s0 s -> inv s -> owned o s ->
      exists o', goes o s o' (s.1, s.2 ++ [mkCall q r]) /\ wp (k r) post (s.1, s.2 ++ [mkCall q r]) o'
  end.

Lemma goes_stay o s : inv s -> owned o s -> goes o s o s.
Proof. intros H1 H2. by split. Qed.

Lemma goes_forget o s s' o' : goes o s o' s' -> goes o s None s'.
Proof. intros []. split; [done..|]. intros t Ht Hc. split; [by apply go_frame0|done]. Qed.

Lemma wp_conseq {A} (p : P A) post post' s0 o :
  wp p post s0 o -> (forall s o r, post s o r -> post' s o r) -> wp p post' s0 o.
Proof.
  intros H Hpost. revert s0 o H. induction p as [a|e|B m k IH|q k IH]; intros s0 o H; simpl in *; [by apply Hpost..| |].
  - intros s Hs Hi Hh. destruct (H s Hs Hi Hh) as [He Hok]. split; [intros e; by apply IH|].
    intros b w Hb. destruct (Hok b w Hb) as [(o1 & G1 & W1) (o2 & G2 & W2)].
    split; [exists o1|exists o2]; (split; [done|intros; by apply IH]).
  - intros s r Hs Hi Hh. destruct (H s r Hs Hi Hh) as (o' & G & W'). exists o'. split; [done|by apply IH].
Qed.

Lemma wp_bind {A B} (p : P A) (f : A -> P B) post s0 o :
  wp p (fun s o r => match r with Ok a => wp (f a) post s o | Err e => post s o (Err e) end) s0 o -> wp (p ≫= f) post s0 o.
Proof.
  change (p ≫= f) with (bind_prog f p). revert s0 o. induction p as [a|e|C m k IH|q k IH]; intros s0 o H; simpl in *; [done|done| |].
  - intros s Hs Hi Hh. destruct (H s Hs Hi Hh) as [He Hok]. split; [intros e; by apply IH|].
    intros b w Hb. destruct (Hok b w Hb) as [(o1 & G1 & W1) (o2 & G2 & W2)]. split; [exists o1|exists o2]; split; [done| |done|].
    + by apply IH.
    + intros e. by apply IH.
  - intros s r Hs Hi Hh. destruct (H s r Hs Hi Hh) as (o' & G & W'). exists o'. split; [done|]. by apply IH.
Qed.

Lemma wp_try {A} (p : P A) h post s0 o :
  wp p (fun s o r => match r with Ok a => post s o (Ok a) | Err e => wp (h e) post s o end) s0 o -> wp (try_catch p h) post s0 o.
Proof.
  revert s0 o. induction p as [a|e|C m k IH|q k IH]; intros s0 o H; simpl in *; [done|done| |].
  - intros s Hs Hi Hh. destruct (H s Hs Hi Hh) as [He Hok]. split; [intros e; by apply IH|].
    intros b w Hb. destruct (Hok b w Hb) as [(o1 & G1 & W1) (o2 & G2 & W2)]. split; [exists o1|exists o2]; split; [done| |done|].
    + by apply IH.
    + intros e. by apply IH.
  - intros s r Hs Hi Hh. destruct (H s r Hs Hi Hh) as (o' & G & W'). exists o'. split; [done|]. by apply IH.
Qed.

(** A statement whose success leads to [o'], and from whose loss the process keeps nothing. *)
Lemma wp_stmt {A} (m : M W A) post s0 o :
  (forall s, moves s0 s -> inv s -> owned o s ->
    (forall e, post s o (Err e)) /\
    forall a w, m s.1 = Ok (a, w) -> exists o', goes o s o' (w, s.2) /\ post (w, s.2) o' (Ok a) /\
      forall e, post (w, s.2) None (Err e)) ->
  wp (stmt m) post s0 o.
Proof.
  intros H s Hs Hi Hh. destruct (H s Hs Hi Hh) as [He Hok]. split; [exact He|]. intros a w Ha.
  destruct (Hok a w Ha) as (o' & G & Hp & Hn). split; [by exists o'|]. exists None. split; [by eapply goes_forget|done].
Qed.

(** A read. *)
Lemma wp_query {A} (f : W -> A) post s0 o :
  (forall s, moves s0 s -> inv s -> owned o s -> post s o (Ok (f s.1)) /\ forall e, post s o (Err e)) -> wp (query f) post s0 o.
Proof.
  intros H [w l] Hs Hi Hh. destruct (H _ Hs Hi Hh) as [Hp He]. split; [exact He|]. intros a w' [= <- <-].
  split; exists o; (split; [by apply goes_stay|done]).
Qed.

(** A loop whose rounds keep [J]. *)
Lemma wp_each {X A} (f : A -> X -> P A) (J : S -> option T -> A -> Prop) post xs acc s0 o :
  J s0 o acc -> (forall s o acc, J s o acc -> post s o (Ok acc)) ->
  (forall x acc s o, x ∈ xs -> J s o acc ->
    wp (f acc x) (fun s o r => match r with Ok acc => J s o acc | Err e => post s o (Err e) end) s o) ->
  wp (each f xs acc) post s0 o.
Proof.
  intros HJ Hend Hround. revert acc s0 o HJ. induction xs as [|x xs IH]; intros acc s0 o HJ; cbn [each]; [by apply Hend|].
  apply wp_bind. eapply wp_conseq; [apply Hround; [by left|done]|].
  intros s1 o1 [a|e] H1; cbn in H1; [|done]. apply IH; [|done]. intros y acc' s2 o2 Hy. apply Hround. by right.
Qed.

(** A result comes after the start. *)
Lemma wp_since {A} (p : P A) post s0 o :
  wp p post s0 o -> wp p (fun s o r => moves s0 s /\ post s o r) s0 o.
Proof.
  cut (forall s1, moves s0 s1 -> wp p post s1 o -> wp p (fun s o r => moves s0 s /\ post s o r) s1 o).
  { intros H Hp. by apply H. }
  revert o. induction p as [a|e|B m k IH|q k IH]; intros o s1 M H; cbn in *; [done|done| |].
  - intros s Hs Hi Hh. destruct (H s Hs Hi Hh) as [He Hok]. assert (M' : moves s0 s) by (by etrans).
    split; [intros e; by apply IH|]. intros b w Hb. destruct (Hok b w Hb) as [(o1 & G1 & W1) (o2 & G2 & W2)].
    split; [exists o1|exists o2]; (split; [done|]); [|intros e]; (apply IH; [|done]); etrans; [exact M'|apply G1|exact M'|apply G2].
  - intros s r Hs Hi Hh. destruct (H s r Hs Hi Hh) as (o' & G & W'). exists o'. split; [done|].
    apply IH; [|done]. etrans; [exact M|]. etrans; [exact Hs|apply G].
Qed.

Lemma wp_ask q post s0 o :
  (forall s r, moves s0 s -> inv s -> owned o s ->
    exists o', goes o s o' (s.1, s.2 ++ [mkCall q r]) /\ post (s.1, s.2 ++ [mkCall q r]) o' (Ok r)) ->
  wp (ask q) post s0 o.
Proof. intros H s r Hs Hi Hh. by apply H. Qed.

(** ** The rule *)

Definition at_work (p : P unit) (s : S) (o : option T) : Prop :=
  owned o s /\ exists s0, moves s0 s /\ wp p (fun _ _ _ => True) s0 o.

Record config_ok (c : config W Q R) (owns : nat -> option T) : Prop := mkConfigOk {
  cf_inv : inv (tables c, trace c);
  cf_work : forall i p, procs c !! i = Some p -> at_work p (tables c, trace c) (owns i);
  cf_apart : forall i j p q t u, i <> j -> procs c !! i = Some p -> procs c !! j = Some q ->
    owns i = Some t -> owns j = Some u -> apart t u
}.

Context (starts_ok : forall p s, starts p -> inv s -> wp p (fun _ _ _ => True) s None).
Context (others_ok : forall s w, inv s -> others s.1 w ->
  inv (w, s.2) /\ moves s (w, s.2) /\ forall t, holds t s -> holds t (w, s.2)).

Lemma pstep_ok p s p' s' o : pstep p s p' s' -> inv s -> at_work p s o -> exists o', goes o s o' s' /\ at_work p' s' o'.
Proof.
  intros Hp Hi (Hh & s0 & M & H). destruct Hp as [B m k w l b w' E|B m k w l e E|B m k w l e|B m k w l b w' e E|q k w l r]; cbn in H.
  - destruct (H _ M Hi Hh) as [_ Hok]. destruct (Hok _ _ E) as [(o1 & G & H1) _].
    exists o1. split; [done|]. split; [apply G|]. eexists. split; [reflexivity|exact H1].
  - destruct (H _ M Hi Hh) as [He _]. exists o. split; [by apply goes_stay|]. split; [done|]. eexists. split; [reflexivity|apply He].
  - destruct (H _ M Hi Hh) as [He _]. exists o. split; [by apply goes_stay|]. split; [done|]. eexists. split; [reflexivity|apply He].
  - destruct (H _ M Hi Hh) as [_ Hok]. destruct (Hok _ _ E) as [_ (o1 & G & H1)].
    exists o1. split; [done|]. split; [apply G|]. eexists. split; [reflexivity|apply H1].
  - destruct (H _ r M Hi Hh) as (o1 & G & H1). exists o1. split; [done|]. split; [apply G|]. eexists. split; [reflexivity|exact H1].
Qed.

Lemma at_work_later p s s' o : at_work p s o -> moves s s' -> owned o s' -> at_work p s' o.
Proof. intros (_ & s0 & M & H) M' Hh. split; [done|]. exists s0. split; [by etrans|done]. Qed.

Definition own_at (i : nat) (o : option T) (owns : nat -> option T) : nat -> option T :=
  fun j => if decide (j = i) then o else owns j.

Lemma step_ok c c' owns : config_ok c owns -> step starts others c c' ->
  moves (tables c, trace c) (tables c', trace c') /\ exists owns', config_ok c' owns'.
Proof.
  intros [Hi Hw Ha] Hs. destruct Hs as [c i p Hn Hp|c i p p' w l Hp Hs|c i|c w Ho]; cbn.
  - split; [reflexivity|]. exists (own_at i None owns). split; cbn; [done| |].
    + intros j q Hq. unfold own_at. destruct (decide (j = i)) as [->|Hne].
      * rewrite lookup_insert_eq in Hq. simplify_eq. split; [done|]. eexists. split; [reflexivity|]. by apply starts_ok.
      * rewrite lookup_insert_ne in Hq by done. by apply Hw.
    + intros j k q r t u Hne Hq Hr Ht Hu. unfold own_at in *.
      destruct (decide (j = i)) as [|Hji]; [done|]. destruct (decide (k = i)) as [|Hki]; [done|].
      rewrite lookup_insert_ne in Hq by done. rewrite lookup_insert_ne in Hr by done. exact (Ha j k q r t u Hne Hq Hr Ht Hu).
  - destruct (pstep_ok _ _ _ _ _ Hs Hi (Hw _ _ Hp)) as (o' & G & W'). split; [apply G|].
    exists (own_at i o' owns). split; cbn; [apply G| |].
    + intros j q Hq. unfold own_at. destruct (decide (j = i)) as [->|Hne].
      * rewrite lookup_insert_eq in Hq. by simplify_eq.
      * rewrite lookup_insert_ne in Hq by done. eapply at_work_later; [by apply Hw|apply G|].
        destruct (Hw _ _ Hq) as [Hh _]. destruct (owns j) as [t|] eqn:Et; [|done]. cbn in Hh |- *.
        apply (go_frame _ _ _ _ G); [done|]. destruct (owns i) as [u|] eqn:Eu; [|done]. exact (Ha j i q p t u Hne Hq Hp Et Eu).
    + assert (F : forall j q t, j <> i -> procs c !! j = Some q -> owns j = Some t -> clear_of o' t).
      { intros j q t Hne Hq Et. destruct (Hw _ _ Hq) as [Hh _]. rewrite Et in Hh.
        apply (go_frame _ _ _ _ G); [done|]. destruct (owns i) as [u|] eqn:Eu; [|done]. exact (Ha j i q p t u Hne Hq Hp Et Eu). }
      intros j k q r t u Hne Hq Hr Ht Hu. unfold own_at in *.
      destruct (decide (j = i)) as [->|]; destruct (decide (k = i)) as [->|]; try done;
        try rewrite lookup_insert_ne in Hq by done; try rewrite lookup_insert_ne in Hr by done.
      * symmetry. specialize (F _ _ _ ltac:(done) Hr Hu). by rewrite Ht in F.
      * specialize (F _ _ _ ltac:(done) Hq Ht). by rewrite Hu in F.
      * exact (Ha j k q r t u Hne Hq Hr Ht Hu).
  - split; [reflexivity|]. exists owns. split; cbn; [done| |].
    + intros j q Hq. apply lookup_delete_Some in Hq as [_ Hq]. by apply Hw.
    + intros j k q r t u Hne Hq Hr. apply lookup_delete_Some in Hq as [_ Hq]. apply lookup_delete_Some in Hr as [_ Hr].
      exact (Ha j k q r t u Hne Hq Hr).
  - destruct (others_ok _ _ Hi Ho) as (Hi' & M & F). split; [done|]. exists owns. split; cbn; [done| |done].
    intros j q Hq. eapply at_work_later; [by apply Hw|done|]. destruct (Hw _ _ Hq) as [Hh _].
    destruct (owns j); [by apply F|done].
Qed.

Lemma steps_ok c c' owns : config_ok c owns -> reaches starts others c c' ->
  moves (tables c, trace c) (tables c', trace c') /\ exists owns', config_ok c' owns'.
Proof.
  intros H Hr. revert owns H. induction Hr as [c|c c1 c' Hs _ IH]; intros owns H; [split; [reflexivity|by exists owns]|].
  destruct (step_ok _ _ _ H Hs) as [M (owns1 & H1)]. destruct (IH _ H1) as [M' H']. split; [by etrans|done].
Qed.

(** Before any process runs, the invariant is enough. *)
Lemma idle_ok w l : inv (w, l) -> config_ok (mkConfig w l ∅) (fun _ => None).
Proof. by split. Qed.
End invariants.
Arguments wp : simpl never.
