(* ===== verification/Door.v ===== *)
(** Custom door orders: the pricing rules of
    [src/apps/api/src/modules/custom-door-orders/door-pricing.ts] with exact integer
    money and rational quantities, the manufacturing checks of [door-manufacturing.ts]
    and the production state machine of [door-state.ts].  Dimensions, quantities and
    rule coefficients are the integers that the request and catalogue DTOs admit;
    [validUntil] is the time value of its date ([None] for an invalid date). *)

From S2P Require Import Prelude Table StateMachine.

Open Scope Z_scope.

(** * Data *)

Inductive DoorBasis := AREA | PERIMETER | WIDTH | HEIGHT | FIXED.
Inductive DoorUnit := M2 | M_ | EACH.
#[export] Instance DoorBasis_eq_dec : EqDecision DoorBasis.
Proof. solve_decision. Defined.
#[export] Instance DoorUnit_eq_dec : EqDecision DoorUnit.
Proof. solve_decision. Defined.

Record DoorPricingComponent := mkComponent {
  c_slot : string;
  c_basis : DoorBasis;
  c_multiplier : Z;
  c_divisor : Z;
  c_widthDeductionMm : Z;
  c_heightDeductionMm : Z;
  c_wasteBps : Z;
  c_minimumQuantity : string
}.
Record Technical := mkTechnical {
  te_minWidthMm : Z;
  te_maxWidthMm : Z;
  te_minHeightMm : Z;
  te_maxHeightMm : Z;
  te_toleranceMm : Z
}.
Record Slot := mkSlot { sl_key : string; sl_title : string; sl_materialIds : list string; sl_required : bool }.
Record Incompatible := mkIncompatible { in_materialIds : list string; in_reason : string }.
Record Labor := mkLabor { la_fixed : string; la_perSquareMeter : string }.
Record Additional := mkAdditional { ad_title : string; ad_amount : string }.
Inductive DepositKind := PERCENT | FIXED_AMOUNT.
Record DoorDepositPolicy := mkDeposit { dp_kind : DepositKind; dp_value : string; dp_minimum : string }.
Record DoorModelConfiguration := mkModelConfiguration {
  technical : option Technical;
  manualApproval : bool;
  slots : list Slot;
  incompatible : list Incompatible;
  components : list DoorPricingComponent;
  labor : option Labor;
  additional : list Additional;
  taxBps : Z;
  discount : string;
  minimumTotal : string;
  deposit_policy : option DoorDepositPolicy
}.
Record DoorMaterialConfiguration := mkMaterialConfiguration {
  mc_unit : DoorUnit;
  mc_rate : option string;
  mc_validUntil : option (option Z);
  mc_processingFee : string;
  mc_stockUnit : option string
}.
Record DoorModel := mkModel {
  mo_id : string;
  mo_code : string;
  mo_title : string;
  mo_active : bool;
  mo_version : Z;
  mo_configuration : DoorModelConfiguration
}.
Record DoorMaterial := mkMaterial {
  ma_id : string;
  ma_code : string;
  ma_title : string;
  ma_active : bool;
  ma_version : Z;
  ma_variantId : option string;
  ma_configuration : DoorMaterialConfiguration
}.

(** Enumerated strings of a request stay strings, as the checks read them. *)
Record Hole := mkHole { ho_distanceMm : number; ho_reference : string }.
Record DoorManufacturing := mkManufacturing {
  profileColor : string;
  handleSide : string;
  hingeSide : string;
  drillingMode : string;
  holes : list Hole
}.
Record DoorItemInput := mkItem {
  modelId : string;
  widthMm : Z;
  heightMm : Z;
  quantity : Z;
  selections : list (string * string);
  manufacturing : option DoorManufacturing
}.

Record DoorPart := mkPart {
  pa_title : string;
  pa_amount : option Z;
  pa_quantityNumerator : Z;
  pa_quantityDenominator : Z;
  pa_materialId : string;
  pa_variantId : option string;
  pa_unit : DoorUnit;
  pa_stockUnit : option string
}.
Record DoorPricingLine := mkLine {
  ln_item : nat;
  ln_title : string;
  ln_manufacturing : option DoorManufacturing;
  ln_quantity : Z;
  ln_widthMm : Z;
  ln_heightMm : Z;
  ln_unitTotal : option Z;
  ln_total : option Z;
  ln_parts : list DoorPart;
  ln_model : DoorModel;
  ln_materials : list DoorMaterial
}.
(** [DoorQuoteSnapshot]; money fields are numbers, printed in decimal in the code. *)
Record DoorQuoteSnapshot := mkSnapshot {
  sn_lines : list DoorPricingLine;
  sn_reasons : list string;
  sn_calculatedTotal : option Z;
  sn_total : option Z;
  sn_deposit : option Z;
  sn_depositPolicy : option Z
}.

(** * Errors *)

Definition bad (message : string) : exn := HttpException BadRequestException None message.
Definition unprocessable (message : string) : exn :=
  HttpException UnprocessableEntityException None message.
Definition invalid_money : exn := bad "مبلغ باید عدد صحیح ریالی معتبر باشد.".
Definition money_out_of_range : exn := unprocessable "مبلغ محاسبه‌شده خارج از دامنه مجاز است.".
Definition invalid_rule : exn := bad "قاعده محاسبه نامعتبر است.".
Definition wrong_dimensions : exn := unprocessable "ابعاد برش با قاعده مدل سازگار نیست.".
Definition wrong_unit : exn := unprocessable "واحد تعرفه با قاعده مدل سازگار نیست.".
Definition wrong_minimum : exn := bad "حداقل مقدار باید عدد اعشاری دقیق و مثبت باشد.".

(** * Decimal strings *)

Definition MAX_DOOR_MONEY : Z := 9223372036854775807.
(** [doorMoney(value)] *)
Definition doorMoney (value : string) : result Z :=
  match parse_natural 19 (String.list_ascii_of_string value) with
  | Some n => if MAX_DOOR_MONEY <? n then Err invalid_money else Ok n
  | None => Err invalid_money
  end.
(** [checkedMoney(value)] *)
Definition checkedMoney (value : Z) : result Z :=
  if (value <? 0) || (MAX_DOOR_MONEY <? value) then Err money_out_of_range else Ok value.
(** [ceilDiv(n, d)] *)
Definition ceilDiv (n d : Z) : result Z :=
  if (n <? 0) || (d <=? 0) then Err invalid_rule else Ok ((n + d - 1) / d).

(** The whole and fractional digits of a decimal string, split at its first point. *)
Fixpoint split_point (ds : list Ascii.ascii) : list Ascii.ascii * option (list Ascii.ascii) :=
  match ds with
  | [] => ([], None)
  | c :: ds =>
      if bool_decide (c = Ascii.ascii_of_N 46) then ([], Some ds)
      else let '(w, f) := split_point ds in (c :: w, f)
  end.
(** [/^(0|[1-9][0-9]{0,12})(\.[0-9]{1,6})?$/] and the fraction
    [minimumN / minimumD] it denotes. *)
Definition parse_minimum (value : string) : option (Z * Z) :=
  let '(w, f) := split_point (String.list_ascii_of_string value) in
  whole ← parse_natural 13 w;
  match f with
  | None => Some (whole, 1)
  | Some f =>
      if forallb is_digit f && (1 <=? length f)%nat && (length f <=? 6)%nat then
        let minimumD := 10 ^ Z.of_nat (length f) in
        Some (whole * minimumD + digits_value f, minimumD)
      else None
  end.

(** * Measurement *)

Definition expected_unit (b : DoorBasis) : DoorUnit :=
  match b with AREA => M2 | FIXED => EACH | _ => M_ end.
Definition basis_quantity (b : DoorBasis) (w h : Z) : Z :=
  match b with
  | AREA => w * h
  | PERIMETER => 2 * (w + h)
  | WIDTH => w
  | HEIGHT => h
  | FIXED => 1
  end.
Definition basis_divisor (b : DoorBasis) : Z :=
  match b with AREA => 1000000 | FIXED => 1 | _ => 1000 end.

(** [measured(item, rule, unit)]: the quantity [n / d]. *)
Definition measured (item : DoorItemInput) (rule : DoorPricingComponent) (unit : DoorUnit)
    : result (Z * Z) :=
  let w := widthMm item - c_widthDeductionMm rule in
  let h := heightMm item - c_heightDeductionMm rule in
  if (w <=? 0) || (h <=? 0) then Err wrong_dimensions
  else if negb (bool_decide (unit = expected_unit (c_basis rule))) then Err wrong_unit
  else
    let n := basis_quantity (c_basis rule) w h * (c_multiplier rule * (10000 + c_wasteBps rule)) in
    let d := basis_divisor (c_basis rule) * (c_divisor rule * 10000) in
    match parse_minimum (c_minimumQuantity rule) with
    | None => Err wrong_minimum
    | Some (minimumN, minimumD) =>
        if n * minimumD <? minimumN * d then Ok (minimumN, minimumD) else Ok (n, d)
    end.

(** * Manufacturing *)

Definition one_of (xs : list string) (s : string) : bool := bool_decide (s ∈ xs).
Definition wrong_specification : exn := bad "مشخصات پروفیل، دستگیره و لولا معتبر نیست.".
Definition standard_with_holes : exn := bad "در حالت استاندارد، محل سوراخ سفارشی نباید ثبت شود.".
Definition four_holes : exn := bad "برای سوراخ‌کاری سفارشی، محل هر چهار سوراخ را وارد کنید.".
Definition wrong_hole : exn := bad "فاصلهٔ سوراخ باید مثبت و حداکثر برابر ارتفاع درب باشد.".
Definition same_position : exn :=
  bad "محل دو سوراخ نمی‌تواند یکسان باشد؛ مرجع بالا و پایین را بررسی کنید.".

Definition hole_top (heightMm : Z) (hole : Hole) : Z :=
  if bool_decide (ho_reference hole = "TOP") then int_val (ho_distanceMm hole)
  else heightMm - int_val (ho_distanceMm hole).
Definition hole_valid (heightMm : Z) (hole : Hole) : bool :=
  isSafeInteger (ho_distanceMm hole) && (0 <? int_val (ho_distanceMm hole)) &&
  (int_val (ho_distanceMm hole) <=? heightMm) && one_of ["TOP"; "BOTTOM"] (ho_reference hole).

(** The loop over the holes with its set of positions. *)
Fixpoint check_holes (heightMm : Z) (positions : list Z) (hs : list Hole) : result unit :=
  match hs with
  | [] => Ok tt
  | hole :: hs =>
      if negb (hole_valid heightMm hole) then Err wrong_hole
      else
        let top := hole_top heightMm hole in
        if bool_decide (top ∈ positions) then Err same_position
        else check_holes heightMm (top :: positions) hs
  end.

(** [validateDoorManufacturing(item)] *)
Definition validateDoorManufacturing (item : DoorItemInput) : result unit :=
  match manufacturing item with
  | None => Ok tt
  | Some value =>
      if negb (one_of ["BLACK"; "WHITE"; "GOLD"; "BRONZE"] (profileColor value)) ||
         negb (one_of ["RIGHT"; "LEFT"; "TOP"; "BOTTOM"] (handleSide value)) ||
         negb (one_of ["RIGHT"; "LEFT"; "TOP"; "BOTTOM"] (hingeSide value)) ||
         negb (one_of ["STANDARD"; "CUSTOM"] (drillingMode value))
      then Err wrong_specification
      else if bool_decide (drillingMode value = "STANDARD") then
        if bool_decide (holes value = []) then Ok tt else Err standard_with_holes
      else if negb (length (holes value) =? 4)%nat then Err four_holes
      else check_holes (heightMm item) [] (holes value)
  end.

(** * Pricing *)

(** [new Map(pairs)]: a later pair overrides an earlier one of the same key. *)
Definition map_of {A} (pairs : list (string * A)) : gmap string A :=
  foldl (fun m kv => <[fst kv := snd kv]> m) ∅ pairs.

(** The variables the lines share. *)
Record PricingState := mkPricing {
  reasons : list string;
  calculated : Z;
  complete : bool
}.
Definition add_reason (r : string) : M PricingState unit :=
  modify (fun s => mkPricing (reasons s ++ [r]) (calculated s) (complete s)).

Definition positive_int4 (v : Z) : bool :=
  (Z.abs v <=? MAX_SAFE_INTEGER) && (0 <? v) && (v <=? 2147483647).

Definition within_technical (t : Technical) (item : DoorItemInput) : bool :=
  (te_minWidthMm t <=? widthMm item) && (widthMm item <=? te_maxWidthMm t) &&
  (te_minHeightMm t <=? heightMm item) && (heightMm item <=? te_maxHeightMm t).

(** The loop over [cfg.slots]: the chosen materials. *)
Fixpoint choose (materialMap : gmap string DoorMaterial) (selected : gmap string string)
    (ss : list Slot) : result (list DoorMaterial) :=
  match ss with
  | [] => Ok []
  | slot :: ss =>
      let id := selected !! sl_key slot in
      if negb (truthy_opt id) && negb (sl_required slot) then choose materialMap selected ss
      else
        let i := default EmptyString id in
        match (if truthy_opt id then materialMap !! i else None) with
        | Some material =>
            if negb (truthy_opt id) || negb (bool_decide (i ∈ sl_materialIds slot)) ||
               negb (ma_active material)
            then Err (unprocessable ("گزینه معتبر برای " +:+ sl_title slot +:+ " انتخاب کنید."))
            else
              rest ← choose materialMap selected ss;
              Ok (material :: rest)
        | None => Err (unprocessable ("گزینه معتبر برای " +:+ sl_title slot +:+ " انتخاب کنید."))
        end
  end.

(** The loop over [cfg.incompatible]. *)
Fixpoint check_incompatible (rules : list Incompatible) (chosen : list DoorMaterial) : result unit :=
  match rules with
  | [] => Ok tt
  | rule :: rules =>
      if forallb (fun id => existsb (fun m => bool_decide (ma_id m = id)) chosen) (in_materialIds rule)
      then Err (unprocessable (in_reason rule))
      else check_incompatible rules chosen
  end.

Definition expired (now : Z) (c : DoorMaterialConfiguration) : bool :=
  match mc_validUntil c with Some (Some t) => t <=? now | _ => false end.

(** The amount of a component; [None] when the material has no valid rate. *)
Definition component_amount (now n d : Z) (c : DoorMaterialConfiguration) : result (option Z) :=
  match mc_rate c with
  | Some rate =>
      if expired now c then Ok None
      else
        r ← doorMoney rate;
        q ← ceilDiv (n * r) d;
        fee ← doorMoney (mc_processingFee c);
        amount ← checkedMoney (q + fee);
        Ok (Some amount)
  | None => Ok None
  end.

(** The loop over [cfg.components]: the running unit price, whether the line is
    complete, and the parts. *)
Fixpoint price_components (now : Z) (prefix : string) (item : DoorItemInput)
    (materialMap : gmap string DoorMaterial) (selected : gmap string string)
    (cs : list DoorPricingComponent) (unit : Z) (lineComplete : bool) (parts : list DoorPart)
    : M PricingState (Z * bool * list DoorPart) :=
  match cs with
  | [] => mret (unit, lineComplete, parts)
  | component :: cs =>
      let id := selected !! c_slot component in
      if negb (truthy_opt id) then
        price_components now prefix item materialMap selected cs unit lineComplete parts
      else
        material ← unwrap (id ≫= fun i => materialMap !! i)
                     (JsError "TypeError" "Cannot read properties of undefined");
        let c := ma_configuration material in
        nd ← lift_result (measured item component (mc_unit c));
        let n := fst nd in
        let d := snd nd in
        amount ← lift_result (component_amount now n d c);
        (match amount with
         | None => add_reason (prefix +:+ "تعرفه " +:+ ma_title material +:+ " موجود یا معتبر نیست.")
         | Some _ => mret tt
         end) ;;
        price_components now prefix item materialMap selected cs (unit + default 0 amount)
          (lineComplete && bool_decide (is_Some amount))
          (parts ++ [mkPart (ma_title material) amount (n * quantity item) d (ma_id material)
                       (ma_variantId material) (mc_unit c) (mc_stockUnit c)])
  end.

(** The loop over the chosen materials that have no part. *)
Fixpoint uncovered (prefix : string) (parts : list DoorPart) (chosen : list DoorMaterial)
    (lineComplete : bool) : M PricingState bool :=
  match chosen with
  | [] => mret lineComplete
  | material :: chosen =>
      if existsb (fun p => bool_decide (pa_materialId p = ma_id material)) parts then
        uncovered prefix parts chosen lineComplete
      else
        add_reason (prefix +:+ "قاعده محاسبه " +:+ ma_title material +:+ " تعیین نشده است.") ;;
        uncovered prefix parts chosen false
  end.

Fixpoint sum_money (xs : list string) (unit : Z) : result Z :=
  match xs with
  | [] => Ok unit
  | x :: xs => a ← doorMoney x; sum_money xs (unit + a)
  end.

(** Labor, additions, tax, discount and minimum on the material cost. *)
Definition finish_unit (item : DoorItemInput) (cfg : DoorModelConfiguration) (unit : Z) : result Z :=
  unit ← (match labor cfg with
          | Some l =>
              fixed ← doorMoney (la_fixed l);
              square ← doorMoney (la_perSquareMeter l);
              area ← ceilDiv (widthMm item * heightMm item * square) 1000000;
              Ok (unit + (fixed + area))
          | None => Ok unit
          end);
  unit ← sum_money (ad_amount <$> additional cfg) unit;
  tax ← ceilDiv (unit * taxBps cfg) 10000;
  let unit := unit + tax in
  disc ← doorMoney (discount cfg);
  if unit <? disc then Err (unprocessable "تخفیف از مبلغ ردیف بیشتر است.")
  else
    let unit := unit - disc in
    minimum ← doorMoney (minimumTotal cfg);
    checkedMoney (if unit <? minimum then minimum else unit).

(** [if (lineComplete) calculated = checkedMoney(calculated + total); else complete = false;] *)
Definition add_total (lineComplete : bool) (total : Z) : M PricingState unit :=
  if lineComplete then
    before ← gets calculated;
    sum ← lift_result (checkedMoney (before + total));
    modify (fun s => mkPricing (reasons s) sum (complete s))
  else modify (fun s => mkPricing (reasons s) (calculated s) false).

(** [b ? x : null] *)
Definition only_if {A} (b : bool) (x : A) : option A := if b then Some x else None.

Definition prefix_of_line (index : nat) : string := "ردیف " +:+ pretty (S index) +:+ ": ".

(** The callback of [items.map]: the line of one item. *)
Definition price_line (now : Z) (models : list DoorModel) (materialMap : gmap string DoorMaterial)
    (index : nat) (item : DoorItemInput) : M PricingState DoorPricingLine :=
  lift_result (validateDoorManufacturing item) ;;
  throw_if (negb (forallb positive_int4 [widthMm item; heightMm item; quantity item]))
    (bad "ابعاد و تعداد باید عدد صحیح مثبت باشند.") ;;
  throw_if (1000 <? quantity item) (bad "حداکثر تعداد هر ردیف هزار است.") ;;
  model ← unwrap (List.find (fun m => bool_decide (mo_id m = modelId item) && mo_active m) models)
            (unprocessable "مدل فعال و معتبر انتخاب کنید.");
  let cfg := mo_configuration model in
  let prefix := prefix_of_line index in
  (match technical cfg with
   | None => add_reason (prefix +:+ "قواعد فنی مدل نیازمند تکمیل و تأیید است.")
   | Some t =>
       if within_technical t item then mret tt
       else add_reason (prefix +:+ "ابعاد نیازمند تأیید فنی خارج از محدوده ثبت‌شده است.")
   end) ;;
  (if manualApproval cfg then add_reason (prefix +:+ "تأیید مدیر برای این مدل الزامی است.")
   else mret tt) ;;
  let selected := map_of (selections item) in
  throw_if (negb (size selected =? length (selections item))%nat ||
            existsb (fun s => negb (existsb (fun slot => bool_decide (sl_key slot = fst s)) (slots cfg)))
              (selections item))
    (unprocessable "گزینه تکراری یا ناشناخته ارسال شده است.") ;;
  chosen ← lift_result (choose materialMap selected (slots cfg));
  lift_result (check_incompatible (incompatible cfg) chosen) ;;
  let lineComplete := negb (bool_decide (components cfg = [])) && bool_decide (is_Some (labor cfg)) in
  (if lineComplete then mret tt else add_reason (prefix +:+ "فرمول یا اجرت کامل نیست.")) ;;
  priced ← price_components now prefix item materialMap selected (components cfg) 0 lineComplete [];
  let parts := snd priced in
  lineComplete ← uncovered prefix parts chosen (snd (fst priced));
  unit ← lift_result (finish_unit item cfg (fst (fst priced)));
  total ← lift_result (checkedMoney (unit * quantity item));
  add_total lineComplete total ;;
  mret (mkLine index (mo_title model) (manufacturing item) (quantity item) (widthMm item) (heightMm item)
    (only_if lineComplete unit) (only_if lineComplete total)
    parts model chosen).

Fixpoint price_lines (now : Z) (models : list DoorModel) (materialMap : gmap string DoorMaterial)
    (index : nat) (items : list DoorItemInput) : M PricingState (list DoorPricingLine) :=
  match items with
  | [] => mret []
  | item :: items =>
      line ← price_line now models materialMap index item;
      rest ← price_lines now models materialMap (S index) items;
      mret (line :: rest)
  end.

(** [priceDoors(items, models, materials, now)] *)
Definition priceDoors (items : list DoorItemInput) (models : list DoorModel)
    (materials : list DoorMaterial) (now : Z) : result DoorQuoteSnapshot :=
  if bool_decide (items = []) || (50 <? length items)%nat then
    Err (bad "یک تا پنجاه ردیف درب مجاز است.")
  else
    let materialMap := map_of ((fun m => (ma_id m, m)) <$> materials) in
    match price_lines now models materialMap 0 items (mkPricing [] 0 true) with
    | Err e => Err e
    | Ok (lines, s) =>
        let deposit := only_if (complete s) (calculated s) in
        let approved := complete s && bool_decide (reasons s = []) in
        Ok (mkSnapshot lines (reasons s)
          (only_if (complete s) (calculated s))
          (only_if approved (calculated s))
          (if approved then deposit else None)
          deposit)
    end.

(** * Payments and production *)

(** The payment rows of a door order that [doorPaid] reads. *)
Record PaymentRow := mkPayment {
  py_id : string;
  py_status : PaymentStatus;
  py_amount : Z;
  py_refundedAmount : Z
}.
Definition doorPaid (payments : list PaymentRow) : Z :=
  foldl (fun n p =>
    n + (if bool_decide (py_status p ∈ [PAY_PAID; PAY_PARTIALLY_REFUNDED; PAY_REFUNDED])
         then py_amount p - py_refundedAmount p else 0)) 0 payments.

Inductive DoorStatus :=
  | D_DRAFT | D_PENDING_QUOTE_APPROVAL | D_AWAITING_DEPOSIT | D_DEPOSIT_PAID
  | D_AWAITING_TECHNICAL_APPROVAL | D_APPROVED_FOR_PRODUCTION | D_IN_PRODUCTION
  | D_QUALITY_CONTROL | D_READY_FOR_DELIVERY | D_AWAITING_SETTLEMENT | D_COMPLETED | D_CANCELLED.
#[export] Instance DoorStatus_eq_dec : EqDecision DoorStatus.
Proof. solve_decision. Defined.

Definition door_status_str (s : DoorStatus) : string :=
  match s with
  | D_DRAFT => "DRAFT" | D_PENDING_QUOTE_APPROVAL => "PENDING_QUOTE_APPROVAL"
  | D_AWAITING_DEPOSIT => "AWAITING_DEPOSIT" | D_DEPOSIT_PAID => "DEPOSIT_PAID"
  | D_AWAITING_TECHNICAL_APPROVAL => "AWAITING_TECHNICAL_APPROVAL"
  | D_APPROVED_FOR_PRODUCTION => "APPROVED_FOR_PRODUCTION" | D_IN_PRODUCTION => "IN_PRODUCTION"
  | D_QUALITY_CONTROL => "QUALITY_CONTROL" | D_READY_FOR_DELIVERY => "READY_FOR_DELIVERY"
  | D_AWAITING_SETTLEMENT => "AWAITING_SETTLEMENT" | D_COMPLETED => "COMPLETED"
  | D_CANCELLED => "CANCELLED"
  end.

Definition DOOR_TRANSITIONS : TransitionMap DoorStatus := fun from =>
  match from with
  | D_DRAFT => [D_PENDING_QUOTE_APPROVAL; D_AWAITING_DEPOSIT; D_CANCELLED]
  | D_PENDING_QUOTE_APPROVAL => [D_AWAITING_DEPOSIT; D_CANCELLED]
  | D_AWAITING_DEPOSIT => [D_DEPOSIT_PAID; D_CANCELLED]
  | D_DEPOSIT_PAID => [D_AWAITING_TECHNICAL_APPROVAL; D_CANCELLED]
  | D_AWAITING_TECHNICAL_APPROVAL => [D_APPROVED_FOR_PRODUCTION; D_CANCELLED]
  | D_APPROVED_FOR_PRODUCTION => [D_IN_PRODUCTION; D_CANCELLED]
  | D_IN_PRODUCTION => [D_QUALITY_CONTROL]
  | D_QUALITY_CONTROL => [D_IN_PRODUCTION; D_READY_FOR_DELIVERY]
  | D_READY_FOR_DELIVERY => [D_AWAITING_SETTLEMENT; D_COMPLETED]
  | D_AWAITING_SETTLEMENT => [D_COMPLETED]
  | D_COMPLETED => []
  | D_CANCELLED => []
  end.

(** [assertTransition] on door statuses: the message names both states. *)
#[export] Instance door_machine : Machine DoorStatus := {|
  machine_name := "door"; machine_map := DOOR_TRANSITIONS; status_str := door_status_str |}.

Record DoorContext := mkContext {
  cx_approved : bool;
  cx_accepted : bool;
  cx_paid : Z;
  cx_deposit : Z;
  cx_remaining : Z;
  cx_technical : bool;
  cx_stockReady : bool;
  cx_consumed : bool;
  cx_delivery : bool
}.

Definition door_conflict (message : string) : exn :=
  HttpException ConflictException (Some "DOOR_STATE_CONFLICT") message.

(** [assertDoorTransition(from, to, context)] *)
Definition assertDoorTransition (from to : DoorStatus) (context : DoorContext) : result unit :=
  assertTransition from to DOOR_TRANSITIONS None ;;
  if bool_decide (to = D_CANCELLED) then Ok tt
  else if negb (cx_approved context) || negb (cx_accepted context) then
    Err (door_conflict "قیمت قطعی و تأیید مشخصات توسط مشتری لازم است.")
  else if 0 <? cx_remaining context then
    Err (door_conflict "پرداخت کامل مبلغ نهایی سفارش لازم است.")
  else if bool_decide (to ∈ [D_APPROVED_FOR_PRODUCTION; D_IN_PRODUCTION; D_QUALITY_CONTROL;
             D_READY_FOR_DELIVERY; D_AWAITING_SETTLEMENT; D_COMPLETED]) && negb (cx_technical context) then
    Err (door_conflict "تأیید فنی پیش از تولید لازم است.")
  else if bool_decide (to = D_IN_PRODUCTION) && negb (cx_stockReady context) then
    Err (door_conflict "قطعات متصل به انبار باید طبق برنامه مصرف واقعی رزرو شوند.")
  else if bool_decide (to ∈ [D_QUALITY_CONTROL; D_READY_FOR_DELIVERY; D_COMPLETED]) &&
          negb (cx_consumed context) then
    Err (door_conflict "ثبت مصرف واقعی قطعات لازم است.")
  else if bool_decide (to = D_COMPLETED) &&
          (negb (bool_decide (cx_remaining context = 0)) || negb (cx_delivery context)) then
    Err (door_conflict "تسویه کامل و اطلاعات تحویل لازم است.")
  else Ok tt.
