(* ===== verification/Paging.v ===== *)
(** Filtered, sorted and paged reads of a table, with the count of all rows that match,
    as the list endpoints of the services answer them. *)

From S2P Require Import Prelude Table.

(** * Operations *)

(** [orderBy] of one text column, and of several columns. *)
Definition by_text {R} (collate : string -> string -> Z) (f : R -> string) (a b : R) : Z := collate (f a) (f b).
Definition then_by {R} (first second : R -> R -> Z) (a b : R) : Z :=
  if bool_decide (first a b = 0%Z) then second a b else first a b.
Definition ascending {R} (f : R -> Z) (a b : R) : Z := (f a - f b)%Z.
Definition descending {R} (cmp : R -> R -> Z) (a b : R) : Z := cmp b a.

(** [{ OR: [{ f: { contains: text, mode: 'insensitive' } }, ...] }]; [icontains] is the
    database's test, and a null column contains nothing. *)
Definition contains_any (icontains : string -> string -> bool) (text : string) (columns : list (option string)) : bool :=
  existsb (fun c => match c with Some c => icontains c text | None => false end) columns.

(** [query.search?.trim() || undefined] *)
Definition search_text (search : option string) : option string :=
  match search with Some s => if truthy (trim s) then Some (trim s) else None | None => None end.

(** [...(search ? { OR: [...] } : {})] *)
Definition matches (icontains : string -> string -> bool) (search : option string) (columns : list (option string)) : bool :=
  match search with Some s => contains_any icontains s columns | None => true end.

(** An entry of a list of options. *)
Record OptionItem := mkOption { op_id : string; op_code : string; op_label : string }.
Definition page_options {R} (label : R -> OptionItem) (p : list R * Z) : list OptionItem * Z := (label <$> fst p, snd p).

(** A client that reads [n] pages of size [limit], one after the other. *)
Fixpoint walk {B} (get : Z -> list B) (limit : Z) (n : nat) (offset : Z) : list B :=
  match n with
  | O => []
  | S n => get offset ++ walk get limit n (offset + limit)
  end.

Lemma walk_ext {B} (get get' : Z -> list B) limit n offset :
  (forall i, i < n -> get (offset + Z.of_nat i * limit)%Z = get' (offset + Z.of_nat i * limit)%Z) ->
  walk get limit n offset = walk get' limit n offset.
Proof.
  revert offset. induction n as [|n IH]; intros offset H; [done|]. simpl. f_equal.
  - by specialize (H 0 ltac:(lia)); rewrite Z.add_0_r in H.
  - apply IH. intros i Hi. specialize (H (S i) ltac:(lia)).
    by replace (offset + Z.of_nat (S i) * limit)%Z with (offset + limit + Z.of_nat i * limit)%Z in H by lia.
Qed.

(** A table is kept under its primary key. *)
Definition keyed {R} (id : R -> string) (t : gmap string R) : Prop := forall k r, t !! k = Some r -> id r = k.

Section paging.
Context {R : Type}.
Implicit Types (cmp : R -> R -> Z) (P : R -> bool) (t : gmap string R) (scan : list R -> list R).

(** [findMany({ where, orderBy })].  Rows that compare equal stay in the order of the table;
    no theorem depends on it. *)
Definition find_sorted cmp P t : list R := js_sort cmp (find_many P t).

(** [findMany({ where, orderBy, skip, take })] with [count({ where })].  The database reads
    the rows in an order of its own, [scan], which may differ from query to query, and
    [orderBy] leaves it open among rows that compare equal. *)
Definition list_page scan cmp P (offset limit : Z) t : list R * Z :=
  (page offset limit (js_sort cmp (scan (find_many P t))), count_rows P t).
End paging.

(** * Orders *)

(** A comparison function of a total preorder. *)
Class Comparator {R} (cmp : R -> R -> Z) : Prop := {
  cmp_flip : forall a b, (cmp a b <= 0 <-> 0 <= cmp b a)%Z;
  cmp_trans : forall a b c, (cmp a b <= 0 -> cmp b c <= 0 -> cmp a c <= 0)%Z
}.
#[export] Hint Mode Comparator + ! : typeclass_instances.
#[export] Typeclasses Opaque by_text then_by ascending descending.
(** A deterministic collation: it tells different texts apart. *)
Class Collation (collate : string -> string -> Z) : Prop := {
  collation_cmp :: Comparator collate;
  collation_eq : forall a b, collate a b = 0%Z -> a = b
}.

#[export] Instance by_text_cmp {R} collate (f : R -> string) : Comparator collate -> Comparator (by_text collate f).
Proof. intros [F T]. split; unfold by_text; eauto. Qed.
#[export] Instance ascending_cmp {R} (f : R -> Z) : Comparator (ascending f).
Proof. split; unfold ascending; lia. Qed.
#[export] Instance descending_cmp {R} (cmp : R -> R -> Z) : Comparator cmp -> Comparator (descending cmp).
Proof. intros [F T]. split; unfold descending; eauto. Qed.
#[export] Instance then_by_cmp {R} (first second : R -> R -> Z) : Comparator first -> Comparator second -> Comparator (then_by first second).
Proof.
  intros [F1 T1] [F2 T2]. split.
  - intros a b. unfold then_by. pose proof (F1 a b). pose proof (F1 b a). pose proof (F2 a b). repeat case_bool_decide; lia.
  - intros a b c. unfold then_by. pose proof (T1 a b c). pose proof (T1 b c a). pose proof (T1 c a b). pose proof (T2 a b c).
    pose proof (F1 a b). pose proof (F1 b a). pose proof (F1 b c). pose proof (F1 c b). pose proof (F1 a c). pose proof (F1 c a).
    repeat case_bool_decide; lia.
Qed.
#[export] Instance cmp_le_transitive {R} (cmp : R -> R -> Z) : Comparator cmp -> Transitive (cmp_le cmp).
Proof. intros [F T] a b c. apply T. Qed.
#[export] Instance cmp_le_total {R} (cmp : R -> R -> Z) : Comparator cmp -> Total (cmp_le cmp).
Proof. intros [F T] a b. unfold cmp_le. destruct (Z.le_gt_cases (cmp a b) 0); [by left|right]. apply F. lia. Qed.

Lemma then_by_eq {R} (first second : R -> R -> Z) a b : then_by first second a b = 0%Z -> first a b = 0%Z /\ second a b = 0%Z.
Proof. unfold then_by. by case_bool_decide. Qed.
Lemma by_text_eq {R} collate (f : R -> string) a b : Collation collate -> by_text collate f a b = 0%Z -> f a = f b.
Proof. unfold by_text. intros H. apply collation_eq. Qed.

(** * Lemmas *)

Section lemmas.
Context {R : Type}.
Implicit Types (cmp : R -> R -> Z) (P : R -> bool) (t : gmap string R).

Lemma find_sorted_Permutation cmp P t : find_sorted cmp P t ≡ₚ find_many P t.
Proof. apply js_sort_Permutation. Qed.

Lemma elem_of_find_sorted cmp P t r : r ∈ find_sorted cmp P t <-> (exists k, t !! k = Some r) /\ P r = true.
Proof. unfold find_sorted. by rewrite elem_of_js_sort, elem_of_find_many. Qed.

Lemma page_bounded {A} skip limit (l : list A) : (Z.of_nat (length (page skip limit l)) <= Z.max 0 limit)%Z.
Proof. unfold page. rewrite length_take. lia. Qed.

Lemma walk_take {B} (f : R -> B) (l : list R) limit n offset : (0 <= offset)%Z -> (0 <= limit)%Z ->
  walk (fun o => f <$> page o limit l) limit n offset = f <$> take (n * Z.to_nat limit) (drop (Z.to_nat offset) l).
Proof.
  revert offset. induction n as [|n IH]; intros offset Ho Hl; [done|]. cbn [walk]. unfold page at 1.
  rewrite IH by lia. rewrite <- fmap_app. f_equal.
  rewrite Z2Nat.inj_add by lia. rewrite <- drop_drop.
  replace (S n * Z.to_nat limit) with (Z.to_nat limit + n * Z.to_nat limit) by lia.
  by rewrite take_take_drop.
Qed.
Lemma walk_complete {B} (f : R -> B) (l : list R) limit n : (0 < limit)%Z -> (Z.of_nat (length l) <= Z.of_nat n * limit)%Z ->
  walk (fun o => f <$> page o limit l) limit n 0 = f <$> l.
Proof. intros Hl Hn. rewrite walk_take by lia. f_equal. simpl. rewrite drop_0. apply take_ge. nia. Qed.

(** An order that no two rows share decides every page, however the rows are read. *)
Section decided.
Context cmp P t `{!Comparator cmp} (Hdecides : forall a b, a ∈ find_many P t -> b ∈ find_many P t -> cmp a b = 0%Z -> a = b).

Lemma sorted_scan l : l ≡ₚ find_many P t -> js_sort cmp l = find_sorted cmp P t.
Proof using All.
  intros Hl. apply (StronglySorted_unique_strong (cmp_le cmp)).
  - intros a b Ha Hb H1 H2. unfold cmp_le in *. apply Hdecides; [by rewrite <- Hl, <- elem_of_js_sort|by rewrite <- (elem_of_js_sort cmp)|].
    pose proof (cmp_flip (cmp := cmp) b a). lia.
  - apply js_sort_sorted; apply _.
  - apply js_sort_sorted; apply _.
  - by rewrite js_sort_Permutation, find_sorted_Permutation.
Qed.

Lemma find_sorted_strict id : keyed id t -> StronglySorted (fun a b => cmp a b < 0)%Z (find_sorted cmp P t).
Proof using All.
  intros Hid. assert (Hnd : NoDup (find_sorted cmp P t)).
  { rewrite find_sorted_Permutation. unfold find_many. apply NoDup_ListNoDup, List.NoDup_filter, NoDup_ListNoDup. unfold rows.
    apply NoDup_fmap_2_strong; [|apply NoDup_map_to_list]. intros [k1 r1] [k2 r2] H1%elem_of_map_to_list H2%elem_of_map_to_list E.
    cbn in E. subst r2. apply Hid in H1, H2. by subst. }
  assert (Hin : forall a, a ∈ find_sorted cmp P t -> a ∈ find_many P t) by (intros a; by rewrite find_sorted_Permutation).
  assert (Hs : StronglySorted (cmp_le cmp) (find_sorted cmp P t)) by (apply js_sort_sorted; apply _).
  induction Hs as [|a l Hs IH Hall]; constructor.
  - apply NoDup_cons in Hnd as [_ Hnd]. apply IH; [done|]. intros b Hb. apply Hin. by constructor.
  - apply NoDup_cons in Hnd as [Ha _]. rewrite Forall_forall in Hall |- *. intros b Hb. specialize (Hall b Hb). unfold cmp_le in Hall.
    destruct (decide (cmp a b = 0%Z)) as [E|]; [|lia]. apply Hdecides in E; [by subst|apply Hin; by constructor|apply Hin; by constructor].
Qed.
End decided.
End lemmas.
