(* ===== verification/Json.v ===== *)
(** JSON values and [JSON.stringify] of strings and arrays of strings, used as
    composite map keys and as audit payloads.  Quoting is injective: a quoted
    string can be read back from the front of any text. *)

From S2P Require Import Prelude.
From Stdlib Require Import Ascii.

(** * Values *)

Inductive json :=
  | JNull
  | JBool (b : bool)
  | JNum (z : Z)
  | JStr (s : string)
  | JArr (l : list json)
  | JObj (fields : list (string * json)).

(** [x ?? null] *)
Definition jopt (s : option string) : json := match s with Some s => JStr s | None => JNull end.

(** * [JSON.stringify] *)

Definition hex_digit (n : N) : ascii := ascii_of_N (if (n <? 10)%N then 48 + n else 87 + n).
Definition esc_char (c : ascii) : string :=
  let n := N_of_ascii c in
  let bs := "\"%char in
  if (n =? 34)%N then String bs (String c EmptyString)
  else if (n =? 92)%N then String bs (String c EmptyString)
  else if (n =? 8)%N then String bs "b"
  else if (n =? 9)%N then String bs "t"
  else if (n =? 10)%N then String bs "n"
  else if (n =? 12)%N then String bs "f"
  else if (n =? 13)%N then String bs "r"
  else if (n <? 32)%N then
    String bs ("u00" +:+ String (hex_digit (n / 16)) (String (hex_digit (n mod 16)) EmptyString))
  else String c EmptyString.

Definition dquote : ascii := ascii_of_N 34.

(** The escaped characters of [s], the closing quote and then [k]. *)
Fixpoint esc_then (s : string) (k : string) : string :=
  match s with
  | EmptyString => String dquote k
  | String c s => esc_char c +:+ esc_then s k
  end.
(** [JSON.stringify(s)] followed by [k]. *)
Definition quote_then (s k : string) : string := String dquote (esc_then s k).

(** [JSON.stringify(xs)] of an array of strings. *)
Fixpoint elements_then (xs : list string) : string :=
  match xs with
  | [] => "]"
  | [x] => quote_then x "]"
  | x :: xs => quote_then x ("," +:+ elements_then xs)
  end.
Definition stringify_strings (xs : list string) : string := "[" +:+ elements_then xs.

(** * Reading back *)

Definition unhex (c : ascii) : N := let n := N_of_ascii c in if (n <? 58)%N then n - 48 else n - 87.

(** The first character of an escaped text, [None] at the closing quote. *)
Definition unesc (s : string) : option (ascii * string) :=
  match s with
  | String c s =>
      if (N_of_ascii c =? 34)%N then None
      else if (N_of_ascii c =? 92)%N then
        match s with
        | String "b" s => Some (ascii_of_N 8, s)
        | String "t" s => Some (ascii_of_N 9, s)
        | String "n" s => Some (ascii_of_N 10, s)
        | String "f" s => Some (ascii_of_N 12, s)
        | String "r" s => Some (ascii_of_N 13, s)
        | String "u" (String _ (String _ (String h (String l s)))) =>
            Some (ascii_of_N (16 * unhex h + unhex l), s)
        | String c s => Some (c, s)
        | EmptyString => None
        end
      else Some (c, s)
  | EmptyString => None
  end.

Lemma unesc_esc c s : unesc (esc_char c +:+ s) = Some (c, s).
Proof. destruct c as [[] [] [] [] [] [] [] []]; reflexivity. Qed.

Lemma esc_then_inj s1 s2 k1 k2 : esc_then s1 k1 = esc_then s2 k2 -> s1 = s2 /\ k1 = k2.
Proof.
  revert s2. induction s1 as [|c1 s1 IH]; intros [|c2 s2]; simpl; intros H.
  - injection H as ->. done.
  - exfalso. apply (f_equal unesc) in H. by rewrite unesc_esc in H.
  - exfalso. apply (f_equal unesc) in H. by rewrite unesc_esc in H.
  - apply (f_equal unesc) in H. rewrite !unesc_esc in H. injection H as -> H.
    destruct (IH _ H) as [-> ->]. done.
Qed.

Lemma quote_then_inj s1 s2 k1 k2 : quote_then s1 k1 = quote_then s2 k2 -> s1 = s2 /\ k1 = k2.
Proof. unfold quote_then. intros H. injection H as H. by apply esc_then_inj. Qed.

Lemma stringify_strings_inj xs ys :
  length xs = length ys -> stringify_strings xs = stringify_strings ys -> xs = ys.
Proof.
  unfold stringify_strings. intros Hlen H. injection H as H. revert ys Hlen H.
  induction xs as [|x xs IH]; intros [|y ys] Hlen H; try done.
  destruct xs as [|x' xs], ys as [|y' ys]; try done.
  - apply quote_then_inj in H as [-> _]. done.
  - cbn [elements_then] in H. apply quote_then_inj in H as [-> H]. injection H as H.
    f_equal. apply IH; [simpl in *; lia|done].
Qed.
