(* ===== verification/StableJson.v ===== *)
(** The canonical text of a command payload, [stableJson] of the purchasing and
    stocktake services: objects are printed with their keys in code-unit order, so
    that two payloads have the same text exactly when they are the same value up to
    the order of object keys.  Numbers are the integers the payloads hold. *)

From S2P Require Import Prelude Json.
From Stdlib Require Import Ascii.

(** * The definition *)

(** [xs.join(',')] *)
Fixpoint join_comma (xs : list string) : string :=
  match xs with
  | [] => EmptyString
  | [x] => x
  | x :: xs => x +:+ "," +:+ join_comma xs
  end.

(** [JSON.stringify] of a string *)
Definition quote (s : string) : string := quote_then s EmptyString.

Definition byCodeUnit (a b : string) : Z := if js_ltb a b then -1 else if js_ltb b a then 1 else 0.
Definition by_key {A} (a b : string * A) : Z := byCodeUnit (fst a) (fst b).

Definition field_text (kv : string * string) : string := quote (fst kv) +:+ ":" +:+ snd kv.

(** [stableJson(value)]; sorting the pairs by key and then printing each is printing
    each value and then sorting. *)
Fixpoint stableJson (value : json) : string :=
  match value with
  | JNull => "null"
  | JBool b => if b then "true" else "false"
  | JNum z => pretty z
  | JStr s => quote s
  | JArr l => "[" +:+ join_comma (map stableJson l) +:+ "]"
  | JObj fields =>
      "{" +:+ join_comma (field_text <$> js_sort by_key (map (fun kv => (fst kv, stableJson (snd kv))) fields))
        +:+ "}"
  end.

(** * Values up to the order of keys *)

Section json_induction.
Context (P : json -> Prop).
Hypotheses (Hnull : P JNull) (Hbool : forall b, P (JBool b)) (Hnum : forall z, P (JNum z))
  (Hstr : forall s, P (JStr s)) (Harr : forall l, Forall P l -> P (JArr l))
  (Hobj : forall fs, Forall (fun kv => P (snd kv)) fs -> P (JObj fs)).

Fixpoint json_nested_ind (j : json) : P j :=
  match j with
  | JNull => Hnull
  | JBool b => Hbool b
  | JNum z => Hnum z
  | JStr s => Hstr s
  | JArr l => Harr l ((fix go (l : list json) : Forall P l :=
      match l with [] => Forall_nil_2 _ | x :: l => Forall_cons_2 _ _ _ (json_nested_ind x) (go l) end) l)
  | JObj fs => Hobj fs ((fix go (fs : list (string * json)) : Forall (fun kv => P (snd kv)) fs :=
      match fs with [] => Forall_nil_2 _ | kv :: fs => Forall_cons_2 _ _ _ (json_nested_ind (snd kv)) (go fs) end) fs)
  end.
End json_induction.

(** An object value: no key occurs twice. *)
Fixpoint distinct_keys (j : json) : Prop :=
  match j with
  | JArr l => fold_right (fun x P => distinct_keys x /\ P) True l
  | JObj fs => NoDup (fst <$> fs) /\ fold_right (fun kv P => distinct_keys (snd kv) /\ P) True fs
  | _ => True
  end.

(** The same value with every object's keys in order. *)
Fixpoint canonical_json (j : json) : json :=
  match j with
  | JArr l => JArr (map canonical_json l)
  | JObj fs => JObj (js_sort by_key (map (fun kv => (fst kv, canonical_json (snd kv))) fs))
  | j => j
  end.

(** Equality up to the order of keys. *)
Inductive same_value : json -> json -> Prop :=
  | same_null : same_value JNull JNull
  | same_bool b : same_value (JBool b) (JBool b)
  | same_num z : same_value (JNum z) (JNum z)
  | same_str s : same_value (JStr s) (JStr s)
  | same_arr l l' : Forall2 same_value l l' -> same_value (JArr l) (JArr l')
  | same_obj fs gs fs' :
      fs ≡ₚ gs -> Forall2 (fun kv kv' => fst kv = fst kv' /\ same_value (snd kv) (snd kv')) gs fs' ->
      same_value (JObj fs) (JObj fs').

(** Printing in the order of the fields. *)
Fixpoint print_json (j : json) : string :=
  match j with
  | JNull => "null"
  | JBool b => if b then "true" else "false"
  | JNum z => pretty z
  | JStr s => quote s
  | JArr l => "[" +:+ join_comma (map print_json l) +:+ "]"
  | JObj fs => "{" +:+ join_comma (map (fun kv => field_text (fst kv, print_json (snd kv))) fs) +:+ "}"
  end.

(** * Sorting by key *)

Lemma by_key_le {A B} (k1 k2 : string) (a1 a2 : A) (b1 b2 : B) :
  cmp_le by_key (k1, a1) (k2, a2) <-> cmp_le by_key (k1, b1) (k2, b2).
Proof. done. Qed.

Lemma sort_insert_keys {A B} (g : A -> B) (kv : string * A) l :
  (fun x => (fst x, g (snd x))) <$> sort_insert by_key kv l =
  sort_insert by_key (fst kv, g (snd kv)) ((fun x => (fst x, g (snd x))) <$> l).
Proof.
  induction l as [|y l IH]; [done|]. simpl.
  destruct (decide (cmp_le by_key kv y)) as [H|H].
  - rewrite decide_True by (by destruct kv, y). done.
  - rewrite decide_False by (by destruct kv, y). by rewrite fmap_cons, IH.
Qed.

Lemma js_sort_keys {A B} (g : A -> B) (l : list (string * A)) :
  (fun x => (fst x, g (snd x))) <$> js_sort by_key l = js_sort by_key ((fun x => (fst x, g (snd x))) <$> l).
Proof.
  induction l as [|kv l IH]; [done|]. simpl. unfold js_sort in *. by rewrite sort_insert_keys, IH.
Qed.

Lemma by_key_sound {A} (kv kv' : string * A) :
  cmp_le by_key kv kv' <-> js_ltb (fst kv') (fst kv) = false.
Proof.
  unfold cmp_le, by_key, byCodeUnit. destruct (js_ltb (fst kv) (fst kv')) eqn:E1.
  - rewrite (js_ltb_antisym _ _ E1). done.
  - destruct (js_ltb (fst kv') (fst kv)) eqn:E2; split; done.
Qed.

#[export] Instance by_key_total {A} : Total (cmp_le (A := string * A) by_key).
Proof.
  intros x y. rewrite !by_key_sound. destruct (js_ltb (fst y) (fst x)) eqn:E; [|by left].
  right. by apply js_ltb_antisym.
Qed.

#[export] Instance by_key_trans {A} : Transitive (cmp_le (A := string * A) by_key).
Proof.
  intros x y z. rewrite !by_key_sound. intros H1 H2. apply not_true_is_false. intros H3.
  destruct (js_ltb_total (fst x) (fst y)) as [H|[H|H]]; [|congruence|congruence].
  pose proof (js_ltb_trans _ _ _ H3 H). congruence.
Qed.

(** Distinct keys: the sorted order is unique. *)
Lemma sorted_keys_unique {A} (l1 l2 : list (string * A)) :
  NoDup (fst <$> l1) -> l1 ≡ₚ l2 -> js_sort by_key l1 = js_sort by_key l2.
Proof.
  intros Hnd Hp. apply (StronglySorted_unique_strong (cmp_le by_key)).
  - intros x y Hx Hy H1%by_key_sound H2%by_key_sound. rewrite elem_of_js_sort in Hx.
    assert (Hk : fst x = fst y).
    { destruct (js_ltb_total (fst x) (fst y)) as [H|[H|H]]; congruence. }
    rewrite elem_of_js_sort, <- Hp in Hy. destruct x as [k a], y as [k' a']. simpl in Hk. subst k'.
    f_equal. apply list_elem_of_lookup in Hx as [i Hi], Hy as [j Hj].
    assert (i = j).
    { eapply NoDup_lookup; [exact Hnd| |]; rewrite list_lookup_fmap, ?Hi, ?Hj; done. }
    congruence.
  - apply js_sort_sorted; [apply by_key_total|apply by_key_trans].
  - apply js_sort_sorted; [apply by_key_total|apply by_key_trans].
  - by rewrite !js_sort_Permutation.
Qed.

(** * The text of a value *)

Lemma stableJson_print j : stableJson j = print_json (canonical_json j).
Proof.
  induction j as [| | | |l IH|fs IH] using json_nested_ind; try done.
  - simpl. do 3 f_equal. rewrite map_map. apply map_ext_in. intros x Hx.
    rewrite Forall_forall in IH. apply IH. by apply list_elem_of_In.
  - simpl. do 3 f_equal.
    transitivity (field_text <$> js_sort by_key ((fun x => (fst x, print_json (snd x))) <$>
      ((fun kv => (fst kv, canonical_json (snd kv))) <$> fs))).
    + do 2 f_equal. rewrite <- list_fmap_compose. apply list_fmap_ext. intros i kv Hi. simpl. f_equal.
      rewrite Forall_lookup in IH. by apply (IH i).
    + rewrite <- (js_sort_keys print_json). by rewrite <- list_fmap_compose.
Qed.

(** ** Reading the first character *)

Definition head_char (s : string) : option ascii :=
  match s with String c _ => Some c | EmptyString => None end.

(** Digits and the sign. *)
Definition num_char (c : ascii) : bool :=
  let n := N_of_ascii c in ((48 <=? n) && (n <=? 57) || (n =? 45))%N.

(** What may follow a value. *)
Definition stops (k : string) : Prop := from_option (fun c => num_char c = false) True (head_char k).

Fixpoint all_num (s : string) : bool :=
  match s with String c s => num_char c && all_num s | EmptyString => true end.

Lemma append_nil k : EmptyString +:+ k = k.
Proof. done. Qed.
Lemma append_cons c s k : String c s +:+ k = String c (s +:+ k).
Proof. done. Qed.

Lemma num_text_inj a b k1 k2 :
  all_num a = true -> all_num b = true -> stops k1 -> stops k2 -> a +:+ k1 = b +:+ k2 -> a = b /\ k1 = k2.
Proof.
  intros Ha Hb H1 H2. revert b Hb. induction a as [|c a IH]; intros [|d b] Hb H; rewrite ?append_nil, ?append_cons in H; simpl in *.
  - done.
  - subst k1. unfold stops in H1. simpl in H1. apply andb_true_iff in Hb as [Hb _]. congruence.
  - subst k2. unfold stops in H2. simpl in H2. apply andb_true_iff in Ha as [Ha _]. congruence.
  - apply andb_true_iff in Ha as [_ Ha], Hb as [_ Hb]. injection H as -> H.
    destruct (IH Ha b Hb H) as [-> ->]. done.
Qed.

Lemma all_num_go n s : all_num s = true -> all_num (pretty_N_go n s) = true.
Proof.
  revert s. induction (N.lt_wf_0 n) as [n _ IH]; intros s Hs.
  destruct (decide (n = 0)%N) as [->|Hn]; [by rewrite pretty_N_go_0|].
  rewrite pretty_N_go_step by lia. apply IH; [apply N.div_lt; lia|]. simpl. rewrite Hs, andb_true_r.
  assert (Hmod : (n `mod` 10 < 10)%N) by (apply N.mod_lt; lia). revert Hmod. generalize (n `mod` 10)%N.
  intros m Hm. destruct m as [|p]; [done|]. do 4 (destruct p as [p|p|]; try done; try lia).
Qed.

Lemma pretty_nonempty n s : n <> 0%N \/ s <> EmptyString -> pretty_N_go n s <> EmptyString.
Proof.
  revert s. induction (N.lt_wf_0 n) as [n _ IH]; intros s H.
  destruct (decide (n = 0)%N) as [->|Hn]; [rewrite pretty_N_go_0; tauto|].
  rewrite pretty_N_go_step by lia. apply IH; [apply N.div_lt; lia|]. by right.
Qed.

Lemma pretty_Z_num (z : Z) : all_num (pretty z) = true /\ exists c s, pretty z = String c s /\ num_char c = true.
Proof.
  assert (HN : forall n : N, all_num (pretty n) = true /\ pretty n <> EmptyString).
  { intros n. unfold pretty, pretty_N. case_decide as Hn; [done|]. split; [by apply all_num_go|].
    apply pretty_nonempty. by left. }
  assert (Hz : all_num (pretty z) = true /\ pretty z <> EmptyString).
  { destruct z as [|p|p]; [done|apply (HN (N.pos p))|]. split; [|done].
    change (all_num ("-" +:+ pretty (N.pos p)) = true). apply (HN (N.pos p)). }
  destruct Hz as [H1 H2]. split; [done|]. destruct (pretty z) as [|c s]; [done|]. exists c, s.
  simpl in H1. apply andb_true_iff in H1 as [H1 _]. done.
Qed.

Lemma append_assoc a b c : (a +:+ b) +:+ c = a +:+ b +:+ c.
Proof. induction a as [|x a IH]; [done|]. rewrite !append_cons. by rewrite IH. Qed.

Lemma quote_app s k : quote s +:+ k = quote_then s k.
Proof.
  unfold quote, quote_then. rewrite append_cons. f_equal. induction s as [|c s IH]; [done|]. simpl.
  by rewrite append_assoc, IH.
Qed.

(** ** Lists of texts *)

Definition tail_text (ps : list string) (close : ascii) (k : string) : string :=
  match ps with [] => String close k | _ => String "," (join_comma ps +:+ String close k) end.

Lemma join_cons p ps close k : join_comma (p :: ps) +:+ String close k = p +:+ tail_text ps close k.
Proof. destruct ps as [|q ps]; [done|]. cbn [join_comma]. by rewrite !append_assoc. Qed.

Section items.
Context {A : Type} (txt : A -> string) (close : ascii).
Hypothesis close_num : num_char close = false.
Hypothesis close_comma : close <> ","%char.
Hypothesis close_head : forall a k, head_char (txt a +:+ k) <> Some close.

Definition readable (a : A) : Prop := forall a' k k',
  stops k -> stops k' -> txt a +:+ k = txt a' +:+ k' -> a = a' /\ k = k'.

Lemma tail_stops ps k : stops (tail_text ps close k).
Proof using close_num. by destruct ps. Qed.

Lemma items_inj l l' k k' :
  Forall readable l ->
  join_comma (txt <$> l) +:+ String close k = join_comma (txt <$> l') +:+ String close k' ->
  l = l' /\ k = k'.
Proof using All.
  intros Hl. revert l'. induction Hl as [|a l Ha Hl IH]; intros [|a' l'] H.
  - split; [done|]. by injection H.
  - exfalso. rewrite fmap_cons, join_cons in H. by apply (close_head a' (tail_text (txt <$> l') close k')), (f_equal head_char (eq_sym H)).
  - exfalso. rewrite fmap_cons, join_cons in H. by apply (close_head a (tail_text (txt <$> l) close k)), (f_equal head_char H).
  - rewrite !fmap_cons, !join_cons in H. apply Ha in H as [-> H]; [|apply tail_stops..].
    assert (Hl' : l = l' /\ k = k'); [|by destruct Hl' as [-> ->]].
    destruct l as [|b l], l' as [|b' l']; simpl in H; injection H; try congruence.
    + done.
    + intros H'. by apply (IH (b' :: l')).
Qed.
End items.

Definition first_class (c : option ascii) : nat :=
  match c with
  | Some c => if num_char c then 2
              else match N_of_ascii c with
                   | 110%N => 0 | 116%N | 102%N => 1 | 34%N => 3 | 91%N => 4 | 123%N => 5 | _ => 6
                   end
  | None => 7
  end.
Definition json_class (j : json) : nat :=
  match j with JNull => 0 | JBool _ => 1 | JNum _ => 2 | JStr _ => 3 | JArr _ => 4 | JObj _ => 5 end.

Lemma print_class j k : first_class (head_char (print_json j +:+ k)) = json_class j.
Proof.
  destruct j as [|[]|z| | |]; try reflexivity. simpl.
  destruct (pretty_Z_num z) as (_ & c & s & -> & Hc). rewrite append_cons. simpl. by rewrite Hc.
Qed.

Lemma print_json_inj j : readable print_json j.
Proof.
  induction j as [|b|z|s|l IH|fs IH] using json_nested_ind; intros j' k k' Hk Hk' H;
    pose proof (print_class j' k') as Hc; rewrite <- H, print_class in Hc;
    destruct j' as [|b'|z'|s'|l'|fs']; try discriminate Hc; clear Hc; simpl in H.
  - by injection H.
  - destruct b, b'; try (by injection H); discriminate H.
  - apply num_text_inj in H as [Hz ->]; [|apply pretty_Z_num|apply pretty_Z_num|done..].
    apply (inj pretty) in Hz as ->. done.
  - rewrite !quote_app in H. by apply quote_then_inj in H as [-> ->].
  - rewrite !append_assoc in H. injection H as H.
    apply (items_inj print_json "]"%char) in H as [-> ->]; [done|done|done| |done].
    intros a k0 E. pose proof (print_class a k0) as Hc. rewrite E in Hc. by destruct a.
  - rewrite !append_assoc in H. injection H as H.
    apply (items_inj (fun kv => field_text (fst kv, print_json (snd kv))) "}"%char) in H as [-> ->];
      [done|done|done|done|].
    eapply Forall_impl; [exact IH|]. intros [x jx] Hx [y jy] k1 k2 H1 H2 E. simpl in *.
    unfold field_text in E. simpl in E. rewrite !append_assoc, !quote_app in E.
    apply quote_then_inj in E as [-> E]. injection E as E. apply Hx in E as [-> ->]; done.
Qed.

(** * Canonical values *)

Definition canon_field (kv : string * json) : string * json := (fst kv, canonical_json (snd kv)).

Lemma canonical_obj fs : canonical_json (JObj fs) = JObj (js_sort by_key (canon_field <$> fs)).
Proof. done. Qed.

Lemma fold_right_Forall {A} (P : A -> Prop) l : fold_right (fun x Q => P x /\ Q) True l <-> Forall P l.
Proof.
  induction l as [|x l IH]; simpl; [by split; constructor|]. rewrite IH, Forall_cons. done.
Qed.

Lemma canonical_same j j' : canonical_json j = canonical_json j' -> same_value j j'.
Proof.
  revert j'. induction j as [|b|z|s|l IH|fs IH] using json_nested_ind; intros [|b'|z'|s'|l'|fs'] H; try discriminate H;
    try (by (simplify_eq/=; constructor)).
  - simpl in H. injection H as H. constructor. revert l' H. induction IH as [|x l Hx _ IHl]; intros [|x' l'] H; simpl in H; try discriminate H.
    + constructor.
    + injection H as H1 H2. constructor; [by apply Hx|by apply IHl].
  - rewrite !canonical_obj in H. injection H as H.
    assert (Hp : canon_field <$> fs' ≡ₚ canon_field <$> fs).
    { rewrite <- (js_sort_Permutation by_key), <- H. apply js_sort_Permutation. }
    apply Permutation_map_inv in Hp as (gs & Heq & Hp). apply (same_obj _ gs); [done|].
    assert (Hgs : Forall (fun kv => forall j', canonical_json (snd kv) = canonical_json j' -> same_value (snd kv) j') gs)
      by (by rewrite <- Hp).
    clear H Hp IH fs. change (canon_field <$> fs' = canon_field <$> gs) in Heq. revert fs' Heq.
    induction Hgs as [|kv gs Hkv _ IH]; intros [|kv' fs'] Heq; try discriminate Heq; [constructor|].
    rewrite !fmap_cons in Heq. unfold canon_field at 1 3 in Heq. injection Heq as H1 H2 H3.
    constructor; [|by apply IH]. split; [done|]. by apply Hkv.
Qed.

Lemma same_canonical j j' : distinct_keys j -> same_value j j' -> canonical_json j = canonical_json j'.
Proof.
  revert j'. induction j as [|b|z|s|l IH|fs IH] using json_nested_ind; intros j' Hd H; inversion H as
    [| | | |l0 l' Hall|fs0 gs fs' Hp Hall]; subst; try done.
  - simpl in *. f_equal. rewrite fold_right_Forall in Hd. clear H.
    induction Hall as [|x x' l l' Hx Hall IHl]; [done|]. simpl.
    apply Forall_cons in Hd as [Hdx Hd], IH as [IHx IH]. f_equal; [by apply IHx|by apply IHl].
  - simpl in Hd. destruct Hd as [Hnd Hd]. rewrite fold_right_Forall in Hd. rewrite !canonical_obj. f_equal.
    assert (Heq : canon_field <$> gs = canon_field <$> fs').
    { rewrite Hp in Hd, IH. clear Hp H Hnd fs. induction Hall as [|kv kv' gs fs' [H1 H2] Hall IHl]; [done|].
      apply Forall_cons in Hd as [Hdx Hd], IH as [IHx IH]. rewrite !fmap_cons, IHl by done. f_equal.
      unfold canon_field. by rewrite H1, (IHx (snd kv')). }
    rewrite <- Heq. apply sorted_keys_unique; [|by rewrite Hp].
    rewrite <- list_fmap_compose. by rewrite (list_fmap_ext _ fst).
Qed.

(** Two payloads have the same text exactly when they are the same value. *)
Lemma stableJson_same j j' : distinct_keys j -> stableJson j = stableJson j' <-> same_value j j'.
Proof.
  intros Hd. rewrite !stableJson_print. split.
  - intros H. apply canonical_same.
    assert (Ha : print_json (canonical_json j) +:+ EmptyString = print_json (canonical_json j') +:+ EmptyString)
      by (by rewrite H).
    by apply print_json_inj in Ha as [H1 _].
  - intros H. by rewrite (same_canonical j j').
Qed.

(** ** Values without repeated keys *)

Lemma distinct_arr {A} (f : A -> json) l : (forall a, a ∈ l -> distinct_keys (f a)) -> distinct_keys (JArr (f <$> l)).
Proof.
  intros H. simpl. apply fold_right_Forall, Forall_forall. intros j Hj.
  apply list_elem_of_fmap in Hj as (a & -> & Ha). by apply H.
Qed.

Lemma distinct_obj fs :
  bool_decide (NoDup (fst <$> fs)) = true -> Forall (fun kv => distinct_keys (snd kv)) fs -> distinct_keys (JObj fs).
Proof. intros H1 H2. simpl. split; [by apply bool_decide_eq_true in H1|by apply fold_right_Forall]. Qed.

Lemma distinct_jopt o : distinct_keys (jopt o).
Proof. by destruct o. Qed.


(** Objects with literal keys. *)
Ltac solve_distinct :=
  repeat first
    [ apply distinct_obj; [reflexivity|] | apply distinct_jopt | apply distinct_arr; intros
    | apply Forall_cons_2 | apply Forall_nil_2 | exact I ].
