(* ===== verification/CheckoutAddress.v ===== *)
(** Delivery addresses: [src/apps/api/src/modules/orders/checkout-address.ts] with
    [normalizeIranianMobile] of [src/apps/api/src/modules/auth/mobile.ts].

    A customer types Persian text, so an address is a list of Unicode code points (scalar
    values), and [utf8] turns it into the bytes that are hashed and stored.  Parameters:
    [nfkc] is [value.normalize('NFKC')], [upper] is [value.toUpperCase()], [hash] SHA-256. *)

From S2P Require Import Prelude Json.

(** * Texts *)

Definition utext : Type := list N.
Definition of_ascii (s : string) : utext := Ascii.N_of_ascii <$> String.list_ascii_of_string s.

(** The digits 0 to 9 of [PERSIAN_DIGITS] and [ARABIC_INDIC_DIGITS]. *)
Definition ascii_digit (c : N) : N :=
  if ((1776 <=? c) && (c <=? 1785))%N then (c - 1776 + 48)%N
  else if ((1632 <=? c) && (c <=? 1641))%N then (c - 1632 + 48)%N else c.
Definition asciiDigits (value : utext) : utext := ascii_digit <$> value.

(** White space of ECMAScript: what [trim] removes and [\s] matches. *)
Definition white_space (c : N) : bool :=
  ((9 <=? c) && (c <=? 13) || (c =? 32) || (c =? 160) || (c =? 5760) || (8192 <=? c) && (c <=? 8202) ||
   (c =? 8232) || (c =? 8233) || (c =? 8239) || (c =? 8287) || (c =? 12288) || (c =? 65279))%N.

Fixpoint trim_left (s : utext) : utext :=
  match s with c :: s' => if white_space c then trim_left s' else s | [] => [] end.
Definition utrim (s : utext) : utext := rev (trim_left (rev (trim_left s))).

(** [.replace(/[\t ]+/gu, ' ')]; [inside] tells that the run began. *)
Definition blank (c : N) : bool := ((c =? 9) || (c =? 32))%N.
Fixpoint squeeze (inside : bool) (s : utext) : utext :=
  match s with
  | [] => []
  | c :: s => if blank c then (if inside then squeeze true s else 32%N :: squeeze true s) else c :: squeeze false s
  end.

(** [value.length] counts UTF-16 code units. *)
Definition code_units (c : N) : Z := if (65535 <? c)%N then 2 else 1.
Definition ulength (s : utext) : Z := sumZ code_units s.

Definition isControlCharacter (c : N) : bool := ((c <? 32) || (c =? 127))%N.

Definition ascii_range (a b : N) (c : N) : bool := ((a <=? c) && (c <=? b))%N.
Definition digit (c : N) : bool := ascii_range 48 57 c.
(** [/^[A-Z0-9_-]+$/u] *)
Definition province_char (c : N) : bool := ascii_range 65 90 c || digit c || (c =? 95)%N || (c =? 45)%N.
(** [/[\s-]/gu] *)
Definition separator (c : N) : bool := white_space c || (c =? 45)%N.

(** * UTF-8 *)

Definition byte_string (bytes : list N) : string := String.string_of_list_ascii (Ascii.ascii_of_N <$> bytes).
Definition utf8_bytes (c : N) : list N :=
  if (c <? 128)%N then [c]
  else if (c <? 2048)%N then [192 + c / 64; 128 + c mod 64]%N
  else if (c <? 65536)%N then [224 + c / 4096; 128 + (c / 64) mod 64; 128 + c mod 64]%N
  else [240 + c / 262144; 128 + (c / 4096) mod 64; 128 + (c / 64) mod 64; 128 + c mod 64]%N.
Definition utf8 (s : utext) : string := byte_string (s ≫= utf8_bytes).
(** A Unicode scalar value. *)
Definition scalar (c : N) : Prop := (c < 1114112)%N.

(** * Addresses *)

Record CheckoutAddress := mkAddress {
  ad_provinceCode : utext;
  ad_city : utext;
  ad_address : utext;
  ad_postalCode : utext;
  ad_recipient : utext;
  ad_mobile : utext
}.
#[export] Instance CheckoutAddress_eq_dec : EqDecision CheckoutAddress.
Proof. solve_decision. Defined.

(** [compact.startsWith(p)] and the rest. *)
Fixpoint after_prefix (p s : utext) : option utext :=
  match p, s with
  | [], _ => Some s
  | c :: p, d :: s => if (c =? d)%N then after_prefix p s else None
  | _ :: _, [] => None
  end.
(** [9\d{9}] *)
Definition subscriber (s : utext) : bool := bool_decide (head s = Some 57%N) && bool_decide (length s = 10) && forallb digit s.
Definition mobile_form (compact : utext) (p : string) : bool := from_option subscriber false (after_prefix (of_ascii p) compact).
(** [normalizeIranianMobile(raw)] *)
Definition normalizeIranianMobile (raw : utext) : option utext :=
  let compact := List.filter (fun c => negb (separator c)) raw in
  if existsb (mobile_form compact) ["+98"; "98"; "0"]
  then Some (of_ascii "+98" ++ drop (length compact - 10) compact) else None.

Definition invalid_address : exn := HttpException UnprocessableEntityException (Some "INVALID_REQUEST") "Delivery address is invalid.".

Section addresses.
Context (nfkc upper : utext -> utext) (hash : string -> string).

(** [normalizedText(value, maxLength)] *)
Definition normalizedText (value : utext) (maxLength : Z) : option utext :=
  let normalized := squeeze false (utrim (nfkc value)) in
  if bool_decide (normalized = []) || (maxLength <? ulength normalized)%Z || existsb isControlCharacter normalized
  then None else Some normalized.

(** [normalizeCheckoutAddress(input)] *)
Definition normalizeCheckoutAddress (input : CheckoutAddress) : result CheckoutAddress :=
  let provinceCode := upper <$> normalizedText (asciiDigits (ad_provinceCode input)) 32 in
  let city := normalizedText (ad_city input) 100 in
  let address := normalizedText (ad_address input) 500 in
  let recipient := normalizedText (ad_recipient input) 120 in
  let postalCode := List.filter (fun c => negb (separator c)) (asciiDigits (ad_postalCode input)) in
  let mobile := normalizeIranianMobile (asciiDigits (ad_mobile input)) in
  match provinceCode, city, address, recipient, mobile with
  | Some provinceCode, Some city, Some address, Some recipient, Some mobile =>
      if bool_decide (provinceCode = []) || negb (forallb province_char provinceCode) ||
         negb (bool_decide (length postalCode = 10) && forallb digit postalCode) || forallb (fun c => (c =? 48)%N) postalCode
      then Err invalid_address else Ok (mkAddress provinceCode city address postalCode recipient mobile)
  | _, _, _, _, _ => Err invalid_address
  end.

(** [checkoutAddressHash(address)]: the digest of the text that lists its parts. *)
Definition address_text (a : CheckoutAddress) : string :=
  stringify_strings [utf8 (ad_provinceCode a); utf8 (ad_city a); utf8 (ad_address a); utf8 (ad_postalCode a);
    utf8 (ad_recipient a); utf8 (ad_mobile a)].
Definition checkoutAddressHash (a : CheckoutAddress) : string := hash (address_text a).

(** The address as JSON. *)
Definition address_json (a : CheckoutAddress) : json :=
  JObj [("provinceCode", JStr (utf8 (ad_provinceCode a))); ("city", JStr (utf8 (ad_city a))); ("address", JStr (utf8 (ad_address a)));
        ("postalCode", JStr (utf8 (ad_postalCode a))); ("recipient", JStr (utf8 (ad_recipient a))); ("mobile", JStr (utf8 (ad_mobile a)))].
End addresses.

(** * Texts in their normal form *)

(** No white space at the ends, no run of blanks, no control characters, [1..max] units. *)
Definition tidy (max : Z) (s : utext) : Prop :=
  s <> [] /\ (ulength s <= max)%Z /\ utrim s = s /\ squeeze false s = s /\ forall c, c ∈ s -> isControlCharacter c = false.
Definition mobile_canonical (s : utext) : Prop := exists rest, s = of_ascii "+98" ++ rest /\ subscriber rest = true.

(** The format of an address that passed. *)
Definition address_canonical (a : CheckoutAddress) : Prop :=
  (ad_provinceCode a <> [] /\ forall c, c ∈ ad_provinceCode a -> province_char c = true) /\
  tidy 100 (ad_city a) /\ tidy 500 (ad_address a) /\ tidy 120 (ad_recipient a) /\
  (length (ad_postalCode a) = 10 /\ (forall c, c ∈ ad_postalCode a -> digit c = true) /\ exists c, c ∈ ad_postalCode a /\ c <> 48%N) /\
  mobile_canonical (ad_mobile a).

(** ** Trimming and squeezing *)

Definition clean_head (s : utext) : Prop := forall c, head s = Some c -> white_space c = false.

Lemma trim_left_clean s : clean_head (trim_left s).
Proof. induction s as [|c s IH]; [done|]. simpl. destruct (white_space c) eqn:E; [done|]. by intros c' [= <-]. Qed.
Lemma trim_left_fixed s : clean_head s -> trim_left s = s.
Proof. destruct s as [|c s]; [done|]. intros H. simpl. by rewrite (H c eq_refl). Qed.
Lemma trim_left_suffix s : exists p, s = p ++ trim_left s.
Proof.
  induction s as [|c s [p IH]]; [by exists []|]. simpl. destruct (white_space c); [|by exists []].
  exists (c :: p). simpl. by rewrite <- IH.
Qed.

Lemma utrim_fixed s : clean_head s -> clean_head (rev s) -> utrim s = s.
Proof. intros H1 H2. unfold utrim. by rewrite (trim_left_fixed s), (trim_left_fixed (rev s)), rev_involutive. Qed.
Lemma utrim_clean s : clean_head (utrim s) /\ clean_head (rev (utrim s)).
Proof.
  unfold utrim. rewrite rev_involutive. split; [|apply trim_left_clean].
  destruct (trim_left_suffix (rev (trim_left s))) as [p E]. apply (f_equal (@rev N)) in E. rewrite rev_involutive, rev_app_distr in E.
  intros c Hc. apply (trim_left_clean s). rewrite E. by destruct (rev (trim_left (rev (trim_left s)))).
Qed.

Lemma blank_white c : blank c = true -> white_space c = true.
Proof. unfold blank. intros [E|E]%orb_prop; apply N.eqb_eq in E as ->; reflexivity. Qed.

Lemma squeeze_snoc b s c : blank c = false -> squeeze b (s ++ [c]) = squeeze b s ++ [c].
Proof.
  intros Hc. revert b. induction s as [|d s IH]; intros b; simpl; [by rewrite Hc|].
  destruct (blank d), b; simpl; by rewrite IH.
Qed.
Lemma squeeze_clean s : clean_head s -> clean_head (rev s) -> clean_head (squeeze false s) /\ clean_head (rev (squeeze false s)).
Proof.
  intros H1 H2. split.
  - destruct s as [|c s]; [done|]. specialize (H1 c eq_refl). simpl. destruct (blank c) eqn:E; [apply blank_white in E; congruence|].
    by intros c' [= <-].
  - destruct s as [|c s] using rev_ind; [done|]. clear IHs. rewrite rev_app_distr in H2. specialize (H2 c eq_refl).
    destruct (blank c) eqn:E; [apply blank_white in E; congruence|]. rewrite squeeze_snoc, rev_app_distr by done. by intros c' [= <-].
Qed.
Lemma squeeze_idem s : (forall b, squeeze false (squeeze b s) = squeeze b s) /\ squeeze true (squeeze true s) = squeeze true s.
Proof.
  induction s as [|c s [IH1 IH2]]; [done|]. split; [intros b|]; simpl; destruct (blank c) eqn:E; try destruct b; simpl; rewrite ?E; try done.
  all: by rewrite ?IH1, ?IH2.
Qed.

Lemma normalized_tidy nfkc value max s : normalizedText nfkc value max = Some s -> tidy max s /\ s = squeeze false (utrim (nfkc value)).
Proof.
  unfold normalizedText. set (t := squeeze false (utrim (nfkc value))). destruct (_ || _ || _) eqn:E; [done|]. intros [= <-].
  apply orb_false_iff in E as [[E1%bool_decide_eq_false E2%Z.ltb_ge]%orb_false_iff E3]. split; [|done].
  destruct (utrim_clean (nfkc value)) as [C1 C2]. destruct (squeeze_clean _ C1 C2) as [D1 D2].
  split_and!; [done|done|by apply utrim_fixed|apply squeeze_idem|].
  intros c Hc. destruct (isControlCharacter c) eqn:Ec; [|done].
  assert (existsb isControlCharacter t = true); [|congruence]. apply existsb_exists. exists c. by rewrite <- list_elem_of_In.
Qed.
(** A tidy text that normalisation keeps passes again. *)
Lemma tidy_normalized nfkc max s : tidy max s -> nfkc s = s -> normalizedText nfkc s max = Some s.
Proof.
  intros (H1 & H2 & H3 & H4 & H5) E. unfold normalizedText. rewrite E, H3, H4, bool_decide_false by done.
  apply Z.ltb_ge in H2. rewrite H2. simpl. destruct (existsb _ _) eqn:Ex; [|done].
  apply existsb_exists in Ex as (c & Hc & Ec). rewrite <- list_elem_of_In in Hc. by rewrite (H5 c Hc) in Ec.
Qed.

(** ** ASCII texts *)

Definition ascii (s : utext) : Prop := forall c, c ∈ s -> (c < 128)%N.
Definition plain_text (s : utext) : Prop := forall c, c ∈ s -> separator c = false /\ blank c = false /\ (c < 128)%N.

Lemma ascii_digits_plain s : ascii s -> asciiDigits s = s.
Proof.
  intros H. unfold asciiDigits. rewrite <- (list_fmap_id s) at 2. apply list_fmap_ext. intros i c Hc%list_elem_of_lookup_2.
  apply H in Hc. unfold ascii_digit. simpl. destruct ((_ <=? _)%N && _) eqn:E1; [apply andb_prop in E1 as [E1%N.leb_le _]; lia|].
  destruct ((1632 <=? c)%N && _) eqn:E2; [apply andb_prop in E2 as [E2%N.leb_le _]; lia|done].
Qed.
Lemma digit_plain c : digit c = true -> separator c = false /\ blank c = false /\ (c < 128)%N.
Proof.
  unfold digit, ascii_range. intros [H1%N.leb_le H2%N.leb_le]%andb_prop. split_and!; [| |lia].
  - unfold separator, white_space. repeat (apply orb_false_iff; split); try apply N.eqb_neq; try apply andb_false_iff; rewrite ?N.leb_gt; lia.
  - unfold blank. apply orb_false_iff. rewrite !N.eqb_neq. lia.
Qed.
Lemma province_plain c : province_char c = true -> white_space c = false /\ blank c = false /\ isControlCharacter c = false /\ (c < 128)%N.
Proof.
  intros H. assert (Hr : (45 <= c <= 95)%N).
  { unfold province_char, digit, ascii_range in H. rewrite !orb_true_iff, !andb_true_iff, !N.leb_le, !N.eqb_eq in H. lia. }
  split_and!; [| | |lia].
  - unfold white_space. repeat (apply orb_false_iff; split); try apply N.eqb_neq; try apply andb_false_iff; rewrite ?N.leb_gt; lia.
  - unfold blank. apply orb_false_iff. rewrite !N.eqb_neq. lia.
  - unfold isControlCharacter. apply orb_false_iff. rewrite N.ltb_ge, N.eqb_neq. lia.
Qed.

Lemma province_tidy s : s <> [] -> (forall c, c ∈ s -> province_char c = true) ->
  ascii s /\ utrim s = s /\ squeeze false s = s /\ forall c, c ∈ s -> isControlCharacter c = false.
Proof.
  intros Hne H. split; [intros c Hc; by apply province_plain, H|]. split; [|split; [|intros c Hc; by apply province_plain, H]].
  - apply utrim_fixed; intros c Hc%head_Some_elem_of; [|apply list_elem_of_In, in_rev, list_elem_of_In in Hc]; by apply province_plain, H.
  - clear Hne. induction s as [|c s IH]; [done|]. simpl. destruct (province_plain c) as (_ & -> & _); [apply H; constructor|].
    rewrite IH; [done|]. intros d Hd. apply H. by constructor.
Qed.

Lemma no_separators s : (forall c, c ∈ s -> separator c = false) -> List.filter (fun c => negb (separator c)) s = s.
Proof.
  induction s as [|c s IH]; intros H; [done|]. simpl. rewrite (H c) by constructor. simpl. f_equal. apply IH. intros d Hd. apply H. by constructor.
Qed.

Lemma subscriber_digits s : subscriber s = true -> length s = 10 /\ forall c, c ∈ s -> digit c = true.
Proof.
  unfold subscriber. intros [[_ H1%bool_decide_eq_true]%andb_prop H2]%andb_prop. split; [done|].
  intros c Hc. rewrite forallb_forall in H2. apply H2. by rewrite <- list_elem_of_In.
Qed.
Lemma after_prefix_app p s rest : after_prefix p s = Some rest -> s = p ++ rest.
Proof.
  revert s. induction p as [|c p IH]; intros [|d s] H; simpl in *; try done; try by injection H as <-.
  destruct (c =? d)%N eqn:E; [|done]. apply N.eqb_eq in E as <-. by rewrite (IH s H).
Qed.

Lemma mobile_canonical_ok raw m : normalizeIranianMobile raw = Some m -> mobile_canonical m.
Proof.
  unfold normalizeIranianMobile. set (compact := List.filter _ raw). destruct (existsb _ _) eqn:E; [|done]. intros [= <-].
  apply existsb_exists in E as (p & _ & Hp). unfold mobile_form in Hp.
  destruct (after_prefix (of_ascii p) compact) as [rest|] eqn:Ea; [|done]. simpl in Hp. apply after_prefix_app in Ea. rewrite Ea.
  exists rest. split; [|done]. destruct (subscriber_digits _ Hp) as [Hl _].
  rewrite length_app, Hl. replace (length (of_ascii p) + 10 - 10) with (length (of_ascii p)) by lia. by rewrite drop_app_length.
Qed.
Lemma mobile_fixed m : mobile_canonical m -> normalizeIranianMobile (asciiDigits m) = Some m.
Proof.
  intros (rest & -> & Hs). destruct (subscriber_digits _ Hs) as [Hl Hd].
  assert (Hc : forall c, c ∈ of_ascii "+98" ++ rest -> separator c = false /\ (c < 128)%N).
  { intros c [H|H]%elem_of_app; [|by destruct (digit_plain c (Hd c H)) as (? & _ & ?)].
    unfold of_ascii in H. simpl in H. repeat (apply elem_of_cons in H as [-> | H]; [by split|]). by apply elem_of_nil in H. }
  rewrite ascii_digits_plain by (intros c H; by apply Hc). unfold normalizeIranianMobile. rewrite no_separators by (intros c H; by apply Hc).
  assert (E : existsb (mobile_form (of_ascii "+98" ++ rest)) ["+98"; "98"; "0"] = true).
  { simpl. unfold mobile_form at 1. simpl. by rewrite Hs. }
  rewrite E, length_app, Hl. done.
Qed.

(** ** Addresses *)

Lemma elem_of_filter_list {A} (P : A -> bool) s x : x ∈ List.filter P s <-> x ∈ s /\ P x = true.
Proof. by rewrite !list_elem_of_In, filter_In. Qed.

Lemma forallb_false {A} (P : A -> bool) s : forallb P s = false -> exists x, x ∈ s /\ P x = false.
Proof.
  induction s as [|x s IH]; [done|]. simpl. destruct (P x) eqn:E; [|exists x; split; [constructor|done]].
  intros (y & Hy & Ey)%IH. exists y. split; [by constructor|done].
Qed.

Section canonical.
Context (nfkc upper : utext -> utext) (hash : string -> string).

Lemma normalize_ok a a' : normalizeCheckoutAddress nfkc upper a = Ok a' ->
  address_canonical a' /\ ad_city a' = squeeze false (utrim (nfkc (ad_city a))) /\ ad_address a' = squeeze false (utrim (nfkc (ad_address a))) /\
  ad_recipient a' = squeeze false (utrim (nfkc (ad_recipient a))) /\
  exists p, normalizedText nfkc (asciiDigits (ad_provinceCode a)) 32 = Some p /\ ad_provinceCode a' = upper p.
Proof.
  unfold normalizeCheckoutAddress. destruct (normalizedText nfkc (asciiDigits _) 32) as [p|]; [|done].
  destruct (normalizedText _ _ 100) as [city|] eqn:Ec; [|done]. destruct (normalizedText _ _ 500) as [address|] eqn:Ea; [|done].
  destruct (normalizedText _ _ 120) as [recipient|] eqn:Er; [|done]. destruct (normalizeIranianMobile _) as [mobile|] eqn:Em; [|done]. simpl.
  destruct (_ || _ || _ || _)%bool eqn:G; [done|]. intros [= <-]. simpl.
  apply orb_false_iff in G as [[[G1%bool_decide_eq_false G2%negb_false_iff]%orb_false_iff G3%negb_false_iff]%orb_false_iff G4].
  apply andb_prop in G3 as [G3%bool_decide_eq_true G5]. rewrite forallb_forall in G2, G5. setoid_rewrite <- list_elem_of_In in G2. setoid_rewrite <- list_elem_of_In in G5.
  apply normalized_tidy in Ec as [Tc Ec], Ea as [Ta Ea], Er as [Tr Er]. apply mobile_canonical_ok in Em.
  apply forallb_false in G4 as (z & Hz & Ez%N.eqb_neq).
  split; [split_and!; try done; by exists z|]. split; [done|]. split; [done|]. split; [done|]. by exists p.
Qed.

(** What Unicode normalisation and the upper case do to texts of this form. *)
Context (nfkc_ascii : forall s, ascii s -> nfkc s = s) (upper_plain : forall s, (forall c, c ∈ s -> province_char c = true) -> upper s = s).
Context (nfkc_stable : forall s, let t := squeeze false (utrim (nfkc s)) in nfkc t = t).

Lemma normalize_again a a' : normalizeCheckoutAddress nfkc upper a = Ok a' ->
  normalizeCheckoutAddress nfkc upper a' = if (ulength (ad_provinceCode a') <=? 32)%Z then Ok a' else Err invalid_address.
Proof using nfkc_ascii upper_plain nfkc_stable.
  intros H. apply normalize_ok in H as ((P & Tc & Ta & Tr & Q & Hm) & Ec & Ea & Er & _).
  unfold normalizeCheckoutAddress. destruct a' as [prov city address postal recipient mobile]. simpl in *. destruct P as [P1 P2], Q as (Q1 & Q2 & Q3).
  destruct (province_tidy prov P1 P2) as (Hprov & T1 & T2 & T3). rewrite (ascii_digits_plain prov) by done.
  destruct (Z.leb_spec (ulength prov) 32) as [Hlen|Hlen].
  2:{ unfold normalizedText at 1. rewrite nfkc_ascii, T1, T2 by done. rewrite (proj2 (Z.ltb_lt _ _) Hlen), orb_true_r. done. }
  rewrite (tidy_normalized nfkc 32 prov) by (done || by apply nfkc_ascii).
  rewrite (tidy_normalized nfkc 100 city), (tidy_normalized nfkc 500 address), (tidy_normalized nfkc 120 recipient) by (done || congruence).
  assert (Hpost : forall c, c ∈ postal -> separator c = false /\ (c < 128)%N) by (intros c Hc; by destruct (digit_plain c (Q2 c Hc)) as (? & _ & ?)).
  rewrite (ascii_digits_plain postal) by (intros c Hc; by apply Hpost). rewrite (no_separators postal) by (intros c Hc; by apply Hpost).
  rewrite mobile_fixed by done. simpl. rewrite upper_plain by done. rewrite bool_decide_false by done.
  assert (E1 : forallb province_char prov = true) by (apply forallb_forall; intros c Hc; by apply P2, list_elem_of_In).
  assert (E2 : forallb digit postal = true) by (apply forallb_forall; intros c Hc; by apply Q2, list_elem_of_In).
  assert (E3 : forallb (fun c => (c =? 48)%N) postal = false).
  { apply not_true_iff_false. rewrite forallb_forall. intros Hz. destruct Q3 as (c & Hc & Hne). apply Hne, N.eqb_eq, Hz. by apply list_elem_of_In. }
  by rewrite E1, E2, E3, Q1.
Qed.
End canonical.

(** ** The digest of an address *)

#[export] Instance scalar_dec c : Decision (scalar c).
Proof. unfold scalar. apply _. Defined.

(** The base-64 digits of a code point. *)
Lemma base64 c : (c = 64 * (c / 64) + c mod 64 /\ c / 64 = 64 * (c / 4096) + (c / 64) mod 64 /\
  c / 4096 = 64 * (c / 262144) + (c / 4096) mod 64 /\ c mod 64 < 64 /\ (c / 64) mod 64 < 64 /\ (c / 4096) mod 64 < 64)%N.
Proof.
  replace (c / 262144)%N with (c / 4096 / 64)%N by (by rewrite N.Div0.div_div).
  replace (c / 4096)%N with (c / 64 / 64)%N by (by rewrite N.Div0.div_div).
  split_and!; try (by apply N.mod_lt); by apply N.div_mod.
Qed.

Lemma utf8_bytes_small c b : scalar c -> b ∈ utf8_bytes c -> (b < 256)%N.
Proof.
  unfold scalar, utf8_bytes. intros Hc. pose proof (base64 c) as B. revert B.
  generalize (c / 64)%N (c mod 64)%N (c / 4096)%N ((c / 64) mod 64)%N (c / 262144)%N ((c / 4096) mod 64)%N. intros * B H.
  repeat (destruct (_ <? _)%N eqn:?; rewrite ?N.ltb_lt, ?N.ltb_ge in *);
    repeat (apply elem_of_cons in H as [-> | H]; [lia|]); by apply elem_of_nil in H.
Qed.

(** The first byte tells the length, and the digits the code point. *)
Lemma utf8_head_inj c d s t : scalar c -> scalar d -> utf8_bytes c ++ s = utf8_bytes d ++ t -> c = d /\ s = t.
Proof.
  unfold scalar, utf8_bytes. intros Hc Hd H. pose proof (base64 c) as Bc. pose proof (base64 d) as Bd. revert Bc Bd H.
  generalize (c / 64)%N (c mod 64)%N (c / 4096)%N ((c / 64) mod 64)%N (c / 262144)%N ((c / 4096) mod 64)%N.
  generalize (d / 64)%N (d mod 64)%N (d / 4096)%N ((d / 64) mod 64)%N (d / 262144)%N ((d / 4096) mod 64)%N. intros.
  destruct (c <? 128)%N eqn:?, (d <? 128)%N eqn:?; rewrite ?N.ltb_lt, ?N.ltb_ge in *;
  try destruct (c <? 2048)%N eqn:?; try destruct (d <? 2048)%N eqn:?; rewrite ?N.ltb_lt, ?N.ltb_ge in *;
  try destruct (c <? 65536)%N eqn:?; try destruct (d <? 65536)%N eqn:?; rewrite ?N.ltb_lt, ?N.ltb_ge in *;
  injection H; intros; try (exfalso; lia); split; (done || lia).
Qed.

Lemma utf8_inj s t : Forall scalar s -> Forall scalar t -> utf8 s = utf8 t -> s = t.
Proof.
  intros Hs Ht H. unfold utf8, byte_string in H. apply (f_equal String.list_ascii_of_string) in H.
  rewrite !String.list_ascii_of_string_of_list_ascii in H. apply (f_equal (fmap Ascii.N_of_ascii)) in H.
  assert (E : forall u, Forall scalar u -> Ascii.N_of_ascii <$> (Ascii.ascii_of_N <$> (u ≫= utf8_bytes)) = u ≫= utf8_bytes).
  { intros u Hu. rewrite <- list_fmap_compose. rewrite <- (list_fmap_id (u ≫= utf8_bytes)) at 2. apply list_fmap_ext.
    intros i b Hb%list_elem_of_lookup_2. apply Ascii.N_ascii_embedding. apply list_elem_of_bind in Hb as (c & Hb & Hc).
    rewrite Forall_forall in Hu. apply (utf8_bytes_small c); [by apply Hu|done]. }
  rewrite !E in H by done. clear E. revert t Ht H. induction Hs as [|c s Hc Hs IH]; intros t Ht H.
  - destruct Ht as [|d t Hd Ht]; [done|]. exfalso. simpl in H. unfold utf8_bytes in H. by repeat destruct (_ <? _)%N.
  - destruct Ht as [|d t Hd Ht].
    + exfalso. simpl in H. unfold utf8_bytes in H. by repeat destruct (_ <? _)%N.
    + simpl in H. apply utf8_head_inj in H as [-> H]; [|done..]. f_equal. by apply IH.
Qed.

(** Every code point of the address is a scalar value. *)
Definition address_scalar (a : CheckoutAddress) : Prop :=
  Forall scalar (ad_provinceCode a ++ ad_city a ++ ad_address a ++ ad_postalCode a ++ ad_recipient a ++ ad_mobile a).

#[export] Instance address_scalar_dec a : Decision (address_scalar a).
Proof. unfold address_scalar. apply _. Defined.

Lemma address_text_inj a b : address_scalar a -> address_scalar b -> address_text a = address_text b -> a = b.
Proof.
  intros Ha Hb H. unfold address_scalar in Ha, Hb. rewrite !Forall_app in Ha, Hb.
  destruct Ha as (A1 & A2 & A3 & A4 & A5 & A6), Hb as (B1 & B2 & B3 & B4 & B5 & B6).
  apply stringify_strings_inj in H; [|done]. injection H as E1 E2 E3 E4 E5 E6. destruct a, b; simpl in *.
  by f_equal; apply utf8_inj.
Qed.

(** * Properties *)

(** [C22] A delivery address is brought to one form.  An address that passes has a province
    code of capital letters, digits, [_] and [-], ten postal digits that are not all zero, a
    mobile number [+989] with nine digits, and a city, street and recipient that are not
    empty, within their length, trimmed, without control characters and with single spaces.
    Given what Unicode promises of normalisation, it passes again unchanged, except that it
    is refused when upper case made its province code longer than 32.  The digest that a
    shipping quote keeps tells addresses apart as far as the hash function does: two
    different addresses with one digest are two different texts with one hash. *)
Theorem checkout_address_canonical nfkc upper hash a a' :
  (forall s, ascii s -> nfkc s = s) -> (forall s, (forall c, c ∈ s -> province_char c = true) -> upper s = s) ->
  (forall s, let t := squeeze false (utrim (nfkc s)) in nfkc t = t) ->
  normalizeCheckoutAddress nfkc upper a = Ok a' ->
  address_canonical a' /\
  normalizeCheckoutAddress nfkc upper a' = (if (ulength (ad_provinceCode a') <=? 32)%Z then Ok a' else Err invalid_address) /\
  (forall b, address_scalar a' -> address_scalar b -> a' <> b -> checkoutAddressHash hash a' = checkoutAddressHash hash b ->
     address_text a' <> address_text b /\ hash (address_text a') = hash (address_text b)).
Proof.
  intros H1 H2 H3 H. split; [by eapply normalize_ok|]. split; [by eapply normalize_again|].
  intros b Ha Hb Hne E. split; [|done]. intros Et. by apply Hne, address_text_inj.
Qed.

(** * Witnesses *)

(** Persian digits and spaces are brought to the form of the postal service. *)
Definition demo_typed : CheckoutAddress :=
  mkAddress (of_ascii "THR") (of_ascii "  Tehran ") (of_ascii "Azadi  St. 5") ([1777; 1778; 1779; 1780; 1781]%N ++ of_ascii "-67890")
    [1593; 1604; 1740]%N ([1776; 1785]%N ++ of_ascii "12 345 6789").
Definition demo_address : CheckoutAddress :=
  mkAddress (of_ascii "THR") (of_ascii "Tehran") (of_ascii "Azadi St. 5") (of_ascii "1234567890") [1593; 1604; 1740]%N (of_ascii "+989123456789").
Lemma demo_normalized : normalizeCheckoutAddress (fun s => s) (fun s => s) demo_typed = Ok demo_address.
Proof. vm_compute. reflexivity. Qed.

(** A province code of twenty sharp s, whose upper case has forty letters. *)
Definition sharp_upper (s : utext) : utext := s ≫= fun c => if (c =? 223)%N then [83; 83]%N else [c].
Definition demo_sharp : CheckoutAddress :=
  mkAddress (replicate 20 223%N) (ad_city demo_typed) (ad_address demo_typed) (ad_postalCode demo_typed) (ad_recipient demo_typed) (ad_mobile demo_typed).
Example sharp_address_refused :
  match normalizeCheckoutAddress (fun s => s) sharp_upper demo_sharp with
  | Ok a => length (ad_provinceCode a) = 40 /\ normalizeCheckoutAddress (fun s => s) sharp_upper a = Err invalid_address
  | Err _ => False
  end.
Proof. vm_compute. split; reflexivity. Qed.

Lemma checkout_address_canonical_witness :
  normalizeCheckoutAddress (fun s => s) (fun s => s) demo_typed = Ok demo_address /\ address_canonical demo_address /\
  normalizeCheckoutAddress (fun s => s) (fun s => s) demo_address = Ok demo_address /\
  (checkoutAddressHash (fun _ => "digest") demo_typed = checkoutAddressHash (fun _ => "digest") demo_address ->
   address_text demo_address <> address_text demo_typed).
Proof.
  split; [exact demo_normalized|].
  destruct (checkout_address_canonical (fun s => s) (fun s => s) (fun _ => "digest") demo_typed demo_address (fun _ _ => eq_refl) (fun _ _ => eq_refl))
    as (H1 & H2 & H3).
  - intros s t. reflexivity.
  - exact demo_normalized.
  - split; [exact H1|]. split; [exact H2|]. intros E.
    assert (Hs : forall x, bool_decide (address_scalar x) = true -> address_scalar x) by (intros x Hx; apply bool_decide_eq_true in Hx; exact Hx).
    apply (H3 demo_typed (Hs demo_address ltac:(vm_compute; reflexivity)) (Hs demo_typed ltac:(vm_compute; reflexivity))); [discriminate|].
    symmetry. exact E.
Defined.
