(* ===== verification/AuditTrail.v ===== *)
(** The audit trail of [src/apps/api/src/modules/audit/audit-log.service.ts]:
    [record] and [recordMany] inside a domain transaction, over any state that
    holds the audit table. *)

From S2P Require Import Prelude Json.

(** [AuditEventInput]; absent optional fields are [None]. *)
Record AuditEventInput := mkAuditEventInput {
  ae_action : string;
  ae_entityType : string;
  ae_entityId : option string;
  ae_before : option json;
  ae_after : option json;
  ae_metadata : option json;
  ae_actorId : option string;
  ae_requestId : option string;
  ae_ipHash : option string;
  ae_userAgent : option string
}.

(** The events of domain transactions name neither an address nor a browser. *)
Definition mkAuditEvent (action entityType : string) (entityId : option string)
    (before after metadata : option json) (actorId requestId : option string) : AuditEventInput :=
  mkAuditEventInput action entityType entityId before after metadata actorId requestId None None.

(** The columns of an [AuditLog] row that the services write. *)
Record AuditRow := mkAuditRow {
  al_actorId : option string;
  al_action : string;
  al_entityType : string;
  al_entityId : option string;
  al_before : json;
  al_after : json;
  al_metadata : json;
  al_requestId : option string;
  al_ipHash : option string;
  al_userAgent : option string
}.

Definition recordData (input : AuditEventInput) : AuditRow :=
  mkAuditRow (ae_actorId input) (ae_action input) (ae_entityType input) (ae_entityId input)
    (default JNull (ae_before input)) (default JNull (ae_after input))
    (default JNull (ae_metadata input)) (ae_requestId input)
    (ae_ipHash input) (ae_userAgent input).

(** The audit table is append-only: rows in the order they were written. *)
Definition AuditTable : Type := list AuditRow.

Definition record {S} `{Lens S AuditTable} (input : AuditEventInput) : M S unit :=
  zoom (modify (fun rows : AuditTable => rows ++ [recordData input])).

Definition recordMany {S} `{Lens S AuditTable} (inputs : list AuditEventInput) : M S unit :=
  match inputs with
  | [] => mret tt
  | _ => zoom (modify (fun rows : AuditTable => rows ++ (recordData <$> inputs)))
  end.

Section laws.
Context {S : Type} `{LensLaws S AuditTable}.

Lemma record_ok input (s : S) r :
  record input s = Ok r <-> r = (tt, put (view s ++ [recordData input]) s).
Proof. unfold record, zoom, modify. split; [by intros [= <-]|by intros ->]. Qed.

Lemma recordMany_ok inputs (s : S) r :
  recordMany inputs s = Ok r <-> r = (tt, put (view s ++ (recordData <$> inputs)) s).
Proof.
  unfold recordMany, zoom, modify. destruct inputs as [|i is_].
  - simpl. rewrite app_nil_r, put_view. apply ret_ok.
  - split; [by intros [= <-]|by intros ->].
Qed.
End laws.
