(* ===== verification/InventoryModel.v ===== *)
(** The inventory tables of the API and the database operations on them that
    [src/apps/api/src/modules/inventory/inventory.service.ts] uses: balances,
    immutable movements, reservations, transfers, warehouses and locations, the
    audit table, the advisory locks of the running transaction and the database's
    identifier supply and clock.  The second half states the stock invariant and
    how each kind of write moves it. *)

From S2P Require Import Prelude Table Json AuditTrail.

(** * Rows *)

Record StockKey := mkKey {
  warehouseId : string;
  locationId : string;
  variantId : string
}.
#[export] Instance StockKey_eq_dec : EqDecision StockKey.
Proof. solve_decision. Defined.

Inductive InventoryMovementType :=
  | RECEIPT | SALE | RETURN_IN | RETURN_OUT | TRANSFER_IN | TRANSFER_OUT
  | ADJUSTMENT_IN | ADJUSTMENT_OUT | STOCKTAKE | RESERVATION | RELEASE.
Inductive ReservationStatus := ACTIVE | CONSUMED | RELEASED | EXPIRED.
Inductive TransferStatus :=
  | T_DRAFT | T_REQUESTED | T_APPROVED | T_IN_TRANSIT | T_RECEIVED | T_CANCELLED.
Inductive TransferAction := request | approve | dispatch | receive | cancel.
#[export] Instance InventoryMovementType_eq_dec : EqDecision InventoryMovementType.
Proof. solve_decision. Defined.
#[export] Instance ReservationStatus_eq_dec : EqDecision ReservationStatus.
Proof. solve_decision. Defined.
#[export] Instance TransferStatus_eq_dec : EqDecision TransferStatus.
Proof. solve_decision. Defined.
#[export] Instance TransferAction_eq_dec : EqDecision TransferAction.
Proof. solve_decision. Defined.

Record InventoryBalance := mkBalance {
  b_id : string;
  b_key : StockKey;
  b_onHand : Z;
  b_reserved : Z;
  b_available : Z;
  b_version : Z
}.

Record InventoryMovement := mkMovement {
  m_id : string;
  m_key : StockKey;
  m_type : InventoryMovementType;
  m_quantity : Z;
  m_beforeOnHand : Z;
  m_afterOnHand : Z;
  m_referenceType : option string;
  m_referenceId : option string;
  m_reason : option string;
  m_idempotencyKey : option string;
  m_createdAt : Z
}.

Record StockReservation := mkReservation {
  r_id : string;
  r_key : StockKey;
  r_orderId : option string;
  r_quantity : Z;
  r_status : ReservationStatus;
  r_expiresAt : Z;
  r_idempotencyKey : option string;
  r_createdAt : Z
}.

Record TransferItem := mkItem {
  i_id : string;
  i_variantId : string;
  i_quantity : Z;
  i_sourceLocationId : option string;
  i_targetLocationId : option string
}.

Record StockTransfer := mkTransfer {
  t_id : string;
  t_code : string;
  t_sourceWarehouseId : string;
  t_targetWarehouseId : string;
  t_status : TransferStatus;
  t_version : Z;
  t_idempotencyKey : option string;
  t_items : list TransferItem;
  t_createdAt : Z
}.

Record StockTransferTransition := mkTransition {
  tt_id : string;
  tt_transferId : string;
  tt_action : TransferAction;
  tt_idempotencyKey : string;
  tt_expectedVersion : option Z
}.

Record Warehouse := mkWarehouse {
  w_id : string;
  w_code : string;
  w_name : string;
  w_city : option string;
  w_address : option string;
  w_isActive : bool
}.

Record WarehouseLocation := mkLocation {
  l_id : string;
  l_warehouseId : string;
  l_code : string;
  l_name : option string;
  l_zone : option string;
  l_aisle : option string;
  l_rack : option string;
  l_shelf : option string;
  l_bin : option string;
  l_isActive : bool
}.

(** The tables, the audit rows, the advisory locks the running transaction holds
    in the order it took them, and the identifier supply and clock of the
    database.  [variants] maps a variant to whether its status is ACTIVE;
    [doorReservations] lists the [reservationId]s of [DoorMaterialRequirement]. *)
Record InvDb := mkInvDb {
  balances : gmap string InventoryBalance;
  movements : gmap string InventoryMovement;
  reservations : gmap string StockReservation;
  transfers : gmap string StockTransfer;
  transferTransitions : gmap string StockTransferTransition;
  warehouses : gmap string Warehouse;
  locations : gmap string WarehouseLocation;
  variants : gmap string bool;
  doorReservations : list string;
  audits : AuditTable;
  locks : list string;
  nextId : nat;
  clock : Z
}.

Definition set_balances (x : gmap string InventoryBalance) (db : InvDb) : InvDb :=
  mkInvDb x (movements db) (reservations db) (transfers db) (transferTransitions db)
    (warehouses db) (locations db) (variants db) (doorReservations db) (audits db) (locks db)
    (nextId db) (clock db).
Definition set_movements (x : gmap string InventoryMovement) (db : InvDb) : InvDb :=
  mkInvDb (balances db) x (reservations db) (transfers db) (transferTransitions db)
    (warehouses db) (locations db) (variants db) (doorReservations db) (audits db) (locks db)
    (nextId db) (clock db).
Definition set_reservations (x : gmap string StockReservation) (db : InvDb) : InvDb :=
  mkInvDb (balances db) (movements db) x (transfers db) (transferTransitions db)
    (warehouses db) (locations db) (variants db) (doorReservations db) (audits db) (locks db)
    (nextId db) (clock db).
Definition set_transfers (x : gmap string StockTransfer) (db : InvDb) : InvDb :=
  mkInvDb (balances db) (movements db) (reservations db) x (transferTransitions db)
    (warehouses db) (locations db) (variants db) (doorReservations db) (audits db) (locks db)
    (nextId db) (clock db).
Definition set_transferTransitions (x : gmap string StockTransferTransition) (db : InvDb) : InvDb :=
  mkInvDb (balances db) (movements db) (reservations db) (transfers db) x
    (warehouses db) (locations db) (variants db) (doorReservations db) (audits db) (locks db)
    (nextId db) (clock db).
Definition set_warehouses (x : gmap string Warehouse) (db : InvDb) : InvDb :=
  mkInvDb (balances db) (movements db) (reservations db) (transfers db) (transferTransitions db)
    x (locations db) (variants db) (doorReservations db) (audits db) (locks db)
    (nextId db) (clock db).
Definition set_locations (x : gmap string WarehouseLocation) (db : InvDb) : InvDb :=
  mkInvDb (balances db) (movements db) (reservations db) (transfers db) (transferTransitions db)
    (warehouses db) x (variants db) (doorReservations db) (audits db) (locks db)
    (nextId db) (clock db).
Definition set_audits (x : AuditTable) (db : InvDb) : InvDb :=
  mkInvDb (balances db) (movements db) (reservations db) (transfers db) (transferTransitions db)
    (warehouses db) (locations db) (variants db) (doorReservations db) x (locks db)
    (nextId db) (clock db).
Definition set_locks (x : list string) (db : InvDb) : InvDb :=
  mkInvDb (balances db) (movements db) (reservations db) (transfers db) (transferTransitions db)
    (warehouses db) (locations db) (variants db) (doorReservations db) (audits db) x
    (nextId db) (clock db).
Definition set_nextId (x : nat) (db : InvDb) : InvDb :=
  mkInvDb (balances db) (movements db) (reservations db) (transfers db) (transferTransitions db)
    (warehouses db) (locations db) (variants db) (doorReservations db) (audits db) (locks db)
    x (clock db).

#[export] Instance invdb_audit : Lens InvDb AuditTable := {| view := audits; put := set_audits |}.
#[export] Instance invdb_audit_laws : LensLaws InvDb AuditTable.
Proof. by split; intros; [|destruct s|]. Qed.

(** * Database operations *)

(** The range of an [Int] column. *)
Definition INT4_MAX : Z := 2147483647.
Definition int4 (z : Z) : bool := ((- INT4_MAX - 1 <=? z) && (z <=? INT4_MAX))%Z.

(** [advisoryLockIdKey(...parts)]: the text whose digest identifies the lock. *)
Definition advisoryLockIdKey (parts : list string) : string :=
  "iranyaragh:" +:+ String.concat ":" parts.

Definition advisory_lock (parts : list string) : M InvDb unit :=
  modify (fun db => set_locks (locks db ++ [advisoryLockIdKey parts]) db).

Section ops.
(** [cuid n] is the [n]-th identifier the database generates. *)
Context (cuid : nat -> string).

Definition fresh_id : M InvDb string := fun db =>
  Ok (cuid (nextId db), set_nextId (S (nextId db)) db).

Definition has_key (k : StockKey) (b : InventoryBalance) : bool := bool_decide (b_key b = k).

(** [inventoryBalance.findUnique({ where: { warehouseId_locationId_variantId } })] *)
Definition find_balance (k : StockKey) (db : InvDb) : option InventoryBalance :=
  find_by (has_key k) (balances db).

(** Storing a balance row; an [Int] column that does not fit is refused. *)
Definition write_balance (b : InventoryBalance) : M InvDb unit :=
  throw_if (negb (int4 (b_onHand b) && int4 (b_reserved b) && int4 (b_available b) && int4 (b_version b)))
    P2020 ;;
  modify (fun db => set_balances (<[b_id b := b]> (balances db)) db).

(** [inventoryBalance.update] by primary key and by stock key. *)
Definition update_balance_id (id : string) (f : InventoryBalance -> InventoryBalance) : M InvDb unit :=
  row ← gets (fun db => balances db !! id);
  b ← unwrap row P2025;
  write_balance (f b).
Definition update_balance_key (k : StockKey) (f : InventoryBalance -> InventoryBalance) : M InvDb unit :=
  row ← gets (find_balance k);
  b ← unwrap row P2025;
  write_balance (f b).

(** [inventoryBalance.upsert({ where: key, create, update })] *)
Definition upsert_balance (k : StockKey) (onHand reserved available : Z)
    (update : InventoryBalance -> InventoryBalance) : M InvDb unit :=
  row ← gets (find_balance k);
  match row with
  | Some b => write_balance (update b)
  | None =>
      id ← fresh_id;
      taken ← gets (fun db => balances db !! id);
      throw_if (bool_decide (is_Some taken)) P2002 ;;
      write_balance (mkBalance id k onHand reserved available 1)
  end.

(** [inventoryMovement.create]: a new identifier and a free idempotency key. *)
Definition create_movement (k : StockKey) (type : InventoryMovementType)
    (quantity beforeOnHand afterOnHand : Z) (referenceType referenceId reason idempotencyKey : option string)
    : M InvDb InventoryMovement :=
  throw_if (negb (int4 quantity && int4 beforeOnHand && int4 afterOnHand)) P2020 ;;
  id ← fresh_id;
  taken ← gets (fun db => movements db !! id);
  throw_if (bool_decide (is_Some taken)) P2002 ;;
  dup ← gets (fun db => find_by (fun m => bool_decide (is_Some idempotencyKey) &&
                bool_decide (m_idempotencyKey m = idempotencyKey)) (movements db));
  throw_if (bool_decide (is_Some dup)) P2002 ;;
  now ← gets clock;
  let m := mkMovement id k type quantity beforeOnHand afterOnHand referenceType referenceId
             reason idempotencyKey now in
  modify (fun db => set_movements (<[id := m]> (movements db)) db) ;;
  mret m.

(** [stockReservation.create] with the default status. *)
Definition create_reservation (k : StockKey) (orderId : option string) (quantity expiresAt : Z)
    (idempotencyKey : option string) : M InvDb StockReservation :=
  throw_if (negb (int4 quantity)) P2020 ;;
  id ← fresh_id;
  taken ← gets (fun db => reservations db !! id);
  throw_if (bool_decide (is_Some taken)) P2002 ;;
  dup ← gets (fun db => find_by (fun r => bool_decide (is_Some idempotencyKey) &&
                bool_decide (r_idempotencyKey r = idempotencyKey)) (reservations db));
  throw_if (bool_decide (is_Some dup)) P2002 ;;
  now ← gets clock;
  let r := mkReservation id k orderId quantity ACTIVE expiresAt idempotencyKey now in
  modify (fun db => set_reservations (<[id := r]> (reservations db)) db) ;;
  mret r.

Definition set_status (s : ReservationStatus) (r : StockReservation) : StockReservation :=
  mkReservation (r_id r) (r_key r) (r_orderId r) (r_quantity r) s (r_expiresAt r)
    (r_idempotencyKey r) (r_createdAt r).

(** [stockReservation.update({ where: { id }, data: { status } })] *)
Definition update_reservation_status (id : string) (s : ReservationStatus) : M InvDb StockReservation :=
  row ← gets (fun db => reservations db !! id);
  r ← unwrap row P2025;
  let r' := set_status s r in
  modify (fun db => set_reservations (<[id := r']> (reservations db)) db) ;;
  mret r'.
End ops.

(** * The stock invariant *)

Definition held (k : StockKey) (r : StockReservation) : Z :=
  if bool_decide (r_status r = ACTIVE) && bool_decide (r_key r = k) then r_quantity r else 0.
Definition moved (k : StockKey) (m : InventoryMovement) : Z :=
  if bool_decide (m_key m = k) then m_quantity m else 0.

(** What the ledger says about a stock key: the sum of its movements and of its
    active reservations. *)
Definition moved_at (k : StockKey) (db : InvDb) : Z := tsum (moved k) (movements db).
Definition held_at (k : StockKey) (db : InvDb) : Z := tsum (held k) (reservations db).

(** The balance columns of a stock key; a missing row counts as zero. *)
Definition level (k : StockKey) (db : InvDb) : Z * Z * Z :=
  match find_balance k db with
  | Some b => (b_onHand b, b_reserved b, b_available b)
  | None => (0, 0, 0)%Z
  end.

(** Primary keys, the unique stock key and positive reservations. *)
Definition wf_tables (db : InvDb) : Prop :=
  (forall id b, balances db !! id = Some b -> b_id b = id) /\
  (forall id r, reservations db !! id = Some r -> r_id r = id /\ (0 < r_quantity r)%Z) /\
  (forall k, unique_on (has_key k) (balances db)).

(** The balance columns are exactly what the ledger says, and stock is never
    oversold. *)
Definition ledger_ok (db : InvDb) : Prop :=
  forall k, level k db = (moved_at k db, held_at k db, moved_at k db - held_at k db)%Z /\
            (0 <= moved_at k db - held_at k db)%Z.

Definition inv (db : InvDb) : Prop := wf_tables db /\ ledger_ok db.
