(* ===== verification/Inventory.v ===== *)
(** The stock commands of
    [src/apps/api/src/modules/inventory/inventory.service.ts]: on-hand changes,
    reservations and their release, consumption and expiry, each as a transaction
    on [InvDb] with the guards, writes, audit rows and locks in source order.
    Public commands read outside the transaction and run it under the retry loop,
    in an environment of other clients. *)

From S2P Require Import Prelude Table Json AuditTrail Retry InventoryModel.

(** * Commands and contexts *)

Record ActorContext := mkActor {
  ac_actorId : option string;
  ac_requestId : option string
}.

(** [TransactionStockCommand] *)
Record ChangeStockCommand := mkChange {
  cs_key : StockKey;
  cs_context : ActorContext;
  cs_delta : number;
  cs_type : InventoryMovementType;
  cs_reason : option string;
  cs_referenceType : option string;
  cs_referenceId : option string;
  cs_idempotencyKey : option string;
  cs_expectedVersion : option Z
}.

Record ReserveStockCommand := mkReserve {
  rs_key : StockKey;
  rs_context : ActorContext;
  rs_orderId : option string;
  rs_quantity : number;
  rs_expiresAt : Z;
  rs_expectedVersion : option Z;
  rs_idempotencyKey : option string
}.

Inductive ProductionAction := consume_action | release_action.
#[export] Instance ProductionAction_eq_dec : EqDecision ProductionAction.
Proof. solve_decision. Defined.

(** * Errors *)

Definition badRequest (message : string) : exn := HttpException BadRequestException None message.
Definition invalidRequest (message : string) : exn :=
  HttpException BadRequestException (Some "INVALID_REQUEST") message.
Definition conflict (message : string) : exn := HttpException ConflictException None message.
Definition conflictCode (code message : string) : exn :=
  HttpException ConflictException (Some code) message.
Definition notFound (code message : string) : exn :=
  HttpException NotFoundException (Some code) message.

Definition idempotencyConflict (key : string) : exn :=
  conflict ("Idempotency conflict: key '" +:+ key +:+
    "' was already used with a different payload.").
Definition insufficientStock (message : string) : exn := conflictCode "INSUFFICIENT_STOCK" message.
Definition reservationStateConflict (message : string) : exn :=
  conflictCode "RESERVATION_STATE_CONFLICT" message.
Definition reservationExpired : exn :=
  conflictCode "RESERVATION_EXPIRED" "Reservation has expired.".
Definition orderLinked : exn :=
  reservationStateConflict
    "Order-linked reservation lifecycle is managed by order and fulfillment workflows.".
Definition balanceInconsistent : exn :=
  reservationStateConflict "Reservation balance is inconsistent.".

(** * Shared guards *)

Definition assertTracked (c : ActorContext) : result unit :=
  if negb (truthy_opt (trim <$> ac_actorId c)) || negb (truthy_opt (trim <$> ac_requestId c))
  then Err (badRequest "actorId and requestId are required for inventory mutations.")
  else Ok tt.

Definition assertVersion (expected : option Z) (actual : Z) : result unit :=
  match expected with
  | Some e =>
      if bool_decide (actual = e) then Ok tt
      else Err (conflictCode "INVENTORY_VERSION_CONFLICT"
                  "Inventory balance version conflict. Refresh and retry.")
  | None => Ok tt
  end.

Definition acquireBalanceLock (k : StockKey) : M InvDb unit :=
  advisory_lock ["balance"; warehouseId k; locationId k; variantId k].

Definition assertStockIdentity (k : StockKey) : M InvDb unit :=
  warehouse ← gets (fun db => warehouses db !! warehouseId k);
  throw_if (negb (bool_decide (is_Some warehouse)))
    (notFound "WAREHOUSE_NOT_FOUND" "Warehouse not found.") ;;
  location ← gets (fun db => find_by (fun l => bool_decide (l_id l = locationId k) &&
                     bool_decide (l_warehouseId l = warehouseId k) && l_isActive l) (locations db));
  throw_if (negb (bool_decide (is_Some location)))
    (notFound "LOCATION_NOT_FOUND" "Active warehouse location not found.") ;;
  variant ← gets (fun db => variants db !! variantId k);
  throw_if (negb (bool_decide (is_Some variant))) (notFound "SKU_NOT_FOUND" "SKU not found.").

(** * On-hand changes *)

Definition INVENTORY_CHANGE_TYPES : list InventoryMovementType :=
  [RECEIPT; ADJUSTMENT_IN; ADJUSTMENT_OUT].
Definition ADJUSTMENT_TYPES : list InventoryMovementType := [ADJUSTMENT_IN; ADJUSTMENT_OUT].
Definition is_change_type (t : InventoryMovementType) : bool :=
  bool_decide (t ∈ INVENTORY_CHANGE_TYPES).

Definition only_receipts : exn :=
  invalidRequest "This endpoint only accepts receipts and manual adjustments.".

Definition validateStockCommand (c : ChangeStockCommand) : result unit :=
  assertTracked (cs_context c) ;;
  let isOutbound := bool_decide (cs_type c = ADJUSTMENT_OUT) in
  let delta := int_val (cs_delta c) in
  if negb (isInteger (cs_delta c)) || bool_decide (delta = 0%Z) then
    Err (badRequest "Inventory delta must be a non-zero integer.")
  else if negb (bool_decide (cs_type c = RETURN_IN)) && negb (is_change_type (cs_type c)) then
    Err only_receipts
  else if bool_decide (cs_type c = RETURN_IN) &&
          negb (bool_decide (cs_referenceType c = Some "credit-return")) then
    Err (badRequest "Returned stock requires a credit-return reference.")
  else if (isOutbound && (0 <? delta)%Z) || (negb isOutbound && (delta <? 0)%Z) then
    Err (invalidRequest "Inventory movement type and delta direction do not match.")
  else if bool_decide (cs_type c ∈ ADJUSTMENT_TYPES) && negb (truthy_opt (trim <$> cs_reason c)) then
    Err (badRequest "Manual corrections require a reason.")
  else Ok tt.

Definition movementMatches (m : InventoryMovement) (c : ChangeStockCommand) : bool :=
  bool_decide (m_key m = cs_key c) && bool_decide (m_type m = cs_type c) &&
  bool_decide (m_quantity m = int_val (cs_delta c)) &&
  bool_decide (m_reason m = cs_reason c) &&
  bool_decide (m_referenceType m = cs_referenceType c) &&
  bool_decide (m_referenceId m = cs_referenceId c).

(** The enum value as Prisma represents it: its name. *)
Definition movement_type_name (t : InventoryMovementType) : string :=
  match t with
  | RECEIPT => "RECEIPT" | SALE => "SALE" | RETURN_IN => "RETURN_IN" | RETURN_OUT => "RETURN_OUT"
  | TRANSFER_IN => "TRANSFER_IN" | TRANSFER_OUT => "TRANSFER_OUT"
  | ADJUSTMENT_IN => "ADJUSTMENT_IN" | ADJUSTMENT_OUT => "ADJUSTMENT_OUT"
  | STOCKTAKE => "STOCKTAKE" | RESERVATION => "RESERVATION" | RELEASE => "RELEASE"
  end.

Section service.
Context (cuid : nat -> string).

(** [changeOnHandIn(tx, command)] *)
Definition changeOnHandIn (c : ChangeStockCommand) : M InvDb InventoryMovement :=
  lift_result (validateStockCommand c) ;;
  acquireBalanceLock (cs_key c) ;;
  existing ← gets (fun db =>
    if truthy_opt (cs_idempotencyKey c)
    then find_by (fun m => bool_decide (m_idempotencyKey m = cs_idempotencyKey c)) (movements db)
    else None);
  match existing with
  | Some m =>
      if movementMatches m c then mret m
      else mthrow (idempotencyConflict (default EmptyString (cs_idempotencyKey c)))
  | None =>
      assertStockIdentity (cs_key c) ;;
      current ← gets (find_balance (cs_key c));
      lift_result (assertVersion (cs_expectedVersion c) (from_option b_version 0%Z current)) ;;
      let delta := int_val (cs_delta c) in
      let beforeOnHand := from_option b_onHand 0%Z current in
      let reserved := from_option b_reserved 0%Z current in
      let afterOnHand := (beforeOnHand + delta)%Z in
      let available := (afterOnHand - reserved)%Z in
      throw_if ((afterOnHand <? 0)%Z || (available <? 0)%Z)
        (insufficientStock "Insufficient stock for this operation.") ;;
      upsert_balance cuid (cs_key c) afterOnHand reserved available
        (fun b => mkBalance (b_id b) (b_key b) afterOnHand (b_reserved b) available (b_version b + 1)) ;;
      movement ← create_movement cuid (cs_key c) (cs_type c) delta beforeOnHand afterOnHand
                   (cs_referenceType c) (cs_referenceId c) (cs_reason c) (cs_idempotencyKey c);
      record (mkAuditEvent "inventory.balance.changed" "inventory-movement" (Some (m_id movement))
        (Some (JObj [("onHand", JNum beforeOnHand); ("reserved", JNum reserved)]))
        (Some (JObj [("onHand", JNum afterOnHand); ("available", JNum available)]))
        (Some (JObj [("type", JStr (movement_type_name (cs_type c)));
                     ("warehouseId", JStr (warehouseId (cs_key c)));
                     ("locationId", JStr (locationId (cs_key c)))]))
        (ac_actorId (cs_context c)) (ac_requestId (cs_context c))) ;;
      mret movement
  end.

(** A command's transaction: it starts without locks. *)
Definition begin_tx {A} (m : M InvDb A) : M InvDb A := modify (set_locks []) ;; m.

(** [changeOnHand(command)] *)
Definition changeOnHand (E : env InvDb) (c : ChangeStockCommand) (db : InvDb)
    : result InventoryMovement * InvDb :=
  match (assertTracked (cs_context c) ;;
         (if is_change_type (cs_type c) then Ok tt else Err only_receipts) ;;
         validateStockCommand c) with
  | Err e => (Err e, db)
  | Ok _ => inventory_withSerializableRetry E (begin_tx (changeOnHandIn c)) db
  end.

(** * Reservations *)

Definition valid_quantity (n : number) : bool :=
  isSafeInteger n && (0 <? int_val n)%Z && (int_val n <=? 2147483647)%Z.

Definition reservationMatches (r : StockReservation) (c : ReserveStockCommand) : bool :=
  bool_decide (r_key r = rs_key c) && bool_decide (r_orderId r = rs_orderId c) &&
  bool_decide (r_quantity r = int_val (rs_quantity c)) &&
  bool_decide (r_expiresAt r = rs_expiresAt c).

(** [reserveIn(tx, command)] *)
Definition reserveIn (c : ReserveStockCommand) : M InvDb StockReservation :=
  lift_result (assertTracked (rs_context c)) ;;
  throw_if (negb (valid_quantity (rs_quantity c)))
    (badRequest "A positive integer quantity is required.") ;;
  acquireBalanceLock (rs_key c) ;;
  existing ← gets (fun db =>
    if truthy_opt (rs_idempotencyKey c)
    then find_by (fun r => bool_decide (r_idempotencyKey r = rs_idempotencyKey c)) (reservations db)
    else None);
  match existing with
  | Some r =>
      if reservationMatches r c then mret r
      else mthrow (idempotencyConflict (default EmptyString (rs_idempotencyKey c)))
  | None =>
      assertStockIdentity (rs_key c) ;;
      row ← gets (find_balance (rs_key c));
      lift_result (assertVersion (rs_expectedVersion c) (from_option b_version 0%Z row)) ;;
      let quantity := int_val (rs_quantity c) in
      balance ← unwrap row (insufficientStock "Insufficient available stock.");
      throw_if (b_available balance <? quantity)%Z
        (insufficientStock "Insufficient available stock.") ;;
      update_balance_key (rs_key c) (fun b =>
        mkBalance (b_id b) (b_key b) (b_onHand b) (b_reserved b + quantity)
          (b_available b - quantity) (b_version b + 1)) ;;
      reservation ← create_reservation cuid (rs_key c) (rs_orderId c) quantity (rs_expiresAt c)
                      (rs_idempotencyKey c);
      record (mkAuditEvent "inventory.reservation.created" "stock-reservation"
        (Some (r_id reservation))
        (Some (JObj [("reserved", JNum (b_reserved balance)); ("available", JNum (b_available balance))]))
        (Some (JObj [("reserved", JNum (b_reserved balance + quantity));
                     ("available", JNum (b_available balance - quantity))]))
        (Some (JObj [("warehouseId", JStr (warehouseId (rs_key c)));
                     ("locationId", JStr (locationId (rs_key c)))]))
        (ac_actorId (rs_context c)) (ac_requestId (rs_context c))) ;;
      mret reservation
  end.

(** [reserve(command)] *)
Definition reserve (E : env InvDb) (c : ReserveStockCommand) (db : InvDb)
    : result StockReservation * InvDb :=
  match (assertTracked (rs_context c) ;;
         (if valid_quantity (rs_quantity c) then Ok tt
          else Err (badRequest "Reservation quantity must be a positive integer."))) with
  | Err e => (Err e, db)
  | Ok _ => inventory_withSerializableRetry E (begin_tx (reserveIn c)) db
  end.

(** [{ reserved: { decrement }, available: { increment }, version: { increment: 1 } }] *)
Definition give_back (quantity count : Z) (b : InventoryBalance) : InventoryBalance :=
  mkBalance (b_id b) (b_key b) (b_onHand b) (b_reserved b - quantity)
    (b_available b + quantity) (b_version b + count).

(** [consumeSingleReservation(tx, reservation, context)]: 1 when this call
    consumed the reservation, 0 when it had already left ACTIVE. *)
Definition consumeSingleReservation (reservation : StockReservation) (ctx : ActorContext)
    : M InvDb Z :=
  acquireBalanceLock (r_key reservation) ;;
  row ← gets (fun db => reservations db !! r_id reservation);
  match row with
  | Some current =>
      if negb (bool_decide (r_status current = ACTIVE)) then mret 0%Z
      else
        let quantity := r_quantity current in
        b ← gets (find_balance (r_key current));
        balance ← unwrap b balanceInconsistent;
        throw_if (b_reserved balance <? quantity)%Z balanceInconsistent ;;
        let beforeOnHand := b_onHand balance in
        let afterOnHand := (beforeOnHand - quantity)%Z in
        let afterReserved := (b_reserved balance - quantity)%Z in
        update_balance_id (b_id balance) (fun b =>
          mkBalance (b_id b) (b_key b) afterOnHand afterReserved (afterOnHand - afterReserved)
            (b_version b + 1)) ;;
        create_movement cuid (r_key current) SALE (- quantity) beforeOnHand afterOnHand
          (Some (if truthy_opt (r_orderId current) then "order" else "stock-reservation"))
          (Some (default (r_id current) (r_orderId current)))
          (Some "Reservation consumed") None ;;
        update_reservation_status (r_id current) CONSUMED ;;
        record (mkAuditEvent "inventory.reservation.consumed" "stock-reservation"
          (Some (r_id current))
          (Some (JObj [("onHand", JNum beforeOnHand); ("reserved", JNum (b_reserved balance))]))
          (Some (JObj [("onHand", JNum afterOnHand); ("reserved", JNum afterReserved);
                       ("available", JNum (afterOnHand - afterReserved))]))
          (Some (JObj [("orderId", jopt (r_orderId current))]))
          (ac_actorId ctx) (ac_requestId ctx)) ;;
        mret 1%Z
  | None => mret 0%Z
  end.

(** [rebalanceReservationRelease(tx, reservation, toStatus, action, context)];
    [systemActor] is present for the order-expiry worker, which has no actor. *)
Definition rebalanceReservationRelease (reservation : StockReservation)
    (toStatus : ReservationStatus) (action : string) (ctx : ActorContext)
    (systemActor : option string) : M InvDb Z :=
  acquireBalanceLock (r_key reservation) ;;
  row ← gets (fun db => reservations db !! r_id reservation);
  match row with
  | Some current =>
      if negb (bool_decide (r_status current = ACTIVE)) then mret 0%Z
      else
        let quantity := r_quantity current in
        b ← gets (find_balance (r_key current));
        balance ← unwrap b balanceInconsistent;
        throw_if (b_reserved balance <? quantity)%Z balanceInconsistent ;;
        update_balance_id (b_id balance) (give_back quantity 1) ;;
        update_reservation_status (r_id current) toStatus ;;
        record (mkAuditEvent action "stock-reservation" (Some (r_id current))
          (Some (JObj [("reserved", JNum (b_reserved balance)); ("available", JNum (b_available balance))]))
          (Some (JObj [("reserved", JNum (b_reserved balance - quantity));
                       ("available", JNum (b_available balance + quantity))]))
          (match ac_actorId ctx with
           | None => Some (JObj [("systemActor", jopt systemActor); ("orderId", jopt (r_orderId current))])
           | Some _ => None
           end)
          (ac_actorId ctx) (ac_requestId ctx)) ;;
        mret 1%Z
  | None => mret 0%Z
  end.

Definition releaseSingleReservation (reservation : StockReservation) (ctx : ActorContext)
    (systemActor : option string) : M InvDb Z :=
  rebalanceReservationRelease reservation RELEASED "inventory.reservation.released" ctx systemActor.

(** [transitionProductionReservationIn(tx, reservationId, action, context)] *)
Definition transitionProductionReservationIn (reservationId : string) (action : ProductionAction)
    (ctx : ActorContext) (now : Z) : M InvDb Z :=
  lift_result (assertTracked ctx) ;;
  row ← gets (fun db => reservations db !! reservationId);
  reservation ← unwrap row (conflict "Invalid production reservation.");
  throw_if (truthy_opt (r_orderId reservation)) (conflict "Invalid production reservation.") ;;
  throw_if (negb (bool_decide (r_status reservation = ACTIVE)))
    (conflict "Production reservation is no longer active.") ;;
  throw_if (bool_decide (action = consume_action) && (r_expiresAt reservation <=? now)%Z)
    (conflict "Production reservation expired; reserve again before consumption.") ;;
  match action with
  | consume_action => consumeSingleReservation reservation ctx
  | release_action => releaseSingleReservation reservation ctx None
  end.

(** ** Single reservations, outside order workflows *)

(** [requireActiveReservation(reservationId)]: the reservation and its balance id. *)
Definition requireActiveReservation (reservationId : string) (db : InvDb)
    : result (StockReservation * string) :=
  match reservations db !! reservationId with
  | None => Err (notFound "RESERVATION_NOT_FOUND" "Reservation not found.")
  | Some reservation =>
      if bool_decide (r_status reservation = EXPIRED) then Err reservationExpired
      else
        match find_balance (r_key reservation) db with
        | None => Err (reservationStateConflict "Reservation balance is missing.")
        | Some balance => Ok (reservation, b_id balance)
        end
  end.

(** [reservationReplay(recheck, reservation)]: the row to return as it is, if any. *)
Definition reservationReplay (recheck : option StockReservation) (reservation : StockReservation)
    : result (option StockReservation) :=
  match recheck with
  | None => Ok (Some reservation)
  | Some r =>
      if bool_decide (r_status r = EXPIRED) then Err reservationExpired
      else if bool_decide (r_status r = ACTIVE) then Ok None
      else Ok (Some r)
  end.

(** The checks of [transitionReservation] before its transaction. *)
Definition transition_precheck (reservationId : string) (ctx : ActorContext) (now : Z) (db : InvDb)
    : result (StockReservation * string) :=
  assertTracked ctx ;;
  rb ← requireActiveReservation reservationId db;
  let reservation := fst rb in
  if bool_decide (reservationId ∈ doorReservations db) then
    Err (conflict "Production-linked reservations are managed by the door order workflow.")
  else if truthy_opt (r_orderId reservation) then Err orderLinked
  else if bool_decide (r_status reservation = ACTIVE) && (r_expiresAt reservation <=? now)%Z then
    Err reservationExpired
  else Ok rb.

(** The transaction of [transitionReservation]. *)
Definition transition_tx (reservationId balanceId : string) (reservation : StockReservation)
    (expectedVersion : option Z) (now : Z)
    (apply : StockReservation -> InventoryBalance -> M InvDb StockReservation)
    : M InvDb StockReservation :=
  acquireBalanceLock (r_key reservation) ;;
  recheck ← gets (fun db => reservations db !! reservationId);
  replayState ← lift_result (reservationReplay recheck reservation);
  match replayState with
  | Some r => mret r
  | None =>
      throw_if (truthy_opt (recheck ≫= r_orderId)) orderLinked ;;
      throw_if (from_option (fun r => (r_expiresAt r <=? now)%Z) false recheck) reservationExpired ;;
      row ← gets (fun db => balances db !! balanceId);
      lift_result (assertVersion expectedVersion (from_option b_version 0%Z row)) ;;
      balance ← unwrap row balanceInconsistent;
      throw_if (b_reserved balance <? r_quantity reservation)%Z balanceInconsistent ;;
      apply reservation balance
  end.

(** [transitionReservation]: [now0] and [now1] are the clock before and inside the
    transaction. *)
Definition transitionReservation (E : env InvDb) (reservationId : string) (ctx : ActorContext)
    (expectedVersion : option Z) (now0 now1 : Z)
    (apply : StockReservation -> InventoryBalance -> M InvDb StockReservation) (db : InvDb)
    : result StockReservation * InvDb :=
  match transition_precheck reservationId ctx now0 db with
  | Err e => (Err e, db)
  | Ok (reservation, balanceId) =>
      inventory_withSerializableRetry E
        (begin_tx (transition_tx reservationId balanceId reservation expectedVersion now1 apply)) db
  end.

(** The [apply] callback of [releaseReservation]. *)
Definition release_apply (reservationId : string) (ctx : ActorContext)
    (reservation : StockReservation) (balance : InventoryBalance) : M InvDb StockReservation :=
  let quantity := r_quantity reservation in
  update_balance_id (b_id balance) (give_back quantity 1) ;;
  released ← update_reservation_status reservationId RELEASED;
  record (mkAuditEvent "inventory.reservation.released" "stock-reservation" (Some reservationId)
    (Some (JObj [("reserved", JNum (b_reserved balance)); ("available", JNum (b_available balance))]))
    (Some (JObj [("reserved", JNum (b_reserved balance - quantity));
                 ("available", JNum (b_available balance + quantity))]))
    None (ac_actorId ctx) (ac_requestId ctx)) ;;
  mret released.

Definition releaseReservation (E : env InvDb) (reservationId : string) (ctx : ActorContext)
    (expectedVersion : option Z) (now0 now1 : Z) (db : InvDb) : result StockReservation * InvDb :=
  transitionReservation E reservationId ctx expectedVersion now0 now1
    (release_apply reservationId ctx) db.

(** The [apply] callback of [consumeReservation]. *)
Definition consume_apply (reservationId : string) (ctx : ActorContext)
    (reservation : StockReservation) (balance : InventoryBalance) : M InvDb StockReservation :=
  let quantity := r_quantity reservation in
  let beforeOnHand := b_onHand balance in
  let afterReserved := (b_reserved balance - quantity)%Z in
  let afterOnHand := (b_onHand balance - quantity)%Z in
  let available := (afterOnHand - afterReserved)%Z in
  update_balance_id (b_id balance) (fun b =>
    mkBalance (b_id b) (b_key b) afterOnHand afterReserved available (b_version b + 1)) ;;
  create_movement cuid (r_key reservation) SALE (- quantity) beforeOnHand afterOnHand
    (Some (if truthy_opt (r_orderId reservation) then "order" else "stock-reservation"))
    (Some (default reservationId (r_orderId reservation)))
    (Some "Reservation consumed") None ;;
  consumed ← update_reservation_status reservationId CONSUMED;
  record (mkAuditEvent "inventory.reservation.consumed" "stock-reservation" (Some reservationId)
    (Some (JObj [("onHand", JNum beforeOnHand); ("reserved", JNum (b_reserved balance))]))
    (Some (JObj [("onHand", JNum afterOnHand); ("reserved", JNum afterReserved);
                 ("available", JNum available)]))
    (Some (JObj [("orderId", jopt (r_orderId reservation))]))
    (ac_actorId ctx) (ac_requestId ctx)) ;;
  mret consumed.

Definition consumeReservation (E : env InvDb) (reservationId : string) (ctx : ActorContext)
    (expectedVersion : option Z) (now0 now1 : Z) (db : InvDb) : result StockReservation * InvDb :=
  transitionReservation E reservationId ctx expectedVersion now0 now1
    (consume_apply reservationId ctx) db.

(** ** All reservations of an order, inside the caller's transaction *)

Definition by_id (a b : StockReservation) : Z :=
  if bool_decide (r_id a = r_id b) then 0 else if js_ltb (r_id a) (r_id b) then -1 else 1.

Definition order_reservations (orderId : string) (db : InvDb) : list StockReservation :=
  js_sort by_id (find_many (fun r => bool_decide (r_orderId r = Some orderId) &&
    bool_decide (r_status r = ACTIVE)) (reservations db)).

Definition releaseOrderReservations (orderId : string) (ctx : ActorContext)
    (systemActor : option string) : M InvDb Z :=
  rows ← gets (order_reservations orderId);
  sum_each rows (fun r => releaseSingleReservation r ctx systemActor).

Definition releaseReservationsForOrder (orderId : string) (ctx : ActorContext) : M InvDb Z :=
  lift_result (assertTracked ctx) ;;
  releaseOrderReservations orderId ctx None.

(** [orderExpirySystemContext(requestId)]: a bounded correlation identifier. *)
Definition request_char (first : bool) (c : Ascii.ascii) : bool :=
  let n := Ascii.N_of_ascii c in
  ((48 <=? n) && (n <=? 57) || (65 <=? n) && (n <=? 90) || (97 <=? n) && (n <=? 122) ||
   negb first && ((n =? 46) || (n =? 95) || (n =? 58) || (n =? 45)))%N.
Definition valid_request_id (s : string) : bool :=
  match s with
  | EmptyString => false
  | String c s => request_char true c && forallb (request_char false) (String.list_ascii_of_string s) &&
                  (String.length s <=? 127)%nat
  end.
Definition SYSTEM_ACTOR : string := "order-reservation-expiry".
Definition orderExpirySystemContext (requestId : string) : result ActorContext :=
  if valid_request_id requestId then Ok (mkActor None (Some requestId))
  else Err (badRequest "A bounded correlation ID is required for order expiry.").

Definition releaseReservationsForOrderFromExpiry (orderId requestId : string) : M InvDb Z :=
  ctx ← lift_result (orderExpirySystemContext requestId);
  releaseOrderReservations orderId ctx (Some SYSTEM_ACTOR).

Definition consumeReservationsForOrder (orderId : string) (ctx : ActorContext) : M InvDb Z :=
  throw_if (negb (truthy_opt (trim <$> ac_requestId ctx)))
    (badRequest "requestId is required for payment-driven inventory consumption.") ;;
  rows ← gets (order_reservations orderId);
  sum_each rows (fun r => consumeSingleReservation r ctx).

(** ** Expiry of due reservations *)

Definition EXPIRY_BATCH_SIZE : Z := 100.

Definition expiryBalanceKey (k : StockKey) : string :=
  stringify_strings [warehouseId k; locationId k; variantId k].

Definition by_expiry (a b : StockReservation) : Z :=
  if bool_decide (r_expiresAt a = r_expiresAt b) then by_id a b else r_expiresAt a - r_expiresAt b.
Definition by_code_unit (left right : string) : Z :=
  if bool_decide (left = right) then 0 else if js_ltb left right then -1 else 1.

Definition due (now : Z) (r : StockReservation) : bool :=
  bool_decide (r_status r = ACTIVE) && (r_expiresAt r <=? now)%Z.

Definition expiry_candidates (now batchSize : Z) (db : InvDb) : list StockReservation :=
  take (Z.to_nat batchSize) (js_sort by_expiry (find_many (due now) (reservations db))).

(** The [keys] map of the candidates and the order in which it is locked. *)
Definition expiry_keys (candidates : list StockReservation) : gmap string StockKey :=
  foldl (fun keys c => <[expiryBalanceKey (r_key c) := r_key c]> keys) ∅ candidates.
Definition orderedKeys (candidates : list StockReservation) : list string :=
  js_sort by_code_unit (unique ((fun c => expiryBalanceKey (r_key c)) <$> candidates)).

(** An entry of [groups]: a balance and what expires on it. *)
Record ExpiryGroup := mkGroup { g_balance : InventoryBalance; g_quantity : Z; g_count : Z }.
Definition group_key (g : ExpiryGroup) : string := expiryBalanceKey (b_key (g_balance g)).

Definition add_to_group (key : string) (quantity : Z) (g : ExpiryGroup) : ExpiryGroup :=
  if bool_decide (group_key g = key)
  then mkGroup (g_balance g) (g_quantity g + quantity) (g_count g + 1) else g.

(** The loop of [planReservationExpiry]. *)
Fixpoint plan_rows (rows : list StockReservation) (groups : list ExpiryGroup)
    (auditEvents : list AuditEventInput) (ctx : ActorContext)
    : result (list ExpiryGroup * list AuditEventInput) :=
  match rows with
  | [] => Ok (groups, auditEvents)
  | row :: rows =>
      let key := expiryBalanceKey (r_key row) in
      match List.find (fun g => bool_decide (group_key g = key)) groups with
      | None => Err balanceInconsistent
      | Some group =>
          let reserved := (b_reserved (g_balance group) - g_quantity group)%Z in
          let available := (b_available (g_balance group) + g_quantity group)%Z in
          if (reserved <? r_quantity row)%Z then Err balanceInconsistent
          else
            plan_rows rows (add_to_group key (r_quantity row) <$> groups)
              (auditEvents ++ [mkAuditEvent "inventory.reservation.expired" "stock-reservation"
                 (Some (r_id row))
                 (Some (JObj [("reserved", JNum reserved); ("available", JNum available)]))
                 (Some (JObj [("reserved", JNum (reserved - r_quantity row));
                              ("available", JNum (available + r_quantity row))]))
                 None (ac_actorId ctx) (ac_requestId ctx)]) ctx
      end
  end.
Definition planReservationExpiry (rows : list StockReservation) (bs : list InventoryBalance)
    (ctx : ActorContext) : result (list ExpiryGroup * list AuditEventInput) :=
  plan_rows rows ((fun b => mkGroup b 0 0) <$> bs) [] ctx.

Definition update_group (g : ExpiryGroup) : M InvDb unit :=
  if bool_decide (g_count g = 0%Z) then mret tt
  else update_balance_id (b_id (g_balance g)) (give_back (g_quantity g) (g_count g)).

(** The transaction of [expireReservations] for the candidates read before it. *)
Definition expire_tx (ctx : ActorContext) (now : Z) (candidates : list StockReservation)
    : M InvDb Z :=
  let keys := expiry_keys candidates in
  for_each (orderedKeys candidates) (fun key =>
    k ← unwrap (keys !! key) (JsError "TypeError" "Cannot read properties of undefined");
    acquireBalanceLock k) ;;
  let is_candidate r := bool_decide (r_id r ∈ r_id <$> candidates) in
  current ← gets (fun db => js_sort by_expiry
    (find_many (fun r => is_candidate r && due now r) (reservations db)));
  if bool_decide (current = []) then mret 0%Z
  else
    for_each current (fun row =>
      candidate ← unwrap (List.find (fun c => bool_decide (r_id c = r_id row)) candidates)
                    (JsError "TypeError" "Cannot read properties of undefined");
      throw_if (negb (bool_decide (expiryBalanceKey (r_key row) = expiryBalanceKey (r_key candidate))))
        (reservationStateConflict "Reservation balance changed.")) ;;
    bs ← gets (fun db => find_many (fun b => bool_decide (b_key b ∈ r_key <$> candidates)) (balances db));
    plan ← lift_result (planReservationExpiry current bs ctx);
    for_each (fst plan) update_group ;;
    let expires r := bool_decide (r_id r ∈ r_id <$> current) && due now r in
    count ← gets (fun db => count_rows expires (reservations db));
    modify (fun db => set_reservations (update_many expires (set_status EXPIRED) (reservations db)) db) ;;
    throw_if (negb (bool_decide (count = Z.of_nat (length current))))
      (reservationStateConflict "Reservation state changed.") ;;
    recordMany (snd plan) ;;
    mret (Z.of_nat (length current)).

(** [expireReservations(context, options)] *)
Definition expireReservations (E : env InvDb) (ctx : ActorContext) (now : Z)
    (batchSize : option number) (db : InvDb) : result Z * InvDb :=
  match assertTracked ctx with
  | Err e => (Err e, db)
  | Ok _ =>
      let candidates := expiry_candidates now (clampInt batchSize 1 100 EXPIRY_BATCH_SIZE) db in
      if bool_decide (candidates = []) then (Ok 0%Z, db)
      else inventory_withSerializableRetry E (begin_tx (expire_tx ctx now candidates)) db
  end.
End service.
