(* ===== verification/InventoryQueries.v ===== *)
(** The read side of the inventory service and the administration of its places, in
    [src/apps/api/src/modules/inventory/inventory.service.ts]: paged listings of
    balances, movements, transfers and reservations, public availability, and the
    warehouses and their locations.

    Parameters: the database's identifiers and text order, and [scan], the order in which
    a query happens to read its rows.  The columns [createdAt] and
    [updatedAt] of places and [updatedAt] elsewhere are left out. *)

From S2P Require Import Prelude Table Paging Json AuditTrail Retry InventoryModel Inventory.

(** * Queries *)

Definition MAX_OFFSET : Z := 50000.

Record SnapshotQuery := mkSnapshotQuery {
  sq_warehouseId : option string;
  sq_locationId : option string;
  sq_variantId : option string;
  sq_limit : option number;
  sq_offset : option number
}.
Record MovementQuery := mkMovementQuery {
  mq_warehouseId : option string;
  mq_locationId : option string;
  mq_variantId : option string;
  mq_type : option InventoryMovementType;
  mq_limit : option number;
  mq_offset : option number
}.
Record TransferQuery := mkTransferQuery {
  tq_status : option TransferStatus;
  tq_sourceWarehouseId : option string;
  tq_targetWarehouseId : option string;
  tq_limit : option number;
  tq_offset : option number
}.
Record ReservationQuery := mkReservationQuery {
  rq_warehouseId : option string;
  rq_variantId : option string;
  rq_status : option ReservationStatus;
  rq_limit : option number;
  rq_offset : option number
}.
Record WarehouseQuery := mkWarehouseQuery {
  wq_isActive : option bool;
  wq_isInactive : option bool;
  wq_limit : option number;
  wq_offset : option number
}.

Definition query_limit (limit : option number) : Z := clampInt limit 1 100 50.
Definition query_offset (offset : option number) : Z := clampInt offset 0 MAX_OFFSET 0.

(** [...(query.f ? { f: query.f } : {})] *)
Definition when_text (filter : option string) (value : string) : bool :=
  match filter with Some f => negb (truthy f) || bool_decide (value = f) | None => true end.
Definition when_set {A} `{EqDecision A} (filter : option A) (value : A) : bool :=
  match filter with Some f => bool_decide (value = f) | None => true end.

(** * Data transfer objects *)

Record InventorySnapshotDto := mkSnapshotDto {
  sd_key : StockKey;
  sd_onHand : Z;
  sd_reserved : Z;
  sd_available : Z;
  sd_version : Z
}.
Record InventoryMovementDto := mkMovementDto {
  md_id : string;
  md_key : StockKey;
  md_type : InventoryMovementType;
  md_quantity : Z;
  md_beforeOnHand : Z;
  md_afterOnHand : Z;
  md_reason : option string;
  md_referenceType : option string;
  md_referenceId : option string;
  md_createdAt : Z
}.
Record TransferDto := mkTransferDto {
  td_id : string;
  td_code : string;
  td_sourceWarehouseId : string;
  td_targetWarehouseId : string;
  td_status : TransferStatus;
  td_version : Z;
  td_items : list TransferItem;
  td_createdAt : Z
}.
Record ReservationContract := mkReservationDto {
  rd_id : string;
  rd_key : StockKey;
  rd_orderId : option string;
  rd_quantity : Z;
  rd_status : ReservationStatus;
  rd_expiresAt : Z;
  rd_createdAt : Z
}.

Definition toSnapshotDto (b : InventoryBalance) : InventorySnapshotDto :=
  mkSnapshotDto (b_key b) (b_onHand b) (b_reserved b) (b_available b) (b_version b).
Definition toMovementDto (m : InventoryMovement) : InventoryMovementDto :=
  mkMovementDto (m_id m) (m_key m) (m_type m) (m_quantity m) (m_beforeOnHand m) (m_afterOnHand m) (m_reason m)
    (m_referenceType m) (m_referenceId m) (m_createdAt m).
Definition toTransferDto (t : StockTransfer) : TransferDto :=
  mkTransferDto (t_id t) (t_code t) (t_sourceWarehouseId t) (t_targetWarehouseId t) (t_status t) (t_version t)
    (t_items t) (t_createdAt t).
Definition toReservationDto (r : StockReservation) : ReservationContract :=
  mkReservationDto (r_id r) (r_key r) (r_orderId r) (r_quantity r) (r_status r) (r_expiresAt r) (r_createdAt r).
(** [toWarehouseDto] and [toLocationDto] copy every column of the row. *)
Definition toWarehouseDto (w : Warehouse) : Warehouse :=
  mkWarehouse (w_id w) (w_code w) (w_name w) (w_city w) (w_address w) (w_isActive w).
Definition toLocationDto (l : WarehouseLocation) : WarehouseLocation :=
  mkLocation (l_id l) (l_warehouseId l) (l_code l) (l_name l) (l_zone l) (l_aisle l) (l_rack l) (l_shelf l) (l_bin l)
    (l_isActive l).

(** * Listings *)

Section listings.
Context (collate : string -> string -> Z).

Definition by_stock_key (a b : InventoryBalance) : Z :=
  then_by (by_text collate (fun b => warehouseId (b_key b)))
    (then_by (by_text collate (fun b => locationId (b_key b))) (by_text collate (fun b => variantId (b_key b)))) a b.
(** [orderBy: [{ createdAt: "desc" }, { id: "asc" }]] *)
Definition newest {R} (createdAt : R -> Z) (id : R -> string) : R -> R -> Z :=
  then_by (descending (ascending createdAt)) (by_text collate id).

Definition snapshot_where (q : SnapshotQuery) (b : InventoryBalance) : bool :=
  when_text (sq_warehouseId q) (warehouseId (b_key b)) && when_text (sq_locationId q) (locationId (b_key b)) &&
  when_text (sq_variantId q) (variantId (b_key b)).

(** [getSnapshots(query)] *)
Definition getSnapshots (scan : list InventoryBalance -> list InventoryBalance) (q : SnapshotQuery) (db : InvDb) : list InventorySnapshotDto * Z :=
  let found := list_page scan by_stock_key (snapshot_where q) (query_offset (sq_offset q)) (query_limit (sq_limit q)) (balances db) in
  (toSnapshotDto <$> fst found, snd found).

Definition movement_where (q : MovementQuery) (m : InventoryMovement) : bool :=
  when_text (mq_warehouseId q) (warehouseId (m_key m)) && when_text (mq_locationId q) (locationId (m_key m)) &&
  when_text (mq_variantId q) (variantId (m_key m)) && when_set (mq_type q) (m_type m).

(** [getMovements(query)] *)
Definition getMovements (scan : list InventoryMovement -> list InventoryMovement) (q : MovementQuery) (db : InvDb) : list InventoryMovementDto * Z :=
  let found := list_page scan (newest m_createdAt m_id) (movement_where q) (query_offset (mq_offset q))
    (query_limit (mq_limit q)) (movements db) in
  (toMovementDto <$> fst found, snd found).

Definition transfer_where (q : TransferQuery) (t : StockTransfer) : bool :=
  when_set (tq_status q) (t_status t) && when_text (tq_sourceWarehouseId q) (t_sourceWarehouseId t) &&
  when_text (tq_targetWarehouseId q) (t_targetWarehouseId t).

(** [getTransfers(query)] *)
Definition getTransfers (scan : list StockTransfer -> list StockTransfer) (q : TransferQuery) (db : InvDb) : list TransferDto * Z :=
  let found := list_page scan (newest t_createdAt t_id) (transfer_where q) (query_offset (tq_offset q))
    (query_limit (tq_limit q)) (transfers db) in
  (toTransferDto <$> fst found, snd found).

(** [getTransfer(id)] *)
Definition getTransfer (id : string) (db : InvDb) : result TransferDto :=
  match transfers db !! id with
  | Some t => Ok (toTransferDto t)
  | None => Err (notFound "TRANSFER_NOT_FOUND" "Transfer not found.")
  end.

Definition reservation_where (q : ReservationQuery) (r : StockReservation) : bool :=
  when_text (rq_warehouseId q) (warehouseId (r_key r)) && when_text (rq_variantId q) (variantId (r_key r)) &&
  when_set (rq_status q) (r_status r).

(** [getReservations(query)] *)
Definition getReservations (scan : list StockReservation -> list StockReservation) (q : ReservationQuery) (db : InvDb) : list ReservationContract * Z :=
  let found := list_page scan (newest r_createdAt r_id) (reservation_where q) (query_offset (rq_offset q))
    (query_limit (rq_limit q)) (reservations db) in
  (toReservationDto <$> fst found, snd found).

(** [activeOnly || inactiveOnly ? { isActive: activeOnly } : {}] *)
Definition activity_where (q : WarehouseQuery) (isActive : bool) : bool :=
  let on := bool_decide (wq_isActive q = Some true) in
  let off := bool_decide (wq_isInactive q = Some true) in
  let activeOnly := on && negb off in
  let inactiveOnly := off && negb on in
  if activeOnly || inactiveOnly then bool_decide (isActive = activeOnly) else true.

(** [listWarehouses(query)] *)
Definition listWarehouses (scan : list Warehouse -> list Warehouse) (q : WarehouseQuery) (db : InvDb) : list Warehouse * Z :=
  let found := list_page scan (by_text collate w_code) (fun w => activity_where q (w_isActive w))
    (query_offset (wq_offset q)) (query_limit (wq_limit q)) (warehouses db) in
  (toWarehouseDto <$> fst found, snd found).

(** [listLocations(warehouseId, query)] *)
Definition listLocations (scan : list WarehouseLocation -> list WarehouseLocation) (warehouse : string) (q : WarehouseQuery) (db : InvDb) : list WarehouseLocation * Z :=
  let found := list_page scan (by_text collate l_code)
    (fun l => bool_decide (l_warehouseId l = warehouse) && activity_where q (l_isActive l))
    (query_offset (wq_offset q)) (query_limit (wq_limit q)) (locations db) in
  (toLocationDto <$> fst found, snd found).
End listings.

(** * Public availability *)

Inductive StockStatus := UNKNOWN | OUT_OF_STOCK | LOW_STOCK | IN_STOCK.
#[export] Instance StockStatus_eq_dec : EqDecision StockStatus.
Proof. solve_decision. Defined.

(** [totals.get(variantId) ?? 0] and [totals.set(variantId, n)] *)
Definition total_of (v : string) (totals : gmap string Z) : Z := default 0%Z (totals !! v).
Definition add_available (totals : gmap string Z) (b : InventoryBalance) : gmap string Z :=
  let v := variantId (b_key b) in <[v := (total_of v totals + b_available b)%Z]> totals.

Definition stock_status (available : Z) : StockStatus :=
  if (available <=? 0)%Z then OUT_OF_STOCK else if (available <=? 5)%Z then LOW_STOCK else IN_STOCK.

(** [getPublicAvailability(variantIds)]; [variants] maps a variant to whether it is ACTIVE. *)
Definition getPublicAvailability (variantIds : list string) (db : InvDb) : list (string * StockStatus) :=
  let ids := take 100 (unique variantIds) in
  if bool_decide (ids = []) then []
  else
    let active := List.filter (fun v => default false (variants db !! v)) ids in
    let found := find_many (fun b => bool_decide (variantId (b_key b) ∈ active)) (balances db) in
    let totals := foldl add_available ∅ found in
    (fun v => (v, if bool_decide (v ∈ active) then stock_status (total_of v totals) else UNKNOWN)) <$> ids.

(** * Places *)

Record WarehouseCreateCommand := mkWarehouseCreate {
  wc_context : ActorContext;
  wc_code : string;
  wc_name : string;
  wc_city : option string;
  wc_address : option string
}.
(** A field that the command does not mention is [None]. *)
Record WarehouseUpdateCommand := mkWarehouseUpdate {
  wu_context : ActorContext;
  wu_name : option string;
  wu_city : option string;
  wu_address : option string;
  wu_isActive : option bool
}.
Record LocationCreateCommand := mkLocationCreate {
  lc_context : ActorContext;
  lc_code : string;
  lc_name : option string;
  lc_zone : option string;
  lc_aisle : option string;
  lc_rack : option string;
  lc_shelf : option string;
  lc_bin : option string
}.
Record LocationUpdateCommand := mkLocationUpdate {
  lu_context : ActorContext;
  lu_name : option string;
  lu_zone : option string;
  lu_aisle : option string;
  lu_rack : option string;
  lu_shelf : option string;
  lu_bin : option string;
  lu_isActive : option bool
}.

Definition jbool (b : bool) : json := JBool b.
Definition warehouse_not_found : exn := notFound "WAREHOUSE_NOT_FOUND" "Warehouse not found.".

Section places.
Context (cuid : nat -> string).

(** The transaction of [createWarehouse]. *)
Definition createWarehouse_tx (c : WarehouseCreateCommand) : M InvDb Warehouse :=
  let normalizedCode := trim (wc_code c) in
  existing ← gets (fun db => find_by (fun w => bool_decide (w_code w = normalizedCode)) (warehouses db));
  throw_if (bool_decide (is_Some existing)) (conflictCode "WAREHOUSE_CODE_CONFLICT" "Warehouse code already exists.") ;;
  id ← fresh_id cuid;
  taken ← gets (fun db => warehouses db !! id);
  throw_if (bool_decide (is_Some taken)) P2002 ;;
  let warehouse := mkWarehouse id normalizedCode (trim (wc_name c)) (wc_city c) (wc_address c) true in
  modify (fun db => set_warehouses (<[id := warehouse]> (warehouses db)) db) ;;
  record (mkAuditEvent "inventory.warehouse.created" "warehouse" (Some id) None
    (Some (JObj [("code", JStr (w_code warehouse)); ("name", JStr (w_name warehouse))])) None
    (ac_actorId (wc_context c)) (ac_requestId (wc_context c))) ;;
  mret (toWarehouseDto warehouse).

(** [createWarehouse(command)] *)
Definition createWarehouse (E : env InvDb) (c : WarehouseCreateCommand) (db : InvDb) : result Warehouse * InvDb :=
  match (assertTracked (wc_context c) ;;
         if truthy (trim (wc_code c)) then Ok tt else Err (badRequest "Warehouse code is required.")) with
  | Err e => (Err e, db)
  | Ok _ => inventory_withSerializableRetry E (begin_tx (createWarehouse_tx c)) db
  end.

Definition update_warehouse (c : WarehouseUpdateCommand) (w : Warehouse) : Warehouse :=
  mkWarehouse (w_id w) (w_code w) (from_option trim (w_name w) (wu_name c))
    (from_option Some (w_city w) (wu_city c)) (from_option Some (w_address w) (wu_address c))
    (default (w_isActive w) (wu_isActive c)).

Definition warehouse_json (w : Warehouse) : json :=
  JObj [("name", JStr (w_name w)); ("city", jopt (w_city w)); ("address", jopt (w_address w));
        ("isActive", jbool (w_isActive w))].

(** The transaction of [updateWarehouse]. *)
Definition updateWarehouse_tx (id : string) (c : WarehouseUpdateCommand) : M InvDb Warehouse :=
  row ← gets (fun db => warehouses db !! id);
  warehouse ← unwrap row warehouse_not_found;
  let updated := update_warehouse c warehouse in
  modify (fun db => set_warehouses (<[id := updated]> (warehouses db)) db) ;;
  record (mkAuditEvent "inventory.warehouse.updated" "warehouse" (Some (w_id warehouse))
    (Some (warehouse_json warehouse)) (Some (warehouse_json updated)) None
    (ac_actorId (wu_context c)) (ac_requestId (wu_context c))) ;;
  mret (toWarehouseDto updated).

(** [updateWarehouse(id, command)] *)
Definition updateWarehouse (E : env InvDb) (id : string) (c : WarehouseUpdateCommand) (db : InvDb)
    : result Warehouse * InvDb :=
  match assertTracked (wu_context c) with
  | Err e => (Err e, db)
  | Ok _ => inventory_withSerializableRetry E (begin_tx (updateWarehouse_tx id c)) db
  end.

(** The transaction of [createLocation]. *)
Definition createLocation_tx (warehouse : string) (c : LocationCreateCommand) : M InvDb WarehouseLocation :=
  row ← gets (fun db => warehouses db !! warehouse);
  _ ← unwrap row warehouse_not_found;
  existing ← gets (fun db => find_by (fun l => bool_decide (l_warehouseId l = warehouse) &&
    bool_decide (l_code l = lc_code c)) (locations db));
  throw_if (bool_decide (is_Some existing))
    (conflictCode "LOCATION_CODE_CONFLICT" "Location code already exists in this warehouse.") ;;
  id ← fresh_id cuid;
  taken ← gets (fun db => locations db !! id);
  throw_if (bool_decide (is_Some taken)) P2002 ;;
  let location := mkLocation id warehouse (lc_code c) (lc_name c) (lc_zone c) (lc_aisle c) (lc_rack c) (lc_shelf c)
    (lc_bin c) true in
  modify (fun db => set_locations (<[id := location]> (locations db)) db) ;;
  record (mkAuditEvent "inventory.location.created" "warehouse-location" (Some id) None
    (Some (JObj [("code", JStr (l_code location)); ("warehouseId", JStr warehouse)])) None
    (ac_actorId (lc_context c)) (ac_requestId (lc_context c))) ;;
  mret (toLocationDto location).

(** [createLocation(warehouseId, command)] *)
Definition createLocation (E : env InvDb) (warehouse : string) (c : LocationCreateCommand) (db : InvDb)
    : result WarehouseLocation * InvDb :=
  match assertTracked (lc_context c) with
  | Err e => (Err e, db)
  | Ok _ => inventory_withSerializableRetry E (begin_tx (createLocation_tx warehouse c)) db
  end.

Definition update_location (c : LocationUpdateCommand) (l : WarehouseLocation) : WarehouseLocation :=
  let set (column given : option string) := from_option Some column given in
  mkLocation (l_id l) (l_warehouseId l) (l_code l) (set (l_name l) (lu_name c)) (set (l_zone l) (lu_zone c))
    (set (l_aisle l) (lu_aisle c)) (set (l_rack l) (lu_rack c)) (set (l_shelf l) (lu_shelf c)) (set (l_bin l) (lu_bin c))
    (default (l_isActive l) (lu_isActive c)).

Definition location_json (l : WarehouseLocation) : json :=
  JObj [("name", jopt (l_name l)); ("isActive", jbool (l_isActive l))].

(** The transaction of [updateLocation]. *)
Definition updateLocation_tx (id : string) (c : LocationUpdateCommand) : M InvDb WarehouseLocation :=
  row ← gets (fun db => locations db !! id);
  location ← unwrap row (notFound "LOCATION_NOT_FOUND" "Location not found.");
  let updated := update_location c location in
  modify (fun db => set_locations (<[id := updated]> (locations db)) db) ;;
  record (mkAuditEvent "inventory.location.updated" "warehouse-location" (Some (l_id location))
    (Some (location_json location)) (Some (location_json updated)) None
    (ac_actorId (lu_context c)) (ac_requestId (lu_context c))) ;;
  mret (toLocationDto updated).

(** [updateLocation(id, command)] *)
Definition updateLocation (E : env InvDb) (id : string) (c : LocationUpdateCommand) (db : InvDb)
    : result WarehouseLocation * InvDb :=
  match assertTracked (lu_context c) with
  | Err e => (Err e, db)
  | Ok _ => inventory_withSerializableRetry E (begin_tx (updateLocation_tx id c)) db
  end.
End places.
