(* ===== verification/IsoTime.v ===== *)
(** ISO 8601 timestamps as JavaScript's [Date] reads them: the texts of the pattern
    [YYYY-MM-DDTHH:MM:SS(.s{1,3})?(Z|+HH:MM|-HH:MM)] and the instant they denote in
    milliseconds since 1970; and the text [toISOString] prints. *)

From S2P Require Import Prelude.
From Stdlib Require Import Ascii.

Open Scope Z_scope.

(** * Reading digits *)

(** [\d{n}] at the front of a text, with its value. *)
Fixpoint take_digits (n : nat) (acc : Z) (cs : list ascii) : option (Z * list ascii) :=
  match n with
  | O => Some (acc, cs)
  | S n =>
      match cs with
      | c :: cs => if is_digit c then take_digits n (10 * acc + digit_value c) cs else None
      | [] => None
      end
  end.
Definition take_char (c : ascii) (cs : list ascii) : option (list ascii) :=
  match cs with d :: cs => if bool_decide (c = d) then Some cs else None | [] => None end.

(** [(?:\.\d{1,3})?], in milliseconds. *)
Definition take_fraction (cs : list ascii) : option (Z * list ascii) :=
  match cs with
  | "."%char :: cs =>
      match take_digits 3 0 cs with
      | Some (n, cs) => Some (n, cs)
      | None =>
          match take_digits 2 0 cs with
          | Some (n, cs) => Some (10 * n, cs)
          | None => '(n, cs) ← take_digits 1 0 cs; Some (100 * n, cs)
          end
      end
  | _ => Some (0, cs)
  end.

(** [(?:Z|[+-]\d\d:\d\d)$]: the sign, hours and minutes of the offset. *)
Definition take_zone (cs : list ascii) : option (Z * Z * Z) :=
  match cs with
  | ["Z"%char] => Some (1, 0, 0)
  | c :: cs =>
      sign ← (if bool_decide (c = "+"%char) then Some 1 else if bool_decide (c = "-"%char) then Some (-1) else None);
      '(h, cs) ← take_digits 2 0 cs;
      cs ← take_char ":"%char cs;
      '(m, cs) ← take_digits 2 0 cs;
      match cs with [] => Some (sign, h, m) | _ => None end
  | [] => None
  end.

Record IsoFields := mkIso {
  iso_year : Z; iso_month : Z; iso_day : Z; iso_hour : Z; iso_minute : Z; iso_second : Z; iso_ms : Z;
  iso_sign : Z; iso_zoneHour : Z; iso_zoneMinute : Z
}.

(** The pattern. *)
Definition iso_fields (text : string) : option IsoFields :=
  '(y, cs) ← take_digits 4 0 (String.list_ascii_of_string text); cs ← take_char "-"%char cs;
  '(mo, cs) ← take_digits 2 0 cs; cs ← take_char "-"%char cs;
  '(d, cs) ← take_digits 2 0 cs; cs ← take_char "T"%char cs;
  '(h, cs) ← take_digits 2 0 cs; cs ← take_char ":"%char cs;
  '(mi, cs) ← take_digits 2 0 cs; cs ← take_char ":"%char cs;
  '(s, cs) ← take_digits 2 0 cs;
  '(ms, cs) ← take_fraction cs;
  '(sign, zh, zm) ← take_zone cs;
  Some (mkIso y mo d h mi s ms sign zh zm).

(** * The calendar *)

Definition leap (y : Z) : bool := (y mod 4 =? 0) && (negb (y mod 100 =? 0) || (y mod 400 =? 0)).
Definition days_in_month (y m : Z) : Z :=
  if m =? 2 then (if leap y then 29 else 28)
  else if (m =? 4) || (m =? 6) || (m =? 9) || (m =? 11) then 30 else 31.

(** The date and time exist: what [toISOString] prints back is what was read. *)
Definition on_calendar (t : IsoFields) : bool :=
  (1 <=? iso_month t) && (iso_month t <=? 12) && (1 <=? iso_day t) &&
  (iso_day t <=? days_in_month (iso_year t) (iso_month t)) &&
  (iso_hour t <=? 23) && (iso_minute t <=? 59) && (iso_second t <=? 59).
(** The offset is one [Date] accepts. *)
Definition zone_valid (t : IsoFields) : bool := (iso_zoneHour t <=? 23) && (iso_zoneMinute t <=? 59).

(** Days before the first of January of year [y], and before month [m] of the year. *)
Definition days_before_year (y : Z) : Z := 365 * y + (y + 3) / 4 - (y + 99) / 100 + (y + 399) / 400.
Definition days_before_month (y m : Z) : Z :=
  sumZ (days_in_month y) (seqZ 1 (m - 1)).
Definition day_number (y m d : Z) : Z := days_before_year y + days_before_month y m + (d - 1) - days_before_year 1970.

(** [getTime()] *)
Definition iso_instant (t : IsoFields) : Z :=
  (((day_number (iso_year t) (iso_month t) (iso_day t) * 24 + iso_hour t) * 60 + iso_minute t) * 60 + iso_second t) * 1000
    + iso_ms t - iso_sign t * (iso_zoneHour t * 60 + iso_zoneMinute t) * 60000.

(** * Printing *)

(** The [w] last decimal digits of a number. *)
Fixpoint padded (w : nat) (n : Z) : string :=
  match w with
  | O => ""
  | S w => padded w (n / 10) +:+ String (pretty_N_char (Z.to_N (n mod 10))) ""
  end.

(** The year that contains day [d], counted from the first of January of year 0. *)
Definition year_of (d : Z) : Z :=
  let y := d * 400 / 146097 in
  if days_before_year (y + 1) <=? d then y + 1 else if d <? days_before_year y then y - 1 else y.
(** The month that contains day [d] of year [y], counted from 0. *)
Definition month_of (y d : Z) : Z :=
  Z.of_nat (length (List.filter (fun m => days_before_month y m <=? d) (seqZ 1 12))).

(** [toISOString()]; years beyond 9999 and before 0 are printed with a sign and six digits. *)
Definition print_year (y : Z) : string :=
  if (0 <=? y) && (y <=? 9999) then padded 4 y else if y <? 0 then "-" +:+ padded 6 (- y) else "+" +:+ padded 6 y.
Definition toISOString (t : Z) : string :=
  let s := t / 1000 in
  let day := s / 86400 + days_before_year 1970 in
  let y := year_of day in
  let d := day - days_before_year y in
  let mo := month_of y d in
  print_year y +:+ "-" +:+ padded 2 mo +:+ "-" +:+ padded 2 (d - days_before_month y mo + 1) +:+ "T" +:+
  padded 2 (s / 3600 mod 24) +:+ ":" +:+ padded 2 (s / 60 mod 60) +:+ ":" +:+ padded 2 (s mod 60) +:+ "." +:+
  padded 3 (t mod 1000) +:+ "Z".

(** Years start in order, and the estimate of [year_of] is off by at most one. *)
Lemma days_before_year_next y : 365 <= days_before_year (y + 1) - days_before_year y <= 366.
Proof. unfold days_before_year. Z.to_euclidean_division_equations; lia. Qed.
Lemma days_before_year_bounds y :
  146097 * y - 400 <= 400 * days_before_year y <= 146097 * y + 600.
Proof. unfold days_before_year. Z.to_euclidean_division_equations; lia. Qed.

(** The year found is the one that contains the day. *)
Lemma year_of_spec d : days_before_year (year_of d) <= d < days_before_year (year_of d + 1).
Proof.
  unfold year_of. set (y := d * 400 / 146097).
  assert (146097 * y <= 400 * d < 146097 * (y + 1)) by (subst y; Z.to_euclidean_division_equations; lia).
  pose proof (days_before_year_bounds (y - 1)). pose proof (days_before_year_bounds (y + 1 + 1)).
  destruct (Z.leb_spec (days_before_year (y + 1)) d); [lia|].
  destruct (Z.ltb_spec d (days_before_year y)); [|lia].
  replace (y - 1 + 1) with y by lia. lia.
Qed.

(** * Checks *)

Example print_epoch : toISOString 0 = "1970-01-01T00:00:00.000Z".
Proof. vm_compute. reflexivity. Qed.
Example print_leap_day : toISOString 1709238599500 = "2024-02-29T20:29:59.500Z".
Proof. vm_compute. reflexivity. Qed.
Example print_before_epoch : toISOString (-1) = "1969-12-31T23:59:59.999Z".
Proof. vm_compute. reflexivity. Qed.
Example print_year_end : toISOString 253402300800000 = "+010000-01-01T00:00:00.000Z".
Proof. vm_compute. reflexivity. Qed.
Example print_read : iso_instant <$> iso_fields (toISOString 951868799999) = Some 951868799999.
Proof. vm_compute. reflexivity. Qed.

Example iso_epoch : iso_instant <$> iso_fields "1970-01-01T00:00:00Z" = Some 0.
Proof. vm_compute. reflexivity. Qed.
Example iso_leap_day : iso_instant <$> iso_fields "2024-02-29T23:59:59.5+03:30" = Some 1709238599500.
Proof. vm_compute. reflexivity. Qed.
Example iso_year_2000 : iso_instant <$> iso_fields "2000-03-01T00:00:00.000-00:00" = Some 951868800000.
Proof. vm_compute. reflexivity. Qed.
Example iso_no_leap_day : on_calendar <$> iso_fields "2023-02-29T00:00:00Z" = Some false.
Proof. vm_compute. reflexivity. Qed.
Example iso_local : iso_fields "2023-02-28T00:00:00" = None.
Proof. vm_compute. reflexivity. Qed.
