(* ===== verification/Durable.v ===== *)
(** Durable commands: the [command] method that the purchasing and the stocktake
    service share line by line.  A command runs in one transaction together with a
    record of its key and payload digests and of its response; a repeated key
    answers from the record.  The digest is a parameter.

    The state of such a service is a [Store]: the inventory tables, the service's own
    tables, and its command records. *)

From S2P Require Import Prelude Table Json StableJson AuditTrail Retry InventoryModel Inventory.

(** * State *)

(** A row of [StocktakeCommandRecord] or [PurchaseOrderCommandRecord]. *)
Record CommandRecord (R : Type) := mkCommandRecord {
  cr_id : string;
  cr_actorId : string;
  cr_scope : string;
  cr_keyHash : string;
  cr_payloadHash : string;
  cr_response : option R
}.
Arguments mkCommandRecord {_} _ _ _ _ _ _.
Arguments cr_id {_} _. Arguments cr_actorId {_} _. Arguments cr_scope {_} _.
Arguments cr_keyHash {_} _. Arguments cr_payloadHash {_} _. Arguments cr_response {_} _.

Record Domain (X : Type) := mkDomain { inv_of : InvDb; own : X }.
Arguments mkDomain {_} _ _. Arguments inv_of {_} _. Arguments own {_} _.

Record Store (X R : Type) := mkStore { domain : Domain X; records : gmap string (CommandRecord R) }.
Arguments mkStore {_ _} _ _. Arguments domain {_ _} _. Arguments records {_ _} _.

#[export] Instance domain_inv {X} : Lens (Domain X) InvDb :=
  {| view := inv_of; put := fun d s => mkDomain d (own s) |}.
#[export] Instance domain_own {X} : Lens (Domain X) X :=
  {| view := own; put := fun x s => mkDomain (inv_of s) x |}.
#[export] Instance store_domain {X R} : Lens (Store X R) (Domain X) :=
  {| view := domain; put := fun d s => mkStore d (records s) |}.

Definition on_inv {X A} (m : M InvDb A) : M (Domain X) A := zoom m.
Definition on_own {X A} (m : M X A) : M (Domain X) A := zoom m.
Definition on_domain {X R A} (m : M (Domain X) A) : M (Store X R) A := zoom m.

(** [SELECT pg_advisory_xact_lock(...advisoryLockIdKey(...parts))] *)
Definition lock_in {X} (parts : list string) : M (Domain X) unit := on_inv (advisory_lock parts).

#[export] Instance domain_audit {X} : Lens (Domain X) AuditTable :=
  {| view := fun s => audits (inv_of s); put := fun a s => mkDomain (set_audits a (inv_of s)) (own s) |}.

(** * Keys *)

(** [/^[A-Za-z0-9_-]{8,96}$/u] *)
Definition key_char (c : Ascii.ascii) : bool :=
  let n := Ascii.N_of_ascii c in
  ((48 <=? n) && (n <=? 57) || (65 <=? n) && (n <=? 90) || (97 <=? n) && (n <=? 122) ||
   (n =? 95) || (n =? 45))%N.
Definition keyPattern (key : string) : bool :=
  let cs := String.list_ascii_of_string key in
  forallb key_char cs && (8 <=? length cs)%nat && (length cs <=? 96)%nat.

(** What identifies a command, and its payload. *)
Record CommandId := mkCommandId {
  ci_actorId : string;
  ci_scope : string;
  ci_keyHash : string;
  ci_payloadHash : string
}.

(** The texts in which the services differ. *)
Record CommandTexts := mkTexts {
  ct_lock : string;
  ct_badKey : exn;
  ct_reused : exn;
  ct_committing : exn;
  ct_contention : exn
}.

Definition stillCommitting : exn :=
  HttpException ConflictException (Some "CONFLICT") "Command is still committing.".

Section durable.
Context {X R : Type} (cuid : nat -> string).

Definition same_command (c : CommandId) (r : CommandRecord R) : bool :=
  bool_decide (cr_actorId r = ci_actorId c) && bool_decide (cr_scope r = ci_scope c) &&
  bool_decide (cr_keyHash r = ci_keyHash c).

Definition find_record (c : CommandId) (s : Store X R) : option (CommandRecord R) :=
  find_by (same_command c) (records s).

Definition set_records (t : gmap string (CommandRecord R)) (s : Store X R) : Store X R :=
  mkStore (domain s) t.

(** [commandRecord.create({ data: { ...key, payloadHash } })] *)
Definition create_record (c : CommandId) : M (Store X R) string :=
  id ← on_domain (on_inv (fresh_id cuid));
  taken ← gets (fun s => records s !! id);
  throw_if (bool_decide (is_Some taken)) P2002 ;;
  modify (fun s => set_records
    (<[id := mkCommandRecord id (ci_actorId c) (ci_scope c) (ci_keyHash c) (ci_payloadHash c) None]> (records s)) s) ;;
  mret id.

(** [commandRecord.update({ where: { id }, data: { response } })] *)
Definition record_response (id : string) (response : R) : M (Store X R) unit :=
  row ← gets (fun s => records s !! id);
  r ← unwrap row P2025;
  modify (fun s => set_records
    (<[id := mkCommandRecord (cr_id r) (cr_actorId r) (cr_scope r) (cr_keyHash r) (cr_payloadHash r) (Some response)]>
       (records s)) s).

(** The transaction of [command] once it holds its locks. *)
Definition recorded {T} (texts : CommandTexts) (c : CommandId) (execute : M (Domain X) T)
    (project : T -> M (Domain X) R) (authorized : R -> R) : M (Store X R) R :=
  prior ← gets (find_record c);
  match prior with
  | Some prior =>
      throw_if (negb (bool_decide (cr_payloadHash prior = ci_payloadHash c))) (ct_reused texts) ;;
      response ← unwrap (cr_response prior) (ct_committing texts);
      mret (authorized response)
  | None =>
      id ← create_record c;
      result ← on_domain execute;
      response ← on_domain (project result);
      record_response id response ;;
      mret (authorized response)
  end.

(** The transaction of [command]. *)
Definition command_tx {T} (texts : CommandTexts) (c : CommandId) (execute : M (Domain X) T)
    (project : T -> M (Domain X) R) (authorized : R -> R) : M (Store X R) R :=
  on_domain (lock_in [ct_lock texts; ci_actorId c; ci_scope c; ci_keyHash c]) ;;
  recorded texts c execute project authorized.

(** Only [P2034] is retried. *)
Definition isWriteConflict (e : exn) : bool :=
  match e with PrismaClientKnownRequestError code _ => bool_decide (code = "P2034") | _ => false end.

Definition begin_store {A} (m : M (Store X R) A) : M (Store X R) A :=
  on_domain (on_inv (modify (set_locks []))) ;; m.

(** The loop of three attempts. *)
Definition command_loop (E : env (Store X R)) (texts : CommandTexts) (m : M (Store X R) R) (s : Store X R)
    : result R * Store X R :=
  retry_loop E isWriteConflict (ct_contention texts) (begin_store m) 3 1 s.
End durable.
