(* ===== verification/PromotionClaims.v ===== *)
(** Promotions at work: [src/apps/api/src/modules/promotions/promotions.service.ts].  The
    price of a set of lines under the automatic promotions and a coupon, and the capacity
    of a promotion from its reservation at checkout over confirmation by a verified
    payment to its return by cancellation, expiry or a full refund.

    Parameters: [fold] is [value.normalize('NFKC').toUpperCase()], [prior_orders] counts the
    orders of a customer. *)

From S2P Require Import Prelude Table Json AuditTrail InventoryModel Inventory Durable PromotionEngine.

(** * Data *)

Inductive PromotionMode := MODE_COUPON | MODE_AUTOMATIC.
Inductive PromotionRedemptionStatus := RED_RESERVED | RED_CONFIRMED | RED_RELEASED | RED_REFUNDED.
#[export] Instance PromotionMode_eq_dec : EqDecision PromotionMode.
Proof. solve_decision. Defined.
#[export] Instance PromotionRedemptionStatus_eq_dec : EqDecision PromotionRedemptionStatus.
Proof. solve_decision. Defined.
#[export] Instance EngineKind_eq_dec : EqDecision EngineKind.
Proof. solve_decision. Defined.

Record Promotion := mkPromotionRow {
  pm_id : string;
  pm_name : string;
  pm_kind : EngineKind;
  pm_mode : PromotionMode;
  pm_percentBp : option Z;
  pm_amount : option Z;
  pm_maxDiscount : option Z;
  pm_minOrder : option Z;
  pm_maxOrder : option Z;
  pm_startsAt : option Z;
  pm_endsAt : option Z;
  pm_isActive : bool;
  pm_maxRedemptions : option Z;
  pm_perCustomerLimit : option Z;
  pm_firstPurchaseOnly : bool;
  pm_customerId : option string;
  pm_stackable : bool;
  pm_priority : Z;
  pm_usedCount : Z;
  pm_version : Z;
  pm_targets : list EngineTarget
}.
Record Coupon := mkCoupon {
  cn_id : string;
  cn_promotionId : string;
  cn_code : string;
  cn_isActive : bool;
  cn_maxRedemptions : option Z;
  cn_usedCount : Z;
  cn_customerId : option string
}.
Record PromotionRedemption := mkRedemption {
  re_id : string;
  re_promotionId : string;
  re_couponId : option string;
  re_orderId : string;
  re_customerId : string;
  re_status : PromotionRedemptionStatus;
  re_discountAmount : Z;
  re_shippingDiscount : Z;
  re_refundedDiscount : Z;
  re_snapshot : json;
  re_releaseReason : option string;
  re_confirmedAt : option Z;
  re_releasedAt : option Z
}.
(** [categories] maps a category to its [parentId]. *)
Record PromoTables := mkPromoTables {
  promotions : gmap string Promotion;
  coupons : gmap string Coupon;
  redemptions : gmap string PromotionRedemption;
  categories : gmap string (option string)
}.
Definition set_promotions x (t : PromoTables) : PromoTables := mkPromoTables x (coupons t) (redemptions t) (categories t).
Definition set_coupons x (t : PromoTables) : PromoTables := mkPromoTables (promotions t) x (redemptions t) (categories t).
Definition set_redemptions x (t : PromoTables) : PromoTables := mkPromoTables (promotions t) (coupons t) x (categories t).

Record PricingLine := mkPricingLine {
  pl_variantId : string;
  pl_productId : string;
  pl_categoryId : option string;
  pl_brandId : option string;
  pl_unitPrice : Z;
  pl_quantity : Z
}.
Inductive CouponErrorCode :=
  | COUPON_NOT_FOUND | COUPON_INACTIVE | COUPON_NOT_STARTED | COUPON_EXPIRED | COUPON_EXHAUSTED
  | COUPON_CUSTOMER_LIMIT | COUPON_NOT_ELIGIBLE | COUPON_NOT_APPLICABLE.
Record PricingOutcome := mkOutcome {
  po_result : EngineResult;
  po_couponCode : option string;
  po_couponError : option CouponErrorCode;
  po_subtotal : Z
}.

Definition coupon_code_str (c : CouponErrorCode) : string :=
  match c with
  | COUPON_NOT_FOUND => "COUPON_NOT_FOUND" | COUPON_INACTIVE => "COUPON_INACTIVE"
  | COUPON_NOT_STARTED => "COUPON_NOT_STARTED" | COUPON_EXPIRED => "COUPON_EXPIRED"
  | COUPON_EXHAUSTED => "COUPON_EXHAUSTED" | COUPON_CUSTOMER_LIMIT => "COUPON_CUSTOMER_LIMIT"
  | COUPON_NOT_ELIGIBLE => "COUPON_NOT_ELIGIBLE" | COUPON_NOT_APPLICABLE => "COUPON_NOT_APPLICABLE"
  end.
(** [new CouponRejection(code)]; its message is the Persian text of the code. *)
Definition CouponRejection (c : CouponErrorCode) : exn := JsError "CouponRejection" (coupon_code_str c).

(** * Pricing *)

(** [toEngine(p, couponId)] *)
Definition toEngine (p : Promotion) (couponId : option string) : EnginePromotion :=
  mkPromotion (pm_id p) couponId (pm_name p) (pm_kind p) (pm_percentBp p) (pm_amount p) (pm_maxDiscount p) (pm_minOrder p)
    (pm_maxOrder p) (pm_stackable p) (pm_priority p) (pm_targets p).

(** [chain] up the category tree; it stops at the root and before a category it holds already. *)
Fixpoint ancestors (fuel : nat) (cats : gmap string (option string)) (chain : list string) (id : option string) : list string :=
  match fuel, id with
  | S fuel, Some id =>
      if truthy id && negb (bool_decide (id ∈ chain))
      then ancestors fuel cats (chain ++ [id]) (match cats !! id with Some parent => parent | None => None end) else chain
  | _, _ => chain
  end.
(** [categoryAncestry(db).get(id)]: one step for every category, one for a parent that is
    no category and one to stop. *)
Definition categoryAncestry (cats : gmap string (option string)) (id : string) : option (list string) :=
  match cats !! id with Some _ => Some (ancestors (size cats + 2) cats [] (Some id)) | None => None end.
(** [l.categoryId ? (ancestry.get(l.categoryId) ?? [l.categoryId]) : \[\]] *)
Definition line_categories (cats : gmap string (option string)) (l : PricingLine) : list string :=
  match pl_categoryId l with
  | Some id => if truthy id then default [id] (categoryAncestry cats id) else []
  | None => []
  end.
Definition engine_line (cats : gmap string (option string)) (l : PricingLine) : EngineLine :=
  mkLine (pl_variantId l) (pl_productId l) (line_categories cats l) (pl_brandId l) (pl_unitPrice l) (pl_quantity l).

Definition started (now : Z) (p : Promotion) : bool := match pm_startsAt p with Some s => (s <=? now)%Z | None => true end.
Definition unexpired (now : Z) (p : Promotion) : bool := match pm_endsAt p with Some e => (now <? e)%Z | None => true end.
Definition in_window (now : Z) (p : Promotion) : bool := pm_isActive p && started now p && unexpired now p.
Definition exhausted (max : option Z) (used : Z) : bool := match max with Some m => (m <=? used)%Z | None => false end.
(** [x === null || x === y] *)
Definition null_or (x : option string) (y : string) : bool := match x with Some x => bool_decide (x = y) | None => true end.
(** [x && x !== y] *)
Definition other_than (x : option string) (y : string) : bool := match x with Some x => truthy x && negb (bool_decide (x = y)) | None => false end.

Definition counted (r : PromotionRedemption) : bool := bool_decide (re_status r ∈ [RED_RESERVED; RED_CONFIRMED]).
(** [{ orderId: { not: excludeOrderId } }] when there is one. *)
Definition not_excluded (excludeOrderId : option string) (orderId : string) : bool :=
  match excludeOrderId with Some x => negb (truthy x) || negb (bool_decide (orderId = x)) | None => true end.
Definition customerUsage (t : PromoTables) (promotionId customerId : string) (excludeOrderId : option string) : Z :=
  count_rows (fun r => bool_decide (re_promotionId r = promotionId) && bool_decide (re_customerId r = customerId) && counted r &&
    not_excluded excludeOrderId (re_orderId r)) (redemptions t).

(** [normalizeCouponCode(raw)]: [\p{Cf}] below 256 is the soft hyphen; the digits it
    replaces first are above. *)
Definition dropped_char (c : Ascii.ascii) : bool :=
  let n := Ascii.N_of_ascii c in is_space c || ((n =? 173) || (n =? 45) || (n =? 95))%N.
Definition normalizeCouponCode (fold : string -> string) (raw : string) : string :=
  String.string_of_list_ascii (List.filter (fun c => negb (dropped_char c)) (String.list_ascii_of_string (fold raw))).

Record PriceInput := mkPriceInput {
  pi_customerId : string;
  pi_lines : list PricingLine;
  pi_shipping : Z;
  pi_couponCode : option string;
  pi_now : Z;
  pi_shippingKnown : bool;
  pi_excludeOrderId : option string
}.

Section pricing.
Context (fold : string -> string) (prior_orders : string -> option string -> Z).

Definition isFirstPurchase (customerId : string) (excludeOrderId : option string) : bool :=
  bool_decide (prior_orders customerId excludeOrderId = 0%Z).

(** [usable(db, p, customerId, excludeOrderId)] *)
Definition usable (t : PromoTables) (p : Promotion) (customerId : string) (excludeOrderId : option string) : bool :=
  if exhausted (pm_maxRedemptions p) (pm_usedCount p) then false
  else if exhausted (pm_perCustomerLimit p) (customerUsage t (pm_id p) customerId excludeOrderId) then false
  else negb (pm_firstPurchaseOnly p && negb (isFirstPurchase customerId excludeOrderId)).

Definition automatic (now : Z) (customerId : string) (p : Promotion) : bool :=
  in_window now p && bool_decide (pm_mode p = MODE_AUTOMATIC) && null_or (pm_customerId p) customerId.

(** The checks of a coupon code, up to the trial pricing. *)
Definition check_coupon (t : PromoTables) (input : PriceInput) (lines : list EngineLine) (code : string)
    : CouponErrorCode + EnginePromotion :=
  match find_by (fun c => bool_decide (cn_code c = code)) (coupons t) with
  | None => inl COUPON_NOT_FOUND
  | Some coupon =>
      match promotions t !! cn_promotionId coupon with
      | None => inl COUPON_NOT_FOUND
      | Some p =>
          if negb (bool_decide (pm_mode p = MODE_COUPON)) then inl COUPON_NOT_FOUND
          else if negb (cn_isActive coupon) || negb (pm_isActive p) then inl COUPON_INACTIVE
          else if negb (started (pi_now input) p) then inl COUPON_NOT_STARTED
          else if negb (unexpired (pi_now input) p) then inl COUPON_EXPIRED
          else if other_than (cn_customerId coupon) (pi_customerId input) || other_than (pm_customerId p) (pi_customerId input)
          then inl COUPON_NOT_ELIGIBLE
          else if exhausted (cn_maxRedemptions coupon) (cn_usedCount coupon) || exhausted (pm_maxRedemptions p) (pm_usedCount p)
          then inl COUPON_EXHAUSTED
          else if exhausted (pm_perCustomerLimit p) (customerUsage t (pm_id p) (pi_customerId input) (pi_excludeOrderId input))
          then inl COUPON_CUSTOMER_LIMIT
          else if pm_firstPurchaseOnly p && negb (isFirstPurchase (pi_customerId input) (pi_excludeOrderId input))
          then inl COUPON_NOT_ELIGIBLE
          else
            let probe := evaluatePromotions lines (pi_shipping input) [toEngine p (Some (cn_id coupon))] in
            let deferred := negb (pi_shippingKnown input) && bool_decide (pm_kind p = FREE_SHIPPING) in
            if bool_decide (er_totalDiscount probe = 0%Z) && negb deferred then inl COUPON_NOT_APPLICABLE
            else inr (toEngine p (Some (cn_id coupon)))
      end
  end.

Definition no_result : EngineResult := mkResult [] 0 0 0.

Definition automatic_candidates (t : PromoTables) (input : PriceInput) : list EnginePromotion :=
  (fun p => toEngine p None) <$>
    List.filter (fun p => usable t p (pi_customerId input) (pi_excludeOrderId input))
      (find_many (automatic (pi_now input) (pi_customerId input)) (promotions t)).

(** [price(db, input)] *)
Definition price (t : PromoTables) (input : PriceInput) : PricingOutcome :=
  let subtotal := sumZ (fun l => pl_unitPrice l * pl_quantity l)%Z (pi_lines input) in
  match pi_lines input with
  | [] => mkOutcome no_result None None subtotal
  | _ =>
      let lines := engine_line (categories t) <$> pi_lines input in
      let autos := automatic_candidates t input in
      let code := match pi_couponCode input with Some raw => if truthy raw then Some (normalizeCouponCode fold raw) else None | None => None end in
      let checked := check_coupon t input lines <$> code in
      let candidates := autos ++ match checked with Some (inr c) => [c] | _ => [] end in
      let result := evaluatePromotions lines (pi_shipping input) candidates in
      let deferredCoupon := negb (pi_shippingKnown input) && bool_decide (er_applied result = []) &&
        existsb (fun c => truthy_opt (ep_couponId c) && bool_decide (ep_kind c = FREE_SHIPPING)) candidates in
      let rejected := match checked with Some (inl e) => Some e | _ => None end in
      let unapplied := truthy_opt code && bool_decide (rejected = None) && negb deferredCoupon &&
        negb (existsb (fun a => truthy_opt (ap_couponId a)) (er_applied result)) in
      mkOutcome result code (if unapplied then Some COUPON_NOT_APPLICABLE else rejected) subtotal
  end.

(** [cartView(outcome)] *)
Definition cartView (o : PricingOutcome) : list (string * Z * Z) * Z * Z :=
  ((fun a => (ap_promotionId a, ap_itemDiscount a, ap_shippingDiscount a)) <$> er_applied (po_result o),
   er_itemDiscount (po_result o), (po_subtotal o - er_itemDiscount (po_result o))%Z).
End pricing.

(** * Capacity *)

Definition with_used (n : Z) (p : Promotion) : Promotion :=
  mkPromotionRow (pm_id p) (pm_name p) (pm_kind p) (pm_mode p) (pm_percentBp p) (pm_amount p) (pm_maxDiscount p) (pm_minOrder p)
    (pm_maxOrder p) (pm_startsAt p) (pm_endsAt p) (pm_isActive p) (pm_maxRedemptions p) (pm_perCustomerLimit p)
    (pm_firstPurchaseOnly p) (pm_customerId p) (pm_stackable p) (pm_priority p) n (pm_version p) (pm_targets p).
Definition with_coupon_used (n : Z) (c : Coupon) : Coupon :=
  mkCoupon (cn_id c) (cn_promotionId c) (cn_code c) (cn_isActive c) (cn_maxRedemptions c) n (cn_customerId c).

Definition with_red_status (s : PromotionRedemptionStatus) (refunded : Z) (reason : option string)
    (confirmedAt releasedAt : option Z) (r : PromotionRedemption) : PromotionRedemption :=
  mkRedemption (re_id r) (re_promotionId r) (re_couponId r) (re_orderId r) (re_customerId r) s (re_discountAmount r)
    (re_shippingDiscount r) refunded (re_snapshot r) reason confirmedAt releasedAt.

(** The immutable terms written with a redemption. *)
Definition kind_str (k : EngineKind) : string :=
  match k with PERCENTAGE => "PERCENTAGE" | FIXED_CART => "FIXED_CART" | FIXED_ITEM => "FIXED_ITEM" | FREE_SHIPPING => "FREE_SHIPPING" end.
Definition jnum (n : option Z) : json := match n with Some n => JNum n | None => JNull end.
Definition jamount (n : option Z) : json := match n with Some n => JStr (pretty n) | None => JNull end.
Definition redemption_snapshot (p : Promotion) (a : AppliedPromotion) : json :=
  JObj [("name", JStr (ap_name a)); ("kind", JStr (kind_str (ap_kind a))); ("percentBp", jnum (pm_percentBp p));
        ("amount", jamount (pm_amount p)); ("maxDiscount", jamount (pm_maxDiscount p)); ("promotionVersion", JNum (pm_version p));
        ("itemDiscount", JStr (pretty (ap_itemDiscount a))); ("shippingDiscount", JStr (pretty (ap_shippingDiscount a)));
        ("allocations", JArr ((fun l => JObj [("variantId", JStr (la_variantId l)); ("amount", JStr (pretty (la_amount l)))]) <$> ap_allocations a))].

(** [releaseReason] holds 64 characters. *)
Definition short_reason (reason : string) : string := String.substring 0 64 reason.

(** A column that overflows in a raw statement. *)
Definition numeric_overflow : exn := PrismaClientKnownRequestError "P2010" (Some "22003").

Section capacity.
Context (cuid : nat -> string).
Notation PM := (M (Domain PromoTables)).

(** [UPDATE "Promotion" SET "usedCount" = "usedCount" + 1 WHERE "id" = ... AND "isActive" AND
    ("maxRedemptions" IS NULL OR "usedCount" < "maxRedemptions")]: the number of rows changed. *)
Definition claim_promotion (id : string) : PM Z :=
  row ← gets (fun d => promotions (own d) !! id);
  match row with
  | Some p =>
      if pm_isActive p && negb (exhausted (pm_maxRedemptions p) (pm_usedCount p)) then
        throw_if (negb (int4 (pm_usedCount p + 1))) numeric_overflow ;;
        on_own (modify (fun t => set_promotions (<[id := with_used (pm_usedCount p + 1) p]> (promotions t)) t)) ;;
        mret 1%Z
      else mret 0%Z
  | None => mret 0%Z
  end.
Definition claim_coupon (id : string) : PM Z :=
  row ← gets (fun d => coupons (own d) !! id);
  match row with
  | Some c =>
      if cn_isActive c && negb (exhausted (cn_maxRedemptions c) (cn_usedCount c)) then
        throw_if (negb (int4 (cn_usedCount c + 1))) numeric_overflow ;;
        on_own (modify (fun t => set_coupons (<[id := with_coupon_used (cn_usedCount c + 1) c]> (coupons t)) t)) ;;
        mret 1%Z
      else mret 0%Z
  | None => mret 0%Z
  end.

(** [promotionRedemption.create], with its check and its unique index on promotion and order. *)
Definition create_redemption (p : Promotion) (a : AppliedPromotion) (orderId customerId : string) : PM unit :=
  id ← on_inv (fresh_id cuid);
  taken ← gets (fun d => redemptions (own d) !! id);
  dup ← gets (fun d => find_by (fun r => bool_decide (re_promotionId r = ap_promotionId a) && bool_decide (re_orderId r = orderId))
    (redemptions (own d)));
  let discount := (ap_itemDiscount a + ap_shippingDiscount a)%Z in
  throw_if (negb ((0 <=? discount) && (0 <=? ap_shippingDiscount a) && (ap_shippingDiscount a <=? discount))%Z) check_violation ;;
  throw_if (bool_decide (is_Some taken) || bool_decide (is_Some dup)) P2002 ;;
  on_own (modify (fun t => set_redemptions (<[id := mkRedemption id (ap_promotionId a) (ap_couponId a) orderId customerId RED_RESERVED
    discount (ap_shippingDiscount a) 0 (redemption_snapshot p a) None None None]>
    (redemptions t)) t)).

(** One applied promotion of [reserve]. *)
Definition reserve_one (orderId customerId : string) (a : AppliedPromotion) : PM unit :=
  row ← gets (fun d => promotions (own d) !! ap_promotionId a);
  promotion ← unwrap row P2025;
  throw_if (negb (pm_isActive promotion)) (CouponRejection COUPON_INACTIVE) ;;
  t ← gets own;
  throw_if (exhausted (pm_perCustomerLimit promotion) (customerUsage t (pm_id promotion) customerId None))
    (CouponRejection COUPON_CUSTOMER_LIMIT) ;;
  claimed ← claim_promotion (ap_promotionId a);
  throw_if (negb (bool_decide (claimed = 1%Z))) (CouponRejection COUPON_EXHAUSTED) ;;
  (match ap_couponId a with
   | Some id =>
       if truthy id then
         coupon ← claim_coupon id;
         throw_if (negb (bool_decide (coupon = 1%Z))) (CouponRejection COUPON_EXHAUSTED)
       else mret tt
   | None => mret tt
   end) ;;
  create_redemption promotion a orderId customerId.
(** [reserve(tx, { orderId, customerId, result, now })] *)
Definition reserve (orderId customerId : string) (result : EngineResult) : PM unit :=
  for_each (er_applied result) (reserve_one orderId customerId).

(** [confirmForOrder(tx, orderId, now)] *)
Definition of_order_in (orderId : string) (s : PromotionRedemptionStatus) (r : PromotionRedemption) : bool :=
  bool_decide (re_orderId r = orderId) && bool_decide (re_status r = s).
Definition confirmForOrder (orderId : string) (now : Z) : PM Z :=
  t ← gets own;
  on_own (modify (fun t => set_redemptions (update_many (of_order_in orderId RED_RESERVED)
    (fun r => with_red_status RED_CONFIRMED (re_refundedDiscount r) (re_releaseReason r) (Some now) (re_releasedAt r) r)
    (redemptions t)) t)) ;;
  mret (count_rows (of_order_in orderId RED_RESERVED) (redemptions t)).

(** [returnCapacity(tx, promotionId, couponId)] *)
Definition return_promotion (id : string) : PM unit :=
  on_own (modify (fun t => match promotions t !! id with
    | Some p => if (0 <? pm_usedCount p)%Z then set_promotions (<[id := with_used (pm_usedCount p - 1) p]> (promotions t)) t else t
    | None => t end)).
Definition return_coupon (id : string) : PM unit :=
  on_own (modify (fun t => match coupons t !! id with
    | Some c => if (0 <? cn_usedCount c)%Z then set_coupons (<[id := with_coupon_used (cn_usedCount c - 1) c]> (coupons t)) t else t
    | None => t end)).
Definition returnCapacity (promotionId : string) (couponId : option string) : PM unit :=
  return_promotion promotionId ;;
  match couponId with Some id => if truthy id then return_coupon id else mret tt | None => mret tt end.

(** [promotionRedemption.updateMany({ where: { id, status }, data })]: the number of rows changed. *)
Definition flip (id : string) (from : PromotionRedemptionStatus) (f : PromotionRedemption -> PromotionRedemption) : PM Z :=
  row ← gets (fun d => redemptions (own d) !! id);
  match row with
  | Some r =>
      if bool_decide (re_status r = from) then
        on_own (modify (fun t => set_redemptions (<[id := f r]> (redemptions t)) t)) ;; mret 1%Z
      else mret 0%Z
  | None => mret 0%Z
  end.

(** [releaseForOrder(tx, orderId, reason, now)] *)
Definition release_one (now : Z) (reason : string) (row : PromotionRedemption) : PM Z :=
  flipped ← flip (re_id row) RED_RESERVED
    (fun r => with_red_status RED_RELEASED (re_refundedDiscount r) (Some (short_reason reason)) (re_confirmedAt r) (Some now) r);
  if negb (bool_decide (flipped = 1%Z)) then mret 0%Z
  else returnCapacity (re_promotionId row) (re_couponId row) ;; mret 1%Z.
Definition releaseForOrder (orderId reason : string) (now : Z) : PM Z :=
  rows ← gets (fun d => find_many (of_order_in orderId RED_RESERVED) (redemptions (own d)));
  sum_each rows (release_one now reason).

(** [applyRefund(tx, orderId, { paidTotal, refundedTotal })] at the time [now]; [bigint]
    division truncates. *)
Definition refund_one (now paidTotal refundedTotal : Z) (row : PromotionRedemption) : PM unit :=
  let full := (paidTotal <=? refundedTotal)%Z in
  if bool_decide (re_status row = RED_REFUNDED) then mret tt
  else
    let share := if full then re_discountAmount row else Z.quot (re_discountAmount row * refundedTotal) paidTotal in
    if (share <? re_refundedDiscount row)%Z then mret tt
    else if full then
      flipped ← flip (re_id row) RED_CONFIRMED
        (fun r => with_red_status RED_REFUNDED share (Some "FULL_REFUND") (re_confirmedAt r) (Some now) r);
      if bool_decide (flipped = 1%Z) then returnCapacity (re_promotionId row) (re_couponId row) else mret tt
    else
      stored ← gets (fun d => redemptions (own d) !! re_id row);
      r ← unwrap stored P2025;
      on_own (modify (fun t => set_redemptions (<[re_id row :=
        with_red_status (re_status r) share (re_releaseReason r) (re_confirmedAt r) (re_releasedAt r) r]> (redemptions t)) t)).
Definition refundable (orderId : string) (r : PromotionRedemption) : bool :=
  bool_decide (re_orderId r = orderId) && bool_decide (re_status r ∈ [RED_CONFIRMED; RED_REFUNDED]).
Definition applyRefund (orderId : string) (now paidTotal refundedTotal : Z) : PM unit :=
  if (paidTotal <=? 0)%Z then mret tt
  else
    rows ← gets (fun d => find_many (refundable orderId) (redemptions (own d)));
    for_each rows (refund_one now paidTotal refundedTotal).
End capacity.
