(* ===== verification/Credit.v ===== *)
(** Customer credit: the tables, amounts and reads of
    [src/apps/api/src/modules/credit/credit.service.ts].  Accounts hold the policy only;
    what a customer owes is derived from an append-only ledger of documents, receipts,
    reversals and adjustments.

    Parameters: the database's identifiers, the SHA-256 digest, and [fold], which is
    [value.normalize('NFKC').toUpperCase()].  [normalize('NFC')] is the identity on the
    code units below 256 of the model.  The columns [createdAt] and [updatedAt] of
    accounts and documents are left out. *)

From S2P Require Import Prelude Table Json StableJson AuditTrail Retry InventoryModel Inventory.
From S2P Require Import Durable StateMachine IsoTime Paging.

(** * Data *)

Inductive CreditAccountStatus := CREDIT_ACTIVE | CREDIT_SUSPENDED.
Inductive ReceivableDocumentKind := DOC_SALE | DOC_OPENING_BALANCE.
Inductive CreditEntryKind :=
  | ENTRY_SALE | ENTRY_OPENING_BALANCE | ENTRY_RECEIPT | ENTRY_RECEIPT_REVERSAL | ENTRY_DEBIT_ADJUSTMENT | ENTRY_CREDIT_NOTE.
Inductive CreditReceiptMethod := CASH | BANK_TRANSFER.
Inductive CustomerStatus := CUSTOMER_ACTIVE | CUSTOMER_INACTIVE.
#[export] Instance CreditAccountStatus_eq_dec : EqDecision CreditAccountStatus.
Proof. solve_decision. Defined.
#[export] Instance ReceivableDocumentKind_eq_dec : EqDecision ReceivableDocumentKind.
Proof. solve_decision. Defined.
#[export] Instance CreditEntryKind_eq_dec : EqDecision CreditEntryKind.
Proof. solve_decision. Defined.
#[export] Instance CreditReceiptMethod_eq_dec : EqDecision CreditReceiptMethod.
Proof. solve_decision. Defined.
#[export] Instance CustomerStatus_eq_dec : EqDecision CustomerStatus.
Proof. solve_decision. Defined.

Record Customer := mkCustomer { cu_id : string; cu_userId : option string; cu_status : CustomerStatus }.
Record CreditAccount := mkAccount {
  ca_id : string;
  ca_customerId : string;
  ca_status : CreditAccountStatus;
  ca_creditLimit : Z;
  ca_termsDays : Z;
  ca_version : Z
}.
Record ReceivableDocument := mkDocument {
  rd_id : string;
  rd_accountId : string;
  rd_orderId : option string;
  rd_kind : ReceivableDocumentKind;
  rd_amount : Z;
  rd_issuedAt : Z;
  rd_dueAt : Z;
  rd_termsDays : Z;
  rd_sourceReference : string;
  rd_actorId : string;
  rd_requestId : string
}.
Record CreditReceipt := mkReceipt {
  cr_receiptId : string;
  cr_accountId : string;
  cr_amount : Z;
  cr_method : CreditReceiptMethod;
  cr_evidenceReference : string;
  cr_evidenceHash : string;
  cr_effectiveAt : Z;
  cr_receivedBy : string;
  cr_requestId : string
}.
Record CreditLedgerEntry := mkEntry {
  en_id : string;
  en_accountId : string;
  en_documentId : string;
  en_receiptId : option string;
  en_reversalOfId : option string;
  en_kind : CreditEntryKind;
  en_amount : Z;
  en_evidenceReference : option string;
  en_reason : option string;
  en_evidenceHash : option string;
  en_effectiveAt : Z;
  en_actorId : string;
  en_requestId : string;
  en_createdAt : Z
}.

(** Compensation of a credit sale: its lines, and the payouts of what it owes. *)
Inductive CompensationKind := COMP_CANCEL | COMP_RETURN.
#[export] Instance CompensationKind_eq_dec : EqDecision CompensationKind.
Proof. solve_decision. Defined.
Record CreditSaleReturnLine := mkReturnLine {
  srl_id : string;
  srl_orderItemId : string;
  srl_quantity : Z;
  srl_unitPrice : Z;
  srl_movementId : string
}.
Record CreditSaleReturn := mkSaleReturn {
  sr_id : string;
  sr_orderId : string;
  sr_documentId : string;
  sr_kind : CompensationKind;
  sr_amount : Z;
  sr_debtCredit : Z;
  sr_refundDue : Z;
  sr_entryId : option string;
  sr_evidenceReference : string;
  sr_evidenceHash : string;
  sr_reason : string;
  sr_createdAt : Z;
  sr_lines : list CreditSaleReturnLine
}.
Record CreditRefundPayout := mkPayout {
  py_id : string;
  py_returnId : string;
  py_amount : Z;
  py_method : CreditReceiptMethod;
  py_evidenceReference : string;
  py_evidenceHash : string;
  py_reason : string;
  py_effectiveAt : Z
}.

(** The columns and relations of an order that the services on placed orders read; its
    status is in [order_status]. *)
Record OrderLine := mkOrderLine {
  ol_id : string;
  ol_variantId : string;
  ol_quantity : Z;
  ol_unitPrice : Z;
  ol_total : Z
}.
Record CreditOrder := mkOrder {
  or_id : string;
  or_number : string;
  or_customerId : string;
  or_version : Z;
  or_discount : Z;
  or_shipping : Z;
  or_grandTotal : Z;
  or_reservationExpiresAt : Z;
  or_items : list OrderLine;
  or_payments : list string;
  or_staffCommandRecords : list string;
  or_shipment : option string;
  or_addressSnapshot : option json;
  or_doorOrder : option string
}.
Record Fulfillment := mkFulfillment { fu_id : string; fu_orderId : string }.

Record CreditTables := mkCreditTables {
  customers : gmap string Customer;
  accounts : gmap string CreditAccount;
  documents : gmap string ReceivableDocument;
  receipts : gmap string CreditReceipt;
  entries : gmap string CreditLedgerEntry;
  sale_returns : gmap string CreditSaleReturn;
  payouts : gmap string CreditRefundPayout;
  orders : gmap string CreditOrder;
  order_status : StatusDb OrderStatus;
  fulfillments : gmap string Fulfillment;
  fulfillment_status : StatusDb FulfillmentStatus
}.
Definition set_accounts x (t : CreditTables) : CreditTables :=
  mkCreditTables (customers t) x (documents t) (receipts t) (entries t) (sale_returns t) (payouts t) (orders t)
    (order_status t) (fulfillments t) (fulfillment_status t).
Definition set_documents x (t : CreditTables) : CreditTables :=
  mkCreditTables (customers t) (accounts t) x (receipts t) (entries t) (sale_returns t) (payouts t) (orders t)
    (order_status t) (fulfillments t) (fulfillment_status t).
Definition set_receipts x (t : CreditTables) : CreditTables :=
  mkCreditTables (customers t) (accounts t) (documents t) x (entries t) (sale_returns t) (payouts t) (orders t)
    (order_status t) (fulfillments t) (fulfillment_status t).
Definition set_entries x (t : CreditTables) : CreditTables :=
  mkCreditTables (customers t) (accounts t) (documents t) (receipts t) x (sale_returns t) (payouts t) (orders t)
    (order_status t) (fulfillments t) (fulfillment_status t).
Definition set_sale_returns x (t : CreditTables) : CreditTables :=
  mkCreditTables (customers t) (accounts t) (documents t) (receipts t) (entries t) x (payouts t) (orders t)
    (order_status t) (fulfillments t) (fulfillment_status t).
Definition set_payouts x (t : CreditTables) : CreditTables :=
  mkCreditTables (customers t) (accounts t) (documents t) (receipts t) (entries t) (sale_returns t) x (orders t)
    (order_status t) (fulfillments t) (fulfillment_status t).
Definition set_orders x (t : CreditTables) : CreditTables :=
  mkCreditTables (customers t) (accounts t) (documents t) (receipts t) (entries t) (sale_returns t) (payouts t) x
    (order_status t) (fulfillments t) (fulfillment_status t).
Definition set_fulfillments x y (t : CreditTables) : CreditTables :=
  mkCreditTables (customers t) (accounts t) (documents t) (receipts t) (entries t) (sale_returns t) (payouts t) (orders t)
    (order_status t) x y.

#[export] Instance order_status_lens : Lens CreditTables (StatusDb OrderStatus) :=
  {| view := order_status; put := fun x t => mkCreditTables (customers t) (accounts t) (documents t) (receipts t)
       (entries t) (sale_returns t) (payouts t) (orders t) x (fulfillments t) (fulfillment_status t) |}.
#[export] Instance fulfillment_status_lens : Lens CreditTables (StatusDb FulfillmentStatus) :=
  {| view := fulfillment_status; put := fun x t => set_fulfillments (fulfillments t) x t |}.

(** * Results *)

Record CreditAccountSummary := mkSummary {
  cs_id : string;
  cs_customerId : string;
  cs_status : CreditAccountStatus;
  cs_version : Z;
  cs_creditLimit : Z;
  cs_termsDays : Z;
  cs_outstanding : Z;
  cs_availableCredit : Z;
  cs_overdue : Z;
  cs_openingRecorded : bool;
  cs_overLimit : bool
}.
Record CreditCommandResult := mkResult {
  res_account : CreditAccountSummary;
  res_order : option (string * OrderStatus * Z);
  res_documentId : option string;
  res_receiptId : option string;
  res_entryIds : list string;
  res_returnId : option string;
  res_payoutId : option string
}.

Record CreditContext := mkCreditContext {
  cx_actorId : string;
  cx_requestId : string;
  cx_idempotencyKey : string
}.

(** * Errors and values *)

Definition MAX_CREDIT_IRR : Z := 9223372036854775807.
Definition credit_invalid (message : string) : exn := HttpException BadRequestException (Some "VALIDATION_ERROR") message.
Definition credit_missing : exn := notFound "CREDIT_NOT_FOUND" "Credit account or document not found.".

(** [creditAmount(value, allowZero)] *)
Definition creditAmount (value : string) (allowZero : bool) : result Z :=
  match parse_natural 19 (String.list_ascii_of_string value) with
  | None => Err (credit_invalid "Use a canonical integer IRR amount.")
  | Some amount =>
      if (MAX_CREDIT_IRR <? amount)%Z || (negb allowZero && bool_decide (amount = 0%Z))
      then Err (credit_invalid "IRR amount is outside the supported range.") else Ok amount
  end.

(** [code < 32 || code === 127] *)
Definition is_control (c : Ascii.ascii) : bool :=
  let n := Ascii.N_of_ascii c in ((n <? 32) || (n =? 127))%N.

(** [text(value, maximum)] *)
Definition text (value : string) (maximum : Z) : result string :=
  if negb (truthy (trim value)) || (maximum <? Z.of_nat (String.length (trim value)))%Z ||
     existsb is_control (String.list_ascii_of_string value)
  then Err (credit_invalid "A bounded evidence reference or reason is required.") else Ok (trim value).

(** [date(value, allowFuture)] at the time [now] *)
Definition date (now : Z) (value : string) (allowFuture : bool) : result Z :=
  match iso_fields value with
  | None => Err (credit_invalid "An ISO timestamp with timezone is required.")
  | Some fields =>
      if negb (on_calendar fields) then Err (credit_invalid "Invalid calendar timestamp.")
      else if negb (zone_valid fields) || (negb allowFuture && (now <? iso_instant fields)%Z)
      then Err (credit_invalid "Invalid or future evidence timestamp.") else Ok (iso_instant fields)
  end.

(** [Math.ceil(x / 86_400_000)] *)
Definition ceil_days (x : Z) : Z := (- ((- x) / 86400000))%Z.

Record PageInput := mkPageInput { pg_offset : number; pg_limit : number }.
(** [page(input)] *)
Definition check_page (q : PageInput) : result unit :=
  if negb (isInteger (pg_offset q)) || (int_val (pg_offset q) <? 0)%Z || (1000000 <? int_val (pg_offset q))%Z ||
     negb (isInteger (pg_limit q)) || (int_val (pg_limit q) <? 1)%Z || (100 <? int_val (pg_limit q))%Z
  then Err (credit_invalid "Invalid statement pagination.") else Ok tt.

(** [versionInput(version, allowNull)] *)
Definition versionInput (version : option number) (allowNull : bool) : result unit :=
  match version with
  | None => if allowNull then Ok tt else Err (credit_invalid "A valid expectedVersion is required.")
  | Some v =>
      if negb (isInteger v) || (int_val v <? 0)%Z || (2147483647 <? int_val v)%Z
      then Err (credit_invalid "A valid expectedVersion is required.") else Ok tt
  end.

(** * Balances *)

Definition sum_entries (P : CreditLedgerEntry -> bool) (t : CreditTables) : Z :=
  tsum (fun e => if P e then en_amount e else 0%Z) (entries t).
Definition of_document (d : ReceivableDocument) (e : CreditLedgerEntry) : bool :=
  bool_decide (en_documentId e = rd_id d) && bool_decide (en_accountId e = rd_accountId d).
Definition is_principal (e : CreditLedgerEntry) : bool :=
  bool_decide (en_kind e ∈ [ENTRY_OPENING_BALANCE; ENTRY_SALE; ENTRY_DEBIT_ADJUSTMENT; ENTRY_CREDIT_NOTE]).
Definition outstanding (t : CreditTables) (d : ReceivableDocument) : Z := sum_entries (of_document d) t.
Definition principal (t : CreditTables) (d : ReceivableDocument) : Z :=
  sum_entries (fun e => of_document d e && is_principal e) t.

Record DocumentBalance := mkDocumentBalance { db_id : string; db_outstanding : Z; db_principal : Z; db_issuedAt : Z }.
Definition document_balance (t : CreditTables) (d : ReceivableDocument) : DocumentBalance :=
  mkDocumentBalance (rd_id d) (outstanding t d) (principal t d) (rd_issuedAt d).
(** The inner join with the ledger. *)
Definition has_entries (t : CreditTables) (d : ReceivableDocument) : bool :=
  bool_decide (is_Some (find_by (of_document d) (entries t))).

(** [balances(tx, accountId, ids)] *)
Definition balances_of (accountId : string) (ids : list string) (t : CreditTables) : list DocumentBalance :=
  document_balance t <$> find_many (fun d => bool_decide (rd_accountId d = accountId) && bool_decide (rd_id d ∈ ids) &&
    has_entries t d) (documents t).
Definition find_balance_of (id : string) (bs : list DocumentBalance) : option DocumentBalance :=
  head (List.filter (fun b => bool_decide (db_id b = id)) bs).

Definition account_documents (accountId : string) (t : CreditTables) : list ReceivableDocument :=
  find_many (fun d => bool_decide (rd_accountId d = accountId)) (documents t).
Definition opening_of (accountId : string) (d : ReceivableDocument) : bool :=
  bool_decide (rd_accountId d = accountId) && bool_decide (rd_kind d = DOC_OPENING_BALANCE).

Section reads.
Context (cuid : nat -> string).

(** [summary(tx, id)]; [CURRENT_TIMESTAMP] is the database's clock. *)
Definition summary (id : string) : M (Domain CreditTables) CreditAccountSummary :=
  row ← gets (fun d => accounts (own d) !! id);
  account ← unwrap row P2025;
  crow ← gets (fun d => customers (own d) !! ca_customerId account);
  customer ← unwrap crow P2025;
  now ← gets (fun d => clock (inv_of d));
  t ← gets own;
  let docs := account_documents id t in
  let outstanding_ := sumZ (outstanding t) docs in
  let overdue := sumZ (fun d => if (rd_dueAt d <? now)%Z && (0 <? outstanding t d)%Z then outstanding t d else 0%Z) docs in
  let openingRecorded := (0 <? count_rows (opening_of id) (documents t))%Z in
  let available :=
    if bool_decide (ca_status account = CREDIT_ACTIVE) && bool_decide (cu_status customer = CUSTOMER_ACTIVE) &&
       bool_decide (overdue = 0%Z) && (outstanding_ <? ca_creditLimit account)%Z
    then (ca_creditLimit account - outstanding_)%Z else 0%Z in
  mret (mkSummary (ca_id account) (ca_customerId account) (ca_status account) (ca_version account) (ca_creditLimit account)
    (ca_termsDays account) outstanding_ available overdue openingRecorded (ca_creditLimit account <? outstanding_)%Z).

(** [account(tx, customerId, expectedVersion)] *)
Definition account_of (customerId : string) (expectedVersion : number) : M (Domain CreditTables) CreditAccount :=
  lift_result (versionInput (Some expectedVersion) false) ;;
  row ← gets (fun d => find_by (fun a => bool_decide (ca_customerId a = customerId)) (accounts (own d)));
  account ← unwrap row credit_missing;
  throw_if (negb (bool_decide (ca_version account = int_val expectedVersion)))
    (conflictCode "CREDIT_VERSION_CONFLICT" "Account changed; reload before continuing.") ;;
  mret account.

(** [checkDebtBound(tx, accountId, delta)] *)
Definition checkDebtBound (accountId : string) (delta : Z) : M (Domain CreditTables) unit :=
  s ← summary accountId;
  let total := (cs_outstanding s + delta)%Z in
  throw_if ((total <? 0)%Z || (MAX_CREDIT_IRR <? total)%Z)
    (credit_invalid "Account balance is outside the supported IRR range.").

(** ** Statements *)

Inductive ReceivableStatus := DOC_UNPAID | DOC_PARTIALLY_PAID | DOC_PAID | DOC_OVERDUE | DOC_CREDITED.
Record CreditDocument := mkCreditDocument {
  cd_id : string;
  cd_kind : ReceivableDocumentKind;
  cd_orderId : option string;
  cd_originalAmount : Z;
  cd_effectivePrincipal : Z;
  cd_outstanding : Z;
  cd_status : ReceivableStatus;
  cd_issuedAt : Z;
  cd_dueAt : Z;
  cd_termsDays : Z
}.
Record CreditStatement := mkStatement {
  st_account : option CreditAccountSummary;
  st_documents : list CreditDocument;
  st_total : Z
}.

Definition returns_of (documentId : string) (t : CreditTables) : list CreditSaleReturn :=
  find_many (fun r => bool_decide (sr_documentId r = documentId)) (sale_returns t).

(** The status of a document from its balances and compensations. *)
Definition document_status (now outstanding_ principal_ : Z) (returned : option Z) (row : ReceivableDocument)
    : ReceivableStatus :=
  if bool_decide (outstanding_ = 0%Z) && bool_decide (returned = Some (rd_amount row)) then DOC_CREDITED
  else if bool_decide (outstanding_ = 0%Z) then DOC_PAID
  else if (rd_dueAt row <? now)%Z then DOC_OVERDUE
  else if (outstanding_ <? principal_)%Z then DOC_PARTIALLY_PAID else DOC_UNPAID.

Definition statement_document (now : Z) (t : CreditTables) (bs : list DocumentBalance) (row : ReceivableDocument)
    : result CreditDocument :=
  match find_balance_of (rd_id row) bs with
  | None => Err (conflictCode "CREDIT_RECONCILIATION_REQUIRED" "Document ledger evidence is missing.")
  | Some b =>
      let rs := returns_of (rd_id row) t in
      let returned := if bool_decide (rs = []) then None else Some (sumZ sr_amount rs) in
      let principal_ := (db_principal b - sumZ sr_refundDue rs)%Z in
      Ok (mkCreditDocument (rd_id row) (rd_kind row) (rd_orderId row) (rd_amount row) principal_ (db_outstanding b)
        (document_status now (db_outstanding b) principal_ returned row) (rd_issuedAt row) (rd_dueAt row) (rd_termsDays row))
  end.

Fixpoint map_result {A B} (f : A -> result B) (l : list A) : result (list B) :=
  match l with [] => Ok [] | x :: l => y ← f x; ys ← map_result f l; Ok (y :: ys) end.

Context (collate : string -> string -> Z) (scan : forall R, list R -> list R).
(** [orderBy: [{ issuedAt: 'desc' }, { id: 'desc' }]] *)
Definition latest_document : ReceivableDocument -> ReceivableDocument -> Z :=
  then_by (descending (ascending rd_issuedAt)) (descending (by_text collate rd_id)).

(** [statementIn(tx, customerId, query)]; [now] is [Date.now()] *)
Definition statementIn (now : Z) (customerId : string) (offset limit : Z) : M (Domain CreditTables) CreditStatement :=
  row ← gets (fun d => find_by (fun a => bool_decide (ca_customerId a = customerId)) (accounts (own d)));
  match row with
  | None => mret (mkStatement None [] 0)
  | Some account =>
      s ← summary (ca_id account);
      t ← gets own;
      let found := list_page (scan _) latest_document (fun d => bool_decide (rd_accountId d = ca_id account)) offset limit (documents t) in
      let bs := balances_of (ca_id account) (rd_id <$> fst found) t in
      docs ← lift_result (map_result (statement_document now t bs) (fst found));
      mret (mkStatement (Some s) docs (snd found))
  end.

(** [statement(customerId, query)] *)
Definition statement (now : Z) (customerId : string) (q : PageInput) (d : Domain CreditTables) : result CreditStatement :=
  _ ← check_page q;
  r ← (row ← gets (fun d => customers (own d) !! customerId);
       _ ← unwrap row credit_missing;
       statementIn now customerId (int_val (pg_offset q)) (int_val (pg_limit q))) d;
  Ok (fst r).

(** [customerStatement(userId, query)] *)
Definition customerStatement (now : Z) (userId : string) (q : PageInput) (d : Domain CreditTables)
    : result CreditStatement :=
  _ ← check_page q;
  r ← (row ← gets (fun d => find_by (fun c => bool_decide (cu_userId c = Some userId) &&
                bool_decide (cu_status c = CUSTOMER_ACTIVE)) (customers (own d)));
       match row with
       | None => mret (mkStatement None [] 0)
       | Some customer => statementIn now (cu_id customer) (int_val (pg_offset q)) (int_val (pg_limit q))
       end) d;
  Ok (fst r).

(** [ledger(customerId, query)] *)
Record CreditLedgerItem := mkLedgerItem {
  li_id : string;
  li_documentId : string;
  li_receiptId : option string;
  li_reversalOfId : option string;
  li_kind : CreditEntryKind;
  li_amount : Z;
  li_effectiveAt : Z;
  li_createdAt : Z
}.
Definition ledger_item (e : CreditLedgerEntry) : CreditLedgerItem :=
  mkLedgerItem (en_id e) (en_documentId e) (en_receiptId e) (en_reversalOfId e) (en_kind e) (en_amount e) (en_effectiveAt e)
    (en_createdAt e).
Definition latest_entry : CreditLedgerEntry -> CreditLedgerEntry -> Z :=
  then_by (descending (ascending en_createdAt)) (descending (by_text collate en_id)).
Definition ledger (customerId : string) (q : PageInput) (d : Domain CreditTables) : result (list CreditLedgerItem * Z) :=
  _ ← check_page q;
  match find_by (fun a => bool_decide (ca_customerId a = customerId)) (accounts (own d)) with
  | None => Err credit_missing
  | Some account =>
      let found := list_page (scan _) latest_entry (fun e => bool_decide (en_accountId e = ca_id account)) (int_val (pg_offset q))
        (int_val (pg_limit q)) (entries (own d)) in
      Ok (ledger_item <$> fst found, snd found)
  end.
End reads.
