(* ===== verification/CreditCommands.v ===== *)
(** The commands of [src/apps/api/src/modules/credit/credit.service.ts] and their
    execution: policies, opening balances, receipts, reversals and adjustments, each a
    durable command whose record, ledger entries and response commit together.

    The trigger on the ledger advances the version of the account with every entry; its
    checks and the deferred reconciliation of the database are not part of the model:
    [CreditBooks] proves that what the service writes satisfies them. *)

From S2P Require Import Prelude Table Json StableJson AuditTrail Retry InventoryModel Inventory.
From S2P Require Import Durable StateMachine IsoTime Paging Credit.

(** * Requests *)

Record CreditPolicyRequest := mkPolicyRequest {
  pq_expectedVersion : option number;
  pq_status : CreditAccountStatus;
  pq_creditLimit : string;
  pq_termsDays : number
}.
Record CreditOpeningRequest := mkOpeningRequest {
  oq_expectedVersion : number;
  oq_amount : string;
  oq_issuedAt : string;
  oq_dueAt : string;
  oq_sourceReference : string
}.
Record CreditAllocation := mkAllocation { aq_documentId : string; aq_amount : string }.
Record CreditReceiptRequest := mkReceiptRequest {
  rq_expectedVersion : number;
  rq_amount : string;
  rq_method : CreditReceiptMethod;
  rq_effectiveAt : string;
  rq_evidenceReference : string;
  rq_allocations : list CreditAllocation
}.
Record CreditReversalRequest := mkReversalRequest {
  vq_expectedVersion : number;
  vq_effectiveAt : string;
  vq_evidenceReference : string;
  vq_reason : string
}.
Inductive AdjustmentKind := DEBIT_ADJUSTMENT | CREDIT_NOTE.
Record CreditAdjustmentRequest := mkAdjustmentRequest {
  jq_expectedVersion : number;
  jq_kind : AdjustmentKind;
  jq_amount : string;
  jq_effectiveAt : string;
  jq_evidenceReference : string;
  jq_reason : string
}.

(** A validated allocation. *)
Record Allocation := mkAlloc { al_documentId : string; al_amount : Z }.

Definition account_status_str (s : CreditAccountStatus) : string :=
  match s with CREDIT_ACTIVE => "ACTIVE" | CREDIT_SUSPENDED => "SUSPENDED" end.
Definition method_str (m : CreditReceiptMethod) : string :=
  match m with CASH => "CASH" | BANK_TRANSFER => "BANK_TRANSFER" end.
Definition adjustment_str (k : AdjustmentKind) : string :=
  match k with DEBIT_ADJUSTMENT => "DEBIT_ADJUSTMENT" | CREDIT_NOTE => "CREDIT_NOTE" end.
Definition adjustment_entry (k : AdjustmentKind) : CreditEntryKind :=
  match k with DEBIT_ADJUSTMENT => ENTRY_DEBIT_ADJUSTMENT | CREDIT_NOTE => ENTRY_CREDIT_NOTE end.
(** A number that is no integer prints as [null], which is what NaN and the
    infinities print as. *)
Definition jnumber (n : number) : json := match n with Int z => JNum z | NonInt => JNull end.

(** * Writes *)

Section commands.
Context (cuid : nat -> string) (hash fold : string -> string).

Notation CM := (M (Domain CreditTables)).


(** Advancing the version of an account; an [Int] column that does not fit is refused. *)
Definition bump_version (a : CreditAccount) : CreditAccount :=
  mkAccount (ca_id a) (ca_customerId a) (ca_status a) (ca_creditLimit a) (ca_termsDays a) (ca_version a + 1).
Definition put_account (a : CreditAccount) : CM unit :=
  throw_if (negb (int4 (ca_version a))) P2020 ;;
  on_own (modify (fun t => set_accounts (<[ca_id a := a]> (accounts t)) t)).
Definition advance_account (id : string) : CM unit :=
  row ← gets (fun d => accounts (own d) !! id);
  a ← unwrap row P2003;
  put_account (bump_version a).

(** The unique indexes of the ledger. *)
Definition entry_collides (e e' : CreditLedgerEntry) : bool :=
  (bool_decide (is_Some (en_reversalOfId e)) && bool_decide (en_reversalOfId e = en_reversalOfId e')) ||
  (bool_decide (is_Some (en_evidenceHash e)) && bool_decide (en_evidenceHash e = en_evidenceHash e')) ||
  (bool_decide (is_Some (en_receiptId e)) && bool_decide (en_receiptId e = en_receiptId e') &&
     bool_decide (en_documentId e = en_documentId e') && bool_decide (en_kind e = en_kind e')) ||
  (bool_decide (en_kind e ∈ [ENTRY_OPENING_BALANCE; ENTRY_SALE]) && bool_decide (en_kind e = en_kind e') &&
     bool_decide (en_documentId e = en_documentId e')).

(** [creditLedgerEntry.create], with the version trigger. *)
Definition create_entry (accountId documentId : string) (receiptId reversalOfId : option string) (kind : CreditEntryKind)
    (amount effectiveAt : Z) (evidenceReference reason evidenceHash : option string) (ctx : CreditContext)
    : CM CreditLedgerEntry :=
  id ← on_inv (fresh_id cuid);
  now ← gets (fun d => clock (inv_of d));
  advance_account accountId ;;
  let e := mkEntry id accountId documentId receiptId reversalOfId kind amount evidenceReference reason evidenceHash
    effectiveAt (cx_actorId ctx) (cx_requestId ctx) now in
  taken ← gets (fun d => entries (own d) !! id);
  dup ← gets (fun d => find_by (entry_collides e) (entries (own d)));
  throw_if (bool_decide (is_Some taken) || bool_decide (is_Some dup)) P2002 ;;
  on_own (modify (fun t => set_entries (<[id := e]> (entries t)) t)) ;;
  mret e.

(** [receivableDocument.create], with its check constraint and unique indexes. *)
Definition create_document (accountId : string) (orderId : option string) (kind : ReceivableDocumentKind)
    (amount issuedAt dueAt termsDays : Z) (sourceReference : string) (ctx : CreditContext) : CM ReceivableDocument :=
  id ← on_inv (fresh_id cuid);
  let doc := mkDocument id accountId orderId kind amount issuedAt dueAt termsDays sourceReference (cx_actorId ctx)
    (cx_requestId ctx) in
  throw_if ((amount <=? 0)%Z || (termsDays <? 0)%Z || (365 <? termsDays)%Z || (dueAt <? issuedAt)%Z) check_violation ;;
  taken ← gets (fun d => documents (own d) !! id);
  dup ← gets (fun d => find_by (fun d' => (bool_decide (is_Some orderId) && bool_decide (rd_orderId d' = orderId)) ||
    (bool_decide (kind = DOC_OPENING_BALANCE) && opening_of accountId d')) (documents (own d)));
  throw_if (bool_decide (is_Some taken) || bool_decide (is_Some dup)) P2002 ;;
  on_own (modify (fun t => set_documents (<[id := doc]> (documents t)) t)) ;;
  mret doc.

(** [creditReceipt.create] *)
Definition create_receipt (accountId : string) (amount : Z) (method : CreditReceiptMethod)
    (evidenceReference evidenceHash : string) (effectiveAt : Z) (ctx : CreditContext) : CM CreditReceipt :=
  id ← on_inv (fresh_id cuid);
  taken ← gets (fun d => receipts (own d) !! id);
  dup ← gets (fun d => find_by (fun r => bool_decide (cr_evidenceHash r = evidenceHash)) (receipts (own d)));
  throw_if (bool_decide (is_Some taken) || bool_decide (is_Some dup)) P2002 ;;
  let receipt := mkReceipt id accountId amount method evidenceReference evidenceHash effectiveAt (cx_actorId ctx)
    (cx_requestId ctx) in
  on_own (modify (fun t => set_receipts (<[id := receipt]> (receipts t)) t)) ;;
  mret receipt.

(** [record(tx, action, entityId, context, metadata)] *)
Definition credit_record (action entityId : string) (ctx : CreditContext) (metadata : json) : CM unit :=
  record (mkAuditEvent action "credit" (Some entityId) None None (Some metadata) (Some (cx_actorId ctx))
    (Some (cx_requestId ctx))).

Definition evidence_conflict (message : string) : exn := conflictCode "CREDIT_EVIDENCE_CONFLICT" message.
Definition return_conflict (message : string) : exn := conflictCode "CREDIT_RETURN_CONFLICT" message.

(** * The bodies of the commands *)

(** [policy] *)
Definition policy_tx (customerId : string) (input : CreditPolicyRequest) (creditLimit : Z) (ctx : CreditContext)
    : CM CreditCommandResult :=
  crow ← gets (fun d => customers (own d) !! customerId);
  customer ← unwrap crow credit_missing;
  throw_if (bool_decide (pq_status input = CREDIT_ACTIVE) && negb (bool_decide (cu_status customer = CUSTOMER_ACTIVE)))
    (conflictCode "CUSTOMER_INACTIVE" "An inactive customer cannot receive active credit.") ;;
  current ← gets (fun d => find_by (fun a => bool_decide (ca_customerId a = customerId)) (accounts (own d)));
  throw_if (negb (bool_decide ((ca_version <$> current) = (int_val <$> pq_expectedVersion input))))
    (conflictCode "CREDIT_VERSION_CONFLICT" "Credit policy changed; reload before continuing.") ;;
  account ← match current with
    | Some a =>
        let a' := mkAccount (ca_id a) (ca_customerId a) (pq_status input) creditLimit (int_val (pq_termsDays input))
          (ca_version a + 1) in
        put_account a' ;; mret a'
    | None =>
        id ← on_inv (fresh_id cuid);
        taken ← gets (fun d => accounts (own d) !! id);
        throw_if (bool_decide (is_Some taken)) P2002 ;;
        let a' := mkAccount id customerId (pq_status input) creditLimit (int_val (pq_termsDays input)) 0 in
        put_account a' ;; mret a'
    end;
  credit_record "credit.policy.updated" (ca_id account) ctx
    (JObj [("status", JStr (account_status_str (pq_status input))); ("creditLimit", JStr (pq_creditLimit input));
           ("termsDays", jnumber (pq_termsDays input)); ("version", JNum (ca_version account))]) ;;
  s ← summary (ca_id account);
  mret (mkResult s None None None [] None None).

(** [opening] *)
Definition opening_tx (customerId : string) (input : CreditOpeningRequest) (amount issuedAt dueAt termsDays : Z)
    (sourceReference : string) (ctx : CreditContext) : CM CreditCommandResult :=
  account ← account_of customerId (oq_expectedVersion input);
  existing ← gets (fun d => find_by (opening_of (ca_id account)) (documents (own d)));
  throw_if (bool_decide (is_Some existing))
    (conflictCode "CREDIT_OPENING_EXISTS" "An opening balance already exists; append an evidenced correction.") ;;
  checkDebtBound (ca_id account) amount ;;
  document ← create_document (ca_id account) None DOC_OPENING_BALANCE amount issuedAt dueAt termsDays sourceReference ctx;
  entry ← create_entry (ca_id account) (rd_id document) None None ENTRY_OPENING_BALANCE amount issuedAt None None None ctx;
  credit_record "credit.opening.recorded" (rd_id document) ctx
    (JObj [("accountId", JStr (ca_id account)); ("amount", JStr (oq_amount input))]) ;;
  s ← summary (ca_id account);
  mret (mkResult s None (Some (rd_id document)) None [en_id entry] None None).

(** The checks of one allocation against the balances read. *)
Definition check_allocation (effectiveAt : Z) (bs : list DocumentBalance) (item : Allocation) : CM unit :=
  balance ← unwrap (find_balance_of (al_documentId item) bs) credit_missing;
  throw_if (effectiveAt <? db_issuedAt balance)%Z (credit_invalid "Receipt cannot precede the debt document.") ;;
  throw_if (db_outstanding balance <? al_amount item)%Z
    (conflictCode "CREDIT_ALLOCATION_CONFLICT" "Receipt allocation exceeds the document outstanding balance.").

(** [receipt] *)
Definition receipt_tx (customerId : string) (input : CreditReceiptRequest) (amount effectiveAt : Z)
    (evidenceReference : string) (allocations : list Allocation) (ctx : CreditContext) : CM CreditCommandResult :=
  account ← account_of customerId (rq_expectedVersion input);
  let evidenceHash := hash (fold evidenceReference) in
  dup ← gets (fun d => find_by (fun r => bool_decide (cr_evidenceHash r = evidenceHash)) (receipts (own d)));
  throw_if (bool_decide (is_Some dup)) (evidence_conflict "This receipt evidence was already recorded.") ;;
  bs ← gets (fun d => balances_of (ca_id account) (al_documentId <$> allocations) (own d));
  for_each allocations (check_allocation effectiveAt bs) ;;
  receipt ← create_receipt (ca_id account) amount (rq_method input) evidenceReference evidenceHash effectiveAt ctx;
  created ← map_each allocations (fun item =>
    create_entry (ca_id account) (al_documentId item) (Some (cr_receiptId receipt)) None ENTRY_RECEIPT (- al_amount item)
      effectiveAt None None None ctx);
  credit_record "credit.receipt.recorded" (cr_receiptId receipt) ctx
    (JObj [("accountId", JStr (ca_id account)); ("amount", JStr (rq_amount input)); ("method", JStr (method_str (rq_method input)));
           ("allocationCount", JNum (Z.of_nat (length allocations)))]) ;;
  s ← summary (ca_id account);
  mret (mkResult s None None (Some (cr_receiptId receipt)) (en_id <$> created) None None).

(** [receipt.entries] of kind RECEIPT, and [entry.reversal] *)
Definition receipt_entries (receipt : CreditReceipt) (t : CreditTables) : list CreditLedgerEntry :=
  find_many (fun e => bool_decide (en_receiptId e = Some (cr_receiptId receipt)) &&
    bool_decide (en_accountId e = cr_accountId receipt) && bool_decide (en_kind e = ENTRY_RECEIPT)) (entries t).
Definition reversed_in (t : CreditTables) (e : CreditLedgerEntry) : bool :=
  bool_decide (is_Some (find_by (fun r => bool_decide (en_reversalOfId r = Some (en_id e))) (entries t))).

(** [reverseReceipt] *)
Definition reverse_tx (customerId receiptId : string) (input : CreditReversalRequest) (effectiveAt : Z)
    (reason evidenceReference : string) (ctx : CreditContext) : CM CreditCommandResult :=
  account ← account_of customerId (vq_expectedVersion input);
  row ← gets (fun d => receipts (own d) !! receiptId);
  receipt ← unwrap (match row with Some r => if bool_decide (cr_accountId r = ca_id account) then Some r else None
                    | None => None end) credit_missing;
  t ← gets own;
  let originals := receipt_entries receipt t in
  let liable := find_by (fun r => bool_decide (sr_documentId r ∈ en_documentId <$> originals) && (0 <? sr_refundDue r)%Z)
    (sale_returns t) in
  throw_if (bool_decide (is_Some liable))
    (return_conflict "Reconcile the customer refund liability before reversing this receipt.") ;;
  throw_if (bool_decide (originals = []) || existsb (reversed_in t) originals)
    (conflictCode "CREDIT_RECEIPT_REVERSED" "The receipt is already reversed or has no allocation.") ;;
  throw_if (effectiveAt <? cr_effectiveAt receipt)%Z (credit_invalid "Reversal cannot precede its receipt.") ;;
  checkDebtBound (ca_id account) (cr_amount receipt) ;;
  created ← map_each originals (fun original =>
    create_entry (ca_id account) (en_documentId original) (Some receiptId) (Some (en_id original)) ENTRY_RECEIPT_REVERSAL
      (- en_amount original) effectiveAt (Some evidenceReference) (Some reason) None ctx);
  credit_record "credit.receipt.reversed" receiptId ctx
    (JObj [("accountId", JStr (ca_id account)); ("amount", JStr (pretty (cr_amount receipt)));
           ("allocationCount", JNum (Z.of_nat (length originals)))]) ;;
  s ← summary (ca_id account);
  mret (mkResult s None None (Some receiptId) (en_id <$> created) None None).

(** [adjust] *)
Definition adjust_tx (customerId documentId : string) (input : CreditAdjustmentRequest) (amount effectiveAt : Z)
    (reason evidenceReference : string) (ctx : CreditContext) : CM CreditCommandResult :=
  account ← account_of customerId (jq_expectedVersion input);
  returned ← gets (fun d => find_by (fun r => bool_decide (sr_documentId r = documentId)) (sale_returns (own d)));
  throw_if (bool_decide (is_Some returned))
    (return_conflict "Use return/refund compensation rather than adjusting a returned sale.") ;;
  bs ← gets (fun d => balances_of (ca_id account) [documentId] (own d));
  balance ← unwrap (head bs) credit_missing;
  throw_if (effectiveAt <? db_issuedAt balance)%Z (credit_invalid "Correction cannot precede the debt document.") ;;
  throw_if (db_outstanding balance + amount <? 0)%Z
    (conflictCode "CREDIT_ADJUSTMENT_CONFLICT"
       "A credit note cannot exceed unpaid debt; use the approved refund flow for returned money.") ;;
  throw_if (MAX_CREDIT_IRR <? db_principal balance + amount)%Z
    (credit_invalid "Adjusted principal exceeds the supported IRR range.") ;;
  checkDebtBound (ca_id account) amount ;;
  let evidenceHash := hash (stableJson (JArr [JStr (ca_id account); JStr documentId; JStr (fold evidenceReference)])) in
  dup ← gets (fun d => find_by (fun e => bool_decide (en_evidenceHash e = Some evidenceHash)) (entries (own d)));
  throw_if (bool_decide (is_Some dup)) (evidence_conflict "This adjustment evidence was already recorded.") ;;
  entry ← create_entry (ca_id account) documentId None None (adjustment_entry (jq_kind input)) amount effectiveAt
    (Some evidenceReference) (Some reason) (Some evidenceHash) ctx;
  credit_record "credit.document.adjusted" documentId ctx
    (JObj [("accountId", JStr (ca_id account)); ("kind", JStr (adjustment_str (jq_kind input))); ("amount", JStr (pretty amount))]) ;;
  s ← summary (ca_id account);
  mret (mkResult s None (Some documentId) None [en_id entry] None None).
End commands.
