(* ===== verification/CreditSales.v ===== *)
(** Credit sales and their compensation: [approve] of
    [src/apps/api/src/modules/credit/credit-sale.service.ts], and the cancellations,
    returns and refund payouts of
    [src/apps/api/src/modules/credit/credit-return.service.ts].  A sale consumes the
    stock reservations of an order and turns its total into a document; a compensation
    takes goods back, credits what is still owed and records what must be refunded. *)

From S2P Require Import Prelude Table Json StableJson AuditTrail Retry InventoryModel Inventory.
From S2P Require Import Durable StateMachine IsoTime Paging Credit CreditCommands.

(** * Requests *)

Record CreditSaleApprovalRequest := mkSaleRequest { sq_expectedVersion : number; sq_expectedOrderVersion : number }.
Record ReturnLine := mkLine { ln_orderItemId : string; ln_quantity : number; ln_warehouseId : string; ln_locationId : string }.
Record CreditReturnRequest := mkReturnRequest {
  tq_expectedVersion : number;
  tq_expectedOrderVersion : number;
  tq_evidenceReference : string;
  tq_reason : string;
  tq_lines : list ReturnLine
}.
Record CreditRefundPayoutRequest := mkPayoutRequest {
  yq_expectedVersion : number;
  yq_amount : string;
  yq_method : CreditReceiptMethod;
  yq_evidenceReference : string;
  yq_reason : string;
  yq_effectiveAt : string
}.

(** * Shared reads *)

Definition order_row (orderId : string) (t : CreditTables) : option CreditOrder := orders t !! orderId.
Definition status_of_order (orderId : string) (t : CreditTables) : option OrderStatus := sd_status (order_status t) !! orderId.
Definition fulfillment_of (orderId : string) (t : CreditTables) : option Fulfillment :=
  find_by (fun f => bool_decide (fu_orderId f = orderId)) (fulfillments t).
Definition reservations_of (orderId : string) (db : InvDb) : list StockReservation :=
  find_many (fun r => bool_decide (r_orderId r = Some orderId)) (reservations db).
Definition document_of_order (orderId : string) (t : CreditTables) : option ReceivableDocument :=
  find_by (fun d => bool_decide (rd_orderId d = Some orderId)) (documents t).
Definition returns_of_order (orderId : string) (t : CreditTables) : list CreditSaleReturn :=
  find_many (fun r => bool_decide (sr_orderId r = orderId)) (sale_returns t).

(** [m.set(k, (m.get(k) ?? 0) + n)] *)
Definition add_quantity (m : gmap string Z) (k : string) (n : Z) : gmap string Z := <[k := (default 0 (m !! k) + n)%Z]> m.
Definition quantity_in (m : gmap string Z) (k : string) : Z := default 0%Z (m !! k).
Definition reserved_map (rs : list StockReservation) : gmap string Z :=
  foldl (fun m r => add_quantity m (variantId (r_key r)) (r_quantity r)) ∅ rs.
Definition ordered_map (items : list OrderLine) : gmap string Z :=
  foldl (fun m i => add_quantity m (ol_variantId i) (ol_quantity i)) ∅ items.

(** [row.status !== 'ACTIVE' || row.expiresAt <= issuedAt || !row.warehouse.isActive || !row.location.isActive] *)
Definition unusable (issuedAt : Z) (db : InvDb) (r : StockReservation) : bool :=
  negb (bool_decide (r_status r = ACTIVE)) || (r_expiresAt r <=? issuedAt)%Z ||
  negb (from_option w_isActive false (warehouses db !! warehouseId (r_key r))) ||
  negb (from_option l_isActive false (locations db !! locationId (r_key r))).

Section sales.
Context (cuid : nat -> string) (hash fold : string -> string).
Notation CM := (M (Domain CreditTables)).

Definition sale_meta (ctx : CreditContext) (reason : string) : TransitionMeta :=
  {| tm_actorId := Some (cx_actorId ctx); tm_requestId := Some (cx_requestId ctx); tm_reason := Some reason |}.
Definition stock_context (ctx : CreditContext) : ActorContext := mkActor (Some (cx_actorId ctx)) (Some (cx_requestId ctx)).

Definition record_order_transition (orderId : string) (from to : OrderStatus) (ctx : CreditContext) (reason : string)
    : CM (Transition OrderStatus) :=
  rowId ← on_inv (fresh_id cuid);
  on_own (zoom (recordTransition rowId orderId from to (sale_meta ctx reason))).
Definition record_fulfillment_transition (id : string) (from to : FulfillmentStatus) (ctx : CreditContext) (reason : string)
    : CM (Transition FulfillmentStatus) :=
  rowId ← on_inv (fresh_id cuid);
  on_own (zoom (recordTransition rowId id from to (sale_meta ctx reason))).

(** [tx.fulfillment.create({ data: { orderId, status: 'PENDING' } })] *)
Definition create_fulfillment (orderId : string) : CM unit :=
  id ← on_inv (fresh_id cuid);
  taken ← gets (fun d => fulfillments (own d) !! id);
  dup ← gets (fun d => fulfillment_of orderId (own d));
  throw_if (bool_decide (is_Some taken) || bool_decide (is_Some dup)) P2002 ;;
  on_own (modify (fun t => set_fulfillments (<[id := mkFulfillment id orderId]> (fulfillments t))
    (mkStatusDb (<[id := FUL_PENDING]> (sd_status (fulfillment_status t))) (sd_history (fulfillment_status t))) t)).

(** [tx.order.update({ where: { id }, data: { version: { increment: 1 } } })] *)
Definition bump_order (o : CreditOrder) : CreditOrder :=
  mkOrder (or_id o) (or_number o) (or_customerId o) (or_version o + 1) (or_discount o) (or_shipping o) (or_grandTotal o)
    (or_reservationExpiresAt o) (or_items o) (or_payments o) (or_staffCommandRecords o) (or_shipment o)
    (or_addressSnapshot o) (or_doorOrder o).
Definition advance_order (orderId : string) : CM CreditOrder :=
  row ← gets (fun d => orders (own d) !! orderId);
  o ← unwrap row P2025;
  throw_if (negb (int4 (or_version (bump_order o)))) P2020 ;;
  on_own (modify (fun t => set_orders (<[orderId := bump_order o]> (orders t)) t)) ;;
  mret (bump_order o).

(** * Approval *)

Definition sale_conflict (message : string) : exn := conflictCode "CREDIT_SALE_CONFLICT" message.

(** [approve] at the time [now] *)
Definition approve_tx (now : Z) (customerId orderId : string) (input : CreditSaleApprovalRequest) (ctx : CreditContext)
    : CM CreditCommandResult :=
  t ← gets own;
  order ← unwrap (match order_row orderId t with
                  | Some o => if bool_decide (or_customerId o = customerId) then Some o else None
                  | None => None end) (notFound "ORDER_NOT_FOUND" "Staff order not found for this customer.");
  throw_if (negb (bool_decide (or_version order = int_val (sq_expectedOrderVersion input))))
    (conflictCode "ORDER_VERSION_CONFLICT" "Order changed; reload before approving credit.") ;;
  throw_if (negb (bool_decide (status_of_order orderId t = Some PENDING_PAYMENT)) || bool_decide (or_staffCommandRecords order = []) ||
            bool_decide (is_Some (fulfillment_of orderId t)))
    (sale_conflict "Only an unfulfilled pending staff order can receive credit approval.") ;;
  throw_if (negb (bool_decide (or_payments order = [])))
    (conflictCode "CREDIT_PAYMENT_CONFLICT" "An order with any payment attempt cannot be converted to credit.") ;;
  account ← account_of customerId (sq_expectedVersion input);
  s ← summary (ca_id account);
  throw_if (negb (bool_decide (ca_status account = CREDIT_ACTIVE)) ||
            negb (bool_decide (cu_status <$> customers t !! or_customerId order = Some CUSTOMER_ACTIVE)))
    (conflictCode "CREDIT_ACCOUNT_INACTIVE" "Customer credit is not active.") ;;
  throw_if (0 <? cs_overdue s)%Z (conflictCode "CREDIT_OVERDUE" "Overdue debt must be reconciled before a new credit sale.") ;;
  amount ← lift_result (creditAmount (pretty (or_grandTotal order)) false);
  throw_if (cs_availableCredit s <? amount)%Z
    (conflictCode "CREDIT_LIMIT_EXCEEDED" "This sale exceeds the available customer credit.") ;;
  db ← gets inv_of;
  let rs := reservations_of orderId db in
  throw_if ((or_reservationExpiresAt order <=? now)%Z || bool_decide (or_items order = []) || bool_decide (rs = []) ||
            existsb (unusable now db) rs)
    (conflictCode "RESERVATION_EXPIRED" "Every credit-sale reservation must still be active and unexpired.") ;;
  let reserved := reserved_map rs in
  let ordered := ordered_map (or_items order) in
  throw_if (negb (bool_decide (size reserved = size ordered)) ||
            existsb (fun kv => negb (bool_decide (reserved !! fst kv = Some (snd kv)))) (map_to_list ordered))
    (sale_conflict "Reservations do not exactly match the ordered SKUs and quantities.") ;;
  document ← create_document cuid (ca_id account) (Some orderId) DOC_SALE amount now (now + ca_termsDays account * 86400000)
    (ca_termsDays account) (or_number order) ctx;
  entry ← create_entry cuid (ca_id account) (rd_id document) None None ENTRY_SALE amount now None None None ctx;
  on_inv (consumeReservationsForOrder cuid orderId (stock_context ctx)) ;;
  create_fulfillment orderId ;;
  transition ← record_order_transition orderId PENDING_PAYMENT CREDIT_APPROVED ctx "STAFF_CREDIT_APPROVAL";
  updated ← advance_order orderId;
  record (mkAuditEvent "credit.sale.approved" "order" (Some orderId) None None
    (Some (JObj [("accountId", JStr (ca_id account)); ("documentId", JStr (rd_id document)); ("transitionId", JStr (tr_id transition));
       ("amount", JStr (pretty amount)); ("termsDays", JNum (ca_termsDays account))])) (Some (cx_actorId ctx)) (Some (cx_requestId ctx))) ;;
  s' ← summary (ca_id account);
  mret (mkResult s' (Some (orderId, CREDIT_APPROVED, or_version updated)) (Some (rd_id document)) None [en_id entry] None None).

(** * Compensation *)

(** A validated line. *)
Record CompLine := mkCompLine { cl_orderItemId : string; cl_quantity : Z; cl_warehouseId : string; cl_locationId : string }.

Definition return_missing : exn := notFound "CREDIT_NOT_FOUND" "Credit sale or return not found for this customer.".

Definition find_item (id : string) (o : CreditOrder) : option OrderLine :=
  head (List.filter (fun i => bool_decide (ol_id i = id)) (or_items o)).
Definition item_of_variant (variant : string) (o : CreditOrder) : option OrderLine :=
  head (List.filter (fun i => bool_decide (ol_variantId i = variant)) (or_items o)).

(** The lines of a cancellation: the consumed reservations of the order. *)
Fixpoint cancel_lines (o : CreditOrder) (rs : list StockReservation) : result (list CompLine) :=
  match rs with
  | [] => Ok []
  | r :: rs =>
      match item_of_variant (variantId (r_key r)) o with
      | Some item =>
          if bool_decide (r_status r = CONSUMED) then
            rest ← cancel_lines o rs;
            Ok (mkCompLine (ol_id item) (r_quantity r) (warehouseId (r_key r)) (locationId (r_key r)) :: rest)
          else Err (return_conflict "Original consumed reservation evidence is missing.")
      | None => Err (return_conflict "Original consumed reservation evidence is missing.")
      end
  end.

Definition returned_map (rs : list CreditSaleReturn) : gmap string Z :=
  foldl (fun m r => foldl (fun m l => add_quantity m (srl_orderItemId l) (srl_quantity l)) m (sr_lines r)) ∅ rs.

(** The loop over the lines, with its map of returned quantities and its total. *)
Fixpoint check_comp_lines (db : InvDb) (o : CreditOrder) (returned : gmap string Z) (amount : Z) (lines : list CompLine)
    : result (gmap string Z * Z) :=
  match lines with
  | [] => Ok (returned, amount)
  | line :: lines =>
      if negb (from_option w_isActive false (warehouses db !! cl_warehouseId line))
      then Err (return_conflict "Return destination warehouse must be active.")
      else
        match find_item (cl_orderItemId line) o with
        | Some item =>
            if negb (bool_decide (ol_total item = ol_unitPrice item * ol_quantity item)%Z) || (ol_unitPrice item <? 0)%Z
            then Err (return_conflict "The return line does not match immutable sale terms.")
            else
              let totalQuantity := (quantity_in returned (ol_id item) + cl_quantity line)%Z in
              if (ol_quantity item <? totalQuantity)%Z
              then Err (return_conflict "Returned quantities exceed the original sale.")
              else check_comp_lines db o (<[ol_id item := totalQuantity]> returned)
                     (amount + ol_unitPrice item * cl_quantity line)%Z lines
        | None => Err (return_conflict "The return line does not match immutable sale terms.")
        end
  end.

(** [`${warehouseId}:${locationId}:${variantId}`] *)
Definition line_place (o : CreditOrder) (l : CompLine) : string :=
  cl_warehouseId l +:+ ":" +:+ cl_locationId l +:+ ":" +:+ from_option ol_variantId "undefined" (find_item (cl_orderItemId l) o).
Definition by_line_place (o : CreditOrder) (a b : CompLine) : Z := byCodeUnit (line_place o a) (line_place o b).

Definition hash_strings (values : list string) : string := hash (stringify_strings values).

(** [creditSaleReturn.create], with the trigger that advances the account when no ledger entry does. *)
Definition create_sale_return (accountId orderId documentId : string) (kind : CompensationKind)
    (amount debtCredit refundDue : Z) (entryId : option string) (evidenceReference evidenceHash reason : string)
    : CM CreditSaleReturn :=
  id ← on_inv (fresh_id cuid);
  now ← gets (fun d => clock (inv_of d));
  (if bool_decide (debtCredit = 0%Z) then advance_account accountId else mret tt) ;;
  taken ← gets (fun d => sale_returns (own d) !! id);
  dup ← gets (fun d => find_by (fun r => bool_decide (sr_evidenceHash r = evidenceHash)) (sale_returns (own d)));
  throw_if (bool_decide (is_Some taken) || bool_decide (is_Some dup)) P2002 ;;
  let row := mkSaleReturn id orderId documentId kind amount debtCredit refundDue entryId evidenceReference evidenceHash reason now [] in
  on_own (modify (fun t => set_sale_returns (<[id := row]> (sale_returns t)) t)) ;;
  mret row.

Definition add_line (r : CreditSaleReturn) (l : CreditSaleReturnLine) : CreditSaleReturn :=
  mkSaleReturn (sr_id r) (sr_orderId r) (sr_documentId r) (sr_kind r) (sr_amount r) (sr_debtCredit r) (sr_refundDue r)
    (sr_entryId r) (sr_evidenceReference r) (sr_evidenceHash r) (sr_reason r) (sr_createdAt r) (sr_lines r ++ [l]).
(** [creditSaleReturnLine.create] *)
Definition create_return_line (returnId orderItemId : string) (quantity unitPrice : Z) (movementId : string) : CM unit :=
  id ← on_inv (fresh_id cuid);
  row ← gets (fun d => sale_returns (own d) !! returnId);
  r ← unwrap row P2003;
  on_own (modify (fun t => set_sale_returns
    (<[returnId := add_line r (mkReturnLine id orderItemId quantity unitPrice movementId)]> (sale_returns t)) t)).

(** One line of the goods taken back: stock, then its evidence. *)
Definition return_line (o : CreditOrder) (returnId : string) (ctx : CreditContext) (indexed : nat * CompLine) : CM unit :=
  let '(index, line) := indexed in
  item ← unwrap (find_item (cl_orderItemId line) o) (JsError "TypeError" "item is undefined");
  movement ← on_inv (changeOnHandIn cuid (mkChange (mkKey (cl_warehouseId line) (cl_locationId line) (ol_variantId item))
    (stock_context ctx) (Int (cl_quantity line)) RETURN_IN (Some "CREDIT_SALE_COMPENSATION") (Some "credit-return") (Some returnId)
    (Some (hash_strings ["credit-return-stock"; returnId; pretty (Z.of_nat index)])) None));
  create_return_line returnId (ol_id item) (cl_quantity line) (ol_unitPrice item) (m_id movement).

Definition delivered_by_staff (tr : Transition FulfillmentStatus) : bool :=
  bool_decide (tr_from tr = FUL_SHIPPED) && bool_decide (tr_to tr = FUL_DELIVERED) &&
  from_option (String.prefix "STAFF_DELIVERY_PROOF:") false (tr_reason tr).

Definition complete_return (o : CreditOrder) (returned : gmap string Z) : bool :=
  forallb (fun i => bool_decide (returned !! ol_id i = Some (ol_quantity i))) (or_items o).

(** The lines of the command: what was consumed, or what the request names after delivery. *)
Definition comp_lines (kind : CompensationKind) (orderId : string) (o : CreditOrder) (f : Fulfillment)
    (returns : list CreditSaleReturn) (requested : list CompLine) : CM (list CompLine) :=
  t ← gets own;
  let status := sd_status (fulfillment_status t) !! fu_id f in
  match kind with
  | COMP_CANCEL =>
      throw_if (bool_decide (is_Some (or_shipment o)) ||
                negb (bool_decide (status ∈ [Some FUL_PENDING; Some FUL_PROCESSING; Some FUL_READY_TO_SHIP])) ||
                negb (bool_decide (returns = [])))
        (return_conflict "Cancellation is permitted only before dispatch and before any return.") ;;
      db ← gets inv_of;
      lift_result (cancel_lines o (reservations_of orderId db))
  | COMP_RETURN =>
      throw_if (negb (bool_decide (status = Some FUL_DELIVERED)) || negb (bool_decide (is_Some (or_shipment o))) ||
                negb (existsb delivered_by_staff (history_of (fu_id f) (fulfillment_status t))))
        (return_conflict "Receive returned goods only after authoritative delivery.") ;;
      mret requested
  end.

(** The transaction of [compensate] at the time [now]. *)
Definition compensate_tx (now : Z) (customerId orderId : string) (kind : CompensationKind) (expectedVersion orderVersion : number)
    (reference reason : string) (requested : list CompLine) (ctx : CreditContext) : CM CreditCommandResult :=
  t ← gets own;
  order ← unwrap (match order_row orderId t with
                  | Some o => if bool_decide (or_customerId o = customerId) then Some o else None
                  | None => None end) return_missing;
  document ← unwrap (document_of_order orderId t) return_missing;
  throw_if (negb (bool_decide (or_version order = int_val orderVersion)))
    (conflictCode "ORDER_VERSION_CONFLICT" "Order changed; reload before compensation.") ;;
  account ← account_of customerId expectedVersion;
  let returns := returns_of_order orderId t in
  let terms_conflict := return_conflict "Only a reconciled staff credit sale with its original zero-discount pickup terms can be compensated." in
  throw_if (negb (bool_decide (rd_accountId document = ca_id account)) || negb (bool_decide (status_of_order orderId t = Some CREDIT_APPROVED)) ||
            negb (bool_decide (is_Some (fulfillment_of orderId t))) || negb (bool_decide (or_discount order = 0%Z)) ||
            negb (bool_decide (or_shipping order = 0%Z)))
    terms_conflict ;;
  fulfillment ← unwrap (fulfillment_of orderId t) terms_conflict;
  throw_if (100 <=? length returns)%nat
    (return_conflict "Maximum return documents reached; financial reconciliation is required.") ;;
  let linkedNotes := omap sr_entryId returns in
  let doc_entries := find_many (fun e => bool_decide (en_documentId e = rd_id document)) (entries t) in
  throw_if (existsb (fun e => bool_decide (en_kind e = ENTRY_DEBIT_ADJUSTMENT) ||
      (bool_decide (en_kind e = ENTRY_CREDIT_NOTE) && negb (bool_decide (en_id e ∈ linkedNotes)))) doc_entries)
    (return_conflict "Reconcile unrelated financial adjustments before returning goods.") ;;
  lines ← comp_lines kind orderId order fulfillment returns requested;
  db ← gets inv_of;
  checked ← lift_result (check_comp_lines db order (returned_map returns) 0 lines);
  let '(returned, amount) := checked in
  throw_if ((amount <? 0)%Z || (or_grandTotal order <? amount)%Z || negb (bool_decide (sumZ ol_total (or_items order) = or_grandTotal order)))
    (return_conflict "Sale totals do not reconcile.") ;;
  let owed := sumZ en_amount doc_entries in
  let debtCredit := (if (amount <? owed)%Z then amount else owed) in
  let refundDue := (amount - debtCredit)%Z in
  let evidenceHash := hash_strings ["credit-return"; ca_id account; fold reference] in
  dup ← gets (fun d => find_by (fun r => bool_decide (sr_evidenceHash r = evidenceHash)) (sale_returns (own d)));
  throw_if (bool_decide (is_Some dup)) (evidence_conflict "Return evidence already recorded.") ;;
  entry ← (if (0 <? debtCredit)%Z then
             e ← create_entry cuid (ca_id account) (rd_id document) None None ENTRY_CREDIT_NOTE (- debtCredit) now (Some reference)
               (Some reason) (Some (hash_strings ["return-credit"; ca_id account; fold reference])) ctx;
             mret (Some (en_id e))
           else mret None);
  row ← create_sale_return (ca_id account) orderId (rd_id document) kind amount debtCredit refundDue entry reference evidenceHash reason;
  let sorted := js_sort (by_line_place order) lines in
  for_each (zip (seq 0 (length sorted)) sorted) (return_line order (sr_id row) ctx) ;;
  let complete := complete_return order returned in
  let final := match kind with COMP_CANCEL => CANCELLED | COMP_RETURN => RETURNED end in
  let final_fulfillment := match kind with COMP_CANCEL => FUL_CANCELLED | COMP_RETURN => FUL_RETURNED end in
  (if complete then
     from ← gets (fun d => default FUL_PENDING (sd_status (fulfillment_status (own d)) !! fu_id fulfillment));
     record_fulfillment_transition (fu_id fulfillment) from final_fulfillment ctx "CREDIT_SALE_COMPENSATION" ;;
     record_order_transition orderId CREDIT_APPROVED final ctx "CREDIT_SALE_COMPENSATION" ;;
     mret tt
   else mret tt) ;;
  updated ← advance_order orderId;
  record (mkAuditEvent "credit.sale.compensated" "order" (Some orderId) None None
    (Some (JObj [("returnId", JStr (sr_id row)); ("documentId", JStr (rd_id document));
       ("kind", JStr (match kind with COMP_CANCEL => "CANCEL" | COMP_RETURN => "RETURN" end)); ("amount", JStr (pretty amount));
       ("debtCredit", JStr (pretty debtCredit)); ("refundDue", JStr (pretty refundDue)); ("lineCount", JNum (Z.of_nat (length lines)))]))
    (Some (cx_actorId ctx)) (Some (cx_requestId ctx))) ;;
  s ← summary (ca_id account);
  mret (mkResult s (Some (orderId, if complete then final else CREDIT_APPROVED, or_version updated)) (Some (rd_id document)) None
    (option_list entry) (Some (sr_id row)) None).

(** * Payouts *)

Definition paid_out (returnId : string) (t : CreditTables) : Z :=
  sumZ py_amount (find_many (fun p => bool_decide (py_returnId p = returnId)) (payouts t)).

(** [creditRefundPayout.create], with its trigger *)
Definition create_payout (accountId returnId : string) (amount : Z) (method : CreditReceiptMethod)
    (evidenceReference evidenceHash reason : string) (effectiveAt : Z) : CM string :=
  id ← on_inv (fresh_id cuid);
  advance_account accountId ;;
  taken ← gets (fun d => payouts (own d) !! id);
  dup ← gets (fun d => find_by (fun p => bool_decide (py_evidenceHash p = evidenceHash)) (payouts (own d)));
  throw_if (bool_decide (is_Some taken) || bool_decide (is_Some dup)) P2002 ;;
  on_own (modify (fun t => set_payouts (<[id := mkPayout id returnId amount method evidenceReference evidenceHash reason effectiveAt]>
    (payouts t)) t)) ;;
  mret id.

(** The transaction of [payout]. *)
Definition payout_tx (customerId orderId returnId : string) (input : CreditRefundPayoutRequest) (amount effectiveAt : Z)
    (reference reason : string) (ctx : CreditContext) : CM CreditCommandResult :=
  account ← account_of customerId (yq_expectedVersion input);
  t ← gets own;
  record_ ← unwrap (match sale_returns t !! returnId with
    | Some r =>
        if bool_decide (sr_orderId r = orderId) &&
           bool_decide (rd_accountId <$> documents t !! sr_documentId r = Some (ca_id account)) &&
           bool_decide (or_customerId <$> orders t !! sr_orderId r = Some customerId) then Some r else None
    | None => None end) return_missing;
  throw_if ((effectiveAt <? sr_createdAt record_)%Z || (sr_refundDue record_ - paid_out returnId t <? amount)%Z)
    (return_conflict "Payout must not precede the return or exceed its remaining refund liability.") ;;
  let evidenceHash := hash_strings ["credit-refund-payout"; method_str (yq_method input); fold reference] in
  dup ← gets (fun d => find_by (fun p => bool_decide (py_evidenceHash p = evidenceHash)) (payouts (own d)));
  throw_if (bool_decide (is_Some dup)) (evidence_conflict "Payout evidence already recorded.") ;;
  payout ← create_payout (ca_id account) returnId amount (yq_method input) reference evidenceHash reason effectiveAt;
  record (mkAuditEvent "credit.refund.payout_recorded" "credit-return" (Some returnId) None None
    (Some (JObj [("payoutId", JStr payout); ("amount", JStr (pretty amount)); ("method", JStr (method_str (yq_method input)))]))
    (Some (cx_actorId ctx)) (Some (cx_requestId ctx))) ;;
  s ← summary (ca_id account);
  mret (mkResult s None None None [] (Some returnId) (Some payout)).
End sales.
