(* ===== verification/CreditService.v ===== *)
(** The public commands of the three credit services: the checks of their input, the
    payload and scope of each durable command, and [executeCommand] with its locks, its
    retries and its mapping of errors. *)

From S2P Require Import Prelude Table Json StableJson AuditTrail Retry InventoryModel Inventory.
From S2P Require Import Durable StateMachine IsoTime Paging Credit CreditCommands CreditSales.

(** * Commands *)

Record CreditCancelRequest := mkCancelRequest {
  nq_expectedVersion : number;
  nq_expectedOrderVersion : number;
  nq_evidenceReference : string;
  nq_reason : string
}.

Inductive CreditCommand :=
  | Policy (input : CreditPolicyRequest)
  | Opening (input : CreditOpeningRequest)
  | Receipt (input : CreditReceiptRequest)
  | ReverseReceipt (receiptId : string) (input : CreditReversalRequest)
  | Adjust (documentId : string) (input : CreditAdjustmentRequest)
  | Approve (orderId : string) (input : CreditSaleApprovalRequest)
  | Cancel (orderId : string) (input : CreditCancelRequest)
  | Return (orderId : string) (input : CreditReturnRequest)
  | Payout (orderId returnId : string) (input : CreditRefundPayoutRequest).

(** What a validated command hands to [executeCommand]. *)
Record Prepared := mkPrepared {
  pr_command : string;
  pr_payload : json;
  pr_orderLock : option string;
  pr_execute : M (Domain CreditTables) CreditCommandResult
}.

(** * Validation *)

(** [allocations.map(...)] *)
Fixpoint check_allocations (items : list CreditAllocation) : result (list Allocation) :=
  match items with
  | [] => Ok []
  | item :: items =>
      documentId ← text (aq_documentId item) 128;
      amount ← creditAmount (aq_amount item) false;
      rest ← check_allocations items;
      Ok (mkAlloc documentId amount :: rest)
  end.
Definition by_document (a b : Allocation) : Z := byCodeUnit (al_documentId a) (al_documentId b).
Definition allocation_json (a : Allocation) : json :=
  JObj [("documentId", JStr (al_documentId a)); ("amount", JStr (pretty (al_amount a)))].

(** [evidence(value, maximum)] and [version(value)] of the return service *)
Definition evidence (value : string) (maximum : Z) : result string :=
  if negb (truthy (trim value)) || (maximum <? Z.of_nat (String.length (trim value)))%Z ||
     existsb is_control (String.list_ascii_of_string value)
  then Err (credit_invalid "A bounded private evidence reference and reason are required.") else Ok (trim value).
Definition check_version (v : number) : result unit :=
  if negb (isInteger v) || (int_val v <? 0)%Z || (2147483647 <? int_val v)%Z
  then Err (credit_invalid "A valid version is required.") else Ok tt.

(** [lines.map(...)] *)
Fixpoint check_return_lines (lines : list ReturnLine) : result (list (string * number * string * string)) :=
  match lines with
  | [] => Ok []
  | l :: lines =>
      item ← evidence (ln_orderItemId l) 128;
      warehouse ← evidence (ln_warehouseId l) 128;
      location ← evidence (ln_locationId l) 128;
      rest ← check_return_lines lines;
      Ok ((item, ln_quantity l, warehouse, location) :: rest)
  end.
Definition by_item (a b : string * number * string * string) : Z := byCodeUnit a.1.1.1 b.1.1.1.
Definition bad_quantity (l : string * number * string * string) : bool :=
  negb (isInteger l.1.1.2) || (int_val l.1.1.2 <? 1)%Z || (1000000 <? int_val l.1.1.2)%Z.
Definition comp_line (l : string * number * string * string) : CompLine :=
  mkCompLine l.1.1.1 (int_val l.1.1.2) l.1.2 l.2.
Definition return_line_json (l : string * number * string * string) : json :=
  JObj [("orderItemId", JStr l.1.1.1); ("warehouseId", JStr l.1.2); ("locationId", JStr l.2); ("quantity", jnumber l.1.1.2)].

(** The calendar check of [payout] on the first nineteen characters; years have four digits. *)
Definition calendar_prefix (value : string) : bool :=
  match iso_fields (String.substring 0 19 value +:+ "Z") with Some t => on_calendar t | None => false end.
Definition payout_date (now : Z) (value : string) : result Z :=
  if negb (calendar_prefix value) then Err (return_conflict "Invalid payout calendar timestamp.")
  else match iso_fields value with
       | Some t =>
           if negb (zone_valid t) || (now <? iso_instant t)%Z
           then Err (return_conflict "A supported payout method and actual past transfer timestamp are required.")
           else Ok (iso_instant t)
       | None => Err (return_conflict "A supported payout method and actual past transfer timestamp are required.")
       end.

(** * Preparation *)

Section service.
Context (cuid : nat -> string) (hash fold : string -> string).

(** The validation of each command at the time [now]; [now1] is the time in its transaction. *)
Definition prepare (now now1 : Z) (customerId : string) (cmd : CreditCommand) (ctx : CreditContext) : result Prepared :=
  match cmd with
  | Policy input =>
      creditLimit ← creditAmount (pq_creditLimit input) true;
      _ ← (if negb (isInteger (pq_termsDays input)) || (int_val (pq_termsDays input) <? 0)%Z || (365 <? int_val (pq_termsDays input))%Z
           then Err (credit_invalid "Invalid account status or payment terms.") else Ok tt);
      _ ← versionInput (pq_expectedVersion input) true;
      Ok (mkPrepared "policy"
        (JObj [("expectedVersion", from_option jnumber JNull (pq_expectedVersion input));
               ("status", JStr (account_status_str (pq_status input))); ("creditLimit", JStr (pq_creditLimit input));
               ("termsDays", jnumber (pq_termsDays input))])
        None (policy_tx cuid customerId input creditLimit ctx))
  | Opening input =>
      amount ← creditAmount (oq_amount input) false;
      issuedAt ← date now (oq_issuedAt input) false;
      dueAt ← date now (oq_dueAt input) true;
      sourceReference ← text (oq_sourceReference input) 128;
      let termsDays := ceil_days (dueAt - issuedAt) in
      _ ← (if (termsDays <? 0)%Z || (365 <? termsDays)%Z
           then Err (credit_invalid "Opening due date must be within 365 days of issuance.") else Ok tt);
      Ok (mkPrepared "opening"
        (JObj [("expectedVersion", jnumber (oq_expectedVersion input)); ("amount", JStr (oq_amount input));
               ("issuedAt", JStr (oq_issuedAt input)); ("dueAt", JStr (oq_dueAt input)); ("sourceReference", JStr sourceReference)])
        None (opening_tx cuid customerId input amount issuedAt dueAt termsDays sourceReference ctx))
  | Receipt input =>
      amount ← creditAmount (rq_amount input) false;
      effectiveAt ← date now (rq_effectiveAt input) false;
      evidenceReference ← text (rq_evidenceReference input) 128;
      _ ← (if bool_decide (rq_allocations input = []) || (100 <? length (rq_allocations input))%nat
           then Err (credit_invalid "A receipt needs a supported method and 1–100 allocations.") else Ok tt);
      checked ← check_allocations (rq_allocations input);
      let allocations := js_sort by_document checked in
      _ ← (if negb (bool_decide (NoDup (al_documentId <$> allocations))) || negb (bool_decide (sumZ al_amount allocations = amount))
           then Err (credit_invalid "Allocations must be distinct and exactly equal the receipt amount.") else Ok tt);
      Ok (mkPrepared "receipt"
        (JObj [("expectedVersion", jnumber (rq_expectedVersion input)); ("amount", JStr (rq_amount input));
               ("method", JStr (method_str (rq_method input))); ("effectiveAt", JStr (rq_effectiveAt input));
               ("evidenceReference", JStr evidenceReference); ("allocations", JArr (allocation_json <$> allocations))])
        None (receipt_tx cuid hash fold customerId input amount effectiveAt evidenceReference allocations ctx))
  | ReverseReceipt receiptId input =>
      effectiveAt ← date now (vq_effectiveAt input) false;
      reason ← text (vq_reason input) 500;
      evidenceReference ← text (vq_evidenceReference input) 128;
      Ok (mkPrepared ("reverse:" +:+ receiptId)
        (JObj [("expectedVersion", jnumber (vq_expectedVersion input)); ("effectiveAt", JStr (vq_effectiveAt input));
               ("evidenceReference", JStr evidenceReference); ("reason", JStr reason)])
        None (reverse_tx cuid customerId receiptId input effectiveAt reason evidenceReference ctx))
  | Adjust documentId input =>
      unsigned ← creditAmount (jq_amount input) false;
      effectiveAt ← date now (jq_effectiveAt input) false;
      reason ← text (jq_reason input) 500;
      evidenceReference ← text (jq_evidenceReference input) 128;
      let amount := match jq_kind input with CREDIT_NOTE => (- unsigned)%Z | DEBIT_ADJUSTMENT => unsigned end in
      Ok (mkPrepared ("adjust:" +:+ documentId)
        (JObj [("expectedVersion", jnumber (jq_expectedVersion input)); ("kind", JStr (adjustment_str (jq_kind input)));
               ("amount", JStr (jq_amount input)); ("effectiveAt", JStr (jq_effectiveAt input));
               ("evidenceReference", JStr evidenceReference); ("reason", JStr reason)])
        None (adjust_tx cuid hash fold customerId documentId input amount effectiveAt reason evidenceReference ctx))
  | Approve orderId input =>
      _ ← (let v := sq_expectedOrderVersion input in
           if negb (isInteger v) || (int_val v <? 0)%Z || (2147483647 <? int_val v)%Z
           then Err (conflictCode "ORDER_VERSION_CONFLICT" "A valid order version is required.") else Ok tt);
      Ok (mkPrepared ("sale:" +:+ orderId)
        (JObj [("expectedVersion", jnumber (sq_expectedVersion input)); ("expectedOrderVersion", jnumber (sq_expectedOrderVersion input))])
        (Some orderId) (approve_tx cuid now1 customerId orderId input ctx))
  | Cancel orderId input =>
      _ ← check_version (nq_expectedVersion input);
      _ ← check_version (nq_expectedOrderVersion input);
      reference ← evidence (nq_evidenceReference input) 128;
      reason ← evidence (nq_reason input) 500;
      Ok (mkPrepared ("return:CANCEL:" +:+ orderId)
        (JObj [("expectedVersion", jnumber (nq_expectedVersion input)); ("expectedOrderVersion", jnumber (nq_expectedOrderVersion input));
               ("evidenceReference", JStr reference); ("reason", JStr reason)])
        (Some orderId) (compensate_tx cuid hash fold now1 customerId orderId COMP_CANCEL (nq_expectedVersion input)
          (nq_expectedOrderVersion input) reference reason [] ctx))
  | Return orderId input =>
      _ ← check_version (tq_expectedVersion input);
      _ ← check_version (tq_expectedOrderVersion input);
      reference ← evidence (tq_evidenceReference input) 128;
      reason ← evidence (tq_reason input) 500;
      _ ← (if bool_decide (tq_lines input = []) || (50 <? length (tq_lines input))%nat
           then Err (return_conflict "Return 1–50 real order lines.") else Ok tt);
      checked ← check_return_lines (tq_lines input);
      let requested := js_sort by_item checked in
      _ ← (if negb (bool_decide (NoDup ((fun l => l.1.1.1) <$> requested))) || existsb bad_quantity requested
           then Err (return_conflict "Return quantities must be bounded positive integers and line IDs distinct.") else Ok tt);
      Ok (mkPrepared ("return:RETURN:" +:+ orderId)
        (JObj [("expectedVersion", jnumber (tq_expectedVersion input)); ("expectedOrderVersion", jnumber (tq_expectedOrderVersion input));
               ("evidenceReference", JStr reference); ("reason", JStr reason); ("lines", JArr (return_line_json <$> requested))])
        (Some orderId) (compensate_tx cuid hash fold now1 customerId orderId COMP_RETURN (tq_expectedVersion input)
          (tq_expectedOrderVersion input) reference reason (comp_line <$> requested) ctx))
  | Payout orderId returnId input =>
      _ ← check_version (yq_expectedVersion input);
      amount ← creditAmount (yq_amount input) false;
      reference ← evidence (yq_evidenceReference input) 128;
      reason ← evidence (yq_reason input) 500;
      effectiveAt ← payout_date now (yq_effectiveAt input);
      Ok (mkPrepared ("refund:" +:+ returnId)
        (JObj [("expectedVersion", jnumber (yq_expectedVersion input)); ("amount", JStr (yq_amount input));
               ("method", JStr (method_str (yq_method input))); ("evidenceReference", JStr reference); ("reason", JStr reason);
               ("effectiveAt", JStr (yq_effectiveAt input)); ("orderId", JStr orderId)])
        (Some orderId) (payout_tx cuid hash fold customerId orderId returnId input amount effectiveAt reference reason ctx))
  end.

(** * Execution *)

(** [common/idempotency-key.ts]: [normalizeIdempotencyKey(value)] *)
Definition normalizeIdempotencyKey (value : string) : result string :=
  let key := trim value in
  if negb (truthy key) || (128 <? String.length key)%nat || existsb is_control (String.list_ascii_of_string key)
  then Err (HttpException BadRequestException (Some "INVALID_REQUEST") "A valid Idempotency-Key of at most 128 characters is required.")
  else Ok key.

Definition credit_store : Type := Store CreditTables CreditCommandResult.

Definition credit_command_id (customerId key : string) (p : Prepared) (ctx : CreditContext) : CommandId :=
  mkCommandId (cx_actorId ctx) ("credit:" +:+ hash (customerId +:+ ":" +:+ pr_command p)) (hash key) (hash (stableJson (pr_payload p))).

Definition concurrent_message : string := "Concurrent credit command; retry with the same key.".
(** The texts of the record protocol; the lock and the last text are those of [executeCommand] itself. *)
Definition credit_texts : CommandTexts := mkTexts "credit-account"
  (credit_invalid "A tracked actor and request are required.")
  (conflictCode "IDEMPOTENCY_CONFLICT" "Key reused with a different credit command.")
  (conflictCode "CREDIT_COMMAND_CONFLICT" "Command has not completed.")
  (HttpException ConflictException (Some "CONFLICT") concurrent_message).

(** The transaction of [executeCommand]; the row lock on the order has no effect of its own. *)
Definition credit_tx (customerId : string) (c : CommandId) (p : Prepared) : M credit_store CreditCommandResult :=
  (match pr_orderLock p with Some orderId => on_domain (lock_in ["order"; orderId]) | None => mret tt end) ;;
  on_domain (lock_in ["credit-account"; customerId]) ;;
  recorded cuid credit_texts c (pr_execute p) mret id.

Definition recorded_already : exn := evidence_conflict "This financial evidence was already recorded.".
Definition command_failed : exn := HttpException InternalServerErrorException (Some "CREDIT_COMMAND_FAILED")
  "Credit command could not be confirmed; reload and retry with the same idempotency key.".
(** The catch clause of [executeCommand]. *)
Definition credit_error (e : exn) : exn :=
  match e with
  | PrismaClientKnownRequestError code _ => if bool_decide (code = "P2002") then recorded_already else command_failed
  | HttpException _ _ _ => e
  | JsError _ _ => command_failed
  end.

(** [executeCommand(customerId, command, payload, context, execute, orderLockId)] *)
Definition executeCommand (E : env credit_store) (customerId : string) (p : Prepared) (ctx : CreditContext) (s : credit_store)
    : result CreditCommandResult * credit_store :=
  match normalizeIdempotencyKey (cx_idempotencyKey ctx) with
  | Err e => (Err e, s)
  | Ok key =>
      if negb (truthy (cx_actorId ctx)) || negb (truthy (cx_requestId ctx)) || (100 <? String.length (cx_requestId ctx))%nat
      then (Err (credit_invalid "A tracked actor and request are required."), s)
      else
        let '(r, s') := withSerializableRetry E (begin_store (credit_tx customerId (credit_command_id customerId key p ctx) p))
          isPrismaTransactionConflict concurrent_message SERIALIZABLE_RETRIES s in
        match r with Ok x => (Ok x, s') | Err e => (Err (credit_error e), s') end
  end.

(** A public command of the credit services. *)
Definition run_credit (E : env credit_store) (now now1 : Z) (customerId : string) (cmd : CreditCommand) (ctx : CreditContext)
    (s : credit_store) : result CreditCommandResult * credit_store :=
  match prepare now now1 customerId cmd ctx with
  | Err e => (Err e, s)
  | Ok p => executeCommand E customerId p ctx s
  end.

(** * Compensations of an order *)

Record CreditSaleReturnView := mkReturnView {
  vw_id : string;
  vw_kind : CompensationKind;
  vw_amount : Z;
  vw_debtCredit : Z;
  vw_refundDue : Z;
  vw_refunded : Z;
  vw_refundRemaining : Z;
  vw_createdAt : Z;
  vw_lines : list (string * Z * Z)
}.
Definition return_view (t : CreditTables) (r : CreditSaleReturn) : CreditSaleReturnView :=
  let refunded := paid_out (sr_id r) t in
  mkReturnView (sr_id r) (sr_kind r) (sr_amount r) (sr_debtCredit r) (sr_refundDue r) refunded (sr_refundDue r - refunded)
    (sr_createdAt r) ((fun l => (srl_orderItemId l, srl_quantity l, srl_unitPrice l)) <$> sr_lines r).

Context (collate : string -> string -> Z).
(** [orderBy: [{ createdAt: 'asc' }, { id: 'asc' }], take: 100] *)
Definition listIn (orderId : string) (t : CreditTables) : list CreditSaleReturnView :=
  return_view t <$> take 100 (find_sorted (then_by (ascending sr_createdAt) (by_text collate sr_id))
    (fun r => bool_decide (sr_orderId r = orderId)) (sale_returns t)).
(** [list(customerId, orderId)] *)
Definition list_returns (customerId orderId : string) (t : CreditTables) : result (list CreditSaleReturnView) :=
  match order_row orderId t with
  | Some o =>
      if bool_decide (or_customerId o = customerId) && bool_decide (is_Some (document_of_order orderId t))
      then Ok (listIn orderId t) else Err return_missing
  | None => Err return_missing
  end.
(** [customerList(userId, orderId)] *)
Definition customer_returns (userId orderId : string) (t : CreditTables) : result (list CreditSaleReturnView) :=
  match order_row orderId t with
  | Some o =>
      if bool_decide ((c ← customers t !! or_customerId o; if bool_decide (cu_status c = CUSTOMER_ACTIVE) then cu_userId c else None)
            = Some userId) && bool_decide (is_Some (document_of_order orderId t))
      then Ok (listIn orderId t) else Err return_missing
  | None => Err return_missing
  end.
End service.
