(* ===== verification/Sales.v ===== *)
(** Placed orders: the tables that cancellation, fulfillment, shipment and payment work on,
    with what they share.  The state extends the tables of customer credit, which hold
    the orders, by payments, picks, shipments, promotion capacity, the outbox and the
    records of order commands.

    The relations [order.payments] and [order.shipment] are the columns [or_payments] and
    [or_shipment] of the order.  A row of [FulfillmentTransition] without [from] is in
    [openings], every other in the history of [fulfillment_status].  The transaction's
    clock gives [createdAt]; [updatedAt] is left out.  Times in JSON payloads are numbers. *)

From S2P Require Import Prelude Table Json StableJson AuditTrail Retry InventoryModel Inventory.
From S2P Require Import Door.
From S2P Require Import Durable StateMachine PromotionEngine PromotionClaims Credit CreditCommands CreditSales.

(** * Data *)

Record Payment := mkPaymentRow {
  pt_id : string;
  pt_orderId : string;
  pt_provider : string;
  pt_amount : Z;
  pt_authority : option string;
  pt_referenceId : option string;
  pt_refundedAmount : Z;
  pt_idempotencyKey : string;
  pt_idempotencyFingerprint : string;
  pt_correlationId : option string;
  pt_gatewayEnvironment : string;
  pt_createdAt : Z
}.
Record FulfillmentOpening := mkOpening {
  fo_id : string;
  fo_fulfillmentId : string;
  fo_reason : option string;
  fo_requestId : option string
}.
Record FulfillmentPick := mkPick {
  fp_id : string;
  fp_fulfillmentId : string;
  fp_orderItemId : string;
  fp_quantity : Z;
  fp_actorId : option string;
  fp_requestId : string;
  fp_createdAt : Z
}.
Record ShipmentLine := mkShipmentLine { sl_id : string; sl_orderItemId : string; sl_quantity : Z }.
Record Shipment := mkShipment {
  sh_id : string;
  sh_orderId : string;
  sh_fulfillmentId : string;
  sh_carrier : string;
  sh_trackingCode : string;
  sh_addressSnapshot : json;
  sh_actorId : option string;
  sh_requestId : string;
  sh_dispatchedAt : Z;
  sh_lines : list ShipmentLine
}.
Record OutboxEvent := mkOutboxEvent {
  ob_id : string;
  ob_topic : string;
  ob_aggregateType : string;
  ob_aggregateId : string;
  ob_deduplicationKey : string;
  ob_payload : json
}.
Record Refund := mkRefund {
  rf_id : string;
  rf_paymentId : string;
  rf_amount : Z;
  rf_gatewayReferenceId : string;
  rf_reason : string;
  rf_note : option string;
  rf_idempotencyKey : string;
  rf_actorId : string;
  rf_requestId : string;
  rf_createdAt : Z
}.

(** The columns of a made-to-order door that its payments read; it has the key of its order. *)
Record DoorOrder := mkDoorOrder {
  dr_id : string;
  dr_status : DoorStatus;
  dr_version : Z;
  dr_currentQuoteVersion : Z;
  dr_customerAcceptedQuoteVersion : option Z
}.
Record DoorQuotation := mkQuotation {
  dq_id : string;
  dq_orderId : string;
  dq_version : Z;
  dq_approved : bool;
  dq_total : option Z
}.
Record DoorProductionRecord := mkProductionRecord {
  dp_id : string;
  dp_orderId : string;
  dp_action : string;
  dp_message : string;
  dp_payload : json
}.
(** [allocations] maps a payment to its [DoorPaymentAllocation.quoteId]. *)
Record DoorTables := mkDoorTables {
  door_orders : gmap string DoorOrder;
  quotations : gmap string DoorQuotation;
  allocations : gmap string string;
  production_records : gmap string DoorProductionRecord
}.
Definition set_door_orders x (t : DoorTables) : DoorTables := mkDoorTables x (quotations t) (allocations t) (production_records t).
Definition set_allocations x (t : DoorTables) : DoorTables := mkDoorTables (door_orders t) (quotations t) x (production_records t).
Definition set_production x (t : DoorTables) : DoorTables := mkDoorTables (door_orders t) (quotations t) (allocations t) x.

(** The responses that order commands store. *)
Record OrderCommandResult := mkCommandResult {
  ocr_id : string;
  ocr_number : string;
  ocr_status : OrderStatus;
  ocr_releasedReservations : Z;
  ocr_cancelledAt : Z
}.
Record FulfillmentPickProof := mkProof {
  pp_id : string;
  pp_orderItemId : string;
  pp_quantity : Z;
  pp_actorId : option string;
  pp_requestId : string;
  pp_createdAt : Z
}.
Inductive OrderResponse :=
  | Cancelled (order : OrderCommandResult)
  | Advanced (fulfillmentId orderId : string) (status : FulfillmentStatus)
  | Picked (pick : FulfillmentPickProof)
  | Dispatched (shipmentId carrier trackingCode : string) (dispatchedAt : Z)
  | Delivered (shipmentId orderId proofReference : string) (confirmedAt : Z).
Record OrderCommandRecord := mkOrderCommand {
  oc_id : string;
  oc_orderId : string;
  oc_scope : string;
  oc_keyHash : string;
  oc_fingerprint : string;
  oc_response : option OrderResponse;
  oc_expiresAt : Z
}.

Record SalesTables := mkSales {
  credit : CreditTables;
  promo : PromoTables;
  doors : DoorTables;
  payments : gmap string Payment;
  payment_status : StatusDb PaymentStatus;
  refunds : gmap string Refund;
  openings : list FulfillmentOpening;
  picks : gmap string FulfillmentPick;
  shipments : gmap string Shipment;
  outbox : gmap string OutboxEvent;
  commands : gmap string OrderCommandRecord
}.
Definition set_credit x (t : SalesTables) : SalesTables :=
  mkSales x (promo t) (doors t) (payments t) (payment_status t) (refunds t) (openings t) (picks t) (shipments t) (outbox t) (commands t).
Definition set_promo x (t : SalesTables) : SalesTables :=
  mkSales (credit t) x (doors t) (payments t) (payment_status t) (refunds t) (openings t) (picks t) (shipments t) (outbox t) (commands t).
Definition set_doors x (t : SalesTables) : SalesTables :=
  mkSales (credit t) (promo t) x (payments t) (payment_status t) (refunds t) (openings t) (picks t) (shipments t) (outbox t) (commands t).
Definition set_payments x (t : SalesTables) : SalesTables :=
  mkSales (credit t) (promo t) (doors t) x (payment_status t) (refunds t) (openings t) (picks t) (shipments t) (outbox t) (commands t).
Definition set_payment_status x (t : SalesTables) : SalesTables :=
  mkSales (credit t) (promo t) (doors t) (payments t) x (refunds t) (openings t) (picks t) (shipments t) (outbox t) (commands t).
Definition set_refunds x (t : SalesTables) : SalesTables :=
  mkSales (credit t) (promo t) (doors t) (payments t) (payment_status t) x (openings t) (picks t) (shipments t) (outbox t) (commands t).
Definition set_openings x (t : SalesTables) : SalesTables :=
  mkSales (credit t) (promo t) (doors t) (payments t) (payment_status t) (refunds t) x (picks t) (shipments t) (outbox t) (commands t).
Definition set_picks x (t : SalesTables) : SalesTables :=
  mkSales (credit t) (promo t) (doors t) (payments t) (payment_status t) (refunds t) (openings t) x (shipments t) (outbox t) (commands t).
Definition set_shipments x (t : SalesTables) : SalesTables :=
  mkSales (credit t) (promo t) (doors t) (payments t) (payment_status t) (refunds t) (openings t) (picks t) x (outbox t) (commands t).
Definition set_outbox x (t : SalesTables) : SalesTables :=
  mkSales (credit t) (promo t) (doors t) (payments t) (payment_status t) (refunds t) (openings t) (picks t) (shipments t) x (commands t).
Definition set_commands x (t : SalesTables) : SalesTables :=
  mkSales (credit t) (promo t) (doors t) (payments t) (payment_status t) (refunds t) (openings t) (picks t) (shipments t) (outbox t) x.

#[export] Instance sales_credit : Lens (Domain SalesTables) (Domain CreditTables) :=
  {| view := fun s => mkDomain (inv_of s) (credit (own s)); put := fun d s => mkDomain (inv_of d) (set_credit (own d) (own s)) |}.
#[export] Instance sales_promo : Lens (Domain SalesTables) (Domain PromoTables) :=
  {| view := fun s => mkDomain (inv_of s) (promo (own s)); put := fun d s => mkDomain (inv_of d) (set_promo (own d) (own s)) |}.
#[export] Instance payment_status_lens : Lens SalesTables (StatusDb PaymentStatus) :=
  {| view := payment_status; put := set_payment_status |}.

Notation Sales := (Domain SalesTables).
Notation SM := (M Sales).
Definition on_credit {A} (m : M (Domain CreditTables) A) : SM A := zoom m.
Definition on_promo {A} (m : M (Domain PromoTables) A) : SM A := zoom m.

(** * Reads *)

Definition find_order (orderId : string) (t : SalesTables) : option CreditOrder := orders (credit t) !! orderId.
Definition order_state (orderId : string) (t : SalesTables) : option OrderStatus := sd_status (order_status (credit t)) !! orderId.
Definition order_fulfillment (orderId : string) (t : SalesTables) : option Fulfillment := fulfillment_of orderId (credit t).
Definition fulfillment_state (id : string) (t : SalesTables) : option FulfillmentStatus :=
  sd_status (fulfillment_status (credit t)) !! id.
Definition payment_state (id : string) (t : SalesTables) : option PaymentStatus := sd_status (payment_status t) !! id.

(** [order.fulfillment?.status !== status] *)
Definition fulfillment_in (orderId : string) (t : SalesTables) (s : FulfillmentStatus) : bool :=
  bool_decide ((f ← order_fulfillment orderId t; fulfillment_state (fu_id f) t) = Some s).

(** [payments: { where: { status: { in: \['PAID', 'PARTIALLY_REFUNDED'\] } } }] *)
Definition settled_payments (o : CreditOrder) (t : SalesTables) : list string :=
  List.filter (fun id => bool_decide (payment_state id t ∈ [Some PAY_PAID; Some PAY_PARTIALLY_REFUNDED])) (or_payments o).

(** [hasFulfillmentFinancialProof(tx, orderId, status, settledPayments)] *)
Definition sale_entries (d : ReceivableDocument) (t : CreditTables) : list CreditLedgerEntry :=
  find_many (fun e => bool_decide (en_documentId e = rd_id d) && bool_decide (en_kind e = ENTRY_SALE)) (entries t).
Definition hasFulfillmentFinancialProof (orderId : string) (status : option OrderStatus) (settled : list string) (t : CreditTables)
    : bool :=
  if bool_decide (status = Some PAID) then negb (bool_decide (settled = []))
  else if negb (bool_decide (status = Some CREDIT_APPROVED)) then false
  else
    match document_of_order orderId t, orders t !! orderId with
    | Some d, Some o =>
        bool_decide (rd_kind d = DOC_SALE) && bool_decide (ca_customerId <$> accounts t !! rd_accountId d = Some (or_customerId o)) &&
        bool_decide (rd_amount d = or_grandTotal o) && bool_decide (or_payments o = []) &&
        match sale_entries d t with
        | [e] => bool_decide (en_amount e = rd_amount d) && bool_decide (en_effectiveAt e = rd_issuedAt d)
        | _ => false
        end
    | _, _ => false
    end.

(** [stockReservation.count({ where: { orderId } })], and with status CONSUMED; the guard
    that settlement consumed them all. *)
Definition consumed_all (orderId : string) (db : InvDb) : bool :=
  let total := count_rows (fun r => bool_decide (r_orderId r = Some orderId)) (reservations db) in
  let consumed := count_rows (fun r => bool_decide (r_orderId r = Some orderId) && bool_decide (r_status r = CONSUMED)) (reservations db) in
  negb (bool_decide (total = 0%Z) || negb (bool_decide (consumed = total))).

(** * Shared steps *)

Section steps.
Context (cuid : nat -> string).

(** [acquireOrderLock(tx, orderId)] *)
Definition acquireOrderLock (orderId : string) : SM unit := lock_in ["order"; orderId].

(** [outboxEvent.create], with its unique key. *)
Definition outbox_key (key : string) (e : OutboxEvent) : bool := bool_decide (ob_deduplicationKey e = key).
Definition create_outbox (topic aggregateType aggregateId deduplicationKey : string) (payload : json) : SM unit :=
  id ← on_inv (fresh_id cuid);
  taken ← gets (fun d => outbox (own d) !! id);
  dup ← gets (fun d => find_by (outbox_key deduplicationKey) (outbox (own d)));
  throw_if (bool_decide (is_Some taken) || bool_decide (is_Some dup)) P2002 ;;
  on_own (modify (fun t => set_outbox (<[id := mkOutboxEvent id topic aggregateType aggregateId deduplicationKey payload]>
    (outbox t)) t)).

(** Transitions of orders and fulfillments belong to the credit tables; the opening row of a
    fulfillment counts for its unique request too. *)
Definition move_order (orderId : string) (from to : OrderStatus) (meta : TransitionMeta) : SM (Transition OrderStatus) :=
  rowId ← on_inv (fresh_id cuid);
  on_credit (on_own (zoom (recordTransition rowId orderId from to meta))).
Definition opening_of (fulfillmentId : string) (requestId : option string) (t : SalesTables) : bool :=
  bool_decide (is_Some requestId) &&
  existsb (fun o => bool_decide (fo_fulfillmentId o = fulfillmentId) && bool_decide (fo_requestId o = requestId)) (openings t).
Definition move_fulfillment (id : string) (from to : FulfillmentStatus) (meta : TransitionMeta) : SM (Transition FulfillmentStatus) :=
  opening ← gets (fun d => opening_of id (tm_requestId meta) (own d));
  throw_if opening P2002 ;;
  rowId ← on_inv (fresh_id cuid);
  on_credit (on_own (zoom (recordTransition rowId id from to meta))).
Definition move_payment (id : string) (from to : PaymentStatus) (meta : TransitionMeta) : SM (Transition PaymentStatus) :=
  rowId ← on_inv (fresh_id cuid);
  on_own (zoom (recordTransition rowId id from to meta)).
Definition meta_of (actorId requestId : option string) (reason : string) : TransitionMeta :=
  {| tm_actorId := actorId; tm_requestId := requestId; tm_reason := Some reason |}.

(** ** Records of order commands *)

Definition same_key (orderId scope keyHash : string) (r : OrderCommandRecord) : bool :=
  bool_decide (oc_orderId r = orderId) && bool_decide (oc_scope r = scope) && bool_decide (oc_keyHash r = keyHash).
Definition find_command (orderId scope keyHash : string) (t : SalesTables) : option OrderCommandRecord :=
  find_by (same_key orderId scope keyHash) (commands t).

(** [orderCommandIdempotencyRecord.create]; the order must exist. *)
Definition create_command (orderId scope keyHash fingerprint : string) (response : option OrderResponse) (expiresAt : Z) : SM string :=
  id ← on_inv (fresh_id cuid);
  taken ← gets (fun d => commands (own d) !! id);
  dup ← gets (fun d => find_command orderId scope keyHash (own d));
  throw_if (bool_decide (is_Some taken) || bool_decide (is_Some dup)) P2002 ;;
  order ← gets (fun d => find_order orderId (own d));
  throw_if (bool_decide (order = None)) P2003 ;;
  on_own (modify (fun t => set_commands (<[id := mkOrderCommand id orderId scope keyHash fingerprint response expiresAt]> (commands t)) t)) ;;
  mret id.

(** [storeShipmentCommandReplay(tx, input)] at the time [now], and the same statement in the
    fulfillment services. *)
Definition DAY_MS : Z := 86400000.
Definition storeShipmentCommandReplay (now : Z) (orderId scope keyHash fingerprint : string) (response : OrderResponse) : SM unit :=
  _ ← create_command orderId scope keyHash fingerprint (Some response) (now + DAY_MS);
  mret tt.

(** The answer of a recorded key. *)
Definition payload_conflict : exn := conflictCode "IDEMPOTENCY_CONFLICT" "Idempotency key payload conflict.".
Definition replay_command (prior : OrderCommandRecord) (fingerprint : string) (running : exn) : SM OrderResponse :=
  throw_if (negb (bool_decide (oc_fingerprint prior = fingerprint))) payload_conflict ;;
  unwrap (oc_response prior) running.

(** A transaction starts without advisory locks. *)
Definition begin_sale {A} (m : SM A) : SM A := on_inv (modify (set_locks [])) ;; m.
End steps.

(** [createHash('sha256').update(JSON.stringify(value))] *)
Definition fingerprint_of (hash : string -> string) (fields : list (string * json)) : string := hash (print_json (JObj fields)).

Record OrderContext := mkOrderContext { ox_actorId : string; ox_requestId : string; ox_idempotencyKey : string }.
