(* ===== verification/Outbox.v ===== *)
(** The outbox, [src/apps/api/src/modules/outbox] with the workers of [media-worker.ts]: the
    relay hands committed events to a queue, the consumer turns each into one effect and its
    notifications, an operator may have an event relayed again; and
    [notifications/customer-sms-delivery.service.ts], which sends the effects meant for
    customers as messages.  These run outside of one transaction, as [prog]s whose statements
    interleave with each other and with everything else.

    A row of [OutboxEvent] is in [outbox] with the columns its writers set and in [delivery]
    with those of its delivery.  The transaction of the consumer is Read Committed: each of
    its reads sees what is committed by then, and its writes take place together at the
    commit, each on the rows that its statement found, as the row locks ensure.  [locked] are
    the rows that transactions in flight hold, which the relay skips.  The queue, the text
    message provider, the templates and the permissions are other systems; queued jobs may run
    at any time, any number of times.  Texts for people are in UTF-8. *)

From S2P Require Import Prelude Processes Table Paging Json AuditTrail Retry InventoryModel Inventory.
From S2P Require Import Durable StateMachine Credit Sales.

(** * Data *)

Record Delivery := mkDelivery {
  dl_availableAt : Z;
  dl_publishedAt : option Z;
  dl_attempts : Z;
  dl_deadLetteredAt : option Z;
  dl_lastErrorCode : option string;
  dl_consumedAt : option Z;
  dl_processingDeadLetteredAt : option Z;
  dl_lastProcessingErrorCode : option string
}.
Definition new_delivery (now : Z) : Delivery := mkDelivery now None 0 None None None None None.

Inductive OutboxEffectKind :=
  | CUSTOMER_DOOR_QUOTE_APPROVED
  | CUSTOMER_ORDER_CREATED
  | CUSTOMER_ORDER_CANCELLED
  | CUSTOMER_ORDER_EXPIRED
  | CUSTOMER_ORDER_PAID
  | CUSTOMER_SHIPMENT_DISPATCHED
  | CUSTOMER_SHIPMENT_DELIVERED
  | PAYMENT_RECONCILIATION
  | PAYMENT_REFUND_REVIEW.
#[export] Instance effect_kind_eq_dec : EqDecision OutboxEffectKind.
Proof. solve_decision. Defined.
Inductive OutboxEffectStatus := EFFECT_PENDING | EFFECT_COMPLETED | EFFECT_FAILED.
#[export] Instance effect_status_eq_dec : EqDecision OutboxEffectStatus.
Proof. solve_decision. Defined.
Record OutboxEffect := mkEffect {
  ef_id : string;
  ef_eventId : string;
  ef_kind : OutboxEffectKind;
  ef_subjectId : string;
  ef_status : OutboxEffectStatus;
  ef_attemptCount : Z;
  ef_lastAttemptAt : option Z;
  ef_nextAttemptAt : Z;
  ef_lastResultCode : option string;
  ef_providerMessageId : option string;
  ef_createdAt : Z
}.

Inductive InAppNotificationAudience := TO_CUSTOMER | TO_STAFF.
#[export] Instance audience_eq_dec : EqDecision InAppNotificationAudience.
Proof. solve_decision. Defined.
Record NotificationData := mkNotice {
  nd_userId : string;
  nd_audience : InAppNotificationAudience;
  nd_kind : string;
  nd_title : string;
  nd_body : string;
  nd_href : option string;
  nd_dedupKey : string
}.
Record InAppNotification := mkNotification { in_id : string; in_data : NotificationData; in_readAt : option Z; in_createdAt : Z }.

(** Users, and what the permission of a user rests on. *)
Inductive UserStatus := USER_ACTIVE | USER_PENDING | USER_SUSPENDED | USER_LOCKED | USER_DELETED.
#[export] Instance user_status_eq_dec : EqDecision UserStatus.
Proof. solve_decision. Defined.
Record User := mkUser { us_id : string; us_status : UserStatus; us_deletedAt : option Z }.
Record UserRole := mkUserRole { ur_userId : string; ur_roleId : string; ur_revokedAt : option Z; ur_expiresAt : option Z }.
Record RolePermission := mkRolePermission { rp_roleId : string; rp_permissionId : string; rp_revokedAt : option Z }.
Record Permission := mkPermission { pm_id : string; pm_key : string; pm_isActive : bool }.
Record Access := mkAccess {
  users : gmap string User;
  user_roles : gmap string UserRole;
  active_roles : gmap string bool;
  role_permissions : gmap string RolePermission;
  permissions : gmap string Permission
}.

Record Mail := mkMail {
  business : Sales;
  delivery : gmap string Delivery;
  effects : gmap string OutboxEffect;
  inbox : gmap string InAppNotification;
  mobiles : gmap string string;  (** [Customer.mobile] by customer *)
  access : Access;
  locked : list string
}.
Definition set_business x (m : Mail) : Mail := mkMail x (delivery m) (effects m) (inbox m) (mobiles m) (access m) (locked m).
Definition set_delivery x (m : Mail) : Mail := mkMail (business m) x (effects m) (inbox m) (mobiles m) (access m) (locked m).
Definition set_effects x (m : Mail) : Mail := mkMail (business m) (delivery m) x (inbox m) (mobiles m) (access m) (locked m).
Definition set_inbox x (m : Mail) : Mail := mkMail (business m) (delivery m) (effects m) x (mobiles m) (access m) (locked m).
#[export] Instance mail_business : Lens Mail Sales := {| view := business; put := set_business |}.
#[export] Instance mail_business_laws : LensLaws Mail Sales.
Proof. by split; intros; [|destruct s|]. Qed.

Definition now_of (m : Mail) : Z := clock (inv_of (business m)).
Definition event_of (id : string) (m : Mail) : option (OutboxEvent * Delivery) :=
  e ← outbox (own (business m)) !! id; d ← delivery m !! id; Some (e, d).

(** * Other systems *)

Inductive SmsPurpose := door_quote_approved | customer_login | order_paid | shipment_dispatched | shipment_delivered.
#[export] Instance sms_purpose_eq_dec : EqDecision SmsPurpose.
Proof. solve_decision. Defined.
Record SmsSendRequest := mkSms {
  sms_purpose : SmsPurpose;
  sms_destination : string;
  sms_templateId : Z;
  sms_Order : string;
  sms_correlationId : string
}.
Inductive SmsRejectionReason :=
  | authentication | account | sender | template | destination | content | no_credit | invalid_request | unknown.
Inductive SmsSendResult :=
  | accepted (providerMessageId : string)
  | rate_limited
  | rejected (reason : SmsRejectionReason)
  | unavailable
  | unknown_result
  | disabled.

Inductive question :=
  | Enqueue (eventId : string)  (** [queue.add('deliver', { eventId }, { jobId: eventId, ... })] *)
  | GetJob (eventId : string)
  | GetState (eventId : string)
  | RemoveJob (eventId : string)
  | EffectivePermissionKeys (actorId : string)
  | RandomUUID
  | ResolveTemplate (purpose : SmsPurpose)
  | Send (request : SmsSendRequest).
Definition reply (q : question) : Type :=
  match q with
  | Enqueue _ | RemoveJob _ => result unit
  | GetJob _ => result bool
  | GetState _ => result string
  | EffectivePermissionKeys _ => result (list string)
  | RandomUUID => string
  | ResolveTemplate _ => result (option Z)
  | Send _ => result SmsSendResult
  end.
Notation MP := (prog Mail question reply).

(** [await] of a call that may throw. *)
Definition enqueue (eventId : string) : MP unit := r ← ask (Enqueue eventId); of_result (r : result unit).

(** [error.name], checked by a pattern before it is stored.  The two classes the consumer
    declares do not set it, so theirs is that of [Error]. *)
Definition error_name (e : exn) : string :=
  match e with
  | HttpException kind _ _ =>
      match kind with
      | BadRequestException => "BadRequestException"
      | NotFoundException => "NotFoundException"
      | ConflictException => "ConflictException"
      | UnprocessableEntityException => "UnprocessableEntityException"
      | InternalServerErrorException => "InternalServerErrorException"
      | ServiceUnavailableException => "ServiceUnavailableException"
      | HttpStatus _ => "HttpException"
      end
  | PrismaClientKnownRequestError _ _ => "PrismaClientKnownRequestError"
  | JsError cls _ =>
      if bool_decide (cls ∈ ["UnsupportedOutboxTopicError"; "OutboxSubjectNotFoundError"]) then "Error" else cls
  end.
Definition is_letter (c : Ascii.ascii) : bool :=
  let n := Ascii.N_of_ascii c in ((65 <=? n) && (n <=? 90) || (97 <=? n) && (n <=? 122))%N.
Definition name_pattern (name : string) : bool :=
  match String.list_ascii_of_string name with
  | c :: cs => is_letter c && forallb (fun c => is_letter c || is_digit c) cs && (length cs <=? 63)%nat
  | [] => false
  end.
Definition safeErrorCode (e : exn) : string := if name_pattern (error_name e) then error_name e else "UnknownError".

(** [outboxEvent.updateMany({ where: { id, ...where }, data })] and its count *)
Definition update_event (id : string) (P : Delivery -> bool) (f : Delivery -> Delivery) : M Mail Z :=
  row ← gets (fun m => delivery m !! id);
  match row with
  | Some d => if P d then modify (fun m => set_delivery (<[id := f d]> (delivery m)) m) ;; mret 1%Z else mret 0%Z
  | None => mret 0%Z
  end.
Definition is_null {A} (o : option A) : bool := match o with None => true | Some _ => false end.

(** * The relay *)

Definition BATCH_SIZE : nat := 50.
Definition MAX_ATTEMPTS : Z := 8.
Definition MAX_BACKOFF_MS : Z := 15 * 60000.
Definition CLAIM_MS : Z := 60000.

Section relay.
(** The order of identifiers in the database, and the order in which [RETURNING] gives back
    the rows of an update, which is any. *)
Context (collate : string -> string -> Z) (returned : list (string * Delivery) -> list (string * Delivery)).

Definition due (m : Mail) (row : string * Delivery) : bool :=
  is_null (dl_publishedAt row.2) && is_null (dl_deadLetteredAt row.2) && (dl_availableAt row.2 <=? now_of m)%Z &&
  negb (bool_decide (row.1 ∈ locked m)).
Definition due_order : string * Delivery -> string * Delivery -> Z :=
  then_by (ascending (fun row => dl_availableAt row.2)) (by_text collate fst).
Definition picked (m : Mail) : list (string * Delivery) :=
  take BATCH_SIZE (js_sort due_order (List.filter (due m) (map_to_list (delivery m)))).
Definition leased (now : Z) (d : Delivery) : Delivery :=
  mkDelivery (now + CLAIM_MS) (dl_publishedAt d) (dl_attempts d + 1) (dl_deadLetteredAt d) (dl_lastErrorCode d)
    (dl_consumedAt d) (dl_processingDeadLetteredAt d) (dl_lastProcessingErrorCode d).

(** The statement that claims a batch; an [attempts] out of range is an error of the raw query. *)
Definition claim_batch : M Mail (list (string * Z)) :=
  rows ← gets picked;
  throw_if (negb (forallb (fun row => int4 (dl_attempts row.2 + 1)) rows)) (PrismaClientKnownRequestError "P2010" (Some "22003")) ;;
  now ← gets now_of;
  modify (fun m => set_delivery (foldr (fun row t => <[row.1 := leased now row.2]> t) (delivery m) rows) m) ;;
  mret ((fun row : string * Delivery => (row.1, dl_attempts row.2 + 1)%Z) <$> returned rows).

Definition claimed_at (attempts : Z) (d : Delivery) : bool :=
  bool_decide (dl_attempts d = attempts) && is_null (dl_publishedAt d) && is_null (dl_deadLetteredAt d).
Definition published (at_ : Z) (d : Delivery) : Delivery :=
  mkDelivery (dl_availableAt d) (Some at_) (dl_attempts d) (dl_deadLetteredAt d) None
    (dl_consumedAt d) (dl_processingDeadLetteredAt d) (dl_lastProcessingErrorCode d).
Definition postponed (until : Z) (dead : option Z) (code : string) (d : Delivery) : Delivery :=
  mkDelivery until (dl_publishedAt d) (dl_attempts d) dead (Some code)
    (dl_consumedAt d) (dl_processingDeadLetteredAt d) (dl_lastProcessingErrorCode d).

Record RelayCounts := mkCounts { rc_published : Z; rc_deadLettered : Z }.
Definition relay_backoff (attempts : Z) : Z := Z.min MAX_BACKOFF_MS (1000 * 2 ^ (attempts - 1)).

Definition relay_event (counts : RelayCounts) (event : string * Z) : MP RelayCounts :=
  let '(id, attempts) := event in
  try_catch
    (enqueue id ;;
     now ← query now_of;
     n ← stmt (update_event id (claimed_at attempts) (published now));
     mret (mkCounts (rc_published counts + n) (rc_deadLettered counts)))
    (fun error =>
     let terminal := (MAX_ATTEMPTS <=? attempts)%Z in
     now ← query now_of;
     n ← stmt (update_event id (claimed_at attempts)
       (postponed (now + relay_backoff attempts) (if terminal then Some now else None) (safeErrorCode error)));
     mret (mkCounts (rc_published counts) (if terminal then rc_deadLettered counts + n else rc_deadLettered counts))).

(** [dispatchBatch()] of the relay: how many events were claimed, and the counts. *)
Definition relay_pass : MP (Z * RelayCounts) :=
  claimed ← stmt claim_batch;
  counts ← each relay_event claimed (mkCounts 0 0);
  mret (Z.of_nat (length claimed), counts).
End relay.

(** * Notifications *)

(** An entry of [NOTIFICATION_DRAFTS]; [body] and [href] are functions of the order. *)
Record Draft := mkDraft { dr_audience : InAppNotificationAudience; dr_kind : string; dr_title : string; dr_text : string }.
Definition draft_body (d : Draft) (number : string) : string := dr_text d +:+ " (سفارش " +:+ number +:+ ")".
Definition draft_href (orderId : string) : string := "/orders/" +:+ orderId.
Definition customer_draft (kind title body : string) : Draft := mkDraft TO_CUSTOMER kind title body.
Definition staff_draft (kind title body : string) : Draft := mkDraft TO_STAFF kind title body.

Definition NOTIFICATION_DRAFTS : list (string * list Draft) :=
  [("ORDER_CREATED", [customer_draft "ORDER_CREATED" "سفارش ثبت شد" "سفارش شما ثبت شد و منتظر پرداخت است";
                      staff_draft "ORDER_CREATED" "سفارش جدید" "یک سفارش جدید ثبت شد"]);
   ("ORDER_CANCELLED", [customer_draft "ORDER_CANCELLED" "سفارش لغو شد" "سفارش شما لغو شد";
                        staff_draft "ORDER_CANCELLED" "سفارش لغو شد" "یک سفارش لغو شد"]);
   ("ORDER_EXPIRED", [customer_draft "ORDER_EXPIRED" "مهلت پرداخت تمام شد" "مهلت پرداخت سفارش به پایان رسید"]);
   ("PAYMENT_VERIFIED", [customer_draft "PAYMENT_VERIFIED" "پرداخت تأیید شد" "پرداخت شما با موفقیت تأیید شد";
                         staff_draft "PAYMENT_VERIFIED" "پرداخت تأیید شد" "پرداخت یک سفارش تأیید شد"]);
   ("PAYMENT_VERIFICATION_FAILED", [customer_draft "PAYMENT_FAILED" "پرداخت ناموفق بود" "پرداخت شما تأیید نشد";
                                    staff_draft "PAYMENT_FAILED" "پرداخت ناموفق" "پرداخت یک سفارش تأیید نشد"]);
   ("PAYMENT_VERIFICATION_UNCONFIRMED",
      [staff_draft "PAYMENT_UNCONFIRMED" "نیاز به بررسی پرداخت" "نتیجهٔ پرداخت مشخص نیست و نیاز به بررسی دارد"]);
   ("PAYMENT_VERIFIED_AFTER_CANCELLED",
      [staff_draft "PAYMENT_REFUND_REVIEW" "پرداخت پس از لغو سفارش" "پرداخت پس از لغو تأیید شد و نیاز به بررسی بازپرداخت دارد"]);
   ("PAYMENT_REFUNDED", [customer_draft "PAYMENT_REFUNDED" "بازپرداخت ثبت شد" "بازپرداخت سفارش شما ثبت شد"]);
   ("SHIPMENT_DISPATCHED", [customer_draft "SHIPMENT_DISPATCHED" "سفارش ارسال شد" "سفارش شما تحویل حمل‌ونقل شد"]);
   ("SHIPMENT_DELIVERED", [customer_draft "SHIPMENT_DELIVERED" "سفارش تحویل داده شد" "سفارش شما تحویل داده شد"]);
   ("DOOR_QUOTE_APPROVED", [customer_draft "DOOR_QUOTE_APPROVED" "پیش‌فاکتور تأیید شد" "پیش‌فاکتور درب سفارشی شما تأیید شد"])].

(** The first entry of an object under a key. *)
Fixpoint assoc {A} (key : string) (l : list (string * A)) : option A :=
  match l with
  | [] => None
  | (k, a) :: l => if bool_decide (k = key) then Some a else assoc key l
  end.

Definition STAFF_PERMISSION : string := "orders.read".
Definition unexpired (now : Z) (o : option Z) : bool := match o with None => true | Some t => (now <? t)%Z end.
Definition grants (key : string) (roleId : string) (a : Access) : bool :=
  existsb (fun rp => bool_decide (rp_roleId rp = roleId) && is_null (rp_revokedAt rp) &&
    match permissions a !! rp_permissionId rp with Some p => bool_decide (pm_key p = key) && pm_isActive p | None => false end)
    (rows (role_permissions a)).
Definition has_permission (key : string) (now : Z) (a : Access) (u : User) : bool :=
  existsb (fun ur => bool_decide (ur_userId ur = us_id u) && is_null (ur_revokedAt ur) && unexpired now (ur_expiresAt ur) &&
    default false (active_roles a !! ur_roleId ur) && grants key (ur_roleId ur) a) (rows (user_roles a)).
Definition staff_users (now : Z) (a : Access) : list string :=
  us_id <$> find_many (fun u => bool_decide (us_status u = USER_ACTIVE) && is_null (us_deletedAt u) &&
    has_permission STAFF_PERMISSION now a u) (users a).

Definition audience_text (a : InAppNotificationAudience) : string := match a with TO_CUSTOMER => "CUSTOMER" | TO_STAFF => "STAFF" end.
Definition notice (eventId orderId number : string) (d : Draft) (userId : string) : NotificationData :=
  mkNotice userId (dr_audience d) (dr_kind d) (dr_title d) (draft_body d number) (Some (draft_href orderId))
    (eventId +:+ ":" +:+ audience_text (dr_audience d)).

(** [order.findUnique({ select: { number, customer: { select: { userId } } } })] *)
Definition order_header (orderId : string) (m : Mail) : option (string * option string) :=
  o ← find_order orderId (own (business m));
  Some (or_number o, c ← customers (credit (own (business m))) !! or_customerId o; cu_userId c).
Definition recipients (d : Draft) (userId : option string) (now : Z) : MP (list string) :=
  match dr_audience d with
  | TO_CUSTOMER => mret (match userId with Some u => if truthy u then [u] else [] | None => [] end)
  | TO_STAFF => query (fun m => staff_users now (access m))
  end.

(** [project(tx, event, orderId)]: the rows it creates. *)
Definition project_drafts (eventId orderId number : string) (userId : option string) (drafts : list Draft) (now : Z)
    : MP (list NotificationData) :=
  each (fun rows d =>
    userIds ← recipients d userId now;
    mret (rows ++ (notice eventId orderId number d <$> userIds))) drafts [].
Definition project (eventId topic orderId : string) : MP (list NotificationData) :=
  let drafts := default [] (assoc topic NOTIFICATION_DRAFTS) in
  if bool_decide (length drafts = 0%nat) then mret [] else
  found ← query (order_header orderId);
  match found with
  | None => mret []
  | Some (number, userId) =>
      now ← query now_of;
      project_drafts eventId orderId number userId drafts now
  end.

(** * The consumer *)

Definition TOPIC_KIND : list (string * OutboxEffectKind) :=
  [("DOOR_QUOTE_APPROVED", CUSTOMER_DOOR_QUOTE_APPROVED);
   ("DOOR_PAYMENT_VERIFIED", PAYMENT_RECONCILIATION);
   ("ORDER_CREATED", CUSTOMER_ORDER_CREATED);
   ("ORDER_CANCELLED", CUSTOMER_ORDER_CANCELLED);
   ("ORDER_EXPIRED", CUSTOMER_ORDER_EXPIRED);
   ("PAYMENT_VERIFIED", CUSTOMER_ORDER_PAID);
   ("PAYMENT_VERIFICATION_UNCONFIRMED", PAYMENT_RECONCILIATION);
   ("PAYMENT_VERIFIED_AFTER_CANCELLED", PAYMENT_REFUND_REVIEW);
   ("PAYMENT_VERIFICATION_FAILED", PAYMENT_RECONCILIATION);
   ("PAYMENT_REFUNDED", PAYMENT_REFUND_REVIEW);
   ("SHIPMENT_DISPATCHED", CUSTOMER_SHIPMENT_DISPATCHED);
   ("SHIPMENT_DELIVERED", CUSTOMER_SHIPMENT_DELIVERED)].
Definition SETTLED_PAYMENT_TOPICS : list string :=
  ["PAYMENT_VERIFIED"; "DOOR_PAYMENT_VERIFIED"; "PAYMENT_VERIFIED_AFTER_CANCELLED"; "PAYMENT_VERIFICATION_FAILED"].
Definition expected_aggregate (topic : string) : string :=
  if bool_decide (topic = "DOOR_QUOTE_APPROVED") || String.prefix "ORDER_" topic || String.prefix "SHIPMENT_" topic
  then "order" else "payment".

Definition UnsupportedOutboxTopicError : exn :=
  JsError "UnsupportedOutboxTopicError" "Unsupported outbox event topic or aggregate.".
Definition OutboxSubjectNotFoundError (message : string) : exn := JsError "OutboxSubjectNotFoundError" message.

(** [payment.status !== 'PENDING'] of a payment that exists *)
Definition payment_closed (paymentId : string) (m : Mail) : bool :=
  bool_decide (is_Some (payments (own (business m)) !! paymentId)) &&
  negb (bool_decide (payment_state paymentId (own (business m)) = Some PAY_PENDING)).

(** The effects that [closeReconciliation] updates. *)
Definition open_reconciliation (paymentId : string) (e : OutboxEffect) : bool :=
  bool_decide (ef_kind e = PAYMENT_RECONCILIATION) && bool_decide (ef_subjectId e = paymentId) &&
  bool_decide (ef_status e = EFFECT_PENDING).

(** What the consumer knows of an event when it writes. *)
Record Subject := mkSubject {
  sb_subjectId : string;
  sb_status : OutboxEffectStatus;
  sb_paymentId : option string;
  sb_orderId : string;
  sb_closes : list string
}.
Definition open_reconciliations (paymentId : string) (m : Mail) : list string :=
  ef_id <$> find_many (open_reconciliation paymentId) (effects m).
Definition to_close (topic paymentId : string) : MP (list string) :=
  if bool_decide (topic ∈ SETTLED_PAYMENT_TOPICS) then query (open_reconciliations paymentId) else mret [].
Definition payment_header (paymentId : string) (m : Mail) : option (string * bool) :=
  p ← payments (own (business m)) !! paymentId; Some (pt_orderId p, payment_closed paymentId m).
Definition read_subject (e : OutboxEvent) (kind : OutboxEffectKind) : MP Subject :=
  let aggregateId := ob_aggregateId e in
  if bool_decide (expected_aggregate (ob_topic e) = "order") then
    found ← query (fun m => bool_decide (is_Some (find_order aggregateId (own (business m)))));
    fail_if (negb found) (OutboxSubjectNotFoundError "Order subject not found.") ;;
    mret (mkSubject aggregateId EFFECT_PENDING None aggregateId [])
  else
    found ← query (payment_header aggregateId);
    match found with
    | None => mthrow (OutboxSubjectNotFoundError "Payment subject not found.")
    | Some (orderId, closed) =>
        closes ← to_close (ob_topic e) aggregateId;
        mret (mkSubject (if bool_decide (kind = CUSTOMER_ORDER_PAID) then orderId else aggregateId)
          (if bool_decide (kind = PAYMENT_RECONCILIATION) && closed then EFFECT_COMPLETED else EFFECT_PENDING)
          (Some aggregateId) orderId closes)
    end.

(** [data: { status: OutboxEffectStatus.COMPLETED }] *)
Definition completed (e : OutboxEffect) : OutboxEffect :=
  mkEffect (ef_id e) (ef_eventId e) (ef_kind e) (ef_subjectId e) EFFECT_COMPLETED (ef_attemptCount e) (ef_lastAttemptAt e)
    (ef_nextAttemptAt e) (ef_lastResultCode e) (ef_providerMessageId e) (ef_createdAt e).
Definition of_event (eventId : string) (e : OutboxEffect) : bool := bool_decide (ef_eventId e = eventId).
Definition is_pending (e : OutboxEffect) : bool := bool_decide (ef_status e = EFFECT_PENDING).
Definition same_notice (n : NotificationData) (row : InAppNotification) : bool :=
  bool_decide (nd_userId (in_data row) = nd_userId n) && bool_decide (nd_dedupKey (in_data row) = nd_dedupKey n).

Section consumer.
Context (cuid : nat -> string).

Definition fresh_row : M Mail string := zoom (on_inv (X := SalesTables) (fresh_id cuid)).

(** [closeReconciliation] *)
Definition close_effects (ids : list string) : M Mail unit :=
  modify (fun m => set_effects (update_many (fun e => bool_decide (ef_id e ∈ ids) && is_pending e) completed (effects m)) m).

(** [outboxEffect.createMany({ data: [...], skipDuplicates: true })] *)
Definition create_effect (eventId : string) (kind : OutboxEffectKind) (subjectId : string) (status : OutboxEffectStatus) : M Mail unit :=
  id ← fresh_row;
  now ← gets now_of;
  duplicate ← gets (fun m => bool_decide (is_Some (effects m !! id)) || bool_decide (is_Some (find_by (of_event eventId) (effects m))));
  modify (fun m => if (duplicate : bool) then m else
    set_effects (<[id := mkEffect id eventId kind subjectId status 0 None now None None now]> (effects m)) m).

(** [inAppNotification.createMany({ data: rows, skipDuplicates: true })] *)
Definition create_notification (n : NotificationData) : M Mail unit :=
  id ← fresh_row;
  now ← gets now_of;
  duplicate ← gets (fun m => bool_decide (is_Some (inbox m !! id)) || bool_decide (is_Some (find_by (same_notice n) (inbox m))));
  modify (fun m => if (duplicate : bool) then m else set_inbox (<[id := mkNotification id n None now]> (inbox m)) m).

(** The update that completes an effect whose payment was settled in the meantime. *)
Definition complete_effect (eventId : string) : M Mail unit :=
  modify (fun m => set_effects (update_many (fun e => of_event eventId e && is_pending e) completed (effects m)) m).

Definition consumed (now : Z) (d : Delivery) : Delivery :=
  mkDelivery (dl_availableAt d) (dl_publishedAt d) (dl_attempts d) (dl_deadLetteredAt d) (dl_lastErrorCode d) (Some now) None None.

(** The writes of the transaction, in their order. *)
Definition consume_writes (eventId : string) (kind : OutboxEffectKind) (s : Subject) (rows : list NotificationData)
    (settled : bool) (now : Z) : M Mail unit :=
  close_effects (sb_closes s) ;;
  create_effect eventId kind (sb_subjectId s) (sb_status s) ;;
  for_each rows create_notification ;;
  (if settled then complete_effect eventId else mret tt) ;;
  update_event eventId (fun d => is_null (dl_consumedAt d)) (consumed now) ;;
  mret tt.

(** The second look at the payment of a reconciliation that is still open. *)
Definition settled_meanwhile (kind : OutboxEffectKind) (s : Subject) : MP bool :=
  match sb_paymentId s with
  | Some paymentId =>
      if bool_decide (kind = PAYMENT_RECONCILIATION) && bool_decide (sb_status s = EFFECT_PENDING)
      then query (payment_closed paymentId) else mret false
  | None => mret false
  end.

Definition consume_event (e : OutboxEvent) : MP unit :=
  match assoc (ob_topic e) TOPIC_KIND with
  | Some kind =>
      fail_if (negb (bool_decide (ob_aggregateType e = expected_aggregate (ob_topic e)))) UnsupportedOutboxTopicError ;;
      s ← read_subject e kind;
      rows ← project (ob_id e) (ob_topic e) (sb_orderId s);
      settled ← settled_meanwhile kind s;
      now ← query now_of;
      stmt (consume_writes (ob_id e) kind s rows settled now)
  | None => mthrow UnsupportedOutboxTopicError
  end.
Definition consume (eventId : string) : MP unit :=
  event ← query (event_of eventId);
  match event with
  | None => mthrow (OutboxSubjectNotFoundError "Outbox event not found.")
  | Some (e, d) => if is_null (dl_consumedAt d) then consume_event e else mret tt
  end.

Definition failed_processing (code : string) (dead : option Z) (d : Delivery) : Delivery :=
  mkDelivery (dl_availableAt d) (dl_publishedAt d) (dl_attempts d) (dl_deadLetteredAt d) (dl_lastErrorCode d)
    (dl_consumedAt d) dead (Some code).
Definition recordFailure (eventId : string) (error : exn) (finalAttempt : bool) : MP unit :=
  now ← query now_of;
  stmt (update_event eventId (fun d => is_null (dl_consumedAt d))
    (failed_processing (safeErrorCode error) (if finalAttempt then Some now else None))) ;;
  mret tt.

(** The processor of the worker: a job of the queue [commerce-outbox]. *)
Definition deliver_job (name : string) (eventId : option string) (attemptsMade attempts : Z) : MP unit :=
  try_catch
    (match eventId with
     | Some id =>
         fail_if (negb (bool_decide (name = "deliver"))) (JsError "Error" "Unsupported commerce outbox job.") ;;
         consume id
     | None => mthrow (JsError "Error" "Unsupported commerce outbox job.")
     end)
    (fun error =>
     match eventId with Some id => recordFailure id error (attempts <=? attemptsMade + 1)%Z | None => mret tt end ;;
     mthrow (JsError "Error" "Commerce outbox job failed; inspect lastProcessingErrorCode.")).
End consumer.

(** * Replay *)

Definition OUTBOX_REPLAY_PERMISSION : string := "settings.manage".
Inductive OutboxReplayRejection :=
  | INVALID_INPUT
  | ACTOR_INACTIVE
  | PERMISSION_DENIED
  | EVENT_NOT_FOUND
  | EVENT_CONSUMED
  | EVENT_NOT_REPLAYABLE
  | JOB_ACTIVE
  | CONCURRENT_CHANGE.
#[export] Instance replay_rejection_eq_dec : EqDecision OutboxReplayRejection.
Proof. solve_decision. Defined.
Definition rejection_text (r : OutboxReplayRejection) : string :=
  match r with
  | INVALID_INPUT => "INVALID_INPUT"
  | ACTOR_INACTIVE => "ACTOR_INACTIVE"
  | PERMISSION_DENIED => "PERMISSION_DENIED"
  | EVENT_NOT_FOUND => "EVENT_NOT_FOUND"
  | EVENT_CONSUMED => "EVENT_CONSUMED"
  | EVENT_NOT_REPLAYABLE => "EVENT_NOT_REPLAYABLE"
  | JOB_ACTIVE => "JOB_ACTIVE"
  | CONCURRENT_CHANGE => "CONCURRENT_CHANGE"
  end.
Inductive OutboxReplayBranch := dead_letter | stranded.
#[export] Instance replay_branch_eq_dec : EqDecision OutboxReplayBranch.
Proof. solve_decision. Defined.
Definition branch_text (b : OutboxReplayBranch) : string := match b with dead_letter => "dead-letter" | stranded => "stranded" end.
Inductive OutboxReplayResult :=
  | REPLAYED (eventId requestId : string) (branch : OutboxReplayBranch)
  | REJECTED (reason : OutboxReplayRejection).
Record OutboxReplayInput := mkReplay { ri_eventId : string; ri_actorId : string; ri_ticket : string }.

Definition sized_pattern (char : Ascii.ascii -> bool) (lo hi : nat) (s : string) : bool :=
  let cs := String.list_ascii_of_string s in forallb char cs && (lo <=? length cs)%nat && (length cs <=? hi)%nat.
Definition event_id_char (c : Ascii.ascii) : bool := is_letter c || is_digit c || bool_decide (c = Ascii.ascii_of_N 45).
Definition EVENT_ID_PATTERN : string -> bool := sized_pattern event_id_char 1 100.
Definition TICKET_PATTERN : string -> bool := sized_pattern key_char 6 100.
Definition hasValidInput (input : OutboxReplayInput) : bool :=
  EVENT_ID_PATTERN (ri_eventId input) && truthy (ri_actorId input) && TICKET_PATTERN (ri_ticket input).

Definition branchOf (d : Delivery) : option OutboxReplayBranch :=
  if negb (is_null (dl_deadLetteredAt d)) || negb (is_null (dl_processingDeadLetteredAt d)) then Some dead_letter
  else if negb (is_null (dl_publishedAt d)) then Some stranded else None.

#[export] Instance mail_audit : Lens Mail AuditTable :=
  {| view := fun m => audits (inv_of (business m));
     put := fun a m => set_business (mkDomain (set_audits a (inv_of (business m))) (own (business m))) m |}.
#[export] Instance mail_audit_laws : LensLaws Mail AuditTable.
Proof. by split; intros; [|destruct s as [[[]]]|]. Qed.

(** [auditLog.create]; its actor is a user. *)
Definition create_audit (actorId : string) (action : string) (entityId : option string) (requestId : string)
    (metadata : list (string * json)) : M Mail unit :=
  let actor := if truthy actorId then Some actorId else None in
  known ← gets (fun m => match actor with Some a => bool_decide (is_Some (users (access m) !! a)) | None => true end);
  throw_if (negb known) P2003 ;;
  record (mkAuditEvent action "OutboxEvent" entityId None None (Some (JObj metadata)) actor (Some requestId)).

Definition random_uuid : MP string := ask RandomUUID.
Definition reject (input : OutboxReplayInput) (reason : OutboxReplayRejection) : MP OutboxReplayResult :=
  let entityId := if EVENT_ID_PATTERN (ri_eventId input) then Some (ri_eventId input) else None in
  try_catch
    (requestId ← random_uuid;
     stmt (create_audit (ri_actorId input) "outbox.replay.rejected" entityId requestId
       [("ticket", JStr (ri_ticket input)); ("reason", JStr (rejection_text reason))]))
    (fun _ => mret tt) ;;
  mret (REJECTED reason).

(** [clearTerminalJob(eventId)] *)
Definition get_job (eventId : string) : MP bool := r ← ask (GetJob eventId); of_result (r : result bool).
Definition get_state (eventId : string) : MP string := r ← ask (GetState eventId); of_result (r : result string).
Definition remove_job (eventId : string) : MP unit := r ← ask (RemoveJob eventId); of_result (r : result unit).
Definition clearTerminalJob (eventId : string) : MP bool :=
  job ← get_job eventId;
  if negb job then mret true else
  state ← get_state eventId;
  if negb (bool_decide (state ∈ ["failed"; "completed"])) then mret false else
  remove_job eventId ;;
  mret true.

(** The transaction of the replay. *)
Definition resettable (d : Delivery) : bool :=
  is_null (dl_consumedAt d) &&
  (negb (is_null (dl_deadLetteredAt d)) || negb (is_null (dl_processingDeadLetteredAt d)) || negb (is_null (dl_publishedAt d))).
Definition relayable (now : Z) (d : Delivery) : Delivery := mkDelivery now None 0 None None (dl_consumedAt d) None None.
Definition reset_event (input : OutboxReplayInput) (eventId requestId : string) (branch : OutboxReplayBranch) (now : Z) : M Mail bool :=
  count ← update_event eventId resettable (relayable now);
  if bool_decide (count = 1%Z) then
    create_audit (ri_actorId input) "outbox.replay.requested" (Some eventId) requestId
      [("ticket", JStr (ri_ticket input)); ("branch", JStr (branch_text branch))] ;;
    mret true
  else mret false.

Definition permission_keys (actorId : string) : MP (list string) :=
  r ← ask (EffectivePermissionKeys actorId); of_result (r : result (list string)).
Definition user_status (id : string) (m : Mail) : option UserStatus := us_status <$> users (access m) !! id.

Definition reset_and_answer (input : OutboxReplayInput) (eventId : string) (branch : OutboxReplayBranch) : MP OutboxReplayResult :=
  cleared ← clearTerminalJob eventId;
  if negb cleared then reject input JOB_ACTIVE else
  requestId ← random_uuid;
  now ← query now_of;
  reset ← stmt (reset_event input eventId requestId branch now);
  if negb reset then reject input CONCURRENT_CHANGE else
  mret (REPLAYED eventId requestId branch).
Definition replay (input : OutboxReplayInput) : MP OutboxReplayResult :=
  if negb (hasValidInput input) then reject input INVALID_INPUT else
  actor ← query (user_status (ri_actorId input));
  if negb (bool_decide (actor = Some USER_ACTIVE)) then reject input ACTOR_INACTIVE else
  keys ← permission_keys (ri_actorId input);
  if negb (bool_decide (OUTBOX_REPLAY_PERMISSION ∈ keys)) then reject input PERMISSION_DENIED else
  event ← query (event_of (ri_eventId input));
  match event with
  | None => reject input EVENT_NOT_FOUND
  | Some (e, d) =>
      if negb (is_null (dl_consumedAt d)) then reject input EVENT_CONSUMED else
      match branchOf d with
      | None => reject input EVENT_NOT_REPLAYABLE
      | Some branch => reset_and_answer input (ob_id e) branch
      end
  end.

(** * Messages to customers *)

Definition KINDS : list OutboxEffectKind :=
  [CUSTOMER_DOOR_QUOTE_APPROVED; CUSTOMER_ORDER_PAID; CUSTOMER_SHIPMENT_DISPATCHED; CUSTOMER_SHIPMENT_DELIVERED].
Definition SMS_MAX_ATTEMPTS : Z := 8.
Definition SMS_BATCH : nat := 25.

Section sms.
(** [templates]: whether the templates' settings are there; [config]: the environment. *)
Context (collate : string -> string -> Z) (templates : bool) (config : string -> option Z).

Definition purpose (kind : OutboxEffectKind) : SmsPurpose :=
  match kind with
  | CUSTOMER_DOOR_QUOTE_APPROVED => door_quote_approved
  | CUSTOMER_ORDER_PAID => order_paid
  | CUSTOMER_SHIPMENT_DISPATCHED => shipment_dispatched
  | _ => shipment_delivered
  end.
Definition resolve (p : SmsPurpose) : MP (option Z) := r ← ask (ResolveTemplate p); of_result (r : result (option Z)).
Definition template_id (kind : OutboxEffectKind) : MP (option Z) :=
  if bool_decide (kind = CUSTOMER_DOOR_QUOTE_APPROVED) then (if templates then resolve door_quote_approved else mret None)
  else if templates then resolve (purpose kind)
  else if bool_decide (kind = CUSTOMER_ORDER_PAID) then mret (config "SMS_IR_ORDER_PAID_TEMPLATE_ID")
  else if bool_decide (kind = CUSTOMER_SHIPMENT_DISPATCHED) then mret (config "SMS_IR_SHIPMENT_DISPATCHED_TEMPLATE_ID")
  else mret (config "SMS_IR_SHIPMENT_DELIVERED_TEMPLATE_ID").

Definition sendable (now : Z) (e : OutboxEffect) : bool :=
  bool_decide (ef_kind e ∈ KINDS) && is_pending e && (ef_nextAttemptAt e <=? now)%Z.
Definition effect_order : OutboxEffect -> OutboxEffect -> Z := then_by (ascending ef_createdAt) (by_text collate ef_id).
Definition candidates (now : Z) (m : Mail) : list OutboxEffect :=
  take SMS_BATCH (find_sorted effect_order (sendable now) (effects m)).

(** [outboxEffect.updateMany({ where: { id, status, attemptCount }, data })] *)
Definition update_effect (id : string) (status : OutboxEffectStatus) (attemptCount : Z) (f : OutboxEffect -> OutboxEffect) : M Mail Z :=
  row ← gets (fun m => effects m !! id);
  match row with
  | Some e =>
      if bool_decide (ef_status e = status) && bool_decide (ef_attemptCount e = attemptCount) then
        throw_if (negb (int4 (ef_attemptCount (f e)))) P2020 ;;
        modify (fun m => set_effects (<[id := f e]> (effects m)) m) ;;
        mret 1%Z
      else mret 0%Z
  | None => mret 0%Z
  end.
Definition claimed (attemptCount now : Z) (e : OutboxEffect) : OutboxEffect :=
  mkEffect (ef_id e) (ef_eventId e) (ef_kind e) (ef_subjectId e) EFFECT_FAILED attemptCount (Some now)
    (ef_nextAttemptAt e) (Some "CLAIMED_UNCERTAIN") (ef_providerMessageId e) (ef_createdAt e).
Definition claim_effect (id : string) (attemptCount now : Z) : M Mail Z :=
  update_effect id EFFECT_PENDING (attemptCount - 1) (claimed attemptCount now).

Definition reason_text (r : SmsRejectionReason) : string :=
  match r with
  | authentication => "authentication" | account => "account" | sender => "sender" | template => "template"
  | destination => "destination" | content => "content" | no_credit => "credit" | invalid_request => "invalid_request"
  | unknown => "unknown"
  end.
Definition result_code (r : SmsSendResult) : string :=
  match r with
  | accepted _ => "accepted"
  | rate_limited => "rate_limited"
  | rejected reason => "rejected_" +:+ reason_text reason
  | unavailable => "unavailable"
  | unknown_result => "unknown_result"
  | disabled => "disabled"
  end.
Definition is_accepted (r : SmsSendResult) : bool := match r with accepted _ => true | _ => false end.
Definition is_limited (r : SmsSendResult) : bool := match r with rate_limited => true | _ => false end.
Definition will_retry (attemptCount : Z) (r : SmsSendResult) : bool := is_limited r && (attemptCount <? SMS_MAX_ATTEMPTS)%Z.
Definition sms_delay (attemptCount : Z) : Z := Z.min (15 * 60000) (1000 * 2 ^ (attemptCount - 1)).
Definition recorded_result (attemptCount now : Z) (r : SmsSendResult) (e : OutboxEffect) : OutboxEffect :=
  let retry := will_retry attemptCount r in
  mkEffect (ef_id e) (ef_eventId e) (ef_kind e) (ef_subjectId e)
    (if is_accepted r then EFFECT_COMPLETED else if retry then EFFECT_PENDING else EFFECT_FAILED)
    (ef_attemptCount e) (ef_lastAttemptAt e)
    (if retry then (now + sms_delay attemptCount)%Z else ef_nextAttemptAt e)
    (Some (result_code r))
    (match r with accepted messageId => Some messageId | _ => ef_providerMessageId e end) (ef_createdAt e).
(** [record(id, attemptCount, result)] *)
Definition record_result (id : string) (attemptCount : Z) (r : SmsSendResult) : MP unit :=
  now ← query now_of;
  stmt (update_effect id EFFECT_FAILED attemptCount (recorded_result attemptCount now r)) ;;
  mret tt.

(** [order.findUnique({ select: { number, customer: { select: { mobile } } } })] *)
Definition sms_order (orderId : string) (m : Mail) : option (string * string) :=
  o ← find_order orderId (own (business m)); mobile ← mobiles m !! or_customerId o; Some (or_number o, mobile).
Definition send (r : SmsSendRequest) : MP SmsSendResult := a ← ask (Send r); of_result (a : result SmsSendResult).

Record SmsCounts := mkSmsCounts { sc_claimed : Z; sc_accepted : Z; sc_pending : Z; sc_failed : Z }.
Definition count_claimed (c : SmsCounts) : SmsCounts := mkSmsCounts (sc_claimed c + 1) (sc_accepted c) (sc_pending c) (sc_failed c).
Definition count_failed (c : SmsCounts) : SmsCounts := mkSmsCounts (sc_claimed c) (sc_accepted c) (sc_pending c) (sc_failed c + 1).
Definition count_result (attemptCount : Z) (r : SmsSendResult) (c : SmsCounts) : SmsCounts :=
  if is_accepted r then mkSmsCounts (sc_claimed c) (sc_accepted c + 1) (sc_pending c) (sc_failed c)
  else if will_retry attemptCount r then mkSmsCounts (sc_claimed c) (sc_accepted c) (sc_pending c + 1) (sc_failed c)
  else count_failed c.

(** What a pass does with an effect that it has claimed: the request, or none. *)
Definition sms_request (e : OutboxEffect) (order : option (string * string)) (templateId : option Z) : option SmsSendRequest :=
  match order, templateId with
  | Some (number, mobile), Some t =>
      if bool_decide (t = 0%Z) || (25 <? String.length number)%nat then None
      else Some (mkSms (purpose (ef_kind e)) mobile t number (ef_id e))
  | _, _ => None
  end.
Definition deliver_effect (counts : SmsCounts) (e : OutboxEffect) (attemptCount : Z) : MP SmsCounts :=
  templateId ← template_id (ef_kind e);
  order ← query (sms_order (ef_subjectId e));
  match sms_request e order templateId with
  | None =>
      record_result (ef_id e) attemptCount (rejected invalid_request) ;;
      mret (count_failed counts)
  | Some sms =>
      result ← try_catch (send sms) (fun _ => mret unknown_result);
      record_result (ef_id e) attemptCount result ;;
      mret (count_result attemptCount result counts)
  end.
Definition dispatch_effect (counts : SmsCounts) (e : OutboxEffect) : MP SmsCounts :=
  let attemptCount := (ef_attemptCount e + 1)%Z in
  now ← query now_of;
  n ← stmt (claim_effect (ef_id e) attemptCount now);
  if negb (bool_decide (n = 1%Z)) then mret counts
  else deliver_effect (count_claimed counts) e attemptCount.

(** [dispatchBatch()] of the messages. *)
Definition sms_pass : MP SmsCounts :=
  now ← query now_of;
  batch ← query (candidates now);
  each dispatch_effect batch (mkSmsCounts 0 0 0 0).
End sms.

(** * The processes of the worker *)

Section processes.
Context (cuid : nat -> string) (collate : string -> string -> Z) (templates : bool) (config : string -> option Z).

(** Passes of the relay and of the messages, jobs of the queue and replays, any number of each. *)
Inductive started : MP unit -> Prop :=
  | start_relay returned : started (forget (relay_pass collate returned))
  | start_sms : started (forget (sms_pass collate templates config))
  | start_job name eventId attemptsMade attempts : started (forget (deliver_job cuid name eventId attemptsMade attempts))
  | start_replay input : started (forget (replay input)).

(** Everything else: the commands of the shop, which add events with their transactions and
    keep the rows that effects refer to, the readers of the inbox, the administration of
    users, and the clock. *)
Definition order_line (o : CreditOrder) : string * string := (or_number o, or_customerId o).
Record elsewhere (m m' : Mail) : Prop := mkElsewhere {
  el_clock : (now_of m <= now_of m')%Z;
  el_ids : nextId (inv_of (business m)) <= nextId (inv_of (business m'));
  el_events : outbox (own (business m)) ⊆ outbox (own (business m'));
  el_keys : forall id e, outbox (own (business m')) !! id = Some e -> ob_id e = id;
  el_delivery : forall id d, delivery m !! id = Some d -> delivery m' !! id = Some d;
  el_new : forall id d, delivery m !! id = None -> delivery m' !! id = Some d -> exists now, d = new_delivery now;
  el_rows : forall id, is_Some (outbox (own (business m')) !! id) <-> is_Some (delivery m' !! id);
  el_orders : forall id o, find_order id (own (business m)) = Some o ->
    exists o', find_order id (own (business m')) = Some o' /\ order_line o' = order_line o;
  el_payments : forall id p, payments (own (business m)) !! id = Some p ->
    exists p', payments (own (business m')) !! id = Some p' /\ pt_orderId p' = pt_orderId p;
  el_effects : effects m' = effects m;
  el_inbox : in_data <$> inbox m' = in_data <$> inbox m
}.
End processes.
