(* ===== verification/Shop.v ===== *)
(** The shop in front of the orders: catalog, carts, coupon intents, shipping methods and
    quotes, and the records of checkouts, next to the tables of placed orders.  With
    [src/apps/api/src/modules/orders/cart-view.ts], which carts and checkout share.

    [order_sheets] has the columns of an order that only its creation writes, and the texts
    of its lines in their order.  The columns [createdAt] and [updatedAt] are left out. *)

From S2P Require Import Prelude Table Paging Json StableJson CheckoutAddress AuditTrail Retry InventoryModel Inventory.
From S2P Require Import Durable StateMachine PromotionEngine PromotionClaims Credit CreditCommands CreditSales Sales.

(** * Data *)

Inductive ProductStatus := PRODUCT_DRAFT | PRODUCT_ACTIVE | PRODUCT_INACTIVE | PRODUCT_ARCHIVED.
Inductive VariantStatus := VARIANT_ACTIVE | VARIANT_INACTIVE | VARIANT_ARCHIVED.
#[export] Instance ProductStatus_eq_dec : EqDecision ProductStatus.
Proof. solve_decision. Defined.
#[export] Instance VariantStatus_eq_dec : EqDecision VariantStatus.
Proof. solve_decision. Defined.

Record Product := mkProduct {
  pr_id : string;
  pr_name : string;
  pr_status : ProductStatus;
  pr_brandId : option string;
  pr_categoryId : option string
}.
Record ProductVariant := mkVariant {
  va_id : string;
  va_productId : string;
  va_sku : string;
  va_title : option string;
  va_salePrice : Z;
  va_status : VariantStatus;
  va_isActive : bool
}.

Record Cart := mkCart {
  cart_id : string;
  cart_customerId : option string;
  cart_guestTokenHash : option string;
  cart_guestExpiresAt : option Z;
  cart_version : Z
}.
Record CartItem := mkCartItem { item_id : string; item_cartId : string; item_variantId : string; item_quantity : Z }.

(** Views of a cart, and what the cart endpoints answer and record. *)
Record CartLine := mkCartLine {
  cl_variantId : string;
  cl_quantity : Z;
  cl_title : string;
  cl_sku : string;
  cl_unitPrice : Z;
  cl_lineTotal : Z;
  cl_available : Z
}.
Record CartView := mkCartView {
  cv_id : option string;
  cv_version : Z;
  cv_lines : list CartLine;
  cv_subtotal : Z;
  cv_pricePolicyRevision : string;
  cv_quotedAt : Z
}.
Record CartResponse := mkCartResponse { rp_cart : CartView; rp_promotion : option (list (string * Z * Z) * Z * Z) }.
Record CartMutation := mkCartMutation {
  mu_id : string;
  mu_cartId : option string;
  mu_customerId : string;
  mu_scope : string;
  mu_idempotencyKey : option string;
  mu_keyHash : option string;
  mu_fingerprint : string;
  mu_response : CartResponse;
  mu_expiresAt : Z
}.

Record ShippingMethod := mkMethod {
  sm_id : string;
  sm_code : string;
  sm_title : string;
  sm_amount : Z;
  sm_policyRevision : string;
  sm_isActive : bool
}.
Record ShippingQuote := mkQuote {
  qu_id : string;
  qu_customerId : string;
  qu_cartId : string;
  qu_cartVersion : Z;
  qu_shippingMethodId : string;
  qu_methodCode : string;
  qu_methodTitle : string;
  qu_addressHash : string;
  qu_subtotal : Z;
  qu_amount : Z;
  qu_promotionDiscount : Z;
  qu_pricePolicyRevision : string;
  qu_policyRevision : string;
  qu_expiresAt : Z;
  qu_consumedAt : option Z;
  qu_orderId : option string
}.

(** [shippingQuoteContract(quote)] of [shipping-quote.port.ts]. *)
Record ShippingQuoteContract := mkContract {
  sc_quoteId : string;
  sc_method : string;
  sc_title : string;
  sc_amount : Z;
  sc_promotionDiscount : Z;
  sc_policyRevision : string;
  sc_pricePolicyRevision : string;
  sc_cartVersion : Z;
  sc_expiresAt : Z
}.
Definition shippingQuoteContract (q : ShippingQuote) : ShippingQuoteContract :=
  mkContract (qu_id q) (qu_methodCode q) (qu_methodTitle q) (qu_amount q) (qu_promotionDiscount q) (qu_policyRevision q)
    (qu_pricePolicyRevision q) (qu_cartVersion q) (qu_expiresAt q).

(** A line of a new order, as [CheckoutOrderLineSnapshot] has it. *)
Record OrderLineSnapshot := mkSnapshot {
  os_variantId : string;
  os_productTitle : string;
  os_variantTitle : option string;
  os_sku : string;
  os_quantity : Z;
  os_unitPrice : Z;
  os_lineTotal : Z
}.
Record OrderSheet := mkSheet {
  sheet_subtotal : Z;
  sheet_shippingMethod : string;
  sheet_shippingMethodTitle : string;
  sheet_shippingPolicyRevision : string;
  sheet_pricePolicyRevision : string;
  sheet_lines : list OrderLineSnapshot;
  sheet_staffNote : option string
}.

Record ReservationView := mkReservationView { rw_id : string; rw_variantId : string; rw_quantity : Z; rw_expiresAt : Z }.
(** [CheckoutResponse]; the promotion applied with its code, and its two discounts. *)
Record CheckoutResponse := mkCheckout {
  co_orderId : string;
  co_number : string;
  co_items : list OrderLineSnapshot;
  co_subtotal : Z;
  co_discount : Z;
  co_promotions : list (string * string * option string * Z * Z);
  co_shipping : Z;
  co_total : Z;
  co_address : CheckoutAddress;
  co_shippingQuote : ShippingQuoteContract;
  co_pricePolicyRevision : string;
  co_reservationExpiresAt : Z;
  co_reservations : list ReservationView
}.
(** A row of [CheckoutIdempotencyRecord]; all have the scope of the one endpoint. *)
Record CheckoutRecord := mkCheckoutRecord {
  kr_id : string;
  kr_customerId : string;
  kr_keyHash : string;
  kr_fingerprint : string;
  kr_orderId : option string;
  kr_response : option CheckoutResponse;
  kr_expiresAt : Z
}.

(** [AdminOrderSummary], without the times of the row and the masked contact of the customer. *)
Record AdminOrderSummary := mkSummary {
  su_id : string;
  su_number : string;
  su_status : OrderStatus;
  su_latestStatus : option PaymentStatus;
  su_attemptCount : Z;
  su_fulfillmentStatus : option FulfillmentStatus;
  su_itemCount : Z;
  su_subtotal : Z;
  su_discount : Z;
  su_shipping : Z;
  su_total : Z;
  su_reservationExpiresAt : Z;
  su_customerId : string;
  su_version : Z
}.
Record StaffOrderResponse := mkStaffOrder { st_order : AdminOrderSummary; st_replayed : bool; st_reservations : list ReservationView }.
(** A row of [StaffOrderCommandRecord]; all have the scope of the one endpoint. *)
Record StaffRecord := mkStaffRecord {
  sr_id : string;
  sr_actorId : string;
  sr_keyHash : string;
  sr_payloadHash : string;
  sr_orderId : option string;
  sr_response : option StaffOrderResponse
}.

(** [coupon_intents] maps a cart to the code it holds. *)
Record ShopTables := mkShop {
  sales : SalesTables;
  catalog : gmap string ProductVariant;
  products : gmap string Product;
  carts : gmap string Cart;
  cart_items : gmap string CartItem;
  coupon_intents : gmap string string;
  mutations : gmap string CartMutation;
  methods : gmap string ShippingMethod;
  quotes : gmap string ShippingQuote;
  order_sheets : gmap string OrderSheet;
  checkouts : gmap string CheckoutRecord;
  staff_records : gmap string StaffRecord
}.
Definition set_sales x (t : ShopTables) : ShopTables :=
  mkShop x (catalog t) (products t) (carts t) (cart_items t) (coupon_intents t) (mutations t) (methods t) (quotes t) (order_sheets t) (checkouts t) (staff_records t).
Definition set_carts x (t : ShopTables) : ShopTables :=
  mkShop (sales t) (catalog t) (products t) x (cart_items t) (coupon_intents t) (mutations t) (methods t) (quotes t) (order_sheets t) (checkouts t) (staff_records t).
Definition set_cart_items x (t : ShopTables) : ShopTables :=
  mkShop (sales t) (catalog t) (products t) (carts t) x (coupon_intents t) (mutations t) (methods t) (quotes t) (order_sheets t) (checkouts t) (staff_records t).
Definition set_coupon_intents x (t : ShopTables) : ShopTables :=
  mkShop (sales t) (catalog t) (products t) (carts t) (cart_items t) x (mutations t) (methods t) (quotes t) (order_sheets t) (checkouts t) (staff_records t).
Definition set_mutations x (t : ShopTables) : ShopTables :=
  mkShop (sales t) (catalog t) (products t) (carts t) (cart_items t) (coupon_intents t) x (methods t) (quotes t) (order_sheets t) (checkouts t) (staff_records t).
Definition set_quotes x (t : ShopTables) : ShopTables :=
  mkShop (sales t) (catalog t) (products t) (carts t) (cart_items t) (coupon_intents t) (mutations t) (methods t) x (order_sheets t) (checkouts t) (staff_records t).
Definition set_order_sheets x (t : ShopTables) : ShopTables :=
  mkShop (sales t) (catalog t) (products t) (carts t) (cart_items t) (coupon_intents t) (mutations t) (methods t) (quotes t) x (checkouts t) (staff_records t).
Definition set_checkouts x (t : ShopTables) : ShopTables :=
  mkShop (sales t) (catalog t) (products t) (carts t) (cart_items t) (coupon_intents t) (mutations t) (methods t) (quotes t) (order_sheets t) x (staff_records t).
Definition set_staff_records x (t : ShopTables) : ShopTables :=
  mkShop (sales t) (catalog t) (products t) (carts t) (cart_items t) (coupon_intents t) (mutations t) (methods t) (quotes t) (order_sheets t) (checkouts t) x.

#[export] Instance shop_sales : Lens (Domain ShopTables) (Domain SalesTables) :=
  {| view := fun s => mkDomain (inv_of s) (sales (own s)); put := fun d s => mkDomain (inv_of d) (set_sales (own d) (own s)) |}.

Notation Shop := (Domain ShopTables).
Notation HM := (M Shop).
Definition on_sales {A} (m : M (Domain SalesTables) A) : HM A := zoom m.

(** * Reads *)

Definition customer_of_user (userId : string) (t : ShopTables) : option Customer :=
  find_by (fun c => bool_decide (cu_userId c = Some userId)) (customers (credit (sales t))).
Definition cart_of (customerId : string) (t : ShopTables) : option Cart :=
  find_by (fun c => bool_decide (cart_customerId c = Some customerId)) (carts t).

(** [warehouse: { isActive: true }, location: { isActive: true }] *)
Definition active_place (db : InvDb) (b : InventoryBalance) : bool :=
  from_option w_isActive false (warehouses db !! warehouseId (b_key b)) && from_option l_isActive false (locations db !! locationId (b_key b)).
Definition available_of (variant : string) (db : InvDb) : Z :=
  sumZ b_available (find_many (fun b => bool_decide (variantId (b_key b) = variant) && active_place db b) (balances db)).

(** An item with its variant and product, as [cartInclude()] reads them. *)
Record CartRow := mkCartRow { row_item : CartItem; row_variant : ProductVariant; row_product : Product }.
Definition include_variant (t : ShopTables) (i : CartItem) : option CartRow :=
  v ← catalog t !! item_variantId i; p ← products t !! va_productId v; Some (mkCartRow i v p).
(** A required relation without its row. *)
Definition inconsistent_query : exn := JsError "PrismaClientUnknownRequestError" "Inconsistent query result".

Definition sellable_row (v : ProductVariant) (p : Product) : bool :=
  va_isActive v && bool_decide (va_status v = VARIANT_ACTIVE) && bool_decide (pr_status p = PRODUCT_ACTIVE).

(** [isFirstPurchase] counts these orders of a customer. *)
Definition prior_orders (t : SalesTables) (customerId : string) (excludeOrderId : option string) : Z :=
  count_rows (fun o => bool_decide (or_customerId o = customerId) &&
    bool_decide (order_state (or_id o) t ∈ [Some PENDING_PAYMENT; Some PAID; Some CREDIT_APPROVED]) &&
    not_excluded excludeOrderId (or_id o)) (orders (credit t)).

Definition PRICE_POLICY_REVISION : string := "catalog-sale-price-v1".

Section reads.
Context (collate : string -> string -> Z) (fold : string -> string).

Definition item_order : CartItem -> CartItem -> Z := then_by (by_text collate item_variantId) (by_text collate item_id).
Definition of_cart (cartId : string) (i : CartItem) : bool := bool_decide (item_cartId i = cartId).
Definition items_of (cartId : string) (t : ShopTables) : list CartItem := find_sorted item_order (of_cart cartId) (cart_items t).
(** [cart.items] *)
Definition cart_rows (cartId : string) (t : ShopTables) : option (list CartRow) := mapM (include_variant t) (items_of cartId t).

(** [cart.findUnique({ where: { customerId }, include })] *)
Definition load_cart (customerId : string) : HM (option (Cart * list CartRow)) :=
  t ← gets own;
  match cart_of customerId t with
  | None => mret None
  | Some cart => rows ← unwrap (cart_rows (cart_id cart) t) inconsistent_query; mret (Some (cart, rows))
  end.

Definition cart_line (db : InvDb) (r : CartRow) : CartLine :=
  let price := va_salePrice (row_variant r) in
  let quantity := item_quantity (row_item r) in
  mkCartLine (item_variantId (row_item r)) quantity (default (pr_name (row_product r)) (va_title (row_variant r)))
    (va_sku (row_variant r)) price (price * quantity) (available_of (va_id (row_variant r)) db).
(** [buildCartView(cart, quotedAt)] *)
Definition buildCartView (db : InvDb) (cart : Cart) (rows : list CartRow) (quotedAt : Z) : CartView :=
  let lines := cart_line db <$> rows in
  mkCartView (Some (cart_id cart)) (cart_version cart) lines (sumZ cl_lineTotal lines) PRICE_POLICY_REVISION quotedAt.
(** [buildEmptyCartView(quotedAt)] *)
Definition buildEmptyCartView (quotedAt : Z) : CartView := mkCartView None 0 [] 0 PRICE_POLICY_REVISION quotedAt.

(** [pricingLines(cart)] *)
Definition pricing_line (r : CartRow) : PricingLine :=
  mkPricingLine (item_variantId (row_item r)) (va_productId (row_variant r)) (pr_categoryId (row_product r)) (pr_brandId (row_product r))
    (va_salePrice (row_variant r)) (item_quantity (row_item r)).
Definition pricingLines (rows : list CartRow) : list PricingLine := pricing_line <$> rows.

(** [promotionsService.price(tx, input)] on the tables of the shop. *)
Definition shop_price (t : ShopTables) (input : PriceInput) : PricingOutcome :=
  price fold (prior_orders (sales t)) (promo (sales t)) input.
End reads.

(** * Shared writes *)

(** [cart.update({ where: { id }, data: { version: { increment: 1 } } })] *)
Definition with_version (n : Z) (c : Cart) : Cart :=
  mkCart (cart_id c) (cart_customerId c) (cart_guestTokenHash c) (cart_guestExpiresAt c) n.
Definition bump_cart (id : string) : HM unit :=
  row ← gets (fun d => carts (own d) !! id);
  c ← unwrap row P2025;
  throw_if (negb (int4 (cart_version c + 1))) P2020 ;;
  on_own (modify (fun t => set_carts (<[id := with_version (cart_version c + 1) c]> (carts t)) t)).

(** [cartItem.deleteMany({ where })]: the number of rows. *)
Definition delete_items (P : CartItem -> bool) : HM Z :=
  n ← gets (fun d => count_rows P (cart_items (own d)));
  on_own (modify (fun t => set_cart_items (delete_many P (cart_items t)) t)) ;;
  mret n.
(** [cartCouponIntent.deleteMany({ where: { cartId } })] *)
Definition delete_intent (cartId : string) : HM Z :=
  intent ← gets (fun d => coupon_intents (own d) !! cartId);
  on_own (modify (fun t => set_coupon_intents (delete cartId (coupon_intents t)) t)) ;;
  mret (match intent with Some _ => 1 | None => 0 end)%Z.

(** A transaction starts without advisory locks. *)
Definition begin_shop {A} (m : HM A) : HM A := on_inv (modify (set_locks [])) ;; m.
