(* ===== verification/Carts.v ===== *)
(** Carts of customers: [src/apps/api/src/modules/orders/cart.service.ts] with
    [cart-runtime.ts], [cart.constants.ts] and [cart-coupon.service.ts], and
    [src/apps/api/src/modules/promotions/coupon-rate-limit.service.ts].

    A mutation of a cart is recorded under its key for a day; every change of the lines or
    of the coupon increments the version of the cart, which a shipping quote refers to.
    [now] is the time of the request; Redis answers the limiter with [reply]. *)

From S2P Require Import Prelude Table Paging Json StableJson CheckoutAddress AuditTrail Retry InventoryModel Inventory.
From S2P Require Import Durable StateMachine PromotionEngine PromotionClaims Credit CreditCommands CreditSales Sales Shop.

(** * Constants and checks *)

Definition MAX_CART_LINES : Z := 100.
Definition MAX_CART_QUANTITY : Z := 99.
Definition CART_REPLAY_TTL_MS : Z := 24 * 60 * 60 * 1000.
Definition CART_EXPIRED_CLEANUP_BATCH : Z := 100.
Definition CART_SERIALIZABLE_RETRIES : Z := 5.
Inductive CartScope := scope_add | scope_set | scope_remove.
(** [CUSTOMER_CART_SCOPES] *)
Definition CUSTOMER_CART_SCOPES (s : CartScope) : string :=
  match s with
  | scope_add => "cart.add:/api/v1/cart/lines"
  | scope_set => "cart.set:/api/v1/cart/lines/:variantId"
  | scope_remove => "cart.remove:/api/v1/cart/lines/:variantId"
  end.

(** [value.trim()] of [1..max] characters without control characters. *)
Definition bounded_text (max : Z) (message value : string) : result string :=
  let normalized := trim value in
  if negb (truthy normalized) || (max <? Z.of_nat (String.length normalized))%Z || existsb is_control (String.list_ascii_of_string normalized)
  then Err (invalidRequest message) else Ok normalized.
Definition normalizeCartMutationKey : string -> result string :=
  bounded_text 128 "A valid Idempotency-Key of at most 128 characters is required.".
Definition normalizeCartServiceVariantId : string -> result string := bounded_text 191 "A valid variantId is required.".

Definition validateCartQuantity (quantity : number) : result unit :=
  if negb (isInteger quantity) || (int_val quantity <? 1)%Z || (MAX_CART_QUANTITY <? int_val quantity)%Z
  then Err (HttpException UnprocessableEntityException (Some "CART_QUANTITY_INVALID") "Quantity must be between 1 and 99.") else Ok tt.
Definition cartLineLimitExceeded : exn := conflictCode "CART_LINE_LIMIT_EXCEEDED" "Cart line limit exceeded.".
Definition sku_not_found : exn := notFound "SKU_NOT_FOUND" "Variant not found.".
Definition no_cart_customer : exn :=
  conflictCode "CUSTOMER_ACCOUNT_REQUIRED" "Initialize an owned customer profile before using the customer cart.".

(** [isRetryableContention] and [runCartSerializable(operation)] *)
Definition isRetryableContention (e : exn) : bool :=
  match e with PrismaClientKnownRequestError code _ => bool_decide (code = "P2034") || bool_decide (code = "P2002") | _ => false end.
Definition cart_conflict : exn := conflictCode "CONFLICT" "Cart changed concurrently; retry with the same idempotency key.".
Definition runCartSerializable {A} (E : env Shop) (operation : HM A) (s : Shop) : result A * Shop :=
  retry_loop E isRetryableContention cart_conflict (begin_shop operation) (Z.to_nat CART_SERIALIZABLE_RETRIES) 1 s.

Section carts.
Context (cuid : nat -> string) (hash fold : string -> string) (collate : string -> string -> Z).

(** * Transactions *)

(** [cleanupCustomerCartMutations(tx, customerId, now)] *)
Definition mutation_order : CartMutation -> CartMutation -> Z := then_by (ascending mu_expiresAt) (by_text collate mu_id).
Definition cleanupCustomerCartMutations (customerId : string) (now : Z) : HM unit :=
  expired ← gets (fun d => mu_id <$> take (Z.to_nat CART_EXPIRED_CLEANUP_BATCH)
    (find_sorted mutation_order (fun m => bool_decide (mu_customerId m = customerId) && (mu_expiresAt m <=? now)%Z) (mutations (own d))));
  on_own (modify (fun t => set_mutations (delete_many (fun m => bool_decide (mu_id m ∈ expired)) (mutations t)) t)).

(** [findReplay(tx, customerId, scope, keyHash, legacyKey, now)] *)
Definition scoped_mutation (customerId scope keyHash : string) (m : CartMutation) : bool :=
  bool_decide (mu_customerId m = customerId) && bool_decide (mu_scope m = scope) && bool_decide (mu_keyHash m = Some keyHash).
Definition legacy_mutation (customerId key : string) (m : CartMutation) : bool :=
  bool_decide (mu_customerId m = customerId) && bool_decide (mu_idempotencyKey m = Some key).
Definition live_mutation (P : CartMutation -> bool) (now : Z) : HM (option CartMutation) :=
  row ← gets (fun d => find_by P (mutations (own d)));
  match row with
  | Some m =>
      if (now <? mu_expiresAt m)%Z then mret (Some m)
      else on_own (modify (fun t => set_mutations (delete (mu_id m) (mutations t)) t)) ;; mret None
  | None => mret None
  end.
Definition findReplay (customerId scope keyHash legacyKey : string) (now : Z) : HM (option CartMutation) :=
  scoped ← live_mutation (scoped_mutation customerId scope keyHash) now;
  match scoped with
  | Some m => mret (Some m)
  | None => live_mutation (legacy_mutation customerId legacyKey) now
  end.

(** [persistedCartResult(tx, cartId, quotedAt)] *)
Definition persistedCartResult (cartId : string) (now : Z) : HM (option string * CartResponse) :=
  row ← gets (fun d => carts (own d) !! cartId);
  cart ← unwrap row P2025;
  rows ← gets (fun d => cart_rows collate cartId (own d));
  rows ← unwrap rows inconsistent_query;
  db ← gets inv_of;
  mret (Some cartId, mkCartResponse (buildCartView db cart rows now) None).

(** [requireSellableVariant(tx, variantId)] *)
Definition requireSellableVariant (variantId : string) : HM unit :=
  ok ← gets (fun d => match catalog (own d) !! variantId with
    | Some v => match products (own d) !! va_productId v with Some p => sellable_row v p | None => false end
    | None => false end);
  throw_if (negb ok) sku_not_found.

(** [cart.upsert({ where: { customerId }, create: { customerId }, update: {} })] *)
Definition upsert_cart (customerId : string) : HM Cart :=
  row ← gets (fun d => cart_of customerId (own d));
  match row with
  | Some c => mret c
  | None =>
      id ← on_inv (fresh_id cuid);
      taken ← gets (fun d => carts (own d) !! id);
      throw_if (bool_decide (is_Some taken)) P2002 ;;
      customer ← gets (fun d => customers (credit (sales (own d))) !! customerId);
      throw_if (bool_decide (customer = None)) P2003 ;;
      let c := mkCart id (Some customerId) None None 1 in
      on_own (modify (fun t => set_carts (<[id := c]> (carts t)) t)) ;;
      mret c
  end.

(** [cartItem.upsert]; the database checks the quantity, the cart and the variant. *)
Definition same_line (cartId variantId : string) (i : CartItem) : bool :=
  bool_decide (item_cartId i = cartId) && bool_decide (item_variantId i = variantId).
Definition find_line (cartId variantId : string) (t : ShopTables) : option CartItem := find_by (same_line cartId variantId) (cart_items t).
Definition upsert_line (cartId variantId : string) (quantity : Z) : HM unit :=
  throw_if (negb ((1 <=? quantity) && (quantity <=? 99))%Z) check_violation ;;
  row ← gets (fun d => find_line cartId variantId (own d));
  match row with
  | Some i => on_own (modify (fun t => set_cart_items (<[item_id i := mkCartItem (item_id i) cartId variantId quantity]> (cart_items t)) t))
  | None =>
      id ← on_inv (fresh_id cuid);
      taken ← gets (fun d => cart_items (own d) !! id);
      throw_if (bool_decide (is_Some taken)) P2002 ;;
      cart ← gets (fun d => carts (own d) !! cartId);
      variant ← gets (fun d => catalog (own d) !! variantId);
      throw_if (bool_decide (cart = None) || bool_decide (variant = None)) P2003 ;;
      on_own (modify (fun t => set_cart_items (<[id := mkCartItem id cartId variantId quantity]> (cart_items t)) t))
  end.

(** [writeLine(tx, customerId, variantId, resolveQuantity)] *)
Definition writeLine (now : Z) (customerId variantId : string) (resolveQuantity : option Z -> Z) : HM (option string * CartResponse) :=
  requireSellableVariant variantId ;;
  cart ← upsert_cart customerId;
  let cartId := cart_id cart in
  line ← gets (fun d => find_line cartId variantId (own d));
  count ← gets (fun d => count_rows (of_cart cartId) (cart_items (own d)));
  throw_if (bool_decide (line = None) && (MAX_CART_LINES <=? count)%Z) cartLineLimitExceeded ;;
  let quantity := resolveQuantity (item_quantity <$> line) in
  lift_result (validateCartQuantity (Int quantity)) ;;
  if bool_decide (item_quantity <$> line = Some quantity) then persistedCartResult cartId now
  else
    upsert_line cartId variantId quantity ;;
    bump_cart cartId ;;
    persistedCartResult cartId now.

(** The operation of [removeForUser]. *)
Definition removeLine (now : Z) (customerId variantId : string) : HM (option string * CartResponse) :=
  row ← gets (fun d => cart_of customerId (own d));
  match row with
  | None => mret (None, mkCartResponse (buildEmptyCartView now) None)
  | Some cart =>
      deleted ← delete_items (same_line (cart_id cart) variantId);
      (if (0 <? deleted)%Z then bump_cart (cart_id cart) else mret tt) ;;
      persistedCartResult (cart_id cart) now
  end.

(** What the three mutations ask for. *)
Inductive CartChange := AddLine (variantId : string) (quantity : Z) | SetLine (variantId : string) (quantity : Z) | RemoveLine (variantId : string).
Definition change_scope (c : CartChange) : string :=
  CUSTOMER_CART_SCOPES match c with AddLine _ _ => scope_add | SetLine _ _ => scope_set | RemoveLine _ => scope_remove end.
Definition change_payload (c : CartChange) : json :=
  match c with
  | AddLine v q | SetLine v q => JObj [("variantId", JStr v); ("quantity", JNum q)]
  | RemoveLine v => JObj [("variantId", JStr v)]
  end.
Definition apply_change (now : Z) (customerId : string) (c : CartChange) : HM (option string * CartResponse) :=
  match c with
  | AddLine v q => writeLine now customerId v (fun current => match current with None => q | Some n => (n + q)%Z end)
  | SetLine v q => writeLine now customerId v (fun _ => q)
  | RemoveLine v => removeLine now customerId v
  end.

(** [cartMutation.create], with its unique index. *)
Definition create_mutation (cartId : option string) (customerId scope keyHash fingerprint : string) (response : CartResponse) (expiresAt : Z)
    : HM unit :=
  id ← on_inv (fresh_id cuid);
  taken ← gets (fun d => mutations (own d) !! id);
  dup ← gets (fun d => find_by (scoped_mutation customerId scope keyHash) (mutations (own d)));
  throw_if (bool_decide (is_Some taken) || bool_decide (is_Some dup)) P2002 ;;
  on_own (modify (fun t => set_mutations (<[id := mkCartMutation id cartId customerId scope None (Some keyHash) fingerprint response expiresAt]>
    (mutations t)) t)).

(** The transaction of [runMutation(customerId, scope, idempotencyKey, payload, operation)] *)
Definition mutation_tx (now : Z) (customerId key : string) (c : CartChange) : HM CartResponse :=
  let scope := change_scope c in
  let keyHash := hash key in
  let fingerprint := fingerprint_of hash [("scope", JStr scope); ("payload", change_payload c)] in
  cleanupCustomerCartMutations customerId now ;;
  prior ← findReplay customerId scope keyHash key now;
  match prior with
  | Some prior =>
      let legacyFingerprint := hash (print_json (change_payload c)) in
      let fingerprintMatches := bool_decide (mu_fingerprint prior = fingerprint) ||
        (bool_decide (is_Some (mu_idempotencyKey prior)) && bool_decide (mu_fingerprint prior = legacyFingerprint)) in
      throw_if (negb fingerprintMatches) payload_conflict ;;
      mret (mu_response prior)
  | None =>
      result ← apply_change now customerId c;
      create_mutation (fst result) customerId scope keyHash fingerprint (snd result) (now + CART_REPLAY_TTL_MS) ;;
      mret (snd result)
  end.

(** * Public operations *)

(** [customer(userId)] *)
Definition cart_customer (userId : string) (t : ShopTables) : result string :=
  match customer_of_user userId t with Some c => Ok (cu_id c) | None => Err no_cart_customer end.

Definition run_mutation (E : env Shop) (now : Z) (userId key : string) (checked : result CartChange) (s : Shop) : result CartResponse * Shop :=
  match (c ← checked; key ← normalizeCartMutationKey key; customerId ← cart_customer userId (own s); Ok (c, key, customerId)) with
  | Err e => (Err e, s)
  | Ok (c, key, customerId) => runCartSerializable E (mutation_tx now customerId key c) s
  end.

(** [addForUser(userId, input, key)] *)
Definition addForUser (E : env Shop) (now : Z) (userId variantId : string) (quantity : number) (key : string) (s : Shop)
    : result CartResponse * Shop :=
  run_mutation E now userId key (v ← normalizeCartServiceVariantId variantId; validateCartQuantity quantity ;; Ok (AddLine v (int_val quantity))) s.
(** [setForUser(userId, variantId, quantity, key)] *)
Definition setForUser (E : env Shop) (now : Z) (userId variantId : string) (quantity : number) (key : string) (s : Shop)
    : result CartResponse * Shop :=
  run_mutation E now userId key (v ← normalizeCartServiceVariantId variantId; validateCartQuantity quantity ;; Ok (SetLine v (int_val quantity))) s.
(** [removeForUser(userId, variantId, key)] *)
Definition removeForUser (E : env Shop) (now : Z) (userId variantId key : string) (s : Shop) : result CartResponse * Shop :=
  run_mutation E now userId key (v ← normalizeCartServiceVariantId variantId; Ok (RemoveLine v)) s.

(** [getForUser(userId)] *)
Definition price_input (customerId : string) (rows : list CartRow) (shipping : Z) (shippingKnown : bool) (code : option string) (now : Z)
    : PriceInput :=
  mkPriceInput customerId (pricingLines rows) shipping code now shippingKnown None.
Definition getForUser (now : Z) (userId : string) (s : Shop) : result CartResponse :=
  customerId ← cart_customer userId (own s);
  match load_cart collate customerId s with
  | Err e => Err e
  | Ok (None, _) => Ok (mkCartResponse (buildEmptyCartView now) None)
  | Ok (Some (cart, rows), _) =>
      let outcome := shop_price fold (own s) (price_input customerId rows 0 false (coupon_intents (own s) !! cart_id cart) now) in
      Ok (mkCartResponse (buildCartView (inv_of s) cart rows now) (Some (cartView outcome)))
  end.

(** * Coupons *)

(** [CouponRateLimitService.enforce(customerId)]; [reply] is what Redis counted, if it
    answered with a number. *)
Definition COUPON_LIMIT : Z := 15.
Definition enforce (reply : option number) : result unit :=
  match reply with
  | Some count =>
      if negb (isSafeInteger count) || (int_val count <? 1)%Z
      then Err (HttpException ServiceUnavailableException (Some "RATE_LIMIT_UNAVAILABLE") "Coupon validation is temporarily unavailable.")
      else if (COUPON_LIMIT <? int_val count)%Z then Err (HttpException (HttpStatus 429) (Some "RATE_LIMITED") "RATE_LIMITED") else Ok tt
  | None => Err (HttpException ServiceUnavailableException (Some "RATE_LIMIT_UNAVAILABLE") "Coupon validation is temporarily unavailable.")
  end.

(** [COUPON_CODE_PATTERN]: [/^[A-Z0-9]{4,40}$/] *)
Definition coupon_char (c : Ascii.ascii) : bool :=
  let n := Ascii.N_of_ascii c in ((48 <=? n) && (n <=? 57) || (65 <=? n) && (n <=? 90))%N.
Definition coupon_pattern (code : string) : bool :=
  let cs := String.list_ascii_of_string code in forallb coupon_char cs && (4 <=? length cs)%nat && (length cs <=? 40)%nat.
(** Its message is [couponMessage(code)]. *)
Definition coupon_refused (c : CouponErrorCode) : exn :=
  HttpException UnprocessableEntityException (Some (coupon_code_str c)) (coupon_code_str c).

(** The transaction of [apply]. *)
Definition apply_coupon_tx (now : Z) (customerId code userId requestId : string) : HM unit :=
  loaded ← load_cart collate customerId;
  match loaded with
  | None => mthrow (conflictCode "CART_EMPTY" "Cart is empty.")
  | Some (cart, rows) =>
      throw_if (bool_decide (length rows = 0%nat)) (conflictCode "CART_EMPTY" "Cart is empty.") ;;
      t ← gets own;
      match po_couponError (shop_price fold t (price_input customerId rows 0 false (Some code) now)) with
      | Some e => mthrow (coupon_refused e)
      | None =>
          on_own (modify (fun t => set_coupon_intents (<[cart_id cart := code]> (coupon_intents t)) t)) ;;
          bump_cart (cart_id cart) ;;
          on_inv (record (mkAuditEvent "cart.coupon.applied" "cart" (Some (cart_id cart)) None None (Some (JObj [("code", JStr code)]))
            (Some userId) (Some requestId)))
      end
  end.
(** The transaction of [remove]. *)
Definition remove_coupon_tx (customerId userId requestId : string) : HM unit :=
  row ← gets (fun d => cart_of customerId (own d));
  match row with
  | None => mret tt
  | Some cart =>
      removed ← delete_intent (cart_id cart);
      if (0 <? removed)%Z then
        bump_cart (cart_id cart) ;;
        on_inv (record (mkAuditEvent "cart.coupon.removed" "cart" (Some (cart_id cart)) None None None (Some userId) (Some requestId)))
      else mret tt
  end.

(** A transaction, then [this.cart.getForUser(userId)]. *)
Definition then_view (now : Z) (userId : string) (out : result unit * Shop) : result CartResponse * Shop :=
  match out with (Ok _, s) => (getForUser now userId s, s) | (Err e, s) => (Err e, s) end.
(** [CartCouponService.apply(userId, rawCode, requestId)] *)
Definition apply (now : Z) (reply : option number) (userId rawCode requestId : string) (s : Shop) : result CartResponse * Shop :=
  match (customerId ← cart_customer userId (own s); enforce reply ;; Ok customerId) with
  | Err e => (Err e, s)
  | Ok customerId =>
      let code := normalizeCouponCode fold rawCode in
      if negb (coupon_pattern code) then (Err (coupon_refused COUPON_NOT_FOUND), s)
      else then_view now userId (transaction (begin_shop (apply_coupon_tx now customerId code userId requestId)) s)
  end.
(** [CartCouponService.remove(userId, requestId)] *)
Definition remove (now : Z) (userId requestId : string) (s : Shop) : result CartResponse * Shop :=
  match cart_customer userId (own s) with
  | Err e => (Err e, s)
  | Ok customerId => then_view now userId (transaction (begin_shop (remove_coupon_tx customerId userId requestId)) s)
  end.
End carts.
