(* ===== verification/Checkout.v ===== *)
(** Checkout: [src/apps/api/src/modules/orders/checkout.service.ts] and the shipping quotes
    of [configured-shipping-quote.adapter.ts].

    A preview prices the cart once for each shipping method and stores a quote that is bound
    to the customer, the version of the cart, the address and the terms of the method.  A
    checkout with a quote prices again, and when nothing changed turns the cart into an order
    that waits for payment, with its stock and its promotion uses reserved.

    Parameters: [cuid] and [uuid] are the identifiers that the database and [randomUUID]
    draw, [hash] is SHA-256, [collate] the text order of the database, [fold], [nfkc] and
    [upper] the Unicode functions.  [now] is the time of the attempt. *)

From S2P Require Import Prelude Table Paging Json StableJson CheckoutAddress AuditTrail Retry InventoryModel Inventory.
From S2P Require Import IsoTime Durable StateMachine PromotionEngine PromotionClaims Credit CreditCommands CreditSales Sales Shop Carts.

Definition CHECKOUT_RECORD_TTL_MS : Z := 24 * 60 * 60 * 1000.
Definition RESERVATION_TTL_MS : Z := 15 * 60 * 1000.
Definition SHIPPING_QUOTE_TTL_MS : Z := 15 * 60 * 1000.

(** * Errors and values *)

Definition CheckoutContentionError (message : string) : exn := JsError "CheckoutContentionError" message.
Definition is_checkout_contention (e : exn) : bool :=
  match e with JsError cls _ => bool_decide (cls = "CheckoutContentionError") | _ => isPrismaTransactionConflict e end.
Definition checkout_conflict : string := "Checkout changed concurrently; retry with the same idempotency key.".
Definition no_profile : exn := conflictCode "CONFLICT" "Customer profile is not linked to the authenticated user.".
Definition cart_empty : exn := conflictCode "CART_EMPTY" "Cart is empty.".
Definition quote_changed (message : string) : exn := conflictCode "QUOTE_CHANGED" message.
Definition shipping_quote_changed : exn := conflictCode "SHIPPING_QUOTE_CHANGED" "Shipping quote is expired or no longer valid.".
Definition unsellable : exn := notFound "SKU_NOT_FOUND" "A cart variant is no longer sellable.".
Definition no_stock : exn := insufficientStock "Insufficient available stock.".
(** [conflictFromRejection(error)] of a [CouponRejection]; other errors are thrown on. *)
Definition conflictFromRejection (e : exn) : exn :=
  match e with
  | JsError cls code => if bool_decide (cls = "CouponRejection") then conflictCode code code else e
  | _ => e
  end.
(** [try { await m } catch (error) { throw f(error) }] *)
Definition rethrow {S A} (f : exn -> exn) (m : M S A) : M S A := fun s => match m s with Ok r => Ok r | Err e => Err (f e) end.

(** The range of a [BigInt] column, and [btrim(s) <> '']. *)
Definition int8 (z : Z) : bool := ((- (2 ^ 63) <=? z) && (z <? 2 ^ 63))%Z.
Definition nonblank (s : string) : bool := existsb (fun c => negb (bool_decide (c = Ascii.ascii_of_N 32))) (String.list_ascii_of_string s).

(** [n.toString(36).toUpperCase()]; a number has fewer digits to base 36 than bits. *)
Definition digit36 (n : Z) : Ascii.ascii := Ascii.ascii_of_N (Z.to_N (if n <? 10 then 48 + n else 55 + n)%Z).
Fixpoint digits36 (fuel : nat) (n : Z) (acc : string) : string :=
  match fuel with
  | O => acc
  | S fuel =>
      let acc := String (digit36 (n mod 36)) acc in
      if (n <? 36)%Z then acc else digits36 fuel (n / 36) acc
  end.
Definition base36 (n : Z) : string := digits36 (S (Z.to_nat (Z.log2 n))) n EmptyString.
(** [orderNumber(now)]; [uuid] is what [randomUUID()] returns. *)
Definition orderNumber (now : Z) (uuid : string) : string :=
  "IRY-" +:+ base36 now +:+ "-" +:+ String.string_of_list_ascii (take 10 (String.list_ascii_of_string (compact_uuid uuid))).

(** * Shipping quotes *)

(** [ShippingQuote_values] and [ShippingQuote_promotionDiscount_nonnegative]; [createdAt] is [now]. *)
Definition quote_check (now : Z) (q : ShippingQuote) : bool :=
  ((1 <=? qu_cartVersion q) && (0 <=? qu_subtotal q) && (0 <=? qu_amount q) && (now <? qu_expiresAt q) && (0 <=? qu_promotionDiscount q))%Z &&
  nonblank (qu_methodCode q) && nonblank (qu_methodTitle q) && nonblank (qu_pricePolicyRevision q) && nonblank (qu_policyRevision q).

Section quotes.
Context (cuid : nat -> string) (hash fold : string -> string) (collate : string -> string -> Z).

(** [shippingQuote.create] *)
Definition create_quote (now : Z) (row : string -> ShippingQuote) : HM ShippingQuote :=
  id ← on_inv (fresh_id cuid);
  let q := row id in
  throw_if (negb (int8 (qu_subtotal q) && int8 (qu_promotionDiscount q))) P2020 ;;
  throw_if (negb (quote_check now q)) check_violation ;;
  taken ← gets (fun d => quotes (own d) !! id);
  throw_if (bool_decide (is_Some taken)) P2002 ;;
  on_own (modify (fun t => set_quotes (<[id := q]> (quotes t)) t)) ;;
  mret q.

Definition method_order : ShippingMethod -> ShippingMethod -> Z := then_by (by_text collate sm_code) (by_text collate sm_id).
Definition expired_quote (customerId : string) (now : Z) (q : ShippingQuote) : bool :=
  bool_decide (qu_customerId q = customerId) && bool_decide (qu_consumedAt q = None) && (qu_expiresAt q <=? now)%Z.
Definition method_price (t : ShopTables) (now : Z) (customerId : string) (cart : Cart) (rows : list CartRow) (shipping : Z) : PricingOutcome :=
  shop_price fold t (price_input customerId rows shipping true (coupon_intents t !! cart_id cart) now).
Definition quote_of (now : Z) (customerId addressHash : string) (cart : Cart) (subtotal discount : Z) (m : ShippingMethod) (id : string) : ShippingQuote :=
  mkQuote id customerId (cart_id cart) (cart_version cart) (sm_id m) (sm_code m) (sm_title m) addressHash subtotal (sm_amount m) discount
    PRICE_POLICY_REVISION (sm_policyRevision m) (now + SHIPPING_QUOTE_TTL_MS) None None.

Record CheckoutPreview := mkPreview { vw_cart : CartView; vw_promotion : option (list (string * Z * Z) * Z * Z); vw_shipping : list ShippingQuoteContract }.

(** The transaction of [previewForUser(userId, address)]. *)
Definition preview_tx (now : Z) (customerId : string) (address : CheckoutAddress) : HM CheckoutPreview :=
  loaded ← load_cart collate customerId;
  match loaded with
  | None => mthrow cart_empty
  | Some (cart, rows) =>
      throw_if (bool_decide (length rows = 0%nat)) cart_empty ;;
      throw_if (existsb (fun r => negb (sellable_row (row_variant r) (row_product r))) rows)
        (quote_changed "Cart contents changed and must be reviewed.") ;;
      available ← gets (fun d => find_sorted method_order sm_isActive (methods (own d)));
      throw_if (bool_decide (length available = 0%nat)) (conflictCode "SHIPPING_UNAVAILABLE" "No shipping method is currently available.") ;;
      db ← gets inv_of;
      let view := buildCartView db cart rows now in
      on_own (modify (fun t => set_quotes (delete_many (expired_quote customerId now) (quotes t)) t)) ;;
      shipping ← map_each available (fun m =>
        t ← gets own;
        let priced := method_price t now customerId cart rows (sm_amount m) in
        q ← create_quote now (quote_of now customerId (checkoutAddressHash hash address) cart (cv_subtotal view)
          (er_totalDiscount (po_result priced)) m);
        mret (priced, q));
      mret (mkPreview view (cartView <$> (fst <$> head shipping)) ((fun pq => shippingQuoteContract (snd pq)) <$> shipping))
  end.

(** [requireValidQuote(tx, input)] *)
Definition method_terms (q : ShippingQuote) (m : ShippingMethod) : bool :=
  sm_isActive m && bool_decide (qu_methodCode q = sm_code m) && bool_decide (qu_methodTitle q = sm_title m) &&
  bool_decide (qu_amount q = sm_amount m) && bool_decide (qu_policyRevision q = sm_policyRevision m).
Definition valid_quote (now : Z) (customerId : string) (cart : Cart) (address : CheckoutAddress) (q : ShippingQuote) (m : ShippingMethod) : bool :=
  bool_decide (qu_customerId q = customerId) && bool_decide (qu_cartId q = cart_id cart) && bool_decide (qu_cartVersion q = cart_version cart) &&
  bool_decide (qu_consumedAt q = None) && bool_decide (qu_orderId q = None) && (now <? qu_expiresAt q)%Z &&
  bool_decide (qu_addressHash q = checkoutAddressHash hash address) && method_terms q m.
Definition requireValidQuote (quoteId : string) (now : Z) (customerId : string) (cart : Cart) (address : CheckoutAddress) : HM ShippingQuote :=
  t ← gets own;
  match quotes t !! quoteId with
  | Some q =>
      m ← unwrap (methods t !! qu_shippingMethodId q) inconsistent_query;
      throw_if (negb (valid_quote now customerId cart address q m)) shipping_quote_changed ;;
      mret q
  | None => mthrow shipping_quote_changed
  end.

(** [previewForUser(userId, address)] *)
Definition previewForUser (nfkc upper : utext -> utext) (now : Z) (userId : string) (input : CheckoutAddress) (s : Shop)
    : result CheckoutPreview * Shop :=
  match normalizeCheckoutAddress nfkc upper input with
  | Err e => (Err e, s)
  | Ok address =>
      match customer_of_user userId (own s) with
      | None => (Err no_profile, s)
      | Some customer => transaction (begin_shop (preview_tx now (cu_id customer) address)) s
      end
  end.
End quotes.

(** * A new order *)

Record NewOrder := mkNewOrder {
  no_number : string;
  no_customerId : string;
  no_discount : Z;
  no_shipping : Z;
  no_grandTotal : Z;
  no_address : json;
  no_reservationExpiresAt : Z;
  no_sheet : OrderSheet
}.
(** [Order_checkout_money], [Order_checkout_snapshot] and [OrderItem_checkout_values] *)
Definition order_check (n : NewOrder) : bool :=
  let subtotal := sheet_subtotal (no_sheet n) in
  ((0 <=? subtotal) && (0 <=? no_discount n) && (0 <=? no_shipping n) && (0 <=? no_grandTotal n) &&
   (no_grandTotal n =? subtotal - no_discount n + no_shipping n))%Z &&
  nonblank (sheet_shippingMethod (no_sheet n)) && nonblank (sheet_shippingMethodTitle (no_sheet n)) &&
  nonblank (sheet_shippingPolicyRevision (no_sheet n)) && nonblank (sheet_pricePolicyRevision (no_sheet n)) &&
  forallb (fun l => ((0 <? os_quantity l) && (0 <=? os_unitPrice l) && (os_lineTotal l =? os_unitPrice l * os_quantity l))%Z) (sheet_lines (no_sheet n)).
Definition order_fits (n : NewOrder) : bool :=
  int8 (sheet_subtotal (no_sheet n)) && int8 (no_discount n) && int8 (no_shipping n) && int8 (no_grandTotal n) &&
  forallb (fun l => int4 (os_quantity l) && int8 (os_unitPrice l) && int8 (os_lineTotal l)) (sheet_lines (no_sheet n)).

Definition order_item (id : string) (l : OrderLineSnapshot) : OrderLine :=
  mkOrderLine id (os_variantId l) (os_quantity l) (os_unitPrice l) (os_lineTotal l).
Definition new_order (id : string) (itemIds : list string) (n : NewOrder) : CreditOrder :=
  mkOrder id (no_number n) (no_customerId n) 0 (no_discount n) (no_shipping n) (no_grandTotal n) (no_reservationExpiresAt n)
    (zip_with order_item itemIds (sheet_lines (no_sheet n))) [] [] None (Some (no_address n)) None.
(** The row of an order is split over three tables. *)
Definition insert_order (id : string) (o : CreditOrder) (sheet : OrderSheet) (t : ShopTables) : ShopTables :=
  let c := credit (sales t) in
  let c := put (mkStatusDb (<[id := DRAFT]> (sd_status (order_status c))) (sd_history (order_status c))) (set_orders (<[id := o]> (orders c)) c) in
  set_order_sheets (<[id := sheet]> (order_sheets t)) (set_sales (set_credit c (sales t)) t).
Definition row_taken (id : string) (t : ShopTables) : bool :=
  bool_decide (is_Some (find_order id (sales t))) || bool_decide (is_Some (order_state id (sales t))).

Section order.
Context (cuid : nat -> string).

(** [order.create({ data: { ..., status: 'DRAFT', items: { create } } })] *)
Definition create_order (n : NewOrder) : HM string :=
  id ← on_inv (fresh_id cuid);
  itemIds ← map_each (sheet_lines (no_sheet n)) (fun _ => on_inv (fresh_id cuid));
  throw_if (negb (order_fits n)) P2020 ;;
  throw_if (negb (order_check n)) check_violation ;;
  t ← gets own;
  throw_if (row_taken id t || negb (bool_decide (NoDup itemIds)) ||
    bool_decide (is_Some (find_by (fun o => bool_decide (or_number o = no_number n) || existsb (fun i => bool_decide (ol_id i ∈ itemIds)) (or_items o))
      (orders (credit (sales t)))))) P2002 ;;
  throw_if (bool_decide (customers (credit (sales t)) !! no_customerId n = None)) P2003 ;;
  on_own (modify (insert_order id (new_order id itemIds n) (no_sheet n))) ;;
  mret id.

(** ** Reservation of the lines *)

Context (collate : string -> string -> Z).

(** The balances with free stock of a variant in the order of [orderBy]. *)
Definition code_of_warehouse (db : InvDb) (b : InventoryBalance) : string := from_option w_code EmptyString (warehouses db !! warehouseId (b_key b)).
Definition code_of_location (db : InvDb) (b : InventoryBalance) : string := from_option l_code EmptyString (locations db !! locationId (b_key b)).
Definition balance_order (db : InvDb) : InventoryBalance -> InventoryBalance -> Z :=
  then_by (by_text collate (code_of_warehouse db)) (then_by (by_text collate (code_of_location db))
    (then_by (descending (ascending b_available)) (by_text collate b_id))).
Definition free_balances (variant : string) (db : InvDb) : list InventoryBalance :=
  find_sorted (balance_order db) (fun b => bool_decide (variantId (b_key b) = variant) && (0 <? b_available b)%Z && active_place db b) (balances db).

(** [inventoryBalance.updateMany({ where: { id, version, available: { gte }, ... } })], which
    must change the row. *)
Definition take_balance (contention : exn) (read : InventoryBalance) (quantity : Z) : M InvDb unit :=
  row ← gets (fun db => balances db !! b_id read);
  places ← gets (fun db => from_option (active_place db) false row);
  match row with
  | Some b =>
      throw_if (negb (bool_decide (b_version b = b_version read) && (quantity <=? b_available b)%Z && places)) contention ;;
      write_balance (mkBalance (b_id b) (b_key b) (b_onHand b) (b_reserved b + quantity) (b_available b - quantity) (b_version b + 1))
  | None => mthrow contention
  end.

(** What identifies an order whose lines are reserved. *)
Record Placement := mkPlacement {
  pc_orderId : string;
  pc_expiresAt : Z;
  pc_key : string -> string -> string;
  pc_contention : exn;
  pc_short : OrderLineSnapshot -> exn;
  pc_source : list (string * json);
  pc_actorId : string;
  pc_requestId : string
}.

Definition reserve_from (p : Placement) (variant : string) (b : InventoryBalance) (quantity : Z) : M InvDb StockReservation :=
  take_balance (pc_contention p) b quantity ;;
  reservation ← create_reservation cuid (mkKey (warehouseId (b_key b)) (locationId (b_key b)) variant) (Some (pc_orderId p)) quantity
    (pc_expiresAt p) (Some (pc_key p variant (locationId (b_key b))));
  record (mkAuditEvent "inventory.reservation.created" "stock-reservation" (Some (r_id reservation)) None None
    (Some (JObj ([("orderId", JStr (pc_orderId p)); ("warehouseId", JStr (warehouseId (b_key b))); ("locationId", JStr (locationId (b_key b)));
                  ("variantId", JStr variant); ("quantity", JNum quantity)] ++ pc_source p)))
    (Some (pc_actorId p)) (Some (pc_requestId p))) ;;
  mret reservation.
(** [for (const balance of balances) { if (remaining === 0) break; ... }] *)
Fixpoint reserve_each (p : Placement) (variant : string) (bs : list InventoryBalance) (remaining : Z) : M InvDb (list StockReservation) :=
  match bs with
  | [] => mret []
  | b :: bs =>
      if bool_decide (remaining = 0%Z) then mret []
      else
        let quantity := Z.min remaining (b_available b) in
        r ← reserve_from p variant b quantity;
        rs ← reserve_each p variant bs (remaining - quantity);
        mret (r :: rs)
  end.
Definition reserve_line (p : Placement) (line : OrderLineSnapshot) : M InvDb (list StockReservation) :=
  bs ← gets (free_balances (os_variantId line));
  throw_if (sumZ b_available bs <? os_quantity line)%Z (pc_short p line) ;;
  reserve_each p (os_variantId line) bs (os_quantity line).
(** The loop over the lines of the order. *)
Definition reserve_lines (p : Placement) (lines : list OrderLineSnapshot) : M InvDb (list StockReservation) :=
  rss ← map_each lines (reserve_line p);
  mret (concat rss).
End order.

(** * Checkout *)

Section checkout.
Context (cuid uuid : nat -> string) (hash fold : string -> string) (collate : string -> string -> Z).

Definition same_checkout (customerId keyHash : string) (r : CheckoutRecord) : bool :=
  bool_decide (kr_customerId r = customerId) && bool_decide (kr_keyHash r = keyHash).
Definition find_checkout (customerId keyHash : string) (t : ShopTables) : option CheckoutRecord := find_by (same_checkout customerId keyHash) (checkouts t).

(** [checkoutIdempotencyRecord.create] and [update] *)
Definition create_checkout (customerId keyHash fingerprint : string) (expiresAt : Z) : HM string :=
  id ← on_inv (fresh_id cuid);
  t ← gets own;
  throw_if (bool_decide (is_Some (checkouts t !! id)) || bool_decide (is_Some (find_checkout customerId keyHash t))) P2002 ;;
  throw_if (bool_decide (customers (credit (sales t)) !! customerId = None)) P2003 ;;
  on_own (modify (fun t => set_checkouts (<[id := mkCheckoutRecord id customerId keyHash fingerprint None None expiresAt]> (checkouts t)) t)) ;;
  mret id.
Definition complete_checkout (id orderId : string) (response : CheckoutResponse) : HM unit :=
  row ← gets (fun d => checkouts (own d) !! id);
  r ← unwrap row P2025;
  on_own (modify (fun t => set_checkouts (<[id := mkCheckoutRecord (kr_id r) (kr_customerId r) (kr_keyHash r) (kr_fingerprint r) (Some orderId)
    (Some response) (kr_expiresAt r)]> (checkouts t)) t)).

(** [shippingQuote.updateMany({ where: { id, consumedAt: null, orderId: null }, data })], which
    must change the row. *)
Definition consume_quote (id orderId : string) (now : Z) : HM unit :=
  row ← gets (fun d => quotes (own d) !! id);
  match row with
  | Some q =>
      throw_if (negb (bool_decide (qu_consumedAt q = None) && bool_decide (qu_orderId q = None)))
        (CheckoutContentionError "Shipping quote was consumed concurrently.") ;;
      on_own (modify (fun t => set_quotes (<[id := mkQuote (qu_id q) (qu_customerId q) (qu_cartId q) (qu_cartVersion q) (qu_shippingMethodId q)
        (qu_methodCode q) (qu_methodTitle q) (qu_addressHash q) (qu_subtotal q) (qu_amount q) (qu_promotionDiscount q) (qu_pricePolicyRevision q)
        (qu_policyRevision q) (qu_expiresAt q) (Some now) (Some orderId)]> (quotes t)) t))
  | None => mthrow (CheckoutContentionError "Shipping quote was consumed concurrently.")
  end.

Definition snapshot_line (r : CartRow) : OrderLineSnapshot :=
  let v := row_variant r in
  mkSnapshot (va_id v) (pr_name (row_product r)) (va_title v) (va_sku v) (item_quantity (row_item r)) (va_salePrice v)
    (va_salePrice v * item_quantity (row_item r)).
(** [reservationIdempotencyKey(customerId, keyHash, variantId, locationId)] *)
Definition reservationIdempotencyKey (customerId keyHash variantId locationId : string) : string :=
  "checkout:" +:+ hash (stringify_strings [customerId; keyHash; variantId; locationId]).
Definition checkout_placement (now : Z) (customerId keyHash orderId userId requestId : string) : Placement :=
  mkPlacement orderId (now + RESERVATION_TTL_MS) (reservationIdempotencyKey customerId keyHash)
    (CheckoutContentionError "Inventory balance changed concurrently.") (fun _ => no_stock) [] userId requestId.

Record CheckoutCommand := mkCheckoutCommand {
  cq_userId : string;
  cq_customerId : string;
  cq_address : CheckoutAddress;
  cq_shippingQuoteId : string;
  cq_idempotencyKey : string;
  cq_requestId : string
}.
Definition checkout_print (c : CheckoutCommand) : string :=
  fingerprint_of hash [("address", address_json (cq_address c)); ("shippingQuoteId", JStr (cq_shippingQuoteId c))].

(** The order that a priced cart becomes. *)
Definition order_to_place (now : Z) (c : CheckoutCommand) (number : string) (lines : list OrderLineSnapshot) (q : ShippingQuote) (discount : Z) : NewOrder :=
  let subtotal := sumZ os_lineTotal lines in
  mkNewOrder number (cq_customerId c) discount (qu_amount q) (subtotal + qu_amount q - discount) (address_json (cq_address c)) (now + RESERVATION_TTL_MS)
    (mkSheet subtotal (qu_methodCode q) (qu_methodTitle q) (qu_policyRevision q) (qu_pricePolicyRevision q) lines None).
Definition checkout_response (c : CheckoutCommand) (id : string) (n : NewOrder) (q : ShippingQuote) (priced : PricingOutcome) (rs : list StockReservation)
    : CheckoutResponse :=
  mkCheckout id (no_number n) (sheet_lines (no_sheet n)) (sheet_subtotal (no_sheet n)) (no_discount n)
    ((fun a => (ap_promotionId a, ap_name a, po_couponCode priced, ap_itemDiscount a, ap_shippingDiscount a)) <$> er_applied (po_result priced))
    (no_shipping n) (no_grandTotal n) (cq_address c) (shippingQuoteContract q) (sheet_pricePolicyRevision (no_sheet n)) (no_reservationExpiresAt n)
    ((fun r => mkReservationView (r_id r) (variantId (r_key r)) (r_quantity r) (r_expiresAt r)) <$> rs).
Definition money_json (n : NewOrder) : json :=
  JObj [("status", JStr "PENDING_PAYMENT"); ("subtotal", JStr (pretty (sheet_subtotal (no_sheet n)))); ("shipping", JStr (pretty (no_shipping n)));
        ("discount", JStr (pretty (no_discount n))); ("grandTotal", JStr (pretty (no_grandTotal n)))].

(** The cart after the order. *)
Definition empty_cart (cartId : string) : HM unit :=
  _ ← delete_items (of_cart cartId);
  _ ← delete_intent cartId;
  bump_cart cartId.

(** The writes that turn the priced cart into an order. *)
Definition place_order (now : Z) (c : CheckoutCommand) (cart : Cart) (lines : list OrderLineSnapshot) (q : ShippingQuote) (priced : PricingOutcome)
    : HM (string * NewOrder * list StockReservation) :=
  random ← on_inv (fresh_id uuid);
  let n := order_to_place now c (orderNumber now random) lines q (er_totalDiscount (po_result priced)) in
  id ← create_order cuid n;
  rethrow conflictFromRejection (on_sales (on_promo (PromotionClaims.reserve cuid id (cq_customerId c) (po_result priced)))) ;;
  _ ← on_sales (move_order cuid id DRAFT PENDING_PAYMENT (meta_of (Some (cq_userId c)) (Some (cq_requestId c)) "CHECKOUT_COMPLETED"));
  rs ← on_inv (reserve_lines cuid collate
    (checkout_placement now (cq_customerId c) (hash (cq_idempotencyKey c)) id (cq_userId c) (cq_requestId c)) lines);
  consume_quote (qu_id q) id now ;;
  on_sales (create_outbox cuid "ORDER_CREATED" "order" id ("order-created:" +:+ id)
    (JObj [("orderId", JStr id); ("customerId", JStr (cq_customerId c)); ("reservationExpiresAt", JStr (toISOString (no_reservationExpiresAt n)))])) ;;
  empty_cart (cart_id cart) ;;
  mret (id, n, rs).

(** The reads and checks before: the cart, the quote and the price. *)
Definition price_checkout (now : Z) (c : CheckoutCommand) : HM (Cart * list OrderLineSnapshot * ShippingQuote * PricingOutcome) :=
  loaded ← load_cart collate (cq_customerId c);
  match loaded with
  | None => mthrow cart_empty
  | Some (cart, rows) =>
      throw_if (bool_decide (length rows = 0%nat)) cart_empty ;;
      throw_if (existsb (fun r => negb (sellable_row (row_variant r) (row_product r))) rows) unsellable ;;
      q ← requireValidQuote hash (cq_shippingQuoteId c) now (cq_customerId c) cart (cq_address c);
      let lines := snapshot_line <$> rows in
      throw_if (negb (bool_decide (sumZ os_lineTotal lines = qu_subtotal q)) || negb (bool_decide (qu_pricePolicyRevision q = PRICE_POLICY_REVISION)))
        (quote_changed "Cart prices changed and must be reviewed.") ;;
      t ← gets own;
      let priced := method_price fold t now (cq_customerId c) cart rows (qu_amount q) in
      throw_if (negb (bool_decide (er_totalDiscount (po_result priced) = qu_promotionDiscount q)))
        (quote_changed "Promotions changed and the cart must be reviewed.") ;;
      mret (cart, lines, q, priced)
  end.

(** The transaction of [createForUser]. *)
Definition checkout_tx (now : Z) (c : CheckoutCommand) : HM CheckoutResponse :=
  let keyHash := hash (cq_idempotencyKey c) in
  on_own (modify (fun t => set_checkouts (delete_many (fun r => same_checkout (cq_customerId c) keyHash r && (kr_expiresAt r <=? now)%Z) (checkouts t)) t)) ;;
  prior ← gets (fun d => find_checkout (cq_customerId c) keyHash (own d));
  match prior with
  | Some prior =>
      throw_if (negb (bool_decide (kr_fingerprint prior = checkout_print c))) payload_conflict ;;
      unwrap (kr_response prior) (CheckoutContentionError "Checkout claim is incomplete.")
  | None =>
      claim ← create_checkout (cq_customerId c) keyHash (checkout_print c) (now + CHECKOUT_RECORD_TTL_MS);
      priced ← price_checkout now c;
      let '(cart, lines, q, outcome) := priced in
      placed ← place_order now c cart lines q outcome;
      let '(id, n, rs) := placed in
      let response := checkout_response c id n q outcome rs in
      complete_checkout claim id response ;;
      record (mkAuditEvent "order.checkout.created" "order" (Some id) None (Some (money_json n))
        (Some (JObj [("itemCount", JNum (Z.of_nat (length lines))); ("reservationCount", JNum (Z.of_nat (length rs)));
                     ("shippingMethod", JStr (qu_methodCode q))]))
        (Some (cq_userId c)) (Some (cq_requestId c))) ;;
      mret response
  end.

(** [createForUser(userId, input, idempotencyKey, requestId)] *)
Definition createForUser (nfkc upper : utext -> utext) (E : env Shop) (now : Z) (userId : string) (input : CheckoutAddress) (shippingQuoteId : string)
    (idempotencyKey requestId : string) (s : Shop) : result CheckoutResponse * Shop :=
  match normalizeCheckoutAddress nfkc upper input with
  | Err e => (Err e, s)
  | Ok address =>
      match customer_of_user userId (own s) with
      | None => (Err no_profile, s)
      | Some customer =>
          withSerializableRetry E (begin_shop (checkout_tx now (mkCheckoutCommand userId (cu_id customer) address shippingQuoteId idempotencyKey requestId)))
            is_checkout_contention checkout_conflict SERIALIZABLE_RETRIES s
      end
  end.
End checkout.
