(* ===== verification/StaffOrders.v ===== *)
(** Orders that staff enter for a customer:
    [src/apps/api/src/modules/orders/staff-order.service.ts].

    The lines come with the request instead of a cart; the service prices them from the
    catalog, reserves the stock as the checkout does, and records the command with its answer
    under the key of the request.  The order is picked up at the counter, so shipping is free,
    and its record is what lets it be sold on credit later.  A note is a list of code points,
    like an address.  Left out is the search for customers and variants ([options]). *)

From S2P Require Import Prelude Table Paging Json StableJson CheckoutAddress AuditTrail Retry InventoryModel Inventory.
From S2P Require Import IsoTime Durable StateMachine PromotionEngine PromotionClaims Credit CreditCommands CreditSales Sales Shop Checkout.

(** [STAFF_PICKUP_POLICY] *)
Definition PICKUP_CODE : string := "PICKUP".
Definition PICKUP_TITLE : string := "تحویل حضوری".
Definition PICKUP_AMOUNT : Z := 0.
Definition PICKUP_REVISION : string := "staff-pickup-v1".

Definition MAX_LINES : nat := 50.
Definition MAX_LINE_QUANTITY : Z := 1000.

Definition StaffOrderContentionError (message : string) : exn := JsError "StaffOrderContentionError" message.
Definition is_staff_contention (e : exn) : bool :=
  match e with JsError cls _ => bool_decide (cls = "StaffOrderContentionError") | _ => false end.
Definition staff_conflict : string := "Staff order changed concurrently; retry with the same idempotency key.".

(** * The request *)

Record StaffOrderLine := mkStaffLine { sl_variantId : string; sl_quantity : number }.
Record StaffOrderInput := mkStaffInput {
  si_customerId : option string;
  si_lines : list StaffOrderLine;
  si_address : CheckoutAddress;
  si_note : option utext
}.
(** What [validate] returns. *)
Record StaffPayload := mkPayload {
  sp_customerId : string;
  sp_lines : list (string * Z);
  sp_address : CheckoutAddress;
  sp_note : option utext
}.

Definition guest_order : exn := HttpException UnprocessableEntityException (Some "GUEST_ORDER_UNSUPPORTED")
  "Staff orders must reference an existing customer. Guest orders are not supported yet.".
Definition duplicate_line (variantId : string) : exn :=
  HttpException BadRequestException (Some "DUPLICATE_LINE") ("variantId " +:+ variantId +:+ " appears more than once.").
Definition line_quantity (variantId : string) : exn :=
  invalidRequest ("Quantity for " +:+ variantId +:+ " must be an integer between 1 and " +:+ pretty MAX_LINE_QUANTITY +:+ ".").

(** The loop over [input.lines]. *)
Fixpoint check_lines (seen : list string) (lines : list StaffOrderLine) : result (list (string * Z)) :=
  match lines with
  | [] => Ok []
  | line :: lines =>
      let v := sl_variantId line in
      if negb (truthy (trim v)) then Err (invalidRequest "Every line requires a variantId.")
      else if bool_decide (v ∈ seen) then Err (duplicate_line v)
      else
        match sl_quantity line with
        | Int q =>
            if ((q <? 1) || (MAX_LINE_QUANTITY <? q))%Z then Err (line_quantity v)
            else match check_lines (v :: seen) lines with Ok rest => Ok ((v, q) :: rest) | Err e => Err e end
        | NonInt => Err (line_quantity v)
        end
  end.

(** [s.slice(0, n)] of a text in UTF-16; a pair that is cut leaves its first half. *)
Fixpoint uslice (n : Z) (s : utext) : utext :=
  match s with
  | [] => []
  | c :: s =>
      if (n <=? 0)%Z then []
      else if (n <? code_units c)%Z then [(55296 + (c - 65536) / 1024)%N]
      else c :: uslice (n - code_units c) s
  end.
Definition note_of (note : option utext) : option utext :=
  match note with
  | Some n => if bool_decide (utrim n = []) then None else Some (uslice 500 (utrim n))
  | None => None
  end.

Section staff.
Context (cuid uuid : nat -> string) (hash : string -> string) (collate : string -> string -> Z) (nfkc upper : utext -> utext).

(** [validate(input)] *)
Definition validate (input : StaffOrderInput) : result StaffPayload :=
  match si_customerId input with
  | None => Err guest_order
  | Some customerId =>
      if negb (truthy (trim customerId)) then Err guest_order
      else if bool_decide (length (si_lines input) = 0%nat) then Err (invalidRequest "At least one order line is required.")
      else if (MAX_LINES <? length (si_lines input))%nat then
        Err (invalidRequest ("An order may contain at most " +:+ pretty MAX_LINES +:+ " lines."))
      else
        match check_lines [] (si_lines input) with
        | Err e => Err e
        | Ok lines =>
            match normalizeCheckoutAddress nfkc upper (si_address input) with
            | Err e => Err e
            | Ok address => Ok (mkPayload (trim customerId) lines address (note_of (si_note input)))
            end
        end
  end.

(** * The command *)

Record StaffCommand := mkStaffCommand {
  fc_actorId : string;
  fc_requestId : string;
  fc_idempotencyKey : string;
  fc_payload : StaffPayload
}.
Definition line_json (l : string * Z) : json := JObj [("variantId", JStr l.1); ("quantity", JNum l.2)].
Definition staff_print (c : StaffCommand) : string :=
  let p := fc_payload c in
  fingerprint_of hash [("customerId", JStr (sp_customerId p)); ("address", address_json (sp_address p)); ("lines", JArr (line_json <$> sp_lines p));
    ("note", jopt (utf8 <$> sp_note p))].

Definition same_staff_key (actorId keyHash : string) (r : StaffRecord) : bool :=
  bool_decide (sr_actorId r = actorId) && bool_decide (sr_keyHash r = keyHash).
Definition find_staff (actorId keyHash : string) (t : ShopTables) : option StaffRecord := find_by (same_staff_key actorId keyHash) (staff_records t).

(** ** Prices *)

Definition quote_line (t : ShopTables) (line : string * Z) : result OrderLineSnapshot :=
  let '(v, quantity) := line in
  match catalog t !! v with
  | None => Err (notFound "SKU_NOT_FOUND" ("Variant " +:+ v +:+ " does not exist."))
  | Some variant =>
      match products t !! va_productId variant with
      | None => Err inconsistent_query
      | Some product =>
          if negb (sellable_row variant product) then Err (conflictCode "SKU_NOT_SELLABLE" ("Variant " +:+ v +:+ " is no longer sellable."))
          else if (va_salePrice variant <? 0)%Z then
            Err (HttpException UnprocessableEntityException (Some "PRICE_UNAVAILABLE") ("Variant " +:+ v +:+ " has no valid sale price."))
          else Ok (mkSnapshot (va_id variant) (pr_name product) (va_title variant) (va_sku variant) quantity (va_salePrice variant)
                 (va_salePrice variant * quantity))
      end
  end.
(** [quoteLinesIn(tx, requested)] *)
Definition quoteLinesIn (requested : list (string * Z)) : HM (list OrderLineSnapshot) :=
  t ← gets own;
  map_each requested (fun line => fun s => match quote_line t line with Ok l => Ok (l, s) | Err e => Err e end).

(** ** The order *)

Definition staff_order (now : Z) (p : StaffPayload) (number : string) (lines : list OrderLineSnapshot) : NewOrder :=
  let subtotal := sumZ os_lineTotal lines in
  mkNewOrder number (sp_customerId p) 0 PICKUP_AMOUNT subtotal (address_json (sp_address p)) (now + RESERVATION_TTL_MS)
    (mkSheet subtotal PICKUP_CODE PICKUP_TITLE PICKUP_REVISION PRICE_POLICY_REVISION lines (utf8 <$> sp_note p)).

(** The key of a reservation, and the reasons of [reserveLines]. *)
Definition staff_reservation_key (keyHash variantId locationId : string) : string :=
  "staff-order:" +:+ hash (stringify_strings [keyHash; variantId; locationId]).
Definition staff_placement (now : Z) (keyHash orderId actorId requestId : string) : Placement :=
  mkPlacement orderId (now + RESERVATION_TTL_MS) (staff_reservation_key keyHash)
    (StaffOrderContentionError "Inventory balance changed concurrently.")
    (fun line => insufficientStock ("Insufficient available stock for " +:+ os_sku line +:+ "."))
    [("source", JStr "STAFF_ORDER")] actorId requestId.

(** [adminOrderSummary(row)]: the latest payment is the first by time. *)
Definition payment_order : Payment -> Payment -> Z := then_by (descending (ascending pt_createdAt)) (descending (by_text collate pt_id)).
Definition order_summary (id : string) (t : SalesTables) (sheets : gmap string OrderSheet) : option AdminOrderSummary :=
  o ← find_order id t;
  status ← order_state id t;
  sheet ← sheets !! id;
  let latest := head (find_sorted payment_order (fun p => bool_decide (pt_orderId p = id)) (payments t)) in
  Some (mkSummary (or_id o) (or_number o) status (p ← latest; payment_state (pt_id p) t) (Z.of_nat (length (or_payments o)))
    (f ← order_fulfillment id t; fulfillment_state (fu_id f) t) (Z.of_nat (length (or_items o)))
    (sheet_subtotal sheet) (or_discount o) (or_shipping o) (or_grandTotal o) (or_reservationExpiresAt o) (or_customerId o) (or_version o)).

Definition with_staff_record (id : string) (o : CreditOrder) : CreditOrder :=
  mkOrder (or_id o) (or_number o) (or_customerId o) (or_version o) (or_discount o) (or_shipping o) (or_grandTotal o)
    (or_reservationExpiresAt o) (or_items o) (or_payments o) (or_staffCommandRecords o ++ [id]) (or_shipment o)
    (or_addressSnapshot o) (or_doorOrder o).
Definition link_record (id orderId : string) (o : CreditOrder) (t : ShopTables) : ShopTables :=
  let c := credit (sales t) in
  set_sales (set_credit (set_orders (<[orderId := with_staff_record id o]> (orders c)) c) (sales t)) t.

(** [staffOrderCommandRecord.create], and that a race for the key is contention. *)
Definition create_staff_record (actorId keyHash payloadHash orderId : string) (response : StaffOrderResponse) : HM unit :=
  id ← on_inv (fresh_id cuid);
  t ← gets own;
  throw_if (bool_decide (is_Some (staff_records t !! id))) P2002 ;;
  throw_if (bool_decide (is_Some (find_staff actorId keyHash t)))
    (StaffOrderContentionError "Another staff order claimed this idempotency key.") ;;
  o ← unwrap (find_order orderId (sales t)) P2003;
  on_own (modify (fun t => set_staff_records (<[id := mkStaffRecord id actorId keyHash payloadHash (Some orderId) (Some response)]> (staff_records t))
    (link_record id orderId o t))).

Definition reservation_view (r : StockReservation) : ReservationView := mkReservationView (r_id r) (variantId (r_key r)) (r_quantity r) (r_expiresAt r).
Definition staff_money (n : NewOrder) : json :=
  JObj [("status", JStr "PENDING_PAYMENT"); ("subtotal", JStr (pretty (sheet_subtotal (no_sheet n)))); ("discount", JStr (pretty (no_discount n)));
        ("grandTotal", JStr (pretty (no_grandTotal n)))].

(** The customer and the priced lines. *)
Definition staff_lines (p : StaffPayload) : HM (list OrderLineSnapshot) :=
  customer ← gets (fun d => customers (credit (sales (own d))) !! sp_customerId p);
  customer ← unwrap customer (notFound "CUSTOMER_NOT_FOUND" "Customer does not exist.");
  throw_if (negb (bool_decide (cu_status customer = CUSTOMER_ACTIVE)))
    (conflictCode "CUSTOMER_INACTIVE" "Customer is inactive and cannot receive new orders.") ;;
  quoteLinesIn (sp_lines p).

(** The writes that make the order, up to its announcement. *)
Definition place_staff_order (now : Z) (c : StaffCommand) (lines : list OrderLineSnapshot) : HM (string * NewOrder * list StockReservation) :=
  random ← on_inv (fresh_id uuid);
  let n := staff_order now (fc_payload c) (orderNumber now random) lines in
  id ← create_order cuid n;
  _ ← on_sales (move_order cuid id DRAFT PENDING_PAYMENT (meta_of (Some (fc_actorId c)) (Some (fc_requestId c)) "STAFF_ORDER_CREATED"));
  rs ← on_inv (reserve_lines cuid collate (staff_placement now (hash (fc_idempotencyKey c)) id (fc_actorId c) (fc_requestId c)) lines);
  on_sales (create_outbox cuid "ORDER_CREATED" "order" id ("order-created:" +:+ id)
    (JObj [("orderId", JStr id); ("customerId", JStr (sp_customerId (fc_payload c))); ("source", JStr "STAFF");
           ("reservationExpiresAt", JStr (toISOString (no_reservationExpiresAt n)))])) ;;
  mret (id, n, rs).

(** The transaction of [create]. *)
Definition staff_tx (now : Z) (c : StaffCommand) : HM StaffOrderResponse :=
  let keyHash := hash (fc_idempotencyKey c) in
  prior ← gets (fun d => find_staff (fc_actorId c) keyHash (own d));
  match prior with
  | Some prior =>
      throw_if (negb (bool_decide (sr_payloadHash prior = staff_print c))) payload_conflict ;;
      match sr_response prior, sr_orderId prior with
      | Some stored, Some orderId =>
          if truthy orderId then mret (mkStaffOrder (st_order stored) true (st_reservations stored))
          else mthrow (StaffOrderContentionError "Staff order claim is incomplete.")
      | _, _ => mthrow (StaffOrderContentionError "Staff order claim is incomplete.")
      end
  | None =>
      lines ← staff_lines (fc_payload c);
      made ← place_staff_order now c lines;
      let '(id, n, rs) := made in
      summary ← gets (fun d => order_summary id (sales (own d)) (order_sheets (own d)));
      summary ← unwrap summary P2025;
      let response := mkStaffOrder summary false (reservation_view <$> rs) in
      create_staff_record (fc_actorId c) keyHash (staff_print c) id response ;;
      record (mkAuditEvent "order.staff.created" "order" (Some id) None (Some (staff_money n))
        (Some (JObj [("itemCount", JNum (Z.of_nat (length lines))); ("reservationCount", JNum (Z.of_nat (length rs)));
                     ("totalQuantity", JNum (sumZ os_quantity lines))]))
        (Some (fc_actorId c)) (Some (fc_requestId c))) ;;
      mret response
  end.

(** [create(input)] *)
Definition create (E : env Shop) (now : Z) (actorId requestId idempotencyKey : string) (input : StaffOrderInput) (s : Shop)
    : result StaffOrderResponse * Shop :=
  match validate input with
  | Err e => (Err e, s)
  | Ok payload =>
      withSerializableRetry E (begin_shop (staff_tx now (mkStaffCommand actorId requestId idempotencyKey payload)))
        is_staff_contention staff_conflict SERIALIZABLE_RETRIES s
  end.
End staff.
