(* ===== verification/OrderCommands.v ===== *)
(** Cancellation and expiry of unpaid orders:
    [src/apps/api/src/modules/orders/order-command.service.ts].  Both move the order from
    PENDING_PAYMENT to CANCELLED, give back its stock and its promotion capacity and leave
    an event in the outbox; a cancellation is recorded under its key for a day. *)

From S2P Require Import Prelude Table Paging Json StableJson AuditTrail Retry InventoryModel Inventory.
From S2P Require Import IsoTime Durable StateMachine PromotionEngine PromotionClaims Credit CreditCommands CreditSales Sales.

Definition CUSTOMER_CANCEL_SCOPE : string := "order.cancel:customer".
Definition STAFF_CANCEL_SCOPE : string := "order.cancel:staff".
Definition ORDER_CANCEL_RECORD_TTL_MS : Z := 24 * 60 * 60 * 1000.
Definition ORDER_EXPIRY_BATCH : Z := 100.
(** [RELEASE_REASON] *)
Inductive ReleaseReason := by_customer | by_staff | by_expiry.
Definition RELEASE_REASON (r : ReleaseReason) : string :=
  match r with by_customer => "CUSTOMER_CANCELLED" | by_staff => "STAFF_CANCELLED" | by_expiry => "RESERVATION_EXPIRED" end.

Record CancelCommand := mkCancel {
  cc_orderId : string;
  cc_scope : string;
  cc_ownerCustomerId : option string;
  cc_actorId : string;
  cc_requestId : string;
  cc_idempotencyKey : string;
  cc_fingerprint : string;
  cc_reason : string
}.
(** [OrderCommandContext | OrderExpirySystemContext]: the worker has no actor. *)
Record ExpiryContext := mkExpiryContext { xc_actorId : option string; xc_requestId : string }.

(** * Errors *)

Definition order_not_found : exn := notFound "ORDER_NOT_FOUND" "Order not found.".
Definition order_state_conflict (message : string) : exn := conflictCode ORDER_STATE_CONFLICT_ERROR message.
Definition OrderCommandContentionError (orderId : string) : exn :=
  JsError "OrderCommandContentionError" ("Order command for " +:+ orderId +:+ " is still running.").
Definition is_contention (e : exn) : bool :=
  match e with JsError cls _ => bool_decide (cls = "OrderCommandContentionError") | _ => false end.
Definition order_contention_message : string := "Order changed concurrently; retry with the same idempotency key.".
Definition isOrderStateConflict (e : exn) : bool :=
  match e with HttpException ConflictException (Some code) _ => bool_decide (code = ORDER_STATE_CONFLICT_ERROR) | _ => false end.
(** [assertTracked(context)] *)
Definition assertTrackedOrder (actorId requestId : string) : result unit :=
  if negb (truthy actorId) || negb (truthy requestId)
  then Err (conflictCode "CONFLICT" "A tracked actor and request context are required.") else Ok tt.

(** [requestIdForOrder(baseRequestId, orderId)] *)
Definition requestIdForOrder (baseRequestId orderId : string) : string := String.substring 0 128 (baseRequestId +:+ ":" +:+ orderId).

(** [/^[A-Za-z0-9_-]{1,128}$/] *)
Definition bounded_order_id (s : string) : bool :=
  let cs := String.list_ascii_of_string s in
  forallb key_char cs && (1 <=? length cs)%nat && (length cs <=? 128)%nat.

Section order_commands.
Context (cuid : nat -> string) (hash : string -> string).

(** [orderCommandIdempotencyRecord.update({ where: { id }, data: { responseJson } })] *)
Definition store_response (id : string) (response : OrderResponse) : SM unit :=
  row ← gets (fun d => commands (own d) !! id);
  r ← unwrap row P2025;
  on_own (modify (fun t => set_commands (<[id := mkOrderCommand (oc_id r) (oc_orderId r) (oc_scope r) (oc_keyHash r) (oc_fingerprint r)
    (Some response) (oc_expiresAt r)]> (commands t)) t)).

(** The transaction of [cancel] at the time [now]. *)
Definition cancel_tx (now : Z) (c : CancelCommand) : SM OrderResponse :=
  let orderId := cc_orderId c in
  acquireOrderLock orderId ;;
  let keyHash := hash (cc_idempotencyKey c) in
  on_own (modify (fun t => set_commands
    (delete_many (fun r => same_key orderId (cc_scope c) keyHash r && (oc_expiresAt r <=? now)%Z) (commands t)) t)) ;;
  prior ← gets (fun d => find_command orderId (cc_scope c) keyHash (own d));
  match prior with
  | Some prior => replay_command prior (cc_fingerprint c) (OrderCommandContentionError orderId)
  | None =>
      claim ← create_command cuid orderId (cc_scope c) keyHash (cc_fingerprint c) None (now + ORDER_CANCEL_RECORD_TTL_MS);
      row ← gets (fun d => find_order orderId (own d));
      order ← unwrap row order_not_found;
      throw_if (match cc_ownerCustomerId c with Some owner => truthy owner && negb (bool_decide (or_customerId order = owner)) | None => false end)
        order_not_found ;;
      throw_if (bool_decide (is_Some (or_doorOrder order))) (order_state_conflict "Use the custom door order cancellation workflow.") ;;
      status ← gets (fun d => order_state orderId (own d));
      throw_if (negb (bool_decide (status = Some PENDING_PAYMENT))) (order_state_conflict "Order is no longer pending payment.") ;;
      transition ← move_order cuid orderId PENDING_PAYMENT CANCELLED
        (meta_of (Some (cc_actorId c)) (Some (cc_requestId c)) (cc_reason c));
      releasedReservations ← on_inv (releaseReservationsForOrder orderId (mkActor (Some (cc_actorId c)) (Some (cc_requestId c))));
      _ ← on_promo (releaseForOrder orderId (cc_reason c) now);
      let result := Cancelled (mkCommandResult orderId (or_number order) CANCELLED releasedReservations now) in
      create_outbox cuid "ORDER_CANCELLED" "order" orderId ("order-cancelled:" +:+ orderId)
        (JObj [("orderId", JStr orderId); ("customerId", JStr (or_customerId order)); ("reason", JStr (cc_reason c));
               ("releasedReservations", JNum releasedReservations); ("cancelledAt", JStr (toISOString now))]) ;;
      record (mkAuditEvent "order.cancelled" "order" (Some orderId) (Some (JObj [("status", JStr "PENDING_PAYMENT")]))
        (Some (JObj [("status", JStr "CANCELLED"); ("releasedReservations", JNum releasedReservations)]))
        (Some (JObj [("reason", JStr (cc_reason c)); ("transitionId", JStr (tr_id transition))]))
        (Some (cc_actorId c)) (Some (cc_requestId c))) ;;
      store_response claim result ;;
      mret result
  end.

(** [cancel(command)] *)
Definition cancel (E : env Sales) (now : Z) (c : CancelCommand) (s : Sales) : result OrderResponse * Sales :=
  withSerializableRetry E (begin_sale (cancel_tx now c)) is_contention order_contention_message SERIALIZABLE_RETRIES s.

Definition cancel_command (orderId scope : string) (owner : option string) (userId requestId key : string) (r : ReleaseReason)
    : CancelCommand :=
  mkCancel orderId scope owner userId requestId key
    (fingerprint_of hash [("actorId", JStr userId); ("reason", JStr (RELEASE_REASON r))]) (RELEASE_REASON r).

(** [cancelAsCustomer(userId, orderId, input)] *)
Definition no_customer : exn := conflictCode "CONFLICT" "Customer profile is not linked to the authenticated user.".
Definition cancelAsCustomer (E : env Sales) (now : Z) (userId orderId key requestId : string) (s : Sales)
    : result OrderResponse * Sales :=
  match assertTrackedOrder userId requestId with
  | Err e => (Err e, s)
  | Ok _ =>
      match find_by (fun c => bool_decide (cu_userId c = Some userId)) (customers (credit (own s))) with
      | None => (Err no_customer, s)
      | Some customer =>
          cancel E now (cancel_command orderId CUSTOMER_CANCEL_SCOPE (Some (cu_id customer)) userId requestId key by_customer) s
      end
  end.
(** [cancelAsStaff(userId, orderId, input)] *)
Definition cancelAsStaff (E : env Sales) (now : Z) (userId orderId key requestId : string) (s : Sales)
    : result OrderResponse * Sales :=
  match assertTrackedOrder userId requestId with
  | Err e => (Err e, s)
  | Ok _ => cancel E now (cancel_command orderId STAFF_CANCEL_SCOPE None userId requestId key by_staff) s
  end.

(** * Expiry *)

(** What the transaction of [expireOrder] rereads. *)
Definition still_due (now : Z) (orderId : string) (order : CreditOrder) (t : SalesTables) : bool :=
  bool_decide (order_state orderId t = Some PENDING_PAYMENT) && negb (bool_decide (is_Some (or_doorOrder order))) &&
  (or_reservationExpiresAt order <=? now)%Z && bool_decide (or_payments order = []).

(** The transaction of [expireOrder] *)
Definition expireOrder_tx (now : Z) (orderId : string) (context : ExpiryContext) : SM bool :=
  acquireOrderLock orderId ;;
  t ← gets own;
  match find_order orderId t with
  | None => mret false
  | Some order =>
      if negb (still_due now orderId order t) then mret false
      else
        let requestId := requestIdForOrder (xc_requestId context) orderId in
        let reason := RELEASE_REASON by_expiry in
        transition ← move_order cuid orderId PENDING_PAYMENT CANCELLED (meta_of (xc_actorId context) (Some requestId) reason);
        releasedReservations ← on_inv (match xc_actorId context with
          | None => releaseReservationsForOrderFromExpiry orderId requestId
          | Some _ => releaseReservationsForOrder orderId (mkActor (xc_actorId context) (Some (xc_requestId context)))
          end);
        _ ← on_promo (releaseForOrder orderId reason now);
        create_outbox cuid "ORDER_EXPIRED" "order" orderId ("order-expired:" +:+ orderId)
          (JObj [("orderId", JStr orderId); ("customerId", JStr (or_customerId order)); ("reason", JStr reason);
                 ("releasedReservations", JNum releasedReservations); ("expiredAt", JStr (toISOString now))]) ;;
        record (mkAuditEvent "order.expired" "order" (Some orderId) (Some (JObj [("status", JStr "PENDING_PAYMENT")]))
          (Some (JObj [("status", JStr "CANCELLED"); ("releasedReservations", JNum releasedReservations)]))
          (Some (JObj ([("reason", JStr reason); ("transitionId", JStr (tr_id transition))] ++
            match xc_actorId context with None => [("systemActor", JStr SYSTEM_ACTOR)] | Some _ => [] end)))
          (xc_actorId context) (Some requestId)) ;;
        mret true
  end.
(** [expireOrder(orderId, context, now)] *)
Definition expireOrder (E : env Sales) (now : Z) (orderId : string) (context : ExpiryContext) (s : Sales) : result bool * Sales :=
  withSerializableRetry E (begin_sale (expireOrder_tx now orderId context)) is_contention order_contention_message SERIALIZABLE_RETRIES s.

(** [expireBatch(context, options)]: the candidates, then one transaction for each; [Es]
    gives the other clients during each. *)
Context (collate : string -> string -> Z).
Definition due_order (now : Z) (t : SalesTables) (o : CreditOrder) : bool :=
  bool_decide (order_state (or_id o) t = Some PENDING_PAYMENT) && negb (bool_decide (is_Some (or_doorOrder o))) &&
  (or_reservationExpiresAt o <=? now)%Z && bool_decide (or_payments o = []).
Definition expiry_order : CreditOrder -> CreditOrder -> Z := then_by (ascending or_reservationExpiresAt) (by_text collate or_id).
Definition order_candidates (now batchSize : Z) (t : SalesTables) : list string :=
  or_id <$> take (Z.to_nat batchSize) (find_sorted expiry_order (due_order now t) (orders (credit t))).
Fixpoint expire_each (Es : string -> env Sales) (now : Z) (context : ExpiryContext) (ids : list string) (expired : Z) (s : Sales)
    : result Z * Sales :=
  match ids with
  | [] => (Ok expired, s)
  | id :: ids =>
      match expireOrder (Es id) now id context s with
      | (Ok transitioned, s') => expire_each Es now context ids (if transitioned then (expired + 1)%Z else expired) s'
      | (Err e, s') => if isOrderStateConflict e then expire_each Es now context ids expired s' else (Err e, s')
      end
  end.
Definition expireBatch (Es : string -> env Sales) (now : Z) (batch : option number) (context : ExpiryContext) (s : Sales)
    : result Z * Sales :=
  let batchSize := clampInt batch 1 ORDER_EXPIRY_BATCH ORDER_EXPIRY_BATCH in
  expire_each Es now context (order_candidates now batchSize (own s)) 0 s.

(** [expirePendingPaymentOrders(context, options)] *)
Definition expirePendingPaymentOrders (Es : string -> env Sales) (now : Z) (batch : option number) (actorId requestId : string) (s : Sales)
    : result Z * Sales :=
  match assertTrackedOrder actorId requestId with
  | Err e => (Err e, s)
  | Ok _ => expireBatch Es now batch (mkExpiryContext (Some actorId) requestId) s
  end.
(** [orderExpirySystemContext(requestId)], as a context of this service. *)
Definition system_context (requestId : string) : result ExpiryContext :=
  _ ← orderExpirySystemContext requestId; Ok (mkExpiryContext None requestId).
(** [expireAbandonedOrdersAsSystem(requestId, options)] *)
Definition expireAbandonedOrdersAsSystem (Es : string -> env Sales) (now : Z) (batch : option number) (requestId : string) (s : Sales)
    : result Z * Sales :=
  match system_context requestId with Err e => (Err e, s) | Ok context => expireBatch Es now batch context s end.
(** [expireAbandonedOrderAsSystem(orderId, requestId)] *)
Definition expireAbandonedOrderAsSystem (E : env Sales) (now : Z) (orderId requestId : string) (s : Sales) : result bool * Sales :=
  match system_context requestId with
  | Err e => (Err e, s)
  | Ok context =>
      if negb (bounded_order_id orderId) then (Err (badRequest "A bounded order ID is required for order expiry."), s)
      else expireOrder E now orderId context s
  end.
End order_commands.
