(* ===== verification/Fulfilling.v ===== *)
(** From a paid order to its delivery: the start and readiness of a fulfillment
    ([src/apps/api/src/modules/orders/fulfillment-command.service.ts]), the pick proof of
    every line ([fulfillment-pick.service.ts]), the dispatch of the shipment
    ([shipment-dispatch.service.ts]) and the confirmation of its delivery
    ([shipment-delivery.service.ts]), each a staff command recorded under its key.

    The items of an order are listed in the order of their ordinals; their titles and the
    columns [updatedAt] are left out. *)

From S2P Require Import Prelude Table Json StableJson AuditTrail Retry InventoryModel Inventory.
From S2P Require Import Durable StateMachine PromotionEngine PromotionClaims Credit CreditCommands CreditSales Sales OrderCommands.

(** * Data *)

(** [type Command] *)
Inductive FulfillmentCommand := start | ready.
(** [transitions] *)
Definition from_of (c : FulfillmentCommand) : FulfillmentStatus := match c with start => FUL_PENDING | ready => FUL_PROCESSING end.
Definition to_of (c : FulfillmentCommand) : FulfillmentStatus := match c with start => FUL_PROCESSING | ready => FUL_READY_TO_SHIP end.
Definition command_str (c : FulfillmentCommand) : string := match c with start => "start" | ready => "ready" end.
Definition command_upper (c : FulfillmentCommand) : string := match c with start => "START" | ready => "READY" end.

(** * Errors *)

Definition fulfillment_conflict (message : string) : exn := conflictCode "FULFILLMENT_STATE_CONFLICT" message.
Definition missingFulfillment : exn := notFound "ORDER_NOT_FOUND" "Order fulfillment not found.".
Definition item_not_found : exn := notFound "ORDER_ITEM_NOT_FOUND" "Order item not found.".
Definition shipmentConflict (message : string) : exn := conflictCode "SHIPMENT_STATE_CONFLICT" message.

(** [STAFF_DELIVERY_PROOF_PREFIX] and [staffDeliveryProofReference(reason)] *)
Definition STAFF_DELIVERY_PROOF_PREFIX : string := "STAFF_DELIVERY_PROOF:".
Definition staffDeliveryProofReference (reason : option string) : option string :=
  match reason with
  | Some r =>
      if String.prefix STAFF_DELIVERY_PROOF_PREFIX r then
        let reference := trim (String.substring (String.length STAFF_DELIVERY_PROOF_PREFIX) (String.length r) r) in
        if truthy reference then Some reference else None
      else None
  | None => None
  end.

(** The proof of money that the staff commands ask for. *)
Definition authorized (orderId : string) (order : CreditOrder) (t : SalesTables) : bool :=
  hasFulfillmentFinancialProof orderId (order_state orderId t) (settled_payments order t) (credit t).

(** The pick of an item, if there is one. *)
Definition pick_of (itemId : string) (t : SalesTables) : option FulfillmentPick :=
  find_by (fun p => bool_decide (fp_orderItemId p = itemId)) (picks t).
(** [item.fulfillmentPick?.quantity !== item.quantity] *)
Definition unpicked (t : SalesTables) (i : OrderLine) : bool := negb (bool_decide (fp_quantity <$> pick_of (ol_id i) t = Some (ol_quantity i))).

Section fulfillment.
Context (cuid : nat -> string) (hash : string -> string).

(** * Start and readiness *)

Definition command_scope (c : FulfillmentCommand) : string := "fulfillment." +:+ command_str c +:+ ":staff".
Definition picked_count (fulfillmentId : string) (t : SalesTables) : Z :=
  count_rows (fun p => bool_decide (fp_fulfillmentId p = fulfillmentId)) (picks t).

(** The guard of each command on stock and picks. *)
Definition command_guard (orderId : string) (command : FulfillmentCommand) (order : CreditOrder) (f : Fulfillment) : SM unit :=
  match command with
  | start =>
      db ← gets inv_of;
      throw_if (negb (consumed_all orderId db)) (fulfillment_conflict "Financially authorized order inventory has not been consumed.")
  | ready =>
      t ← gets own;
      let items := Z.of_nat (length (or_items order)) in
      throw_if (bool_decide (items = 0%Z) || negb (bool_decide (picked_count (fu_id f) t = items)))
        (fulfillment_conflict "Every order item needs recorded pick proof before ready-to-ship.")
  end.

(** The transaction of [execute(orderId, command, context)] at the time [now]. *)
Definition execute_tx (now : Z) (orderId : string) (command : FulfillmentCommand) (ctx : OrderContext) : SM OrderResponse :=
  let keyHash := hash (ox_idempotencyKey ctx) in
  let fingerprint := fingerprint_of hash [("actorId", JStr (ox_actorId ctx)); ("command", JStr (command_str command))] in
  acquireOrderLock orderId ;;
  t ← gets own;
  order ← unwrap (find_order orderId t) order_not_found;
  prior ← gets (fun d => find_command orderId (command_scope command) keyHash (own d));
  match prior with
  | Some prior => replay_command prior fingerprint (conflictCode "CONFLICT" "Fulfillment command is still running.")
  | None =>
      let unready := fulfillment_conflict "Fulfillment is not in the required financially authorized order state." in
      throw_if (negb (authorized orderId order t) || negb (fulfillment_in orderId t (from_of command))) unready ;;
      f ← unwrap (order_fulfillment orderId t) unready;
      command_guard orderId command order f ;;
      state ← move_fulfillment cuid (fu_id f) (from_of command) (to_of command)
        (meta_of (Some (ox_actorId ctx)) (Some (ox_requestId ctx)) ("STAFF_" +:+ command_upper command));
      row ← gets (fun d => fulfillments (credit (own d)) !! fu_id f);
      updated ← unwrap row P2025;
      let result := Advanced (fu_id updated) orderId (to_of command) in
      record (mkAuditEvent ("fulfillment." +:+ command_str command) "fulfillment" (Some (fu_id updated))
        (Some (JObj [("status", JStr (fulfillment_status_str (from_of command)))]))
        (Some (JObj [("status", JStr (fulfillment_status_str (to_of command)))]))
        (Some (JObj [("orderId", JStr orderId); ("transitionId", JStr (tr_id state))]))
        (Some (ox_actorId ctx)) (Some (ox_requestId ctx))) ;;
      storeShipmentCommandReplay cuid now orderId (command_scope command) keyHash fingerprint result ;;
      mret result
  end.

(** [execute(orderId, command, context)] *)
Definition never (_ : exn) : bool := false.
Definition execute (E : env Sales) (now : Z) (orderId : string) (command : FulfillmentCommand) (ctx : OrderContext) (s : Sales)
    : result OrderResponse * Sales :=
  if negb (truthy (ox_actorId ctx)) || negb (truthy (ox_requestId ctx))
  then (Err (conflictCode "CONFLICT" "A tracked actor and request are required."), s)
  else withSerializableRetry E (begin_sale (execute_tx now orderId command ctx)) never
         "Fulfillment changed concurrently; retry with the same idempotency key." SERIALIZABLE_RETRIES s.

(** * Picks *)

Definition PICK_SCOPE : string := "fulfillment.pick:staff".

(** [proof(row)] *)
Definition proof (p : FulfillmentPick) : FulfillmentPickProof :=
  mkProof (fp_id p) (fp_orderItemId p) (fp_quantity p) (fp_actorId p) (fp_requestId p) (fp_createdAt p).

(** [fulfillmentPick.create], with its check and its unique indexes. *)
Definition pick_collides (p p' : FulfillmentPick) : bool :=
  bool_decide (fp_orderItemId p = fp_orderItemId p') ||
  (bool_decide (fp_fulfillmentId p = fp_fulfillmentId p') && bool_decide (fp_requestId p = fp_requestId p')).
Definition create_pick (fulfillmentId itemId : string) (quantity : Z) (ctx : OrderContext) : SM FulfillmentPick :=
  throw_if (negb (int4 quantity)) P2020 ;;
  id ← on_inv (fresh_id cuid);
  now ← gets (fun d => clock (inv_of d));
  let p := mkPick id fulfillmentId itemId quantity (Some (ox_actorId ctx)) (ox_requestId ctx) now in
  throw_if (quantity <=? 0)%Z check_violation ;;
  taken ← gets (fun d => picks (own d) !! id);
  dup ← gets (fun d => find_by (pick_collides p) (picks (own d)));
  throw_if (bool_decide (is_Some taken) || bool_decide (is_Some dup)) P2002 ;;
  on_own (modify (fun t => set_picks (<[id := p]> (picks t)) t)) ;;
  mret p.

(** The transaction of [record(orderId, itemId, quantity, context)]. *)
Definition pick_tx (now : Z) (orderId itemId : string) (quantity : number) (ctx : OrderContext) : SM OrderResponse :=
  let keyHash := hash (ox_idempotencyKey ctx) in
  let fingerprint := fingerprint_of hash [("actorId", JStr (ox_actorId ctx)); ("itemId", JStr itemId); ("quantity", jnumber quantity)] in
  acquireOrderLock orderId ;;
  t ← gets own;
  order ← unwrap (find_order orderId t) missingFulfillment;
  prior ← gets (fun d => find_command orderId PICK_SCOPE keyHash (own d));
  match prior with
  | Some prior => replay_command prior fingerprint (conflictCode "CONFLICT" "Pick command is still running.")
  | None =>
      item ← unwrap (find_item itemId order) item_not_found;
      let unready := fulfillment_conflict "Financially authorized order must be processing before pick proof." in
      throw_if (negb (authorized orderId order t) || negb (fulfillment_in orderId t FUL_PROCESSING)) unready ;;
      f ← unwrap (order_fulfillment orderId t) unready;
      throw_if (negb (bool_decide (quantity = Int (ol_quantity item))))
        (fulfillment_conflict "Pick quantity must equal the ordered line quantity.") ;;
      db ← gets inv_of;
      throw_if (negb (consumed_all orderId db)) (fulfillment_conflict "Financially authorized order inventory has not been consumed.") ;;
      throw_if (bool_decide (is_Some (pick_of itemId t))) (fulfillment_conflict "This order item has already been picked.") ;;
      created ← create_pick (fu_id f) itemId (ol_quantity item) ctx;
      let result := Picked (proof created) in
      record (mkAuditEvent "fulfillment.item.picked" "fulfillment" (Some (fu_id f)) None
        (Some (JObj [("orderItemId", JStr itemId); ("quantity", jnumber quantity)]))
        (Some (JObj [("orderId", JStr orderId); ("pickId", JStr (fp_id created))]))
        (Some (ox_actorId ctx)) (Some (ox_requestId ctx))) ;;
      storeShipmentCommandReplay cuid now orderId PICK_SCOPE keyHash fingerprint result ;;
      mret result
  end.

(** [record(orderId, itemId, quantity, context)] *)
Definition record_pick (E : env Sales) (now : Z) (orderId itemId : string) (quantity : number) (ctx : OrderContext) (s : Sales)
    : result OrderResponse * Sales :=
  withSerializableRetry E (begin_sale (pick_tx now orderId itemId quantity ctx)) never
    "Pick proof changed concurrently; retry with the same idempotency key." SERIALIZABLE_RETRIES s.

(** [list(orderId)]: the fulfillment, its status and every line with its proof. *)
Definition pick_list (orderId : string) (t : SalesTables)
    : result (string * option FulfillmentStatus * list (string * Z * option FulfillmentPickProof)) :=
  match find_order orderId t, order_fulfillment orderId t with
  | Some order, Some f =>
      Ok (fu_id f, fulfillment_state (fu_id f) t, (fun i => (ol_id i, ol_quantity i, proof <$> pick_of (ol_id i) t)) <$> or_items order)
  | _, _ => Err missingFulfillment
  end.

(** * Dispatch *)

Definition DISPATCH_SCOPE : string := "shipment.dispatch:staff".

Definition with_shipment (id : string) (o : CreditOrder) : CreditOrder :=
  mkOrder (or_id o) (or_number o) (or_customerId o) (or_version o) (or_discount o) (or_shipping o) (or_grandTotal o)
    (or_reservationExpiresAt o) (or_items o) (or_payments o) (or_staffCommandRecords o) (Some id)
    (or_addressSnapshot o) (or_doorOrder o).

(** The nested [lines: { create }]. *)
Definition line_taken (itemId : string) (t : SalesTables) : bool :=
  bool_decide (is_Some (find_by (fun s => existsb (fun l => bool_decide (sl_orderItemId l = itemId)) (sh_lines s)) (shipments t))).
Definition create_shipment_line (i : OrderLine) : SM ShipmentLine :=
  id ← on_inv (fresh_id cuid);
  throw_if (ol_quantity i <=? 0)%Z check_violation ;;
  taken ← gets (fun d => line_taken (ol_id i) (own d));
  throw_if taken P2002 ;;
  mret (mkShipmentLine id (ol_id i) (ol_quantity i)).

(** [shipment.create], with its unique indexes and the relation of the order. *)
Definition shipment_collides (s s' : Shipment) : bool :=
  bool_decide (sh_orderId s = sh_orderId s') || bool_decide (sh_fulfillmentId s = sh_fulfillmentId s') ||
  (bool_decide (sh_carrier s = sh_carrier s') && bool_decide (sh_trackingCode s = sh_trackingCode s')).
Definition create_shipment (order : CreditOrder) (orderId fulfillmentId carrier trackingCode : string) (address : json) (ctx : OrderContext)
    : SM Shipment :=
  id ← on_inv (fresh_id cuid);
  now ← gets (fun d => clock (inv_of d));
  lines ← map_each (or_items order) create_shipment_line;
  throw_if (negb (bool_decide (NoDup (sl_orderItemId <$> lines)))) P2002 ;;
  let s := mkShipment id orderId fulfillmentId carrier trackingCode address (Some (ox_actorId ctx)) (ox_requestId ctx) now lines in
  taken ← gets (fun d => shipments (own d) !! id);
  dup ← gets (fun d => find_by (shipment_collides s) (shipments (own d)));
  throw_if (bool_decide (is_Some taken) || bool_decide (is_Some dup)) P2002 ;;
  on_own (modify (fun t => set_shipments (<[id := s]> (shipments t)) t)) ;;
  on_credit (on_own (modify (fun t => set_orders (<[orderId := with_shipment id order]> (orders t)) t))) ;;
  mret s.

(** The transaction of [dispatch(orderId, body, context)]. *)
Definition dispatch_tx (now : Z) (orderId carrier0 trackingCode0 : string) (ctx : OrderContext) : SM OrderResponse :=
  let carrier := trim carrier0 in let trackingCode := trim trackingCode0 in
  let keyHash := hash (ox_idempotencyKey ctx) in
  let fingerprint := fingerprint_of hash [("actorId", JStr (ox_actorId ctx)); ("carrier", JStr carrier); ("trackingCode", JStr trackingCode)] in
  acquireOrderLock orderId ;;
  t ← gets own;
  order ← unwrap (find_order orderId t) order_not_found;
  prior ← gets (fun d => find_command orderId DISPATCH_SCOPE keyHash (own d));
  match prior with
  | Some prior => replay_command prior fingerprint (shipmentConflict "Shipment dispatch is still running.")
  | None =>
      let unready := shipmentConflict "Only a financially authorized, ready-to-ship order without a shipment can be dispatched." in
      throw_if (negb (authorized orderId order t) || negb (fulfillment_in orderId t FUL_READY_TO_SHIP) || bool_decide (is_Some (or_shipment order)))
        unready ;;
      f ← unwrap (order_fulfillment orderId t) unready;
      throw_if (bool_decide (or_items order = []) || existsb (unpicked t) (or_items order))
        (shipmentConflict "Every order line must have exact pick proof.") ;;
      address ← unwrap (or_addressSnapshot order) (shipmentConflict "A delivery address snapshot is required.");
      db ← gets inv_of;
      throw_if (negb (consumed_all orderId db)) (shipmentConflict "Financially authorized order inventory has not been consumed.") ;;
      shipment ← create_shipment order orderId (fu_id f) carrier trackingCode address ctx;
      transition ← move_fulfillment cuid (fu_id f) FUL_READY_TO_SHIP FUL_SHIPPED
        (meta_of (Some (ox_actorId ctx)) (Some (ox_requestId ctx)) "STAFF_MANUAL_DISPATCH");
      let result := Dispatched (sh_id shipment) carrier trackingCode (sh_dispatchedAt shipment) in
      record (mkAuditEvent "shipment.dispatch" "shipment" (Some (sh_id shipment)) None
        (Some (JObj [("carrier", JStr carrier); ("trackingCode", JStr trackingCode); ("status", JStr "SHIPPED")]))
        (Some (JObj [("orderId", JStr orderId); ("transitionId", JStr (tr_id transition)); ("lineCount", JNum (Z.of_nat (length (or_items order))))]))
        (Some (ox_actorId ctx)) (Some (ox_requestId ctx))) ;;
      create_outbox cuid "SHIPMENT_DISPATCHED" "order" orderId ("shipment:" +:+ sh_id shipment +:+ ":dispatched")
        (JObj [("shipmentId", JStr (sh_id shipment))]) ;;
      storeShipmentCommandReplay cuid now orderId DISPATCH_SCOPE keyHash fingerprint result ;;
      mret result
  end.
(** [dispatch(orderId, body, context)] *)
Definition dispatch (E : env Sales) (now : Z) (orderId carrier trackingCode : string) (ctx : OrderContext) (s : Sales)
    : result OrderResponse * Sales :=
  withSerializableRetry E (begin_sale (dispatch_tx now orderId carrier trackingCode ctx)) never
    "Shipment changed concurrently; retry with the same idempotency key." SERIALIZABLE_RETRIES s.

(** * Delivery *)

Definition DELIVERY_SCOPE : string := "shipment.delivery:staff".

(** The transaction of [confirm(orderId, body, context)]; the transition row carries the
    clock of its transaction. *)
Definition deliver_tx (now : Z) (orderId proofReference : string) (ctx : OrderContext) : SM OrderResponse :=
  let keyHash := hash (ox_idempotencyKey ctx) in
  let fingerprint := fingerprint_of hash [("actorId", JStr (ox_actorId ctx)); ("proofReference", JStr proofReference)] in
  acquireOrderLock orderId ;;
  t ← gets own;
  order ← unwrap (find_order orderId t) order_not_found;
  prior ← gets (fun d => find_command orderId DELIVERY_SCOPE keyHash (own d));
  match prior with
  | Some prior => replay_command prior fingerprint (shipmentConflict "Delivery confirmation is still running.")
  | None =>
      let undispatched := shipmentConflict "Only a dispatched shipment can be confirmed delivered." in
      throw_if (negb (bool_decide (is_Some (or_shipment order))) || negb (fulfillment_in orderId t FUL_SHIPPED)) undispatched ;;
      shipmentId ← unwrap (or_shipment order) undispatched;
      f ← unwrap (order_fulfillment orderId t) undispatched;
      transition ← move_fulfillment cuid (fu_id f) FUL_SHIPPED FUL_DELIVERED
        (meta_of (Some (ox_actorId ctx)) (Some (ox_requestId ctx)) (STAFF_DELIVERY_PROOF_PREFIX +:+ proofReference));
      confirmedAt ← gets (fun d => clock (inv_of d));
      let result := Delivered shipmentId orderId proofReference confirmedAt in
      record (mkAuditEvent "shipment.delivery.confirm" "shipment" (Some shipmentId)
        (Some (JObj [("status", JStr "SHIPPED")]))
        (Some (JObj [("status", JStr "DELIVERED"); ("proofReference", JStr proofReference)]))
        (Some (JObj [("orderId", JStr orderId); ("transitionId", JStr (tr_id transition))]))
        (Some (ox_actorId ctx)) (Some (ox_requestId ctx))) ;;
      create_outbox cuid "SHIPMENT_DELIVERED" "order" orderId ("shipment:" +:+ shipmentId +:+ ":delivered")
        (JObj [("shipmentId", JStr shipmentId); ("transitionId", JStr (tr_id transition))]) ;;
      storeShipmentCommandReplay cuid now orderId DELIVERY_SCOPE keyHash fingerprint result ;;
      mret result
  end.
(** [confirm(orderId, body, context)] *)
Definition confirm (E : env Sales) (now : Z) (orderId proofReference : string) (ctx : OrderContext) (s : Sales)
    : result OrderResponse * Sales :=
  withSerializableRetry E (begin_sale (deliver_tx now orderId proofReference ctx)) never
    "Delivery changed concurrently; retry with the same idempotency key." SERIALIZABLE_RETRIES s.
End fulfillment.
