(* ===== verification/Payments.v ===== *)
(** Payments: the initiation of a payment
    ([src/apps/api/src/modules/payments/payment-initiation.service.ts]), the verification of
    a gateway callback and its settlement ([payment-verification.service.ts], and
    [modules/custom-door-orders/door-payment-settlement.ts] for made-to-order doors), the
    recheck of an unconfirmed one ([admin-payment-reconciliation.service.ts]) and the
    recording of refunds ([admin-payment-refund.service.ts]).

    The gateway is a parameter: what it answers to an authorization ([None] when the call
    throws) and to a verification. *)

From S2P Require Import Prelude Table Paging Json StableJson AuditTrail Retry InventoryModel Inventory.
From S2P Require Import Door.
From S2P Require Import Durable StateMachine PromotionEngine PromotionClaims Credit CreditCommands CreditSales Sales OrderCommands.

(** * The gateway *)

Inductive PaymentGatewayEnvironment := sandbox | live | gateway_disabled.
#[export] Instance PaymentGatewayEnvironment_eq_dec : EqDecision PaymentGatewayEnvironment.
Proof. solve_decision. Defined.
Definition environment_str (m : PaymentGatewayEnvironment) : string :=
  match m with sandbox => "sandbox" | live => "live" | gateway_disabled => "disabled" end.
Record PaymentGatewayConfig := mkGateway { gw_providerName : string; gw_mode : PaymentGatewayEnvironment; gw_callbackUrl : string }.

Inductive PaymentAuthorizeResult :=
  | A_redirect (authority : string) | A_rejected | A_unavailable | A_unknown_result | A_disabled.
Inductive PaymentVerifyResult :=
  | V_verified (referenceId : string) | V_failed | V_unavailable | V_unknown_result | V_disabled.
Record PaymentAuthorizeRequest := mkAuthorize {
  ar_orderId : string; ar_orderNumber : string; ar_amountMinorUnits : string; ar_callbackUrl : string; ar_correlationId : string
}.
Record PaymentVerifyRequest := mkVerify { vr_amountMinorUnits : string; vr_authority : string; vr_correlationId : string }.
Record PaymentProvider := mkProvider {
  authorize : PaymentAuthorizeRequest -> option PaymentAuthorizeResult;
  verify_with : PaymentVerifyRequest -> PaymentVerifyResult
}.

(** * Errors *)

Definition unavailable_service (code message : string) : exn := HttpException ServiceUnavailableException (Some code) message.
Definition unprocessable_request (code message : string) : exn := HttpException UnprocessableEntityException (Some code) message.
Definition payment_conflict (message : string) : exn := conflictCode "PAYMENT_STATE_CONFLICT" message.
Definition payment_not_found : exn := notFound "NOT_FOUND" "Payment not found.".
Definition provider_disabled : exn := unavailable_service "PAYMENT_PROVIDER_DISABLED" "Payments are not enabled on this deployment.".
(** [unconfirmed()] *)
Definition unconfirmed : exn := unavailable_service "PAYMENT_RESULT_UNCONFIRMED"
  "Payment initiation is pending or unconfirmed; reconcile the recorded attempt before another gateway request.".

(** * Payment rows *)

Definition with_authority (a : option string) (p : Payment) : Payment :=
  mkPaymentRow (pt_id p) (pt_orderId p) (pt_provider p) (pt_amount p) a (pt_referenceId p) (pt_refundedAmount p)
    (pt_idempotencyKey p) (pt_idempotencyFingerprint p) (pt_correlationId p) (pt_gatewayEnvironment p) (pt_createdAt p).
Definition with_reference (r : option string) (p : Payment) : Payment :=
  mkPaymentRow (pt_id p) (pt_orderId p) (pt_provider p) (pt_amount p) (pt_authority p) r (pt_refundedAmount p)
    (pt_idempotencyKey p) (pt_idempotencyFingerprint p) (pt_correlationId p) (pt_gatewayEnvironment p) (pt_createdAt p).
Definition with_refunded (n : Z) (p : Payment) : Payment :=
  mkPaymentRow (pt_id p) (pt_orderId p) (pt_provider p) (pt_amount p) (pt_authority p) (pt_referenceId p) n
    (pt_idempotencyKey p) (pt_idempotencyFingerprint p) (pt_correlationId p) (pt_gatewayEnvironment p) (pt_createdAt p).
Definition with_payment (id : string) (o : CreditOrder) : CreditOrder :=
  mkOrder (or_id o) (or_number o) (or_customerId o) (or_version o) (or_discount o) (or_shipping o) (or_grandTotal o)
    (or_reservationExpiresAt o) (or_items o) (or_payments o ++ [id]) (or_staffCommandRecords o) (or_shipment o)
    (or_addressSnapshot o) (or_doorOrder o).

(** [tx.payment.update({ where: { id }, data })] *)
Definition update_payment (id : string) (f : Payment -> Payment) : SM unit :=
  row ← gets (fun d => payments (own d) !! id);
  p ← unwrap row P2025;
  on_own (modify (fun t => set_payments (<[id := f p]> (payments t)) t)).

(** The rows of [order.payments] with their statuses, for [doorPaid]. *)
Definition payment_row (t : SalesTables) (id : string) : PaymentRow :=
  Door.mkPayment id (default PAY_PENDING (payment_state id t)) (from_option pt_amount 0%Z (payments t !! id))
    (from_option pt_refundedAmount 0%Z (payments t !! id)).
Definition order_payment_rows (o : CreditOrder) (t : SalesTables) : list PaymentRow := payment_row t <$> or_payments o.

(** The door order of an order and its quotations. *)
Definition door_of (o : CreditOrder) (t : SalesTables) : option DoorOrder :=
  match or_doorOrder o with Some id => door_orders (doors t) !! id | None => None end.
Definition door_quotes (id : string) (t : SalesTables) : list DoorQuotation :=
  find_many (fun q => bool_decide (dq_orderId q = id)) (quotations (doors t)).
(** [quotes: { orderBy: { version: 'desc' }, take: 1 }] *)
Definition latest_quote (id : string) (t : SalesTables) : option DoorQuotation :=
  head (js_sort (descending (ascending dq_version)) (door_quotes id t)).

(** The contention errors of these services are declared and never thrown. *)
Definition never_contended (_ : exn) : bool := false.

Section payments.
Context (cuid : nat -> string) (hash : string -> string) (gateway : PaymentGatewayConfig) (provider : PaymentProvider).

(** * Initiation *)

Definition PAYMENT_SCOPE : string := "payment.initiation".

Inductive RegisteredAttempt :=
  | attempt_replay (paymentId authority : string) (amount : Z) (gatewayEnvironment : string)
  | attempt_authorize (paymentId orderNumber : string) (amount : Z).

(** [attemptForExisting(payment, options)] *)
Definition attemptForExisting (payment : Payment) (status : option PaymentStatus) (orderId fingerprint : string) (compareFingerprint : bool)
    : result RegisteredAttempt :=
  if compareFingerprint && negb (bool_decide (pt_idempotencyFingerprint payment = fingerprint))
  then Err payload_conflict
  else if negb compareFingerprint && bool_decide (status = Some PAY_FAILED) then Err unconfirmed
  else if negb (bool_decide (status = Some PAY_PENDING))
  then Err (payment_conflict "A payment initiation for this order already has a terminal outcome.")
  else if negb (bool_decide (pt_orderId payment = orderId))
  then Err (conflictCode "IDEMPOTENCY_CONFLICT" "Idempotency key belongs to another order.")
  else match pt_authority payment with
       | None => Err unconfirmed
       | Some authority => Ok (attempt_replay (pt_id payment) authority (pt_amount payment) (pt_gatewayEnvironment payment))
       end.

(** Attempts that forbid another: pending, or failed without proof. *)
Definition ambiguous_failure (t : SalesTables) (id : string) : bool :=
  existsb (fun tr => bool_decide (tr_reason tr ∈ [Some "gateway_unconfirmed"; Some "gateway_unavailable"])) (history_of id (payment_status t)).
Definition active_attempt (orderId : string) (t : SalesTables) (p : Payment) : bool :=
  bool_decide (pt_orderId p = orderId) &&
  (bool_decide (payment_state (pt_id p) t = Some PAY_PENDING) ||
   (bool_decide (payment_state (pt_id p) t = Some PAY_FAILED) && ambiguous_failure t (pt_id p))).

(** [payment.create], with its unique key, the allocation and the relation of the order. *)
Definition create_payment (order : CreditOrder) (amount : Z) (quoteId : option string) (keyHash fingerprint requestId : string)
    : SM Payment :=
  id ← on_inv (fresh_id cuid);
  now ← gets (fun d => clock (inv_of d));
  taken ← gets (fun d => payments (own d) !! id);
  state ← gets (fun d => payment_state id (own d));
  dup ← gets (fun d => find_by (fun p => bool_decide (pt_idempotencyKey p = keyHash)) (payments (own d)));
  throw_if (bool_decide (is_Some taken) || bool_decide (is_Some state) || bool_decide (is_Some dup)) P2002 ;;
  let p := mkPaymentRow id (or_id order) (gw_providerName gateway) amount None None 0 keyHash fingerprint (Some requestId)
    (environment_str (gw_mode gateway)) now in
  on_own (modify (fun t => set_payment_status (mkStatusDb (<[id := PAY_PENDING]> (sd_status (payment_status t))) (sd_history (payment_status t)))
    (set_payments (<[id := p]> (payments t)) t))) ;;
  on_own (modify (fun t => match quoteId with
    | Some q => set_doors (set_allocations (<[id := q]> (allocations (doors t))) (doors t)) t
    | None => t end)) ;;
  on_credit (on_own (modify (fun t => set_orders (<[or_id order := with_payment id order]> (orders t)) t))) ;;
  mret p.

(** The amount to pay: the total of a shop order, or what is left of an accepted quotation. *)
Definition door_blocked (s : DoorStatus) : bool := bool_decide (s ∈ [D_DRAFT; D_PENDING_QUOTE_APPROVAL; D_CANCELLED; D_COMPLETED]).
Definition payable_amount (now : Z) (customer : Customer) (order : CreditOrder) (t : SalesTables) : result (Z * option string) :=
  match door_of order t with
  | Some door =>
      if negb (bool_decide (cu_status customer = CUSTOMER_ACTIVE))
      then Err (conflictCode "DOOR_STATE_CONFLICT" "An active customer profile is required for production payments.")
      else
        let unquoted := conflictCode "DOOR_STATE_CONFLICT" "A final accepted door quotation is required before payment." in
        match latest_quote (dr_id door) t with
        | Some quote =>
            if negb (dq_approved quote) || negb (bool_decide (dq_version quote = dr_currentQuoteVersion door)) || bool_decide (dq_total quote = None) ||
               negb (bool_decide (dr_customerAcceptedQuoteVersion door = Some (dq_version quote))) || door_blocked (dr_status door)
            then Err unquoted
            else
              let amount := (default 0 (dq_total quote) - doorPaid (order_payment_rows order t))%Z in
              if (amount <=? 0)%Z then Err (payment_conflict "No payable balance remains.") else Ok (amount, Some (dq_id quote))
        | None => Err unquoted
        end
  | None =>
      if negb (bool_decide (order_state (or_id order) t = Some PENDING_PAYMENT)) || (or_reservationExpiresAt order <=? now)%Z
      then Err (order_state_conflict "Order is no longer payable or its stock reservation expired.")
      else Ok (or_grandTotal order, None)
  end.

(** The transaction of [register(input)] at the time [now]. *)
Definition register_tx (now : Z) (userId orderId idempotencyKey requestId : string) : SM RegisteredAttempt :=
  let keyHash := hash idempotencyKey in
  let fingerprint := fingerprint_of hash [("scope", JStr PAYMENT_SCOPE); ("orderId", JStr orderId); ("provider", JStr (gw_providerName gateway))] in
  crow ← gets (fun d => find_by (fun c => bool_decide (cu_userId c = Some userId)) (customers (credit (own d))));
  customer ← unwrap crow no_customer;
  acquireOrderLock orderId ;;
  t ← gets own;
  order ← unwrap (match find_order orderId t with
                  | Some o => if bool_decide (or_customerId o = cu_id customer) then Some o else None
                  | None => None end) order_not_found;
  payable ← lift_result (payable_amount now customer order t);
  let existing := find_by (fun p => bool_decide (pt_idempotencyKey p = keyHash)) (payments t) in
  let active := head (find_sorted (ascending pt_createdAt) (active_attempt orderId t) (payments t)) in
  match existing, active with
  | Some p, _ => lift_result (attemptForExisting p (payment_state (pt_id p) t) (or_id order) fingerprint true)
  | None, Some p => lift_result (attemptForExisting p (payment_state (pt_id p) t) (or_id order) fingerprint false)
  | None, None =>
      payment ← create_payment order (fst payable) (snd payable) keyHash fingerprint requestId;
      mret (attempt_authorize (pt_id payment) (or_number order) (fst payable))
  end.

(** [asOutcome(payment)] *)
Record InitiationOutcome := mkInitiation {
  io_paymentId : string; io_provider : string; io_amount : Z; io_authority : string; io_redirectUrl : string
}.
Definition redirectBaseUrl (environment : string) : string :=
  if bool_decide (environment = "live") then "https://payment.zarinpal.com/pg/StartPay/" else "https://sandbox.zarinpal.com/pg/StartPay/".
Definition asOutcome (paymentId authority : string) (amount : Z) (environment : string) : InitiationOutcome :=
  mkInitiation paymentId (gw_providerName gateway) amount authority (redirectBaseUrl environment +:+ authority).

(** [persistAuthorization(orderId, paymentId, amount, authority)] *)
Definition still_payable (now : Z) (orderId : string) (t : SalesTables) : bool :=
  match find_order orderId t with
  | Some order =>
      match door_of order t with
      | Some door => negb (bool_decide (dr_status door ∈ [D_CANCELLED; D_COMPLETED]))
      | None => bool_decide (order_state orderId t = Some PENDING_PAYMENT) && (now <? or_reservationExpiresAt order)%Z
      end
  | None => false
  end.
Definition persist_tx (now : Z) (orderId paymentId : string) (amount : Z) (authority : string) : SM (option InitiationOutcome) :=
  acquireOrderLock orderId ;;
  t ← gets own;
  match payments t !! paymentId with
  | Some p =>
      if bool_decide (payment_state paymentId t = Some PAY_PENDING) && bool_decide (pt_authority p = None) then
        update_payment paymentId (with_authority (Some authority)) ;;
        mret (if still_payable now orderId t then Some (asOutcome paymentId authority amount (environment_str (gw_mode gateway))) else None)
      else
        mret (match pt_authority p with
              | Some a => if still_payable now orderId t && bool_decide (payment_state paymentId t = Some PAY_PENDING)
                          then Some (asOutcome paymentId a amount (pt_gatewayEnvironment p)) else None
              | None => None
              end)
  | None => mret None
  end.

(** [markFailed(paymentId, requestId, reason)] *)
Definition mark_failed_tx (paymentId requestId reason : string) : SM unit :=
  status ← gets (fun d => payment_state paymentId (own d));
  if negb (bool_decide (status = Some PAY_PENDING)) then mret tt
  else _ ← move_payment cuid paymentId PAY_PENDING PAY_FAILED (meta_of None (Some requestId) reason); mret tt.

(** [transitionReason(status)], and the error that [initiate] ends with. *)
Definition refusal (r : PaymentAuthorizeResult) : option (string * exn) :=
  match r with
  | A_rejected => Some ("gateway_rejected", unprocessable_request "UNPROCESSABLE" "Payment gateway rejected the initiation request.")
  | A_unavailable => Some ("gateway_authorization_throttled", unavailable_service "UPSTREAM_UNAVAILABLE"
      "Payment gateway is unavailable; the attempt is recorded as failed. Retry with a new idempotency key.")
  | A_disabled => Some ("gateway_disabled", provider_disabled)
  | A_redirect _ | A_unknown_result => None
  end.

(** [initiate(input)]: [E1] are the other clients while the attempt is registered, [E2] while
    the gateway's answer is recorded. *)
Definition initiate (E1 E2 : env Sales) (now1 now2 : Z) (userId orderId idempotencyKey requestId : string) (s : Sales)
    : result InitiationOutcome * Sales :=
  match withSerializableRetry E1 (begin_sale (register_tx now1 userId orderId idempotencyKey requestId)) never_contended
          "Payment changed concurrently; retry with the same idempotency key." SERIALIZABLE_RETRIES s with
  | (Err e, s1) => (Err e, s1)
  | (Ok (attempt_replay paymentId authority amount environment), s1) => (Ok (asOutcome paymentId authority amount environment), s1)
  | (Ok (attempt_authorize paymentId orderNumber amount), s1) =>
      match authorize provider (mkAuthorize orderId orderNumber (pretty amount) (gw_callbackUrl gateway) requestId) with
      | None | Some A_unknown_result => (Err unconfirmed, s1)
      | Some (A_redirect authority) =>
          match withSerializableRetry E2 (begin_sale (persist_tx now2 orderId paymentId amount authority)) never_contended
                  "Payment changed concurrently; reconcile the recorded attempt." SERIALIZABLE_RETRIES s1 with
          | (Ok (Some outcome), s2) => (Ok outcome, s2)
          | (Ok None, s2) => (Err (order_state_conflict "Order changed or its stock reservation expired while authorizing payment."), s2)
          | (Err e, s2) => (Err e, s2)
          end
      | Some answer =>
          match refusal answer with
          | Some (reason, error) =>
              match withSerializableRetry E2 (begin_sale (mark_failed_tx paymentId requestId reason)) never_contended
                      "Payment state changed concurrently; retry with the same idempotency key." SERIALIZABLE_RETRIES s1 with
              | (Ok _, s2) => (Err error, s2)
              | (Err e, s2) => (Err e, s2)
              end
          | None => (Err unconfirmed, s1)
          end
      end
  end.

(** * Verification *)

Definition REASON_VERIFIED : string := "GATEWAY_VERIFIED".
Definition REASON_ORDER_PAID : string := "PAYMENT_VERIFIED".
Definition REASON_NOT_PAID : string := "gateway_not_paid".
Definition REASON_UNCONFIRMED : string := "gateway_verify_unconfirmed".
Definition MAX_AUTHORITY_LENGTH : nat := 128.

(** [PaymentWithOrder]: a payment with its status, its order and the order's status. *)
Record PaymentWithOrder := mkWithOrder { pw_payment : Payment; pw_status : PaymentStatus; pw_order : CreditOrder; pw_orderStatus : OrderStatus }.
(** [findUnique({ where: { id }, include: { order } })]; the order exists by its foreign key. *)
Definition load_payment (id : string) (t : SalesTables) : option PaymentWithOrder :=
  p ← payments t !! id;
  status ← payment_state id t;
  order ← find_order (pt_orderId p) t;
  orderStatus ← order_state (pt_orderId p) t;
  Some (mkWithOrder p status order orderStatus).

Inductive OutcomeKind := VERIFIED | REPLAY | VERIFIED_AFTER_CANCELLED | NOT_PAID | ACCEPTED_UNCONFIRMED.
Record VerificationOutcome := mkVerification {
  vo_paymentId : string;
  vo_paymentStatus : PaymentStatus;
  vo_amount : Z;
  vo_authority : string;
  vo_referenceId : option string;
  vo_outcome : OutcomeKind;
  vo_orderId : string;
  vo_orderStatus : OrderStatus;
  vo_consumedReservations : Z;
  vo_fulfillmentId : option string
}.

(** [orderStatusOf(status)] *)
Definition orderStatusOf (s : OrderStatus) : OrderStatus :=
  match s with PAID => PAID | CANCELLED => CANCELLED | _ => PENDING_PAYMENT end.
(** [replayOutcome(payment)] *)
Definition replayOutcome (w : PaymentWithOrder) : VerificationOutcome :=
  let p := pw_payment w in
  let status := match pw_status w with PAY_PAID => PAY_PAID | PAY_PENDING => PAY_PENDING | _ => PAY_FAILED end in
  mkVerification (pt_id p) status (pt_amount p) (default EmptyString (pt_authority p)) (pt_referenceId p) REPLAY (pt_orderId p)
    (orderStatusOf (pw_orderStatus w)) 0 None.
(** [unconfirmedOutcome(payment)] *)
Definition unconfirmedOutcome (w : PaymentWithOrder) : VerificationOutcome :=
  let p := pw_payment w in
  mkVerification (pt_id p) PAY_PENDING (pt_amount p) (default EmptyString (pt_authority p)) None ACCEPTED_UNCONFIRMED (pt_orderId p)
    (orderStatusOf (pw_orderStatus w)) 0 None.

(** [assertPaymentBelongsToGateway(payment)] *)
Definition foreign_gateway : exn := invalidRequest "Payment does not belong to the active gateway.".
Definition assertPaymentBelongsToGateway (p : Payment) : result unit :=
  if negb (bool_decide (pt_provider p = gw_providerName gateway)) then Err foreign_gateway
  else if negb (bool_decide (gw_mode gateway = gateway_disabled)) && negb (bool_decide (pt_gatewayEnvironment p = environment_str (gw_mode gateway)))
  then Err foreign_gateway else Ok tt.

Definition gateway_meta (requestId reason : string) : TransitionMeta := meta_of None (Some requestId) reason.

(** [settleAfterCancellation(tx, payment, referenceId, requestId)] *)
Definition settleAfterCancellation (w : PaymentWithOrder) (referenceId requestId : string) : SM VerificationOutcome :=
  let p := pw_payment w in
  transition ← move_payment cuid (pt_id p) PAY_PENDING PAY_PAID (gateway_meta requestId REASON_VERIFIED);
  update_payment (pt_id p) (with_reference (Some referenceId)) ;;
  create_outbox cuid "PAYMENT_VERIFIED_AFTER_CANCELLED" "payment" (pt_id p) ("payment-verified-after-cancelled:" +:+ pt_id p)
    (JObj [("paymentId", JStr (pt_id p)); ("orderId", JStr (pt_orderId p)); ("provider", JStr (pt_provider p)); ("authority", jopt (pt_authority p));
           ("referenceId", JStr referenceId); ("amount", JStr (pretty (pt_amount p))); ("currency", JStr "IRR"); ("orderStatus", JStr "CANCELLED")]) ;;
  record (mkAuditEvent "payment.paid.after-order-cancelled" "payment" (Some (pt_id p)) (Some (JObj [("status", JStr "PENDING")]))
    (Some (JObj [("status", JStr "PAID"); ("referenceId", JStr referenceId)]))
    (Some (JObj [("provider", JStr (pt_provider p)); ("transitionId", JStr (tr_id transition))])) None (Some requestId)) ;;
  mret (mkVerification (pt_id p) PAY_PAID (pt_amount p) (default EmptyString (pt_authority p)) (Some referenceId) VERIFIED_AFTER_CANCELLED
    (pt_orderId p) CANCELLED 0 None).

(** [fulfillment.upsert({ where: { orderId }, create: { orderId }, update: {} })] *)
Definition upsert_fulfillment (orderId : string) : SM Fulfillment :=
  row ← gets (fun d => order_fulfillment orderId (own d));
  match row with
  | Some f => mret f
  | None =>
      on_credit (create_fulfillment cuid orderId) ;;
      created ← gets (fun d => order_fulfillment orderId (own d));
      unwrap created P2025
  end.
(** [fulfillmentTransition.createMany({ data: \[{ from: null, to: 'PENDING' }\], skipDuplicates: true })]:
    skipped when the request already has a row of the fulfillment. *)
Definition has_transition (fulfillmentId requestId : string) (t : SalesTables) : bool :=
  opening_of fulfillmentId (Some requestId) t || request_taken fulfillmentId (Some requestId) (fulfillment_status (credit t)).
Definition open_fulfillment (fulfillmentId requestId : string) : SM unit :=
  id ← on_inv (fresh_id cuid);
  on_own (modify (fun t => if has_transition fulfillmentId requestId t then t
    else set_openings (openings t ++ [mkOpening id fulfillmentId (Some REASON_ORDER_PAID) (Some requestId)]) t)).

(** [settleDoorPaymentIn(tx, payment, referenceId, requestId, audit)] *)
Definition door_allocation_missing : exn := conflict "The payment has no valid approved quotation allocation.".
Definition door_quote_missing : exn := conflict "A final quotation is missing.".
Definition with_door_status (s : DoorStatus) (d : DoorOrder) : DoorOrder :=
  mkDoorOrder (dr_id d) s (dr_version d + 1) (dr_currentQuoteVersion d) (dr_customerAcceptedQuoteVersion d).
Definition create_production_record (orderId action message : string) (payload : json) : SM unit :=
  id ← on_inv (fresh_id cuid);
  taken ← gets (fun d => production_records (doors (own d)) !! id);
  throw_if (bool_decide (is_Some taken)) P2002 ;;
  on_own (modify (fun t => set_doors (set_production (<[id := mkProductionRecord id orderId action message payload]> (production_records (doors t)))
    (doors t)) t)).
(** The quotation that a payment was allocated to, if it is an approved one of the order. *)
Definition allocated_quote (paymentId orderId : string) (t : SalesTables) : option DoorQuotation :=
  quoteId ← allocations (doors t) !! paymentId;
  q ← quotations (doors t) !! quoteId;
  if bool_decide (dq_orderId q = orderId) && dq_approved q then Some q else None.
Definition settleDoorPaymentIn (w : PaymentWithOrder) (referenceId requestId : string) : SM (bool * OrderStatus) :=
  let p := pw_payment w in
  t ← gets own;
  row ← unwrap (door_orders (doors t) !! pt_orderId p) P2025;
  allocated ← unwrap (allocated_quote (pt_id p) (dr_id row) t) door_allocation_missing;
  quote ← unwrap (head (List.filter (fun q => bool_decide (dq_version q = dr_currentQuoteVersion row)) (door_quotes (dr_id row) t))) door_quote_missing;
  throw_if (negb (dq_approved quote)) door_quote_missing ;;
  total ← unwrap (dq_total quote) door_quote_missing;
  _ ← move_payment cuid (pt_id p) PAY_PENDING PAY_PAID (gateway_meta requestId REASON_VERIFIED);
  update_payment (pt_id p) (with_reference (Some referenceId)) ;;
  let paid := doorPaid ((fun x => if bool_decide (Door.py_id x = pt_id p)
    then Door.mkPayment (Door.py_id x) PAY_PAID (Door.py_amount x) (Door.py_refundedAmount x) else x) <$> order_payment_rows (pw_order w) t) in
  let cancelled := bool_decide (dr_status row = D_CANCELLED) || bool_decide (pw_orderStatus w = CANCELLED) in
  let needsReview := cancelled || (total <? paid)%Z || negb (bool_decide (dq_id allocated = dq_id quote)) in
  let settles := negb needsReview && (total <=? paid)%Z in
  let pays_order := settles && bool_decide (pw_orderStatus w = PENDING_PAYMENT) in
  (if pays_order then _ ← move_order cuid (dr_id row) PENDING_PAYMENT PAID (gateway_meta requestId "DOOR_SETTLED"); mret tt else mret tt) ;;
  (if settles && bool_decide (dr_status row = D_AWAITING_DEPOSIT) && bool_decide (dr_customerAcceptedQuoteVersion row = Some (dq_version quote)) then
     throw_if (negb (int4 (dr_version row + 1))) P2020 ;;
     on_own (modify (fun t => set_doors (set_door_orders (<[dr_id row := with_door_status D_DEPOSIT_PAID row]> (door_orders (doors t))) (doors t)) t))
   else mret tt) ;;
  create_production_record (dr_id row) "PAYMENT_VERIFIED"
    (if needsReview then "پرداخت تأیید شد و نیازمند تطبیق مالی است." else "دریافت پرداخت توسط درگاه تأیید شد.")
    (JObj [("paymentId", JStr (pt_id p)); ("quoteId", JStr (dq_id allocated)); ("amount", JStr (pretty (pt_amount p)))]) ;;
  create_outbox cuid (if needsReview then "PAYMENT_VERIFIED_AFTER_CANCELLED" else "DOOR_PAYMENT_VERIFIED") "payment" (pt_id p)
    ("payment-verified:" +:+ pt_id p)
    (JObj [("paymentId", JStr (pt_id p)); ("orderId", JStr (dr_id row)); ("amount", JStr (pretty (pt_amount p))); ("currency", JStr "IRR");
           ("quoteId", JStr (dq_id allocated))]) ;;
  record (mkAuditEvent "custom-door.payment.verified" "payment" (Some (pt_id p)) None None
    (Some (JObj [("orderId", JStr (dr_id row)); ("quoteId", JStr (dq_id allocated)); ("amount", JStr (pretty (pt_amount p)));
       ("needsReview", JBool needsReview)])) None (Some requestId)) ;;
  mret (cancelled, if pays_order then PAID else pw_orderStatus w).

(** The settlement of a shop order that is still open. *)
Definition settle_shop (now : Z) (p : Payment) (w : PaymentWithOrder) (referenceId requestId : string) : SM VerificationOutcome :=
  let orderId := pt_orderId p in
  _ ← move_payment cuid (pt_id p) PAY_PENDING PAY_PAID (gateway_meta requestId REASON_VERIFIED);
  update_payment (pt_id p) (with_reference (Some referenceId)) ;;
  orderTransitionId ← (if bool_decide (pw_orderStatus w = PENDING_PAYMENT) then
      transition ← move_order cuid orderId PENDING_PAYMENT PAID (gateway_meta requestId REASON_ORDER_PAID);
      mret (Some (tr_id transition))
    else
      throw_if (negb (bool_decide (pw_orderStatus w = PAID))) (order_state_conflict "Order is no longer payable.") ;;
      mret None);
  _ ← on_promo (confirmForOrder orderId now);
  consumedReservations ← on_inv (consumeReservationsForOrder cuid orderId (mkActor None (Some requestId)));
  fulfillment ← upsert_fulfillment orderId;
  open_fulfillment (fu_id fulfillment) requestId ;;
  create_outbox cuid "PAYMENT_VERIFIED" "payment" (pt_id p) ("payment-verified:" +:+ pt_id p)
    (JObj [("paymentId", JStr (pt_id p)); ("orderId", JStr orderId); ("provider", JStr (pt_provider p)); ("authority", jopt (pt_authority p));
           ("referenceId", JStr referenceId); ("amount", JStr (pretty (pt_amount p))); ("currency", JStr "IRR");
           ("consumedReservations", JNum consumedReservations); ("fulfillmentId", JStr (fu_id fulfillment)); ("orderStatus", JStr "PAID")]) ;;
  record (mkAuditEvent "payment.paid" "payment" (Some (pt_id p)) (Some (JObj [("status", JStr "PENDING")]))
    (Some (JObj [("status", JStr "PAID"); ("referenceId", JStr referenceId); ("consumedReservations", JNum consumedReservations);
                 ("fulfillmentId", JStr (fu_id fulfillment))]))
    (Some (JObj [("provider", JStr (pt_provider p)); ("gatewayEnvironment", JStr (pt_gatewayEnvironment p))])) None (Some requestId)) ;;
  (match orderTransitionId with
   | Some transitionId => record (mkAuditEvent "order.paid" "order" (Some orderId) (Some (JObj [("status", JStr "PENDING_PAYMENT")]))
       (Some (JObj [("status", JStr "PAID"); ("consumedReservations", JNum consumedReservations)]))
       (Some (JObj [("paymentId", JStr (pt_id p)); ("transitionId", JStr transitionId)])) None (Some requestId))
   | None => mret tt
   end) ;;
  mret (mkVerification (pt_id p) PAY_PAID (pt_amount p) (default EmptyString (pt_authority p)) (Some referenceId) VERIFIED orderId PAID
    consumedReservations (Some (fu_id fulfillment))).

(** The verified payment of a pending row. *)
Definition settle_pending (now : Z) (payment : Payment) (w : PaymentWithOrder) (referenceId requestId : string) : SM VerificationOutcome :=
  let p := pw_payment w in
  match or_doorOrder (pw_order w) with
  | Some _ =>
      settled ← settleDoorPaymentIn w referenceId requestId;
      mret (mkVerification (pt_id p) PAY_PAID (pt_amount p) (default EmptyString (pt_authority p)) (Some referenceId)
        (if fst settled : bool then VERIFIED_AFTER_CANCELLED else VERIFIED) (pt_orderId payment) (orderStatusOf (snd settled)) 0 None)
  | None =>
      throw_if (negb (bool_decide (pt_amount p = or_grandTotal (pw_order w)))) (payment_conflict "Payment amount no longer matches the order total.") ;;
      if bool_decide (pw_orderStatus w = CANCELLED) then settleAfterCancellation w referenceId requestId
      else settle_shop now payment w referenceId requestId
  end.

(** The transaction of [applyVerified(payment, referenceId, requestId)]. *)
Definition apply_verified_tx (now : Z) (payment : Payment) (referenceId requestId : string) : SM VerificationOutcome :=
  let orderId := pt_orderId payment in
  acquireOrderLock orderId ;;
  row ← gets (fun d => load_payment (pt_id payment) (own d));
  w ← unwrap row payment_not_found;
  if bool_decide (pw_status w = PAY_PAID) then mret (replayOutcome w)
  else
    throw_if (negb (bool_decide (pw_status w = PAY_PENDING))) (payment_conflict "Payment already has a terminal outcome.") ;;
    settle_pending now payment w referenceId requestId.

(** The transaction of [markNotPaid(payment, requestId)]. *)
Definition mark_not_paid_tx (payment : Payment) (requestId : string) : SM VerificationOutcome :=
  let orderId := pt_orderId payment in
  acquireOrderLock orderId ;;
  row ← gets (fun d => load_payment (pt_id payment) (own d));
  w ← unwrap row payment_not_found;
  if negb (bool_decide (pw_status w = PAY_PENDING)) then mret (replayOutcome w)
  else
    let p := payment in
    _ ← move_payment cuid (pt_id p) PAY_PENDING PAY_FAILED (gateway_meta requestId REASON_NOT_PAID);
    create_outbox cuid "PAYMENT_VERIFICATION_FAILED" "payment" (pt_id p) ("payment-verification-failed:" +:+ pt_id p)
      (JObj [("paymentId", JStr (pt_id p)); ("orderId", JStr orderId); ("provider", JStr (pt_provider p)); ("reason", JStr REASON_NOT_PAID);
             ("paymentStatus", JStr "FAILED")]) ;;
    record (mkAuditEvent "payment.failed" "payment" (Some (pt_id p)) (Some (JObj [("status", JStr "PENDING")]))
      (Some (JObj [("status", JStr "FAILED")]))
      (Some (JObj [("provider", JStr (pt_provider p)); ("reason", JStr REASON_NOT_PAID)])) None (Some requestId)) ;;
    mret (mkVerification (pt_id p) PAY_FAILED (pt_amount p) (default EmptyString (pt_authority p)) None NOT_PAID orderId
      (orderStatusOf (pw_orderStatus w)) 0 None).

(** The transaction of [recordUnconfirmed(payment, requestId)]; it takes no lock. *)
Definition unconfirmed_key (paymentId : string) : string := "payment-verification-unconfirmed:" +:+ paymentId.
Definition record_unconfirmed_tx (payment : Payment) (requestId : string) : SM VerificationOutcome :=
  row ← gets (fun d => load_payment (pt_id payment) (own d));
  w ← unwrap row payment_not_found;
  if negb (bool_decide (pw_status w = PAY_PENDING)) then mret (replayOutcome w)
  else
    existing ← gets (fun d => find_by (outbox_key (unconfirmed_key (pt_id payment))) (outbox (own d)));
    match existing with
    | Some _ => mret (unconfirmedOutcome w)
    | None =>
        let p := payment in
        create_outbox cuid "PAYMENT_VERIFICATION_UNCONFIRMED" "payment" (pt_id p) (unconfirmed_key (pt_id p))
          (JObj [("paymentId", JStr (pt_id p)); ("orderId", JStr (pt_orderId p)); ("provider", JStr (pt_provider p)); ("authority", jopt (pt_authority p));
                 ("amount", JStr (pretty (pt_amount p))); ("currency", JStr "IRR"); ("gatewayEnvironment", JStr (pt_gatewayEnvironment p))]) ;;
        record (mkAuditEvent "payment.verification.unconfirmed" "payment" (Some (pt_id p)) None None
          (Some (JObj [("provider", JStr (pt_provider p)); ("reason", JStr REASON_UNCONFIRMED); ("authority", jopt (pt_authority p))]))
          None (Some requestId)) ;;
        mret (unconfirmedOutcome w)
    end.

(** [asResponse(outcome, customDoor)]: the optional fields are present when they say something. *)
Record PaymentVerification := mkPaymentVerification {
  pv_customDoor : bool;
  pv_outcome : VerificationOutcome;
  pv_provider : string;
  pv_consumedReservations : option Z
}.
Definition asResponse (outcome : VerificationOutcome) (customDoor : bool) : PaymentVerification :=
  mkPaymentVerification customDoor outcome (gw_providerName gateway)
    (if (0 <? vo_consumedReservations outcome)%Z then Some (vo_consumedReservations outcome) else None).

(** [isContention] of the three transactions. *)
Definition settlement {A} (E : env Sales) (m : SM A) (message : string) (s : Sales) : result A * Sales :=
  withSerializableRetry E (begin_sale m) isPrismaSerializableContention message SERIALIZABLE_RETRIES s.

(** [findFirst({ where: { authority }, include: { order } })] *)
Definition payment_by_authority (authority : string) (t : SalesTables) : option PaymentWithOrder :=
  p ← find_by (fun p => bool_decide (pt_authority p = Some authority)) (payments t);
  load_payment (pt_id p) t.

(** [verify(input)]: the payment is read, the gateway asked outside any transaction, and the
    answer recorded; [E] are the other clients from the read on. *)
Definition verify (E : env Sales) (now : Z) (authority0 : string) (status : option string) (requestId : string) (s : Sales)
    : result PaymentVerification * Sales :=
  let authority := trim authority0 in
  if negb (truthy authority) || (MAX_AUTHORITY_LENGTH <? String.length authority)%nat
  then (Err (invalidRequest "A valid gateway authority is required."), s)
  else if negb (bool_decide (status ∈ [None; Some "OK"; Some "NOK"]))
  then (Err (invalidRequest "Callback Status must be OK or NOK."), s)
  else
    match payment_by_authority authority (own s) with
    | None => (Err payment_not_found, s)
    | Some w =>
        let payment := pw_payment w in
        let door := bool_decide (is_Some (or_doorOrder (pw_order w))) in
        let answer (out : result VerificationOutcome * Sales) : result PaymentVerification * Sales :=
          match out with (Ok o, s') => (Ok (asResponse o door), s') | (Err e, s') => (Err e, s') end in
        let unsure := "Payment changed concurrently; the reconciliation record was not written." in
        match assertPaymentBelongsToGateway payment with
        | Err e => (Err e, s)
        | Ok _ =>
            if negb (bool_decide (pw_status w = PAY_PENDING)) then (Ok (asResponse (replayOutcome w) door), s)
            else if bool_decide (status = Some "NOK") then answer (settlement E (record_unconfirmed_tx payment requestId) unsure s)
            else
              match verify_with provider (mkVerify (pretty (pt_amount payment)) authority requestId) with
              | V_verified referenceId =>
                  answer (settlement E (apply_verified_tx now payment referenceId requestId)
                    "Payment changed concurrently; the settlement was not recorded." s)
              | V_failed =>
                  answer (settlement E (mark_not_paid_tx payment requestId) "Payment changed concurrently; the outcome was not recorded." s)
              | V_unavailable => (Err (unavailable_service "UPSTREAM_UNAVAILABLE" "Payment gateway is unavailable while verifying the callback."), s)
              | V_disabled => (Err provider_disabled, s)
              | V_unknown_result => answer (settlement E (record_unconfirmed_tx payment requestId) unsure s)
              end
        end
    end.

(** * Reconciliation *)

(** [recheck(input)]: [E1] are the other clients before the recheck is audited. *)
Inductive Reconciliation :=
  | reconciled (paymentId : string) (status : PaymentStatus) (referenceId : option string) (orderId : string) (orderStatus : OrderStatus)
  | rechecked (v : PaymentVerification).
Definition not_unconfirmed : exn := payment_conflict "This payment has no unconfirmed verification record.".
Definition recheck (E : env Sales) (now : Z) (paymentId actorId requestId : string) (s : Sales) : result Reconciliation * Sales :=
  match load_payment paymentId (own s) with
  | None => (Err payment_not_found, s)
  | Some w =>
      if bool_decide (find_by (outbox_key (unconfirmed_key paymentId)) (outbox (own s)) = None) then (Err not_unconfirmed, s)
      else
        match transaction (record (mkAuditEvent "payment.reconciliation.requested" "payment" (Some paymentId) None None None
                (Some actorId) (Some requestId)) : SM unit) s with
        | (Err e, s1) => (Err e, s1)
        | (Ok _, s1) =>
            if bool_decide (pw_status w ∈ [PAY_PAID; PAY_FAILED]) then
              (Ok (reconciled paymentId (pw_status w) (pt_referenceId (pw_payment w)) (pt_orderId (pw_payment w)) (pw_orderStatus w)), s1)
            else if negb (bool_decide (pw_status w = PAY_PENDING)) || negb (truthy_opt (pt_authority (pw_payment w))) then
              (Err (payment_conflict "Only an unconfirmed pending payment can be rechecked."), s1)
            else
              match verify E now (default EmptyString (pt_authority (pw_payment w))) None requestId s1 with
              | (Ok v, s2) => (Ok (rechecked v), s2)
              | (Err e, s2) => (Err e, s2)
              end
        end
  end.

(** * Refunds *)

Definition REFUND_SCOPE : string := "payment.refund".
Record RefundInput := mkRefundInput {
  ri_paymentId : string;
  ri_amountMinorUnits : string;
  ri_gatewayReferenceId : string;
  ri_reason : string;
  ri_note : option string;
  ri_actorId : string;
  ri_requestId : string;
  ri_idempotencyKey : string
}.
Record RefundView := mkRefundView {
  rv_refundId : string;
  rv_paymentId : string;
  rv_orderId : string;
  rv_amount : Z;
  rv_paymentStatus : PaymentStatus;
  rv_refundedTotal : Z;
  rv_remainingRefundable : Z;
  rv_createdAt : Z
}.

(** [parseAmount(raw)] *)
Definition parseAmount (raw : string) : result Z :=
  let cs := String.list_ascii_of_string raw in
  if bool_decide (cs = []) || negb (forallb is_digit cs)
  then Err (unprocessable_request "INVALID_REQUEST" "Refund amount must be a positive integer amount in Rial.")
  else
    let amount := digits_value cs in
    if (amount <=? 0)%Z then Err (unprocessable_request "INVALID_REQUEST" "Refund amount must be greater than zero.") else Ok amount.

(** [isBoundedText(value, max)] and [assertEvidence(input)] *)
Definition hasControlCharacter (value : string) : bool := existsb is_control (String.list_ascii_of_string value).
Definition isBoundedText (value : string) (max : nat) : bool :=
  truthy value && (String.length value <=? max)%nat && negb (hasControlCharacter value).
Definition assertEvidence (input : RefundInput) : result unit :=
  if negb (isBoundedText (trim (ri_gatewayReferenceId input)) 128) || negb (bool_decide (ri_gatewayReferenceId input = trim (ri_gatewayReferenceId input))) ||
     negb (isBoundedText (trim (ri_reason input)) 255) || negb (bool_decide (ri_reason input = trim (ri_reason input))) ||
     match ri_note input with Some note => (500 <? String.length note)%nat || hasControlCharacter note | None => false end
  then Err (unprocessable_request "INVALID_REQUEST" "A refund requires a gateway reference and a reason.") else Ok tt.

(** [remainingRefundable(row)] *)
Definition remainingRefundable (p : Payment) (status : option PaymentStatus) : Z :=
  if negb (bool_decide (status ∈ [Some PAY_PAID; Some PAY_PARTIALLY_REFUNDED])) then 0
  else Z.max 0 (pt_amount p - pt_refundedAmount p).

Definition refund_fingerprint (amount : Z) (gatewayReferenceId reason : string) (note : option string) : string :=
  fingerprint_of hash [("scope", JStr REFUND_SCOPE); ("amount", JStr (pretty amount)); ("gatewayReferenceId", JStr gatewayReferenceId);
    ("reason", JStr reason); ("note", jopt note)].

(** [replay(claimed, fingerprint)] *)
Definition replay_refund (claimed : Refund) (p : Payment) (status : option PaymentStatus) (fingerprint : string) : result RefundView :=
  let stored := refund_fingerprint (rf_amount claimed) (rf_gatewayReferenceId claimed) (rf_reason claimed) (rf_note claimed) in
  if negb (bool_decide (stored = fingerprint)) then Err payload_conflict
  else Ok (mkRefundView (rf_id claimed) (rf_paymentId claimed) (pt_orderId p) (rf_amount claimed)
    (if bool_decide (status = Some PAY_REFUNDED) then PAY_REFUNDED else PAY_PARTIALLY_REFUNDED) (pt_refundedAmount p)
    (pt_amount p - pt_refundedAmount p) (rf_createdAt claimed)).

(** [refund.create], with its unique columns. *)
Definition refund_collides (r r' : Refund) : bool :=
  bool_decide (rf_gatewayReferenceId r = rf_gatewayReferenceId r') || bool_decide (rf_idempotencyKey r = rf_idempotencyKey r').
Definition create_refund (amount : Z) (keyHash : string) (input : RefundInput) : SM Refund :=
  id ← on_inv (fresh_id cuid);
  now ← gets (fun d => clock (inv_of d));
  let r := mkRefund id (ri_paymentId input) amount (ri_gatewayReferenceId input) (ri_reason input) (ri_note input) keyHash (ri_actorId input)
    (ri_requestId input) now in
  taken ← gets (fun d => refunds (own d) !! id);
  dup ← gets (fun d => find_by (refund_collides r) (refunds (own d)));
  throw_if (bool_decide (is_Some taken) || bool_decide (is_Some dup)) P2002 ;;
  on_own (modify (fun t => set_refunds (<[id := r]> (refunds t)) t)) ;;
  mret r.

(** The transaction of [record(input)] at the time [now]. *)
Definition refund_tx (now amount : Z) (input : RefundInput) : SM RefundView :=
  let keyHash := hash (REFUND_SCOPE +:+ ":" +:+ ri_paymentId input +:+ ":" +:+ ri_idempotencyKey input) in
  let fingerprint := refund_fingerprint amount (ri_gatewayReferenceId input) (ri_reason input) (ri_note input) in
  t0 ← gets own;
  match find_by (fun r => bool_decide (rf_idempotencyKey r = keyHash)) (refunds t0) with
  | Some claimed =>
      p ← unwrap (payments t0 !! rf_paymentId claimed) P2025;
      throw_if (negb (bool_decide (rf_paymentId claimed = ri_paymentId input)))
        (conflictCode "IDEMPOTENCY_CONFLICT" "Idempotency key belongs to another payment.") ;;
      lift_result (replay_refund claimed p (payment_state (pt_id p) t0) fingerprint)
  | None =>
      owner ← unwrap (payments t0 !! ri_paymentId input) payment_not_found;
      acquireOrderLock (pt_orderId owner) ;;
      t ← gets own;
      payment ← unwrap (payments t !! ri_paymentId input) payment_not_found;
      let status := payment_state (pt_id payment) t in
      let remaining := remainingRefundable payment status in
      throw_if (bool_decide (remaining = 0%Z)) (payment_conflict
        (if bool_decide (status = Some PAY_REFUNDED) then "This payment is already fully refunded." else "Only a settled payment can be refunded.")) ;;
      throw_if (remaining <? amount)%Z
        (unprocessable_request "REFUND_AMOUNT_EXCEEDS_REMAINING" "Refund amount exceeds the remaining refundable amount.") ;;
      let refundedTotal := (pt_refundedAmount payment + amount)%Z in
      let fullyRefunded := bool_decide (refundedTotal = pt_amount payment) in
      let nextStatus := if fullyRefunded then PAY_REFUNDED else PAY_PARTIALLY_REFUNDED in
      let previous := default PAY_PENDING status in
      refund ← create_refund amount keyHash input;
      update_payment (pt_id payment) (with_refunded refundedTotal) ;;
      on_promo (applyRefund (pt_orderId payment) now (pt_amount payment) refundedTotal) ;;
      (if negb (bool_decide (nextStatus = previous)) then
         _ ← move_payment cuid (pt_id payment) previous nextStatus (meta_of (Some (ri_actorId input)) (Some (ri_requestId input)) "REFUND_RECORDED");
         mret tt
       else mret tt) ;;
      record (mkAuditEvent "payment.refund.recorded" "payment" (Some (pt_id payment))
        (Some (JObj [("status", JStr (payment_status_str previous)); ("refundedTotal", JStr (pretty (pt_refundedAmount payment)))]))
        (Some (JObj [("status", JStr (payment_status_str nextStatus)); ("refundedTotal", JStr (pretty refundedTotal)); ("refundId", JStr (rf_id refund))]))
        None (Some (ri_actorId input)) (Some (ri_requestId input))) ;;
      create_outbox cuid "PAYMENT_REFUNDED" "payment" (pt_id payment) ("payment-refunded:" +:+ rf_id refund)
        (JObj [("refundId", JStr (rf_id refund)); ("paymentId", JStr (pt_id payment)); ("orderId", JStr (pt_orderId payment));
               ("amount", JStr (pretty amount)); ("currency", JStr "IRR"); ("refundedTotal", JStr (pretty refundedTotal));
               ("paymentStatus", JStr (payment_status_str nextStatus)); ("gatewayReferenceId", JStr (ri_gatewayReferenceId input))]) ;;
      mret (mkRefundView (rf_id refund) (pt_id payment) (pt_orderId payment) amount nextStatus refundedTotal (pt_amount payment - refundedTotal)
        (rf_createdAt refund))
  end.
(** [record(input)] *)
Definition record_refund (E : env Sales) (now : Z) (input : RefundInput) (s : Sales) : result RefundView * Sales :=
  match parseAmount (ri_amountMinorUnits input), assertEvidence input with
  | Err e, _ | Ok _, Err e => (Err e, s)
  | Ok amount, Ok _ => withSerializableRetry E (begin_sale (refund_tx now amount input)) never_contended
      "Payment changed concurrently; retry with the same idempotency key." SERIALIZABLE_RETRIES s
  end.
End payments.
