(* ===== verification/Purchasing.v ===== *)
(** Purchase orders and goods receipts:
    [src/apps/api/src/modules/purchasing/purchasing.service.ts], from the draft of an
    order over its approval to the receipts that put the delivered quantities on stock.
    Every mutation is a durable command on the inventory tables and the tables below.

    Parameters: the database's identifiers, text order and case-insensitive [contains],
    and the SHA-256 digest.  [uuid i] is what the [i]-th call of [randomUUID()] in a
    transaction returns.  The client's [updatedAt] column is left out. *)

From S2P Require Import Prelude Table Paging Json StableJson AuditTrail Retry InventoryModel Inventory.
From S2P Require Import Durable.

(** * Data *)

Inductive PurchaseOrderStatus := PO_DRAFT | PO_APPROVED | PO_PARTIALLY_RECEIVED | PO_RECEIVED | PO_CANCELLED.
#[export] Instance PurchaseOrderStatus_eq_dec : EqDecision PurchaseOrderStatus.
Proof. solve_decision. Defined.

Definition po_status_name (s : PurchaseOrderStatus) : string :=
  match s with
  | PO_DRAFT => "DRAFT" | PO_APPROVED => "APPROVED" | PO_PARTIALLY_RECEIVED => "PARTIALLY_RECEIVED"
  | PO_RECEIVED => "RECEIVED" | PO_CANCELLED => "CANCELLED"
  end.

Record OrderRow := mkOrder {
  po_id : string;
  po_number : string;
  po_supplierId : string;
  po_warehouseId : string;
  po_status : PurchaseOrderStatus;
  po_version : Z;
  po_expectedAt : option Z;
  po_notes : option string;
  po_createdAt : Z
}.
Record OrderItem := mkOrderItem {
  oi_id : string;
  oi_orderId : string;
  oi_variantId : string;
  oi_orderedQty : Z;
  oi_receivedQty : Z;
  oi_unitCost : Z
}.
Record ReceiptRow := mkReceipt {
  rc_id : string;
  rc_number : string;
  rc_orderId : string;
  rc_warehouseId : string;
  rc_externalReference : string;
  rc_actorId : string;
  rc_receivedAt : Z
}.
Record ReceiptLine := mkReceiptLine {
  rl_id : string;
  rl_receiptId : string;
  rl_itemId : string;
  rl_locationId : string;
  rl_quantity : Z;
  rl_movementId : string
}.
(** The columns of [Supplier], [ProductVariant] and its product that the service reads. *)
Record SupplierInfo := mkSupplierInfo { si_code : string; si_name : string; si_isActive : bool }.
Record CatalogVariant := mkCatalogVariant {
  cv_id : string;
  cv_sku : string;
  cv_title : option string;
  cv_productName : string;
  cv_isActive : bool;
  cv_active : bool;
  cv_productActive : bool
}.

Record PurTables := mkPurTables {
  orders : gmap string OrderRow;
  order_items : gmap string OrderItem;
  receipts : gmap string ReceiptRow;
  receipt_lines : gmap string ReceiptLine;
  suppliers : gmap string SupplierInfo;
  catalog : gmap string CatalogVariant
}.
Definition set_orders (t : gmap string OrderRow) (x : PurTables) : PurTables :=
  mkPurTables t (order_items x) (receipts x) (receipt_lines x) (suppliers x) (catalog x).
Definition set_order_items (t : gmap string OrderItem) (x : PurTables) : PurTables :=
  mkPurTables (orders x) t (receipts x) (receipt_lines x) (suppliers x) (catalog x).
Definition set_receipts (t : gmap string ReceiptRow) (x : PurTables) : PurTables :=
  mkPurTables (orders x) (order_items x) t (receipt_lines x) (suppliers x) (catalog x).
Definition set_receipt_lines (t : gmap string ReceiptLine) (x : PurTables) : PurTables :=
  mkPurTables (orders x) (order_items x) (receipts x) t (suppliers x) (catalog x).

(** Responses. *)
Record PurchaseOrderItem := mkPublicItem {
  pi_id : string;
  pi_variantId : string;
  pi_sku : string;
  pi_orderedQty : Z;
  pi_receivedQty : Z;
  pi_unitCost : string;
  pi_lineCost : string
}.
Record PurchaseOrder := mkPublicOrder {
  pp_row : OrderRow;
  pp_items : list PurchaseOrderItem;
  pp_totalCost : string
}.
Record PurchaseReceiptLine := mkPublicLine {
  pl_id : string;
  pl_itemId : string;
  pl_variantId : string;
  pl_locationId : string;
  pl_quantity : Z;
  pl_movementId : string
}.
Record PurchaseReceipt := mkPublicReceipt { pr_row : ReceiptRow; pr_lines : list PurchaseReceiptLine }.
Inductive PurResponse := ROrder (o : PurchaseOrder) | RReceipt (r : PurchaseReceipt).

(** * Inputs *)

Record PurContext := mkPurContext { px_actorId : string; px_requestId : option string; px_idempotencyKey : string }.

(** A date argument: its text, and the instant [new Date(text)] denotes. *)
Record DateText := mkDate { d_text : string; d_instant : Z }.

Record PurchaseOrderItemInput := mkItemInput { in_variantId : string; in_orderedQty : number; in_unitCost : string }.
Record PurchaseOrderCreateDto := mkPurCreate {
  pc_supplierId : string;
  pc_warehouseId : string;
  pc_expectedAt : option DateText;
  pc_notes : option string;
  pc_items : list PurchaseOrderItemInput
}.
(** A field that the update does not mention is [None]; [Some None] is [null]. *)
Record PurchaseOrderUpdateDto := mkPurUpdate {
  pu_expectedVersion : number;
  pu_expectedAt : option (option DateText);
  pu_notes : option (option string);
  pu_items : option (list PurchaseOrderItemInput)
}.
Record PurchaseReceiptLineInput := mkReceiptInput { rn_variantId : string; rn_locationId : string; rn_quantity : number }.
Record PurchaseReceiptCreateDto := mkReceiptCreate {
  rx_expectedVersion : number;
  rx_externalReference : string;
  rx_lines : list PurchaseReceiptLineInput
}.

(** [Line], and a line of a receipt. *)
Record Line := mkLine { ln_variantId : string; ln_orderedQty : Z; ln_unitCost : Z }.
Record DeliveryLine := mkDelivery { dl_variantId : string; dl_locationId : string; dl_quantity : Z }.

(** * Errors and input checks *)

Definition MAX_I64 : Z := 9223372036854775807.
Definition pur_validation (message : string) : exn :=
  HttpException BadRequestException (Some "VALIDATION_ERROR") message.
Definition missing_order : exn := notFound "NOT_FOUND" "Purchase order not found.".
Definition order_changed : exn := conflictCode "VERSION_CONFLICT" "Purchase order changed; reload before editing.".
Definition order_state : exn :=
  conflictCode "PURCHASE_ORDER_STATE_CONFLICT" "Purchase order is not in the required state.".
Definition quantity_conflict (message : string) : exn := conflictCode "RECEIPT_QUANTITY_CONFLICT" message.
Definition missing_relation : exn :=
  JsError "PrismaClientUnknownRequestError" "Inconsistent query result: a required relation is missing.".
Definition undefined_item : exn := JsError "TypeError" "Cannot read properties of undefined".

(** [/^[1-9][0-9]{0,18}$/u] *)
Definition costPattern (s : string) : bool :=
  match String.list_ascii_of_string s with
  | [] => false
  | c :: cs => is_digit c && negb (bool_decide (digit_value c = 0%Z)) && forallb is_digit cs && (length cs <=? 18)%nat
  end.
(** [BigInt(text)] of a text of digits. *)
Definition BigInt (s : string) : Z := digits_value (String.list_ascii_of_string s).

(** The callback of [items.map] in [normalizeLines], with its set of ids and its total. *)
Fixpoint check_lines (ids : list string) (total : Z) (items : list PurchaseOrderItemInput) : result (list Line) :=
  match items with
  | [] => Ok []
  | item :: items =>
      if negb (truthy (in_variantId item)) || bool_decide (in_variantId item ∈ ids) ||
         negb (isInteger (in_orderedQty item)) || (int_val (in_orderedQty item) <? 1)%Z ||
         (1000000 <? int_val (in_orderedQty item))%Z || negb (costPattern (in_unitCost item))
      then Err (pur_validation "Duplicate or invalid purchase order line.")
      else
        let unitCost := BigInt (in_unitCost item) in
        let total := (total + unitCost * int_val (in_orderedQty item))%Z in
        if (MAX_I64 <? unitCost)%Z || (MAX_I64 <? total)%Z
        then Err (pur_validation "Purchase order cost exceeds supported integer IRR range.")
        else
          rest ← check_lines (in_variantId item :: ids) total items;
          Ok (mkLine (in_variantId item) (int_val (in_orderedQty item)) unitCost :: rest)
  end.

Definition by_line_variant (a b : Line) : Z := byCodeUnit (ln_variantId a) (ln_variantId b).

(** [normalizeLines(items)] *)
Definition normalizeLines (items : list PurchaseOrderItemInput) : result (list Line) :=
  if bool_decide (items = []) || (100 <? length items)%nat
  then Err (pur_validation "Purchase order needs 1–100 lines.")
  else
    checked ← check_lines [] 0 items;
    Ok (js_sort by_line_variant checked).

(** [assertCommandTarget(id, expectedVersion)] *)
Definition assertCommandTarget (id : string) (expectedVersion : number) : result unit :=
  let cs := String.list_ascii_of_string id in
  if negb (forallb key_char cs && (1 <=? length cs)%nat && (length cs <=? 64)%nat) ||
     negb (isInteger expectedVersion) || (int_val expectedVersion <? 0)%Z
  then Err (pur_validation "Invalid purchase order ID or expectedVersion.")
  else Ok tt.

(** A [Map] from variants to quantities in insertion order: [get] and [set]. *)
Definition quantity_of (v : string) (qs : list (string * Z)) : Z :=
  from_option snd 0%Z (List.find (fun q => bool_decide (fst q = v)) qs).
Fixpoint set_quantity (v : string) (n : Z) (qs : list (string * Z)) : list (string * Z) :=
  match qs with
  | [] => [(v, n)]
  | q :: qs => if bool_decide (fst q = v) then (v, n) :: qs else q :: set_quantity v n qs
  end.

(** The callback of [input.lines.map] in [receive], with its set and its map. *)
Fixpoint check_deliveries (seen : list string) (quantities : list (string * Z)) (ls : list PurchaseReceiptLineInput)
    : result (list DeliveryLine * list (string * Z)) :=
  match ls with
  | [] => Ok ([], quantities)
  | l :: ls =>
      let key := rn_locationId l +:+ String.String Ascii.zero (rn_variantId l) in
      if negb (truthy (rn_variantId l)) || negb (truthy (rn_locationId l)) || negb (isInteger (rn_quantity l)) ||
         (int_val (rn_quantity l) <? 1)%Z || (1000000 <? int_val (rn_quantity l))%Z
      then Err (pur_validation "Invalid receipt line.")
      else if bool_decide (key ∈ seen) then Err (pur_validation "Duplicate receipt location and SKU.")
      else
        let quantity := (quantity_of (rn_variantId l) quantities + int_val (rn_quantity l))%Z in
        if (1000000 <? quantity)%Z then Err (pur_validation "Receipt quantity exceeds supported limit.")
        else
          rest ← check_deliveries (key :: seen) (set_quantity (rn_variantId l) quantity quantities) ls;
          Ok (mkDelivery (rn_variantId l) (rn_locationId l) (int_val (rn_quantity l)) :: fst rest, snd rest)
  end.

Definition by_delivery_place (a b : DeliveryLine) : Z :=
  then_by (fun a b => byCodeUnit (dl_locationId a) (dl_locationId b))
    (fun a b => byCodeUnit (dl_variantId a) (dl_variantId b)) a b.

(** The checks of [receive] before its command: reference, lines and quantities. *)
Definition receive_input (id : string) (input : PurchaseReceiptCreateDto)
    : result (string * list DeliveryLine * list (string * Z)) :=
  assertCommandTarget id (rx_expectedVersion input) ;;
  let externalReference := trim (rx_externalReference input) in
  if negb (truthy externalReference) || (120 <? String.length externalReference)%nat ||
     bool_decide (rx_lines input = []) || (100 <? length (rx_lines input))%nat
  then Err (pur_validation "Receipt needs an external delivery reference and 1–100 lines.")
  else
    checked ← check_deliveries [] [] (rx_lines input);
    Ok (externalReference, js_sort by_delivery_place (fst checked), snd checked).

(** * Responses *)

Section responses.
Context (collate : string -> string -> Z).

(** [orderBy: { variantId: 'asc' }] *)
Definition items_of_order (id : string) (x : PurTables) : list OrderItem :=
  find_sorted (by_text collate oi_variantId) (fun i => bool_decide (oi_orderId i = id)) (order_items x).

(** A list mapped by a function that can fail. *)
Fixpoint map_result {A B} (f : A -> result B) (xs : list A) : result (list B) :=
  match xs with
  | [] => Ok []
  | x :: xs => y ← f x; ys ← map_result f xs; Ok (y :: ys)
  end.

Definition publicItem (x : PurTables) (item : OrderItem) : result PurchaseOrderItem :=
  match catalog x !! oi_variantId item with
  | Some variant =>
      Ok (mkPublicItem (oi_id item) (oi_variantId item) (cv_sku variant) (oi_orderedQty item) (oi_receivedQty item)
        (pretty (oi_unitCost item)) (pretty (oi_unitCost item * oi_orderedQty item)%Z))
  | None => Err missing_relation
  end.

Definition order_cost (items : list OrderItem) : Z := sumZ (fun i => oi_unitCost i * oi_orderedQty i)%Z items.

(** [publicOrder(row)] *)
Definition publicOrder (x : PurTables) (row : OrderRow) : result PurchaseOrder :=
  let items := items_of_order (po_id row) x in
  public ← map_result (publicItem x) items;
  Ok (mkPublicOrder row public (pretty (order_cost items))).

(** [orderBy: [{ locationId: 'asc' }, { purchaseOrderItemId: 'asc' }]] *)
Definition lines_of_receipt (id : string) (x : PurTables) : list ReceiptLine :=
  find_sorted (then_by (by_text collate rl_locationId) (by_text collate rl_itemId))
    (fun l => bool_decide (rl_receiptId l = id)) (receipt_lines x).

Definition publicLine (x : PurTables) (line : ReceiptLine) : result PurchaseReceiptLine :=
  match order_items x !! rl_itemId line with
  | Some item =>
      Ok (mkPublicLine (rl_id line) (rl_itemId line) (oi_variantId item) (rl_locationId line) (rl_quantity line)
        (rl_movementId line))
  | None => Err missing_relation
  end.

(** [publicReceipt(row)] *)
Definition publicReceipt (x : PurTables) (row : ReceiptRow) : result PurchaseReceipt :=
  public ← map_result (publicLine x) (lines_of_receipt (rc_id row) x);
  Ok (mkPublicReceipt row public).

(** * Queries *)

Context (icontains : string -> string -> bool) (scan : forall R, list R -> list R).

Inductive OptionKind := supplier | warehouse | variant.

Definition with_ids {R} (t : gmap string R) : gmap string (string * R) := map_imap (fun k r => Some (k, r)) t.

(** [options(query)] *)
Definition options (kind : OptionKind) (query : option string) (offset limit : Z) (d : Domain PurTables)
    : list OptionItem * Z :=
  let search := search_text query in
  match kind with
  | supplier =>
      page_options (fun r => mkOption (fst r) (si_code (snd r)) (si_name (snd r)))
        (list_page (scan _) (by_text collate (fun r => si_code (snd r)))
          (fun r => si_isActive (snd r) && matches icontains search [Some (si_code (snd r)); Some (si_name (snd r))])
          offset limit (with_ids (suppliers (own d))))
  | warehouse =>
      page_options (fun w => mkOption (w_id w) (w_code w) (w_name w))
        (list_page (scan _) (by_text collate w_code)
          (fun w => w_isActive w && matches icontains search [Some (w_code w); Some (w_name w)])
          offset limit (warehouses (inv_of d)))
  | variant =>
      page_options (fun v => mkOption (cv_id v) (cv_sku v)
          (cv_productName v +:+ (if truthy_opt (cv_title v) then " — " +:+ default EmptyString (cv_title v) else EmptyString)))
        (list_page (scan _) (by_text collate cv_sku)
          (fun v => cv_isActive v && cv_active v && cv_productActive v &&
             matches icontains search [Some (cv_sku v); Some (cv_productName v)])
          offset limit (catalog (own d)))
  end.

Record PurchaseOrderListQuery := mkOrderQuery {
  oq_status : option PurchaseOrderStatus;
  oq_supplierId : option string;
  oq_warehouseId : option string;
  oq_offset : Z;
  oq_limit : Z
}.

(** A condition that an absent or empty text leaves out. *)
Definition if_given (filter : option string) (value : string) : bool :=
  match filter with Some f => negb (truthy f) || bool_decide (value = f) | None => true end.

Definition listed_order (query : PurchaseOrderListQuery) (row : OrderRow) : bool :=
  from_option (fun s => bool_decide (po_status row = s)) true (oq_status query) &&
  if_given (oq_supplierId query) (po_supplierId row) && if_given (oq_warehouseId query) (po_warehouseId row).

Definition latest_order : OrderRow -> OrderRow -> Z :=
  then_by (descending (ascending po_createdAt)) (descending (by_text collate po_id)).

(** [list(query)] *)
Definition list_orders (query : PurchaseOrderListQuery) (d : Domain PurTables) : result (list PurchaseOrder * Z) :=
  let found := list_page (scan _) latest_order (listed_order query) (oq_offset query) (oq_limit query) (orders (own d)) in
  items ← map_result (publicOrder (own d)) (fst found);
  Ok (items, snd found).

(** [get(id)] *)
Definition get_order (id : string) (d : Domain PurTables) : result PurchaseOrder :=
  match orders (own d) !! id with
  | Some row => publicOrder (own d) row
  | None => Err missing_order
  end.

Definition latest_receipt : ReceiptRow -> ReceiptRow -> Z :=
  then_by (descending (ascending rc_receivedAt)) (descending (by_text collate rc_id)).

(** [receipts(id, query)] *)
Definition list_receipts (id : string) (offset limit : Z) (d : Domain PurTables) : result (list PurchaseReceipt * Z) :=
  match orders (own d) !! id with
  | None => Err missing_order
  | Some _ =>
      let found := list_page (scan _) latest_receipt (fun r => bool_decide (rc_orderId r = id)) offset limit (receipts (own d)) in
      items ← map_result (publicReceipt (own d)) (fst found);
      Ok (items, snd found)
  end.

(** [receiptLocations(id, query)] *)
Definition receiptLocations (id : string) (query : option string) (offset limit : Z) (d : Domain PurTables)
    : result (list OptionItem * Z) :=
  match orders (own d) !! id with
  | None => Err missing_order
  | Some order =>
      match warehouses (inv_of d) !! po_warehouseId order with
      | None => Err missing_relation
      | Some w =>
          if negb (w_isActive w) then Ok ([], 0%Z)
          else
            let search := search_text query in
            Ok (page_options (fun l => mkOption (l_id l) (l_code l)
                  (if truthy_opt (l_name l) then default EmptyString (l_name l) else l_code l))
              (list_page (scan _) (by_text collate l_code)
                (fun l => bool_decide (l_warehouseId l = po_warehouseId order) && l_isActive l &&
                   matches icontains search [Some (l_code l); l_name l])
                offset limit (locations (inv_of d))))
      end
  end.
End responses.

(** * Bodies of the commands *)

Section service.
Context (cuid : nat -> string) (collate : string -> string -> Z).

Definition audit_order (action id : string) (ctx : PurContext) (metadata : json) : M (Domain PurTables) unit :=
  on_inv (record (mkAuditEvent action "PurchaseOrder" (Some id) None None (Some metadata)
    (Some (px_actorId ctx)) (px_requestId ctx))).

Definition find_order (id : string) : M (Domain PurTables) OrderRow :=
  row ← gets (fun d => orders (own d) !! id);
  unwrap row missing_order.

(** The items of an order in the table's own order. *)
Definition order_rows (id : string) (x : PurTables) : list OrderItem :=
  find_many (fun i => bool_decide (oi_orderId i = id)) (order_items x).

(** [findUniqueOrThrow({ where: { id }, include })] and [publicOrder] *)
Definition load_order (id : string) : M (Domain PurTables) PurResponse :=
  row ← gets (fun d => orders (own d) !! id);
  row ← unwrap row P2025;
  o ← gets (fun d => publicOrder collate (own d) row);
  o ← lift_result o;
  mret (ROrder o).

Definition set_po_status (s : PurchaseOrderStatus) (r : OrderRow) : OrderRow :=
  mkOrder (po_id r) (po_number r) (po_supplierId r) (po_warehouseId r) s (po_version r) (po_expectedAt r)
    (po_notes r) (po_createdAt r).
Definition bump_order (r : OrderRow) : OrderRow :=
  mkOrder (po_id r) (po_number r) (po_supplierId r) (po_warehouseId r) (po_status r) (po_version r + 1)
    (po_expectedAt r) (po_notes r) (po_createdAt r).

(** [purchaseOrder.updateMany({ where: { id, version, status }, data })] and the check
    that one row changed; [data] increments the version. *)
Definition update_order (id : string) (expectedVersion : Z) (status : PurchaseOrderStatus)
    (data : OrderRow -> OrderRow) : M (Domain PurTables) unit :=
  row ← gets (fun d => orders (own d) !! id);
  match row with
  | Some r =>
      if bool_decide (po_version r = expectedVersion) && bool_decide (po_status r = status) then
        throw_if (negb (int4 (po_version r + 1))) P2020 ;;
        on_own (modify (fun x => set_orders (<[id := bump_order (data r)]> (orders x)) x))
      else mthrow order_changed
  | None => mthrow order_changed
  end.

(** [assertActiveReferences(tx, supplierId, warehouseId, items)] *)
Definition assertActiveReferences (supplierId warehouseId : string) (variantIds : list string)
    : M (Domain PurTables) unit :=
  supplier ← gets (fun d => suppliers (own d) !! supplierId);
  warehouse ← gets (fun d => warehouses (inv_of d) !! warehouseId);
  found ← gets (fun d => find_many (fun v => bool_decide (cv_id v ∈ variantIds)) (catalog (own d)));
  throw_if (negb (from_option si_isActive false supplier))
    (conflictCode "SUPPLIER_INACTIVE" "Supplier is unavailable for purchasing.") ;;
  throw_if (negb (from_option w_isActive false warehouse))
    (conflictCode "WAREHOUSE_INACTIVE" "Warehouse is unavailable for purchasing.") ;;
  throw_if (negb (length found =? length variantIds)%nat ||
            existsb (fun v => negb (cv_isActive v) || negb (cv_active v) || negb (cv_productActive v)) found)
    (conflictCode "VARIANT_INACTIVE" "One or more purchase order SKUs are unavailable.").

(** A row of [items: { create }] or [purchaseOrderItem.createMany]. *)
Definition create_order_item (orderId : string) (l : Line) : M (Domain PurTables) unit :=
  id ← on_inv (fresh_id cuid);
  taken ← gets (fun d => order_items (own d) !! id);
  dup ← gets (fun d => find_by (fun i => bool_decide (oi_orderId i = orderId) &&
    bool_decide (oi_variantId i = ln_variantId l)) (order_items (own d)));
  throw_if (bool_decide (is_Some taken) || bool_decide (is_Some dup)) P2002 ;;
  on_own (modify (fun x => set_order_items
    (<[id := mkOrderItem id orderId (ln_variantId l) (ln_orderedQty l) 0 (ln_unitCost l)]> (order_items x)) x)).

(** [input.expectedAt ? new Date(input.expectedAt) : null] *)
Definition date_of (value : option DateText) : option Z :=
  match value with Some t => if truthy (d_text t) then Some (d_instant t) else None | None => None end.

(** [create] *)
Definition create_order_tx (uuid : nat -> string) (input : PurchaseOrderCreateDto) (items : list Line)
    (ctx : PurContext) : M (Domain PurTables) PurResponse :=
  assertActiveReferences (pc_supplierId input) (pc_warehouseId input) (ln_variantId <$> items) ;;
  id ← on_inv (fresh_id cuid);
  now ← gets (fun d => clock (inv_of d));
  taken ← gets (fun d => orders (own d) !! id);
  let number := "PO-" +:+ compact_uuid (uuid 0) in
  dup ← gets (fun d => find_by (fun r => bool_decide (po_number r = number)) (orders (own d)));
  throw_if (bool_decide (is_Some taken) || bool_decide (is_Some dup)) P2002 ;;
  let row := mkOrder id number (pc_supplierId input) (pc_warehouseId input) PO_DRAFT 0
    (date_of (pc_expectedAt input)) (pc_notes input) now in
  on_own (modify (fun x => set_orders (<[id := row]> (orders x)) x)) ;;
  for_each items (create_order_item id) ;;
  audit_order "purchase-order.created" id ctx
    (JObj [("number", JStr number); ("lineCount", JNum (Z.of_nat (length items)))]) ;;
  load_order id.

(** [purchaseOrderItem.deleteMany({ where: { purchaseOrderId } })]; a receipt line keeps
    the item that it names. *)
Definition delete_order_items (orderId : string) : M (Domain PurTables) unit :=
  kept ← gets (fun d => existsb (fun l =>
    from_option (fun i => bool_decide (oi_orderId i = orderId)) false (order_items (own d) !! rl_itemId l))
    (rows (receipt_lines (own d))));
  throw_if kept P2003 ;;
  on_own (modify (fun x => set_order_items (delete_many (fun i => bool_decide (oi_orderId i = orderId)) (order_items x)) x)).

Definition update_data (input : PurchaseOrderUpdateDto) (r : OrderRow) : OrderRow :=
  mkOrder (po_id r) (po_number r) (po_supplierId r) (po_warehouseId r) (po_status r) (po_version r)
    (from_option date_of (po_expectedAt r) (pu_expectedAt input)) (default (po_notes r) (pu_notes input))
    (po_createdAt r).

(** [Object.keys(payload).filter(key => key !== 'expectedVersion')] *)
Definition changed_fields (input : PurchaseOrderUpdateDto) : list string :=
  (if bool_decide (is_Some (pu_expectedAt input)) then ["expectedAt"] else []) ++
  (if bool_decide (is_Some (pu_notes input)) then ["notes"] else []) ++
  (if bool_decide (is_Some (pu_items input)) then ["items"] else []).

(** [update]; [items] are the normalized lines of [input.items]. *)
Definition update_order_tx (id : string) (input : PurchaseOrderUpdateDto) (items : option (list Line))
    (ctx : PurContext) : M (Domain PurTables) PurResponse :=
  current ← find_order id;
  throw_if (negb (bool_decide (po_status current = PO_DRAFT))) order_state ;;
  let expectedVersion := int_val (pu_expectedVersion input) in
  throw_if (negb (bool_decide (po_version current = expectedVersion))) order_changed ;;
  (match items with
   | Some items => assertActiveReferences (po_supplierId current) (po_warehouseId current) (ln_variantId <$> items)
   | None => mret tt
   end) ;;
  update_order id expectedVersion PO_DRAFT (update_data input) ;;
  (match items with
   | Some items => delete_order_items id ;; for_each items (create_order_item id)
   | None => mret tt
   end) ;;
  row ← gets (fun d => orders (own d) !! id);
  row ← unwrap row P2025;
  audit_order "purchase-order.updated" id ctx
    (JObj [("changedFields", JArr (JStr <$> changed_fields input)); ("fromVersion", JNum (po_version current));
           ("toVersion", JNum (po_version row))]) ;;
  load_order id.

(** [transition(id, target, allowed, expectedVersion, context)] *)
Definition transition_order_tx (id : string) (target : PurchaseOrderStatus) (allowed : list PurchaseOrderStatus)
    (expectedVersion : number) (ctx : PurContext) : M (Domain PurTables) PurResponse :=
  current ← find_order id;
  items ← gets (fun d => order_rows id (own d));
  throw_if (negb (bool_decide (po_status current ∈ allowed)) ||
            existsb (fun i => negb (bool_decide (oi_receivedQty i = 0%Z))) items) order_state ;;
  throw_if (negb (bool_decide (po_version current = int_val expectedVersion))) order_changed ;;
  (if bool_decide (target = PO_APPROVED) then
     throw_if (bool_decide (items = [])) order_state ;;
     assertActiveReferences (po_supplierId current) (po_warehouseId current) (oi_variantId <$> items)
   else mret tt) ;;
  update_order id (int_val expectedVersion) (po_status current) (set_po_status target) ;;
  row ← gets (fun d => orders (own d) !! id);
  row ← unwrap row P2025;
  audit_order (if bool_decide (target = PO_APPROVED) then "purchase-order.approved" else "purchase-order.cancelled")
    id ctx (JObj [("from", JStr (po_status_name (po_status current))); ("to", JStr (po_status_name target));
                  ("fromVersion", JNum (po_version current)); ("toVersion", JNum (po_version row))]) ;;
  load_order id.

(** [new Map(order.items.map(item => [item.variantId, item]))] *)
Definition variant_map (items : list OrderItem) : gmap string OrderItem :=
  foldl (fun m i => <[oi_variantId i := i]> m) ∅ items.

(** [purchaseReceipt.create] *)
Definition create_receipt (number id warehouseId externalReference : string) (ctx : PurContext)
    : M (Domain PurTables) string :=
  rid ← on_inv (fresh_id cuid);
  now ← gets (fun d => clock (inv_of d));
  taken ← gets (fun d => receipts (own d) !! rid);
  dup ← gets (fun d => find_by (fun r => bool_decide (rc_number r = number) ||
    (bool_decide (rc_orderId r = id) && bool_decide (rc_externalReference r = externalReference))) (receipts (own d)));
  throw_if (bool_decide (is_Some taken) || bool_decide (is_Some dup)) P2002 ;;
  on_own (modify (fun x => set_receipts
    (<[rid := mkReceipt rid number id warehouseId externalReference (px_actorId ctx) now]> (receipts x)) x)) ;;
  mret rid.

(** [purchaseReceiptLine.create] *)
Definition create_receipt_line (l : ReceiptLine) : M (Domain PurTables) unit :=
  taken ← gets (fun d => receipt_lines (own d) !! rl_id l);
  dup ← gets (fun d => find_by (fun r => bool_decide (rl_movementId r = rl_movementId l) ||
    (bool_decide (rl_receiptId r = rl_receiptId l) && bool_decide (rl_itemId r = rl_itemId l) &&
     bool_decide (rl_locationId r = rl_locationId l))) (receipt_lines (own d)));
  throw_if (bool_decide (is_Some taken) || bool_decide (is_Some dup)) P2002 ;;
  on_own (modify (fun x => set_receipt_lines (<[rl_id l := l]> (receipt_lines x)) x)).

(** The loop body over the lines of [receive]. *)
Definition receive_line (rid warehouseId : string) (items : gmap string OrderItem) (ctx : PurContext)
    (entry : string * DeliveryLine) : M (Domain PurTables) unit :=
  let '(lineId, line) := entry in
  lock_in ["balance"; warehouseId; dl_locationId line; dl_variantId line] ;;
  let k := mkKey warehouseId (dl_locationId line) (dl_variantId line) in
  current ← gets (fun d => find_balance k (inv_of d));
  let beforeOnHand := from_option b_onHand 0%Z current in
  let reserved := from_option b_reserved 0%Z current in
  let afterOnHand := (beforeOnHand + dl_quantity line)%Z in
  let available := (afterOnHand - reserved)%Z in
  throw_if ((2147483647 <? afterOnHand)%Z || (2147483647 <? available)%Z)
    (conflictCode "INVENTORY_OVERFLOW" "Receipt exceeds supported inventory quantity.") ;;
  on_inv (upsert_balance cuid k afterOnHand reserved available
    (fun b => mkBalance (b_id b) (b_key b) afterOnHand (b_reserved b) available (b_version b + 1))) ;;
  movement ← on_inv (create_movement cuid k RECEIPT (dl_quantity line) beforeOnHand afterOnHand
    (Some "PurchaseReceiptLine") (Some lineId) None None);
  item ← unwrap (items !! dl_variantId line) undefined_item;
  create_receipt_line (mkReceiptLine lineId rid (oi_id item) (dl_locationId line) (dl_quantity line) (m_id movement)) ;;
  on_inv (record (mkAuditEvent "inventory.balance.changed" "inventory-movement" (Some (m_id movement)) None None
    (Some (JObj [("type", JStr "RECEIPT"); ("receiptId", JStr rid); ("warehouseId", JStr warehouseId);
       ("locationId", JStr (dl_locationId line)); ("variantId", JStr (dl_variantId line));
       ("quantity", JNum (dl_quantity line)); ("beforeOnHand", JNum beforeOnHand); ("afterOnHand", JNum afterOnHand)]))
    (Some (px_actorId ctx)) (px_requestId ctx))).

Definition add_received (n : Z) (i : OrderItem) : OrderItem :=
  mkOrderItem (oi_id i) (oi_orderId i) (oi_variantId i) (oi_orderedQty i) (oi_receivedQty i + n) (oi_unitCost i).

(** The loop body over the quantities: a guarded [updateMany] of one item. *)
Definition receive_quantity (items : gmap string OrderItem) (q : string * Z) : M (Domain PurTables) unit :=
  item ← unwrap (items !! fst q) undefined_item;
  row ← gets (fun d => order_items (own d) !! oi_id item);
  match row with
  | Some i =>
      if (oi_receivedQty i <=? oi_orderedQty item - snd q)%Z then
        throw_if (negb (int4 (oi_receivedQty i + snd q))) P2020 ;;
        on_own (modify (fun x => set_order_items (<[oi_id item := add_received (snd q) i]> (order_items x)) x))
      else mthrow (quantity_conflict "Purchase order quantity changed during receipt.")
  | None => mthrow (quantity_conflict "Purchase order quantity changed during receipt.")
  end.

(** Whether a receipt of these quantities completes the items as they were read. *)
Definition completes (quantities : list (string * Z)) (items : list OrderItem) : bool :=
  forallb (fun i => bool_decide (oi_receivedQty i + quantity_of (oi_variantId i) quantities = oi_orderedQty i)%Z) items.

(** [receive]; reference, lines and quantities are those of [receive_input]. *)
Definition receive_tx (uuid : nat -> string) (id : string) (expectedVersion : number) (externalReference : string)
    (lines : list DeliveryLine) (quantities : list (string * Z)) (ctx : PurContext) : M (Domain PurTables) PurResponse :=
  lock_in ["purchase-order-receive"; id] ;;
  order ← find_order id;
  rows ← gets (fun d => order_rows id (own d));
  warehouse ← gets (fun d => warehouses (inv_of d) !! po_warehouseId order);
  warehouse ← unwrap warehouse missing_relation;
  throw_if (negb (bool_decide (po_status order ∈ [PO_APPROVED; PO_PARTIALLY_RECEIVED]))) order_state ;;
  throw_if (negb (bool_decide (po_version order = int_val expectedVersion))) order_changed ;;
  throw_if (negb (w_isActive warehouse)) (conflictCode "WAREHOUSE_INACTIVE" "Warehouse is unavailable for receipt.") ;;
  delivered ← gets (fun d => find_by (fun r => bool_decide (rc_orderId r = id) &&
    bool_decide (rc_externalReference r = externalReference)) (receipts (own d)));
  throw_if (bool_decide (is_Some delivered)) (conflictCode "DELIVERY_REFERENCE_CONFLICT"
    "This delivery reference was already received for the purchase order.") ;;
  let items := variant_map rows in
  for_each quantities (fun q =>
    throw_if (match items !! fst q with
              | Some item => (oi_orderedQty item - oi_receivedQty item <? snd q)%Z
              | None => true
              end) (quantity_conflict "Receipt exceeds remaining purchase order quantity.")) ;;
  let locationIds := unique (dl_locationId <$> lines) in
  active ← gets (fun d => find_many (fun l => bool_decide (l_id l ∈ locationIds) &&
    bool_decide (l_warehouseId l = po_warehouseId order) && l_isActive l) (locations (inv_of d)));
  throw_if (negb (length active =? length locationIds)%nat)
    (conflictCode "LOCATION_INACTIVE" "Receipt location is not active in the purchase order warehouse.") ;;
  rid ← create_receipt ("RC-" +:+ compact_uuid (uuid 0)) id (po_warehouseId order) externalReference ctx;
  for_each (imap (fun i l => (uuid (S i), l)) lines) (receive_line rid (po_warehouseId order) items ctx) ;;
  for_each quantities (receive_quantity items) ;;
  let next := if completes quantities rows then PO_RECEIVED else PO_PARTIALLY_RECEIVED in
  update_order id (int_val expectedVersion) (po_status order) (set_po_status next) ;;
  audit_order "purchase-order.received" id ctx
    (JObj [("receiptId", JStr rid); ("lineCount", JNum (Z.of_nat (length lines)));
           ("from", JStr (po_status_name (po_status order))); ("to", JStr (po_status_name next));
           ("fromVersion", JNum (po_version order)); ("toVersion", JNum (po_version order + 1))]) ;;
  row ← gets (fun d => receipts (own d) !! rid);
  row ← unwrap row P2025;
  r ← gets (fun d => publicReceipt collate (own d) row);
  r ← lift_result r;
  mret (RReceipt r).

(** * Commands *)

Inductive PurCommand :=
  | PurReceive (uuid : nat -> string) (id : string) (input : PurchaseReceiptCreateDto)
  | PurCreate (uuid : nat -> string) (input : PurchaseOrderCreateDto)
  | PurUpdate (id : string) (input : PurchaseOrderUpdateDto)
  | PurApprove (id : string) (expectedVersion : number)
  | PurCancel (id : string) (expectedVersion : number).

Definition jnumber (n : number) : json := JNum (int_val n).
Definition jdate (t : option DateText) : json := jopt (d_text <$> t).
Definition line_json (l : Line) : json :=
  JObj [("variantId", JStr (ln_variantId l)); ("orderedQty", JNum (ln_orderedQty l));
        ("unitCost", JStr (pretty (ln_unitCost l)))].
Definition delivery_json (l : DeliveryLine) : json :=
  JObj [("variantId", JStr (dl_variantId l)); ("locationId", JStr (dl_locationId l)); ("quantity", JNum (dl_quantity l))].
Definition update_payload (input : PurchaseOrderUpdateDto) (items : option (list Line)) : json :=
  JObj ([("expectedVersion", jnumber (pu_expectedVersion input))] ++
    match pu_expectedAt input with Some t => [("expectedAt", jdate t)] | None => [] end ++
    match pu_notes input with Some n => [("notes", jopt n)] | None => [] end ++
    match items with Some ls => [("items", JArr (line_json <$> ls))] | None => [] end).

(** Scope, payload and body of a command, after the checks of its method. *)
Definition prepare_order (cmd : PurCommand) (ctx : PurContext)
    : result (string * json * M (Domain PurTables) PurResponse) :=
  match cmd with
  | PurReceive uuid id input =>
      checked ← receive_input id input;
      let '(externalReference, lines, quantities) := checked in
      Ok ("receive:" +:+ id,
          JObj [("expectedVersion", jnumber (rx_expectedVersion input)); ("externalReference", JStr externalReference);
                ("lines", JArr (delivery_json <$> lines))],
          receive_tx uuid id (rx_expectedVersion input) externalReference lines quantities ctx)
  | PurCreate uuid input =>
      items ← normalizeLines (pc_items input);
      Ok ("create",
          JObj [("supplierId", JStr (pc_supplierId input)); ("warehouseId", JStr (pc_warehouseId input));
                ("expectedAt", jdate (pc_expectedAt input)); ("notes", jopt (pc_notes input));
                ("items", JArr (line_json <$> items))],
          create_order_tx uuid input items ctx)
  | PurUpdate id input =>
      assertCommandTarget id (pu_expectedVersion input) ;;
      if bool_decide (pu_items input = None) && bool_decide (pu_expectedAt input = None) &&
         bool_decide (pu_notes input = None)
      then Err (pur_validation "At least one draft field must change.")
      else
        items ← (match pu_items input with
                 | Some items => checked ← normalizeLines items; Ok (Some checked)
                 | None => Ok None
                 end);
        Ok ("update:" +:+ id, update_payload input items, update_order_tx id input items ctx)
  | PurApprove id v =>
      assertCommandTarget id v ;;
      Ok ("approved:" +:+ id, JObj [("expectedVersion", jnumber v)],
          transition_order_tx id PO_APPROVED [PO_DRAFT] v ctx)
  | PurCancel id v =>
      assertCommandTarget id v ;;
      Ok ("cancelled:" +:+ id, JObj [("expectedVersion", jnumber v)],
          transition_order_tx id PO_CANCELLED [PO_DRAFT; PO_APPROVED] v ctx)
  end.

Definition pur_texts : CommandTexts := mkTexts "purchase-order-command"
  (pur_validation "Idempotency-Key must contain 8–96 ASCII letters, digits, underscores or hyphens.")
  (conflictCode "IDEMPOTENCY_CONFLICT" "Key reused with another purchase order command.")
  stillCommitting
  (conflictCode "RETRYABLE_CONFLICT" "Concurrent purchase order command; retry with the same key.").

Context (hash : string -> string).

Definition pur_command_id (scope : string) (payload : json) (ctx : PurContext) : CommandId :=
  mkCommandId (px_actorId ctx) scope (hash (px_idempotencyKey ctx)) (hash (stableJson payload)).

Definition pur_store : Type := Store PurTables PurResponse.

(** The transaction of a command: the response is the result of its body. *)
Definition pur_tx (scope : string) (payload : json) (ctx : PurContext) (body : M (Domain PurTables) PurResponse)
    : M pur_store PurResponse :=
  command_tx cuid pur_texts (pur_command_id scope payload ctx) body mret (fun r => r).

(** [receive], [create], [update], [approve] and [cancel] as a caller runs them. *)
Definition run_purchasing (E : env pur_store) (cmd : PurCommand) (ctx : PurContext) (s : pur_store)
    : result PurResponse * pur_store :=
  match prepare_order cmd ctx with
  | Err e => (Err e, s)
  | Ok (scope, payload, body) =>
      if negb (keyPattern (px_idempotencyKey ctx)) then (Err (ct_badKey pur_texts), s)
      else command_loop E pur_texts (pur_tx scope payload ctx body) s
  end.
End service.
