(* ===== verification/Stocktake.v ===== *)
(** Stocktakes: the count sheets of
    [src/apps/api/src/modules/stocktake/stocktake.service.ts], from creation over the
    blind count and the review to the approval that sets the ledger to the counted
    quantities.  Every mutation is a durable command on the inventory tables and the
    tables below.

    Parameters: the database's identifiers and text order, its case-insensitive
    [contains], and the SHA-256 digest.  [now] is what [new Date()] returns and [uuid]
    what [randomUUID()] returns. *)

From S2P Require Import Prelude Table Paging Json StableJson AuditTrail Retry InventoryModel Inventory.
From S2P Require Import Durable.

(** * Data *)

Inductive StocktakeStatus := S_DRAFT | S_COUNTING | S_REVIEW | S_COMPLETED | S_CANCELLED.
Inductive StocktakeScopeType := SC_WAREHOUSE | SC_LOCATIONS | SC_VARIANTS.
#[export] Instance StocktakeStatus_eq_dec : EqDecision StocktakeStatus.
Proof. solve_decision. Defined.
#[export] Instance StocktakeScopeType_eq_dec : EqDecision StocktakeScopeType.
Proof. solve_decision. Defined.

Definition status_name (s : StocktakeStatus) : string :=
  match s with
  | S_DRAFT => "DRAFT" | S_COUNTING => "COUNTING" | S_REVIEW => "REVIEW"
  | S_COMPLETED => "COMPLETED" | S_CANCELLED => "CANCELLED"
  end.
Definition scope_name (s : StocktakeScopeType) : string :=
  match s with SC_WAREHOUSE => "WAREHOUSE" | SC_LOCATIONS => "LOCATIONS" | SC_VARIANTS => "VARIANTS" end.

Record StocktakeRow := mkStocktake {
  st_id : string;
  st_number : string;
  st_warehouseId : string;
  st_status : StocktakeStatus;
  st_scopeType : StocktakeScopeType;
  st_scope : json;
  st_version : Z;
  st_notes : option string;
  st_createdById : string;
  st_countedById : option string;
  st_approvedById : option string;
  st_startedAt : option Z;
  st_submittedAt : option Z;
  st_completedAt : option Z;
  st_cancelledAt : option Z;
  st_createdAt : Z
}.

Record StocktakeItem := mkItem {
  si_id : string;
  si_stocktakeId : string;
  si_locationId : string;
  si_variantId : string;
  si_expectedQty : Z;
  si_countedQty : option Z;
  si_difference : option Z;
  si_countedAt : option Z;
  si_movementId : option string;
  si_notes : option string;
  si_countedById : option string
}.

(** The columns of [ProductVariant] and its product that the service reads. *)
Record VariantInfo := mkVariantInfo { v_id : string; v_sku : string; v_title : option string; v_productName : string }.

Record StkTables := mkStkTables {
  stocktakes : gmap string StocktakeRow;
  stk_items : gmap string StocktakeItem;
  variantInfos : gmap string VariantInfo
}.
Definition set_stocktakes (t : gmap string StocktakeRow) (x : StkTables) : StkTables :=
  mkStkTables t (stk_items x) (variantInfos x).
Definition set_items (t : gmap string StocktakeItem) (x : StkTables) : StkTables :=
  mkStkTables (stocktakes x) t (variantInfos x).

(** Responses.  A property that the response omits is [None]. *)
Record StocktakeLine := mkLine {
  sl_id : string;
  sl_locationId : string;
  sl_locationCode : string;
  sl_locationName : option string;
  sl_variantId : string;
  sl_sku : string;
  sl_productName : string;
  sl_variantTitle : option string;
  sl_expectedQty : option Z;
  sl_countedQty : option Z;
  sl_difference : option (option Z);
  sl_countedAt : option Z;
  sl_notes : option string;
  sl_countedById : option string;
  sl_movementId : option string
}.
Record StocktakeSummary := mkSummary {
  sm_totalLines : Z;
  sm_countedLines : Z;
  sm_pendingLines : Z;
  sm_netDifference : option Z
}.
Record StocktakeDetail := mkDetail {
  sd_row : StocktakeRow;
  sd_warehouseCode : string;
  sd_warehouseName : string;
  sd_summary : StocktakeSummary;
  sd_lines : list StocktakeLine
}.
(** [Stocktake], an entry of the list: a detail without its lines. *)
Record StocktakeListItem := mkListItem {
  sli_row : StocktakeRow;
  sli_warehouseCode : string;
  sli_warehouseName : string;
  sli_summary : StocktakeSummary
}.

(** * Inputs *)

Record StocktakeContext := mkContext {
  sx_actorId : string;
  sx_requestId : option string;
  sx_idempotencyKey : string;
  sx_canApprove : bool
}.
Record StocktakeCreateDto := mkCreate {
  sc_warehouseId : string;
  sc_scopeType : option StocktakeScopeType;
  sc_locationIds : option (list string);
  sc_variantIds : option (list string);
  sc_notes : option string
}.
Record StocktakeLineInput := mkLineInput {
  sn_locationId : string;
  sn_variantId : string;
  sn_countedQty : number;
  sn_notes : option string
}.
(** A line that [normalizeCounts] returns. *)
Record CountLine := mkCountLine {
  cl_locationId : string;
  cl_variantId : string;
  cl_countedQty : Z;
  cl_notes : option string
}.

(** * Constants and errors *)

Definition MAX_QTY : Z := 2147483647.
Definition MAX_STOCKTAKE_LINES : Z := 500.

Definition stk_validation (message : string) : exn :=
  HttpException BadRequestException (Some "VALIDATION_ERROR") message.
Definition missing : exn := notFound "STOCKTAKE_NOT_FOUND" "Stocktake not found.".
Definition versionConflict : exn :=
  conflictCode "STOCKTAKE_VERSION_CONFLICT" "Stocktake changed; reload before continuing.".
Definition stateConflict (message : string) : exn := conflictCode "STOCKTAKE_STATE_CONFLICT" message.
Definition lineRequired (message : string) : exn := conflictCode "STOCKTAKE_LINE_REQUIRED" message.
Definition notFullyCounted (message : string) : exn := conflictCode "STOCKTAKE_NOT_FULLY_COUNTED" message.
Definition reservedExceedsCount : exn :=
  conflictCode "STOCKTAKE_RESERVED_EXCEEDS_COUNT"
    "Counted quantity is lower than reserved stock; reservations must be released first.".
Definition inconsistentRelation : exn :=
  JsError "PrismaClientUnknownRequestError" "Inconsistent query result: a required relation is missing.".

(** Template keys: [`${locationId}\u0000${variantId}`]. *)
Definition line_key (locationId variantId : string) : string :=
  locationId +:+ String.String Ascii.zero variantId.
Definition item_key (i : StocktakeItem) : string := line_key (si_locationId i) (si_variantId i).
Definition count_key (l : CountLine) : string := line_key (cl_locationId l) (cl_variantId l).

(** * Responses *)

Section responses.
Context (collate : string -> string -> Z) (icontains : string -> string -> bool) (scan : forall R, list R -> list R).

(** [orderBy: [{ locationId: 'asc' }, { variantId: 'asc' }]] *)
Definition by_place (a b : StocktakeItem) : Z :=
  if bool_decide (collate (si_locationId a) (si_locationId b) = 0%Z)
  then collate (si_variantId a) (si_variantId b) else collate (si_locationId a) (si_locationId b).

(** The items of a stocktake in the order of its detail. *)
Definition items_of (id : string) (x : StkTables) : list StocktakeItem :=
  js_sort by_place (find_many (fun i => bool_decide (si_stocktakeId i = id)) (stk_items x)).

Definition toLine (d : Domain StkTables) (canApprove : bool) (item : StocktakeItem) : result StocktakeLine :=
  match locations (inv_of d) !! si_locationId item, variantInfos (own d) !! si_variantId item with
  | Some location, Some variant =>
      Ok (mkLine (si_id item) (si_locationId item) (l_code location) (l_name location) (si_variantId item)
        (v_sku variant) (v_productName variant) (v_title variant)
        (if canApprove then Some (si_expectedQty item) else None)
        (si_countedQty item)
        (if canApprove then Some (si_difference item) else None)
        (si_countedAt item) (si_notes item) (si_countedById item) (si_movementId item))
  | _, _ => Err inconsistentRelation
  end.

(** [lines(row, canApprove)] *)
Fixpoint lines (d : Domain StkTables) (canApprove : bool) (items : list StocktakeItem)
    : result (list StocktakeLine) :=
  match items with
  | [] => Ok []
  | item :: items =>
      line ← toLine d canApprove item;
      rest ← lines d canApprove items;
      Ok (line :: rest)
  end.

(** [summary(items, canApprove)] *)
Definition summary (items : list StocktakeItem) (canApprove : bool) : StocktakeSummary :=
  let countedLines := Z.of_nat (length (List.filter (fun i => bool_decide (is_Some (si_countedQty i))) items)) in
  let total := Z.of_nat (length items) in
  mkSummary total countedLines (total - countedLines)
    (if canApprove then Some (sumZ (fun i => default 0%Z (si_difference i)) items) else None).

(** [toDetail(row, canApprove)] *)
Definition toDetail (d : Domain StkTables) (row : StocktakeRow) (canApprove : bool) : result StocktakeDetail :=
  let items := items_of (st_id row) (own d) in
  match warehouses (inv_of d) !! st_warehouseId row with
  | Some warehouse =>
      ls ← lines d canApprove items;
      Ok (mkDetail row (w_code warehouse) (w_name warehouse) (summary items canApprove) ls)
  | None => Err inconsistentRelation
  end.

(** [toListItem(row, canApprove)] *)
Definition toListItem (d : Domain StkTables) (canApprove : bool) (row : StocktakeRow) : result StocktakeListItem :=
  match warehouses (inv_of d) !! st_warehouseId row with
  | Some warehouse =>
      Ok (mkListItem row (w_code warehouse) (w_name warehouse) (summary (items_of (st_id row) (own d)) canApprove))
  | None => Err inconsistentRelation
  end.

(** [authorizedResponse(response, canApprove)] *)
Definition authorizedResponse (canApprove : bool) (response : StocktakeDetail) : StocktakeDetail :=
  if canApprove then response
  else
    let s := sd_summary response in
    mkDetail (sd_row response) (sd_warehouseCode response) (sd_warehouseName response)
      (mkSummary (sm_totalLines s) (sm_countedLines s) (sm_pendingLines s) None)
      ((fun l => mkLine (sl_id l) (sl_locationId l) (sl_locationCode l) (sl_locationName l) (sl_variantId l)
          (sl_sku l) (sl_productName l) (sl_variantTitle l) None (sl_countedQty l) None (sl_countedAt l)
          (sl_notes l) (sl_countedById l) (sl_movementId l)) <$> sd_lines response).

(** * Queries *)

Record StocktakeListQuery := mkListQuery {
  lq_status : option StocktakeStatus;
  lq_warehouseId : option string;
  lq_offset : Z;
  lq_limit : Z
}.

(** [orderBy: [{ createdAt: 'desc' }, { id: 'desc' }]] *)
Definition newest_first (a b : StocktakeRow) : Z :=
  if bool_decide (st_createdAt a = st_createdAt b) then collate (st_id b) (st_id a)
  else (st_createdAt b - st_createdAt a)%Z.

Definition listed (query : StocktakeListQuery) (row : StocktakeRow) : bool :=
  from_option (fun s => bool_decide (st_status row = s)) true (lq_status query) &&
  from_option (fun w => bool_decide (st_warehouseId row = w)) true (lq_warehouseId query).

Fixpoint all_ok {A B} (f : A -> result B) (xs : list A) : result (list B) :=
  match xs with
  | [] => Ok []
  | x :: xs => y ← f x; ys ← all_ok f xs; Ok (y :: ys)
  end.

(** [list(query, context)] *)
Definition list_stocktakes (query : StocktakeListQuery) (ctx : StocktakeContext) (d : Domain StkTables)
    : result (list StocktakeListItem * Z) :=
  let rows := js_sort newest_first (find_many (listed query) (stocktakes (own d))) in
  items ← all_ok (toListItem d (sx_canApprove ctx)) (page (lq_offset query) (lq_limit query) rows);
  Ok (items, count_rows (listed query) (stocktakes (own d))).

(** [get(id, context)] *)
Definition get_stocktake (id : string) (ctx : StocktakeContext) (d : Domain StkTables) : result StocktakeDetail :=
  match stocktakes (own d) !! id with
  | Some row => toDetail d row (sx_canApprove ctx)
  | None => Err missing
  end.

(** [warehouses(query)], [locations(query)] and [variants(query)] *)
Definition warehouse_options (search : option string) (offset limit : Z) (d : Domain StkTables) : list OptionItem * Z :=
  page_options (fun w => mkOption (w_id w) (w_code w) (w_name w))
    (list_page (scan _) (then_by (by_text collate w_code) (by_text collate w_id))
      (fun w => w_isActive w && contains_any icontains (default EmptyString search) [Some (w_code w); Some (w_name w)])
      offset limit (warehouses (inv_of d))).

(** An absent [warehouseId] leaves its condition out. *)
Definition location_options (warehouse search : option string) (offset limit : Z) (d : Domain StkTables)
    : list OptionItem * Z :=
  page_options (fun l => mkOption (l_id l) (l_code l) (default (l_code l) (l_name l)))
    (list_page (scan _) (by_text collate l_code)
      (fun l => from_option (fun w => bool_decide (l_warehouseId l = w)) true warehouse && l_isActive l &&
         contains_any icontains (default EmptyString search) [Some (l_code l); l_name l])
      offset limit (locations (inv_of d))).

Definition variant_options (search : option string) (offset limit : Z) (d : Domain StkTables) : list OptionItem * Z :=
  page_options (fun v => mkOption (v_id v) (v_sku v)
      (if truthy_opt (v_title v) then v_productName v +:+ " — " +:+ default EmptyString (v_title v)
       else v_productName v))
    (list_page (scan _) (by_text collate v_sku)
      (fun v => contains_any icontains (default EmptyString search) [Some (v_sku v); v_title v; Some (v_productName v)])
      offset limit (variantInfos (own d))).

(** [load(tx, id)] and the projection [toDetail(row, true)] of every command. *)
Definition load_detail (id : string) : M (Domain StkTables) StocktakeDetail :=
  row ← gets (fun d => stocktakes (own d) !! id);
  row ← unwrap row missing;
  detail ← gets (fun d => toDetail d row true);
  lift_result detail.
End responses.

(** * Input checks *)

(** The checks of [create] before its command, with the distinct ids of its scope. *)
Definition create_input (input : StocktakeCreateDto)
    : result (StocktakeScopeType * list string * list string) :=
  let scopeType := default SC_WAREHOUSE (sc_scopeType input) in
  if bool_decide (scopeType = SC_LOCATIONS) && bool_decide (default [] (sc_locationIds input) = []) then
    Err (HttpException BadRequestException (Some "STOCKTAKE_LOCATION_REQUIRED")
           "Choose at least one location to count.")
  else if bool_decide (scopeType = SC_VARIANTS) && bool_decide (default [] (sc_variantIds input) = []) then
    Err (stk_validation "Choose at least one SKU to count.")
  else
    let locationIds := unique (default [] (sc_locationIds input)) in
    let variantIds := unique (default [] (sc_variantIds input)) in
    if (negb (bool_decide (scopeType = SC_LOCATIONS)) && negb (bool_decide (locationIds = []))) ||
       (negb (bool_decide (scopeType = SC_VARIANTS)) && negb (bool_decide (variantIds = [])))
    then Err (stk_validation "Scope IDs must match the selected scope type.")
    else Ok (scopeType, locationIds, variantIds).

(** The callback of [lines.map] in [normalizeCounts], with its set of keys. *)
Fixpoint check_counts (seen : list string) (ls : list StocktakeLineInput) : result (list CountLine) :=
  match ls with
  | [] => Ok []
  | l :: ls =>
      let key := line_key (sn_locationId l) (sn_variantId l) in
      if bool_decide (key ∈ seen) then
        Err (HttpException BadRequestException (Some "STOCKTAKE_LINE_CONFLICT")
               "Duplicate count line for the same location and SKU.")
      else if negb (isInteger (sn_countedQty l)) || (int_val (sn_countedQty l) <? 0)%Z ||
              (MAX_QTY <? int_val (sn_countedQty l))%Z then
        Err (stk_validation "Counted quantity must be a whole number within the inventory integer range.")
      else
        rest ← check_counts (key :: seen) ls;
        Ok (mkCountLine (sn_locationId l) (sn_variantId l) (int_val (sn_countedQty l)) (sn_notes l) :: rest)
  end.

Definition by_count_place (a b : CountLine) : Z :=
  if js_ltb (cl_locationId a) (cl_locationId b) then -1
  else if js_ltb (cl_locationId b) (cl_locationId a) then 1
  else byCodeUnit (cl_variantId a) (cl_variantId b).

(** [normalizeCounts(lines)] *)
Definition normalizeCounts (ls : list StocktakeLineInput) : result (list CountLine) :=
  if bool_decide (ls = []) || (500 <? length ls)%nat then
    Err (stk_validation "A count needs 1–500 lines.")
  else
    checked ← check_counts [] ls;
    Ok (js_sort by_count_place checked).

(** * Bodies of the commands *)

Section service.
Context (cuid : nat -> string) (collate : string -> string -> Z).

Definition audit (action : string) (id : string) (ctx : StocktakeContext) (metadata : json)
    : M (Domain StkTables) unit :=
  on_inv (record (mkAuditEvent action "Stocktake" (Some id) None None (Some metadata)
    (Some (sx_actorId ctx)) (sx_requestId ctx))).

(** [pg_advisory_xact_lock] of the session *)
Definition session_lock (id : string) : M (Domain StkTables) unit := lock_in ["stocktake-session"; id].

Definition find_session (id : string) : M (Domain StkTables) StocktakeRow :=
  row ← gets (fun d => stocktakes (own d) !! id);
  unwrap row missing.

Definition check_version (row : StocktakeRow) (expectedVersion : Z) : M (Domain StkTables) unit :=
  throw_if (negb (bool_decide (st_version row = expectedVersion))) versionConflict.

(** The columns that a transition may write besides the status and the version. *)
Definition with_status (s : StocktakeStatus) (r : StocktakeRow) : StocktakeRow :=
  mkStocktake (st_id r) (st_number r) (st_warehouseId r) s (st_scopeType r) (st_scope r) (st_version r)
    (st_notes r) (st_createdById r) (st_countedById r) (st_approvedById r) (st_startedAt r)
    (st_submittedAt r) (st_completedAt r) (st_cancelledAt r) (st_createdAt r).
Definition bump_version (r : StocktakeRow) : StocktakeRow :=
  mkStocktake (st_id r) (st_number r) (st_warehouseId r) (st_status r) (st_scopeType r) (st_scope r)
    (st_version r + 1) (st_notes r) (st_createdById r) (st_countedById r) (st_approvedById r) (st_startedAt r)
    (st_submittedAt r) (st_completedAt r) (st_cancelledAt r) (st_createdAt r).

(** [stocktake.updateMany({ where: { id, version, status }, data })] and the check
    that one row changed; [data] increments the version. *)
Definition update_session (id : string) (expectedVersion : Z) (status : StocktakeStatus)
    (data : StocktakeRow -> StocktakeRow) : M (Domain StkTables) unit :=
  row ← gets (fun d => stocktakes (own d) !! id);
  match row with
  | Some r =>
      if bool_decide (st_version r = expectedVersion) && bool_decide (st_status r = status) then
        throw_if (negb (int4 (st_version r + 1))) P2020 ;;
        on_own (modify (fun x => set_stocktakes (<[id := bump_version (data r)]> (stocktakes x)) x))
      else mthrow versionConflict
  | None => mthrow versionConflict
  end.

(** [create] *)
Definition create_tx (uuid : string) (now : Z) (input : StocktakeCreateDto) (scopeType : StocktakeScopeType)
    (locationIds variantIds : list string) (ctx : StocktakeContext) : M (Domain StkTables) string :=
  warehouse ← gets (fun d => warehouses (inv_of d) !! sc_warehouseId input);
  throw_if (negb (from_option w_isActive false warehouse))
    (conflictCode "WAREHOUSE_INACTIVE" "Warehouse is unavailable for stocktake.") ;;
  (if bool_decide (locationIds = []) then mret tt
   else
     found ← gets (fun d => count_rows (fun l => bool_decide (l_id l ∈ locationIds) &&
       bool_decide (l_warehouseId l = sc_warehouseId input) && l_isActive l) (locations (inv_of d)));
     throw_if (negb (bool_decide (found = Z.of_nat (length locationIds))))
       (conflictCode "LOCATION_INACTIVE" "Count location is not active in this warehouse.")) ;;
  (if bool_decide (variantIds = []) then mret tt
   else
     found ← gets (fun d => count_rows (fun v => bool_decide (v_id v ∈ variantIds)) (variantInfos (own d)));
     throw_if (negb (bool_decide (found = Z.of_nat (length variantIds))))
       (stk_validation "One or more count SKUs do not exist.")) ;;
  id ← on_inv (fresh_id cuid);
  taken ← gets (fun d => stocktakes (own d) !! id);
  let number := "ST-" +:+ compact_uuid uuid in
  dup ← gets (fun d => find_by (fun r => bool_decide (st_number r = number)) (stocktakes (own d)));
  throw_if (bool_decide (is_Some taken) || bool_decide (is_Some dup)) P2002 ;;
  let row := mkStocktake id number (sc_warehouseId input) S_DRAFT scopeType
    (JObj [("locationIds", JArr (JStr <$> locationIds)); ("variantIds", JArr (JStr <$> variantIds))])
    0 (sc_notes input) (sx_actorId ctx) None None None None None None now in
  on_own (modify (fun x => set_stocktakes (<[id := row]> (stocktakes x)) x)) ;;
  audit "stocktake.created" id ctx
    (JObj [("warehouseId", JStr (sc_warehouseId input)); ("scopeType", JStr (scope_name scopeType))]) ;;
  mret id.

(** [asIds(value)] *)
Definition asIds (value : option json) : list string :=
  match value with
  | Some (JArr l) => omap (fun j => match j with JStr s => Some s | _ => None end) l
  | _ => []
  end.
(** [pinned.field] *)
Definition field (name : string) (j : json) : option json :=
  match j with
  | JObj fs => snd <$> List.find (fun kv => bool_decide (fst kv = name)) fs
  | _ => None
  end.

(** [scopeFilter(row)] *)
Definition scopeFilter (row : StocktakeRow) (k : StockKey) : bool :=
  match st_scopeType row with
  | SC_WAREHOUSE => true
  | SC_LOCATIONS => bool_decide (locationId k ∈ asIds (field "locationIds" (st_scope row)))
  | SC_VARIANTS => bool_decide (variantId k ∈ asIds (field "variantIds" (st_scope row)))
  end.

Definition by_balance_place (a b : InventoryBalance) : Z :=
  if bool_decide (collate (locationId (b_key a)) (locationId (b_key b)) = 0%Z)
  then collate (variantId (b_key a)) (variantId (b_key b))
  else collate (locationId (b_key a)) (locationId (b_key b)).

Definition in_scope (row : StocktakeRow) (b : InventoryBalance) : bool :=
  bool_decide (warehouseId (b_key b) = st_warehouseId row) && scopeFilter row (b_key b) &&
  ((0 <? b_onHand b)%Z || (0 <? b_reserved b)%Z).

(** [scopeBalances(tx, row)] *)
Definition scopeBalances (row : StocktakeRow) : M (Domain StkTables) (list InventoryBalance) :=
  found ← gets (fun d => page 0 (MAX_STOCKTAKE_LINES + 1)
    (js_sort by_balance_place (find_many (in_scope row) (balances (inv_of d)))));
  throw_if (MAX_STOCKTAKE_LINES <? Z.of_nat (length found))%Z
    (conflictCode "STOCKTAKE_SCOPE_TOO_LARGE"
      "Count sheets support at most 500 lines; select a narrower location or SKU scope.") ;;
  mret found.

(** A row of [stocktakeItem.createMany]. *)
Definition create_item (stocktakeId : string) (b : InventoryBalance) : M (Domain StkTables) unit :=
  id ← on_inv (fresh_id cuid);
  taken ← gets (fun d => stk_items (own d) !! id);
  dup ← gets (fun d => find_by (fun i => bool_decide (si_stocktakeId i = stocktakeId) &&
    bool_decide (si_locationId i = locationId (b_key b)) && bool_decide (si_variantId i = variantId (b_key b)))
    (stk_items (own d)));
  throw_if (bool_decide (is_Some taken) || bool_decide (is_Some dup)) P2002 ;;
  on_own (modify (fun x => set_items (<[id := mkItem id stocktakeId (locationId (b_key b)) (variantId (b_key b))
    (b_onHand b) None None None None None None]> (stk_items x)) x)).

Definition transition_metadata (lineCount : option Z) (extra : list (string * json)) (from to : StocktakeStatus)
    (version : Z) : json :=
  JObj (extra ++ match lineCount with Some n => [("lineCount", JNum n)] | None => [] end ++
    [("from", JStr (status_name from)); ("to", JStr (status_name to));
     ("fromVersion", JNum version); ("toVersion", JNum (version + 1))]).

(** [start] *)
Definition start_tx (now : Z) (id : string) (expectedVersion : Z) (ctx : StocktakeContext)
    : M (Domain StkTables) string :=
  session_lock id ;;
  row ← find_session id;
  throw_if (negb (bool_decide (st_status row = S_DRAFT)))
    (stateConflict "Only a draft stocktake can start counting.") ;;
  check_version row expectedVersion ;;
  update_session id expectedVersion S_DRAFT (fun r =>
    let r := with_status S_COUNTING r in
    mkStocktake (st_id r) (st_number r) (st_warehouseId r) (st_status r) (st_scopeType r) (st_scope r)
      (st_version r) (st_notes r) (st_createdById r) (Some (sx_actorId ctx)) (st_approvedById r) (Some now)
      (st_submittedAt r) (st_completedAt r) (st_cancelledAt r) (st_createdAt r)) ;;
  found ← scopeBalances row;
  throw_if (bool_decide (found = [])) (lineRequired "This scope has no stock on hand to count.") ;;
  for_each found (create_item id) ;;
  audit "stocktake.started" id ctx
    (transition_metadata (Some (Z.of_nat (length found))) [] S_DRAFT S_COUNTING (st_version row)) ;;
  mret id.

(** [new Map(row.items.map(item => [key, item]))]: a later item of the same key wins. *)
Definition item_map (items : list StocktakeItem) : gmap string StocktakeItem :=
  foldl (fun m i => <[item_key i := i]> m) ∅ items.

(** [stocktakeItem.update({ where: { id }, data })] *)
Definition update_item (id : string) (data : StocktakeItem -> StocktakeItem) : M (Domain StkTables) unit :=
  row ← gets (fun d => stk_items (own d) !! id);
  i ← unwrap row P2025;
  on_own (modify (fun x => set_items (<[id := data i]> (stk_items x)) x)).

Definition record_count (now : Z) (ctx : StocktakeContext) (l : CountLine) (difference : Z)
    (i : StocktakeItem) : StocktakeItem :=
  mkItem (si_id i) (si_stocktakeId i) (si_locationId i) (si_variantId i) (si_expectedQty i)
    (Some (cl_countedQty l)) (Some difference) (Some now) (si_movementId i) (cl_notes l)
    (Some (sx_actorId ctx)).

Definition undefined_property : exn := JsError "TypeError" "Cannot read properties of undefined".

(** [count]; [items] is the map of the items as they were read. *)
Definition count_tx (now : Z) (id : string) (expectedVersion : Z) (ls : list CountLine)
    (ctx : StocktakeContext) : M (Domain StkTables) string :=
  session_lock id ;;
  row ← find_session id;
  items ← gets (fun d => item_map (find_many (fun i => bool_decide (si_stocktakeId i = id)) (stk_items (own d))));
  throw_if (negb (bool_decide (st_status row = S_COUNTING)))
    (stateConflict "Counts can only be recorded before submission for review.") ;;
  check_version row expectedVersion ;;
  for_each ls (fun l => throw_if (negb (bool_decide (is_Some (items !! count_key l))))
    (HttpException BadRequestException (Some "STOCKTAKE_OUT_OF_SCOPE")
      "Counted line is not part of this stocktake sheet.")) ;;
  for_each ls (fun l =>
    item ← unwrap (items !! count_key l) undefined_property;
    let difference := (cl_countedQty l - si_expectedQty item)%Z in
    throw_if (negb (int4 difference)) P2020 ;;
    update_item (si_id item) (record_count now ctx l difference)) ;;
  update_session id expectedVersion (st_status row) (fun r => r) ;;
  audit "stocktake.counted" id ctx (JObj [("lineCount", JNum (Z.of_nat (length ls)));
    ("netDifference", JNum (sumZ (fun l => cl_countedQty l - from_option si_expectedQty 0 (items !! count_key l))%Z ls));
    ("fromVersion", JNum (st_version row)); ("toVersion", JNum (st_version row + 1))]) ;;
  mret id.

Definition session_items (id : string) (d : Domain StkTables) : list StocktakeItem :=
  find_many (fun i => bool_decide (si_stocktakeId i = id)) (stk_items (own d)).
Definition uncounted (items : list StocktakeItem) : bool :=
  existsb (fun i => bool_decide (si_countedQty i = None)) items.

(** [submit] *)
Definition submit_tx (now : Z) (id : string) (expectedVersion : Z) (ctx : StocktakeContext)
    : M (Domain StkTables) string :=
  session_lock id ;;
  row ← find_session id;
  items ← gets (session_items id);
  throw_if (negb (bool_decide (st_status row = S_COUNTING)))
    (stateConflict "Only a counting stocktake can be submitted for review.") ;;
  check_version row expectedVersion ;;
  throw_if (bool_decide (items = []) || uncounted items)
    (notFullyCounted "Every line must be counted before submission.") ;;
  update_session id expectedVersion S_COUNTING (fun r =>
    let r := with_status S_REVIEW r in
    mkStocktake (st_id r) (st_number r) (st_warehouseId r) (st_status r) (st_scopeType r) (st_scope r)
      (st_version r) (st_notes r) (st_createdById r) (st_countedById r) (st_approvedById r) (st_startedAt r)
      (Some now) (st_completedAt r) (st_cancelledAt r) (st_createdAt r)) ;;
  audit "stocktake.submitted" id ctx
    (transition_metadata (Some (Z.of_nat (length items)))
      [("countedLines", JNum (Z.of_nat (length (List.filter (fun i => bool_decide (is_Some (si_countedQty i))) items))))]
      S_COUNTING S_REVIEW (st_version row)) ;;
  mret id.

Definition set_movement (movement : option string) (i : StocktakeItem) : StocktakeItem :=
  mkItem (si_id i) (si_stocktakeId i) (si_locationId i) (si_variantId i) (si_expectedQty i)
    (si_countedQty i) (si_difference i) (si_countedAt i) movement (si_notes i) (si_countedById i).

(** The movement of a line whose count differs from the ledger, with its audit row. *)
Definition adjust (row : StocktakeRow) (ctx : StocktakeContext) (item : StocktakeItem) (k : StockKey)
    (beforeOnHand countedQty : Z) : M (Domain StkTables) (option string) :=
  let delta := (countedQty - beforeOnHand)%Z in
  movement ← on_inv (create_movement cuid k STOCKTAKE delta beforeOnHand countedQty (Some "StocktakeItem")
    (Some (si_id item)) (Some ("Physical count approved for " +:+ st_number row)) None);
  on_inv (record (mkAuditEvent "inventory.balance.changed" "inventory-movement" (Some (m_id movement)) None None
    (Some (JObj [("type", JStr "STOCKTAKE"); ("stocktakeId", JStr (st_id row));
       ("warehouseId", JStr (st_warehouseId row)); ("locationId", JStr (si_locationId item));
       ("variantId", JStr (si_variantId item)); ("quantity", JNum delta);
       ("beforeOnHand", JNum beforeOnHand); ("afterOnHand", JNum countedQty)]))
    (Some (sx_actorId ctx)) (sx_requestId ctx))) ;;
  mret (Some (m_id movement)).

(** The loop body of [approve]; the result counts [adjustedLines]. *)
Definition approve_line (row : StocktakeRow) (ctx : StocktakeContext) (item : StocktakeItem)
    : M (Domain StkTables) Z :=
  lock_in ["balance"; st_warehouseId row; si_locationId item; si_variantId item] ;;
  let k := mkKey (st_warehouseId row) (si_locationId item) (si_variantId item) in
  current ← gets (fun d => find_balance k (inv_of d));
  let beforeOnHand := from_option b_onHand 0%Z current in
  let reserved := from_option b_reserved 0%Z current in
  let countedQty := default 0%Z (si_countedQty item) in
  throw_if (countedQty <? reserved)%Z reservedExceedsCount ;;
  let available := (countedQty - reserved)%Z in
  throw_if ((MAX_QTY <? countedQty)%Z || (MAX_QTY <? available)%Z)
    (conflictCode "INVENTORY_OVERFLOW" "Counted quantity exceeds supported inventory quantity.") ;;
  let delta := (countedQty - beforeOnHand)%Z in
  let changed := negb (bool_decide (delta = 0%Z)) in
  movementId ← (if changed then adjust row ctx item k beforeOnHand countedQty else mret None);
  (if changed then
     on_inv (upsert_balance cuid k countedQty reserved available
       (fun b => mkBalance (b_id b) (b_key b) countedQty (b_reserved b) available (b_version b + 1)))
   else mret tt) ;;
  update_item (si_id item) (set_movement movementId) ;;
  mret (if changed then 1 else 0)%Z.

(** [approve] *)
Definition approve_tx (now : Z) (id : string) (expectedVersion : Z) (ctx : StocktakeContext)
    : M (Domain StkTables) string :=
  session_lock id ;;
  row ← find_session id;
  items ← gets (fun d => items_of collate id (own d));
  throw_if (negb (bool_decide (st_status row = S_REVIEW)))
    (stateConflict "Only a reviewed stocktake can be approved.") ;;
  check_version row expectedVersion ;;
  throw_if (bool_decide (items = [])) (lineRequired "Stocktake has no count lines.") ;;
  throw_if (uncounted items) (notFullyCounted "Every line must be counted before approval.") ;;
  adjustedLines ← sum_each items (approve_line row ctx);
  update_session id expectedVersion S_REVIEW (fun r =>
    let r := with_status S_COMPLETED r in
    mkStocktake (st_id r) (st_number r) (st_warehouseId r) (st_status r) (st_scopeType r) (st_scope r)
      (st_version r) (st_notes r) (st_createdById r) (st_countedById r) (Some (sx_actorId ctx)) (st_startedAt r)
      (st_submittedAt r) (Some now) (st_cancelledAt r) (st_createdAt r)) ;;
  audit "stocktake.approved" id ctx
    (transition_metadata (Some (Z.of_nat (length items)))
      [("adjustedLines", JNum adjustedLines);
       ("netDifference", JNum (sumZ (fun i => default 0%Z (si_difference i)) items))]
      S_REVIEW S_COMPLETED (st_version row)) ;;
  mret id.

(** [cancel] *)
Definition cancel_tx (now : Z) (id : string) (expectedVersion : Z) (ctx : StocktakeContext)
    : M (Domain StkTables) string :=
  session_lock id ;;
  row ← find_session id;
  throw_if (bool_decide (st_status row ∈ [S_COMPLETED; S_CANCELLED]))
    (stateConflict "A finished stocktake cannot be cancelled.") ;;
  check_version row expectedVersion ;;
  update_session id expectedVersion (st_status row) (fun r =>
    let r := with_status S_CANCELLED r in
    mkStocktake (st_id r) (st_number r) (st_warehouseId r) (st_status r) (st_scopeType r) (st_scope r)
      (st_version r) (st_notes r) (st_createdById r) (st_countedById r) (st_approvedById r) (st_startedAt r)
      (st_submittedAt r) (st_completedAt r) (Some now) (st_createdAt r)) ;;
  audit "stocktake.cancelled" id ctx
    (transition_metadata None [] (st_status row) S_CANCELLED (st_version row)) ;;
  mret id.

(** * Commands *)

Inductive StkCommand :=
  | StkCreate (uuid : string) (input : StocktakeCreateDto)
  | StkStart (id : string) (expectedVersion : Z)
  | StkCount (id : string) (expectedVersion : Z) (ls : list StocktakeLineInput)
  | StkSubmit (id : string) (expectedVersion : Z)
  | StkApprove (id : string) (expectedVersion : Z)
  | StkCancel (id : string) (expectedVersion : Z).

Definition version_payload (v : Z) : json := JObj [("expectedVersion", JNum v)].
Definition line_payload (l : CountLine) : json :=
  JObj [("locationId", JStr (cl_locationId l)); ("variantId", JStr (cl_variantId l));
        ("countedQty", JNum (cl_countedQty l)); ("notes", jopt (cl_notes l))].

(** Scope, payload and body of a command, after the checks of its method. *)
Definition prepare (now : Z) (cmd : StkCommand) (ctx : StocktakeContext)
    : result (string * json * M (Domain StkTables) string) :=
  match cmd with
  | StkCreate uuid input =>
      checked ← create_input input;
      let '(scopeType, locationIds, variantIds) := checked in
      Ok ("create",
          JObj [("warehouseId", JStr (sc_warehouseId input)); ("scopeType", JStr (scope_name scopeType));
                ("locationIds", JArr (JStr <$> locationIds)); ("variantIds", JArr (JStr <$> variantIds));
                ("notes", jopt (sc_notes input))],
          create_tx uuid now input scopeType locationIds variantIds ctx)
  | StkStart id v => Ok ("start:" +:+ id, version_payload v, start_tx now id v ctx)
  | StkCount id v ls =>
      counts ← normalizeCounts ls;
      Ok ("count:" +:+ id, JObj [("expectedVersion", JNum v); ("lines", JArr (line_payload <$> counts))],
          count_tx now id v counts ctx)
  | StkSubmit id v => Ok ("submit:" +:+ id, version_payload v, submit_tx now id v ctx)
  | StkApprove id v => Ok ("approve:" +:+ id, version_payload v, approve_tx now id v ctx)
  | StkCancel id v => Ok ("cancel:" +:+ id, version_payload v, cancel_tx now id v ctx)
  end.

Definition stk_texts : CommandTexts := mkTexts "stocktake-command"
  (stk_validation "Idempotency-Key must contain 8–96 ASCII letters, digits, underscores or hyphens.")
  (conflictCode "IDEMPOTENCY_CONFLICT" "Key reused with another stocktake command.")
  stillCommitting
  (conflictCode "RETRYABLE_CONFLICT" "Concurrent stocktake command; retry with the same key.").

Context (hash : string -> string).

Definition stk_command_id (scope : string) (payload : json) (ctx : StocktakeContext) : CommandId :=
  mkCommandId (sx_actorId ctx) scope (hash (sx_idempotencyKey ctx)) (hash (stableJson payload)).

Definition stk_store : Type := Store StkTables StocktakeDetail.

(** The checks of [command] before its transaction. *)
Definition command_check (scope : string) (ctx : StocktakeContext) : result unit :=
  if negb (keyPattern (sx_idempotencyKey ctx)) then Err (ct_badKey stk_texts)
  else if (100 <? String.length scope)%nat then
    Err (stk_validation "Stocktake command identifier is too long.")
  else Ok tt.

(** The transaction of a command. *)
Definition stk_tx (scope : string) (payload : json) (ctx : StocktakeContext)
    (body : M (Domain StkTables) string) : M stk_store StocktakeDetail :=
  command_tx cuid stk_texts (stk_command_id scope payload ctx) body (load_detail collate)
    (authorizedResponse (sx_canApprove ctx)).

(** [create], [start], [count], [submit], [approve] and [cancel] as a caller runs them. *)
Definition run_stocktake (E : env stk_store) (now : Z) (cmd : StkCommand) (ctx : StocktakeContext) (s : stk_store)
    : result StocktakeDetail * stk_store :=
  match (prepared ← prepare now cmd ctx;
         command_check (fst (fst prepared)) ctx ;;
         Ok prepared) with
  | Err e => (Err e, s)
  | Ok (scope, payload, body) => command_loop E stk_texts (stk_tx scope payload ctx body) s
  end.
End service.
