(* ===== verification/InventoryLedger.v ===== *)
(** The stock ledger: what each database write does to the levels and sums of the
    invariant of [InventoryModel], the abstract stock machine that the commands
    implement, and the relation between the inventory tables of two moments that
    every transaction guarantees. *)

From S2P Require Import Prelude Table Json AuditTrail InventoryModel.

(** * Outcomes of the database operations *)

Definition fits (b : InventoryBalance) : bool :=
  int4 (b_onHand b) && int4 (b_reserved b) && int4 (b_available b) && int4 (b_version b).
Definition put_balance (b : InventoryBalance) (db : InvDb) : InvDb :=
  set_balances (<[b_id b := b]> (balances db)) db.

Lemma write_balance_ok b db r :
  write_balance b db = Ok r -> fits b = true /\ r = (tt, put_balance b db).
Proof.
  unfold write_balance. intros H. run_inv. apply negb_false_iff in Hguard. done.
Qed.

Lemma update_balance_id_ok id f db r :
  update_balance_id id f db = Ok r ->
  exists b, balances db !! id = Some b /\ fits (f b) = true /\ r = (tt, put_balance (f b) db).
Proof.
  unfold update_balance_id. intros H. run_inv. apply write_balance_ok in H. eauto.
Qed.

Lemma update_balance_key_ok k f db r :
  update_balance_key k f db = Ok r ->
  exists b, find_balance k db = Some b /\ fits (f b) = true /\ r = (tt, put_balance (f b) db).
Proof.
  unfold update_balance_key. intros H. run_inv. apply write_balance_ok in H. eauto.
Qed.

Section outcomes.
Context (cuid : nat -> string).

Lemma upsert_balance_ok k oh rs av f db r :
  upsert_balance cuid k oh rs av f db = Ok r ->
  (exists b, find_balance k db = Some b /\ r = (tt, put_balance (f b) db)) \/
  (exists id, find_balance k db = None /\ balances db !! id = None /\
     r = (tt, put_balance (mkBalance id k oh rs av 1) (set_nextId (S (nextId db)) db))).
Proof.
  unfold upsert_balance. intros H. run_inv. destruct (find_balance k _) as [b|] eqn:E.
  - apply write_balance_ok in H as [_ ->]. eauto.
  - right. unfold fresh_id in H. run_inv. simplify_eq. apply bool_decide_eq_false in Hguard.
    apply write_balance_ok in H as [_ ->]. eexists. split_and!; [done| |done].
    by apply eq_None_not_Some.
Qed.

Lemma create_movement_ok k type q before after rt ri reason ik db r :
  create_movement cuid k type q before after rt ri reason ik db = Ok r ->
  exists id, movements db !! id = None /\
    let m := mkMovement id k type q before after rt ri reason ik (clock db) in
    r = (m, set_movements (<[id := m]> (movements db)) (set_nextId (S (nextId db)) db)).
Proof.
  unfold create_movement, fresh_id. intros H. run_inv. simplify_eq/=.
  apply bool_decide_eq_false in Hguard0. eexists. split; [|done].
  by apply eq_None_not_Some.
Qed.

Lemma create_reservation_ok k orderId q expiresAt ik db r :
  create_reservation cuid k orderId q expiresAt ik db = Ok r ->
  exists id, reservations db !! id = None /\
    let m := mkReservation id k orderId q ACTIVE expiresAt ik (clock db) in
    r = (m, set_reservations (<[id := m]> (reservations db)) (set_nextId (S (nextId db)) db)).
Proof.
  unfold create_reservation, fresh_id. intros H. run_inv. simplify_eq/=.
  apply bool_decide_eq_false in Hguard0. eexists. split; [|done].
  by apply eq_None_not_Some.
Qed.
End outcomes.

Lemma update_reservation_status_ok id st db r :
  update_reservation_status id st db = Ok r ->
  exists row, reservations db !! id = Some row /\
    r = (set_status st row, set_reservations (<[id := set_status st row]> (reservations db)) db).
Proof. unfold update_reservation_status. intros H. run_inv. eauto. Qed.

(** * Balances and levels *)

Lemma has_key_true k b : has_key k b = true <-> b_key b = k.
Proof. unfold has_key. by rewrite bool_decide_eq_true. Qed.

Lemma find_balance_key k db b :
  find_balance k db = Some b -> b_key b = k /\ exists id, balances db !! id = Some b.
Proof.
  unfold find_balance. intros H. apply find_by_Some in H as [Hid Hk]. by apply has_key_true in Hk.
Qed.

Lemma find_balance_Some k db b :
  wf_tables db -> find_balance k db = Some b <-> balances db !! b_id b = Some b /\ b_key b = k.
Proof.
  intros (Hb & _ & Hu). split.
  - intros H. apply find_balance_key in H as [Hk [id Hid]]. by rewrite (Hb _ _ Hid).
  - intros [Hid Hk]. eapply find_by_unique; [apply Hu|done|by apply has_key_true].
Qed.

Lemma level_frame db db' k : balances db' = balances db -> level k db' = level k db.
Proof. intros H. unfold level, find_balance. by rewrite H. Qed.

Definition cols (b : InventoryBalance) : Z * Z * Z := (b_onHand b, b_reserved b, b_available b).

Lemma level_find k db b : find_balance k db = Some b -> level k db = cols b.
Proof. unfold level, cols. by intros ->. Qed.

Lemma level_none k db : find_balance k db = None -> level k db = (0, 0, 0)%Z.
Proof. unfold level. by intros ->. Qed.

(** [b] may be stored: it updates the row of its key, or its key has no row. *)
Definition balance_slot (b : InventoryBalance) (db : InvDb) : Prop :=
  (exists b0, balances db !! b_id b = Some b0 /\ b_key b0 = b_key b) \/
  (balances db !! b_id b = None /\ find_balance (b_key b) db = None).

(** Balance rows keep their primary key and their stock key unique. *)
Definition wf_balances (t : gmap string InventoryBalance) : Prop :=
  (forall id b, t !! id = Some b -> b_id b = id) /\ (forall k, unique_on (has_key k) t).

Lemma wf_tables_balances db : wf_tables db -> wf_balances (balances db).
Proof. by intros (? & _ & ?). Qed.

Lemma balance_slot_other b db id b' :
  wf_balances (balances db) -> balance_slot b db -> balances db !! id = Some b' -> b_key b' = b_key b ->
  id = b_id b.
Proof.
  intros [_ Hu] [(b0 & Hb0 & Hk)|[_ Hnone]] Hb' Hkey.
  - by apply (Hu (b_key b) _ _ _ _ Hb' Hb0); apply has_key_true.
  - unfold find_balance in Hnone. rewrite find_by_None in Hnone. apply Hnone in Hb'.
    apply not_true_iff_false in Hb'. by rewrite has_key_true in Hb'.
Qed.

Lemma wf_balances_write b db :
  wf_balances (balances db) -> balance_slot b db -> wf_balances (<[b_id b := b]> (balances db)).
Proof.
  intros Hwf Hslot. pose proof Hwf as [Hid Hu]. split.
  - intros id b' [[<- <-]|[Hne H]]%lookup_insert_Some; [done|]. by apply Hid.
  - intros k i1 i2 b1 b2 H1 H2 Hk1 Hk2. apply has_key_true in Hk1, Hk2.
    apply lookup_insert_Some in H1 as [[<- <-]|[Hne1 H1]], H2 as [[<- <-]|[Hne2 H2]].
    + done.
    + symmetry. eapply balance_slot_other; [done..|]. congruence.
    + eapply balance_slot_other; [done..|]. congruence.
    + by apply (Hu k _ _ _ _ H1 H2); apply has_key_true.
Qed.

(** A balance write changes the level of its own key only. *)
Lemma level_write b db db' k :
  wf_balances (balances db) -> balance_slot b db ->
  balances db' = <[b_id b := b]> (balances db) ->
  level k db' = if decide (k = b_key b) then cols b else level k db.
Proof.
  intros Hwf Hslot Hdb'. pose proof (wf_balances_write b db Hwf Hslot) as [_ Hu'].
  destruct Hwf as [_ Hu]. case_decide as Hk.
  - subst k. apply level_find. unfold find_balance. rewrite Hdb'.
    eapply find_by_unique; [apply Hu'|apply lookup_insert_eq|by apply has_key_true].
  - unfold level. enough (find_balance k db' = find_balance k db) as -> by done.
    unfold find_balance. rewrite Hdb'. destruct (find_by (has_key k) (balances db)) as [b'|] eqn:E.
    + apply find_by_Some in E as [[id Hid] Hk']. eapply find_by_unique; [apply Hu'| |done].
      rewrite lookup_insert_ne; [done|]. intros <-. apply has_key_true in Hk'.
      destruct Hslot as [(b0 & Hb0 & Hk0)|[Hnone _]]; congruence.
    + rewrite find_by_None in E. apply find_by_None. intros id b' [[<- <-]|[_ H]]%lookup_insert_Some.
      * apply not_true_iff_false. rewrite has_key_true. congruence.
      * by apply E in H.
Qed.

Lemma slot_find b b0 db k :
  wf_balances (balances db) -> find_balance k db = Some b0 ->
  b_id b = b_id b0 -> b_key b = b_key b0 -> balance_slot b db.
Proof.
  intros [Hid _] Hf Hi Hk. apply find_balance_key in Hf as [Hk0 [id H]]. left. exists b0.
  rewrite Hi, (Hid _ _ H). done.
Qed.

(** * Movements and reservations *)

Lemma moved_at_frame db db' k : movements db' = movements db -> moved_at k db' = moved_at k db.
Proof. intros H. unfold moved_at. by rewrite H. Qed.

Lemma held_at_frame db db' k : reservations db' = reservations db -> held_at k db' = held_at k db.
Proof. intros H. unfold held_at. by rewrite H. Qed.

Definition at_key (k k' : StockKey) (z : Z) : Z := if decide (k' = k) then z else 0%Z.

Lemma moved_at_create db db' m id k :
  movements db !! id = None -> movements db' = <[id := m]> (movements db) ->
  moved_at k db' = (moved_at k db + at_key (m_key m) k (m_quantity m))%Z.
Proof.
  intros Hid H. unfold moved_at. rewrite H, tsum_insert_new by done. unfold moved, at_key.
  case_bool_decide; case_decide; try congruence; lia.
Qed.

Lemma held_at_create db db' r id k :
  reservations db !! id = None -> r_status r = ACTIVE ->
  reservations db' = <[id := r]> (reservations db) ->
  held_at k db' = (held_at k db + at_key (r_key r) k (r_quantity r))%Z.
Proof.
  intros Hid Hs H. unfold held_at. rewrite H, tsum_insert_new by done. unfold held, at_key.
  rewrite Hs. case_bool_decide; [|done]. simpl.
  case_bool_decide; case_decide; try congruence; lia.
Qed.

Lemma held_at_finish db db' r id st k :
  reservations db !! id = Some r -> r_status r = ACTIVE -> st <> ACTIVE ->
  reservations db' = <[id := set_status st r]> (reservations db) ->
  held_at k db' = (held_at k db - at_key (r_key r) k (r_quantity r))%Z.
Proof.
  intros Hid Hs Hst H. unfold held_at. rewrite H. erewrite tsum_insert by done. unfold held, at_key.
  cbn [set_status r_status r_key r_quantity].
  rewrite Hs, (bool_decide_true (ACTIVE = ACTIVE)), (bool_decide_false (st = ACTIVE)) by done.
  rewrite andb_true_l, andb_false_l.
  case_bool_decide; case_decide; try congruence; lia.
Qed.

Lemma held_at_nonneg k db : wf_tables db -> (0 <= held_at k db)%Z.
Proof.
  intros (_ & Hr & _). apply tsum_nonneg. intros id r H. apply Hr in H as [_ Hq].
  unfold held. destruct (_ && _); lia.
Qed.

(** An active reservation is part of what its key holds. *)
Lemma held_at_ge db id r :
  wf_tables db -> reservations db !! id = Some r -> r_status r = ACTIVE ->
  (r_quantity r <= held_at (r_key r) db)%Z.
Proof.
  intros (_ & Hr & _) H Hs. unfold held_at.
  assert (r_quantity r = held (r_key r) r) as ->.
  { unfold held. rewrite Hs, !bool_decide_true by done. done. }
  eapply tsum_ge; [|done]. intros id' r' H'. apply Hr in H' as [_ Hq].
  unfold held. destruct (_ && _); lia.
Qed.

(** * The abstract stock machine

    Per stock key a quantity on hand, and the active holds by reservation.  What
    is free to promise is the quantity on hand less the holds. *)

Record Stock := mkStock {
  onHand : StockKey -> Z;
  holds : gmap string (StockKey * Z)
}.

Definition hold_at (k : StockKey) (h : StockKey * Z) : Z := at_key (fst h) k (snd h).
Definition free (k : StockKey) (s : Stock) : Z := (onHand s k - tsum (hold_at k) (holds s))%Z.

Definition stock_eq (s s' : Stock) : Prop :=
  (forall k, onHand s k = onHand s' k) /\ holds s = holds s'.

#[export] Instance stock_equiv : Equivalence stock_eq.
Proof.
  split.
  - by intros s.
  - intros s s' [H1 H2]. by split.
  - intros s1 s2 s3 [H1 H2] [H3 H4]. split; [|congruence]. intros k. by rewrite H1, H3.
Qed.

Inductive event :=
  | EChange (k : StockKey) (delta : Z)          (** stock received, lost, corrected, moved *)
  | EHold (id : string) (k : StockKey) (q : Z)  (** a reservation starts *)
  | EDrop (id : string)                         (** it is released or expires *)
  | EShip (id : string).                        (** it leaves the warehouse *)

Definition astep (e : event) (s s' : Stock) : Prop :=
  match e with
  | EChange k d =>
      (0 <= onHand s k + d)%Z /\ (0 <= free k s + d)%Z /\
      stock_eq s' (mkStock (fun k' => onHand s k' + at_key k k' d)%Z (holds s))
  | EHold id k q =>
      (0 < q <= free k s)%Z /\ holds s !! id = None /\
      stock_eq s' (mkStock (onHand s) (<[id := (k, q)]> (holds s)))
  | EDrop id =>
      is_Some (holds s !! id) /\
      stock_eq s' (mkStock (onHand s) (delete id (holds s)))
  | EShip id =>
      exists k q, holds s !! id = Some (k, q) /\
      stock_eq s' (mkStock (fun k' => onHand s k' - at_key k k' q)%Z (delete id (holds s)))
  end.

Fixpoint asteps (es : list event) (s s' : Stock) : Prop :=
  match es with
  | [] => stock_eq s s'
  | e :: es => exists s1, astep e s s1 /\ asteps es s1 s'
  end.

#[export] Instance free_proper k : Proper (stock_eq ==> eq) (free k).
Proof. intros s s' [H1 H2]. unfold free. by rewrite H1, H2. Qed.

#[export] Instance astep_proper e : Proper (stock_eq ==> stock_eq ==> iff) (astep e).
Proof.
  assert (Himp : forall s1 s2 t1 t2, stock_eq s1 s2 -> stock_eq t1 t2 -> astep e s1 t1 -> astep e s2 t2).
  { intros s1 s2 t1 t2 Hs Ht. assert (Hf : forall k, free k s1 = free k s2) by (intros; by apply free_proper).
    pose proof Hs as [Hon Hh]. destruct e; simpl; rewrite <- ?Hon, <- ?Hf, <- ?Hh.
    - intros (H1 & H2 & H3). split; [done|]. split; [done|]. rewrite <- Ht, H3. split; [|done].
      intros k'. simpl. by rewrite Hon.
    - intros (H1 & H2 & H3). split; [done|]. split; [done|]. rewrite <- Ht, H3. split; [|done].
      intros k'. simpl. by rewrite Hon.
    - intros (H1 & H3). split; [done|]. rewrite <- Ht, H3. split; [|done].
      intros k'. simpl. by rewrite Hon.
    - intros (k & q & H1 & H3). exists k, q. split; [done|]. rewrite <- Ht, H3. split; [|done].
      intros k'. simpl. by rewrite Hon. }
  intros s1 s2 Hs t1 t2 Ht. split; apply Himp; done.
Qed.

#[export] Instance asteps_proper es : Proper (stock_eq ==> stock_eq ==> iff) (asteps es).
Proof.
  induction es as [|e es IH]; intros s1 s2 Hs t1 t2 Ht; simpl; [by rewrite Hs, Ht|].
  split; intros (u & H1 & H2); exists u.
  - rewrite <- Hs, <- Ht. done.
  - rewrite Hs, Ht. done.
Qed.

Lemma asteps_app es1 es2 s s1 s' : asteps es1 s s1 -> asteps es2 s1 s' -> asteps (es1 ++ es2) s s'.
Proof.
  revert s. induction es1 as [|e es1 IH]; intros s; simpl; [by intros ->|].
  intros (u & H1 & H2) H3. eauto.
Qed.

(** What the machine promises: holds are positive, and nothing is promised or
    shipped that is not there. *)
Definition stock_safe (s : Stock) : Prop :=
  (forall id k q, holds s !! id = Some (k, q) -> 0 < q)%Z /\ (forall k, 0 <= free k s)%Z.

(** * The abstraction of the tables *)

Definition hold_of (r : StockReservation) : option (StockKey * Z) :=
  if bool_decide (r_status r = ACTIVE) then Some (r_key r, r_quantity r) else None.
Definition abs (db : InvDb) : Stock :=
  mkStock (fun k => (level k db).1.1) (omap hold_of (reservations db)).

Lemma tsum_omap {A B} (f : B -> Z) (g : A -> option B) (t : gmap string A) :
  tsum f (omap g t) = tsum (fun a => from_option f 0%Z (g a)) t.
Proof.
  induction t as [|k r t Hk IH] using map_ind; [by rewrite omap_empty|].
  rewrite omap_insert, tsum_insert_new by done. destruct (g r) as [b|]; simpl.
  - rewrite tsum_insert_new; [by rewrite IH|]. by rewrite lookup_omap, Hk.
  - rewrite delete_id; [by rewrite IH|]. by rewrite lookup_omap, Hk.
Qed.

Lemma holds_sum k db : tsum (hold_at k) (holds (abs db)) = held_at k db.
Proof.
  simpl. rewrite tsum_omap. unfold held_at. apply tsum_ext. intros id r _.
  unfold hold_of, held, hold_at, at_key. destruct (bool_decide (r_status r = ACTIVE)); simpl; [|done].
  case_bool_decide; case_decide; congruence.
Qed.

(** The columns of the balance table are the derived quantities of the machine. *)
Lemma abs_level db k :
  inv db -> level k db = (onHand (abs db) k, tsum (hold_at k) (holds (abs db)), free k (abs db)) /\
            (0 <= free k (abs db))%Z.
Proof.
  intros [_ Hl]. destruct (Hl k) as [Hlev Hle]. unfold free. rewrite holds_sum.
  cbn [abs onHand]. rewrite Hlev. done.
Qed.

Lemma abs_hold db id r :
  reservations db !! id = Some r -> r_status r = ACTIVE ->
  holds (abs db) !! id = Some (r_key r, r_quantity r).
Proof. intros H Hs. simpl. rewrite lookup_omap, H. simpl. unfold hold_of. by rewrite Hs. Qed.

Lemma abs_no_hold db id :
  reservations db !! id = None -> holds (abs db) !! id = None.
Proof. intros H. simpl. by rewrite lookup_omap, H. Qed.

Lemma abs_frame db db' :
  balances db' = balances db -> reservations db' = reservations db -> stock_eq (abs db) (abs db').
Proof.
  intros Hb Hr. split; [|by simpl; rewrite Hr]. intros k. simpl. by rewrite (level_frame db db').
Qed.

(** * What a transaction guarantees about two moments of the tables *)

Definition reservation_evolves (r r' : StockReservation) : Prop :=
  r' = set_status (r_status r') r /\ (r_status r <> ACTIVE -> r_status r' = r_status r).

(** Reservations are never deleted nor rewritten and leave ACTIVE for good;
    balance rows stay with their key; movements are immutable; the audit trail
    only grows. *)
Definition evolves (db db' : InvDb) : Prop :=
  (forall id r, reservations db !! id = Some r ->
     exists r', reservations db' !! id = Some r' /\ reservation_evolves r r') /\
  (forall id b, balances db !! id = Some b ->
     exists b', balances db' !! id = Some b' /\ b_key b' = b_key b) /\
  movements db ⊆ movements db' /\
  audits db `prefix_of` audits db'.

Lemma set_status_id r : set_status (r_status r) r = r.
Proof. by destruct r. Qed.

Lemma reservation_evolves_refl r : reservation_evolves r r.
Proof. by split; [rewrite set_status_id|]. Qed.

Lemma reservation_evolves_trans r1 r2 r3 :
  reservation_evolves r1 r2 -> reservation_evolves r2 r3 -> reservation_evolves r1 r3.
Proof.
  intros [E1 H1] [E2 H2]. split.
  - rewrite E2 at 1. by rewrite E1.
  - intros H. rewrite <- (H1 H). apply H2. by rewrite (H1 H).
Qed.

#[export] Instance evolves_preorder : PreOrder evolves.
Proof.
  split.
  - intros db. split_and!; [..|done|done]; eauto using reservation_evolves_refl.
  - intros db1 db2 db3 (R1 & B1 & M1 & A1) (R2 & B2 & M2 & A2). split_and!.
    + intros id r H. destruct (R1 _ _ H) as (r' & H' & E1). destruct (R2 _ _ H') as (r'' & H'' & E2).
      exists r''. split; [done|]. by eapply reservation_evolves_trans.
    + intros id b H. destruct (B1 _ _ H) as (b' & H' & E1). destruct (B2 _ _ H') as (b'' & H'' & E2).
      exists b''. split; [done|]. congruence.
    + by etrans.
    + by etrans.
Qed.

(** ** Pieces of [evolves] *)

Lemma evolves_balances_write db b id b0 :
  wf_balances (balances db) -> balance_slot b db -> balances db !! id = Some b0 ->
  exists b', <[b_id b := b]> (balances db) !! id = Some b' /\ b_key b' = b_key b0.
Proof.
  intros Hwf Hslot Hb0. destruct (decide (id = b_id b)) as [->|Hne].
  - exists b. rewrite lookup_insert_eq. split; [done|]. destruct Hslot as [(b1 & H1 & Hk)|[H1 _]]; congruence.
  - exists b0. by rewrite lookup_insert_ne.
Qed.

(** * Refinement *)

(** From [db] to [db'] the tables follow the abstract machine through [es]. *)
Definition refines (es : list event) (db db' : InvDb) : Prop :=
  inv db' /\ evolves db db' /\ asteps es (abs db) (abs db').

Lemma refines_trans es1 es2 db1 db2 db3 :
  refines es1 db1 db2 -> refines es2 db2 db3 -> refines (es1 ++ es2) db1 db3.
Proof.
  intros (I1 & E1 & A1) (I2 & E2 & A2). split_and!; [done|by etrans|by eapply asteps_app].
Qed.

(** Writes to other tables: nothing happens to the stock. *)
Definition same_stock (db db' : InvDb) : Prop :=
  balances db' = balances db /\ movements db' = movements db /\ reservations db' = reservations db /\
  audits db `prefix_of` audits db'.

#[export] Instance same_stock_preorder : PreOrder same_stock.
Proof.
  split; [done|]. intros db1 db2 db3 (B1 & M1 & R1 & A1) (B2 & M2 & R2 & A2).
  split_and!; [congruence..|by etrans].
Qed.

Lemma inv_same_stock db db' : inv db -> same_stock db db' -> inv db'.
Proof.
  intros [(Hb & Hr & Hu) Hl] (B & M & R & A). split.
  - unfold wf_tables. by rewrite B, R.
  - intros k. rewrite (level_frame db db'), (moved_at_frame db db'), (held_at_frame db db') by done.
    apply Hl.
Qed.

Lemma same_stock_refines db db' : inv db -> same_stock db db' -> refines [] db db'.
Proof.
  intros Hinv Hs. pose proof Hs as (B & M & R & A).
  split; [by eapply inv_same_stock|]. split; [|by apply abs_frame].
  split; [|split; [|split; [by rewrite M|done]]]; rewrite ?B, ?R; eauto using reservation_evolves_refl.
Qed.

Lemma refines_frame_l es db1 db2 db3 :
  inv db1 -> same_stock db1 db2 -> (inv db2 -> refines es db2 db3) -> refines es db1 db3.
Proof.
  intros Hi Hs H. apply (refines_trans [] es db1 db2 db3); [by apply same_stock_refines|].
  apply H. by eapply inv_same_stock.
Qed.

Lemma refines_frame_r es db1 db2 db3 :
  refines es db1 db2 -> same_stock db2 db3 -> refines es db1 db3.
Proof.
  intros H Hs. rewrite <- (app_nil_r es). eapply refines_trans; [done|].
  apply same_stock_refines; [by destruct H|done].
Qed.

(** The four writes that move stock.  [b] is the new balance row of its key, with
    the columns shifted as the ledger is. *)
Definition shifted (b : InventoryBalance) (db : InvDb) (dm dh : Z) : Prop :=
  cols b = ((level (b_key b) db).1.1 + dm, (level (b_key b) db).1.2 + dh,
            (level (b_key b) db).2 + dm - dh)%Z.

Section writes.
Context (db db' : InvDb) (b : InventoryBalance).
Hypotheses (Hinv : inv db) (Hslot : balance_slot b db)
  (Hb : balances db' = <[b_id b := b]> (balances db)).

Lemma write_level k :
  level k db' = if decide (k = b_key b) then cols b else level k db.
Proof. apply level_write; [|done..]. apply wf_tables_balances. by destruct Hinv. Qed.

Lemma ledger_shift dm dh :
  wf_tables db' -> shifted b db dm dh -> (0 <= b_available b)%Z ->
  (forall k, moved_at k db' = moved_at k db + at_key (b_key b) k dm)%Z ->
  (forall k, held_at k db' = held_at k db + at_key (b_key b) k dh)%Z ->
  ledger_ok db'.
Proof.
  intros Hwf Hs Hav Hm Hh k. rewrite Hm, Hh, write_level.
  destruct Hinv as [_ Hl]. specialize (Hl k) as [Hl Hle]. unfold at_key.
  case_decide as Hk; [subst k|by rewrite Hl, !Z.add_0_r].
  unfold shifted in Hs. rewrite Hs, Hl. unfold cols in Hs. rewrite Hl in Hs.
  injection Hs as H1 H2 H3. simpl in *. rewrite !pair_eq. lia.
Qed.

Lemma shift_onHand dm dh k :
  shifted b db dm dh -> onHand (abs db') k = (onHand (abs db) k + at_key (b_key b) k dm)%Z.
Proof.
  intros Hs. cbn [abs onHand]. rewrite write_level. unfold at_key.
  case_decide as Hk; [subst k; by rewrite Hs|lia].
Qed.

Lemma wf_write :
  (forall id r, reservations db' !! id = Some r -> r_id r = id /\ (0 < r_quantity r)%Z) -> wf_tables db'.
Proof.
  intros Hr. destruct Hinv as [Hwf _]. pose proof (wf_balances_write b db
    (wf_tables_balances _ Hwf) Hslot) as [H1 H2]. split_and!; [|done|]; by rewrite Hb.
Qed.

Lemma evolves_write :
  (forall id r, reservations db !! id = Some r ->
     exists r', reservations db' !! id = Some r' /\ reservation_evolves r r') ->
  movements db ⊆ movements db' -> audits db `prefix_of` audits db' -> evolves db db'.
Proof.
  intros Hr Hm Ha. split_and!; [done| |done|done]. intros id b0 H. rewrite Hb.
  apply evolves_balances_write; [|done..]. apply wf_tables_balances. by destruct Hinv.
Qed.

Lemma free_avail k : free k (abs db) = (level k db).2.
Proof. by destruct (abs_level db k Hinv) as [-> _]. Qed.

Lemma onHand_level k : onHand (abs db) k = (level k db).1.1.
Proof. done. Qed.

(** A movement of [m_quantity m] at the key. *)
Lemma change_refines k q id m :
  movements db !! id = None -> movements db' = <[id := m]> (movements db) ->
  m_key m = k -> b_key b = k -> m_quantity m = q ->
  reservations db' = reservations db -> audits db `prefix_of` audits db' ->
  shifted b db q 0 -> (0 <= b_available b)%Z -> (0 <= b_onHand b)%Z ->
  refines [EChange k q] db db'.
Proof.
  intros Hid Hm Hk Hbk <- Hr Ha Hs Hav Hon. rewrite <- Hbk in Hk |- *. clear k Hbk.
  assert (Hwf : wf_tables db').
  { apply wf_write. rewrite Hr. by destruct Hinv as [(_ & ? & _) _]. }
  split_and!.
  - split; [done|]. apply (ledger_shift (m_quantity m) 0); [done..| |].
    + intros k. rewrite <- Hk. by eapply moved_at_create.
    + intros k. rewrite (held_at_frame db db') by done. unfold at_key. case_decide; lia.
  - apply evolves_write; [|rewrite Hm; by apply insert_subseteq|done].
    rewrite Hr. eauto using reservation_evolves_refl.
  - eexists. split; [|reflexivity]. unfold shifted, cols in Hs. split_and!.
    + rewrite onHand_level. injection Hs. lia.
    + rewrite free_avail. injection Hs. lia.
    + split; [|simpl; by rewrite Hr]. intros k. by eapply shift_onHand.
Qed.

(** A new reservation. *)
Lemma hold_refines k q id r :
  reservations db !! id = None -> reservations db' = <[id := r]> (reservations db) ->
  r_id r = id -> r_key r = k -> b_key b = k -> r_quantity r = q -> r_status r = ACTIVE -> (0 < q)%Z ->
  movements db' = movements db -> audits db `prefix_of` audits db' ->
  shifted b db 0 q -> (0 <= b_available b)%Z ->
  refines [EHold id k q] db db'.
Proof.
  intros Hid Hr Hi Hk Hbk <- Hst Hq Hm Ha Hs Hav. rewrite <- Hbk in Hk |- *. clear k Hbk.
  assert (Hwf : wf_tables db').
  { apply wf_write. rewrite Hr. intros i x [[<- <-]|[_ H]]%lookup_insert_Some; [done|].
    destruct Hinv as [(_ & Hrs & _) _]. by apply Hrs. }
  split_and!.
  - split; [done|]. apply (ledger_shift 0 (r_quantity r)); [done..| |].
    + intros k. rewrite (moved_at_frame db db') by done. unfold at_key. case_decide; lia.
    + intros k. rewrite <- Hk. by eapply held_at_create.
  - apply evolves_write; [|by rewrite Hm|done].
    intros i x Hx. exists x. split; [|apply reservation_evolves_refl].
    rewrite Hr, lookup_insert_ne; [done|congruence].
  - eexists. split; [|reflexivity]. unfold shifted, cols in Hs. split_and!.
    + done.
    + rewrite free_avail. injection Hs. lia.
    + by apply abs_no_hold.
    + split; cbn [onHand holds].
      * intros k. rewrite (shift_onHand 0 (r_quantity r)) by done. unfold at_key. case_decide; lia.
      * simpl. rewrite Hr. rewrite omap_insert. unfold hold_of at 1. by rewrite Hst, Hk.
Qed.

(** An active reservation leaves ACTIVE: with the stock when [st] is CONSUMED and a
    movement records it, without it otherwise. *)
Section finish.
Context (id : string) (r : StockReservation) (st : ReservationStatus).
Hypotheses (Hid : reservations db !! id = Some r) (Hact : r_status r = ACTIVE) (Hst : st <> ACTIVE)
  (Hr : reservations db' = <[id := set_status st r]> (reservations db))
  (Hk : r_key r = b_key b) (Ha : audits db `prefix_of` audits db').

Lemma finish_wf : wf_tables db'.
Proof using Hinv Hslot Hb Hr Hid.
  apply wf_write. rewrite Hr. destruct Hinv as [(_ & Hrs & _) _].
  intros i x [[<- <-]|[_ H]]%lookup_insert_Some; [|by apply Hrs]. simpl. by apply Hrs.
Qed.

Lemma finish_evolves : movements db ⊆ movements db' -> evolves db db'.
Proof using Hinv Hslot Hb Hr Hid Hact Ha.
  intros Hm. apply evolves_write; [|done..]. intros i x Hx. rewrite Hr.
  destruct (decide (i = id)) as [->|Hne].
  - exists (set_status st r). rewrite lookup_insert_eq. split; [done|].
    assert (x = r) as -> by congruence. by split.
  - exists x. rewrite lookup_insert_ne by done. split; [done|apply reservation_evolves_refl].
Qed.

Lemma finish_holds : holds (abs db') = delete id (holds (abs db)).
Proof using Hr Hst.
  simpl. rewrite Hr, omap_insert. unfold hold_of at 1. simpl. by rewrite bool_decide_false.
Qed.

Lemma drop_refines :
  movements db' = movements db -> shifted b db 0 (- r_quantity r) -> refines [EDrop id] db db'.
Proof using All.
  intros Hm Hs. split_and!.
  - split; [by apply finish_wf|]. apply (ledger_shift 0 (- r_quantity r)); [by apply finish_wf|done| | |].
    + unfold shifted, cols in Hs. injection Hs as _ _ ->. destruct (abs_level db (b_key b) Hinv) as [_ H].
      rewrite free_avail in H. destruct Hinv as [(_ & Hrs & _) _]. apply Hrs in Hid. lia.
    + intros k. rewrite (moved_at_frame db db') by done. unfold at_key. case_decide; lia.
    + intros k. rewrite <- Hk. erewrite held_at_finish by done. unfold at_key. case_decide; lia.
  - apply finish_evolves. by rewrite Hm.
  - eexists. split; [|reflexivity]. split; [by erewrite abs_hold|].
    split; [|apply finish_holds]. intros k. rewrite (shift_onHand 0 (- r_quantity r)) by done.
    unfold at_key. simpl. case_decide; lia.
Qed.

Lemma ship_refines mid m :
  movements db !! mid = None -> movements db' = <[mid := m]> (movements db) ->
  m_key m = b_key b -> m_quantity m = (- r_quantity r)%Z ->
  shifted b db (- r_quantity r) (- r_quantity r) -> refines [EShip id] db db'.
Proof using All.
  intros Hmid Hm Hmk Hmq Hs. split_and!.
  - split; [by apply finish_wf|].
    apply (ledger_shift (- r_quantity r) (- r_quantity r)); [by apply finish_wf|done| | |].
    + unfold shifted, cols in Hs. injection Hs as _ _ ->. destruct (abs_level db (b_key b) Hinv) as [_ H].
      rewrite free_avail in H. lia.
    + intros k. rewrite <- Hmk, <- Hmq. by eapply moved_at_create.
    + intros k. rewrite <- Hk. erewrite held_at_finish by done. unfold at_key. case_decide; lia.
  - apply finish_evolves. rewrite Hm. by apply insert_subseteq.
  - eexists. split; [|reflexivity]. exists (r_key r), (r_quantity r). split; [by apply abs_hold|].
    split; [|apply finish_holds]. intros k. erewrite shift_onHand by done. rewrite Hk.
    unfold at_key. cbn [abs onHand]. case_decide; lia.
Qed.
End finish.
End writes.
