(* ===== verification/DurableSafety.v ===== *)
(** Durable commands run exactly once: the outcome of a command's transaction, the
    invariant of the record table, and the replay of a recorded command. *)

From S2P Require Import Prelude Retry Table Json StableJson AuditTrail InventoryModel Inventory Durable.
From S2P Require Import InventoryLedger InventoryProofs.

Section proofs.
Context {X R : Type} (cuid : nat -> string).
Implicit Types (s : Store X R) (d : Domain X).

(** Every committed record has its response, and its key is unique. *)
Definition records_ok (t : gmap string (CommandRecord R)) : Prop :=
  (forall c, unique_on (same_command c) t) /\ (forall id r, t !! id = Some r -> is_Some (cr_response r)).

Lemma records_ok_empty : records_ok ∅.
Proof.
  split; [intros c k1 k2 r1 r2 H; by rewrite lookup_empty in H|intros id r H; by rewrite lookup_empty in H].
Qed.

(** The domain that a command's body starts from. *)
Definition locked (parts : list string) s : Store X R :=
  mkStore (mkDomain (set_locks (locks (inv_of (domain s)) ++ [advisoryLockIdKey parts]) (inv_of (domain s)))
    (own (domain s))) (records s).
Definition command_locks (texts : CommandTexts) (c : CommandId) : list string :=
  [ct_lock texts; ci_actorId c; ci_scope c; ci_keyHash c].
Definition prepared d d1 : Prop :=
  own d1 = own d /\ exists ls n, inv_of d1 = set_nextId n (set_locks ls (inv_of d)).
Definition response_row (id : string) (c : CommandId) (resp : R) : CommandRecord R :=
  mkCommandRecord id (ci_actorId c) (ci_scope c) (ci_keyHash c) (ci_payloadHash c) (Some resp).

Section one.
Context {T : Type} (texts : CommandTexts) (c : CommandId) (execute : M (Domain X) T)
  (project : T -> M (Domain X) R) (authorized : R -> R).

Lemma command_run s :
  command_tx cuid texts c execute project authorized s =
  recorded cuid texts c execute project authorized (locked (command_locks texts c) s).
Proof. done. Qed.

(** A recorded command answers from its record. *)
Lemma recorded_replay s prior resp :
  find_record c s = Some prior -> cr_response prior = Some resp ->
  recorded cuid texts c execute project authorized s =
    if bool_decide (cr_payloadHash prior = ci_payloadHash c) then Ok (authorized resp, s) else Err (ct_reused texts).
Proof.
  intros Hf Hr. unfold recorded. erewrite bind_run; [|reflexivity]. rewrite Hf.
  destruct (bool_decide _); [|done]. simpl. erewrite bind_run; [|reflexivity]. rewrite Hr. done.
Qed.

Lemma command_replay s prior resp :
  find_record c s = Some prior -> cr_response prior = Some resp ->
  command_tx cuid texts c execute project authorized s =
    if bool_decide (cr_payloadHash prior = ci_payloadHash c)
    then Ok (authorized resp, locked (command_locks texts c) s) else Err (ct_reused texts).
Proof. intros Hf Hr. rewrite command_run. by apply recorded_replay. Qed.

(** A new command runs its body once and stores its response. *)
Lemma recorded_fresh s r s' :
  find_record c s = None -> recorded cuid texts c execute project authorized s = Ok (r, s') ->
  exists id d1 t d2 resp d3, records s !! id = None /\ prepared (domain s) d1 /\
    execute d1 = Ok (t, d2) /\ project t d2 = Ok (resp, d3) /\ r = authorized resp /\
    s' = mkStore d3 (<[id := response_row id c resp]> (records s)).
Proof.
  intros Hf H. unfold recorded in H. run_inv. rewrite Hf in H.
  unfold create_record in H. run_inv. apply zoom_ok in Hrun0 as (d0 & Hid & ->).
  apply zoom_ok in Hrun1 as (d3 & Hproj & ->). injection Hrun3 as <- <-.
  unfold record_response in Hrun2. run_inv. cbn [records set_records put store_domain] in Hsome.
  rewrite lookup_insert_eq in Hsome. injection Hsome as <-.
  apply bool_decide_eq_false, eq_None_not_Some in Hguard.
  eexists _, _, _, _, _, d3. split; [exact Hguard|]. split; [|split; [exact Hid|split; [exact Hproj|split; [done|]]]].
  - split; [done|]. exists (locks (inv_of (domain s))). eexists. by destruct s as [[[] ?] ?].
  - unfold set_records. simpl. by rewrite insert_insert_eq.
Qed.

Lemma same_command_row id resp c' :
  same_command c' (response_row id c resp) = true ->
  ci_actorId c = ci_actorId c' /\ ci_scope c = ci_scope c' /\ ci_keyHash c = ci_keyHash c'.
Proof. unfold same_command. simpl. rewrite !andb_true_iff, !bool_decide_eq_true. naive_solver. Qed.

(** The record table after a command. *)
Lemma recorded_records s r s' :
  records_ok (records s) -> recorded cuid texts c execute project authorized s = Ok (r, s') ->
  records_ok (records s') /\ records s ⊆ records s' /\
  exists prior resp, find_record c s' = Some prior /\ cr_payloadHash prior = ci_payloadHash c /\
    cr_response prior = Some resp /\ r = authorized resp.
Proof.
  intros [Hu Hr] H. destruct (find_record c s) as [prior|] eqn:Hf.
  - pose proof Hf as Hf'. apply find_by_Some in Hf' as [[id Hid] _]. destruct (Hr _ _ Hid) as [resp Hresp].
    rewrite (recorded_replay s prior resp Hf Hresp) in H. case_bool_decide; [|done].
    injection H as <- <-. split; [done|]. split; [done|]. by exists prior, resp.
  - apply recorded_fresh in H as (id & d1 & t & d2 & resp & d3 & Hid & _ & _ & _ & -> & ->); [|done].
    cbn [records]. split; [|split].
    + split.
      * intros c' k1 k2 r1 r2 H1 H2 P1 P2.
        assert (Hsame : forall k x, records s !! k = Some x -> same_command c' x = true ->
          same_command c' (response_row id c resp) = true -> False).
        { intros k x Hx Px Pr. apply same_command_row in Pr as (E1 & E2 & E3).
          unfold find_record in Hf. rewrite find_by_None in Hf. pose proof (Hf k x Hx) as Hno.
          unfold same_command in Hno, Px. rewrite E1, E2, E3 in Hno. congruence. }
        apply lookup_insert_Some in H1 as [[<- <-]|[_ H1]], H2 as [[<- <-]|[_ H2]]; try done;
          [destruct (Hsame _ _ H2 P2 P1)|destruct (Hsame _ _ H1 P1 P2)|by eapply Hu].
      * intros k x [[<- <-]|[_ Hx]]%lookup_insert_Some; [by eexists|by eapply Hr].
    + by apply insert_subseteq.
    + exists (response_row id c resp), resp. split; [|done]. unfold find_record. cbn [records].
      apply (find_by_inserted (same_command c)); [done|exact Hf|]. unfold same_command. simpl.
      by rewrite !bool_decide_true.
Qed.

Lemma command_records s r s' :
  records_ok (records s) -> command_tx cuid texts c execute project authorized s = Ok (r, s') ->
  records_ok (records s') /\ records s ⊆ records s' /\
  exists prior resp, find_record c s' = Some prior /\ cr_payloadHash prior = ci_payloadHash c /\
    cr_response prior = Some resp /\ r = authorized resp.
Proof. intros Hs H. rewrite command_run in H. exact (recorded_records (locked (command_locks texts c) s) r s' Hs H). Qed.
End one.

(** A key whose record stayed in the table finds it again. *)
Lemma find_record_later c s s' prior :
  records_ok (records s') -> records s ⊆ records s' -> find_record c s = Some prior -> find_record c s' = Some prior.
Proof.
  intros [Hu _] Hsub Hf. apply find_by_Some in Hf as [[id Hid] HP].
  apply (find_by_unique _ _ id); [apply Hu| |done]. by eapply lookup_weaken.
Qed.
End proofs.

(** Durable commands on the inventory: the runs of a service on its domain, what
    leaves the stock alone and what posts a quantity, and the safety of a command
    whose body refines the abstract stock machine. *)

(** * Runs on the domain *)

Lemma on_inv_ok {X A} (m : M InvDb A) (d : Domain X) a d' :
  on_inv m d = Ok (a, d') <-> exists t, m (inv_of d) = Ok (a, t) /\ d' = mkDomain t (own d).
Proof. exact (zoom_ok m d a d'). Qed.
Lemma on_own_ok {X A} (m : M X A) (d : Domain X) a d' :
  on_own m d = Ok (a, d') <-> exists t, m (own d) = Ok (a, t) /\ d' = mkDomain (inv_of d) t.
Proof. exact (zoom_ok m d a d'). Qed.
Lemma lock_in_ok {X} parts (d : Domain X) u d' :
  lock_in parts d = Ok (u, d') -> exists ls, d' = mkDomain (set_locks ls (inv_of d)) (own d).
Proof. intros H. apply on_inv_ok in H as (t & H & ->). injection H as _ <-. by eexists. Qed.

(** Opens a run on the domain into the runs on its parts. *)
Ltac run_part :=
  match goal with
  | H : on_inv _ _ = Ok _ |- _ =>
      let t := fresh "t" in apply on_inv_ok in H; destruct H as (t & H & ->); cbn [inv_of own] in *
  | H : on_own _ _ = Ok _ |- _ =>
      let t := fresh "t" in apply on_own_ok in H; destruct H as (t & H & ->); cbn [inv_of own] in *
  | H : lock_in _ _ = Ok _ |- _ =>
      let ls := fresh "ls" in apply lock_in_ok in H; destruct H as (ls & ->); cbn [inv_of own] in *
  end.
Ltac run_domain := repeat (progress run_inv || run_part).

(** Steps that touch neither the service's tables nor the stock. *)
Definition quiet {X} (d d' : Domain X) : Prop := own d' = own d /\ same_stock (inv_of d) (inv_of d').

Lemma quiet_lock {X} parts (d : Domain X) u d' : lock_in parts d = Ok (u, d') -> quiet d d'.
Proof. intros H. apply lock_in_ok in H as [ls ->]. by split. Qed.
Lemma quiet_record {X} input (d : Domain X) u d' : on_inv (record input) d = Ok (u, d') -> quiet d d'.
Proof.
  intros H. apply on_inv_ok in H as (t & H & ->). apply record_audit_ok in H as (rows & [= _ ->]).
  split; [done|]. unfold same_stock. simpl. split_and!; [done..|]. by eexists.
Qed.
Lemma quiet_fresh {X} cuid (d : Domain X) id d' : on_inv (fresh_id cuid) d = Ok (id, d') -> quiet d d'.
Proof. intros H. apply on_inv_ok in H as (t & [= _ <-] & ->). by split. Qed.

(** Posting a quantity with its movement. *)
Lemma posted db db' b q id m :
  inv db -> balance_slot b db -> balances db' = <[b_id b := b]> (balances db) ->
  movements db !! id = None -> movements db' = <[id := m]> (movements db) ->
  m_key m = b_key b -> m_quantity m = q -> reservations db' = reservations db ->
  audits db `prefix_of` audits db' -> shifted b db q 0 -> (0 <= b_available b)%Z ->
  refines [EChange (b_key b) q] db db' /\
  (forall k, level k db' = if decide (k = b_key b) then cols b else level k db).
Proof.
  intros Hinv Hslot Hb Hid Hm Hk Hq Hr Ha Hs Hav. split; [|intros k; by apply write_level].
  apply (change_refines db db' b Hinv Hslot Hb _ q id m); try done.
  pose proof (held_at_nonneg (b_key b) db (proj1 Hinv)) as Hh. destruct (proj2 Hinv (b_key b)) as [Hl _].
  unfold shifted, cols in Hs. rewrite Hl in Hs. injection Hs. simpl. lia.
Qed.

(** * Safety of durable commands *)

Section safety.
Context {X R : Type} (cuid : nat -> string) (own_ok : X -> Prop) (step : X -> X -> Prop).
Implicit Types (s : Store X R) (d : Domain X).

Definition store_ok s : Prop :=
  inv (inv_of (domain s)) /\ own_ok (own (domain s)) /\ records_ok (records s).
Definition store_evolves s s' : Prop :=
  evolves (inv_of (domain s)) (inv_of (domain s')) /\ records s ⊆ records s'.

#[export] Instance store_evolves_preorder : PreOrder store_evolves.
Proof.
  split; [by split|]. intros s1 s2 s3 [E1 R1] [E2 R2]. split; [by etrans|by etrans].
Qed.

(** The body of a command does its step on the service's tables and some steps of
    the stock machine on the inventory. *)
Definition safe_body {T} (execute : M (Domain X) T) : Prop :=
  forall d a d', inv (inv_of d) -> own_ok (own d) -> execute d = Ok (a, d') ->
  (exists es, refines es (inv_of d) (inv_of d')) /\ own_ok (own d') /\ step (own d) (own d').

(** What a committed command does. *)
Definition durable_step (c : CommandId) s s' : Prop :=
  store_ok s' /\ store_evolves s s' /\
  match find_record c s with
  | Some _ => own (domain s') = own (domain s) /\ same_stock (inv_of (domain s)) (inv_of (domain s')) /\
      records s' = records s
  | None => step (own (domain s)) (own (domain s'))
  end.

Lemma recorded_safe {T} texts c (execute : M (Domain X) T) project authorized s r s' :
  safe_body execute -> (forall t d r d', project t d = Ok (r, d') -> d' = d) -> store_ok s ->
  recorded cuid texts c execute project authorized s = Ok (r, s') -> durable_step c s s'.
Proof.
  intros Hsafe Hproj (Hinv & Hown & Hrec) H.
  destruct (recorded_records cuid texts c execute project authorized s r s' Hrec H) as (Hrec' & Hsub & _).
  unfold durable_step. destruct (find_record c s) as [prior|] eqn:Hf.
  - pose proof Hf as Hf'. apply find_by_Some in Hf' as [[id Hid] _]. destruct (proj2 Hrec _ _ Hid) as [resp Hresp].
    rewrite (recorded_replay cuid texts c execute project authorized s prior resp Hf Hresp) in H.
    case_bool_decide; [|done]. injection H as _ <-. by split_and!.
  - apply recorded_fresh in H as (id & d1 & t & d2 & resp & d3 & Hid & (Ho & ls & n & Hdb) & Hex & Hp & -> & ->); [|done].
    apply Hproj in Hp as ->. cbn [domain records] in *.
    assert (Hq : same_stock (inv_of (domain s)) (inv_of d1)) by (rewrite Hdb; by unfold same_stock).
    apply Hsafe in Hex as ([es Href] & Hok & Hstep); [|by eapply inv_same_stock|by rewrite Ho].
    rewrite Ho in Hstep.
    assert (Href' : refines es (inv_of (domain s)) (inv_of d2)) by (by eapply refines_frame_l).
    destruct Href' as (Hi & He & _). by split_and!.
Qed.

(** Taking locks first. *)
Definition locked_only s s1 : Prop := exists ls, s1 = mkStore (mkDomain (set_locks ls (inv_of (domain s))) (own (domain s))) (records s).

Lemma locked_step c s s1 s' : store_ok s -> locked_only s s1 -> (store_ok s1 -> durable_step c s1 s') -> durable_step c s s'.
Proof. intros Hs [ls ->] H. apply H. exact Hs. Qed.

Lemma durable_tx_safe {T} texts c (execute : M (Domain X) T) project authorized s r s' :
  safe_body execute -> (forall t d r d', project t d = Ok (r, d') -> d' = d) -> store_ok s ->
  command_tx cuid texts c execute project authorized s = Ok (r, s') -> durable_step c s s'.
Proof.
  intros Hsafe Hproj Hs H. rewrite command_run in H. eapply locked_step; [done|by eexists|].
  intros Hs1. by eapply recorded_safe.
Qed.

Definition unlocked s : Store X R :=
  mkStore (mkDomain (set_locks [] (inv_of (domain s))) (own (domain s))) (records s).

Lemma begin_store_ok {A} (m : M (Store X R) A) s r s' :
  begin_store m s = Ok (r, s') <-> m (unlocked s) = Ok (r, s').
Proof. unfold begin_store. by erewrite bind_run by reflexivity. Qed.

(** What the other clients of the store may do between two attempts. *)
Definition store_rely (E : env (Store X R)) : Prop :=
  forall k s, store_ok s -> store_ok (others E k s) /\ store_evolves s (others E k s).

(** The public command: its outcome among other clients. *)
Definition durable_outcome (E : env (Store X R)) (c : CommandId) s (out : result R * Store X R) : Prop :=
  store_ok (snd out) /\ store_evolves s (snd out) /\
  match fst out with
  | Ok r => exists s1, store_ok s1 /\ store_evolves s s1 /\ durable_step c s1 (snd out)
  | Err _ => snd out = s \/ exists n, snd out = drift E 1 n s
  end.

Lemma store_drift (E : env (Store X R)) k n s :
  store_rely E -> store_ok s -> store_ok (drift E k n s) /\ store_evolves s (drift E k n s).
Proof.
  intros HE. revert k s. induction n as [|n IH]; intros k s Hs; simpl; [by split|].
  destruct (HE k s Hs) as [H1 H2]. destruct (IH (S k) _ H1) as [H3 H4]. split; [done|]. by etrans.
Qed.

Lemma durable_retry (E : env (Store X R)) retryable exhausted c (m : M (Store X R) R) s :
  store_rely E -> (forall s1 r s', store_ok s1 -> m s1 = Ok (r, s') -> durable_step c s1 s') -> store_ok s ->
  durable_outcome E c s (retry_loop E retryable exhausted (begin_store m) 3 1 s).
Proof.
  intros HE Hm Hs. unfold durable_outcome.
  destruct (retry_loop_spec E retryable exhausted (begin_store m) 3 1 s) as (j & _ & Hout); [lia|].
  destruct (retry_loop _ _ _ _ _ _ _) as [[r|e] s']; cbn [fst snd].
  - destruct Hout as [_ Hout]. destruct (store_drift E 1 (S j) s HE Hs) as [Hok Hev].
    set (s1 := drift E 1 (S j) s) in *. apply begin_store_ok in Hout.
    assert (Hok1 : store_ok (unlocked s1)) by exact Hok.
    destruct (Hm _ r s' Hok1 Hout) as (H1 & H2 & H3).
    assert (Hstep : durable_step c s1 s') by (split; [exact H1|split; [exact H2|exact H3]]).
    split; [exact H1|]. split; [etrans; [exact Hev|exact H2]|]. exists s1. split; [exact Hok|]. by split.
  - subst s'. destruct (store_drift E 1 (S j) s HE Hs). split; [done|]. split; [done|]. right. by exists (S j).
Qed.

Lemma durable_public {T} (E : env (Store X R)) texts c (execute : M (Domain X) T) project authorized s :
  store_rely E -> safe_body execute -> (forall t d r d', project t d = Ok (r, d') -> d' = d) -> store_ok s ->
  durable_outcome E c s (command_loop E texts (command_tx cuid texts c execute project authorized) s).
Proof.
  intros HE Hsafe Hproj Hs. apply durable_retry; [done| |done]. intros. by eapply durable_tx_safe.
Qed.
End safety.
