(* ===== verification/CreditBooks.v ===== *)
(** The books of the credit ledger: the invariant that the deferred checks of the
    database state about documents, receipts and the ledger, what posting entries does
    to its sums, and the balances it implies. *)

From S2P Require Import Prelude Table Json AuditTrail Retry InventoryModel Inventory.
From S2P Require Import Durable StateMachine Credit CreditCommands.

(** * The invariant *)

Definition is_initial (e : CreditLedgerEntry) : bool := bool_decide (en_kind e ∈ [ENTRY_OPENING_BALANCE; ENTRY_SALE]).
Definition initial_kind (k : ReceivableDocumentKind) : CreditEntryKind :=
  match k with DOC_SALE => ENTRY_SALE | DOC_OPENING_BALANCE => ENTRY_OPENING_BALANCE end.
Definition plain (e : CreditLedgerEntry) : Prop := en_receiptId e = None /\ en_reversalOfId e = None.

(** [CreditLedgerEntry_shape_valid] and the checks of [credit_entry_validate]. *)
Definition entry_shape (t : CreditTables) (d : ReceivableDocument) (e : CreditLedgerEntry) : Prop :=
  match en_kind e with
  | ENTRY_OPENING_BALANCE | ENTRY_SALE => en_kind e = initial_kind (rd_kind d) /\ en_amount e = rd_amount d /\ plain e
  | ENTRY_RECEIPT => (en_amount e < 0)%Z /\ en_reversalOfId e = None /\
      exists r, en_receiptId e = Some (cr_receiptId r) /\ receipts t !! cr_receiptId r = Some r /\ cr_accountId r = en_accountId e
  | ENTRY_RECEIPT_REVERSAL => exists o, en_reversalOfId e = Some (en_id o) /\ entries t !! en_id o = Some o /\
      en_kind o = ENTRY_RECEIPT /\ en_documentId o = en_documentId e /\ en_accountId o = en_accountId e /\
      en_receiptId o = en_receiptId e /\ en_amount e = (- en_amount o)%Z
  | ENTRY_DEBIT_ADJUSTMENT => (0 < en_amount e)%Z /\ plain e
  | ENTRY_CREDIT_NOTE => (en_amount e < 0)%Z /\ plain e
  end.
Definition entry_ok (t : CreditTables) (e : CreditLedgerEntry) : Prop :=
  exists d, documents t !! en_documentId e = Some d /\ rd_accountId d = en_accountId e /\ entry_shape t d e.

Definition is_receipt_of (r : CreditReceipt) (e : CreditLedgerEntry) : bool :=
  bool_decide (en_kind e = ENTRY_RECEIPT) && bool_decide (en_receiptId e = Some (cr_receiptId r)).
(** A receipt is allocated exactly, and reversed as a whole or not at all. *)
Definition receipt_ok (t : CreditTables) (r : CreditReceipt) : Prop :=
  (0 < cr_amount r)%Z /\ sum_entries (is_receipt_of r) t = (- cr_amount r)%Z /\
  exists b, forall id e, entries t !! id = Some e -> is_receipt_of r e = true -> reversed_in t e = b.

Definition payouts_of (returnId : string) (t : CreditTables) : Z :=
  tsum (fun p => if bool_decide (py_returnId p = returnId) then py_amount p else 0%Z) (payouts t).
(** A compensation credits what is owed first; a refund is due only on a settled
    document, and payouts never exceed it. *)
Definition return_ok (t : CreditTables) (r : CreditSaleReturn) : Prop :=
  exists d, documents t !! sr_documentId r = Some d /\ (0 <= sr_debtCredit r)%Z /\ (0 <= sr_refundDue r)%Z /\
    sr_amount r = (sr_debtCredit r + sr_refundDue r)%Z /\ ((0 < sr_refundDue r)%Z -> outstanding t d = 0%Z) /\
    (payouts_of (sr_id r) t <= sr_refundDue r)%Z.

Definition account_total (accountId : string) (t : CreditTables) : Z :=
  sum_entries (fun e => bool_decide (en_accountId e = accountId)) t.

(** Rows carry their key, a customer has one account, and limits are in range. *)
Definition accounts_ok (m : gmap string CreditAccount) : Prop :=
  (forall id a, m !! id = Some a -> ca_id a = id) /\
  (forall c, unique_on (fun a => bool_decide (ca_customerId a = c)) m) /\
  forall id a, m !! id = Some a -> (0 <= ca_creditLimit a <= MAX_CREDIT_IRR)%Z.

Record books_ok (t : CreditTables) : Prop := {
  bk_accounts : accounts_ok (accounts t);
  bk_documents : forall id d, documents t !! id = Some d ->
    rd_id d = id /\ is_Some (accounts t !! rd_accountId d) /\ (0 < rd_amount d)%Z;
  bk_entries : forall id e, entries t !! id = Some e -> en_id e = id /\ entry_ok t e;
  bk_initial : forall id d, documents t !! id = Some d ->
    exists e, entries t !! en_id e = Some e /\ en_documentId e = id /\ is_initial e = true;
  bk_initial_once : forall id, unique_on (fun e => bool_decide (en_documentId e = id) && is_initial e) (entries t);
  bk_reversal_once : forall o, unique_on (fun e => bool_decide (en_reversalOfId e = Some o)) (entries t);
  bk_receipts : forall id r, receipts t !! id = Some r -> cr_receiptId r = id /\ receipt_ok t r;
  bk_balance : forall id d, documents t !! id = Some d ->
    (0 <= outstanding t d)%Z /\ (principal t d <= MAX_CREDIT_IRR)%Z;
  bk_total : forall a, (account_total a t <= MAX_CREDIT_IRR)%Z;
  bk_returns : forall id r, sale_returns t !! id = Some r -> sr_id r = id /\ return_ok t r;
  bk_payouts : forall id p, payouts t !! id = Some p -> is_Some (sale_returns t !! py_returnId p)
}.

(** * Sums over the ledger *)

Lemma sum_entries_ext P Q t :
  (forall id e, entries t !! id = Some e -> P e = Q e) -> sum_entries P t = sum_entries Q t.
Proof. intros H. apply tsum_ext. intros id e He. by rewrite (H id e He). Qed.

Lemma sum_entries_split P A t :
  sum_entries P t = (sum_entries (fun e => P e && A e) t + sum_entries (fun e => P e && negb (A e)) t)%Z.
Proof.
  unfold sum_entries. rewrite !tsum_rows, <- sumZ_add. apply sumZ_ext. intros e _. destruct (P e), (A e); simpl; lia.
Qed.

Lemma sum_entries_0 P t : (forall id e, entries t !! id = Some e -> P e = false) -> sum_entries P t = 0%Z.
Proof. intros H. apply tsum_0. intros id e He. by rewrite (H id e He). Qed.

Section balances.
Context (t : CreditTables) (Hok : books_ok t).

Lemma entry_document id e : entries t !! id = Some e ->
  exists d, documents t !! en_documentId e = Some d /\ rd_id d = en_documentId e /\ rd_accountId d = en_accountId e.
Proof using Hok.
  intros He. destruct (bk_entries t Hok id e He) as [_ (d & Hd & Ha & _)]. exists d. split; [done|]. split; [|done].
  by apply (bk_documents t Hok).
Qed.

Lemma of_document_id d id e : documents t !! rd_id d = Some d -> entries t !! id = Some e ->
  of_document d e = bool_decide (en_documentId e = rd_id d).
Proof using Hok.
  intros Hd He. unfold of_document. case_bool_decide as E; [|done]. simpl. apply bool_decide_eq_true.
  destruct (entry_document id e He) as (d' & Hd' & _ & <-). rewrite E in Hd'. congruence.
Qed.

(** Reversals of a document's receipts never exceed the receipts. *)
Lemma reversals_within_receipts d :
  (sum_entries (fun e => of_document d e && bool_decide (en_kind e = ENTRY_RECEIPT_REVERSAL)) t
   <= - sum_entries (fun e => of_document d e && bool_decide (en_kind e = ENTRY_RECEIPT)) t)%Z.
Proof using Hok.
  assert (Hneg : (- sum_entries (fun e => of_document d e && bool_decide (en_kind e = ENTRY_RECEIPT)) t)%Z =
    tsum (fun e => if of_document d e && bool_decide (en_kind e = ENTRY_RECEIPT) then - en_amount e else 0)%Z (entries t)).
  { unfold sum_entries. rewrite !tsum_rows. induction (rows (entries t)) as [|e l IH]; [done|]. simpl. rewrite <- IH.
    destruct (_ && _); lia. }
  rewrite Hneg. apply (tsum_matched en_id en_reversalOfId).
  - intros k e He. by apply (bk_entries t Hok).
  - intros k e He [_ Hk%bool_decide_eq_true]%andb_prop.
    destruct (bk_entries t Hok k e He) as [_ (d' & _ & _ & Hs)]. unfold entry_shape in Hs. rewrite Hk in Hs. lia.
  - intros k e He [Hd Hk%bool_decide_eq_true]%andb_prop.
    destruct (bk_entries t Hok k e He) as [_ (d' & _ & _ & Hs)]. unfold entry_shape in Hs. rewrite Hk in Hs.
    destruct Hs as (o & Hrev & Ho & Hok' & Hdoc & Hacc & _ & Ham). exists o. split_and!; [done..| |lia].
    unfold of_document in *. by rewrite Hdoc, Hacc, Hd, Hok', bool_decide_true.
  - intros o k1 k2 e1 e2 H1 H2 [_ P1]%andb_prop [_ P2]%andb_prop. by eapply (bk_reversal_once t Hok o).
Qed.

(** What is owed on a document is at most its principal. *)
Lemma outstanding_le_principal d : (outstanding t d <= principal t d)%Z.
Proof using Hok.
  unfold outstanding, principal. rewrite (sum_entries_split (of_document d) is_principal).
  rewrite (sum_entries_split (fun e => of_document d e && negb (is_principal e)) (fun e => bool_decide (en_kind e = ENTRY_RECEIPT))).
  pose proof (reversals_within_receipts d) as H.
  rewrite (sum_entries_ext (fun e => of_document d e && negb (is_principal e) && bool_decide (en_kind e = ENTRY_RECEIPT))
    (fun e => of_document d e && bool_decide (en_kind e = ENTRY_RECEIPT))),
   (sum_entries_ext (fun e => of_document d e && negb (is_principal e) && negb (bool_decide (en_kind e = ENTRY_RECEIPT)))
    (fun e => of_document d e && bool_decide (en_kind e = ENTRY_RECEIPT_REVERSAL))); [lia|..];
    intros id e _; unfold is_principal; destruct (of_document d e), (en_kind e); done.
Qed.
End balances.

(** The total over the documents of an account is the total of its entries. *)
Lemma account_total_documents a t : books_ok t ->
  sumZ (outstanding t) (account_documents a t) = account_total a t.
Proof.
  intros Hok. unfold account_documents. rewrite sumZ_find_many. unfold outstanding, sum_entries, account_total, sum_entries.
  rewrite (tsum_ext _ (fun d => tsum (fun e => if bool_decide (rd_accountId d = a) && of_document d e then en_amount e else 0%Z)
    (entries t))).
  2: { intros k d _. case_bool_decide; [done|]. symmetry. apply tsum_0. done. }
  rewrite tsum_swap. apply tsum_ext. intros k e He.
  destruct (entry_document t Hok k e He) as (d & Hd & Hid & Ha).
  rewrite (tsum_unique (fun _ => en_amount e)).
  - assert (Hu : unique_on (fun d => bool_decide (rd_accountId d = a) && of_document d e) (documents t)).
    { intros k1 k2 d1 d2 H1 H2 [_ [P1%bool_decide_eq_true _]%andb_prop]%andb_prop [_ [P2%bool_decide_eq_true _]%andb_prop]%andb_prop.
      destruct (bk_documents t Hok _ _ H1) as [<- _]. destruct (bk_documents t Hok _ _ H2) as [<- _]. congruence. }
    case_bool_decide as E.
    + rewrite (find_by_unique _ _ (en_documentId e) d); [done|done|done|]. unfold of_document.
      by rewrite Ha, Hid, E, !bool_decide_true.
    + destruct (find_by _ (documents t)) as [d'|] eqn:Hf; [|done].
      apply find_by_Some in Hf as [_ [P1%bool_decide_eq_true [_ P2%bool_decide_eq_true]%andb_prop]%andb_prop]. congruence.
  - intros k1 k2 d1 d2 H1 H2 [_ [P1%bool_decide_eq_true _]%andb_prop]%andb_prop [_ [P2%bool_decide_eq_true _]%andb_prop]%andb_prop.
    destruct (bk_documents t Hok _ _ H1) as [<- _]. destruct (bk_documents t Hok _ _ H2) as [<- _]. congruence.
Qed.

Lemma account_total_nonneg a t : books_ok t -> (0 <= account_total a t)%Z.
Proof.
  intros Hok. rewrite <- account_total_documents by done. apply sumZ_nonneg. intros d Hd.
  apply elem_of_find_many in Hd as [[k Hk] _]. by apply (bk_balance t Hok k).
Qed.

(** One document owes at most what its account owes. *)
Lemma outstanding_le_total d t : books_ok t -> documents t !! rd_id d = Some d ->
  (outstanding t d <= account_total (rd_accountId d) t)%Z.
Proof.
  intros Hok Hd. rewrite <- account_total_documents by done. unfold account_documents. rewrite sumZ_find_many.
  pose proof (tsum_ge (fun d' => if bool_decide (rd_accountId d' = rd_accountId d) then outstanding t d' else 0%Z)
    (documents t) (rd_id d) d) as H. cbn beta in H. rewrite bool_decide_true in H by done. apply H; [|done].
  intros k d' Hd'. case_bool_decide; [|lia]. by apply (bk_balance t Hok k).
Qed.

(** * Posting *)

(** What an account is, apart from its version. *)
Definition policy_of (a : CreditAccount) : string * string * CreditAccountStatus * Z * Z :=
  (ca_id a, ca_customerId a, ca_status a, ca_creditLimit a, ca_termsDays a).

(** Entries inserted one after the other, with their version advances. *)
Inductive posts : list CreditLedgerEntry -> CreditTables -> CreditTables -> Prop :=
  | posts_nil t : posts [] t t
  | posts_cons e es t acc t2 :
      entries t !! en_id e = None -> find_by (entry_collides e) (entries t) = None ->
      policy_of <$> acc = policy_of <$> accounts t ->
      posts es (set_entries (<[en_id e := e]> (entries t)) (set_accounts acc t)) t2 ->
      posts (e :: es) t t2.

Lemma posts_frame es t t' : posts es t t' ->
  policy_of <$> accounts t' = policy_of <$> accounts t /\
  t' = set_entries (entries t') (set_accounts (accounts t') t) /\ entries t ⊆ entries t'.
Proof.
  induction 1 as [t|e es t acc t2 Hid Hc Ha Hp (IH1 & IH2 & IH3)]; [by destruct t|].
  cbn in IH1, IH3. split; [by rewrite IH1|]. split; [by rewrite IH2 at 1|].
  etrans; [|exact IH3]. by apply insert_subseteq.
Qed.

(** Advancing versions keeps the accounts and their holders. *)
Lemma policy_lookup (m m' : gmap string CreditAccount) id a : policy_of <$> m' = policy_of <$> m -> m' !! id = Some a ->
  exists a0, m !! id = Some a0 /\ policy_of a = policy_of a0.
Proof.
  intros H Ha. assert (E : (policy_of <$> m') !! id = (policy_of <$> m) !! id) by by rewrite H.
  rewrite !lookup_fmap, Ha in E. destruct (m !! id) as [a0|]; [|done]. exists a0. split; [done|]. injection E as E1 E2 E3 E4 E5. unfold policy_of. by rewrite E1, E2, E3, E4, E5.
Qed.
Lemma policy_dom (m m' : gmap string CreditAccount) id : policy_of <$> m' = policy_of <$> m ->
  is_Some (m !! id) -> is_Some (m' !! id).
Proof. intros H [a Ha]. symmetry in H. destruct (policy_lookup _ _ _ _ H Ha) as (a' & Ha' & _). by eexists. Qed.
Lemma policy_accounts (m m' : gmap string CreditAccount) : policy_of <$> m' = policy_of <$> m -> accounts_ok m -> accounts_ok m'.
Proof.
  intros H (Hid & Hu & Hl). split; [|split].
  - intros id a Ha. apply (policy_lookup _ _ _ _ H) in Ha as (a0 & Ha0 & E). injection E as E _ _ _ _. rewrite E. by apply Hid.
  - intros c k1 k2 a1 a2 H1 H2. apply (policy_lookup _ _ _ _ H) in H1 as (b1 & H1 & E1), H2 as (b2 & H2 & E2).
    injection E1 as _ E1 _ _ _. injection E2 as _ E2 _ _ _. rewrite E1, E2. by apply (Hu c).
  - intros id a Ha. apply (policy_lookup _ _ _ _ H) in Ha as (a0 & Ha0 & E). injection E as _ _ _ E _. rewrite E. by eapply Hl.
Qed.

Lemma posts_sum es t t' P : posts es t t' ->
  sum_entries P t' = (sum_entries P t + sumZ (fun e => if P e then en_amount e else 0) es)%Z.
Proof.
  induction 1 as [t|e es t acc t2 Hid Hc Ha Hp IH]; simpl; [lia|]. rewrite IH. unfold sum_entries. simpl.
  rewrite tsum_insert_new by done. lia.
Qed.

Lemma sum_entries_eq P t t' : entries t = entries t' -> sum_entries P t = sum_entries P t'.
Proof. unfold sum_entries. by intros ->. Qed.

Lemma posts_sum_none es t t' P : posts es t t' -> (forall e, e ∈ es -> P e = false) -> sum_entries P t' = sum_entries P t.
Proof.
  intros Hp HP. rewrite (posts_sum es t t' P Hp), (sumZ_ext _ (fun _ => 0%Z)); [rewrite sumZ_const; lia|].
  intros e He. by rewrite HP.
Qed.

(** The entries after a posting. *)
Lemma posts_lookup es t t' id e : posts es t t' ->
  entries t' !! id = Some e -> entries t !! id = Some e \/ (id = en_id e /\ e ∈ es).
Proof.
  induction 1 as [t|e0 es t acc t2 Hid Hc Ha Hp IH]; [by left|]. intros H. apply IH in H as [H|[-> H]].
  - cbn in H. apply lookup_insert_Some in H as [[<- <-]|[_ H]]; [right; split; [done|constructor]|by left].
  - right. split; [done|by constructor].
Qed.
Lemma posts_new es t t' e : posts es t t' -> e ∈ es -> entries t' !! en_id e = Some e /\ entries t !! en_id e = None.
Proof.
  induction 1 as [t|e0 es t acc t2 Hid Hc Ha Hp IH]; [by intros ?%elem_of_nil|].
  pose proof (posts_frame _ _ _ Hp) as (_ & _ & Hsub). intros [->|He]%elem_of_cons.
  - split; [|done]. eapply lookup_weaken; [|exact Hsub]. cbn. apply lookup_insert_eq.
  - destruct (IH He) as [H1 H2]. split; [done|]. cbn in H2. by apply lookup_insert_None in H2 as [? _].
Qed.

(** Columns that collide stay unique. *)
Lemma posts_unique es t t' (Q : CreditLedgerEntry -> bool) : posts es t t' ->
  (forall e e', Q e = true -> Q e' = true -> entry_collides e e' = true) ->
  unique_on Q (entries t) -> unique_on Q (entries t').
Proof.
  intros Hp HQ. induction Hp as [t|e es t acc t2 Hid Hc Ha Hp IH]; [done|]. intros Hu. apply IH. cbn.
  apply unique_on_insert; [done..|]. intros He. apply find_by_None. intros k e' He'. rewrite find_by_None in Hc.
  specialize (Hc k e' He'). destruct (Q e') eqn:E; [|done]. by rewrite (HQ e e' He E) in Hc.
Qed.

Lemma reversal_collides o e e' : bool_decide (en_reversalOfId e = Some o) = true ->
  bool_decide (en_reversalOfId e' = Some o) = true -> entry_collides e e' = true.
Proof.
  intros H1%bool_decide_eq_true H2%bool_decide_eq_true. unfold entry_collides.
  by rewrite H1, H2, (bool_decide_true (is_Some _)), bool_decide_true by (done || by eexists).
Qed.

(** ** The invariant after a posting *)

Lemma entry_ok_mono t t' e : entry_ok t e -> documents t ⊆ documents t' -> receipts t ⊆ receipts t' ->
  entries t ⊆ entries t' -> entry_ok t' e.
Proof.
  intros (d & Hd & Ha & Hs) HD HR HE. exists d. split; [by eapply lookup_weaken|]. split; [done|].
  unfold entry_shape in *. destruct (en_kind e); try done.
  - destruct Hs as (H1 & H2 & r & H3 & H4 & H5). split_and!; [done..|]. exists r. split_and!; [done|by eapply lookup_weaken|done].
  - destruct Hs as (o & H1 & H2 & Hs). exists o. split; [done|]. split; [by eapply lookup_weaken|done].
Qed.

Lemma reversed_in_true t e :
  reversed_in t e = true <-> exists id r, entries t !! id = Some r /\ en_reversalOfId r = Some (en_id e).
Proof.
  unfold reversed_in. rewrite bool_decide_eq_true. split.
  - intros [r Hr]. apply find_by_Some in Hr as [[id Hid] Hr%bool_decide_eq_true]. by exists id, r.
  - intros (id & r & Hid & Hr). destruct (find_by _ _) eqn:E; [by eexists|]. rewrite find_by_None in E.
    specialize (E id r Hid). by rewrite bool_decide_true in E.
Qed.

Lemma initial_shape t d e : en_kind e ∈ [ENTRY_OPENING_BALANCE; ENTRY_SALE] -> entry_shape t d e ->
  en_kind e = initial_kind (rd_kind d).
Proof. unfold entry_shape. destruct (en_kind e); intros Hin Hs; try (by destruct Hs); set_solver. Qed.

Section post.
Context (t0 t t' : CreditTables) (es : list CreditLedgerEntry).
Hypotheses (Hok : books_ok t0) (Hp : posts es t t') (HE : entries t = entries t0)
  (HR : receipts t0 ⊆ receipts t) (HD : documents t0 ⊆ documents t) (Hes : forall e, e ∈ es -> entry_ok t' e).

Lemma post_tables : documents t' = documents t /\ receipts t' = receipts t /\ sale_returns t' = sale_returns t /\
  payouts t' = payouts t.
Proof using Hp. destruct (posts_frame es t t' Hp) as (_ & -> & _). done. Qed.

Lemma post_entries id e : entries t' !! id = Some e -> en_id e = id /\ entry_ok t' e.
Proof using Hok Hp HE HR HD Hes.
  destruct post_tables as (D & R & _ & _). intros H. destruct (posts_lookup es t t' id e Hp H) as [H0|[-> H0]]; [|by auto].
  rewrite HE in H0. destruct (bk_entries t0 Hok id e H0) as [H1 H2]. split; [done|].
  eapply entry_ok_mono; [exact H2|by rewrite D|by rewrite R|]. rewrite <- HE. apply (posts_frame es t t' Hp).
Qed.

(** A receipt without new allocations or reversals keeps its state. *)
Lemma post_receipt id r : receipts t0 !! id = Some r -> (forall e, e ∈ es -> en_receiptId e <> Some id) -> receipt_ok t' r.
Proof using Hok Hp HE HR HD Hes.
  intros Hr Hno. destruct (bk_receipts t0 Hok id r Hr) as [Hid (H1 & H2 & b & H3)]. subst id.
  assert (Hnew : forall e, e ∈ es -> is_receipt_of r e = false).
  { intros e He. unfold is_receipt_of. rewrite (bool_decide_false (en_receiptId e = _)) by by apply Hno. by rewrite andb_false_r. }
  split; [done|]. split.
  - by rewrite (posts_sum_none es t t' _ Hp Hnew), (sum_entries_eq _ t t0 HE).
  - exists b. intros id e He Hre. destruct (posts_lookup es t t' id e Hp He) as [H0|[_ H0]]; [|by rewrite Hnew in Hre].
    rewrite HE in H0. rewrite <- (H3 id e H0 Hre). apply eq_true_iff_eq. rewrite !reversed_in_true. split.
    + intros (k & x & Hx & Hrev). destruct (posts_lookup es t t' k x Hp Hx) as [Hx0|[_ Hx0]]; [exists k, x; by rewrite <- HE|].
      exfalso. apply (Hno x Hx0). destruct (Hes x Hx0) as (d & _ & _ & Hs). unfold entry_shape, plain in Hs. rewrite Hrev in Hs.
      destruct (en_kind x); try naive_solver. destruct Hs as (o & [= Heq] & Ho & _ & _ & _ & Hrc & _).
      destruct (post_entries _ _ He) as [He1 _]. rewrite <- Heq, He1, He in Ho. injection Ho as <-. rewrite <- Hrc.
      by apply andb_prop in Hre as [_ ->%bool_decide_eq_true].
    + intros (k & x & Hx & Hrev). exists k, x. split; [|done]. rewrite <- HE in Hx. eapply lookup_weaken; [exact Hx|].
      apply (posts_frame es t t' Hp).
Qed.

Lemma post_untouched d : (forall e, e ∈ es -> en_documentId e <> rd_id d) ->
  outstanding t' d = outstanding t0 d /\ principal t' d = principal t0 d.
Proof using Hp HE.
  intros Hno. assert (Hnew : forall e, e ∈ es -> of_document d e = false).
  { intros e He. unfold of_document. by rewrite bool_decide_false by by apply Hno. }
  unfold outstanding, principal. rewrite !(posts_sum_none es t t' _ Hp), !(sum_entries_eq _ t t0 HE); [done| |done].
  intros e He. by rewrite Hnew.
Qed.

Lemma post_initial_once id : unique_on (fun e => bool_decide (en_documentId e = id) && is_initial e) (entries t').
Proof using Hok Hp HE HR HD Hes.
  assert (Hk : forall k, k ∈ [ENTRY_OPENING_BALANCE; ENTRY_SALE] ->
    unique_on (fun e => bool_decide (en_documentId e = id) && bool_decide (en_kind e = k)) (entries t')).
  { intros k Hk. eapply posts_unique; [exact Hp| |].
    - intros e e' [H1%bool_decide_eq_true H2%bool_decide_eq_true]%andb_prop [H3%bool_decide_eq_true H4%bool_decide_eq_true]%andb_prop.
      unfold entry_collides. rewrite H1, H2, H3, H4. apply orb_true_iff. right.
      by rewrite !bool_decide_true.
    - rewrite HE. intros k1 k2 e1 e2 H1 H2 [P1 P1']%andb_prop [P2 P2']%andb_prop. eapply (bk_initial_once t0 Hok id); [exact H1|exact H2|..];
        rewrite ?P1, ?P2; unfold is_initial; apply bool_decide_eq_true in P1', P2'; rewrite ?P1', ?P2'; by apply bool_decide_eq_true. }
  intros k1 k2 e1 e2 H1 H2 [P1 P1'%bool_decide_eq_true]%andb_prop [P2 P2'%bool_decide_eq_true]%andb_prop.
  eapply (Hk (en_kind e1)); [done|exact H1|exact H2|by rewrite P1, bool_decide_true|]. rewrite P2. apply bool_decide_eq_true.
  destruct (post_entries _ _ H1) as [_ (d1 & D1 & _ & S1)], (post_entries _ _ H2) as [_ (d2 & D2 & _ & S2)].
  apply bool_decide_eq_true in P1, P2. rewrite P1 in D1. rewrite P2, D1 in D2. injection D2 as <-.
  rewrite (initial_shape _ _ _ P1' S1), (initial_shape _ _ _ P2' S2). done.
Qed.

(** The books balance again when the new entries are sound, new documents have their
    initial entry, touched receipts are allocated exactly, and balances stay in range. *)
Lemma books_post :
  accounts_ok (accounts t) -> (forall id, is_Some (accounts t0 !! id) -> is_Some (accounts t !! id)) ->
  sale_returns t = sale_returns t0 -> payouts t = payouts t0 ->
  (forall id d, documents t !! id = Some d -> documents t0 !! id = Some d \/
     (rd_id d = id /\ is_Some (accounts t0 !! rd_accountId d) /\ (0 < rd_amount d)%Z /\
      exists e, e ∈ es /\ en_documentId e = id /\ is_initial e = true)) ->
  (forall id r, receipts t !! id = Some r ->
     (receipts t0 !! id = Some r /\ forall e, e ∈ es -> en_receiptId e <> Some id) \/ (cr_receiptId r = id /\ receipt_ok t' r)) ->
  (forall id d, documents t !! id = Some d -> (forall e, e ∈ es -> en_documentId e <> rd_id d) \/
     (0 <= outstanding t' d /\ principal t' d <= MAX_CREDIT_IRR)%Z) ->
  (forall a, account_total a t' <= MAX_CREDIT_IRR)%Z ->
  (forall id r e, sale_returns t0 !! id = Some r -> (0 < sr_refundDue r)%Z -> e ∈ es -> en_documentId e <> sr_documentId r) ->
  books_ok t'.
Proof using Hok Hp HE HR HD Hes.
  intros HA HA' HS HY Hdoc Hrec Hbal Htot Hret. destruct post_tables as (D & R & S & Y).
  destruct (posts_frame es t t' Hp) as (A & _ & Hsub). rewrite HS in S. rewrite HY in Y.
  split.
  - by eapply policy_accounts.
  - intros id d Hd. rewrite D in Hd.
    assert (Hin : forall x, is_Some (accounts t0 !! x) -> is_Some (accounts t' !! x)) by (intros x Hx; eapply policy_dom; [exact A|by apply HA']).
    destruct (Hdoc id d Hd) as [H0|(H1 & H2 & H3 & _)]; [|by auto].
    destruct (bk_documents t0 Hok id d H0) as (H1 & H2 & H3). by auto.
  - apply post_entries.
  - intros id d Hd. rewrite D in Hd. destruct (Hdoc id d Hd) as [H0|(_ & _ & _ & e & He & H1 & H2)].
    + destruct (bk_initial t0 Hok id d H0) as (e & He & H1 & H2). exists e. split; [|done].
      rewrite <- HE in He. by eapply lookup_weaken.
    + exists e. split; [|done]. by apply (posts_new es t t' e Hp).
  - apply post_initial_once.
  - intros o. eapply posts_unique; [exact Hp|apply reversal_collides|]. rewrite HE. apply (bk_reversal_once t0 Hok).
  - intros id r Hr. rewrite R in Hr. destruct (Hrec id r Hr) as [[H0 Hno]|H]; [|done].
    split; [by apply (bk_receipts t0 Hok)|by eapply post_receipt].
  - intros id d Hd. rewrite D in Hd. destruct (Hbal id d Hd) as [Hno|H]; [|done].
    destruct (post_untouched d Hno) as [-> ->]. destruct (Hdoc id d Hd) as [H0|(H1 & _ & _ & e & He & H2 & _)];
      [by apply (bk_balance t0 Hok id)|]. destruct (Hno e He). congruence.
  - exact Htot.
  - intros id r Hr. rewrite S in Hr. destruct (bk_returns t0 Hok id r Hr) as [H0 (d & H1 & H2 & H3 & H4 & H5 & H6)].
    split; [done|]. exists d. rewrite D. split; [by eapply lookup_weaken|]. split_and!; [done..| |].
    + intros Hdue. rewrite (proj1 (post_untouched d ltac:(intros e He; destruct (bk_documents t0 Hok _ _ H1) as [-> _];
        by eapply Hret))). by apply H5.
    + unfold payouts_of in *. by rewrite Y.
  - intros id p Hp'. rewrite Y in Hp'. rewrite S. by apply (bk_payouts t0 Hok id).
Qed.
End post.

(** Tables other than the books, and new or changed accounts. *)
Lemma books_accounts t t' : books_ok t -> accounts_ok (accounts t') ->
  (forall id, is_Some (accounts t !! id) -> is_Some (accounts t' !! id)) -> documents t' = documents t ->
  receipts t' = receipts t -> entries t' = entries t -> sale_returns t' = sale_returns t -> payouts t' = payouts t -> books_ok t'.
Proof.
  intros Hok HA HA' D R E S Y. assert (HE : forall P, sum_entries P t' = sum_entries P t) by (intros; by apply sum_entries_eq).
  apply (books_post t t' t' []); try done; [by constructor|by rewrite R|by rewrite D|set_solver|..].
  - intros id d Hd. rewrite D in Hd. by left.
  - intros id r Hr. rewrite R in Hr. left. split; [done|]. set_solver.
  - intros id d Hd. left. set_solver.
  - intros a. unfold account_total. rewrite HE. by apply (bk_total t Hok).
  - set_solver.
Qed.
Definition books (t : CreditTables) :=
  (documents t, receipts t, entries t, sale_returns t, payouts t).
Lemma books_same t t' : books_ok t -> policy_of <$> accounts t' = policy_of <$> accounts t -> books t' = books t -> books_ok t'.
Proof.
  intros Hok HA H. injection H as D R E S Y. apply (books_accounts t); try done.
  - eapply policy_accounts; [exact HA|]. apply (bk_accounts t Hok).
  - intros id. by apply policy_dom.
Qed.
