(* ===== verification/PurchasingProofs.v ===== *)
(** Purchase orders: the rows a command leaves in order, the input checks, and what a
    receipt posts to the stock and to the order. *)

From S2P Require Import Prelude Table Paging Json StableJson AuditTrail Retry InventoryModel Inventory.
From S2P Require Import InventoryLedger InventoryProofs Durable DurableSafety.
From S2P Require Import Purchasing.

(** * Lines of an order *)

Definition line_ok (l : Line) : Prop :=
  ln_variantId l <> EmptyString /\ (1 <= ln_orderedQty l <= 1000000)%Z /\ (1 <= ln_unitCost l <= MAX_I64)%Z.
Definition line_cost (l : Line) : Z := (ln_unitCost l * ln_orderedQty l)%Z.

Lemma digit_value_bound c : is_digit c = true -> (0 <= digit_value c <= 9)%Z.
Proof.
  unfold is_digit, digit_value. rewrite andb_true_iff, !N.leb_le. lia.
Qed.

Lemma digits_value_from n cs :
  forallb is_digit cs = true -> (0 <= n)%Z ->
  (n * 10 ^ Z.of_nat (length cs) <= foldl (fun n c => 10 * n + digit_value c)%Z n cs)%Z.
Proof.
  revert n. induction cs as [|c cs IH]; intros n H Hn; [simpl; lia|].
  cbn [forallb] in H. apply andb_true_iff in H as [Hc H]. apply digit_value_bound in Hc. cbn [foldl length].
  specialize (IH (10 * n + digit_value c)%Z H ltac:(lia)). etrans; [|exact IH].
  rewrite Nat2Z.inj_succ, Z.pow_succ_r by lia.
  assert (0 < 10 ^ Z.of_nat (length cs))%Z by (apply Z.pow_pos_nonneg; lia). nia.
Qed.

Lemma costPattern_positive s : costPattern s = true -> (1 <= BigInt s)%Z.
Proof.
  unfold costPattern, BigInt, digits_value. destruct (String.list_ascii_of_string s) as [|c cs]; [done|].
  rewrite !andb_true_iff, negb_true_iff, bool_decide_eq_false. intros [[[Hc Hn] Hcs] _].
  apply digit_value_bound in Hc. cbn [foldl]. pose proof (digits_value_from (10 * 0 + digit_value c) cs Hcs ltac:(lia)) as H.
  assert (0 < 10 ^ Z.of_nat (length cs))%Z by (apply Z.pow_pos_nonneg; lia). nia.
Qed.

(** What [normalizeLines] accepts. *)
Definition input_line (i : PurchaseOrderItemInput) : Line :=
  mkLine (in_variantId i) (int_val (in_orderedQty i)) (BigInt (in_unitCost i)).
Definition input_ok (i : PurchaseOrderItemInput) : Prop :=
  in_variantId i <> EmptyString /\ isInteger (in_orderedQty i) = true /\
  (1 <= int_val (in_orderedQty i) <= 1000000)%Z /\ costPattern (in_unitCost i) = true.

Lemma truthy_true s : truthy s = true <-> s <> EmptyString.
Proof. unfold truthy. by rewrite negb_true_iff, bool_decide_eq_false. Qed.

Lemma input_line_ok i : input_ok i -> (BigInt (in_unitCost i) <= MAX_I64)%Z -> line_ok (input_line i).
Proof. intros (H1 & _ & H2 & H3) Hc. pose proof (costPattern_positive _ H3). split; [done|]. simpl. lia. Qed.

Lemma input_line_cost i : input_ok i -> (BigInt (in_unitCost i) <= line_cost (input_line i))%Z /\ (1 <= line_cost (input_line i))%Z.
Proof.
  intros (_ & _ & H2 & H3). pose proof (costPattern_positive _ H3). unfold line_cost, input_line. simpl. nia.
Qed.

Lemma input_costs_nonneg items : Forall input_ok items -> (0 <= sumZ line_cost (input_line <$> items))%Z.
Proof.
  intros H. apply sumZ_nonneg. intros l Hl. apply list_elem_of_fmap in Hl as (i & -> & Hi).
  rewrite Forall_forall in H. pose proof (input_line_cost i (H i Hi)). lia.
Qed.

Lemma input_check i (ids : list string) :
  negb (truthy (in_variantId i)) || bool_decide (in_variantId i ∈ ids) || negb (isInteger (in_orderedQty i)) ||
  (int_val (in_orderedQty i) <? 1)%Z || (1000000 <? int_val (in_orderedQty i))%Z ||
  negb (costPattern (in_unitCost i)) = false <-> input_ok i /\ in_variantId i ∉ ids.
Proof.
  rewrite !orb_false_iff, !negb_false_iff, truthy_true, bool_decide_eq_false, !Z.ltb_ge. unfold input_ok. tauto.
Qed.

Lemma check_lines_ok ids total items ls :
  (0 <= total <= MAX_I64)%Z ->
  check_lines ids total items = Ok ls <->
  ls = input_line <$> items /\ Forall input_ok items /\ NoDup (in_variantId <$> items) /\
  (forall v, v ∈ in_variantId <$> items -> v ∉ ids) /\ (total + sumZ line_cost ls <= MAX_I64)%Z.
Proof.
  revert ids total ls. induction items as [|i items IH]; intros ids total ls Ht; cbn [check_lines].
  { split; [intros [= <-]; split_and!; try done; [constructor|set_solver|simpl; lia]|by intros (-> & _)]. }
  rewrite !fmap_cons. destruct (_ || _) eqn:E.
  - split; [done|]. intros (_ & Hall & Hnd & Hdis & _). apply Forall_cons in Hall as [Hi _].
    assert (Hc : input_ok i /\ in_variantId i ∉ ids) by (split; [done|apply Hdis; by left]).
    apply input_check in Hc. congruence.
  - apply input_check in E as [Hi Hni]. pose proof (input_line_cost i Hi) as Hc.
    assert (Hc' : line_cost (input_line i) = (BigInt (in_unitCost i) * int_val (in_orderedQty i))%Z) by done.
    destruct (_ || _) eqn:E.
    + split; [done|]. intros (-> & Hall & _ & _ & Hsum). apply Forall_cons in Hall as [_ Hall].
      pose proof (input_costs_nonneg items Hall). rewrite sumZ_cons in Hsum.
      apply orb_true_iff in E as [E|E]; apply Z.ltb_lt in E; lia.
    + apply orb_false_iff in E as [E1 E2]. apply Z.ltb_ge in E1, E2. unfold mbind, result_bind.
      rewrite NoDup_cons, Forall_cons.
      destruct (check_lines _ _ items) as [rest|e] eqn:Er.
      * apply IH in Er as (-> & Hall & Hnd & Hdis & Hsum); [|lia]. split.
        -- intros [= <-]. split_and!; try done.
           ++ intros Hin. apply (Hdis _ Hin). by left.
           ++ intros v [->|Hv]%elem_of_cons; [done|]. specialize (Hdis v Hv). set_solver.
           ++ rewrite sumZ_cons. change (mkLine _ _ _) with (input_line i). lia.
        -- by intros (-> & _).
      * split; [done|]. intros (-> & [_ Hall] & [Hn Hnd] & Hdis & Hsum).
        assert (Hok : check_lines (in_variantId i :: ids) (total + BigInt (in_unitCost i) * int_val (in_orderedQty i)) items
          = Ok (input_line <$> items)); [|congruence].
        apply IH; [lia|]. split_and!; try done; [|rewrite sumZ_cons in Hsum; lia].
        intros v Hv [->|Hv']%elem_of_cons; [done|]. apply (Hdis v); [by right|done].
Qed.

Lemma check_lines_units items :
  Forall input_ok items -> (sumZ line_cost (input_line <$> items) <= MAX_I64)%Z -> Forall line_ok (input_line <$> items).
Proof.
  induction 1 as [|i items Hi Hall IH]; [constructor|]. rewrite fmap_cons, sumZ_cons. intros Hs.
  pose proof (input_line_cost i Hi). pose proof (input_costs_nonneg items Hall).
  constructor; [apply input_line_ok; [done|lia]|apply IH; lia].
Qed.

(** [normalizeLines] accepts exactly the well-formed inputs, and sorts their lines. *)
Definition inputs_ok (items : list PurchaseOrderItemInput) : Prop :=
  (1 <= length items <= 100) /\ Forall input_ok items /\ NoDup (in_variantId <$> items) /\
  (sumZ line_cost (input_line <$> items) <= MAX_I64)%Z.

Lemma normalizeLines_ok items ls :
  normalizeLines items = Ok ls <-> inputs_ok items /\ ls = js_sort by_line_variant (input_line <$> items).
Proof.
  unfold normalizeLines, inputs_ok. destruct (_ || _) eqn:E.
  - split; [done|]. intros ((Hl & _) & _). apply orb_true_iff in E as [E|E].
    + apply bool_decide_eq_true in E as ->. simpl in Hl. lia.
    + apply Nat.ltb_lt in E. lia.
  - apply orb_false_iff in E as [E1%bool_decide_eq_false E2%Nat.ltb_ge].
    assert (Hlen : 1 <= length items) by (destruct items; [done|simpl; lia]).
    unfold mbind, result_bind. destruct (check_lines [] 0 items) as [checked|e] eqn:Ec.
    + apply check_lines_ok in Ec as (-> & H1 & H2 & _ & H3); [|by unfold MAX_I64]. split.
      * intros [= <-]. by split_and!.
      * by intros [_ ->].
    + split; [done|]. intros ((_ & H1 & H2 & H3) & _).
      assert (Hok : check_lines [] 0 items = Ok (input_line <$> items)); [|congruence].
      apply check_lines_ok; [by unfold MAX_I64|]. split_and!; try done. set_solver.
Qed.

Lemma normalized_lines items ls :
  normalizeLines items = Ok ls ->
  Forall line_ok ls /\ NoDup (ln_variantId <$> ls) /\ (sumZ line_cost ls <= MAX_I64)%Z /\ ls <> [].
Proof.
  intros [(Hl & H1 & H2 & H3) ->]%normalizeLines_ok. split; [|split; [|split]].
  - rewrite js_sort_Permutation. by apply check_lines_units.
  - rewrite js_sort_Permutation. by rewrite <- list_fmap_compose.
  - by rewrite js_sort_Permutation.
  -   intros Hn. pose proof (js_sort_Permutation by_line_variant (input_line <$> items)) as Hp. rewrite Hn in Hp.
  apply Permutation_nil in Hp. destruct items; [simpl in Hl; lia|done].
Qed.

(** * Lines of a receipt *)

Definition delivered_of (v : string) (l : DeliveryLine) : Z :=
  if bool_decide (dl_variantId l = v) then dl_quantity l else 0%Z.

Lemma quantity_of_set v w n qs :
  quantity_of w (set_quantity v n qs) = if bool_decide (v = w) then n else quantity_of w qs.
Proof.
  unfold quantity_of. induction qs as [|[u m] qs IH]; simpl; [by case_bool_decide|].
  destruct (bool_decide (u = v)) eqn:Hu; simpl.
  - apply bool_decide_eq_true in Hu as ->. by case_bool_decide.
  - apply bool_decide_eq_false in Hu. destruct (bool_decide (u = w)) eqn:Ew; simpl; [|exact IH].
    apply bool_decide_eq_true in Ew as <-. by rewrite bool_decide_false by congruence.
Qed.

Lemma set_quantity_keys v n qs w : w ∈ fst <$> set_quantity v n qs <-> w = v \/ w ∈ fst <$> qs.
Proof.
  induction qs as [|[u m] qs IH]; simpl; [set_solver|]. case_bool_decide as Hu; simpl in *; [set_solver|].
  rewrite !elem_of_cons, IH. tauto.
Qed.

Lemma set_quantity_NoDup v n qs : NoDup (fst <$> qs) -> NoDup (fst <$> set_quantity v n qs).
Proof.
  induction qs as [|[u m] qs IH]; simpl; intros H; [apply NoDup_singleton|].
  apply NoDup_cons in H as [Hu H]. case_bool_decide as E; simpl in *.
  - apply NoDup_cons. split; [by subst|done].
  - apply NoDup_cons. split; [|by apply IH]. rewrite set_quantity_keys. intros [->|Hin]; done.
Qed.

Lemma quantity_of_absent v qs : v ∉ fst <$> qs -> quantity_of v qs = 0%Z.
Proof.
  unfold quantity_of. induction qs as [|[u m] qs IH]; simpl; intros H; [done|].
  rewrite bool_decide_false; [|intros ->; apply H; by left]. apply IH. intros Hin. apply H. by right.
Qed.

Lemma quantity_of_elem v n qs : NoDup (fst <$> qs) -> (v, n) ∈ qs -> quantity_of v qs = n.
Proof.
  unfold quantity_of. induction qs as [|[u m] qs IH]; simpl; intros Hnd Hin; [by apply elem_of_nil in Hin|].
  apply NoDup_cons in Hnd as [Hu Hnd]. apply elem_of_cons in Hin as [[= <- <-]|Hin].
  - by rewrite bool_decide_true.
  - rewrite bool_decide_false; [by apply IH|]. intros ->. apply Hu. by apply (list_elem_of_fmap_2 fst) in Hin.
Qed.

Definition delivery_ok (l : DeliveryLine) : Prop := (1 <= dl_quantity l <= 1000000)%Z.

Lemma check_deliveries_ok seen qs0 ls out qs :
  NoDup (fst <$> qs0) -> check_deliveries seen qs0 ls = Ok (out, qs) ->
  out = (fun l => mkDelivery (rn_variantId l) (rn_locationId l) (int_val (rn_quantity l))) <$> ls /\
  Forall delivery_ok out /\ NoDup (fst <$> qs) /\
  (forall v, quantity_of v qs = quantity_of v qs0 + sumZ (delivered_of v) out)%Z /\
  (forall v, v ∈ fst <$> qs <-> v ∈ fst <$> qs0 \/ v ∈ dl_variantId <$> out).
Proof.
  revert seen qs0 out qs. induction ls as [|l ls IH]; intros seen qs0 out qs Hnd; cbn [check_deliveries].
  { intros [= <- <-]. split; [done|]. split; [constructor|]. split; [done|]. split; [intros v; simpl; lia|set_solver]. }
  destruct (_ || _) eqn:E; [done|]. case_bool_decide as Hk; [done|].
  cbv zeta. destruct (1000000 <? quantity_of _ _ + _)%Z; [done|]. unfold mbind, result_bind.
  destruct (check_deliveries _ _ ls) as [[out' qs']|e] eqn:Er; [|done]. cbn [fst snd]. intros [= <- <-].
  apply IH in Er as (-> & Hall & Hnd' & Hq & Hkeys); [|by apply set_quantity_NoDup].
  rewrite !orb_false_iff, !Z.ltb_ge in E. split_and!; try done.
  - constructor; [unfold delivery_ok; simpl; lia|done].
  - intros v. rewrite Hq, quantity_of_set, sumZ_cons. unfold delivered_of at 2. cbn [dl_variantId dl_quantity].
    case_bool_decide as Hv; [subst v; lia|lia].
  - intros v. rewrite Hkeys, set_quantity_keys, fmap_cons, elem_of_cons. cbn [dl_variantId]. tauto.
Qed.

Definition receipt_input_ok (lines : list DeliveryLine) (quantities : list (string * Z)) : Prop :=
  lines <> [] /\ Forall delivery_ok lines /\ NoDup (fst <$> quantities) /\
  (forall v, quantity_of v quantities = sumZ (delivered_of v) lines) /\
  (forall v, v ∈ fst <$> quantities <-> v ∈ dl_variantId <$> lines).

Lemma receive_input_ok id input reference lines quantities :
  receive_input id input = Ok (reference, lines, quantities) -> receipt_input_ok lines quantities.
Proof.
  unfold receive_input, mbind, result_bind. destruct (assertCommandTarget _ _) as [u|e]; [|done].
  destruct (_ || _) eqn:E; [done|]. destruct (check_deliveries [] [] (rx_lines input)) as [[out qs]|e] eqn:Ec; [|done].
  cbn [fst snd]. intros [= _ <- <-]. apply check_deliveries_ok in Ec as (-> & Hall & Hnd & Hq & Hkeys); [|constructor].
  rewrite !orb_false_iff, bool_decide_eq_false in E. destruct E as [[_ Hne] _].
  set (out := _ <$> rx_lines input) in *. pose proof (js_sort_Permutation by_delivery_place out) as Hp.
  split; [|split; [|split; [done|split]]].
  - intros Hn. rewrite Hn in Hp. apply Permutation_nil in Hp. unfold out in Hp. by destruct (rx_lines input).
  - by rewrite Hp.
  - intros v. by rewrite Hp, Hq.
  - intros v. rewrite Hp, Hkeys. set_solver.
Qed.
