(* ===== verification/PurchasingOrders.v ===== *)
(** The order tables: their invariant, and how writes of orders and of items keep it. *)

From S2P Require Import Prelude Table Paging Json StableJson AuditTrail Retry InventoryModel Inventory.
From S2P Require Import InventoryLedger InventoryProofs Durable DurableSafety.
From S2P Require Import Purchasing PurchasingProofs.

(** * The invariant *)

Definition same_item (oid v : string) (i : OrderItem) : bool :=
  bool_decide (oi_orderId i = oid) && bool_decide (oi_variantId i = v).
Definition item_ok (i : OrderItem) : Prop :=
  (0 <= oi_receivedQty i <= oi_orderedQty i)%Z /\ (1 <= oi_orderedQty i <= 1000000)%Z /\ (1 <= oi_unitCost i)%Z.

(** The cost of an order, and the quantity that the receipt lines of an item add up to. *)
Definition item_cost (oid : string) (i : OrderItem) : Z :=
  if bool_decide (oi_orderId i = oid) then (oi_unitCost i * oi_orderedQty i)%Z else 0%Z.
Definition order_total (oid : string) (t : gmap string OrderItem) : Z := tsum (item_cost oid) t.
Definition of_item (id : string) (l : ReceiptLine) : Z := if bool_decide (rl_itemId l = id) then rl_quantity l else 0%Z.
Definition delivered (id : string) (t : gmap string ReceiptLine) : Z := tsum (of_item id) t.

(** What the status of an order says about its items. *)
Definition progress_ok (t : gmap string OrderItem) (r : OrderRow) : Prop :=
  match po_status r with
  | PO_RECEIVED => forall k i, t !! k = Some i -> oi_orderId i = po_id r -> oi_receivedQty i = oi_orderedQty i
  | PO_PARTIALLY_RECEIVED =>
      (exists k i, t !! k = Some i /\ oi_orderId i = po_id r /\ 0 < oi_receivedQty i)%Z /\
      (exists k i, t !! k = Some i /\ oi_orderId i = po_id r /\ oi_receivedQty i < oi_orderedQty i)%Z
  | _ => forall k i, t !! k = Some i -> oi_orderId i = po_id r -> oi_receivedQty i = 0%Z
  end.

Record pur_ok (x : PurTables) : Prop := {
  ok_orders : forall id r, orders x !! id = Some r -> po_id r = id;
  ok_items : forall id i, order_items x !! id = Some i -> oi_id i = id /\ item_ok i /\ is_Some (orders x !! oi_orderId i);
  ok_unique : forall oid v, unique_on (same_item oid v) (order_items x);
  ok_totals : forall oid, (order_total oid (order_items x) <= MAX_I64)%Z;
  ok_lines : forall id l, receipt_lines x !! id = Some l -> rl_id l = id /\ is_Some (order_items x !! rl_itemId l);
  ok_received : forall id i, order_items x !! id = Some i -> oi_receivedQty i = delivered id (receipt_lines x);
  ok_progress : forall id r, orders x !! id = Some r -> progress_ok (order_items x) r
}.

Lemma progress_frame t t' r :
  (forall k i, oi_orderId i = po_id r -> t !! k = Some i <-> t' !! k = Some i) -> progress_ok t r -> progress_ok t' r.
Proof.
  intros H. unfold progress_ok.
  destruct (po_status r); try (intros Hp k i Hk Ho; apply (Hp k i); [by apply H|done]).
  intros [(k & i & Hk & Ho & Hi) (k' & i' & Hk' & Ho' & Hi')].
  split; [exists k, i|exists k', i']; (split; [by apply H|done]).
Qed.

Lemma same_item_true oid v i : same_item oid v i = true <-> oi_orderId i = oid /\ oi_variantId i = v.
Proof. unfold same_item. by rewrite andb_true_iff, !bool_decide_eq_true. Qed.

(** ** Writes *)

Lemma order_write x id r r' :
  pur_ok x -> orders x !! id = Some r -> po_id r' = po_id r -> progress_ok (order_items x) r' ->
  pur_ok (set_orders (<[id := r']> (orders x)) x).
Proof.
  intros Hok Hr Hid Hp. destruct Hok as [H1 H2 H3 H4 H5 H6 H7]. split; cbn [set_orders orders order_items receipt_lines]; try done.
  - intros k q [[<- <-]|[_ Hk]]%lookup_insert_Some; [rewrite Hid; by apply H1|by apply H1].
  - intros k i Hk. destruct (H2 k i Hk) as (E & Hi & Ho). split_and!; try done.
    destruct (decide (oi_orderId i = id)) as [->|Hne]; [by rewrite lookup_insert_eq|by rewrite lookup_insert_ne].
  - intros k q [[<- <-]|[_ Hk]]%lookup_insert_Some; [done|by eapply H7].
Qed.

(** A new order has no items yet. *)
Lemma order_insert x id r :
  pur_ok x -> orders x !! id = None -> po_id r = id -> po_status r = PO_DRAFT ->
  pur_ok (set_orders (<[id := r]> (orders x)) x) /\ order_total id (order_items x) = 0%Z.
Proof.
  intros Hok Hn Hid Hs. destruct Hok as [H1 H2 H3 H4 H5 H6 H7].
  assert (Hno : forall k i, order_items x !! k = Some i -> oi_orderId i <> id).
  { intros k i Hk <-. destruct (H2 k i Hk) as (_ & _ & [q Hq]). congruence. }
  split.
  - split; cbn [set_orders orders order_items receipt_lines]; try done.
    + intros k q [[<- <-]|[_ Hk]]%lookup_insert_Some; [done|by apply H1].
    + intros k i Hk. destruct (H2 k i Hk) as (E & Hi & Ho). split_and!; try done.
      rewrite lookup_insert_ne; [done|]. intros E'. by apply (Hno k i).
    + intros k q [[<- <-]|[_ Hk]]%lookup_insert_Some; [|by eapply H7]. unfold progress_ok. rewrite Hs, Hid.
      intros k i Hk Ho. by destruct (Hno k i Hk).
  - apply tsum_0. intros k i Hk. unfold item_cost. by rewrite bool_decide_false by (by eapply Hno).
Qed.

Lemma item_insert x id i r :
  pur_ok x -> order_items x !! id = None -> orders x !! oi_orderId i = Some r -> po_status r = PO_DRAFT ->
  find_by (same_item (oi_orderId i) (oi_variantId i)) (order_items x) = None ->
  oi_id i = id -> item_ok i -> oi_receivedQty i = 0%Z ->
  (order_total (oi_orderId i) (order_items x) + item_cost (oi_orderId i) i <= MAX_I64)%Z ->
  pur_ok (set_order_items (<[id := i]> (order_items x)) x).
Proof.
  intros Hok Hn Hr Hs Hf Hid Hi H0 Ht. destruct Hok as [H1 H2 H3 H4 H5 H6 H7].
  split; cbn [set_order_items orders order_items receipt_lines]; try done.
  - intros k j [[<- <-]|[_ Hk]]%lookup_insert_Some; [|by apply H2]. split_and!; try done; by eexists.
  - intros oid v. apply unique_on_insert; [done|apply H3|]. rewrite same_item_true. by intros [<- <-].
  - intros oid. unfold order_total. rewrite tsum_insert_new by done. destruct (decide (oi_orderId i = oid)) as [<-|Hne].
    + unfold order_total in Ht. lia.
    + unfold item_cost at 1. rewrite bool_decide_false by done. apply H4.
  - intros k l Hk. destruct (H5 k l Hk) as [E Hj]. split; [done|]. by apply lookup_insert_is_Some'; right.
  - intros k j [[<- <-]|[_ Hk]]%lookup_insert_Some; [|by apply H6]. rewrite H0. symmetry. apply tsum_0.
    intros k l Hk. unfold of_item. rewrite bool_decide_false; [done|]. intros E. destruct (H5 k l Hk) as [_ [j Hj]].
    congruence.
  - intros k q Hq. destruct (decide (k = oi_orderId i)) as [->|Hne].
    + assert (q = r) as -> by congruence. pose proof (H7 _ _ Hr) as Hp. unfold progress_ok in *. rewrite Hs in *.
      intros k j [[<- <-]|[_ Hk]]%lookup_insert_Some Ho; [done|by eapply Hp].
    + eapply progress_frame; [|by eapply H7]. intros k' j Hj. destruct (decide (k' = id)) as [->|Hk'].
      * rewrite lookup_insert_eq, Hn. split; [done|]. intros [= ->]. rewrite (H1 _ _ Hq) in Hj. by rewrite Hj in Hne.
      * by rewrite lookup_insert_ne.
Qed.

Lemma tsum_delete_many {R} (f : R -> Z) (P : R -> bool) t :
  (forall r, P r = true -> f r = 0%Z) -> tsum f (delete_many P t) = tsum f t.
Proof.
  intros Hf. unfold delete_many. induction t as [|k r t Hk IH] using map_ind; [by rewrite map_filter_empty|].
  rewrite (tsum_insert_new f t) by done. destruct (P r) eqn:E.
  - rewrite map_filter_insert_False by (simpl; congruence). rewrite delete_id by done. rewrite IH, (Hf r E). lia.
  - rewrite map_filter_insert_True by done. rewrite tsum_insert_new; [by rewrite IH|].
    apply map_lookup_filter_None. left. done.
Qed.

Definition of_order (oid : string) (i : OrderItem) : bool := bool_decide (oi_orderId i = oid).

(** The items of a draft can be deleted as long as no receipt names them. *)
Lemma items_delete x oid r :
  pur_ok x -> orders x !! oid = Some r -> po_status r = PO_DRAFT ->
  (forall k l i, receipt_lines x !! k = Some l -> order_items x !! rl_itemId l = Some i -> oi_orderId i <> oid) ->
  pur_ok (set_order_items (delete_many (of_order oid) (order_items x)) x) /\
  order_total oid (delete_many (of_order oid) (order_items x)) = 0%Z.
Proof.
  intros Hok Hr Hs Hkept. destruct Hok as [H1 H2 H3 H4 H5 H6 H7]. split.
  - split; cbn [set_order_items orders order_items receipt_lines]; try done.
    + intros k i [Hk _]%lookup_delete_many. by apply H2.
    + intros o v k1 k2 i1 i2 [Hk1 _]%lookup_delete_many [Hk2 _]%lookup_delete_many. by apply H3.
    + intros o. destruct (decide (o = oid)) as [->|Hne].
      * assert (E : order_total oid (delete_many (of_order oid) (order_items x)) = 0%Z); [|rewrite E; by unfold MAX_I64].
        apply tsum_0. intros k i [_ Hi]%lookup_delete_many. unfold item_cost, of_order in *. by rewrite Hi.
      * unfold order_total. rewrite tsum_delete_many; [apply H4|]. intros i Hi. unfold of_order, item_cost in *.
        apply bool_decide_eq_true in Hi. by rewrite bool_decide_false by congruence.
    + intros k l Hk. destruct (H5 k l Hk) as [E [i Hi]]. split; [done|]. exists i. apply lookup_delete_many.
      split; [done|]. apply bool_decide_eq_false. by eapply Hkept.
    + intros k i [Hk _]%lookup_delete_many. by apply H6.
    + intros k q Hq. destruct (decide (k = oid)) as [->|Hne].
      * assert (q = r) as -> by congruence. pose proof (H7 _ _ Hr) as Hp. unfold progress_ok in *. rewrite Hs in *.
        intros k i [Hk _]%lookup_delete_many. by apply (Hp k).
      * eapply progress_frame; [|by eapply H7]. intros k' i Hi. rewrite lookup_delete_many.
        rewrite (H1 _ _ Hq) in Hi. unfold of_order. rewrite bool_decide_eq_false. split; [|tauto]. split; [done|congruence].
  - apply tsum_0. intros k i [_ Hi]%lookup_delete_many. unfold item_cost, of_order in *. by rewrite Hi.
Qed.
