(* ===== verification/PurchasingCommands.v ===== *)
(** The commands on purchase orders: the transition each of them makes of an order, the
    stock it moves, and that it keeps the order tables in order. *)

From S2P Require Import Prelude Table Paging Json StableJson AuditTrail Retry InventoryModel Inventory.
From S2P Require Import InventoryLedger InventoryProofs Durable DurableSafety.
From S2P Require Import Purchasing PurchasingProofs PurchasingOrders.

(** * Order steps *)

Definition order_of (cmd : PurCommand) : option (string * Z) :=
  match cmd with
  | PurCreate _ _ => None
  | PurReceive _ id input => Some (id, int_val (rx_expectedVersion input))
  | PurUpdate id input => Some (id, int_val (pu_expectedVersion input))
  | PurApprove id v | PurCancel id v => Some (id, int_val v)
  end.

Definition order_edge (cmd : PurCommand) (from to : PurchaseOrderStatus) : Prop :=
  match cmd with
  | PurCreate _ _ => False
  | PurReceive _ _ _ =>
      (from = PO_APPROVED \/ from = PO_PARTIALLY_RECEIVED) /\ (to = PO_PARTIALLY_RECEIVED \/ to = PO_RECEIVED)
  | PurUpdate _ _ => from = PO_DRAFT /\ to = PO_DRAFT
  | PurApprove _ _ => from = PO_DRAFT /\ to = PO_APPROVED
  | PurCancel _ _ => (from = PO_DRAFT \/ from = PO_APPROVED) /\ to = PO_CANCELLED
  end.

(** The columns that no command changes. *)
Definition same_order (r r' : OrderRow) : Prop :=
  po_id r' = po_id r /\ po_number r' = po_number r /\ po_supplierId r' = po_supplierId r /\
  po_warehouseId r' = po_warehouseId r /\ po_createdAt r' = po_createdAt r.

Definition order_moved (cmd : PurCommand) (id : string) (v : Z) (x x' : PurTables) : Prop :=
  exists row row', orders x !! id = Some row /\ po_version row = v /\
    order_edge cmd (po_status row) (po_status row') /\ po_version row' = (v + 1)%Z /\ same_order row row' /\
    orders x' = <[id := row']> (orders x).

Definition created_order (x x' : PurTables) : Prop :=
  exists id row, orders x !! id = None /\ po_id row = id /\ po_status row = PO_DRAFT /\ po_version row = 0%Z /\
    orders x' = <[id := row]> (orders x).

Definition order_step (cmd : PurCommand) (x x' : PurTables) : Prop :=
  match order_of cmd with
  | Some (id, v) => order_moved cmd id v x x'
  | None => created_order x x'
  end.

Definition order_body_ok (cmd : PurCommand) (es : list event) (d d' : Domain PurTables) : Prop :=
  refines es (inv_of d) (inv_of d') /\ pur_ok (own d') /\ order_step cmd (own d) (own d').

Section bodies.
Context (cuid : nat -> string) (collate : string -> string -> Z).

Lemma update_order_ok id v st data (d d' : Domain PurTables) u :
  update_order id v st data d = Ok (u, d') ->
  exists r, orders (own d) !! id = Some r /\ po_version r = v /\ po_status r = st /\
    d' = mkDomain (inv_of d) (set_orders (<[id := bump_order (data r)]> (orders (own d))) (own d)).
Proof.
  intros H. unfold update_order in H. run_inv.
  destruct (orders (own d) !! id) as [r|] eqn:Hr; [|by run_inv].
  destruct (_ && _) eqn:E; [|by run_inv]. apply andb_true_iff in E as [E1%bool_decide_eq_true E2%bool_decide_eq_true].
  run_domain. by exists r.
Qed.

Lemma references_ok s w vs (d d' : Domain PurTables) u : assertActiveReferences s w vs d = Ok (u, d') -> d' = d.
Proof. intros H. unfold assertActiveReferences in H. by run_inv. Qed.

Lemma load_order_ok id (d d' : Domain PurTables) r : load_order collate id d = Ok (r, d') -> d' = d.
Proof. intros H. unfold load_order in H. by run_inv. Qed.

(** The steps that read only. *)
Ltac reads :=
  repeat match goal with
  | H : assertActiveReferences _ _ _ _ = Ok _ |- _ => apply references_ok in H; subst
  | H : load_order _ _ _ = Ok _ |- _ => apply load_order_ok in H; subst
  end.

(** ** Items *)

Definition draft_of (x : PurTables) (oid : string) : Prop :=
  exists r, orders x !! oid = Some r /\ po_status r = PO_DRAFT.

Lemma create_order_item_ok oid l (d d' : Domain PurTables) u :
  pur_ok (own d) -> draft_of (own d) oid -> line_ok l ->
  (order_total oid (order_items (own d)) + line_cost l <= MAX_I64)%Z ->
  create_order_item cuid oid l d = Ok (u, d') ->
  same_stock (inv_of d) (inv_of d') /\ pur_ok (own d') /\ orders (own d') = orders (own d) /\
  order_total oid (order_items (own d')) = (order_total oid (order_items (own d)) + line_cost l)%Z.
Proof.
  intros Hok (r & Hr & Hs) (_ & Hq & Hc) Ht H. unfold create_order_item in H. run_domain.
  match goal with H : fresh_id _ _ = _ |- _ => injection H as <- <- end.
  apply orb_false_iff in Hguard as [Hn Hd].
  apply bool_decide_eq_false, eq_None_not_Some in Hn, Hd. split; [done|]. simplify_eq/=.
  set (i := mkOrderItem _ _ _ _ _ _) in *.
  assert (Hcost : item_cost oid i = line_cost l) by (unfold item_cost; by rewrite bool_decide_true).
  split; [|split; [done|]].
  - apply (item_insert _ _ i r Hok Hn Hr Hs); try done; [split_and!; simpl; lia|]. simpl oi_orderId. by rewrite Hcost.
  - unfold order_total. rewrite tsum_insert_new by done. rewrite Hcost. lia.
Qed.

Lemma create_order_items_ok oid ls (d d' : Domain PurTables) u :
  pur_ok (own d) -> draft_of (own d) oid -> Forall line_ok ls ->
  (order_total oid (order_items (own d)) + sumZ line_cost ls <= MAX_I64)%Z ->
  for_each ls (create_order_item cuid oid) d = Ok (u, d') ->
  same_stock (inv_of d) (inv_of d') /\ pur_ok (own d') /\ orders (own d') = orders (own d).
Proof.
  revert d. induction ls as [|l ls IH]; intros d Hok Hd Hall Ht H; simpl in H; run_inv; [done|].
  apply Forall_cons in Hall as [Hl Hall]. rewrite sumZ_cons in Ht.
  assert (Hrest : (0 <= sumZ line_cost ls)%Z).
  { apply sumZ_nonneg. intros l' Hl'. rewrite Forall_forall in Hall. destruct (Hall l' Hl') as (_ & ? & ?).
    unfold line_cost. nia. }
  match goal with H : create_order_item _ _ _ _ = _ |- _ =>
    apply create_order_item_ok in H as (Hq & Hok1 & Hord & Htot); [|done|done|done|lia] end.
  apply IH in H as (Hq' & Hok2 & Hord'); [|done|by unfold draft_of; rewrite Hord|done|lia].
  split; [by etrans|]. split; [done|congruence].
Qed.

(** ** Creation *)

Lemma create_order_tx_ok uuid input ls ctx (d d' : Domain PurTables) a :
  inv (inv_of d) -> pur_ok (own d) -> Forall line_ok ls -> (sumZ line_cost ls <= MAX_I64)%Z ->
  create_order_tx cuid collate uuid input ls ctx d = Ok (a, d') -> order_body_ok (PurCreate uuid input) [] d d'.
Proof.
  intros Hinv Hok Hls Hsum H. unfold create_order_tx, audit_order in H. run_inv. reads.
  match goal with H : on_inv (fresh_id _) _ = Ok (?i, ?dd) |- _ =>
    apply quiet_fresh in H as [Ho0 Hq0]; rename i into oid; rename dd into d0 end.
  match goal with H : on_own _ _ = _ |- _ => apply on_own_ok in H as (t & Hw & ->) end. injection Hw as Hw.
  match goal with H : on_inv (record _) _ = _ |- _ => apply quiet_record in H as [Ho Hq] end.
  apply orb_false_iff in Hguard as [Hn%bool_decide_eq_false%eq_None_not_Some _]. rewrite Ho0 in *.
  set (row := mkOrder _ _ _ _ _ _ _ _ _) in *. subst t.
  destruct (order_insert (own d) oid row Hok Hn eq_refl eq_refl) as [Hok1 Htot].
  match goal with H : for_each _ _ _ = _ |- _ =>
    apply create_order_items_ok in H as (Hq2 & Hok2 & Hord); [|exact Hok1| |exact Hls|cbn [own order_items set_orders]; lia] end.
  2: { exists row. by split; [apply lookup_insert_eq|]. }
  split; [|split].
  - apply same_stock_refines; [done|]. etrans; [exact Hq0|]. etrans; [exact Hq2|exact Hq].
  - by rewrite Ho.
  - exists oid, row. split_and!; try done. by rewrite Ho, Hord.
Qed.

(** ** Update *)

Lemma order_only_ok cmd id v st data (d d1 d' : Domain PurTables) u :
  inv (inv_of d) -> pur_ok (own d) -> order_of cmd = Some (id, v) ->
  update_order id v st data d = Ok (u, d1) -> same_stock (inv_of d1) (inv_of d') -> pur_ok (own d') ->
  orders (own d') = orders (own d1) ->
  (forall r, po_status r = st ->
     order_edge cmd st (po_status (data r)) /\ same_order r (data r) /\ po_version (data r) = po_version r) ->
  order_body_ok cmd [] d d'.
Proof.
  intros Hinv Hok Hs H Hq Hok' Hord Hdata. apply update_order_ok in H as (r & Hr & Hv & Hst & ->).
  destruct (Hdata r Hst) as (Hedge & Hsame & Hver). simpl in Hq, Hord. split; [by apply same_stock_refines|].
  split; [done|]. unfold order_step. rewrite Hs. exists r, (bump_order (data r)).
  split; [done|]. split; [done|]. split; [by rewrite Hst|]. split; [simpl; by rewrite Hver, Hv|]. done.
Qed.

Lemma delete_items_ok oid (d d' : Domain PurTables) u :
  pur_ok (own d) -> draft_of (own d) oid -> delete_order_items oid d = Ok (u, d') ->
  inv_of d' = inv_of d /\ pur_ok (own d') /\ orders (own d') = orders (own d) /\
  order_total oid (order_items (own d')) = 0%Z.
Proof.
  intros Hok (r & Hr & Hs) H. unfold delete_order_items in H. run_domain. simplify_eq/=.
  destruct (items_delete (own d) oid r Hok Hr Hs) as [H1 H2]; [|done].
  intros k l i Hl Hi Ho. match goal with E : false = existsb _ _ |- _ => symmetry in E; apply not_true_iff_false in E; apply E end.
  apply existsb_exists. exists l. split.
  - apply list_elem_of_In, elem_of_rows. by eexists.
  - rewrite Hi. simpl. by apply bool_decide_eq_true.
Qed.

(** A status update keeps the tables when the new status fits the items. *)
Lemma update_keeps id v st data (d d' : Domain PurTables) u :
  pur_ok (own d) -> update_order id v st data d = Ok (u, d') ->
  (forall r, orders (own d) !! id = Some r -> po_status r = st -> progress_ok (order_items (own d)) r ->
     po_id (data r) = po_id r /\ progress_ok (order_items (own d)) (data r)) ->
  pur_ok (own d').
Proof.
  intros Hok H Hdata. apply update_order_ok in H as (r & Hr & _ & Hst & ->).
  destruct (Hdata r Hr Hst (ok_progress _ Hok _ _ Hr)) as [Hid Hp]. by apply (order_write _ id r).
Qed.

Definition optional_lines_ok (items : option (list Line)) : Prop :=
  forall ls, items = Some ls -> Forall line_ok ls /\ (sumZ line_cost ls <= MAX_I64)%Z.

Lemma update_order_tx_ok id input items ctx (d d' : Domain PurTables) a :
  inv (inv_of d) -> pur_ok (own d) -> optional_lines_ok items ->
  update_order_tx cuid collate id input items ctx d = Ok (a, d') -> order_body_ok (PurUpdate id input) [] d d'.
Proof.
  intros Hinv Hok Hls H. unfold update_order_tx, audit_order, find_order in H. run_inv. reads.
  assert (s2 = d) as -> by (destruct items; [by apply references_ok in Hrun2|by run_inv]).
  match goal with H : on_inv (record _) _ = _ |- _ => apply quiet_record in H as [Ho Hq] end.
  match goal with H : update_order _ _ _ _ _ = _ |- _ => rename H into Hup end.
  assert (Hok3 : pur_ok (own s3)).
  { eapply update_keeps; [done|exact Hup|]. by intros r _ Hst Hp. }
  assert (Hd3 : draft_of (own s3) id).
  { apply update_order_ok in Hup as (r & _ & _ & Hst & ->). eexists. split; [apply lookup_insert_eq|done]. }
  assert (Hitems : same_stock (inv_of s3) (inv_of s4) /\ pur_ok (own s4) /\ orders (own s4) = orders (own s3)).
  { destruct items as [ls|]; [|by run_inv]. destruct (Hls ls eq_refl) as [Hl Hsum]. run_inv.
    match goal with H : delete_order_items _ _ = _ |- _ =>
      apply delete_items_ok in H as (Hi & Hok4 & Hord & Htot); [|done|done] end.
    match goal with H : for_each _ _ _ = _ |- _ =>
      apply create_order_items_ok in H as (Hq' & Hok5 & Hord');
        [|done|by unfold draft_of; rewrite Hord|done|by rewrite Htot] end.
    rewrite <- Hi. split; [done|]. split; [done|congruence]. }
  destruct Hitems as (Hq4 & Hok4 & Hord4).
  eapply order_only_ok; [done|done|reflexivity|exact Hup| | |by rewrite Ho|by intros r Hr].
  - by etrans.
  - by rewrite Ho.
Qed.

(** ** Approval and cancellation *)

Definition transition_of (cmd : PurCommand) : option (string * PurchaseOrderStatus * list PurchaseOrderStatus * number) :=
  match cmd with
  | PurApprove id v => Some (id, PO_APPROVED, [PO_DRAFT], v)
  | PurCancel id v => Some (id, PO_CANCELLED, [PO_DRAFT; PO_APPROVED], v)
  | _ => None
  end.

(** The statuses before any receipt say the same of the items. *)
Definition unreceived (s : PurchaseOrderStatus) : bool :=
  match s with PO_DRAFT | PO_APPROVED | PO_CANCELLED => true | _ => false end.

Lemma progress_unreceived t r s :
  unreceived (po_status r) = true -> unreceived s = true -> progress_ok t r -> progress_ok t (set_po_status s r).
Proof. unfold progress_ok. simpl. by destruct (po_status r), s. Qed.

Lemma transition_edges cmd id target allowed v from :
  transition_of cmd = Some (id, target, allowed, v) -> from ∈ allowed ->
  order_of cmd = Some (id, int_val v) /\ order_edge cmd from target /\
  unreceived from = true /\ unreceived target = true.
Proof.
  intros Hc Hf. destruct cmd; simplify_eq/=; repeat (apply elem_of_cons in Hf as [->|Hf]); try by apply elem_of_nil in Hf.
  - done.
  - split_and!; try done. by left.
  - split_and!; try done. by right.
Qed.

Lemma transition_order_tx_ok cmd id target allowed v ctx (d d' : Domain PurTables) a :
  inv (inv_of d) -> pur_ok (own d) -> transition_of cmd = Some (id, target, allowed, v) ->
  transition_order_tx collate id target allowed v ctx d = Ok (a, d') -> order_body_ok cmd [] d d'.
Proof.
  intros Hinv Hok Hc H. unfold transition_order_tx, audit_order, find_order in H. run_inv. reads.
  match goal with H : (if _ then _ else _) _ = Ok (_, ?dd) |- _ =>
    assert (dd = d) as -> by (destruct (bool_decide (target = PO_APPROVED)); run_inv; by reads) end.
  match goal with H : on_inv (record _) _ = _ |- _ => apply quiet_record in H as [Ho Hq] end.
  match goal with H : update_order _ _ _ _ _ = _ |- _ => rename H into Hup end.
  apply orb_false_iff in Hguard0 as [Hall%negb_false_iff%bool_decide_eq_true _].
  destruct (transition_edges cmd id target allowed v (po_status v1) Hc Hall) as (Hof & Hedge & Hu & Hu').
  eapply order_only_ok; [done|done|exact Hof|exact Hup|done| |by rewrite Ho|by intros r Hr].
  rewrite Ho. eapply update_keeps; [done|exact Hup|]. intros r _ Hst Hp. split; [done|].
  apply progress_unreceived; [by rewrite Hst|done|done].
Qed.
End bodies.
