(* ===== verification/PurchasingReceipts.v ===== *)
(** Goods receipts: what [receive] posts to the stock for every line of a delivery, what
    it adds to the items of the order, and that it keeps the order tables in order. *)

From S2P Require Import Prelude Table Paging Json StableJson AuditTrail Retry InventoryModel Inventory.
From S2P Require Import InventoryLedger InventoryProofs Durable DurableSafety.
From S2P Require Import Purchasing PurchasingProofs PurchasingOrders PurchasingCommands.

(** * Lines *)

Section lines.
Context (cuid : nat -> string).

Definition delivery_key (w : string) (l : DeliveryLine) : StockKey := mkKey w (dl_locationId l) (dl_variantId l).
Definition delivery_event (w : string) (l : DeliveryLine) : event := EChange (delivery_key w l) (dl_quantity l).
Definition delivered_at (w : string) (k : StockKey) (l : DeliveryLine) : Z :=
  if bool_decide (delivery_key w l = k) then dl_quantity l else 0%Z.

(** A posted receipt line with its movement. *)
Definition line_recorded (rid w : string) (items : gmap string OrderItem) (entry : string * DeliveryLine)
    (d : Domain PurTables) : Prop :=
  exists item m, items !! dl_variantId entry.2 = Some item /\
    receipt_lines (own d) !! entry.1 = Some (mkReceiptLine entry.1 rid (oi_id item) (dl_locationId entry.2)
      (dl_quantity entry.2) (m_id m)) /\
    movements (inv_of d) !! m_id m = Some m /\ m_key m = delivery_key w entry.2 /\ m_type m = RECEIPT /\
    m_quantity m = dl_quantity entry.2.

(** [z] more on hand and available. *)
Definition plus (c : Z * Z * Z) (z : Z) : Z * Z * Z := (c.1.1 + z, c.1.2, c.2 + z)%Z.

Lemma plus_0 c : plus c 0 = c.
Proof. destruct c as [[a b] c]. unfold plus. simpl. by rewrite !Z.add_0_r. Qed.

Definition line_of (rid : string) (items : gmap string OrderItem) (entry : string * DeliveryLine) (l : ReceiptLine)
    : Prop :=
  exists item, items !! dl_variantId entry.2 = Some item /\ rl_id l = entry.1 /\ rl_receiptId l = rid /\
    rl_itemId l = oi_id item /\ rl_locationId l = dl_locationId entry.2 /\ rl_quantity l = dl_quantity entry.2.

Lemma create_receipt_line_ok l (d d' : Domain PurTables) u :
  create_receipt_line l d = Ok (u, d') ->
  receipt_lines (own d) !! rl_id l = None /\
  d' = mkDomain (inv_of d) (set_receipt_lines (<[rl_id l := l]> (receipt_lines (own d))) (own d)).
Proof.
  intros H. unfold create_receipt_line in H. run_domain. simplify_eq/=.
  apply orb_false_iff in Hguard as [Hn%bool_decide_eq_false%eq_None_not_Some _]. done.
Qed.

Lemma receive_line_ok rid w items ctx entry (d d' : Domain PurTables) u :
  inv (inv_of d) -> delivery_ok entry.2 -> receive_line cuid rid w items ctx entry d = Ok (u, d') ->
  refines [delivery_event w entry.2] (inv_of d) (inv_of d') /\
  (forall k, level k (inv_of d') = plus (level k (inv_of d)) (delivered_at w k entry.2)) /\
  line_recorded rid w items entry d' /\
  exists l, line_of rid items entry l /\ receipt_lines (own d) !! entry.1 = None /\
    own d' = set_receipt_lines (<[entry.1 := l]> (receipt_lines (own d))) (own d).
Proof.
  intros Hinv Hq H. destruct entry as [lineId line]. cbn [fst snd] in *.
  unfold receive_line in H. run_domain. rewrite ?find_balance_locks in *. fold (delivery_key w line) in *.
  pose proof (level_row (delivery_key w line) (inv_of d) Hinv) as Hlev.
  set (oh := from_option b_onHand 0%Z (find_balance (delivery_key w line) (inv_of d))) in *.
  set (rs := from_option b_reserved 0%Z (find_balance (delivery_key w line) (inv_of d))) in *.
  match goal with H : upsert_balance _ _ _ _ _ _ _ = _ |- _ =>
    apply upsert_slot in H as (b & nb & Hbk & Hslot & Hcols & ->);
      [|apply wf_tables_balances, Hinv|by rewrite (level_frame (inv_of d)) by done; rewrite Hlev] end.
  match goal with H : create_movement _ _ _ _ _ _ _ _ _ _ _ = _ |- _ =>
    apply create_movement_ok in H as (id & Hid & [= -> ->]) end.
  match goal with H : create_receipt_line _ _ = _ |- _ => apply create_receipt_line_ok in H as [Hn ->] end.
  match goal with H : record _ _ = _ |- _ => apply record_audit_ok in H as (rows & [= _ ->]) end.
  cbn [inv_of own] in *. set (m := mkMovement id _ _ _ _ _ _ _ _ _ _) in *.
  set (db' := set_audits _ _).
  assert (Hav : (0 <= oh - rs)%Z).
  { destruct (proj2 Hinv (delivery_key w line)) as [E Hge]. rewrite Hlev in E. injection E. lia. }
  destruct (posted (inv_of d) db' b (dl_quantity line) id m Hinv Hslot) as [Href Hl]; try done.
  - by eexists.
  - unfold shifted. rewrite Hbk, Hcols, Hlev. simpl. rewrite !pair_eq. lia.
  - injection Hcols as _ _ ->. unfold delivery_ok in Hq. lia.
  - rewrite Hbk in Href, Hl. split; [exact Href|]. split; [|split].
    + intros k. rewrite Hl. unfold delivered_at. case_decide as Hk.
      * subst k. rewrite bool_decide_true by done. rewrite Hcols, Hlev. unfold plus. simpl. rewrite !pair_eq. lia.
      * rewrite bool_decide_false by congruence. by rewrite plus_0.
    + eexists v, m. split; [done|]. split; [apply lookup_insert_eq|]. split; [apply lookup_insert_eq|done].
    + eexists. split; [|split; [exact Hn|reflexivity]]. by exists v.
Qed.

(** ** All lines *)

Lemma line_recorded_later rid w items entry d d' :
  line_recorded rid w items entry d -> receipt_lines (own d) ⊆ receipt_lines (own d') ->
  movements (inv_of d) ⊆ movements (inv_of d') -> line_recorded rid w items entry d'.
Proof.
  intros (item & m & Hi & Hl & Hm & Hrest) Hsub Hsub'. exists item, m. split; [done|].
  split; [by eapply lookup_weaken|]. split; [by eapply lookup_weaken|done].
Qed.

(** The receipt lines that the entries add. *)
Definition added_lines (rid : string) (items : gmap string OrderItem) (entries : list (string * DeliveryLine))
    (t t' : gmap string ReceiptLine) : Prop :=
  t ⊆ t' /\
  (forall k l, t' !! k = Some l -> t !! k = Some l \/ exists e, e ∈ entries /\ k = e.1 /\ line_of rid items e l) /\
  (forall id, delivered id t' = delivered id t + sumZ (fun e =>
     if bool_decide (oi_id <$> items !! dl_variantId e.2 = Some id) then dl_quantity e.2 else 0%Z) entries)%Z.

Lemma receive_lines_ok rid w items ctx entries (d d' : Domain PurTables) u :
  inv (inv_of d) -> Forall delivery_ok (snd <$> entries) ->
  for_each entries (receive_line cuid rid w items ctx) d = Ok (u, d') ->
  refines (delivery_event w <$> (snd <$> entries)) (inv_of d) (inv_of d') /\
  (forall k, level k (inv_of d') = plus (level k (inv_of d)) (sumZ (delivered_at w k) (snd <$> entries))) /\
  (forall e, e ∈ entries -> line_recorded rid w items e d') /\
  exists t, own d' = set_receipt_lines t (own d) /\ added_lines rid items entries (receipt_lines (own d)) t.
Proof.
  revert d. induction entries as [|e entries IH]; intros d Hinv Hall H; simpl in H; run_inv.
  { split; [by apply same_stock_refines|]. split; [intros k; simpl; by rewrite plus_0|].
    split; [set_solver|]. exists (receipt_lines (own d)). split; [by destruct (own d)|].
    split; [done|]. split; [by left|]. intros id. simpl. lia. }
  rewrite !fmap_cons in *. apply Forall_cons in Hall as [He Hall].
  match goal with H : receive_line cuid rid w items ctx e d = Ok (_, ?dd) |- _ => rename dd into d1;
    apply receive_line_ok in H as (Href & Hlev & Hrec & l & Hl & Hn & Hown); [|done|done] end.
  apply IH in H as (Href' & Hlev' & Hrec' & t & Hown' & Hsub & Hback & Hsum); [|by destruct Href|done].
  rewrite Hown in Hsub, Hback, Hsum. cbn [receipt_lines set_receipt_lines] in Hsub, Hback, Hsum.
  split; [by eapply (refines_trans [_])|]. split; [|split].
  - intros k. rewrite Hlev', Hlev, sumZ_cons. destruct (level k (inv_of d)) as [[a b] c]. unfold plus. simpl.
    rewrite !pair_eq. lia.
  - intros e' [->|He']%elem_of_cons; [|by apply Hrec']. eapply line_recorded_later; [exact Hrec| |].
    + by rewrite Hown', Hown.
    + destruct Href' as (_ & (_ & _ & Hmv & _) & _). exact Hmv.
  - exists t. split; [by rewrite Hown', Hown|]. split; [|split].
    + etrans; [|exact Hsub]. by apply insert_subseteq.
    + intros k l' Hk. apply Hback in Hk as [[[<- <-]|[_ Hk]]%lookup_insert_Some|(e' & He' & Hk)].
      * right. exists e. split; [by left|done].
      * by left.
      * right. exists e'. split; [by right|done].
    + intros id. rewrite Hsum, sumZ_cons. unfold delivered. rewrite tsum_insert_new by done.
      destruct Hl as (item & Hi & _ & _ & Hli & _ & Hlq). rewrite Hi. cbn [fmap option_fmap option_map].
      unfold of_item at 1. rewrite Hli, Hlq. destruct (decide (oi_id item = id)) as [<-|Hne].
      * rewrite !bool_decide_true by done. lia.
      * rewrite !bool_decide_false by congruence. lia.
Qed.
End lines.

(** * Quantities *)

(** The items of an order after a receipt. *)
Definition received (qs : list (string * Z)) (oid : string) (i : OrderItem) : OrderItem :=
  if bool_decide (oi_orderId i = oid) then add_received (quantity_of (oi_variantId i) qs) i else i.

Lemma add_received_0 i : add_received 0 i = i.
Proof. destruct i. unfold add_received. simpl. by rewrite Z.add_0_r. Qed.

Lemma received_nil oid (t : gmap string OrderItem) : received [] oid <$> t = t.
Proof.
  apply map_eq. intros k. rewrite lookup_fmap. destruct (t !! k) as [i|]; [|done]. simpl. f_equal.
  unfold received, quantity_of. simpl. rewrite add_received_0. by destruct (bool_decide _).
Qed.

Lemma received_columns qs oid i :
  oi_id (received qs oid i) = oi_id i /\ oi_orderId (received qs oid i) = oi_orderId i /\
  oi_variantId (received qs oid i) = oi_variantId i /\ oi_orderedQty (received qs oid i) = oi_orderedQty i /\
  oi_unitCost (received qs oid i) = oi_unitCost i.
Proof. unfold received. by destruct (bool_decide _). Qed.

Lemma variant_map_lookup items v i : variant_map items !! v = Some i -> i ∈ items /\ oi_variantId i = v.
Proof.
  unfold variant_map. assert (Hgen : forall m : gmap string OrderItem,
    foldl (fun m i => <[oi_variantId i := i]> m) m items !! v = Some i ->
    (i ∈ items /\ oi_variantId i = v) \/ m !! v = Some i).
  { induction items as [|j items IH]; intros m H; simpl in H; [by right|].
    apply IH in H as [[H1 H2]|H]; [left; split; [set_solver|done]|].
    apply lookup_insert_Some in H as [[H1 <-]|[_ H]]; [left; split; [set_solver|done]|by right]. }
  intros H. apply Hgen in H as [H|H]; [done|]. by rewrite lookup_empty in H.
Qed.

Lemma variant_map_is_Some items i : i ∈ items -> is_Some (variant_map items !! oi_variantId i).
Proof.
  unfold variant_map. assert (Hgen : forall m : gmap string OrderItem,
    i ∈ items \/ is_Some (m !! oi_variantId i) ->
    is_Some (foldl (fun m i => <[oi_variantId i := i]> m) m items !! oi_variantId i)).
  { induction items as [|j items IH]; intros m H; simpl; [destruct H as [H|H]; [by apply elem_of_nil in H|done]|].
    apply IH. destruct H as [[->|H]%elem_of_cons|H]; [right; rewrite lookup_insert_eq; by eexists|by left|right].
    by apply lookup_insert_is_Some'; right. }
  intros H. apply Hgen. by left.
Qed.

(** The items that the map was read from are those of the order in [t]. *)
Definition reads_items (oid : string) (items : gmap string OrderItem) (t : gmap string OrderItem) : Prop :=
  (forall v item, items !! v = Some item -> exists i, t !! oi_id item = Some i /\ oi_orderId i = oid /\ oi_variantId i = v) /\
  (forall k1 k2 i1 i2, t !! k1 = Some i1 -> t !! k2 = Some i2 -> oi_orderId i1 = oid -> oi_orderId i2 = oid ->
     oi_variantId i1 = oi_variantId i2 -> k1 = k2).

Lemma receive_quantities_ok oid items qs (d d' : Domain PurTables) u :
  NoDup (fst <$> qs) -> reads_items oid items (order_items (own d)) ->
  for_each qs (receive_quantity items) d = Ok (u, d') ->
  inv_of d' = inv_of d /\ own d' = set_order_items (received qs oid <$> order_items (own d)) (own d).
Proof.
  revert d. induction qs as [|[v n] qs IH]; intros d Hnd Hread H; simpl in H.
  { run_inv. split; [done|]. rewrite (received_nil oid). by destruct (own d). }
  rewrite fmap_cons in Hnd. apply NoDup_cons in Hnd as [Hv Hnd]. cbn [fst] in Hv.
  apply bind_ok in H as (u1 & d1 & H1 & H). unfold receive_quantity in H1. run_inv. cbn [fst snd] in *.
  match goal with H : items !! v = Some ?it |- _ => rename it into item; rename H into Hitem end.
  destruct (proj1 Hread v item Hitem) as (i & Hi & Ho & Hiv). rewrite Hi in H1. destruct (_ <=? _)%Z; [|by run_inv].
  run_domain. simplify_eq/=.
  set (t := order_items (own d)) in *.
  apply IH in H as [Hinv Hown]; [|done|].
  - split; [exact Hinv|]. rewrite Hown. cbn [own order_items set_order_items]. unfold set_order_items. simpl. f_equal.
    apply map_eq. intros k. rewrite !lookup_fmap. destruct (decide (k = oi_id item)) as [->|Hk].
    + rewrite lookup_insert_eq, Hi. simpl. f_equal. unfold received. simpl. rewrite !bool_decide_true by done.
      rewrite (quantity_of_absent (oi_variantId i) qs) by done. rewrite add_received_0.
      unfold quantity_of. simpl. by rewrite bool_decide_true.
    + rewrite lookup_insert_ne by done. destruct (t !! k) as [j|] eqn:Hj; [|done]. simpl. f_equal.
      unfold received. case_bool_decide as Hoj; [|done]. f_equal. unfold quantity_of. simpl.
      rewrite bool_decide_false; [done|]. intros E. apply Hk. by eapply (proj2 Hread).
  - cbn [own order_items set_order_items]. fold t. split.
    + intros w it Hw. destruct (proj1 Hread w it Hw) as (j & Hj & Hjo & Hjv).
      destruct (decide (oi_id it = oi_id item)) as [E|Hk].
      * rewrite E, lookup_insert_eq. assert (j = i) as -> by congruence. by eexists.
      * rewrite lookup_insert_ne by done. by exists j.
    + assert (Hback : forall k j, <[oi_id item := add_received n i]> t !! k = Some j -> exists j0, t !! k = Some j0 /\
        oi_orderId j = oi_orderId j0 /\ oi_variantId j = oi_variantId j0).
      { intros k j [[<- <-]|[_ Hk]]%lookup_insert_Some; [by exists i|by exists j]. }
      intros k1 k2 i1 i2 H1 H2 O1 O2 V. apply Hback in H1 as (j1 & H1 & O1' & V1), H2 as (j2 & H2 & O2' & V2).
      apply (proj2 Hread k1 k2 j1 j2 H1 H2); congruence.
Qed.

(** * The order tables after a receipt *)

Section keeps.
Context (x : PurTables) (id : string) (lines : list DeliveryLine) (quantities : list (string * Z)).
Context (Hok : pur_ok x) (Hin : receipt_input_ok lines quantities).

Definition receipt_items : gmap string OrderItem := variant_map (order_rows id x).

Context (Hroom : forall q, q ∈ quantities -> exists item, receipt_items !! fst q = Some item /\
  (snd q <= oi_orderedQty item - oi_receivedQty item)%Z).

Lemma order_row i : i ∈ order_rows id x <-> order_items x !! oi_id i = Some i /\ oi_orderId i = id.
Proof.
  unfold order_rows. rewrite elem_of_find_many, bool_decide_eq_true. split.
  - intros [[k Hk] Ho]. destruct (ok_items _ Hok k i Hk) as (E & _). by rewrite E.
  - intros [Hi Ho]. split; [by eexists|done].
Qed.

Lemma receipt_item v item :
  receipt_items !! v = Some item -> order_items x !! oi_id item = Some item /\ oi_orderId item = id /\ oi_variantId item = v.
Proof. intros H. apply variant_map_lookup in H as [H1 H2]. apply order_row in H1 as [H3 H4]. done. Qed.

Lemma receipt_item_of k i :
  order_items x !! k = Some i -> oi_orderId i = id -> receipt_items !! oi_variantId i = Some i.
Proof.
  intros Hk Ho. destruct (ok_items _ Hok k i Hk) as (E & _).
  assert (Hi : i ∈ order_rows id x) by (apply order_row; by rewrite E).
  destruct (variant_map_is_Some _ _ Hi) as [j Hj]. fold receipt_items in Hj. rewrite Hj. f_equal.
  destruct (receipt_item _ _ Hj) as (Hj' & Ho' & Hv').
  assert (oi_id j = k) as E'; [|congruence].
  apply (ok_unique _ Hok id (oi_variantId i) (oi_id j) k j i Hj' Hk); by apply same_item_true.
Qed.

Lemma reads_receipt_items : reads_items id receipt_items (order_items x).
Proof.
  split.
  - intros v item H. apply receipt_item in H as (H1 & H2 & H3). by exists item.
  - intros k1 k2 i1 i2 H1 H2 O1 O2 V.
    apply (ok_unique _ Hok id (oi_variantId i1) k1 k2 i1 i2 H1 H2); by apply same_item_true.
Qed.

Lemma quantity_nonneg v : (0 <= quantity_of v quantities)%Z.
Proof.
  destruct Hin as (_ & Hall & _ & Hq & _). rewrite Hq. apply sumZ_nonneg. intros l Hl.
  rewrite Forall_forall in Hall. specialize (Hall l Hl). unfold delivery_ok, delivered_of in *.
  destruct (bool_decide _); lia.
Qed.

Lemma item_room k i :
  order_items x !! k = Some i -> oi_orderId i = id ->
  (0 <= quantity_of (oi_variantId i) quantities <= oi_orderedQty i - oi_receivedQty i)%Z.
Proof.
  intros Hk Ho. split; [apply quantity_nonneg|]. destruct Hin as (_ & _ & Hnd & _ & _).
  destruct (ok_items _ Hok k i Hk) as (_ & [Hr _] & _).
  destruct (decide (oi_variantId i ∈ fst <$> quantities)) as [Hv|Hv]; [|rewrite quantity_of_absent by done; lia].
  apply list_elem_of_fmap in Hv as ([v n] & Ev & Hq). cbn [fst] in Ev. rewrite Ev.
  rewrite (quantity_of_elem v n) by done. destruct (Hroom _ Hq) as (item & Hitem & Hle). cbn [fst snd] in *.
  pose proof (receipt_item_of k i Hk Ho) as Hi. rewrite Ev, Hitem in Hi. by injection Hi as <-.
Qed.

Context (entries : list (string * DeliveryLine)) (rid : string) (t : gmap string ReceiptLine).
Context (Hentries : snd <$> entries = lines) (Hadded : added_lines rid receipt_items entries (receipt_lines x) t).

(** The receipt lines of an item grow by what the delivery brought of its variant. *)
Lemma delivered_item k i :
  order_items x !! k = Some i ->
  delivered k t = (delivered k (receipt_lines x) +
    if bool_decide (oi_orderId i = id) then quantity_of (oi_variantId i) quantities else 0)%Z.
Proof.
  intros Hk. destruct Hadded as (_ & _ & Hsum). rewrite Hsum. f_equal. destruct Hin as (_ & _ & _ & Hq & _).
  rewrite Hq, <- Hentries, sumZ_fmap. case_bool_decide as Ho.
  - apply sumZ_ext. intros e _. unfold delivered_of. destruct (decide (dl_variantId e.2 = oi_variantId i)) as [E|E].
    + rewrite E, (receipt_item_of k i Hk Ho). cbn. destruct (ok_items _ Hok k i Hk) as (-> & _).
      by rewrite !bool_decide_true.
    + rewrite !bool_decide_false; try done. destruct (receipt_items !! dl_variantId e.2) as [j|] eqn:Hj; [|done].
      cbn. intros [= Hjk]. apply receipt_item in Hj as (Hj & _ & Hv). congruence.
  - rewrite (sumZ_ext _ (fun _ => 0%Z)); [rewrite sumZ_const; lia|]. intros e _. rewrite bool_decide_false; [done|].
    destruct (receipt_items !! dl_variantId e.2) as [j|] eqn:Hj; [|done].
    cbn. intros [= Hjk]. apply receipt_item in Hj as (Hj & Hjo & _). congruence.
Qed.

Definition next_status : PurchaseOrderStatus :=
  if completes quantities (order_rows id x) then PO_RECEIVED else PO_PARTIALLY_RECEIVED.

Lemma received_lookup k j :
  (received quantities id <$> order_items x) !! k = Some j <-> exists i, order_items x !! k = Some i /\ j = received quantities id i.
Proof. rewrite lookup_fmap, fmap_Some. done. Qed.

Lemma progress_received r' :
  po_id r' = id -> po_status r' = next_status -> progress_ok (received quantities id <$> order_items x) r'.
Proof.
  intros Hid Hs. unfold progress_ok. rewrite Hs, Hid. unfold next_status.
  destruct (completes quantities (order_rows id x)) eqn:Hc.
  - intros k j (i & Hk & ->)%received_lookup Ho. destruct (received_columns quantities id i) as (_ & Ho' & _ & -> & _).
    rewrite Ho' in Ho. unfold completes in Hc. rewrite forallb_forall in Hc.
    assert (Hi : i ∈ order_rows id x).
    { apply order_row. destruct (ok_items _ Hok k i Hk) as (-> & _). done. }
    apply list_elem_of_In in Hi. specialize (Hc i Hi). apply bool_decide_eq_true in Hc.
    unfold received. rewrite bool_decide_true by done. simpl. exact Hc.
  - split.
    + destruct Hin as (Hne & Hall & Hnd & Hq & Hkeys). destruct lines as [|l ls] eqn:El; [done|].
      assert (Hv : dl_variantId l ∈ fst <$> quantities) by (apply Hkeys; rewrite fmap_cons; by left).
      apply list_elem_of_fmap in Hv as ([v n] & Ev & Hq'). cbn [fst] in Ev.
      destruct (Hroom _ Hq') as (item & Hitem & _). cbn [fst] in Hitem.
      destruct (receipt_item _ _ Hitem) as (Hi & Ho & Hv).
      exists (oi_id item), (received quantities id item). split; [apply received_lookup; by exists item|].
      split; [by destruct (received_columns quantities id item) as (_ & -> & _)|].
      destruct (ok_items _ Hok _ _ Hi) as (_ & [Hr _] & _). unfold received. rewrite bool_decide_true by done. simpl.
      rewrite Hq, sumZ_cons, Hv. unfold delivered_of at 1. rewrite bool_decide_true by done.
      apply Forall_cons in Hall as [Hl Hall]. unfold delivery_ok in Hl.
      assert (0 <= sumZ (delivered_of v) ls)%Z; [|lia]. apply sumZ_nonneg. intros l' Hl'.
      rewrite Forall_forall in Hall. specialize (Hall l' Hl'). unfold delivery_ok, delivered_of in *.
      destruct (bool_decide _); lia.
    + assert (Hex : Exists (not ∘ (fun i => oi_receivedQty i + quantity_of (oi_variantId i) quantities = oi_orderedQty i)%Z)
        (order_rows id x)).
      { apply (not_Forall_Exists _). intros Hall. apply not_true_iff_false in Hc. apply Hc.
        apply forallb_forall. intros i Hi. apply bool_decide_eq_true. rewrite Forall_forall in Hall.
        by apply Hall, list_elem_of_In. }
      apply Exists_exists in Hex as (i & Hi & Hne). apply order_row in Hi as [Hk Ho].
      pose proof (item_room _ _ Hk Ho) as Hroom'.
      exists (oi_id i), (received quantities id i). split; [apply received_lookup; by exists i|].
      destruct (received_columns quantities id i) as (_ & -> & _ & -> & _). split; [done|].
      unfold received. rewrite bool_decide_true by done. cbn in Hne |- *. lia.
Qed.

Lemma receipt_keeps x' r r' :
  orders x !! id = Some r -> po_id r' = id -> po_status r' = next_status ->
  orders x' = <[id := r']> (orders x) -> order_items x' = received quantities id <$> order_items x ->
  receipt_lines x' = t -> pur_ok x'.
Proof.
  intros Hr Hid Hs Ho Hi Hl. split; rewrite ?Ho, ?Hi, ?Hl.
  - intros k q [[<- <-]|[_ Hk]]%lookup_insert_Some; [done|by apply (ok_orders _ Hok)].
  - intros k j (i & Hk & ->)%received_lookup. destruct (ok_items _ Hok k i Hk) as (E & (Hr1 & Hr2) & Hq).
    destruct (received_columns quantities id i) as (E1 & E2 & _ & E4 & E5). rewrite E1, E2. split; [done|]. split.
    + unfold item_ok. rewrite E4, E5. split; [|done]. unfold received. case_bool_decide as Hoi; [|done]. simpl.
      pose proof (item_room k i Hk Hoi). lia.
    + destruct (decide (oi_orderId i = id)) as [->|Hne]; [by rewrite lookup_insert_eq|by rewrite lookup_insert_ne].
  - intros oid v. intros k1 k2 j1 j2 (i1 & H1 & ->)%received_lookup (i2 & H2 & ->)%received_lookup P1 P2.
    rewrite same_item_true in P1, P2. destruct (received_columns quantities id i1) as (_ & Eo1 & Ev1 & _).
    destruct (received_columns quantities id i2) as (_ & Eo2 & Ev2 & _). rewrite Eo1, Ev1 in P1. rewrite Eo2, Ev2 in P2.
    apply (ok_unique _ Hok oid v k1 k2 i1 i2 H1 H2); by apply same_item_true.
  - intros oid. unfold order_total. rewrite tsum_fmap. etrans; [|apply (ok_totals _ Hok oid)]. apply Z.eq_le_incl.
    apply tsum_ext. intros k i _. unfold item_cost. by destruct (received_columns quantities id i) as (_ & -> & _ & -> & ->).
  - intros k l Hk. destruct Hadded as (_ & Hback & _). apply Hback in Hk as [Hk|(e & _ & -> & item & Hitem & E1 & _ & E3 & _)].
    + destruct (ok_lines _ Hok k l Hk) as [E [i Hit]]. split; [done|]. rewrite lookup_fmap, Hit. by eexists.
    + split; [done|]. rewrite E3, lookup_fmap. destruct (receipt_item _ _ Hitem) as (-> & _). by eexists.
  - intros k j (i & Hk & ->)%received_lookup. rewrite (delivered_item k i Hk), <- (ok_received _ Hok k i Hk).
    unfold received. case_bool_decide; simpl; lia.
  - intros k q [[<- <-]|[Hne Hk]]%lookup_insert_Some; [by apply progress_received|].
    eapply progress_frame; [|by eapply (ok_progress _ Hok)]. intros k' i Hoi. rewrite received_lookup.
    rewrite (ok_orders _ Hok _ _ Hk) in Hoi. split.
    + intros Hi'. exists i. split; [done|]. unfold received. by rewrite bool_decide_false by congruence.
    + intros (j & Hj & ->). destruct (received_columns quantities id j) as (_ & E & _). rewrite E in Hoi.
      unfold received. by rewrite bool_decide_false by congruence.
Qed.
End keeps.

(** * The receipt of a delivery *)

Section receive.
Context (cuid : nat -> string) (collate : string -> string -> Z).

Lemma create_receipt_ok number id w reference ctx (d d' : Domain PurTables) rid :
  create_receipt cuid number id w reference ctx d = Ok (rid, d') ->
  same_stock (inv_of d) (inv_of d') /\ exists r, receipts (own d) !! rid = None /\
    rc_id r = rid /\ rc_orderId r = id /\ rc_externalReference r = reference /\ rc_warehouseId r = w /\
    own d' = set_receipts (<[rid := r]> (receipts (own d))) (own d).
Proof.
  intros H. unfold create_receipt in H. run_domain. simplify_eq/=.
  match goal with H : fresh_id _ _ = _ |- _ => injection H as <- <- end.
  apply orb_false_iff in Hguard as [Hn%bool_decide_eq_false%eq_None_not_Some _].
  split; [done|]. eexists. split; [exact Hn|]. split_and!; [..|reflexivity]; done.
Qed.

Definition receipt_entries (uuid : nat -> string) (lines : list DeliveryLine) : list (string * DeliveryLine) :=
  imap (fun i l => (uuid (S i), l)) lines.

Lemma receipt_entries_lines uuid lines : snd <$> receipt_entries uuid lines = lines.
Proof.
  unfold receipt_entries. apply list_eq. intros i. rewrite list_lookup_fmap, list_lookup_imap.
  by destruct (lines !! i).
Qed.

(** What a receipt does besides its transition of the order. *)
Definition receipt_done (uuid : nat -> string) (id reference : string) (row : OrderRow) (lines : list DeliveryLine)
    (quantities : list (string * Z)) (d d' : Domain PurTables) : Prop :=
  let w := po_warehouseId row in
  (forall k, level k (inv_of d') = plus (level k (inv_of d)) (sumZ (delivered_at w k) lines)) /\
  order_items (own d') = received quantities id <$> order_items (own d) /\
  (forall k r, receipts (own d) !! k = Some r -> rc_orderId r = id -> rc_externalReference r <> reference) /\
  (exists rid r, receipts (own d) !! rid = None /\ rc_id r = rid /\ rc_orderId r = id /\
     rc_externalReference r = reference /\ receipts (own d') = <[rid := r]> (receipts (own d)) /\
     forall e, e ∈ receipt_entries uuid lines -> line_recorded rid w (receipt_items (own d) id) e d').

Lemma receive_tx_ok uuid id input reference lines quantities ctx (d d' : Domain PurTables) a :
  inv (inv_of d) -> pur_ok (own d) -> receipt_input_ok lines quantities ->
  receive_tx cuid collate uuid id (rx_expectedVersion input) reference lines quantities ctx d = Ok (a, d') ->
  exists row row', orders (own d) !! id = Some row /\ orders (own d') !! id = Some row' /\
    po_status row' = next_status (own d) id quantities /\
    receipt_done uuid id reference row lines quantities d d' /\
    order_body_ok (PurReceive uuid id input) (delivery_event (po_warehouseId row) <$> lines) d d'.
Proof.
  intros Hinv Hok Hin H. unfold receive_tx, audit_order, find_order in H. run_inv.
  match goal with H : lock_in _ _ = _ |- _ => apply quiet_lock in H as [Ho Hq] end.
  match goal with H : on_inv (record _) _ = Ok (_, ?dd) |- _ => apply quiet_record in H as [Ho' Hq']; rename dd into d6 end.
  match goal with H : for_each _ (fun q => throw_if _ _) _ = _ |- _ => apply for_each_checks in H as [-> Hchecks] end.
  match goal with H : create_receipt _ _ _ _ _ _ _ = Ok (?r, _) |- _ =>
    apply create_receipt_ok in H as (Hq2 & rc & Hrn & Hrid & Hro & Hrr & _ & Hown2); rename r into rid end.
  match goal with H : update_order _ _ _ _ _ = Ok (_, ?dd) |- _ => rename H into Hup; rename dd into d5 end.
  match goal with H : for_each quantities _ _ = Ok (_, ?dd) |- _ => rename H into Hqs; rename dd into d4 end.
  match goal with H : for_each (imap _ _) _ _ = Ok (_, ?dd) |- _ => rename H into Hls; rename dd into d3 end.
  match goal with H : orders (own s) !! id = Some ?r |- _ => rename r into row; rename H into Hrow end.
  change (imap _ lines) with (receipt_entries uuid lines) in Hls. rewrite Ho in *.
  change (variant_map (order_rows id (own d))) with (receipt_items (own d) id) in *.
  assert (Hroom : forall q, q ∈ quantities -> exists item, receipt_items (own d) id !! fst q = Some item /\
    (snd q <= oi_orderedQty item - oi_receivedQty item)%Z).
  { intros q Hqin. specialize (Hchecks q Hqin). cbn beta in Hchecks.
    destruct (receipt_items (own d) id !! q.1) as [item|]; [|done]. exists item. split; [done|]. by apply Z.ltb_ge. }
  assert (Hq3 : same_stock (inv_of d) (inv_of s12)) by (by etrans).
  apply receive_lines_ok in Hls as (Href & Hlev & Hrec & t & Hown3 & Hadd);
    [|by eapply inv_same_stock|rewrite receipt_entries_lines; by destruct Hin as (_ & ? & _)].
  rewrite Hown2 in Hown3, Hadd. cbn [receipt_lines set_receipts] in Hadd.
  rewrite receipt_entries_lines in Href, Hlev.
  apply (receive_quantities_ok id) in Hqs as [Hinv4 Hown4];
    [|by destruct Hin as (_ & _ & ? & _)|rewrite Hown3; exact (reads_receipt_items (own d) id Hok)].
  rewrite Hown3 in Hown4. cbn in Hown4.
  pose proof Hup as Hup'. apply update_order_ok in Hup' as (r & Hr & Hv & Hst & E).
  rewrite Hown4 in Hr. cbn in Hr. assert (r = row) as -> by congruence.
  assert (Hlev' : forall k, level k (inv_of d6) = plus (level k (inv_of d)) (sumZ (delivered_at (po_warehouseId row) k) lines)).
  { intros k. assert (Hk : level k (inv_of d) = level k (inv_of s12)) by (symmetry; apply level_frame, Hq3).
    rewrite Hk, <- Hlev. destruct Hq' as [Hb _]. apply level_frame. rewrite Hb, E. cbn [inv_of]. by rewrite Hinv4. }
  assert (Hstatus : (if completes quantities (order_rows id (own d)) then PO_RECEIVED else PO_PARTIALLY_RECEIVED) =
    next_status (own d) id quantities) by done. rewrite Hstatus in E.
  assert (Hfinal : own d6 = set_orders (<[id := bump_order (set_po_status (next_status (own d) id quantities) row)]>
    (orders (own d))) (own d4)).
  { rewrite Ho', E. cbn [own]. by rewrite Hown4. }
  rewrite Hown4 in Hfinal.
  set (row' := bump_order (set_po_status (next_status (own d) id quantities) row)) in *.
  assert (Hstep : refines (delivery_event (po_warehouseId row) <$> lines) (inv_of d) (inv_of d6)).
  { eapply refines_frame_l; [done|exact Hq3|]. intros _. eapply refines_frame_r; [exact Href|].
    etrans; [|exact Hq']. rewrite E. cbn [inv_of]. by rewrite Hinv4. }
  exists row, row'. split; [done|]. split; [rewrite Hfinal; apply lookup_insert_eq|]. split; [done|]. split.
  - split; [exact Hlev'|]. split; [by rewrite Hfinal|]. split.
    + intros k q Hk Hqo Hqr. apply bool_decide_eq_false, eq_None_not_Some in Hguard0. rewrite find_by_None in Hguard0.
      specialize (Hguard0 k q Hk). rewrite !bool_decide_true in Hguard0 by done. done.
    + exists rid, rc. split_and!; try done; [by rewrite Hfinal|]. intros e He. eapply line_recorded_later; [by apply Hrec| |].
      * by rewrite Hfinal, Hown3.
      * destruct Hq' as (_ & -> & _). rewrite E. cbn [inv_of]. by rewrite Hinv4.
  - split; [exact Hstep|]. split.
    + eapply (receipt_keeps (own d) id lines quantities Hok Hin Hroom (receipt_entries uuid lines) rid t
        (receipt_entries_lines uuid lines) Hadd (own d6) row row'); rewrite ?Hfinal; try done. exact (ok_orders _ Hok _ _ Hrow).
    + exists row, row'. apply negb_false_iff, bool_decide_eq_true in Hguard2, Hguard3.
      split; [done|]. split; [done|]. split; [|split; [simpl; by rewrite Hguard2|split; [done|by rewrite Hfinal]]].
      simpl. split; [set_solver|]. unfold next_status. destruct (completes _ _); [by right|by left].
Qed.
End receive.
