(* ===== verification/StocktakeProofs.v ===== *)
(** Stocktakes on the abstract stock machine: what the approval of a count does to the
    ledger line by line, and what every command keeps of the count sheets. *)

From S2P Require Import Prelude Table Json StableJson AuditTrail Retry InventoryModel Inventory.
From S2P Require Import InventoryLedger InventoryProofs Durable DurableSafety.
From S2P Require Import Stocktake.

(** * Rows *)

Definition same_line (item : StocktakeItem) (i : StocktakeItem) : bool :=
  bool_decide (si_stocktakeId i = si_stocktakeId item) && bool_decide (si_locationId i = si_locationId item) &&
  bool_decide (si_variantId i = si_variantId item).

(** Primary keys, and one line per place and variant of a sheet. *)
Definition sheet_ok (x : StkTables) : Prop :=
  (forall id r, stocktakes x !! id = Some r -> st_id r = id) /\
  (forall id i, stk_items x !! id = Some i -> si_id i = id) /\
  (forall item, unique_on (same_line item) (stk_items x)).

Definition line_stock (row : StocktakeRow) (item : StocktakeItem) : StockKey :=
  mkKey (st_warehouseId row) (si_locationId item) (si_variantId item).
Definition counted (item : StocktakeItem) : Z := default 0%Z (si_countedQty item).

(** The stock change of an approved line in a state of the ledger. *)
Definition line_event (row : StocktakeRow) (db : InvDb) (item : StocktakeItem) : list event :=
  let delta := (counted item - (level (line_stock row item) db).1.1)%Z in
  if bool_decide (delta = 0%Z) then [] else [EChange (line_stock row item) delta].

Section approval.
Context (cuid : nat -> string) (collate : string -> string -> Z).

Lemma update_item_ok id f (d d' : Domain StkTables) u :
  update_item id f d = Ok (u, d') ->
  exists i, stk_items (own d) !! id = Some i /\
    d' = mkDomain (inv_of d) (set_items (<[id := f i]> (stk_items (own d))) (own d)).
Proof.
  intros H. unfold update_item in H. run_domain. by eexists.
Qed.

(** What an approved line leaves. *)
Definition line_posted (row : StocktakeRow) (item : StocktakeItem) (d d' : Domain StkTables) (n : Z) : Prop :=
  let k := line_stock row item in
  refines (line_event row (inv_of d) item) (inv_of d) (inv_of d') /\
  ((level k (inv_of d)).1.2 <= counted item)%Z /\
  (forall k', level k' (inv_of d') =
     if decide (k' = k) then (counted item, (level k (inv_of d)).1.2, counted item - (level k (inv_of d)).1.2)%Z
     else level k' (inv_of d)) /\
  n = Z.of_nat (length (line_event row (inv_of d) item)) /\
  exists mv i, stk_items (own d) !! si_id item = Some i /\
    own d' = set_items (<[si_id item := set_movement mv i]> (stk_items (own d))) (own d).

Lemma adjust_ok row ctx item k before countedQty (d : Domain StkTables) mv d' :
  adjust cuid row ctx item k before countedQty d = Ok (mv, d') ->
  exists id m rows, mv = Some id /\ movements (inv_of d) !! id = None /\ m_key m = k /\
    m_quantity m = (countedQty - before)%Z /\ own d' = own d /\
    exists n, inv_of d' = set_audits (audits (inv_of d) ++ rows)
      (set_movements (<[id := m]> (movements (inv_of d))) (set_nextId n (inv_of d))).
Proof.
  intros H. unfold adjust in H. run_domain.
  match goal with H : create_movement _ _ _ _ _ _ _ _ _ _ _ = _ |- _ =>
    apply create_movement_ok in H as (id & Hid & [= -> ->]) end.
  match goal with H : record _ _ = _ |- _ => apply record_audit_ok in H as (rows & [= _ ->]) end.
  eexists id, _, rows. split; [reflexivity|]. split; [exact Hid|].
  split; [|split; [|split; [reflexivity|exists (S (nextId (inv_of d))); reflexivity]]]; reflexivity.
Qed.

Lemma approve_line_ok row ctx item d n d' :
  inv (inv_of d) -> approve_line cuid row ctx item d = Ok (n, d') -> line_posted row item d d' n.
Proof.
  intros Hinv H. unfold approve_line in H. run_domain. rewrite ?find_balance_locks in *.
  fold (line_stock row item) in *. fold (counted item) in *.
  pose proof (level_row (line_stock row item) (inv_of d) Hinv) as Hlev.
  set (oh := from_option b_onHand 0%Z (find_balance (line_stock row item) (inv_of d))) in *.
  set (rs := from_option b_reserved 0%Z (find_balance (line_stock row item) (inv_of d))) in *.
  apply update_item_ok in Hrun5 as (i & Hi & ->). apply Z.ltb_ge in Hguard0.
  unfold line_posted, line_event. rewrite Hlev. cbn [fst snd].
  case_bool_decide as Hd; cbn [negb] in *; run_domain; cbn [inv_of own].
  - split; [apply same_stock_refines; [done|by unfold same_stock]|]. split; [done|]. split.
    + intros k. case_decide as Hk; [|done]. subst k. change (level (line_stock row item) (inv_of d) =
        (counted item, rs, counted item - rs)%Z). rewrite Hlev, !pair_eq. lia.
    + split; [done|]. by eexists _, i.
  - apply adjust_ok in Hrun3 as (id & m & rows & -> & Hid & Hk & Hq & Hown & nx & Hdb). simpl in Hid, Hdb, Hown.
    rewrite Hdb in Hrun4. rewrite Hown in *.
    apply upsert_slot in Hrun4 as (b & nb & Hbk & Hslot & Hcols & ->);
      [|apply wf_tables_balances, Hinv|by rewrite (level_frame (inv_of d)) by done; rewrite Hlev].
    destruct (posted (inv_of d) (put_balance b (set_nextId nb (set_audits (audits (inv_of d) ++ rows)
      (set_movements (<[id:=m]> (movements (inv_of d))) (set_nextId nx (set_locks ls (inv_of d)))))))
      b (counted item - oh) id m Hinv Hslot) as [Href Hl]; try done.
    + congruence.
    + by eexists.
    + unfold shifted. rewrite Hbk, Hcols, Hlev. simpl. rewrite !pair_eq. lia.
    + injection Hcols. lia.
    + rewrite Hbk in Href, Hl. split; [exact Href|]. split; [done|]. split.
      * intros k. rewrite Hl. rewrite Hcols. done.
      * split; [done|]. by eexists _, i.
Qed.

(** ** All lines *)

(** The same lines, up to their movement links. *)
Definition relinked (x x' : StkTables) : Prop :=
  stocktakes x' = stocktakes x /\ variantInfos x' = variantInfos x /\
  forall id, match stk_items x !! id with
             | Some i => exists mv, stk_items x' !! id = Some (set_movement mv i)
             | None => stk_items x' !! id = None
             end.

Lemma set_movement_id i : set_movement (si_movementId i) i = i.
Proof. by destruct i. Qed.

Lemma relinked_refl x : relinked x x.
Proof.
  split; [done|]. split; [done|]. intros id. destruct (stk_items x !! id) as [i|] eqn:E; [|done].
  exists (si_movementId i). by rewrite set_movement_id.
Qed.

Lemma relinked_trans x1 x2 x3 : relinked x1 x2 -> relinked x2 x3 -> relinked x1 x3.
Proof.
  intros (A1 & B1 & C1) (A2 & B2 & C2). split; [congruence|]. split; [congruence|]. intros id.
  specialize (C1 id). specialize (C2 id). destruct (stk_items x1 !! id) as [i|].
  - destruct C1 as [mv1 C1]. rewrite C1 in C2. destruct C2 as [mv2 ->]. by exists mv2.
  - by rewrite C1 in C2.
Qed.

Lemma relinked_step x id i mv :
  stk_items x !! id = Some i -> relinked x (set_items (<[id := set_movement mv i]> (stk_items x)) x).
Proof.
  intros Hi. split; [done|]. split; [done|]. intros k. simpl. destruct (decide (k = id)) as [->|Hk].
  - rewrite Hi. exists mv. apply lookup_insert_eq.
  - rewrite lookup_insert_ne by done. destruct (stk_items x !! k) as [j|]; [|done].
    exists (si_movementId j). by rewrite set_movement_id.
Qed.

Lemma line_event_frame row db db' item :
  level (line_stock row item) db' = level (line_stock row item) db -> line_event row db' item = line_event row db item.
Proof. intros H. unfold line_event. by rewrite H. Qed.

Definition sheet_events (row : StocktakeRow) (db : InvDb) (items : list StocktakeItem) : list event :=
  mjoin (line_event row db <$> items).

Lemma sheet_events_frame row db db' items :
  (forall k, level k db' = level k db) -> sheet_events row db' items = sheet_events row db items.
Proof. intros H. unfold sheet_events. f_equal. apply list_fmap_ext. intros j x _. by apply line_event_frame. Qed.

Definition reserved_at (k : StockKey) (db : InvDb) : Z := (level k db).1.2.

Lemma approve_lines_ok row ctx items d n d' :
  inv (inv_of d) -> NoDup (line_stock row <$> items) ->
  sum_each items (approve_line cuid row ctx) d = Ok (n, d') ->
  refines (sheet_events row (inv_of d) items) (inv_of d) (inv_of d') /\
  (forall item, item ∈ items ->
     let rs := reserved_at (line_stock row item) (inv_of d) in
     (rs <= counted item)%Z /\
     level (line_stock row item) (inv_of d') = (counted item, rs, counted item - rs)%Z) /\
  (forall k, k ∉ line_stock row <$> items -> level k (inv_of d') = level k (inv_of d)) /\
  n = Z.of_nat (length (sheet_events row (inv_of d) items)) /\ relinked (own d) (own d').
Proof.
  unfold reserved_at. revert d n. induction items as [|item items IH]; intros d n Hinv Hnd H; simpl in H.
  { run_inv. split; [by apply same_stock_refines|]. split; [set_solver|]. split; [done|].
    split; [done|]. apply relinked_refl. }
  run_inv. rewrite fmap_cons in Hnd. apply NoDup_cons in Hnd as [Hni Hnd].
  match goal with
  | H : approve_line _ _ _ _ _ = Ok (_, ?dd), H' : sum_each items _ _ = _ |- _ =>
      rename dd into d1, H into Hline, H' into Hlines
  end.
  apply approve_line_ok in Hline as (Href & Hle & Hlev & -> & mv & i & Hi & Hown); [|done].
  apply IH in Hlines as (Href' & Hin & Hout & -> & Hlink); [|by destruct Href|done].
  assert (Hsame : forall k, k ∈ line_stock row <$> items -> level k (inv_of d1) = level k (inv_of d)).
  { intros k Hk. rewrite Hlev, decide_False; [done|]. intros ->. contradiction. }
  assert (Hev : sheet_events row (inv_of d1) items = sheet_events row (inv_of d) items).
  { unfold sheet_events. f_equal. apply list_fmap_ext. intros j x Hx. apply line_event_frame, Hsame.
    apply list_elem_of_fmap_2. by eapply list_elem_of_lookup_2. }
  rewrite Hev in *. split; [|split; [|split; [|split]]].
  - unfold sheet_events. rewrite fmap_cons. simpl. by eapply refines_trans.
  - intros x [->|Hx]%elem_of_cons; simpl.
    + split; [done|]. rewrite Hout by done. by rewrite Hlev, decide_True.
    + specialize (Hin x Hx). simpl in Hin. rewrite Hsame in Hin by (by apply list_elem_of_fmap_2). done.
  - intros k Hk. rewrite fmap_cons in Hk. apply not_elem_of_cons in Hk as [Hk1 Hk2].
    rewrite Hout by done. by rewrite Hlev, decide_False.
  - unfold sheet_events. rewrite fmap_cons. simpl. rewrite length_app. lia.
  - eapply relinked_trans; [|exact Hlink]. rewrite Hown. by apply relinked_step.
Qed.
End approval.
