(* ===== verification/StocktakeSessions.v ===== *)
(** The sessions of stocktakes: the transition each command makes, what it keeps of
    the count sheets and of the ledger, and the same for whole durable commands. *)

From S2P Require Import Prelude Table Json StableJson AuditTrail Retry InventoryModel Inventory.
From S2P Require Import InventoryLedger InventoryProofs Durable DurableSafety.
From S2P Require Import Stocktake StocktakeProofs.

(** * Session steps *)

Definition session_of (cmd : StkCommand) : option (string * Z) :=
  match cmd with
  | StkCreate _ _ => None
  | StkStart id v | StkCount id v _ | StkSubmit id v | StkApprove id v | StkCancel id v => Some (id, v)
  end.

Definition session_edge (cmd : StkCommand) (from to : StocktakeStatus) : Prop :=
  match cmd with
  | StkCreate _ _ => False
  | StkStart _ _ => from = S_DRAFT /\ to = S_COUNTING
  | StkCount _ _ _ => from = S_COUNTING /\ to = S_COUNTING
  | StkSubmit _ _ => from = S_COUNTING /\ to = S_REVIEW
  | StkApprove _ _ => from = S_REVIEW /\ to = S_COMPLETED
  | StkCancel _ _ => from <> S_COMPLETED /\ from <> S_CANCELLED /\ to = S_CANCELLED
  end.

(** The columns that no command changes. *)
Definition same_identity (r r' : StocktakeRow) : Prop :=
  st_id r' = st_id r /\ st_number r' = st_number r /\ st_warehouseId r' = st_warehouseId r /\
  st_scopeType r' = st_scopeType r /\ st_scope r' = st_scope r /\ st_notes r' = st_notes r /\
  st_createdById r' = st_createdById r /\ st_createdAt r' = st_createdAt r.

(** One transition of the session [id] at the expected version; other sessions stay. *)
Definition session_step (cmd : StkCommand) (id : string) (v : Z) (x x' : StkTables) : Prop :=
  exists row row', stocktakes x !! id = Some row /\ st_version row = v /\
    session_edge cmd (st_status row) (st_status row') /\ st_version row' = (v + 1)%Z /\
    same_identity row row' /\ stocktakes x' = <[id := row']> (stocktakes x).

Definition created_session (x x' : StkTables) : Prop :=
  exists id row, stocktakes x !! id = None /\ st_id row = id /\ st_status row = S_DRAFT /\ st_version row = 0%Z /\
    stocktakes x' = <[id := row]> (stocktakes x).

Lemma update_session_ok id v st data (d d' : Domain StkTables) u :
  update_session id v st data d = Ok (u, d') ->
  exists r, stocktakes (own d) !! id = Some r /\ st_version r = v /\ st_status r = st /\
    d' = mkDomain (inv_of d) (set_stocktakes (<[id := bump_version (data r)]> (stocktakes (own d))) (own d)).
Proof.
  intros H. unfold update_session in H. run_inv.
  destruct (stocktakes (own d) !! id) as [r|] eqn:Hr; [|by run_inv].
  destruct (_ && _) eqn:E; [|by run_inv]. apply andb_true_iff in E as [E1%bool_decide_eq_true E2%bool_decide_eq_true].
  run_domain. by exists r.
Qed.

(** A sheet whose lines are those of [x], with other contents. *)
Definition same_sheet (x x' : StkTables) : Prop :=
  forall id, match stk_items x !! id with
             | Some i => exists i', stk_items x' !! id = Some i' /\ si_id i' = si_id i /\
                 same_line i i' = true
             | None => stk_items x' !! id = None
             end.

Lemma same_line_true item i :
  same_line item i = true <->
  si_stocktakeId i = si_stocktakeId item /\ si_locationId i = si_locationId item /\ si_variantId i = si_variantId item.
Proof. unfold same_line. rewrite !andb_true_iff, !bool_decide_eq_true. tauto. Qed.

Lemma same_sheet_refl x : same_sheet x x.
Proof. intros id. destruct (stk_items x !! id) as [i|]; [|done]. exists i. by rewrite same_line_true. Qed.

Lemma same_sheet_trans x1 x2 x3 : same_sheet x1 x2 -> same_sheet x2 x3 -> same_sheet x1 x3.
Proof.
  intros H1 H2 id. specialize (H1 id). specialize (H2 id). destruct (stk_items x1 !! id) as [i|].
  - destruct H1 as (i2 & E2 & I2 & L2). rewrite E2 in H2. destruct H2 as (i3 & E3 & I3 & L3).
    exists i3. rewrite same_line_true in *. naive_solver congruence.
  - by rewrite H1 in H2.
Qed.

Lemma same_sheet_insert x id i i' :
  stk_items x !! id = Some i -> si_id i' = si_id i -> same_line i i' = true ->
  same_sheet x (set_items (<[id := i']> (stk_items x)) x).
Proof.
  intros Hi Hid Hl k. simpl. destruct (decide (k = id)) as [->|Hk].
  - rewrite Hi, lookup_insert_eq. by exists i'.
  - rewrite lookup_insert_ne by done. apply (same_sheet_refl x k).
Qed.

Lemma relinked_same_sheet x x' : relinked x x' -> same_sheet x x'.
Proof.
  intros (_ & _ & H) id. specialize (H id). destruct (stk_items x !! id) as [i|]; [|done].
  destruct H as [mv ->]. eexists. split; [done|]. split; [done|]. by apply same_line_true.
Qed.

Definition lines_ok (x : StkTables) : Prop :=
  (forall id i, stk_items x !! id = Some i -> si_id i = id) /\
  (forall item, unique_on (same_line item) (stk_items x)).

Lemma sheet_lines x : sheet_ok x -> lines_ok x.
Proof. by intros (_ & ? & ?). Qed.

Lemma lines_ok_sheet x x' : lines_ok x -> same_sheet x x' -> lines_ok x'.
Proof.
  intros [Hi Hu] Hs.
  assert (Hback : forall k i', stk_items x' !! k = Some i' ->
    exists i, stk_items x !! k = Some i /\ si_id i' = si_id i /\ same_line i i' = true).
  { intros k i' Hk. specialize (Hs k). destruct (stk_items x !! k) as [i|]; [|congruence].
    destruct Hs as (i2 & E & H2). exists i. split; [done|]. by simplify_eq. }
  split.
  - intros k i' Hk. apply Hback in Hk as (i & Hk & -> & _). by apply Hi.
  - intros item k1 k2 i1 i2 H1 H2 P1 P2. apply Hback in H1 as (j1 & H1 & _ & L1), H2 as (j2 & H2 & _ & L2).
    apply (Hu item k1 k2 j1 j2 H1 H2); rewrite same_line_true in *; naive_solver congruence.
Qed.

Lemma step_ids x id r r' :
  sheet_ok x -> stocktakes x !! id = Some r -> st_id r' = st_id r ->
  forall k q, <[id := r']> (stocktakes x) !! k = Some q -> st_id q = k.
Proof.
  intros (Hr & _) Hid E k q [[<- <-]|[_ H]]%lookup_insert_Some; [|by apply Hr]. rewrite E. by apply Hr.
Qed.

(** * One lemma per command *)

Section bodies.
Context (cuid : nat -> string) (collate : string -> string -> Z).

Definition body_ok (cmd : StkCommand) (es : list event) (d d' : Domain StkTables) : Prop :=
  refines es (inv_of d) (inv_of d') /\ sheet_ok (own d') /\
  match session_of cmd with
  | Some (id, v) => session_step cmd id v (own d) (own d')
  | None => created_session (own d) (own d')
  end.

Lemma same_stock_quiet (db db' : InvDb) es db0 :
  refines es db0 db -> same_stock db db' -> refines es db0 db'.
Proof. apply refines_frame_r. Qed.

Ltac quiet_steps :=
  repeat match goal with
  | H : session_lock _ _ = Ok _ |- _ => unfold session_lock in H; apply quiet_lock in H
  | H : audit _ _ _ _ _ = Ok _ |- _ => unfold audit in H; apply quiet_record in H
  | H : quiet _ _ |- _ => destruct H as [? ?]
  end.

(** A body that advances its session and keeps its lines in order. *)
Lemma session_body_ok cmd id v es (d d' : Domain StkTables) r row' :
  sheet_ok (own d) -> session_of cmd = Some (id, v) -> stocktakes (own d) !! id = Some r ->
  st_version r = v -> session_edge cmd (st_status r) (st_status row') -> same_identity r row' ->
  st_version row' = (v + 1)%Z -> stocktakes (own d') = <[id := row']> (stocktakes (own d)) ->
  lines_ok (own d') -> refines es (inv_of d) (inv_of d') -> body_ok cmd es d d'.
Proof.
  intros Hok Hs Hr Hv Hedge Hsame Hv' Hst [Hl1 Hl2] Href. unfold body_ok. rewrite Hs. split; [done|]. split.
  - split; [|done]. rewrite Hst. apply (step_ids _ _ r); [done|done|]. by destruct Hsame.
  - exists r, row'. by split_and!.
Qed.

(** Rewrites with the known tables. *)
Ltac own_eqs := cbn [own inv_of] in *.

(** A body whose guarded update is the only write to the sessions. *)
Lemma advance_ok cmd id v st data es (d d1 d2 d' : Domain StkTables) u :
  sheet_ok (own d) -> session_of cmd = Some (id, v) ->
  stocktakes (own d1) = stocktakes (own d) -> update_session id v st data d1 = Ok (u, d2) ->
  stocktakes (own d') = stocktakes (own d2) -> lines_ok (own d') -> refines es (inv_of d) (inv_of d') ->
  (forall r, st_status r = st ->
     session_edge cmd st (st_status (data r)) /\ same_identity r (data r) /\ st_version (data r) = st_version r) ->
  body_ok cmd es d d'.
Proof.
  intros Hok Hs H1 H H2 Hl Href Hdata. apply update_session_ok in H as (r & Hr & Hv & Hst & ->).
  destruct (Hdata r Hst) as (Hedge & Hsame & Hver). simpl in H2. rewrite H1 in *.
  apply (session_body_ok cmd id v es d d' r (bump_version (data r))); try done.
  - by rewrite Hst.
  - simpl. by rewrite Hver, Hv.
Qed.

(** A guarded session update that leaves the lines alone. *)
Lemma update_only_ok cmd id v st data (d d1 d2 d' : Domain StkTables) u :
  inv (inv_of d) -> sheet_ok (own d) -> session_of cmd = Some (id, v) ->
  quiet d d1 -> update_session id v st data d1 = Ok (u, d2) -> quiet d2 d' ->
  (forall r, st_status r = st ->
     session_edge cmd st (st_status (data r)) /\ same_identity r (data r) /\ st_version (data r) = st_version r) ->
  body_ok cmd [] d d'.
Proof.
  intros Hinv Hok Hs [Ho1 Hq1] H [Ho2 Hq2] Hdata.
  apply (advance_ok cmd id v st data [] d d1 d2 d' u); try done; try congruence.
  - apply update_session_ok in H as (r & _ & _ & _ & ->). rewrite Ho2, Ho1. exact (sheet_lines _ Hok).
  - apply update_session_ok in H as (r & _ & _ & _ & ->). apply same_stock_refines; [done|]. by etrans.
Qed.

Lemma submit_tx_ok now id v ctx d a d' :
  inv (inv_of d) -> sheet_ok (own d) -> submit_tx now id v ctx d = Ok (a, d') -> body_ok (StkSubmit id v) [] d d'.
Proof.
  intros Hinv Hok H. unfold submit_tx, find_session, check_version in H. run_inv. quiet_steps.
  eapply update_only_ok; [done|done|reflexivity|by split|eassumption|by split|].
  intros r Hr. by split.
Qed.

Lemma cancel_tx_ok now id v ctx d a d' :
  inv (inv_of d) -> sheet_ok (own d) -> cancel_tx now id v ctx d = Ok (a, d') -> body_ok (StkCancel id v) [] d d'.
Proof.
  intros Hinv Hok H. unfold cancel_tx, find_session, check_version in H. run_inv. quiet_steps.
  eapply update_only_ok; [done|done|reflexivity|by split|eassumption|by split|].
  intros r Hr. split; [|done]. apply bool_decide_eq_false in Hguard0. simpl. set_solver.
Qed.

(** ** Opening the count *)

Lemma create_item_ok sid b (d d' : Domain StkTables) u :
  create_item cuid sid b d = Ok (u, d') ->
  same_stock (inv_of d) (inv_of d') /\ stocktakes (own d') = stocktakes (own d) /\
  (lines_ok (own d) -> lines_ok (own d')).
Proof.
  intros H. unfold create_item in H. run_domain. simplify_eq/=.
  match goal with H : fresh_id _ _ = _ |- _ => injection H as <- <- end.
  split; [done|]. split; [done|]. intros [Hid Hu]. apply orb_false_iff in Hguard as [Ht Hd].
  apply bool_decide_eq_false, eq_None_not_Some in Ht, Hd. rewrite find_by_None in Hd. split; simpl.
  - intros k i [[<- <-]|[_ Hk]]%lookup_insert_Some; [done|by apply Hid].
  - intros item. apply unique_on_insert; [done|apply Hu|]. rewrite same_line_true. simpl. intros (E1 & E2 & E3).
    apply find_by_None. intros k i Hk. apply not_true_is_false. rewrite same_line_true. intros (F1 & F2 & F3).
    specialize (Hd k i Hk). rewrite F1, F2, F3, E1, E2, E3, !bool_decide_true in Hd by done. done.
Qed.

Lemma sheet_items_created sid bs (d d' : Domain StkTables) u :
  for_each bs (create_item cuid sid) d = Ok (u, d') ->
  same_stock (inv_of d) (inv_of d') /\ stocktakes (own d') = stocktakes (own d) /\
  (lines_ok (own d) -> lines_ok (own d')).
Proof.
  revert d. induction bs as [|b bs IH]; intros d H; simpl in H; run_inv; [done|].
  match goal with H : create_item _ _ _ _ = _ |- _ => apply create_item_ok in H as (A1 & B1 & C1) end.
  apply IH in H as (A2 & B2 & C2). split; [by etrans|]. split; [congruence|]. auto.
Qed.

Lemma start_tx_ok now id v ctx d a d' :
  inv (inv_of d) -> sheet_ok (own d) -> start_tx cuid collate now id v ctx d = Ok (a, d') ->
  body_ok (StkStart id v) [] d d'.
Proof.
  intros Hinv Hok H. unfold start_tx, find_session, check_version, scopeBalances in H. run_inv. quiet_steps.
  match goal with H : for_each _ _ _ = _ |- _ => apply sheet_items_created in H as (Hq & Hses & Hlines) end.
  match goal with H : update_session _ _ _ _ _ = Ok (_, ?dd) |- _ => rename H into Hup; rename dd into d2 end.
  pose proof Hup as Hup'. apply update_session_ok in Hup' as (r & _ & _ & _ & E).
  assert (inv_of d2 = inv_of s) by (by rewrite E).
  eapply (advance_ok (StkStart id v)); [done|reflexivity| |exact Hup|congruence| | |].
  - congruence.
  - rewrite H. apply Hlines. rewrite E. simpl. rewrite H1. exact (sheet_lines _ Hok).
  - apply same_stock_refines; [done|]. etrans; [eassumption|]. etrans; [|eassumption].
    etrans; [|eassumption]. by rewrite E.
  - intros q Hq'. by split.
Qed.

(** ** Counting *)

Lemma item_map_lookup items key i : item_map items !! key = Some i -> i ∈ items /\ item_key i = key.
Proof.
  unfold item_map. assert (Hgen : forall m : gmap string StocktakeItem,
    foldl (fun m i => <[item_key i := i]> m) m items !! key = Some i ->
    (i ∈ items /\ item_key i = key) \/ m !! key = Some i).
  { induction items as [|j items IH]; intros m H; simpl in H; [by right|].
    apply IH in H as [[H1 H2]|H]; [left; split; [set_solver|done]|].
    apply lookup_insert_Some in H as [[H1 <-]|[_ H]]; [left; split; [set_solver|done]|by right]. }
  intros H. apply Hgen in H as [H|H]; [done|]. by rewrite lookup_empty in H.
Qed.

(** Recording counts keeps the sheet. *)
Lemma count_lines_ok now ctx (items : gmap string StocktakeItem) ls (d d' : Domain StkTables) u :
  for_each ls (fun l =>
    item ← unwrap (items !! count_key l) undefined_property;
    throw_if (negb (int4 (cl_countedQty l - si_expectedQty item)%Z)) P2020 ;;
    update_item (si_id item) (record_count now ctx l (cl_countedQty l - si_expectedQty item)%Z)) d = Ok (u, d') ->
  inv_of d' = inv_of d /\ stocktakes (own d') = stocktakes (own d) /\ same_sheet (own d) (own d').
Proof.
  revert d. induction ls as [|l ls IH]; intros d H; simpl in H; run_inv.
  { split; [done|]. split; [done|]. apply same_sheet_refl. }
  match goal with H : update_item _ _ _ = _ |- _ => apply update_item_ok in H as (i & Hi & ->) end.
  apply IH in H as (A & B & C). split; [done|]. split; [done|]. eapply same_sheet_trans; [|exact C].
  apply (same_sheet_insert _ _ i); [done|done|]. by apply same_line_true.
Qed.

Lemma count_tx_ok now id v ls0 ls ctx d a d' :
  inv (inv_of d) -> sheet_ok (own d) -> count_tx now id v ls ctx d = Ok (a, d') ->
  body_ok (StkCount id v ls0) [] d d'.
Proof.
  intros Hinv Hok H. unfold count_tx, find_session, check_version in H. run_inv. quiet_steps.
  match goal with H : for_each _ (fun l => throw_if _ _) _ = _ |- _ =>
    apply for_each_reads in H; [|intros l s' u s2 Hl; by run_inv] end.
  match goal with H : for_each _ _ _ = _ |- _ => apply count_lines_ok in H as (Hi & Hses & Hsheet) end.
  match goal with H : update_session _ _ _ _ _ = Ok (_, ?dd) |- _ => rename H into Hup; rename dd into d2 end.
  pose proof Hup as Hup'. apply update_session_ok in Hup' as (r & _ & _ & _ & E). subst s4.
  apply negb_false_iff, bool_decide_eq_true in Hguard0.
  eapply (advance_ok (StkCount id v ls0)); [done|reflexivity| |exact Hup|congruence| | |].
  - congruence.
  - rewrite H, E. simpl. rewrite H1 in Hsheet. exact (lines_ok_sheet _ _ (sheet_lines _ Hok) Hsheet).
  - apply same_stock_refines; [done|]. etrans; [eassumption|]. etrans; [|eassumption]. by rewrite E, Hi.
  - intros q Hq'. simpl. rewrite Hq', Hguard0. by split.
Qed.

(** ** Approval *)

Lemma elem_of_items_of id x i : i ∈ items_of collate id x <-> (exists k, stk_items x !! k = Some i) /\ si_stocktakeId i = id.
Proof. unfold items_of. by rewrite elem_of_js_sort, elem_of_find_many, bool_decide_eq_true. Qed.

Lemma items_of_lines id x row :
  sheet_ok x -> NoDup (line_stock row <$> items_of collate id x).
Proof.
  intros (_ & Hid & Hu). unfold items_of. rewrite js_sort_Permutation.
  apply NoDup_fmap_2_strong; [|by eapply NoDup_fmap_1, (NoDup_find_many si_id)].
  intros i j Hi Hj E. apply elem_of_find_many in Hi as [[k Hk] Ei], Hj as [[k' Hk'] Ej].
  apply bool_decide_eq_true in Ei, Ej. injection E as E1 E2.
  assert (k = k') as ->; [|congruence]. apply (Hu i k k' i j Hk Hk'); apply same_line_true; split_and!; congruence.
Qed.

Lemma approve_tx_ok now id v ctx d a d' :
  inv (inv_of d) -> sheet_ok (own d) -> approve_tx cuid collate now id v ctx d = Ok (a, d') ->
  exists row, stocktakes (own d) !! id = Some row /\ st_status row = S_REVIEW /\ st_version row = v /\
    let items := items_of collate id (own d) in
    items <> [] /\ uncounted items = false /\
    body_ok (StkApprove id v) (sheet_events row (inv_of d) items) d d' /\
    (forall item, item ∈ items ->
       let rs := reserved_at (line_stock row item) (inv_of d) in
       (rs <= counted item)%Z /\
       level (line_stock row item) (inv_of d') = (counted item, rs, counted item - rs)%Z) /\
    (forall k, k ∉ line_stock row <$> items -> level k (inv_of d') = level k (inv_of d)) /\
    same_sheet (own d) (own d').
Proof.
  intros Hinv Hok H. unfold approve_tx, find_session, check_version in H. run_inv. quiet_steps.
  match goal with H : sum_each _ _ _ = _ |- _ => apply approve_lines_ok in H as (Href & Hin & Hout & _ & Hlink) end;
    [|by eapply inv_same_stock|rewrite H1; by apply items_of_lines].
  match goal with H : update_session _ _ _ _ _ = Ok (_, ?dd) |- _ => rename H into Hup; rename dd into d2 end.
  pose proof Hup as Hup'. apply update_session_ok in Hup' as (r & Hr & Hv & Hst & E).
  pose proof (relinked_same_sheet _ _ Hlink) as Hsheet. rewrite H1 in *.
  assert (Hlev : forall k, level k (inv_of s) = level k (inv_of d)) by (intros k; apply level_frame, H2).
  assert (Hlev' : forall k, level k (inv_of s8) = level k (inv_of s6)).
  { intros k. apply level_frame. destruct H0 as [-> _]. by rewrite E. }
  assert (Hsheet' : same_sheet (own d) (own s8)) by (rewrite H, E; exact Hsheet).
  rewrite (sheet_events_frame v0 (inv_of d) (inv_of s) _ Hlev) in Href.
  destruct Hlink as [Hses _].
  apply negb_false_iff, bool_decide_eq_true in Hguard2, Hguard1. apply bool_decide_eq_false in Hguard0.
  exists v0. cbv zeta. split_and!; try done.
  - eapply (advance_ok (StkApprove id v)); [done|reflexivity| |exact Hup|congruence| | |].
    + exact Hses.
    + exact (lines_ok_sheet _ _ (sheet_lines _ Hok) Hsheet').
    + eapply (refines_frame_l _ _ (inv_of s)); [done|done|]. intros _.
      eapply refines_frame_r; [exact Href|]. etrans; [|eassumption]. by rewrite E.
    + intros q Hq. by split.
  - intros item Hi. unfold reserved_at. simpl. rewrite <- Hlev, Hlev'. by apply Hin.
  - intros k Hk. rewrite Hlev', <- Hlev. by apply Hout.
Qed.

(** ** Creation *)

Lemma create_tx_ok uuid now input st ls vs ctx d a d' :
  inv (inv_of d) -> sheet_ok (own d) -> create_tx cuid uuid now input st ls vs ctx d = Ok (a, d') ->
  body_ok (StkCreate uuid input) [] d d'.
Proof.
  intros Hinv Hok H. unfold create_tx in H. run_inv. quiet_steps.
  assert (s1 = d) as -> by (destruct (bool_decide (ls = [])); by run_inv).
  assert (s2 = d) as -> by (destruct (bool_decide (vs = [])); by run_inv).
  match goal with H : on_inv _ _ = _ |- _ => apply quiet_fresh in H as [H1 H2] end.
  match goal with H : on_own _ _ = _ |- _ => apply on_own_ok in H as (t & Hw & ->) end.
  injection Hw as Hw. own_eqs. subst t.
  apply orb_false_iff in Hguard as [Ht%bool_decide_eq_false%eq_None_not_Some _]. rewrite H1 in Ht, H.
  assert (Hq : same_stock (inv_of d) (inv_of s8)) by (etrans; [exact H2|exact H0]).
  unfold body_ok. split; [by apply same_stock_refines|]. split.
  - split; [|rewrite H; exact (sheet_lines _ Hok)].
    intros k q. rewrite H. simpl. intros [[<- <-]|[_ Hk]]%lookup_insert_Some; [done|by apply Hok].
  - eexists _, _. split; [exact Ht|]. split_and!; [..|by rewrite H]; done.
Qed.

(** ** Any prepared command *)

Lemma prepared_body_ok now cmd ctx scope payload body d a d' :
  inv (inv_of d) -> sheet_ok (own d) -> prepare cuid collate now cmd ctx = Ok (scope, payload, body) ->
  body d = Ok (a, d') -> exists es, body_ok cmd es d d'.
Proof.
  intros Hinv Hok Hp H. destruct cmd as [uuid input|id v|id v ls|id v|id v|id v]; simpl in Hp.
  - destruct (create_input input) as [[[st ls] vs]|e]; [|done]. injection Hp as _ _ <-. eexists. by eapply create_tx_ok.
  - injection Hp as _ _ <-. eexists. by eapply start_tx_ok.
  - destruct (normalizeCounts ls) as [counts|e]; [|done]. injection Hp as _ _ <-. eexists. by eapply count_tx_ok.
  - injection Hp as _ _ <-. eexists. by eapply submit_tx_ok.
  - injection Hp as _ _ <-. apply approve_tx_ok in H as (row & _ & _ & _ & _ & _ & H & _); [|done..]. by eexists.
  - injection Hp as _ _ <-. eexists. by eapply cancel_tx_ok.
Qed.

(** The detail of a command reads only. *)
Lemma load_detail_reads id (d d' : Domain StkTables) r : load_detail collate id d = Ok (r, d') -> d' = d.
Proof. intros H. unfold load_detail in H. by run_inv. Qed.
End bodies.
