(* ===== verification/InventoryExpiry.v ===== *)
(** The expiry worker of [Inventory]: the grouped balance updates add up to the
    expired quantities, one transaction expires every candidate that is still due,
    and it takes the balance locks in one global order. *)

From S2P Require Import Prelude Table Json AuditTrail Retry InventoryModel Inventory.
From S2P Require Import InventoryLedger InventoryProofs.

(** * Keys and order *)

Lemma expiryBalanceKey_inj k1 k2 : expiryBalanceKey k1 = expiryBalanceKey k2 -> k1 = k2.
Proof.
  unfold expiryBalanceKey. intros H. apply stringify_strings_inj in H; [|done].
  destruct k1, k2. simpl in H. congruence.
Qed.

Lemma by_code_unit_le a b : cmp_le by_code_unit a b <-> a = b \/ js_ltb a b = true.
Proof.
  unfold cmp_le, by_code_unit. case_bool_decide as Heq; [naive_solver lia|].
  destruct (js_ltb a b); naive_solver lia.
Qed.

#[export] Instance by_code_unit_total : Total (cmp_le by_code_unit).
Proof. intros a b. rewrite !by_code_unit_le. destruct (js_ltb_total a b); naive_solver. Qed.

#[export] Instance by_code_unit_trans : Transitive (cmp_le by_code_unit).
Proof.
  intros a b c. rewrite !by_code_unit_le. intros [->|H1] [->|H2]; eauto using js_ltb_trans.
Qed.

(** The keys are locked in strictly ascending order. *)
Lemma orderedKeys_ascending cs :
  StronglySorted (fun a b => js_ltb a b = true) (orderedKeys cs).
Proof.
  unfold orderedKeys. set (l := unique _).
  assert (Hnd : NoDup (js_sort by_code_unit l)) by (rewrite js_sort_Permutation; apply NoDup_unique).
  pose proof (js_sort_sorted by_code_unit l) as Hs.
  induction Hs as [|a l' Hs IH Hall]; [constructor|]. apply NoDup_cons in Hnd as [Ha Hnd].
  constructor; [by apply IH|]. apply Forall_forall. intros b Hb. rewrite Forall_forall in Hall.
  destruct (proj1 (by_code_unit_le a b) (Hall b Hb)) as [->|H]; [done|done].
Qed.

Lemma elem_of_orderedKeys cs key :
  key ∈ orderedKeys cs <-> exists c, c ∈ cs /\ key = expiryBalanceKey (r_key c).
Proof.
  unfold orderedKeys. rewrite elem_of_js_sort, elem_of_unique, list_elem_of_fmap. naive_solver.
Qed.

Lemma expiry_keys_lookup cs key k :
  expiry_keys cs !! key = Some k -> key = expiryBalanceKey k.
Proof.
  unfold expiry_keys. assert (Hm : forall m : gmap string StockKey,
    (forall key k, m !! key = Some k -> key = expiryBalanceKey k) ->
    foldl (fun keys c => <[expiryBalanceKey (r_key c) := r_key c]> keys) m cs !! key = Some k ->
    key = expiryBalanceKey k).
  { induction cs as [|c cs IH]; intros m Hm; simpl; [apply Hm|]. apply IH.
    intros key' k' [[<- <-]|[_ H]]%lookup_insert_Some; [done|by apply Hm]. }
  apply Hm. intros key' k' H. by rewrite lookup_empty in H.
Qed.

(** The lock texts the transaction takes, in order. *)
Definition lock_of (k : StockKey) : string :=
  advisoryLockIdKey ["balance"; warehouseId k; locationId k; variantId k].

Lemma lock_keys_ok (keys : gmap string StockKey) l e db u db' :
  (forall key k, keys !! key = Some k -> key = expiryBalanceKey k) ->
  for_each l (fun key => k ← unwrap (keys !! key) e; acquireBalanceLock k) db = Ok (u, db') ->
  exists ks, expiryBalanceKey <$> ks = l /\ db' = set_locks (locks db ++ (lock_of <$> ks)) db.
Proof.
  intros Hk. revert db. induction l as [|key l IH]; intros db H; simpl in H; run_inv.
  - exists []. rewrite app_nil_r. split; [done|]. by destruct db.
  - unfold acquireBalanceLock, advisory_lock in Hrun. run_inv.
    apply IH in H as (ks & <- & ->). exists (v :: ks). simpl. rewrite <- app_assoc.
    split; [by rewrite (Hk _ _ Hsome)|done].
Qed.

(** * The plan *)

Definition group_at (k : StockKey) (g : ExpiryGroup) : Z :=
  at_key (b_key (g_balance g)) k (g_quantity g).
Definition row_at (k : StockKey) (r : StockReservation) : Z := at_key (r_key r) k (r_quantity r).

Lemma group_key_eq g k : group_key g = expiryBalanceKey k <-> b_key (g_balance g) = k.
Proof. unfold group_key. split; [apply expiryBalanceKey_inj|by intros ->]. Qed.

Lemma add_to_group_balance key q g : g_balance (add_to_group key q g) = g_balance g.
Proof. unfold add_to_group. by case_bool_decide. Qed.

Lemma add_to_group_keys key q (gs : list ExpiryGroup) : (group_key <$> (add_to_group key q <$> gs)) = group_key <$> gs.
Proof.
  rewrite <- list_fmap_compose. apply list_fmap_ext. intros i g _. unfold compose, group_key.
  by rewrite add_to_group_balance.
Qed.

(** Adding to the group of a key that occurs once adds once. *)
Lemma sum_add_to_group k' q k (gs : list ExpiryGroup) :
  NoDup (group_key <$> gs) -> expiryBalanceKey k' ∈ group_key <$> gs ->
  sumZ (group_at k) (add_to_group (expiryBalanceKey k') q <$> gs) =
  (sumZ (group_at k) gs + at_key k' k q)%Z.
Proof.
  assert (Hnone : forall gs : list ExpiryGroup, expiryBalanceKey k' ∉ group_key <$> gs ->
    sumZ (group_at k) (add_to_group (expiryBalanceKey k') q <$> gs) = sumZ (group_at k) gs).
  { clear gs. intros gs. induction gs as [|g gs IH]; [done|]. rewrite !fmap_cons, not_elem_of_cons, !sumZ_cons.
    intros [Hne Hin]. rewrite IH by done. unfold add_to_group. by rewrite bool_decide_false by congruence. }
  induction gs as [|g gs IH]; [set_solver|]. rewrite !fmap_cons, !sumZ_cons. intros [Hg Hnd]%NoDup_cons Hin.
  apply elem_of_cons in Hin as [Heq|Hin].
  - rewrite Hnone by (by rewrite Heq). unfold add_to_group. rewrite bool_decide_true by done.
    symmetry in Heq. rewrite group_key_eq in Heq. unfold group_at, at_key. simpl. rewrite Heq.
    case_decide; lia.
  - rewrite IH by done. unfold add_to_group. rewrite bool_decide_false by congruence. lia.
Qed.

Definition groups_ok (gs : list ExpiryGroup) : Prop :=
  NoDup (group_key <$> gs) /\ (forall g, g ∈ gs -> 0 <= g_count g /\ (g_count g = 0 -> g_quantity g = 0))%Z.

Lemma plan_rows_ok rows gs evs ctx gs' evs' :
  groups_ok gs -> plan_rows rows gs evs ctx = Ok (gs', evs') ->
  groups_ok gs' /\ g_balance <$> gs' = g_balance <$> gs /\
  (forall k, sumZ (group_at k) gs' = sumZ (group_at k) gs + sumZ (row_at k) rows)%Z.
Proof.
  revert gs evs. induction rows as [|row rows IH]; intros gs evs Hgs H; simpl in H.
  { injection H as <- <-. split; [done|]. split; [done|]. intros k. simpl. lia. }
  destruct (List.find _ gs) as [g|] eqn:Hg; [|done]. apply find_some in Hg as [Hin Hkey].
  apply bool_decide_eq_true in Hkey. apply list_elem_of_In in Hin.
  destruct (_ <? _)%Z; [done|]. apply IH in H as (Hok & Hbal & Hsum).
  - split; [done|]. split.
    + rewrite Hbal, <- list_fmap_compose. apply list_fmap_ext. intros. apply add_to_group_balance.
    + intros k. rewrite Hsum, sum_add_to_group; [rewrite sumZ_cons; unfold row_at at 2; lia|apply Hgs|].
      rewrite <- Hkey. by apply list_elem_of_fmap_2.
  - destruct Hgs as [Hnd Hc]. split; [by rewrite add_to_group_keys|].
    intros g' (g0 & -> & Hg0)%list_elem_of_fmap. apply Hc in Hg0. unfold add_to_group.
    case_bool_decide; simpl; lia.
Qed.

(** * The grouped balance updates *)

(** Balances move by [d k] from reserved to available at each key; other tables and
    the identity of the rows stay. *)
Definition moved_back (d : StockKey -> Z) (db db' : InvDb) : Prop :=
  wf_balances (balances db') /\
  (forall id b, balances db !! id = Some b ->
     exists b', balances db' !! id = Some b' /\ b_key b' = b_key b) /\
  (forall k, level k db' = ((level k db).1.1, (level k db).1.2 - d k, (level k db).2 + d k)%Z) /\
  reservations db' = reservations db /\ movements db' = movements db /\ audits db' = audits db /\
  locks db' = locks db.

Lemma moved_back_none d db :
  wf_balances (balances db) -> (forall k, d k = 0%Z) -> moved_back d db db.
Proof.
  intros Hwf Hd. split; [done|]. split; [eauto|]. split; [|done]. intros k. rewrite Hd.
  destruct (level k db) as [[x y] z]. simpl. rewrite !pair_eq. lia.
Qed.

Lemma moved_back_trans d1 d2 db1 db2 db3 :
  moved_back d1 db1 db2 -> moved_back d2 db2 db3 -> moved_back (fun k => d1 k + d2 k)%Z db1 db3.
Proof.
  intros (W1 & B1 & L1 & R1 & M1 & A1 & K1) (W2 & B2 & L2 & R2 & M2 & A2 & K2).
  split; [done|]. split.
  { intros id b H. destruct (B1 _ _ H) as (b' & H' & E1). destruct (B2 _ _ H') as (b'' & H'' & E2).
    exists b''. split; [done|congruence]. }
  split; [|split_and!; congruence].
  intros k. rewrite L2, L1. simpl. rewrite !pair_eq. lia.
Qed.

Lemma give_back_moves q n db id b :
  wf_balances (balances db) -> balances db !! id = Some b ->
  moved_back (fun k => at_key (b_key b) k q) db (put_balance (give_back q n b) db).
Proof.
  intros Hwf Hb. assert (Hid : b_id b = id) by (by apply Hwf).
  assert (Hslot : balance_slot (give_back q n b) db).
  { left. exists b. simpl. by rewrite Hid. }
  split; [by apply wf_balances_write|]. split; [by intros; apply evolves_balances_write|].
  split; [|done]. intros k. rewrite (level_write (give_back q n b) db) by done.
  unfold at_key. simpl. case_decide as Hk.
  - rewrite (level_find k db b); [done|]. unfold find_balance.
    eapply find_by_unique; [apply Hwf|done|by apply has_key_true].
  - destruct (level k db) as [[x y] z]. simpl. rewrite !pair_eq. lia.
Qed.

Lemma update_groups_ok gs db u db' :
  wf_balances (balances db) ->
  (forall g, g ∈ gs -> g_count g = 0 -> g_quantity g = 0)%Z ->
  (forall g, g ∈ gs -> exists b, balances db !! b_id (g_balance g) = Some b /\
     b_key b = b_key (g_balance g)) ->
  for_each gs update_group db = Ok (u, db') ->
  moved_back (fun k => sumZ (group_at k) gs) db db'.
Proof.
  revert db. induction gs as [|g gs IH]; intros db Hwf Hc Hb H.
  { simpl in H. run_inv. by apply moved_back_none. }
  simpl in H. run_inv. assert (Hg : moved_back (fun k => group_at k g) db s).
  { unfold update_group in Hrun. case_bool_decide as Hcount.
    - run_inv. apply moved_back_none; [done|]. intros k. unfold group_at.
      rewrite (Hc g) by set_solver. unfold at_key. by case_decide.
    - apply update_balance_id_ok in Hrun as (b & Hbal & _ & [= _ ->]).
      destruct (Hb g ltac:(set_solver)) as (b' & Hb' & Hk). unfold group_at. rewrite <- Hk.
      assert (b' = b) as -> by congruence. by eapply give_back_moves. }
  eapply (moved_back_trans _ (fun k => sumZ (group_at k) gs)); [exact Hg|].
  destruct Hg as (Hwf' & Hb' & _). apply IH; [done|set_solver| |done].
  intros g' Hg'. destruct (Hb g' ltac:(set_solver)) as (b & H1 & H2).
  destruct (Hb' _ _ H1) as (b' & H3 & H4). exists b'. split; [done|congruence].
Qed.

(** * The reservations that expire *)

Lemma tsum_update_many (P : StockReservation -> bool) (h : StockReservation -> StockReservation) f t :
  tsum f (update_many P h t) = tsum (fun r => if P r then f (h r) else f r) t.
Proof. unfold update_many. rewrite tsum_fmap. apply tsum_ext. intros k r _. by destruct (P r). Qed.

Lemma tsum_split (P : StockReservation -> bool) f t :
  (tsum (fun r => if P r then 0 else f r) t = tsum f t - tsum (fun r => if P r then f r else 0) t)%Z.
Proof.
  induction t as [|k r t Hk IH] using map_ind; [done|]. rewrite !tsum_insert_new by done.
  destruct (P r); lia.
Qed.

Lemma asteps_drops (ids : list string) s s' :
  NoDup ids -> (forall id, id ∈ ids -> is_Some (holds s !! id)) ->
  (forall k, onHand s' k = onHand s k) ->
  (forall id, holds s' !! id = if decide (id ∈ ids) then None else holds s !! id) ->
  asteps (EDrop <$> ids) s s'.
Proof.
  revert s. induction ids as [|id ids IH]; intros s Hnd Hh Hon Hs'.
  - split; [done|]. apply map_eq. intros id. rewrite Hs'. by rewrite decide_False by apply not_elem_of_nil.
  - apply NoDup_cons in Hnd as [Hid Hnd]. exists (mkStock (onHand s) (delete id (holds s))).
    split; [split; [apply Hh; set_solver|done]|]. apply IH; [done| |done|].
    + intros i Hi. simpl. rewrite lookup_delete_ne by set_solver. apply Hh. set_solver.
    + intros i. rewrite Hs'. simpl. destruct (decide (i = id)) as [->|Hne].
      * rewrite decide_True by set_solver. rewrite decide_False by done. by rewrite lookup_delete_eq.
      * rewrite lookup_delete_ne by done. do 2 case_decide; set_solver.
Qed.

Section expiry.
Context (P : StockReservation -> bool) (db db1 db' : InvDb).
Hypotheses (Hinv : inv db) (HP : forall r, P r = true -> r_status r = ACTIVE)
  (Hmove : moved_back (fun k => sumZ (row_at k) (find_many P (reservations db))) db db1)
  (Hb : balances db' = balances db1) (Hm : movements db' = movements db1)
  (Hr : reservations db' = update_many P (set_status EXPIRED) (reservations db1))
  (Ha : audits db `prefix_of` audits db').

Lemma expiry_held k :
  held_at k db' = (held_at k db - sumZ (row_at k) (find_many P (reservations db)))%Z.
Proof using Hmove Hr HP.
  destruct Hmove as (_ & _ & _ & Hres & _). unfold held_at.
  rewrite Hr, Hres, tsum_update_many, sumZ_find_many.
  rewrite (tsum_ext _ (fun r => if P r then 0 else held k r)%Z), tsum_split.
  - f_equal. apply tsum_ext. intros id r _. destruct (P r) eqn:E; [|done].
    unfold held, row_at, at_key. rewrite (HP _ E). simpl.
    case_bool_decide; case_decide; congruence.
  - intros id r _. by destruct (P r).
Qed.

Lemma expiry_refines : refines (EDrop <$> (r_id <$> find_many P (reservations db))) db db'.
Proof using All.
  pose proof Hinv as [(Hbid & Hrid & _) Hl]. pose proof expiry_held as Hheld.
  destruct Hmove as (Hwf & Hbal & Hlev & Hres & Hmov & _).
  assert (Hwf' : wf_tables db').
  { rewrite <- Hb in Hwf. destruct Hwf as [H1 H2]. split; [done|]. split; [|done].
    intros id r. rewrite Hr, Hres, lookup_update_many, fmap_Some. intros (x & Hx & ->).
    apply Hrid in Hx. by destruct (P x). }
  split_and!.
  - split; [done|]. intros k. rewrite Hheld, (level_frame db1 db'), Hlev by done.
    rewrite (moved_at_frame db db') by congruence. destruct (Hl k) as [-> Hle]. simpl.
    pose proof (held_at_nonneg k db' Hwf') as Hnn. rewrite Hheld in Hnn.
    assert (0 <= sumZ (row_at k) (find_many P (reservations db)))%Z.
    { apply sumZ_nonneg. intros r [[id H] _]%elem_of_find_many. apply Hrid in H as [_ H].
      unfold row_at, at_key. case_decide; lia. }
    rewrite !pair_eq. lia.
  - split; [|split; [by rewrite Hb|split; [|done]]].
    + intros id r H. rewrite Hr, Hres, lookup_update_many, H. simpl. eexists. split; [done|].
      destruct (P r) eqn:E; [|apply reservation_evolves_refl]. split; [done|].
      intros Hs. by apply HP in E.
    + by rewrite Hm, Hmov.
  - apply asteps_drops.
    + apply NoDup_find_many. intros id r H. by apply Hrid in H as [-> _].
    + intros id (r & -> & Hin)%list_elem_of_fmap. apply elem_of_find_many in Hin as [[i Hi] E].
      assert (r_id r = i) as -> by (by apply Hrid in Hi as [-> _]). erewrite abs_hold; [done|done|by apply HP].
    + intros k. cbn [abs onHand]. by rewrite (level_frame db1 db'), Hlev by done.
    + intros id. cbn [abs holds]. rewrite !lookup_omap, Hr, Hres, lookup_update_many.
      assert (Hiff : forall r, reservations db !! id = Some r ->
        id ∈ r_id <$> find_many P (reservations db) <-> P r = true).
      { intros r H. rewrite list_elem_of_fmap. split.
        - intros (x & Hx & [[i Hi] E]%elem_of_find_many). apply Hrid in Hi as Hi'.
          destruct Hi' as [Hi' _]. congruence.
        - intros E. exists r. apply Hrid in H as Hid. split; [by destruct Hid as [-> _]|].
          apply elem_of_find_many. eauto. }
      destruct (reservations db !! id) as [r|] eqn:E; simpl.
      * specialize (Hiff r eq_refl). destruct (P r) eqn:EP.
        -- rewrite decide_True by tauto. done.
        -- rewrite decide_False by (rewrite Hiff; done). done.
      * by case_decide.
Qed.
End expiry.

(** * The transaction *)

Lemma initial_groups_ok (P : InventoryBalance -> bool) db :
  wf_balances (balances db) ->
  groups_ok ((fun b => mkGroup b 0 0) <$> find_many P (balances db)).
Proof.
  intros [Hid Hu]. split.
  - rewrite <- list_fmap_compose.
    assert (Hnd : NoDup (b_id <$> find_many P (balances db))) by (apply NoDup_find_many; eauto).
    assert (Hall : forall b, b ∈ find_many P (balances db) -> balances db !! b_id b = Some b).
    { intros b [[id H] _]%elem_of_find_many. by rewrite (Hid _ _ H). }
    induction (find_many P (balances db)) as [|b l IH]; [constructor|].
    rewrite fmap_cons in *. apply NoDup_cons in Hnd as [Hb Hnd]. apply NoDup_cons.
    split; [|apply IH; [done|set_solver]].
    intros (b' & Heq & Hb')%list_elem_of_fmap. unfold compose, group_key in Heq.
    simpl in Heq. apply expiryBalanceKey_inj in Heq. apply Hb.
    rewrite (Hu (b_key b) (b_id b) (b_id b') b b').
    + by apply list_elem_of_fmap_2.
    + apply Hall. set_solver.
    + apply Hall. set_solver.
    + by apply has_key_true.
    + apply has_key_true. congruence.
  - intros g (b & -> & _)%list_elem_of_fmap. simpl. lia.
Qed.

Lemma initial_sum (bs : list InventoryBalance) k :
  sumZ (group_at k) ((fun b => mkGroup b 0 0) <$> bs) = 0%Z.
Proof.
  induction bs as [|b bs IH]; [done|]. rewrite fmap_cons, sumZ_cons, IH. unfold group_at, at_key.
  simpl. by case_decide.
Qed.

(** Planning and applying the grouped updates moves each expired row's quantity. *)
Lemma plan_moves rows (P : InventoryBalance -> bool) ctx db plan u db1 :
  wf_balances (balances db) ->
  planReservationExpiry rows (find_many P (balances db)) ctx = Ok plan ->
  for_each (fst plan) update_group db = Ok (u, db1) ->
  moved_back (fun k => sumZ (row_at k) rows) db db1.
Proof.
  intros Hwf Hplan Hrun. destruct plan as [gs evs].
  apply plan_rows_ok in Hplan as ([_ Hc] & Hbal & Hsum); [|by apply initial_groups_ok].
  assert (Hsum' : forall k, sumZ (group_at k) gs = sumZ (row_at k) rows)
    by (intros k; rewrite Hsum, initial_sum; lia).
  apply update_groups_ok in Hrun as (W & B & L & R); [|done| |].
  - split; [done|]. split; [done|]. split; [|done]. intros k. rewrite L. by rewrite Hsum'.
  - intros g Hg. by apply Hc.
  - intros g Hg. exists (g_balance g). split; [|done].
    apply (list_elem_of_fmap_2 g_balance) in Hg. simpl in Hg. rewrite Hbal, <- list_fmap_compose in Hg.
    apply list_elem_of_fmap in Hg as (b & -> & Hb). apply elem_of_find_many in Hb as [[id H] _].
    simpl. destruct Hwf as [Hid _]. by rewrite (Hid _ _ H).
Qed.

Definition expiring (candidates : list StockReservation) (now : Z) (r : StockReservation) : bool :=
  bool_decide (r_id r ∈ r_id <$> candidates) && due now r.

(** The rows re-read by identifier are the candidates that are still due. *)
Lemma expiring_current candidates now db id r :
  inv db -> reservations db !! id = Some r ->
  bool_decide (r_id r ∈ r_id <$> js_sort by_expiry
    (find_many (expiring candidates now) (reservations db))) && due now r = expiring candidates now r.
Proof.
  intros Hinv Hr. destruct (due now r) eqn:Hdue; [|unfold expiring; by rewrite Hdue, !andb_false_r].
  rewrite andb_true_r. destruct (expiring candidates now r) eqn:E.
  - apply bool_decide_eq_true, list_elem_of_fmap_2, elem_of_js_sort, elem_of_find_many. eauto.
  - apply bool_decide_eq_false. intros (x & Hx & Hin)%list_elem_of_fmap.
    apply elem_of_js_sort, elem_of_find_many in Hin as [[i Hi] Ex].
    apply (active_row db) in Hr as Hrid, Hi as Hxid; [|done..].
    destruct Hrid as [Hrid _], Hxid as [Hxid _]. congruence.
Qed.

Lemma expire_tx_refines ctx now candidates db n db' :
  inv db -> expire_tx ctx now candidates db = Ok (n, db') ->
  let rows := find_many (expiring candidates now) (reservations db) in
  n = Z.of_nat (length rows) /\
  refines (EDrop <$> (r_id <$> rows)) db db' /\
  (forall id, reservations db' !! id =
     (fun r => if expiring candidates now r then set_status EXPIRED r else r) <$> reservations db !! id) /\
  (exists ks, expiryBalanceKey <$> ks = orderedKeys candidates /\
     locks db' = locks db ++ (lock_of <$> ks)).
Proof.
  intros Hinv H rows. unfold expire_tx in H. run_inv.
  apply lock_keys_ok in Hrun as (ks & Hks & ->); [|apply expiry_keys_lookup].
  change (find_many _ (reservations (set_locks _ db))) with rows in H.
  case_bool_decide as Hcur.
  - run_inv. assert (Hrows : rows = []).
    { apply Permutation_nil. symmetry. rewrite <- (js_sort_Permutation by_expiry). by rewrite Hcur. }
    rewrite Hrows. split; [done|]. split; [by apply same_stock_refines|]. split; [|by exists ks].
    intros id. simpl. destruct (reservations db !! id) as [r|] eqn:E; [|done]. simpl.
    destruct (expiring candidates now r) eqn:EP; [|done]. exfalso.
    assert (Hin : r ∈ rows) by (apply elem_of_find_many; eauto). rewrite Hrows in Hin. set_solver.
  - run_inv. apply for_each_reads in Hrun; [subst s|by intros; run_inv].
    eapply plan_moves in Hrun2 as Hmove; [|apply (wf_tables_balances db), Hinv|exact Hres].
    apply negb_false_iff in Hguard. apply recordMany_ok in Hrun6. injection Hrun6 as -> ->.
    assert (Hlen : length (js_sort by_expiry rows) = length rows) by (by rewrite js_sort_Permutation).
    assert (Hres2 : reservations s2 = reservations db) by (by destruct Hmove as (_ & _ & _ & -> & _)).
    assert (Hupd : update_many (fun r => bool_decide (r_id r ∈ r_id <$> js_sort by_expiry rows) && due now r)
        (set_status EXPIRED) (reservations s2) =
      update_many (expiring candidates now) (set_status EXPIRED) (reservations db)).
    { rewrite Hres2. apply map_eq. intros id. rewrite !lookup_update_many.
      destruct (reservations db !! id) as [r|] eqn:E; [|done]. simpl. f_equal.
      enough (bool_decide (r_id r ∈ r_id <$> js_sort by_expiry rows) && due now r =
              expiring candidates now r) as -> by done.
      by eapply expiring_current. }
    split; [by rewrite Hlen|]. split; [|split].
    + apply (refines_frame_l _ db (set_locks (locks db ++ (lock_of <$> ks)) db)); [done..|].
      intros Hinv'. change rows with (find_many (expiring candidates now)
        (reservations (set_locks (locks db ++ (lock_of <$> ks)) db))).
      apply (expiry_refines (expiring candidates now) _ s2); try done.
      * intros r [_ [Hs _]%andb_true_iff]%andb_true_iff. by apply bool_decide_eq_true in Hs.
      * destruct Hmove as (W & B & L & R & M & A & K). split; [done|]. split; [done|].
        split; [|split_and!; done].
        intros k. rewrite L, (sumZ_Permutation _ _ rows); [done|]. apply js_sort_Permutation.
      * rewrite Hres2 at 2. exact Hupd.
      * destruct Hmove as (_ & _ & _ & _ & _ & Ha & _). simpl in Ha. simpl. rewrite Ha. by eexists.
    + intros id. simpl. rewrite Hupd, lookup_update_many. done.
    + exists ks. split; [done|]. simpl. by destruct Hmove as (_ & _ & _ & _ & _ & _ & ->).
Qed.
