(* ===== verification/InventoryTransfer.v ===== *)
(** Stock transfers of
    [src/apps/api/src/modules/inventory/inventory.service.ts]: creation, the
    request / approve / dispatch / receive / cancel transitions with their replays, and
    the batch of balance and movement writes of a dispatch or receipt. *)

From S2P Require Import Prelude Table Json AuditTrail Retry InventoryModel Inventory.

(** * Commands *)

Record TransferItemCommand := mkItemCommand {
  ti_variantId : string;
  ti_quantity : number;
  ti_sourceLocationId : option string;
  ti_targetLocationId : option string
}.
Record CreateTransferCommand := mkCreateTransfer {
  ct_context : ActorContext;
  ct_code : option string;
  ct_sourceWarehouseId : string;
  ct_targetWarehouseId : string;
  ct_items : list TransferItemCommand;
  ct_idempotencyKey : option string
}.
Record TransferContext := mkTransferContext {
  tc_context : ActorContext;
  tc_expectedVersion : option Z;
  tc_idempotencyKey : option string
}.

Definition MAX_TRANSFER_ITEMS : Z := 100.

Definition transferNotFound : exn := notFound "TRANSFER_NOT_FOUND" "Transfer not found.".

Definition action_name (a : TransferAction) : string :=
  match a with
  | request => "request" | approve => "approve" | dispatch => "dispatch" | receive => "receive"
  | cancel => "cancel"
  end.
Definition transfer_status_name (s : TransferStatus) : string :=
  match s with
  | T_DRAFT => "DRAFT" | T_REQUESTED => "REQUESTED" | T_APPROVED => "APPROVED"
  | T_IN_TRANSIT => "IN_TRANSIT" | T_RECEIVED => "RECEIVED" | T_CANCELLED => "CANCELLED"
  end.

(** * Guards *)

(** The checks of [createTransfer] before its transaction. *)
Definition transfer_precheck (c : CreateTransferCommand) : result unit :=
  assertTracked (ct_context c) ;;
  if bool_decide (ct_items c = []) then
    Err (HttpException BadRequestException (Some "TRANSFER_NO_ITEMS")
           "A transfer requires at least one item.")
  else if (MAX_TRANSFER_ITEMS <? Z.of_nat (length (ct_items c)))%Z then
    Err (invalidRequest "A transfer cannot contain more than 100 items.")
  else if existsb (fun i => negb (isInteger (ti_quantity i)) || (int_val (ti_quantity i) <=? 0)%Z) (ct_items c)
  then Err (invalidRequest "Transfer item quantity must be greater than zero.")
  else Ok tt.

Definition assertWarehousePair (source target : string) : M InvDb unit :=
  throw_if (bool_decide (source = target))
    (badRequest "Source and target warehouses must be different.") ;;
  s ← gets (fun db => warehouses db !! source);
  t ← gets (fun db => warehouses db !! target);
  throw_if (negb (bool_decide (is_Some s))) (notFound "WAREHOUSE_NOT_FOUND" "Source warehouse not found.") ;;
  throw_if (negb (bool_decide (is_Some t))) (notFound "WAREHOUSE_NOT_FOUND" "Target warehouse not found.").

Definition assertVariants (variantIds : list string) : M InvDb unit :=
  let uniqueIds := unique variantIds in
  found ← gets (fun db => List.filter (fun id => bool_decide (is_Some (variants db !! id))) uniqueIds);
  throw_if (negb (bool_decide (length found = length uniqueIds)))
    (notFound "SKU_NOT_FOUND" "One or more SKUs were not found.").

Definition item_matches (item : TransferItem) (input : TransferItemCommand) : bool :=
  bool_decide (i_variantId item = ti_variantId input) &&
  bool_decide (Int (i_quantity item) = ti_quantity input) &&
  bool_decide (i_sourceLocationId item = ti_sourceLocationId input) &&
  bool_decide (i_targetLocationId item = ti_targetLocationId input).

(** [transferMatches(transfer, command)] *)
Definition transferMatches (t : StockTransfer) (c : CreateTransferCommand) : bool :=
  if negb (bool_decide (t_sourceWarehouseId t = ct_sourceWarehouseId c)) ||
     negb (bool_decide (t_targetWarehouseId t = ct_targetWarehouseId c)) ||
     negb (bool_decide (t_code t = default (t_code t) (ct_code c))) ||
     negb (bool_decide (length (t_items t) = length (ct_items c)))
  then false
  else forallb (fun p => item_matches (fst p) (snd p)) (zip (t_items t) (ct_items c)).

(** * Creation *)

(** The generated code: [TRF-] and sixteen upper-case characters of a random UUID. *)
Definition generated_code (uuid : string) : string :=
  "TRF-" +:+ String.string_of_list_ascii (take 16 (String.list_ascii_of_string (compact_uuid uuid))).

Section service.
Context (cuid : nat -> string).

(** The nested [items: { create }]. *)
Fixpoint create_items (inputs : list TransferItemCommand) : M InvDb (list TransferItem) :=
  match inputs with
  | [] => mret []
  | input :: inputs =>
      throw_if (negb (int4 (int_val (ti_quantity input)))) P2020 ;;
      let known o := match o with Some l => fun db => bool_decide (is_Some (locations db !! l)) | None => fun _ => true end in
      sourceKnown ← gets (known (ti_sourceLocationId input));
      targetKnown ← gets (known (ti_targetLocationId input));
      throw_if (negb (sourceKnown && targetKnown)) P2003 ;;
      id ← fresh_id cuid;
      rest ← create_items inputs;
      mret (mkItem id (ti_variantId input) (int_val (ti_quantity input)) (ti_sourceLocationId input)
              (ti_targetLocationId input) :: rest)
  end.

(** [stockTransfer.create] with the default status and version. *)
Definition create_transfer (code source target : string) (idempotencyKey : option string)
    (inputs : list TransferItemCommand) : M InvDb StockTransfer :=
  id ← fresh_id cuid;
  taken ← gets (fun db => transfers db !! id);
  dup ← gets (fun db => find_by (fun t => bool_decide (t_code t = code) ||
           bool_decide (is_Some idempotencyKey) && bool_decide (t_idempotencyKey t = idempotencyKey))
           (transfers db));
  throw_if (bool_decide (is_Some taken) || bool_decide (is_Some dup)) P2002 ;;
  items ← create_items inputs;
  now ← gets clock;
  let t := mkTransfer id code source target T_DRAFT 0 idempotencyKey items now in
  modify (fun db => set_transfers (<[id := t]> (transfers db)) db) ;;
  mret t.

(** The transaction of [createTransfer]; [uuid] is what [randomUUID()] returns. *)
Definition createTransfer_tx (uuid : string) (c : CreateTransferCommand) : M InvDb StockTransfer :=
  existing ← gets (fun db =>
    if truthy_opt (ct_idempotencyKey c)
    then find_by (fun t => bool_decide (t_idempotencyKey t = ct_idempotencyKey c)) (transfers db)
    else None);
  match existing with
  | Some t =>
      if transferMatches t c then mret t
      else mthrow (idempotencyConflict (default EmptyString (ct_idempotencyKey c)))
  | None =>
      assertWarehousePair (ct_sourceWarehouseId c) (ct_targetWarehouseId c) ;;
      assertVariants (ti_variantId <$> ct_items c) ;;
      let code := str_or (default EmptyString (trim <$> ct_code c)) (generated_code uuid) in
      transfer ← create_transfer code (ct_sourceWarehouseId c) (ct_targetWarehouseId c)
                   (ct_idempotencyKey c) (ct_items c);
      record (mkAuditEvent "inventory.transfer.created" "stock-transfer" (Some (t_id transfer)) None
        (Some (JObj [("code", JStr code);
                     ("sourceWarehouseId", JStr (t_sourceWarehouseId transfer));
                     ("targetWarehouseId", JStr (t_targetWarehouseId transfer))]))
        (Some (JObj [("itemCount", JNum (Z.of_nat (length (ct_items c))))]))
        (ac_actorId (ct_context c)) (ac_requestId (ct_context c))) ;;
      mret transfer
  end.

(** [createTransfer(command)] *)
Definition createTransfer (E : env InvDb) (uuid : string) (c : CreateTransferCommand) (db : InvDb)
    : result StockTransfer * InvDb :=
  match transfer_precheck c with
  | Err e => (Err e, db)
  | Ok _ => inventory_withSerializableRetry E (begin_tx (createTransfer_tx uuid c)) db
  end.

(** * Movements of a dispatch or receipt *)

Inductive direction := out | in_.
#[export] Instance direction_eq_dec : EqDecision direction.
Proof. solve_decision. Defined.

Definition item_location (d : direction) (item : TransferItem) : option string :=
  match d with out => i_sourceLocationId item | in_ => i_targetLocationId item end.
Definition transfer_warehouse (d : direction) (t : StockTransfer) : string :=
  match d with out => t_sourceWarehouseId t | in_ => t_targetWarehouseId t end.
Definition location_required (d : direction) : exn :=
  conflictCode "TRANSFER_ITEM_LOCATION_REQUIRED"
    (match d with out => "Source" | in_ => "Target" end
       +:+ " location is required for transfer movements.").

(** [stockKeys]: the stock key of every item. *)
Fixpoint stock_keys (d : direction) (warehouse : string) (items : list TransferItem) : result (list StockKey) :=
  match items with
  | [] => Ok []
  | item :: items =>
      if negb (truthy_opt (item_location d item)) then Err (location_required d)
      else
        rest ← stock_keys d warehouse items;
        Ok (mkKey warehouse (default EmptyString (item_location d item)) (i_variantId item) :: rest)
  end.

(** An entry of [projected].  Its Map is keyed by the location and variant ids around
    U+0000, which no text column holds, so the key is the stock key itself. *)
Record Projected := mkProjected { p_key : StockKey; p_onHand : Z; p_reserved : Z }.

Definition projectedKey (k : StockKey) : string :=
  locationId k +:+ String.String Ascii.zero (variantId k).

Definition delta_of (d : direction) (item : TransferItem) : Z :=
  match d with out => - i_quantity item | in_ => i_quantity item end.

(** A row of the [createMany] of movements. *)
Record MovementInput := mkMovementInput {
  mi_key : StockKey;
  mi_quantity : Z;
  mi_beforeOnHand : Z;
  mi_afterOnHand : Z
}.

Definition set_projected (k : StockKey) (onHand : Z) (ps : list Projected) : list Projected :=
  (fun p => if bool_decide (p_key p = k) then mkProjected k onHand (p_reserved p) else p) <$> ps.

(** [items.map] over the projected balances. *)
Fixpoint project_movements (ps : list Projected) (moves : list (StockKey * Z))
    : result (list Projected * list MovementInput) :=
  match moves with
  | [] => Ok (ps, [])
  | (k, delta) :: moves =>
      match List.find (fun p => bool_decide (p_key p = k)) ps with
      | None => Err (JsError "Error"
          ("Projected inventory balance '" +:+ projectedKey k +:+ "' was not initialized."))
      | Some balance =>
          let beforeOnHand := p_onHand balance in
          let afterOnHand := (beforeOnHand + delta)%Z in
          let available := (afterOnHand - p_reserved balance)%Z in
          if (afterOnHand <? 0)%Z || (available <? 0)%Z then
            Err (insufficientStock "Insufficient stock for this operation.")
          else
            rest ← project_movements (set_projected k afterOnHand ps) moves;
            Ok (fst rest, mkMovementInput k delta beforeOnHand afterOnHand :: snd rest)
      end
  end.

(** [applyTransferMovements(tx, transfer, items, direction)] *)
Definition applyTransferMovements (t : StockTransfer) (d : direction) : M InvDb unit :=
  let warehouse := transfer_warehouse d t in
  keys ← lift_result (stock_keys d warehouse (t_items t));
  let locationIds := unique (locationId <$> keys) in
  found ← gets (fun db => find_many (fun l => bool_decide (l_id l ∈ locationIds) &&
             bool_decide (l_warehouseId l = warehouse) && l_isActive l) (locations db));
  throw_if (negb (bool_decide (length found = length locationIds)))
    (notFound "LOCATION_NOT_FOUND" "One or more active warehouse locations were not found.") ;;
  let uniqueKeys := unique keys in
  projected ← gets (fun db => (fun k =>
    let balance := find_by (fun b => bool_decide (b_key b ∈ uniqueKeys) && has_key k b) (balances db) in
    mkProjected k (from_option b_onHand 0%Z balance) (from_option b_reserved 0%Z balance)) <$> uniqueKeys);
  plan ← lift_result (project_movements projected (zip keys (delta_of d <$> t_items t)));
  for_each (fst plan) (fun p =>
    let available := (p_onHand p - p_reserved p)%Z in
    upsert_balance cuid (p_key p) (p_onHand p) (p_reserved p) available
      (fun b => mkBalance (b_id b) (b_key b) (p_onHand p) (b_reserved b) available (b_version b + 1))) ;;
  for_each (snd plan) (fun m =>
    create_movement cuid (mi_key m) (match d with out => TRANSFER_OUT | in_ => TRANSFER_IN end)
      (mi_quantity m) (mi_beforeOnHand m) (mi_afterOnHand m) (Some "stock-transfer") (Some (t_code t))
      (Some (match d with out => "Transfer dispatch" | in_ => "Transfer receive" end)) None ;;
    mret tt).

(** * Transitions *)

Definition nextTransferStatus (a : TransferAction) : TransferStatus :=
  match a with
  | request => T_REQUESTED
  | approve => T_APPROVED
  | dispatch => T_IN_TRANSIT
  | receive => T_RECEIVED
  | cancel => T_CANCELLED
  end.

(** The sources of [requestTransfer], [approveTransfer], [dispatchTransfer],
    [receiveTransfer] and [cancelTransfer]. *)
Definition allowedFrom (a : TransferAction) : list TransferStatus :=
  match a with
  | request => [T_DRAFT]
  | approve => [T_REQUESTED]
  | dispatch => [T_APPROVED]
  | receive => [T_IN_TRANSIT]
  | cancel => [T_DRAFT; T_REQUESTED; T_APPROVED]
  end.

Definition set_transfer_status (s : TransferStatus) (t : StockTransfer) : StockTransfer :=
  mkTransfer (t_id t) (t_code t) (t_sourceWarehouseId t) (t_targetWarehouseId t) s (t_version t + 1)
    (t_idempotencyKey t) (t_items t) (t_createdAt t).

(** [stockTransfer.update({ where: { id }, data: { status, version: { increment: 1 } } })] *)
Definition update_transfer_status (id : string) (s : TransferStatus) : M InvDb StockTransfer :=
  row ← gets (fun db => transfers db !! id);
  t ← unwrap row P2025;
  let t' := set_transfer_status s t in
  throw_if (negb (int4 (t_version t'))) P2020 ;;
  modify (fun db => set_transfers (<[id := t']> (transfers db)) db) ;;
  mret t'.

(** [stockTransferTransition.create] *)
Definition create_transition (transferId : string) (a : TransferAction) (key : string)
    (expectedVersion : option Z) : M InvDb unit :=
  id ← fresh_id cuid;
  taken ← gets (fun db => transferTransitions db !! id);
  dup ← gets (fun db => find_by (fun t => bool_decide (tt_idempotencyKey t = key)) (transferTransitions db));
  throw_if (bool_decide (is_Some taken) || bool_decide (is_Some dup)) P2002 ;;
  modify (fun db => set_transferTransitions
    (<[id := mkTransition id transferId a key expectedVersion]> (transferTransitions db)) db).

Definition missing_location (d : direction) (variant : string) : exn :=
  conflictCode "TRANSFER_ITEM_LOCATION_REQUIRED"
    (match d with
     | out => "Dispatch requires a source location for item '"
     | in_ => "Receive requires a target location for item '"
     end +:+ variant +:+ "'.").

(** The stock part of a transition. *)
Definition move_stock (t : StockTransfer) (d : direction) : M InvDb unit :=
  match List.find (fun item => negb (truthy_opt (item_location d item))) (t_items t) with
  | Some missing => mthrow (missing_location d (i_variantId missing))
  | None => applyTransferMovements t d
  end.

Definition audit_action (a : TransferAction) : string :=
  match a with
  | receive => "inventory.transfer.received"
  | approve => "inventory.transfer.approved"
  | _ => "inventory.transfer." +:+ action_name a +:+ "ed"
  end.

(** The transaction of [transitionTransfer]. *)
Definition transitionTransfer_tx (a : TransferAction) (id : string) (ctx : TransferContext)
    : M InvDb StockTransfer :=
  row ← gets (fun db => transfers db !! id);
  transfer ← unwrap row transferNotFound;
  replay ← gets (fun db => 
    if truthy_opt (tc_idempotencyKey ctx)
    then find_by (fun t => bool_decide (Some (tt_idempotencyKey t) = tc_idempotencyKey ctx)) (transferTransitions db)
    else None);
  match replay with
  | Some r =>
      if negb (bool_decide (tt_transferId r = id)) || negb (bool_decide (tt_action r = a)) ||
         negb (bool_decide (tt_expectedVersion r = tc_expectedVersion ctx))
      then mthrow (conflictCode "IDEMPOTENCY_CONFLICT"
                     "Idempotency key was already used for a different transfer transition.")
      else mret transfer
  | None =>
      throw_if (negb (bool_decide (t_status transfer ∈ allowedFrom a)))
        (conflictCode "TRANSFER_STATE_CONFLICT"
          ("Transfer cannot be " +:+ action_name a +:+ "ed from status '" +:+
           transfer_status_name (t_status transfer) +:+ "'.")) ;;
      throw_if (match tc_expectedVersion ctx with
                | Some v => negb (bool_decide (v = t_version transfer))
                | None => false
                end)
        (conflictCode "TRANSFER_VERSION_CONFLICT" "Transfer version conflict. Refresh and retry.") ;;
      match a with
      | dispatch => move_stock transfer out
      | receive => move_stock transfer in_
      | _ => mret tt
      end ;;
      updated ← update_transfer_status id (nextTransferStatus a);
      match tc_idempotencyKey ctx with
      | Some key =>
          if truthy key then create_transition id a key (tc_expectedVersion ctx) else mret tt
      | None => mret tt
      end ;;
      record (mkAuditEvent (audit_action a) "stock-transfer" (Some (t_id transfer))
        (Some (JObj [("status", JStr (transfer_status_name (t_status transfer)))]))
        (Some (JObj [("status", JStr (transfer_status_name (t_status updated)))]))
        (Some (JObj [("code", JStr (t_code transfer))]))
        (ac_actorId (tc_context ctx)) (ac_requestId (tc_context ctx))) ;;
      mret updated
  end.

(** [transitionTransfer(action, id, context, allowedFrom)] *)
Definition transitionTransfer (E : env InvDb) (a : TransferAction) (id : string) (ctx : TransferContext)
    (db : InvDb) : result StockTransfer * InvDb :=
  match assertTracked (tc_context ctx) with
  | Err e => (Err e, db)
  | Ok _ => inventory_withSerializableRetry E (begin_tx (transitionTransfer_tx a id ctx)) db
  end.

Definition requestTransfer E id ctx db := transitionTransfer E request id ctx db.
Definition approveTransfer E id ctx db := transitionTransfer E approve id ctx db.
Definition dispatchTransfer E id ctx db := transitionTransfer E dispatch id ctx db.
Definition receiveTransfer E id ctx db := transitionTransfer E receive id ctx db.
Definition cancelTransfer E id ctx db := transitionTransfer E cancel id ctx db.
End service.
