(* ===== verification/TransferProofs.v ===== *)
(** Transfers on the abstract stock machine: the batch of a dispatch or receipt is one
    stock change per item, in order, and the lemmas on which the inventory system and
    the conservation property build. *)

From S2P Require Import Prelude Table Json AuditTrail Retry InventoryModel Inventory.
From S2P Require Import InventoryLedger InventoryProofs InventoryTransfer.

(** * Changes one after another *)

Definition bump (s : Stock) (m : StockKey * Z) : Stock :=
  mkStock (fun k => onHand s k + at_key (fst m) k (snd m))%Z (holds s).
Definition bump_all (s : Stock) (ms : list (StockKey * Z)) : Stock := foldl bump s ms.
Definition change_event (m : StockKey * Z) : event := EChange (fst m) (snd m).
Definition change_at (k : StockKey) (m : StockKey * Z) : Z := at_key (fst m) k (snd m).

Lemma bump_all_onHand s ms k : onHand (bump_all s ms) k = (onHand s k + sumZ (change_at k) ms)%Z.
Proof.
  revert s. induction ms as [|m ms IH]; intros s; simpl; [lia|]. unfold bump_all in IH. rewrite IH.
  simpl. unfold change_at at 2. lia.
Qed.

Lemma bump_all_holds s ms : holds (bump_all s ms) = holds s.
Proof. revert s. induction ms as [|m ms IH]; intros s; [done|]. apply (IH (bump s m)). Qed.

Lemma changes_free ms s s' :
  asteps (change_event <$> ms) s s' -> (forall k, 0 <= free k s)%Z -> forall k, (0 <= free k s')%Z.
Proof.
  revert s. induction ms as [|[k d] ms IH]; intros s.
  - intros Hs Hf k. simpl in Hs. by rewrite <- Hs.
  - intros (s1 & (_ & H & Hs1) & Hs') Hf. apply (IH s1); [done|]. intros k'. rewrite Hs1.
    specialize (Hf k'). unfold free in *. cbn [onHand holds]. unfold at_key.
    case_decide as Hk; [subst k'|]; simpl in *; lia.
Qed.

Lemma sum_changes_none k ms : (forall m, m ∈ ms -> fst m <> k) -> sumZ (change_at k) ms = 0%Z.
Proof.
  induction ms as [|m ms IH]; intros H; [done|]. rewrite sumZ_cons, IH by set_solver.
  unfold change_at, at_key. rewrite decide_False; [done|]. intros ->. apply (H m); set_solver.
Qed.

(** The projected rows show the stock they were read from. *)
Definition shows (ps : list Projected) (s : Stock) : Prop :=
  forall p, p ∈ ps -> p_onHand p = onHand s (p_key p) /\ p_reserved p = tsum (hold_at (p_key p)) (holds s).

Lemma shows_set k ps s d :
  shows ps s -> shows (set_projected k (onHand s k + d) ps) (bump s (k, d)).
Proof.
  intros Hs p (p0 & -> & Hp)%list_elem_of_fmap. destruct (Hs _ Hp) as [H1 H2]. simpl.
  case_bool_decide as Hk; simpl; unfold at_key.
  - subst k. rewrite decide_True by done. done.
  - rewrite decide_False by done. split; [lia|done].
Qed.

Lemma project_movements_ok ps moves ps' ms s :
  project_movements ps moves = Ok (ps', ms) -> shows ps s ->
  asteps (change_event <$> moves) s (bump_all s moves) /\ shows ps' (bump_all s moves) /\
  p_key <$> ps' = p_key <$> ps /\ ((fun m => (mi_key m, mi_quantity m)) <$> ms) = moves.
Proof.
  revert ps ms s. induction moves as [|[k d] moves IH]; intros ps ms s H Hs; simpl in H.
  { injection H as <- <-. done. }
  destruct (List.find _ ps) as [p|] eqn:Ef; [|done]. apply find_some in Ef as [Hp Hk%bool_decide_eq_true].
  apply list_elem_of_In in Hp. destruct (Hs p Hp) as [Hon Hres].
  destruct (_ || _) eqn:Eg; [done|]. apply orb_false_iff in Eg as [H1%Z.ltb_ge H2%Z.ltb_ge].
  destruct (project_movements _ moves) as [[ps1 ms1]|e] eqn:Er; [|done]. injection H as <- <-.
  rewrite Hon, Hk in Er. apply (IH _ _ (bump s (k, d))) in Er as (Hst & Hsh & Hkeys & Hms);
    [|by apply shows_set].
  split; [|split; [|split]].
  - exists (bump s (k, d)). split; [|done]. split; [|split; [|done]]; simpl.
    + rewrite <- Hk. lia.
    + unfold free. rewrite <- Hk. lia.
  - done.
  - rewrite Hkeys. unfold set_projected. rewrite <- list_fmap_compose. apply list_fmap_ext.
    intros i x _. simpl. case_bool_decide; simpl; congruence.
  - rewrite fmap_cons, Hms. done.
Qed.

(** * The batch writes *)

Section batch.
Context (cuid : nat -> string).

(** Fields no transfer movement touches. *)
Definition same_other (db db' : InvDb) : Prop :=
  reservations db' = reservations db /\ transfers db' = transfers db /\
  transferTransitions db' = transferTransitions db /\ audits db' = audits db.

Lemma same_other_trans db1 db2 db3 : same_other db1 db2 -> same_other db2 db3 -> same_other db1 db3.
Proof. intros (A1 & B1 & C1 & D1) (A2 & B2 & C2 & D2). split_and!; congruence. Qed.

Definition same_keys (db db' : InvDb) : Prop :=
  forall id b, balances db !! id = Some b -> exists b', balances db' !! id = Some b' /\ b_key b' = b_key b.

Definition projected_cols (p : Projected) : Z * Z * Z :=
  (p_onHand p, p_reserved p, (p_onHand p - p_reserved p)%Z).

Definition write_projected (p : Projected) : M InvDb unit :=
  let available := (p_onHand p - p_reserved p)%Z in
  upsert_balance cuid (p_key p) (p_onHand p) (p_reserved p) available
    (fun b => mkBalance (b_id b) (b_key b) (p_onHand p) (b_reserved b) available (b_version b + 1)).

Lemma write_projected_ok ps db u db' :
  wf_balances (balances db) -> NoDup (p_key <$> ps) ->
  (forall p, p ∈ ps -> p_reserved p = (level (p_key p) db).1.2) ->
  for_each ps write_projected db = Ok (u, db') ->
  wf_balances (balances db') /\ same_keys db db' /\ same_other db db' /\ movements db' = movements db /\
  (forall p, p ∈ ps -> level (p_key p) db' = projected_cols p) /\
  (forall k, k ∉ p_key <$> ps -> level k db' = level k db).
Proof.
  revert db. induction ps as [|p ps IH]; intros db Hwf Hnd Hres H; simpl in H.
  { run_inv. split; [done|]. split; [by intros ?; eauto|]. split; [done|]. split; [done|].
    split; [set_solver|done]. }
  run_inv. unfold write_projected in Hrun. apply upsert_slot in Hrun; [|done|by apply Hres; set_solver].
  destruct Hrun as (b & n & Hk & Hslot & Hcols & ->). rewrite fmap_cons in Hnd.
  apply NoDup_cons in Hnd as [Hp Hnd].
  assert (Hlev : forall k, level k (put_balance b (set_nextId n db)) =
    if decide (k = p_key p) then projected_cols p else level k db).
  { intros k. rewrite (level_write b db) by done. rewrite Hk. case_decide; [exact Hcols|done]. }
  apply IH in H as (W & K & O & Mv & L1 & L2); [|by apply wf_balances_write|done|].
  - split; [done|]. split; [|split; [|split; [|split]]].
    + intros id b0 H0. destruct (evolves_balances_write db b id b0 Hwf Hslot H0) as (b1 & H1 & E1).
      destruct (K id b1 H1) as (b2 & H2 & E2). exists b2. split; [done|congruence].
    + by eapply same_other_trans.
    + done.
    + intros q [->|Hq]%elem_of_cons; [|by apply L1]. rewrite L2 by done. rewrite Hlev. by rewrite decide_True.
    + intros k Hkn. rewrite fmap_cons in Hkn. apply not_elem_of_cons in Hkn as [Hne Hkn].
      rewrite L2 by done. rewrite Hlev. by rewrite decide_False.
  - intros q Hq. rewrite Hlev. rewrite decide_False; [apply Hres; set_solver|].
    intros Heq. apply Hp. rewrite <- Heq. by apply list_elem_of_fmap_2.
Qed.

Definition write_movement (type : InventoryMovementType) (code : string) (reason : string)
    (m : MovementInput) : M InvDb unit :=
  create_movement cuid (mi_key m) type (mi_quantity m) (mi_beforeOnHand m) (mi_afterOnHand m)
    (Some "stock-transfer") (Some code) (Some reason) None ;; mret tt.

Lemma write_movements_ok type code reason ms db u db' :
  for_each ms (write_movement type code reason) db = Ok (u, db') ->
  same_other db db' /\ balances db' = balances db /\ movements db ⊆ movements db' /\
  (forall k, moved_at k db' = moved_at k db + sumZ (fun m => at_key (mi_key m) k (mi_quantity m)) ms)%Z.
Proof.
  revert db. induction ms as [|m ms IH]; intros db H; simpl in H.
  { run_inv. split; [done|]. split; [done|]. split; [done|]. intros k. simpl. lia. }
  run_inv. unfold write_movement in Hrun. run_inv.
  match goal with H : create_movement _ _ _ _ _ _ _ _ _ _ _ = _ |- _ =>
    apply create_movement_ok in H as (id & Hid & [= -> ->]) end.
  apply IH in H as (O & B & Mv & L). split; [by eapply same_other_trans|]. split; [done|]. split.
  - etrans; [|exact Mv]. simpl. by apply insert_subseteq.
  - intros k. rewrite L. erewrite moved_at_create; [|exact Hid|reflexivity]. rewrite sumZ_cons. simpl. lia.
Qed.

(** * Dispatch and receipt *)

Lemma stock_keys_ok d w items keys :
  stock_keys d w items = Ok keys ->
  keys = (fun item => mkKey w (default EmptyString (item_location d item)) (i_variantId item)) <$> items.
Proof.
  revert keys. induction items as [|item items IH]; intros keys H; simpl in H; [by injection H as <-|].
  destruct (negb _); [done|]. destruct (stock_keys d w items) as [rest|]; [|done]. injection H as <-.
  rewrite fmap_cons. f_equal. by apply IH.
Qed.

(** The stock changes of a transfer's items. *)
Definition transfer_moves (d : direction) (t : StockTransfer) : list (StockKey * Z) :=
  (fun item => (mkKey (transfer_warehouse d t) (default EmptyString (item_location d item)) (i_variantId item),
                delta_of d item)) <$> t_items t.

Lemma zip_moves d t :
  zip ((fun item => mkKey (transfer_warehouse d t) (default EmptyString (item_location d item))
                      (i_variantId item)) <$> t_items t) (delta_of d <$> t_items t) = transfer_moves d t.
Proof. unfold transfer_moves. induction (t_items t) as [|i l IH]; [done|]. simpl. f_equal. apply IH. Qed.

(** The projected rows as they are read. *)
Definition read_projected (keys : list StockKey) (db : InvDb) : list Projected :=
  (fun k =>
    let balance := find_by (fun b => bool_decide (b_key b ∈ keys) && has_key k b) (balances db) in
    mkProjected k (from_option b_onHand 0%Z balance) (from_option b_reserved 0%Z balance)) <$> keys.

Lemma find_projected (keys : list StockKey) k db :
  wf_balances (balances db) -> k ∈ keys ->
  find_by (fun b => bool_decide (b_key b ∈ keys) && has_key k b) (balances db) = find_balance k db.
Proof.
  intros [_ Hu] Hk. unfold find_balance. destruct (find_by (has_key k) (balances db)) as [b|] eqn:E.
  - apply find_by_Some in E as [[id Hid] Hb]. eapply find_by_unique; [|exact Hid|].
    + intros i1 i2 b1 b2 H1 H2 P1 P2. apply andb_true_iff in P1 as [_ P1], P2 as [_ P2]. by eapply (Hu k).
    + rewrite Hb, andb_true_r. apply bool_decide_eq_true. apply has_key_true in Hb. by subst k.
  - rewrite find_by_None in E. apply find_by_None. intros id b Hid. by rewrite (E _ _ Hid), andb_false_r.
Qed.

Lemma read_projected_ok keys db :
  inv db -> (forall p, p ∈ read_projected keys db -> p_reserved p = (level (p_key p) db).1.2) /\
  p_key <$> read_projected keys db = keys /\ shows (read_projected keys db) (abs db).
Proof.
  intros Hinv. pose proof Hinv as [Hwf _]. apply wf_tables_balances in Hwf.
  assert (Hall : forall p, p ∈ read_projected keys db ->
    p_onHand p = (level (p_key p) db).1.1 /\ p_reserved p = (level (p_key p) db).1.2).
  { intros p (k & -> & Hk)%list_elem_of_fmap. simpl. rewrite find_projected by done.
    by rewrite (level_row k db Hinv). }
  split; [intros p Hp; by apply Hall|]. split.
  - unfold read_projected. rewrite <- list_fmap_compose. apply list_fmap_id.
  - intros p Hp. destruct (Hall p Hp) as [H1 H2]. destruct (abs_level db (p_key p) Hinv) as [Hl _].
    rewrite H1, H2, Hl. done.
Qed.

Lemma applyTransferMovements_refines t d db u db' :
  inv db -> applyTransferMovements cuid t d db = Ok (u, db') ->
  refines (change_event <$> transfer_moves d t) db db' /\ same_other db db'.
Proof.
  intros Hinv H. unfold applyTransferMovements in H. run_inv.
  apply stock_keys_ok in Hres0. subst v0. rewrite zip_moves in Hres.
  set (keys := (fun item => mkKey _ _ _) <$> t_items t) in *.
  destruct (read_projected_ok (unique keys) db Hinv) as (Hrs & Hkeys & Hshow). destruct v as [ps ms].
  change ((fun k => _) <$> unique keys) with (read_projected (unique keys) db) in Hres.
  apply (project_movements_ok _ _ _ _ (abs db)) in Hres as (Hsteps & Hshow' & Hkeys' & Hms); [|done].
  assert (Hlev : forall p, p ∈ ps -> p_reserved p = (level (p_key p) db).1.2 /\
    p_onHand p = ((level (p_key p) db).1.1 + sumZ (change_at (p_key p)) (transfer_moves d t))%Z).
  { intros p Hp. destruct (Hshow' p Hp) as [H1 H2]. rewrite bump_all_holds in H2.
    rewrite bump_all_onHand in H1. destruct (abs_level db (p_key p) Hinv) as [Hl _].
    rewrite H2, H1, Hl. done. }
  apply write_projected_ok in Hrun4 as (W & K & O & Mv & L1 & L2);
    [|apply wf_tables_balances, Hinv|cbn [fst]; rewrite Hkeys', Hkeys; apply NoDup_unique
     |by intros p Hp; apply Hlev].
  apply write_movements_ok in H as (O' & B' & Mv' & L'). cbn [fst snd] in *.
  pose proof (same_other_trans _ _ _ O O') as (Or & Ot & Ott & Oa).
  assert (Hfree : forall k, (0 <= free k (bump_all (abs db) (transfer_moves d t)))%Z).
  { eapply changes_free; [exact Hsteps|]. intros k. by destruct (abs_level db k Hinv). }
  assert (Hsum : forall k, sumZ (fun m => at_key (mi_key m) k (mi_quantity m)) ms =
    sumZ (change_at k) (transfer_moves d t)).
  { intros k. rewrite <- Hms, sumZ_fmap. done. }
  assert (Hl : forall k, level k db' = ((level k db).1.1 + sumZ (change_at k) (transfer_moves d t),
    (level k db).1.2, (level k db).1.1 + sumZ (change_at k) (transfer_moves d t) - (level k db).1.2)%Z).
  { intros k. rewrite (level_frame s4) by done. destruct (decide (k ∈ p_key <$> ps)) as [Hk|Hk].
    - apply list_elem_of_fmap in Hk as (p & -> & Hp). rewrite L1 by done. unfold projected_cols.
      by destruct (Hlev p Hp) as [-> ->].
    - rewrite L2 by done. rewrite (level_row k db Hinv). simpl.
      assert (sumZ (change_at k) (transfer_moves d t) = 0)%Z as ->.
      { apply sum_changes_none. intros m Hm <-.
        apply Hk. rewrite Hkeys', Hkeys. apply elem_of_unique. subst keys.
        apply list_elem_of_fmap in Hm as (item & -> & Hitem). simpl.
        by apply (list_elem_of_fmap_2 (fun item => mkKey (transfer_warehouse d t)
          (default EmptyString (item_location d item)) (i_variantId item))). }
      by rewrite Z.add_0_r. }
  assert (Hinv' : inv db').
  { pose proof Hinv as [(_ & Hrw & _) Hledger]. split.
    - split; [|split]; [rewrite B'; apply W|by rewrite Or|rewrite B'; apply W].
    - intros k. rewrite Hl, L', Hsum. rewrite (moved_at_frame db s4), (held_at_frame db db') by done.
      destruct (Hledger k) as [-> Hle]. simpl. specialize (Hfree k). unfold free in Hfree.
      rewrite bump_all_onHand, bump_all_holds, holds_sum in Hfree. cbn [abs onHand] in Hfree.
      destruct (Hledger k) as [E _]. rewrite E in Hfree. simpl in Hfree. rewrite !pair_eq. lia. }
  split; [|done]. split; [done|]. split.
  - split; [|split; [|split; [by rewrite <- Mv|by rewrite Oa]]].
    + intros id r Hr. exists r. rewrite Or. split; [done|apply reservation_evolves_refl].
    + intros id b Hb. rewrite B'. by apply K.
  - assert (Hend : stock_eq (bump_all (abs db) (transfer_moves d t)) (abs db')).
    { split; [|rewrite bump_all_holds; simpl; by rewrite Or]. intros k. rewrite bump_all_onHand.
      cbn [abs onHand]. by rewrite Hl. }
    by rewrite <- Hend.
Qed.

(** * Creation *)

Definition item_of (input : TransferItemCommand) (item : TransferItem) : Prop :=
  i_variantId item = ti_variantId input /\ i_quantity item = int_val (ti_quantity input) /\
  i_sourceLocationId item = ti_sourceLocationId input /\
  i_targetLocationId item = ti_targetLocationId input.

Lemma create_items_ok inputs db items db' :
  create_items cuid inputs db = Ok (items, db') ->
  Forall2 item_of inputs items /\ exists n, db' = set_nextId n db.
Proof.
  revert db items. induction inputs as [|input inputs IH]; intros db items H; simpl in H.
  - run_inv. split; [constructor|]. exists (nextId db). by destruct db.
  - unfold fresh_id in H. run_inv. simplify_eq/=. apply IH in Hrun4 as (Hall & n & ->).
    split; [by constructor|]. by exists n.
Qed.

Definition keyed (key : option string) (t : StockTransfer) : bool :=
  bool_decide (t_idempotencyKey t = key).

(** The row that [createTransfer] inserts for a command. *)
Definition created_transfer (uuid : string) (c : CreateTransferCommand) (t : StockTransfer) : Prop :=
  t_code t = str_or (default EmptyString (trim <$> ct_code c)) (generated_code uuid) /\
  t_sourceWarehouseId t = ct_sourceWarehouseId c /\ t_targetWarehouseId t = ct_targetWarehouseId c /\
  t_status t = T_DRAFT /\ t_version t = 0%Z /\ t_idempotencyKey t = ct_idempotencyKey c /\
  Forall2 item_of (ct_items c) (t_items t).

(** A creation replays the row of its key, or inserts one new draft. *)
Definition create_outcome (uuid : string) (c : CreateTransferCommand) (db : InvDb) (t : StockTransfer)
    (db' : InvDb) : Prop :=
  (truthy_opt (ct_idempotencyKey c) = true /\ find_by (keyed (ct_idempotencyKey c)) (transfers db) = Some t /\
   transferMatches t c = true /\ db' = db) \/
  ((truthy_opt (ct_idempotencyKey c) = true -> find_by (keyed (ct_idempotencyKey c)) (transfers db) = None) /\
   transfers db !! t_id t = None /\ created_transfer uuid c t /\
   transfers db' = <[t_id t := t]> (transfers db) /\ transferTransitions db' = transferTransitions db /\
   same_stock db db').

Lemma createTransfer_tx_ok uuid c db t db' :
  createTransfer_tx cuid uuid c db = Ok (t, db') -> create_outcome uuid c db t db'.
Proof.
  intros H. unfold createTransfer_tx in H. run_inv.
  destruct (if truthy_opt (ct_idempotencyKey c) then _ else _) as [x|] eqn:Hex.
  - left. destruct (transferMatches x c) eqn:Hm; run_inv.
    by destruct (truthy_opt (ct_idempotencyKey c)).
  - right. unfold assertWarehousePair, assertVariants, create_transfer, fresh_id in H. run_inv. simplify_eq/=.
    apply create_items_ok in Hrun7 as (Hitems & n & ->). apply record_audit_ok in Hrun2 as (rows & [= _ ->]).
    apply orb_false_iff in Hguard as [Hid%bool_decide_eq_false _]. apply eq_None_not_Some in Hid.
    split.
    { intros Ht. by rewrite Ht in Hex. }
    simpl. split; [done|]. split; [by unfold created_transfer|]. split; [done|]. split; [done|].
    unfold same_stock. simpl. split_and!; [done..|]. by eexists.
Qed.

(** * Transitions *)

(** The stock changes of an action. *)
Definition moves_of (a : TransferAction) (t : StockTransfer) : list (StockKey * Z) :=
  match a with dispatch => transfer_moves out t | receive => transfer_moves in_ t | _ => [] end.

Definition transition_keyed (key : option string) (r : StockTransferTransition) : bool :=
  bool_decide (Some (tt_idempotencyKey r) = key).
Definition transition_matches (a : TransferAction) (id : string) (ctx : TransferContext)
    (r : StockTransferTransition) : Prop :=
  tt_transferId r = id /\ tt_action r = a /\ tt_expectedVersion r = tc_expectedVersion ctx.

(** A transition replays its key, or takes one step of the transfer. *)
Definition transition_replays (a : TransferAction) (id : string) (ctx : TransferContext) (db : InvDb)
    (t : StockTransfer) (db' : InvDb) : Prop :=
  truthy_opt (tc_idempotencyKey ctx) = true /\ transfers db !! id = Some t /\ db' = db /\
  exists r, find_by (transition_keyed (tc_idempotencyKey ctx)) (transferTransitions db) = Some r /\
    transition_matches a id ctx r.
Definition transition_steps (a : TransferAction) (id : string) (ctx : TransferContext) (db : InvDb)
    (t' : StockTransfer) (db' : InvDb) : Prop :=
  (truthy_opt (tc_idempotencyKey ctx) = true ->
     find_by (transition_keyed (tc_idempotencyKey ctx)) (transferTransitions db) = None /\
     exists r, find_by (transition_keyed (tc_idempotencyKey ctx)) (transferTransitions db') = Some r /\
       transition_matches a id ctx r) /\
  exists t, transfers db !! id = Some t /\ t_status t ∈ allowedFrom a /\
    (forall v, tc_expectedVersion ctx = Some v -> v = t_version t) /\
    t' = set_transfer_status (nextTransferStatus a) t /\
    transfers db' = <[id := t']> (transfers db) /\
    refines (change_event <$> moves_of a t) db db'.

Lemma create_transition_ok id a key v db u db' :
  create_transition cuid id a key v db = Ok (u, db') ->
  find_by (transition_keyed (Some key)) (transferTransitions db) = None /\
  (exists r, find_by (transition_keyed (Some key)) (transferTransitions db') = Some r /\
     tt_transferId r = id /\ tt_action r = a /\ tt_expectedVersion r = v) /\
  transfers db' = transfers db /\ same_stock db db'.
Proof.
  unfold create_transition, fresh_id. intros H. run_inv. simplify_eq/=.
  apply orb_false_iff in Hguard as [Hid%bool_decide_eq_false Hdup%bool_decide_eq_false].
  apply eq_None_not_Some in Hid, Hdup.
  assert (Hnone : find_by (transition_keyed (Some key)) (transferTransitions db) = None).
  { rewrite find_by_None in Hdup |- *. intros i x Hx. apply Hdup in Hx.
    apply bool_decide_eq_false in Hx. apply bool_decide_eq_false. congruence. }
  split; [done|]. split; [|split; [done|by unfold same_stock]].
  set (row := mkTransition _ _ _ _ _). exists row. split; [|done].
  apply find_by_unique with (k := cuid (nextId db)); [|apply lookup_insert_eq|by apply bool_decide_eq_true].
  rewrite find_by_None in Hnone.
  intros k1 k2 r1 r2 [[<- <-]|[_ H1]]%lookup_insert_Some [[<- <-]|[_ H2]]%lookup_insert_Some P1 P2; [done|..];
    first [apply Hnone in H2|apply Hnone in H1]; congruence.
Qed.

Lemma move_stock_refines t d db u db' :
  inv db -> move_stock cuid t d db = Ok (u, db') ->
  refines (change_event <$> transfer_moves d t) db db' /\ same_other db db'.
Proof.
  intros Hinv H. unfold move_stock in H. destruct (List.find _ _); [by run_inv|].
  by apply applyTransferMovements_refines in H.
Qed.

Lemma transition_stock a t db u db' :
  inv db ->
  (match a with dispatch => move_stock cuid t out | receive => move_stock cuid t in_ | _ => mret tt end) db
    = Ok (u, db') ->
  refines (change_event <$> moves_of a t) db db' /\ same_other db db'.
Proof.
  intros Hinv H. destruct a; try (by apply move_stock_refines in H);
    run_inv; (split; [apply same_stock_refines; [done|by unfold same_stock]|done]).
Qed.

Lemma update_transfer_ok id st db t' db' :
  update_transfer_status id st db = Ok (t', db') ->
  exists t, transfers db !! id = Some t /\ t' = set_transfer_status st t /\
    db' = set_transfers (<[id := t']> (transfers db)) db.
Proof. unfold update_transfer_status. intros H. run_inv. eauto. Qed.

Lemma record_transition_ok id a key v db u db' :
  (match key with
   | Some key => if truthy key then create_transition cuid id a key v else mret tt
   | None => mret tt
   end) db = Ok (u, db') ->
  (truthy_opt key = true ->
     find_by (transition_keyed key) (transferTransitions db) = None /\
     exists r, find_by (transition_keyed key) (transferTransitions db') = Some r /\
       tt_transferId r = id /\ tt_action r = a /\ tt_expectedVersion r = v) /\
  transfers db' = transfers db /\ same_stock db db'.
Proof.
  intros H. destruct key as [key|]; cbn [truthy_opt].
  - destruct (truthy key); [|run_inv; split; [done|]; split; [done|by unfold same_stock]].
    by apply create_transition_ok in H as (H1 & H2 & H3 & H4).
  - run_inv. split; [done|]. split; [done|by unfold same_stock].
Qed.

Lemma transitionTransfer_tx_ok a id ctx db t' db' :
  inv db -> transitionTransfer_tx cuid a id ctx db = Ok (t', db') ->
  transition_replays a id ctx db t' db' \/ transition_steps a id ctx db t' db'.
Proof.
  intros Hinv H. unfold transitionTransfer_tx in H. run_inv.
  destruct (if truthy_opt (tc_idempotencyKey ctx) then _ else _) as [r|] eqn:Hex.
  - left. destruct (_ || _) eqn:Hg; run_inv. destruct (truthy_opt (tc_idempotencyKey ctx)) eqn:Hk; [|done].
    rewrite !orb_false_iff, !negb_false_iff, !bool_decide_eq_true in Hg. destruct Hg as [[G1 G2] G3].
    split; [done|]. split; [done|]. split; [done|]. exists r. by unfold transition_matches.
  - right. run_inv. apply transition_stock in Hrun1 as (Href & Hr & Ht & Htt & Ha); [|done].
    apply update_transfer_ok in Hrun2 as (t & Ht' & -> & ->). rewrite Ht in Ht'. simplify_eq.
    apply record_transition_ok in Hrun3 as (Hkey & Ht3 & Hs3).
    apply record_audit_ok in Hrun4 as (rows & [= _ ->]).
    split.
    + intros Hk. rewrite Hk in Hex. split; [exact Hex|]. by destruct (Hkey Hk) as [_ Hrow].
    + exists v. split; [done|]. split; [by apply negb_false_iff, bool_decide_eq_true in Hguard0|].
      split; [|split; [done|split; [by simpl; rewrite Ht3; simpl; rewrite Ht|]]].
      * intros n Hn. rewrite Hn in Hguard. by apply negb_false_iff, bool_decide_eq_true in Hguard.
      * eapply refines_frame_r; [exact Href|]. destruct Hs3 as (B & M & R & A). split_and!; [done..|].
        etrans; [exact A|]. simpl. by eexists.
Qed.
End batch.
