(* ===== verification/InventorySafety.v ===== *)
(** The inventory as a system: the public commands as transactions on states that
    earlier transactions produced, their events on the abstract stock machine, and
    the properties of every history. *)

From S2P Require Import Prelude Retry Table Json AuditTrail InventoryModel Inventory InventoryLedger InventoryProofs.
From S2P Require Import InventoryExpiry InventoryTransfer TransferProofs.

(** * Commands *)

Inductive Command :=
  | CmdChange (c : ChangeStockCommand)
  | CmdReserve (c : ReserveStockCommand)
  | CmdRelease (rid : string) (ctx : ActorContext) (version : option Z) (now0 now1 : Z)
  | CmdConsume (rid : string) (ctx : ActorContext) (version : option Z) (now0 now1 : Z)
  | CmdProduction (rid : string) (action : ProductionAction) (ctx : ActorContext) (now : Z)
  | CmdReleaseOrder (orderId : string) (ctx : ActorContext)
  | CmdReleaseOrderFromExpiry (orderId requestId : string)
  | CmdConsumeOrder (orderId : string) (ctx : ActorContext)
  | CmdExpire (ctx : ActorContext) (now : Z) (batchSize : option number)
  | CmdCreateTransfer (uuid : string) (c : CreateTransferCommand)
  | CmdTransfer (a : TransferAction) (id : string) (ctx : TransferContext).

Inductive Response :=
  | RMovement (m : InventoryMovement)
  | RReservation (r : StockReservation)
  | RTransfer (t : StockTransfer)
  | RCount (n : Z).

(** [begin_inv] opens a run into its transaction. *)
Ltac begin_inv :=
  run_inv; match goal with H : begin_tx _ _ = Ok _ |- _ =>
    apply (proj1 (begin_tx_ok _ _ _)) in H; rename H into Htx end.

Section system.
Context (cuid : nat -> string).

(** The committed transaction of a command on [db].  Commands that read rows before
    their transaction read them at [past]. *)
Definition execute (past : InvDb) (cmd : Command) : M InvDb Response :=
  match cmd with
  | CmdChange c => m ← begin_tx (changeOnHandIn cuid c); mret (RMovement m)
  | CmdReserve c => r ← begin_tx (reserveIn cuid c); mret (RReservation r)
  | CmdRelease rid ctx version now0 now1 =>
      rb ← lift_result (transition_precheck rid ctx now0 past);
      r ← begin_tx (transition_tx rid (snd rb) (fst rb) version now1 (release_apply rid ctx));
      mret (RReservation r)
  | CmdConsume rid ctx version now0 now1 =>
      rb ← lift_result (transition_precheck rid ctx now0 past);
      r ← begin_tx (transition_tx rid (snd rb) (fst rb) version now1 (consume_apply cuid rid ctx));
      mret (RReservation r)
  | CmdProduction rid action ctx now =>
      n ← begin_tx (transitionProductionReservationIn cuid rid action ctx now); mret (RCount n)
  | CmdReleaseOrder orderId ctx =>
      n ← begin_tx (releaseReservationsForOrder orderId ctx); mret (RCount n)
  | CmdReleaseOrderFromExpiry orderId requestId =>
      n ← begin_tx (releaseReservationsForOrderFromExpiry orderId requestId); mret (RCount n)
  | CmdConsumeOrder orderId ctx =>
      n ← begin_tx (consumeReservationsForOrder cuid orderId ctx); mret (RCount n)
  | CmdExpire ctx now batchSize =>
      n ← begin_tx (expire_tx ctx now
        (expiry_candidates now (clampInt batchSize 1 100 EXPIRY_BATCH_SIZE) past));
      mret (RCount n)
  | CmdCreateTransfer uuid c =>
      lift_result (transfer_precheck c) ;;
      t ← begin_tx (createTransfer_tx cuid uuid c); mret (RTransfer t)
  | CmdTransfer a id ctx =>
      lift_result (assertTracked (tc_context ctx)) ;;
      t ← begin_tx (transitionTransfer_tx cuid a id ctx); mret (RTransfer t)
  end.

(** * What each command means *)

Definition change_replays (c : ChangeStockCommand) (db : InvDb) : bool :=
  truthy_opt (cs_idempotencyKey c) &&
  bool_decide (is_Some (find_by (fun m => bool_decide (m_idempotencyKey m = cs_idempotencyKey c))
    (movements db))).
Definition reserve_replays (c : ReserveStockCommand) (db : InvDb) : bool :=
  truthy_opt (rs_idempotencyKey c) &&
  bool_decide (is_Some (find_by (fun r => bool_decide (r_idempotencyKey r = rs_idempotencyKey c))
    (reservations db))).
Definition transition_replayed (ctx : TransferContext) (db : InvDb) : bool :=
  truthy_opt (tc_idempotencyKey ctx) &&
  bool_decide (is_Some (find_by (transition_keyed (tc_idempotencyKey ctx)) (transferTransitions db))).
Definition is_active (rid : string) (db : InvDb) : bool :=
  from_option (fun r => bool_decide (r_status r = ACTIVE)) false (reservations db !! rid).

(** The steps of the abstract machine a successful command takes from [db]. *)
Definition events (past : InvDb) (cmd : Command) (db : InvDb) (resp : Response) : list event :=
  match cmd, resp with
  | CmdChange c, _ =>
      if change_replays c db then [] else [EChange (cs_key c) (int_val (cs_delta c))]
  | CmdReserve c, RReservation r =>
      if reserve_replays c db then [] else [EHold (r_id r) (rs_key c) (int_val (rs_quantity c))]
  | CmdRelease rid _ _ _ _, _ => if is_active rid db then [EDrop rid] else []
  | CmdConsume rid _ _ _ _, _ => if is_active rid db then [EShip rid] else []
  | CmdProduction rid consume_action _ _, _ => [EShip rid]
  | CmdProduction rid release_action _ _, _ => [EDrop rid]
  | CmdReleaseOrder orderId _, _ | CmdReleaseOrderFromExpiry orderId _, _ =>
      EDrop <$> (r_id <$> order_reservations orderId db)
  | CmdConsumeOrder orderId _, _ => EShip <$> (r_id <$> order_reservations orderId db)
  | CmdExpire ctx now batchSize, _ =>
      EDrop <$> (r_id <$> find_many (expiring
        (expiry_candidates now (clampInt batchSize 1 100 EXPIRY_BATCH_SIZE) past) now) (reservations db))
  | CmdTransfer a id ctx, _ =>
      if transition_replayed ctx db then []
      else from_option (fun t => change_event <$> moves_of a t) [] (transfers db !! id)
  | _, _ => []
  end.

(** The responses: matching rows, or the number of reservations that left ACTIVE. *)
Definition response_ok (past : InvDb) (cmd : Command) (db db' : InvDb) (resp : Response) : Prop :=
  match cmd, resp with
  | CmdChange c, RMovement m =>
      movement_of c m /\ exists id, movements db' !! id = Some m
  | CmdReserve c, RReservation r =>
      reservation_of c r /\ exists id, reservations db' !! id = Some r
  | CmdRelease rid _ _ _ _, RReservation r =>
      reservations db' !! rid = Some r /\ r_status r <> ACTIVE /\
      (is_active rid db = true -> r_status r = RELEASED)
  | CmdConsume rid _ _ _ _, RReservation r =>
      reservations db' !! rid = Some r /\ r_status r <> ACTIVE /\
      (is_active rid db = true -> r_status r = CONSUMED)
  | (CmdProduction _ _ _ _ | CmdReleaseOrder _ _ | CmdReleaseOrderFromExpiry _ _
     | CmdConsumeOrder _ _ | CmdExpire _ _ _), RCount n =>
      n = Z.of_nat (length (events past cmd db resp))
  | CmdCreateTransfer uuid c, RTransfer t =>
      (exists id, transfers db' !! id = Some t) /\ (transferMatches t c = true \/ created_transfer uuid c t)
  | CmdTransfer a id ctx, RTransfer t =>
      transfers db' !! id = Some t /\
      (transition_replayed ctx db = false -> t_status t = nextTransferStatus a)
  | _, _ => False
  end.

Definition implements (past : InvDb) (cmd : Command) (db db' : InvDb) (resp : Response) : Prop :=
  refines (events past cmd db resp) db db' /\ response_ok past cmd db db' resp.

(** ** One lemma per command *)

Lemma change_replays_true c db :
  change_replays c db = true <-> truthy_opt (cs_idempotencyKey c) = true /\
    exists id x, movements db !! id = Some x /\ m_idempotencyKey x = cs_idempotencyKey c.
Proof.
  unfold change_replays. rewrite andb_true_iff, bool_decide_eq_true. split; intros [H1 H2]; split; try done.
  - destruct H2 as [x H2]. apply find_by_Some in H2 as [[id Hid] Hx].
    apply bool_decide_eq_true in Hx. eauto.
  - apply not_eq_None_Some. rewrite find_by_None. destruct H2 as (id & x & H2 & Hx). intros Hall.
    apply Hall in H2. by rewrite bool_decide_eq_false in H2.
Qed.

Lemma reserve_replays_true c db :
  reserve_replays c db = true <-> truthy_opt (rs_idempotencyKey c) = true /\
    exists id x, reservations db !! id = Some x /\ r_idempotencyKey x = rs_idempotencyKey c.
Proof.
  unfold reserve_replays. rewrite andb_true_iff, bool_decide_eq_true. split; intros [H1 H2]; split; try done.
  - destruct H2 as [x H2]. apply find_by_Some in H2 as [[id Hid] Hx].
    apply bool_decide_eq_true in Hx. eauto.
  - apply not_eq_None_Some. rewrite find_by_None. destruct H2 as (id & x & H2 & Hx). intros Hall.
    apply Hall in H2. by rewrite bool_decide_eq_false in H2.
Qed.

Lemma refines_begin es db db' : inv db -> refines es (set_locks [] db) db' -> refines es db db'.
Proof. intros Hinv H. by eapply refines_frame_l. Qed.

Lemma inv_begin db : inv db -> inv (set_locks [] db).
Proof. intros H. by eapply inv_same_stock. Qed.

Lemma execute_change past c db resp db' :
  inv db -> execute past (CmdChange c) db = Ok (resp, db') ->
  implements past (CmdChange c) db db' resp.
Proof.
  intros Hinv H. simpl in H. begin_inv.
  apply changeOnHandIn_refines in Htx as [Hm Hcase]; [|by apply inv_begin]. unfold implements. simpl.
  destruct Hcase as [(Hkey & Hk & [id Hid] & (_ & Hmov & _) & Href)|(Hnew & Hfresh & Hmov & _ & _ & Href)].
  - rewrite (proj2 (change_replays_true c db)) by eauto. split; [by apply refines_begin|].
    split; [done|]. rewrite Hmov. eauto.
  - destruct (change_replays c db) eqn:E.
    + exfalso. apply change_replays_true in E as (Hkey & id & y & Hy & Hyk). by eapply (Hnew Hkey).
    + split; [by apply refines_begin|]. split; [done|]. rewrite Hmov. eexists. apply lookup_insert_eq.
Qed.

Lemma execute_reserve past c db resp db' :
  inv db -> execute past (CmdReserve c) db = Ok (resp, db') ->
  implements past (CmdReserve c) db db' resp.
Proof.
  intros Hinv H. simpl in H. begin_inv.
  apply reserveIn_refines in Htx as [Hm Hcase]; [|by apply inv_begin]. unfold implements. simpl.
  destruct Hcase as [(Hkey & Hk & [id Hid] & (_ & _ & Hres & _) & Href)|(Hnew & _ & Hfresh & Hres & _ & Href)].
  - rewrite (proj2 (reserve_replays_true c db)) by eauto. split; [by apply refines_begin|].
    split; [done|]. rewrite Hres. eauto.
  - destruct (reserve_replays c db) eqn:E.
    + exfalso. apply reserve_replays_true in E as (Hkey & id & y & Hy & Hyk). by eapply (Hnew Hkey).
    + split; [by apply refines_begin|]. split; [done|]. rewrite Hres. eexists. apply lookup_insert_eq.
Qed.

(** The two commands on one pre-read reservation. *)
Lemma execute_transition st e now rid x db db' :
  st <> ACTIVE -> inv db -> transition_outcome rid st e now x (set_locks [] db) db' ->
  refines (if is_active rid db then [e] else []) db db' /\
  reservations db' !! rid = Some x /\ r_status x <> ACTIVE /\ (is_active rid db = true -> r_status x = st).
Proof.
  intros Hst Hinv [(Hx & Hs & Hsame & Href)|(y & Hy & Hs & _ & -> & Hres & Href)];
    unfold is_active; simpl in *.
  - rewrite Hx. simpl. rewrite bool_decide_false by (destruct Hs; congruence).
    split; [by apply refines_begin|]. destruct Hsame as (_ & _ & -> & _).
    split; [done|]. split; [destruct Hs; congruence|done].
  - rewrite Hy. simpl. rewrite bool_decide_true by done. split; [by apply refines_begin|].
    rewrite Hres. split; [apply lookup_insert_eq|]. done.
Qed.

Lemma execute_release past rid ctx v now0 now1 db resp db' :
  inv past -> evolves past db -> inv db ->
  execute past (CmdRelease rid ctx v now0 now1) db = Ok (resp, db') ->
  implements past (CmdRelease rid ctx v now0 now1) db db' resp.
Proof.
  intros Hpast Hev Hinv H. simpl in H. begin_inv. destruct v0 as [r bid].
  apply transition_precheck_ok in Hres as (Hr & Hid & _ & _ & b & Hb & Hbk); [|done].
  eapply (transition_tx_refines rid bid r b past Hr Hb Hbk RELEASED (EDrop rid)) in Htx; [|..].
  - by apply execute_transition in Htx.
  - intros. by eapply release_apply_refines.
  - by apply inv_begin.
  - done.
Qed.

Lemma execute_consume past rid ctx v now0 now1 db resp db' :
  inv past -> evolves past db -> inv db ->
  execute past (CmdConsume rid ctx v now0 now1) db = Ok (resp, db') ->
  implements past (CmdConsume rid ctx v now0 now1) db db' resp.
Proof.
  intros Hpast Hev Hinv H. simpl in H. begin_inv. destruct v0 as [r bid].
  apply transition_precheck_ok in Hres as (Hr & Hid & _ & _ & b & Hb & Hbk); [|done].
  eapply (transition_tx_refines rid bid r b past Hr Hb Hbk CONSUMED (EShip rid)) in Htx; [|..].
  - by apply execute_transition in Htx.
  - intros. by eapply consume_apply_refines.
  - by apply inv_begin.
  - done.
Qed.

Lemma finishes_active st e rid n db db' r :
  inv db -> reservations db !! rid = Some r -> r_status r = ACTIVE ->
  finishes st e rid n (set_locks [] db) db' -> refines [e] db db' /\ n = Z.of_nat (length [e]).
Proof.
  intros Hinv Hr Hs [(_ & Hno & _)|(-> & _ & Href)]; [|split; [by apply refines_begin|done]].
  change (holds (abs (set_locks [] db))) with (holds (abs db)) in Hno.
  by rewrite (abs_hold db rid r Hr Hs) in Hno.
Qed.

Lemma execute_production past rid action ctx now db resp db' :
  inv db -> execute past (CmdProduction rid action ctx now) db = Ok (resp, db') ->
  implements past (CmdProduction rid action ctx now) db db' resp.
Proof.
  intros Hinv H. simpl in H. begin_inv. unfold transitionProductionReservationIn in Htx. run_inv.
  simpl in Hsome. apply (active_row db) in Hsome as Hid; [|done]. destruct Hid as [Hid _].
  apply negb_false_iff, bool_decide_eq_true in Hguard0. apply inv_begin in Hinv as Hinv'.
  unfold implements. destruct action; lazy iota in Htx; cbn [events response_ok].
  - pose proof (consumeSingle_refines cuid _ _ _ _ _ Hinv' Htx) as Hfin. rewrite Hid in Hfin.
    by eapply finishes_active.
  - assert (Hst : RELEASED <> ACTIVE) by done.
    pose proof (rebalance_refines _ _ _ _ _ _ _ _ Hinv' Hst Htx) as Hfin. rewrite Hid in Hfin.
    by eapply finishes_active.
Qed.

(** A loop over an order's reservations as a command. *)
Lemma execute_order_loop st e f orderId db n db' :
  (forall r db n db', inv db -> f r db = Ok (n, db') ->
     finishes st (e (r_id r)) (r_id r) n db db') ->
  inv db ->
  sum_each (order_reservations orderId (set_locks [] db)) f (set_locks [] db) = Ok (n, db') ->
  let es := e <$> (r_id <$> order_reservations orderId db) in
  refines es db db' /\ n = Z.of_nat (length es).
Proof.
  intros Hf Hinv H es. apply inv_begin in Hinv as Hinv'.
  apply (order_loop_refines st e) in H as (-> & Href & _); [|done..].
  split; [by apply refines_begin|]. unfold es. by rewrite !length_fmap.
Qed.

Lemma execute_order past cmd db resp db' :
  match cmd with CmdReleaseOrder _ _ | CmdReleaseOrderFromExpiry _ _ | CmdConsumeOrder _ _ => True
  | _ => False end ->
  inv db -> execute past cmd db = Ok (resp, db') -> implements past cmd db db' resp.
Proof.
  intros Hcmd Hinv H. destruct cmd; try done; simpl in H; begin_inv; unfold implements; simpl.
  - unfold releaseReservationsForOrder, releaseOrderReservations in Htx. run_inv.
    apply (execute_order_loop RELEASED EDrop) in Htx as [Href ->]; [done| |done].
    intros. by eapply rebalance_refines.
  - unfold releaseReservationsForOrderFromExpiry, releaseOrderReservations in Htx. run_inv.
    apply (execute_order_loop RELEASED EDrop) in Htx as [Href ->]; [done| |done].
    intros. by eapply rebalance_refines.
  - unfold consumeReservationsForOrder in Htx. run_inv.
    apply (execute_order_loop CONSUMED EShip) in Htx as [Href ->]; [done| |done].
    intros. by eapply consumeSingle_refines.
Qed.

Lemma execute_expire past ctx now batch db resp db' :
  inv db -> execute past (CmdExpire ctx now batch) db = Ok (resp, db') ->
  implements past (CmdExpire ctx now batch) db db' resp.
Proof.
  intros Hinv H. simpl in H. begin_inv. apply expire_tx_refines in Htx as (-> & Href & _); [|by apply inv_begin].
  unfold implements. simpl. split; [by apply refines_begin|]. by rewrite !length_fmap.
Qed.

Lemma transition_replayed_eq a id ctx db t db' :
  (transition_replays a id ctx db t db' -> transition_replayed ctx db = true) /\
  (transition_steps a id ctx db t db' -> transition_replayed ctx db = false).
Proof.
  unfold transition_replayed. split.
  - intros (-> & _ & _ & r & -> & _). done.
  - intros [H _]. destruct (truthy_opt _); [|done]. by destruct H as [-> _].
Qed.

Lemma execute_createTransfer past uuid c db resp db' :
  inv db -> execute past (CmdCreateTransfer uuid c) db = Ok (resp, db') ->
  implements past (CmdCreateTransfer uuid c) db db' resp.
Proof.
  intros Hinv H. simpl in H. begin_inv. apply inv_begin in Hinv as Hinv'. unfold implements. simpl.
  apply createTransfer_tx_ok in Htx as [(_ & Hf & Hm & ->)|(_ & _ & Hc & Ht & _ & Hs)].
  - apply find_by_Some in Hf as [Hin _]. split; [|by split; [|left]].
    apply refines_begin, same_stock_refines; [done..|]. by unfold same_stock.
  - split; [by apply refines_begin, same_stock_refines|]. split; [|by right].
    rewrite Ht. eexists. apply lookup_insert_eq.
Qed.

Lemma execute_transfer past a id ctx db resp db' :
  inv db -> execute past (CmdTransfer a id ctx) db = Ok (resp, db') ->
  implements past (CmdTransfer a id ctx) db db' resp.
Proof.
  intros Hinv H. simpl in H. begin_inv. apply inv_begin in Hinv as Hinv'. unfold implements.
  apply transitionTransfer_tx_ok in Htx as Hout; [|done]. cbn [events response_ok].
  destruct Hout as [Hout|Hout].
  - change (transition_replayed ctx db) with (transition_replayed ctx (set_locks [] db)).
    rewrite (proj1 (transition_replayed_eq _ _ _ _ _ _) Hout). destruct Hout as (_ & Ht & -> & _).
    split; [|done]. apply refines_begin, same_stock_refines; [done..|]. by unfold same_stock.
  - change (transition_replayed ctx db) with (transition_replayed ctx (set_locks [] db)).
    rewrite (proj2 (transition_replayed_eq _ _ _ _ _ _) Hout).
    destruct Hout as (_ & t & Ht & _ & _ & -> & Ht' & Href). simpl in Ht. rewrite Ht. simpl.
    split; [by apply refines_begin|]. rewrite Ht'. split; [apply lookup_insert_eq|done].
Qed.

Lemma execute_implements past cmd db resp db' :
  inv past -> evolves past db -> inv db -> execute past cmd db = Ok (resp, db') ->
  implements past cmd db db' resp.
Proof.
  intros Hpast Hev Hinv H. destruct cmd; first
    [ by apply execute_change | by apply execute_reserve | by eapply execute_release
    | by eapply execute_consume | by apply execute_production | by apply execute_order
    | by apply execute_expire | by apply execute_createTransfer | by apply execute_transfer ].
Qed.
(** * Histories *)

(** [history db0 dbs es]: the committed states, newest first, of commands run from
    [db0], and their events in order.  A command may have read its rows at any
    earlier state. *)
Inductive history (db0 : InvDb) : list InvDb -> list event -> Prop :=
  | history_start : history db0 [db0] []
  | history_commit past cmd db dbs es resp db' :
      history db0 (db :: dbs) es -> past ∈ db :: dbs ->
      execute past cmd db = Ok (resp, db') ->
      history db0 (db' :: db :: dbs) (es ++ events past cmd db resp).

Lemma history_sound db0 dbs es :
  inv db0 -> history db0 dbs es ->
  exists db dbs', dbs = db :: dbs' /\ inv db /\ evolves db0 db /\
    (forall past, past ∈ dbs -> inv past /\ evolves past db) /\ asteps es (abs db0) (abs db).
Proof.
  intros Hinv0. induction 1 as [|past cmd db dbs es resp db' H IH Hpast Hexec].
  - exists db0, []. split_and!; [done..| |done]. by intros past ->%list_elem_of_singleton.
  - destruct IH as (db1 & dbs1 & [= <- <-] & Hinv & Hev & Hall & Hsteps).
    destruct (Hall past Hpast) as [Hip Hep].
    apply execute_implements in Hexec as [(Hinv' & Hev' & Hsteps') _]; [|done..].
    exists db', (db :: dbs). split; [done|]. split; [done|]. split; [by etrans|]. split.
    + intros p [->|Hp]%elem_of_cons; [by split|]. destruct (Hall p Hp). split; [done|by etrans].
    + by eapply asteps_app.
Qed.

(** ** Counting *)

Definition settles (id : string) (e : event) : bool :=
  match e with EDrop i | EShip i => bool_decide (i = id) | _ => false end.
Definition starts (id : string) (e : event) : bool :=
  match e with EHold i _ _ => bool_decide (i = id) | _ => false end.
Definition count (p : event -> bool) (es : list event) : nat := length (List.filter p es).
Definition has_hold (id : string) (s : Stock) : nat :=
  match holds s !! id with Some _ => 1 | None => 0 end.

Lemma count_app p es1 es2 : count p (es1 ++ es2) = count p es1 + count p es2.
Proof. unfold count. by rewrite List.filter_app, length_app. Qed.

(** Every hold that ends had started. *)
Lemma astep_settles id e s s' :
  astep e s s' ->
  (if settles id e then 1 else 0) + has_hold id s' = (if starts id e then 1 else 0) + has_hold id s.
Proof.
  unfold has_hold. destruct e as [k d|i k q|i|i]; simpl.
  - intros (_ & _ & _ & ->). done.
  - intros (_ & Hn & _ & ->). simpl. case_bool_decide as Hi.
    + subst i. by rewrite lookup_insert_eq, Hn.
    + by rewrite lookup_insert_ne.
  - intros ([h Hh] & _ & ->). simpl. case_bool_decide as Hi.
    + subst i. by rewrite lookup_delete_eq, Hh.
    + by rewrite lookup_delete_ne.
  - intros (k & q & Hh & _ & ->). simpl. case_bool_decide as Hi.
    + subst i. by rewrite lookup_delete_eq, Hh.
    + by rewrite lookup_delete_ne.
Qed.

Lemma asteps_settles id es s s' :
  asteps es s s' -> count (settles id) es + has_hold id s' = count (starts id) es + has_hold id s.
Proof.
  revert s. induction es as [|e es IH]; intros s; simpl.
  - intros [_ Hh]. unfold has_hold. by rewrite Hh.
  - intros (s1 & H1 & H2). apply (astep_settles id) in H1. apply IH in H2. unfold count in *. simpl.
    destruct (settles id e), (starts id e); simpl in *; lia.
Qed.

Lemma starts_map (f : string -> event) id l :
  (forall i, starts id (f i) = false) -> count (starts id) (f <$> l) = 0.
Proof. intros Hf. unfold count. induction l as [|i l IH]; [done|]. simpl. by rewrite Hf. Qed.

(** Only a new reservation row starts a hold. *)
Lemma execute_starts past cmd db resp db' id :
  inv past -> evolves past db -> inv db -> execute past cmd db = Ok (resp, db') ->
  count (starts id) (events past cmd db resp) = 0 \/
  (count (starts id) (events past cmd db resp) = 1 /\ reservations db !! id = None /\
   is_Some (reservations db' !! id)).
Proof.
  intros Hpast Hev Hinv H. destruct cmd; cbn [events].
  - left. by destruct (change_replays c db).
  - simpl in H. begin_inv. destruct (reserve_replays c db) eqn:E; [by left|].
    apply reserveIn_refines in Htx as (_ & Hcase); [|by apply inv_begin].
    destruct Hcase as [(Hkey & Hk & [i Hi] & _)|(_ & _ & Hfresh & Hres & _)].
    { apply not_true_iff_false in E. rewrite reserve_replays_true in E. destruct E. eauto. }
    unfold count. simpl. case_bool_decide as Hid; [|by left]. subst id. right.
    split; [done|]. split; [done|]. rewrite Hres. exists x. apply lookup_insert_eq.
  - left. by destruct (is_active rid db).
  - left. by destruct (is_active rid db).
  - left. by destruct action.
  - left. by apply starts_map.
  - left. by apply starts_map.
  - left. by apply starts_map.
  - left. by apply starts_map.
  - by left.
  - left. destruct (transition_replayed ctx db); [done|]. destruct (transfers db !! id0) as [t|]; [|done].
    simpl. unfold count. by induction (moves_of a t).
Qed.

Lemma history_starts db0 db dbs es id :
  inv db0 -> history db0 (db :: dbs) es ->
  count (starts id) es = 0 \/
  (count (starts id) es = 1 /\ reservations db0 !! id = None /\ is_Some (reservations db !! id)).
Proof.
  intros Hinv0 H. remember (db :: dbs) as l eqn:El. revert db dbs El.
  induction H as [|past cmd db dbs es resp db' H IH Hpast Hexec]; intros db1 dbs1 [= <- <-].
  - by left.
  - specialize (IH db dbs eq_refl). rewrite count_app.
    apply history_sound in H as (d & ds & [= <- <-] & Hinv & Hev0 & Hall & _); [|done].
    destruct (Hall past Hpast) as [Hip Hep].
    pose proof (execute_implements _ _ _ _ _ Hip Hep Hinv Hexec) as [(_ & Hev & _) _].
    destruct (execute_starts past cmd db resp db' id Hip Hep Hinv Hexec) as [->|(-> & Hn & Hs)].
    + rewrite Nat.add_0_r. destruct IH as [IH|(-> & H0 & [r Hr])]; [by left|]. right.
      split; [done|]. split; [done|]. destruct Hev as [Hev _]. destruct (Hev _ _ Hr) as (r' & -> & _). eauto.
    + destruct IH as [->|(_ & _ & [r Hr])]; [|congruence]. right. split; [done|]. split; [|done].
      destruct (reservations db0 !! id) as [r|] eqn:E; [|done].
      destruct Hev0 as [Hev0 _]. destruct (Hev0 _ _ E) as (r' & Hr' & _). congruence.
Qed.
End system.

(** The unique idempotency keys of movements and reservations: an invariant of every
    command, by which a repeated command finds the row of its first run. *)

Definition m_has (key : string) (m : InventoryMovement) : bool :=
  bool_decide (m_idempotencyKey m = Some key).
Definition r_has (key : string) (r : StockReservation) : bool :=
  bool_decide (r_idempotencyKey r = Some key).

Definition keys_unique (db : InvDb) : Prop :=
  forall key, unique_on (m_has key) (movements db) /\ unique_on (r_has key) (reservations db).

(** * The operations and commands *)

Section commands.
Context (cuid : nat -> string).

Lemma keys_lock parts : preserves keys_unique (advisory_lock parts).
Proof. by apply preserves_modify. Qed.
Lemma keys_record input : preserves keys_unique (record (S := InvDb) input).
Proof. by apply preserves_zoom. Qed.
Lemma keys_recordMany inputs : preserves keys_unique (recordMany (S := InvDb) inputs).
Proof. destruct inputs; [apply preserves_ret|by apply preserves_zoom]. Qed.
Lemma keys_fresh_id : preserves keys_unique (fresh_id cuid).
Proof. intros db a db' H [= _ <-]. exact H. Qed.
Lemma keys_write_balance b : preserves keys_unique (write_balance b).
Proof. apply preserves_bind; [apply preserves_throw_if|]. intros _. by apply preserves_modify. Qed.
Lemma keys_update_balance_id id f : preserves keys_unique (update_balance_id id f).
Proof. unfold update_balance_id. eauto using keys_write_balance with pres. Qed.
Lemma keys_update_balance_key k f : preserves keys_unique (update_balance_key k f).
Proof. unfold update_balance_key. eauto using keys_write_balance with pres. Qed.
Lemma keys_upsert k oh rs av f : preserves keys_unique (upsert_balance cuid k oh rs av f).
Proof.
  unfold upsert_balance. apply preserves_bind; [apply preserves_gets|]. intros [b|];
    eauto using keys_write_balance, keys_fresh_id with pres.
Qed.

Lemma keys_create_movement k t q before after rt ri reason ik :
  preserves keys_unique (create_movement cuid k t q before after rt ri reason ik).
Proof.
  intros db m db' Hk H. unfold create_movement, fresh_id in H. run_inv. simplify_eq/=.
  apply bool_decide_eq_false in Hguard0, Hguard. intros key. destruct (Hk key) as [Hm Hr].
  split; [|done]. simpl. apply unique_on_insert; [by apply eq_None_not_Some|done|].
  unfold m_has at 1. simpl. intros Hik%bool_decide_eq_true. subst ik.
  apply eq_None_not_Some in Hguard. rewrite find_by_None in Hguard |- *. intros i x Hx.
  apply Hguard in Hx. by rewrite bool_decide_true in Hx.
Qed.

Lemma keys_create_reservation k orderId q e ik :
  preserves keys_unique (create_reservation cuid k orderId q e ik).
Proof.
  intros db m db' Hk H. unfold create_reservation, fresh_id in H. run_inv. simplify_eq/=.
  apply bool_decide_eq_false in Hguard0, Hguard. intros key. destruct (Hk key) as [Hm Hr].
  split; [done|]. simpl. apply unique_on_insert; [by apply eq_None_not_Some|done|].
  unfold r_has at 1. simpl. intros Hik%bool_decide_eq_true. subst ik.
  apply eq_None_not_Some in Hguard. rewrite find_by_None in Hguard |- *. intros i x Hx.
  apply Hguard in Hx. by rewrite bool_decide_true in Hx.
Qed.

Lemma keys_update_status id st : preserves keys_unique (update_reservation_status id st).
Proof.
  intros db r db' Hk H. apply update_reservation_status_ok in H as (row & Hrow & [= -> ->]).
  intros key. destruct (Hk key) as [Hm Hr]. split; [done|]. simpl. by eapply unique_on_update.
Qed.

Lemma keys_begin {A} (m : M InvDb A) : preserves keys_unique m -> preserves keys_unique (begin_tx m).
Proof. intros H. apply preserves_bind; [by apply preserves_modify|]. done. Qed.

#[local] Hint Resolve keys_lock keys_record keys_recordMany keys_fresh_id keys_write_balance
  keys_update_balance_id keys_update_balance_key keys_upsert keys_create_movement
  keys_create_reservation keys_update_status : pres.

Lemma keys_identity k : preserves keys_unique (assertStockIdentity k).
Proof. intros db u db' H E. by apply assertStockIdentity_ok in E as [= _ ->]. Qed.
#[local] Hint Resolve keys_identity : pres.

Lemma keys_changeOnHandIn c : preserves keys_unique (changeOnHandIn cuid c).
Proof. unfold changeOnHandIn, acquireBalanceLock. solve_preserves. Qed.

Lemma keys_reserveIn c : preserves keys_unique (reserveIn cuid c).
Proof. unfold reserveIn, acquireBalanceLock. solve_preserves. Qed.

Lemma keys_consumeSingle r ctx : preserves keys_unique (consumeSingleReservation cuid r ctx).
Proof. unfold consumeSingleReservation, acquireBalanceLock. solve_preserves. Qed.

Lemma keys_rebalance r st action ctx sys :
  preserves keys_unique (rebalanceReservationRelease r st action ctx sys).
Proof. unfold rebalanceReservationRelease, acquireBalanceLock. solve_preserves. Qed.
#[local] Hint Resolve keys_consumeSingle keys_rebalance : pres.

Lemma keys_transition rid bid r v now apply :
  (forall r b, preserves keys_unique (apply r b)) ->
  preserves keys_unique (transition_tx rid bid r v now apply).
Proof. intros H. unfold transition_tx, acquireBalanceLock. solve_preserves. Qed.

Lemma keys_release_apply rid ctx r b : preserves keys_unique (release_apply rid ctx r b).
Proof. unfold release_apply. solve_preserves. Qed.
Lemma keys_consume_apply rid ctx r b : preserves keys_unique (consume_apply cuid rid ctx r b).
Proof. unfold consume_apply. solve_preserves. Qed.

Lemma keys_expire ctx now cs : preserves keys_unique (expire_tx ctx now cs).
Proof.
  unfold expire_tx, acquireBalanceLock.
  assert (Hu : forall g, preserves keys_unique (update_group g)).
  { intros g. unfold update_group. solve_preserves. }
  assert (Hm : forall P, preserves keys_unique (modify (fun db =>
    set_reservations (update_many P (set_status EXPIRED) (reservations db)) db))).
  { intros P. apply preserves_modify. intros db Hk key. destruct (Hk key) as [H1 H2].
    split; [done|]. apply unique_on_fmap; [|done]. intros r. by destruct (P r). }
  solve_preserves.
Qed.
End commands.
