(* ===== verification/InventoryProperties.v ===== *)
(** The properties of the inventory: refinement of the abstract stock machine, no
    overselling in any history, reservations settled once, safety of the public
    commands among other clients, idempotent replays, the exact conditions of a
    reservation, and atomic, deadlock-free expiry. *)

From S2P Require Import Prelude Table Json AuditTrail Retry InventoryModel Inventory.
From S2P Require Import InventoryLedger InventoryProofs InventoryExpiry InventorySafety.
From S2P Require Import InventorySafety InventoryTransfer TransferProofs.

(** * Public commands among other clients *)

(** Other clients keep the invariant and the evolution of the tables; every history
    of commands does. *)
Definition rely (E : env InvDb) : Prop :=
  forall k db, inv db -> inv (others E k db) /\ evolves db (others E k db).

Lemma drift_rely E k n db : rely E -> inv db -> inv (drift E k n db) /\ evolves db (drift E k n db).
Proof.
  intros HE. revert k db. induction n as [|n IH]; intros k db Hinv; simpl; [done|].
  destruct (HE k db Hinv) as [H1 H2]. destruct (IH (S k) _ H1) as [H3 H4]. split; [done|by etrans].
Qed.

(** What a caller observes of a public command issued at [db]: a committed run of its
    transaction on a state that other clients left, or an error without effect. *)
Definition public_outcome (cuid : nat -> string) (E : env InvDb) (cmd : Command) (db : InvDb)
    (out : result Response * InvDb) : Prop :=
  inv (snd out) /\ evolves db (snd out) /\
  exists j, j <= 3 /\
    match out with
    | (Ok resp, db') => execute cuid db cmd (drift E 0 j db) = Ok (resp, db')
    | (Err _, db') => db' = drift E 0 j db
    end.

Definition respond {A} (f : A -> Response) (out : result A * InvDb) : result Response * InvDb :=
  (match fst out with Ok a => Ok (f a) | Err e => Err e end, snd out).

Section public.
Context (cuid : nat -> string) (E : env InvDb).
Hypothesis HE : rely E.

Lemma public_err cmd db e : inv db -> public_outcome cuid E cmd db (Err e, db).
Proof. intros Hinv. split; [done|]. split; [done|]. exists 0. split; [lia|done]. Qed.

Lemma public_retry {A} (f : A -> Response) cmd db (m : M InvDb A) :
  inv db ->
  (forall db1 a db', m db1 = Ok (a, db') -> execute cuid db cmd db1 = Ok (f a, db')) ->
  public_outcome cuid E cmd db (respond f (inventory_withSerializableRetry E m db)).
Proof using HE.
  intros Hinv Hexec. pose proof (retry_loop_spec E isPrismaTransactionConflict stock_conflict m
    (Z.to_nat SERIALIZABLE_RETRIES) 0 db) as Hloop.
  destruct Hloop as (j & Hj & Hout); [unfold SERIALIZABLE_RETRIES; lia|].
  unfold inventory_withSerializableRetry. destruct (drift_rely E 0 (S j) db HE Hinv) as [Hi Hev].
  assert (Hj3 : S j <= 3) by (unfold SERIALIZABLE_RETRIES in Hj; lia).
  destruct (retry_loop _ _ _ _ _ _ _) as [[a|e] db']; unfold respond; cbn [fst snd].
  - destruct Hout as [_ Hm]. apply Hexec in Hm.
    pose proof (execute_implements _ _ _ _ _ _ Hinv Hev Hi Hm) as [(Hi' & Hev' & _) _].
    split; [done|]. split; [by etrans|]. by exists (S j).
  - subst db'. split; [done|]. split; [done|]. by exists (S j).
Qed.
End public.

(** * A demonstration state *)

Definition demo_cuid (n : nat) : string := "c" +:+ pretty n.
Definition demo_key : StockKey := mkKey "w1" "l1" "v1".
Definition demo_ctx : ActorContext := mkActor (Some "admin") (Some "req-1").
Definition demo_db : InvDb :=
  mkInvDb
    {["b1" := mkBalance "b1" demo_key 10 4 6 1]}
    {["m1" := mkMovement "m1" demo_key RECEIPT 10 0 10 None None None None 0]}
    (<["r2" := mkReservation "r2" demo_key (Some "o1") 3 ACTIVE 90 None 0]>
      {["r1" := mkReservation "r1" demo_key None 1 ACTIVE 50 None 0]})
    ∅ ∅ {["w1" := mkWarehouse "w1" "W1" "Main" None None true]}
    {["l1" := mkLocation "l1" "w1" "A-1" None None None None None None true]}
    {["v1" := true]} [] [] [] 0 7.

Lemma demo_inv : inv demo_db.
Proof.
  split; [split; [|split]|].
  1-3: unfold demo_db; cbn [balances reservations].
  - intros id b [<- <-]%lookup_singleton_Some. done.
  - intros id r [[<- <-]|[_ [<- <-]%lookup_singleton_Some]]%lookup_insert_Some; done.
  - intros k i1 i2 b1 b2 [<- <-]%lookup_singleton_Some [<- <-]%lookup_singleton_Some. done.
  - intros k. unfold level, moved_at, held_at, find_balance. destruct (decide (k = demo_key)) as [->|Hk].
    + vm_compute. split; [done|discriminate].
    + assert (Hn : find_by (has_key k) (balances demo_db) = None).
      { apply find_by_None. unfold demo_db. cbn [balances]. intros id b [<- <-]%lookup_singleton_Some.
        apply not_true_iff_false. rewrite has_key_true. simpl. congruence. }
      rewrite Hn. rewrite (tsum_0 (moved k)), (tsum_0 (held k)); [done|..].
      * unfold demo_db. cbn [reservations]. intros id r H. unfold held.
        assert (r_key r = demo_key) as ->.
        { apply lookup_insert_Some in H as [[<- <-]|[_ [<- <-]%lookup_singleton_Some]]; done. }
        rewrite (bool_decide_false (demo_key = k)) by congruence. by rewrite andb_false_r.
      * unfold demo_db. cbn [movements]. intros id m [<- <-]%lookup_singleton_Some. unfold moved. simpl.
        by rewrite bool_decide_false by congruence.
Qed.

(** The same with the places of its key. *)
Definition demo_places : InvDb :=
  set_warehouses {["w1" := mkWarehouse "w1" "WH-1" "Main" None None true]}
    (set_locations {["l1" := mkLocation "l1" "w1" "A-1" None None None None None None true]} demo_db).

Lemma demo_places_inv : inv demo_places.
Proof. apply (inv_same_stock demo_db); [apply demo_inv|by unfold same_stock]. Qed.

Definition demo_reserve : ReserveStockCommand :=
  mkReserve demo_key demo_ctx (Some "o2") (Int 5) 99 None (Some "k1").
Definition demo_receipt : ChangeStockCommand :=
  mkChange demo_key demo_ctx (Int 4) RECEIPT None None None (Some "k2") None.
(** The state and response of a command that succeeds. *)
Definition after (past : InvDb) (cmd : Command) (db : InvDb) : Response * InvDb :=
  match execute demo_cuid past cmd db with Ok r => r | Err _ => (RCount 0, db) end.

Lemma demo_unique : keys_unique demo_db.
Proof.
  intros key. unfold demo_db. cbn [movements reservations]. split.
  - intros i1 i2 m1 m2 [<- <-]%lookup_singleton_Some [<- <-]%lookup_singleton_Some. done.
  - intros i1 i2 r1 r2 H1 H2 P1 P2. exfalso.
    apply lookup_insert_Some in H1 as [[_ <-]|[_ [_ <-]%lookup_singleton_Some]];
      unfold r_has in P1; by apply bool_decide_eq_true in P1.
Qed.

(** * Refinement *)

(** [C5] Every inventory command implements the abstract stock machine.  Run in a
    state that satisfies the invariant, with its preliminary reads made at any
    earlier moment, a successful command takes exactly the abstract steps of
    [events]: a stock change of its delta, one hold, one drop, one shipment, one
    per active reservation of the order, one per candidate still due, or one stock
    change per item of a dispatched or received transfer, and none when it replays; it keeps the invariant, rewrites no movement, audit row or
    finished reservation, and answers with the row or the count of those steps. *)
Theorem inventory_refines_stock_machine (cuid : nat -> string) past cmd db resp db' :
  inv past -> evolves past db -> inv db ->
  execute cuid past cmd db = Ok (resp, db') ->
  inv db' /\ evolves db db' /\
  asteps (events past cmd db resp) (abs db) (abs db') /\
  response_ok past cmd db db' resp.
Proof.
  intros Hp He Hi H. destruct (execute_implements _ _ _ _ _ _ Hp He Hi H) as [(H1 & H2 & H3) H4]. done.
Qed.

Lemma inventory_refines_stock_machine_witness :
  match execute demo_cuid demo_db (CmdReserve demo_reserve) demo_db with
  | Ok (resp, db') =>
      asteps (events demo_db (CmdReserve demo_reserve) demo_db resp) (abs demo_db) (abs db')
  | Err _ => False
  end.
Proof.
  destruct (execute demo_cuid demo_db (CmdReserve demo_reserve) demo_db) as [[resp db']|e] eqn:E;
    [|by vm_compute in E].
  by destruct (inventory_refines_stock_machine demo_cuid demo_db (CmdReserve demo_reserve) demo_db
    resp db' demo_inv ltac:(reflexivity) demo_inv E) as (_ & _ & H & _).
Defined.

(** [C4] Stock is never oversold.  In every state of every history of commands, the
    balance row of each stock key holds exactly the sum of its movements, the sum of
    its active reservations and their difference, and that difference is never
    negative; the whole history is a run of the abstract machine. *)
Theorem stock_never_oversold (cuid : nat -> string) db0 dbs es db :
  inv db0 -> history cuid db0 dbs es -> db ∈ dbs ->
  (forall k, level k db = (moved_at k db, held_at k db, moved_at k db - held_at k db)%Z /\
             (0 <= held_at k db <= moved_at k db)%Z) /\
  (forall k, onHand (abs db) k = moved_at k db) /\
  (exists last, head dbs = Some last /\ asteps es (abs db0) (abs last)).
Proof.
  intros Hinv0 H Hin. destruct (history_sound _ _ _ _ Hinv0 H) as (last & dbs' & -> & _ & _ & Hall & Hsteps).
  destruct (Hall db Hin) as [[Hwf Hl] _]. split; [|split].
  - intros k. destruct (Hl k) as [-> Hle]. pose proof (held_at_nonneg k db Hwf). split; [done|lia].
  - intros k. cbn [abs onHand]. by destruct (Hl k) as [-> _].
  - by exists last.
Qed.

(** A reservation, and then the consumption of another order. *)
Definition demo_out1 := after demo_db (CmdReserve demo_reserve) demo_db.
Definition demo_out2 := after demo_db (CmdConsumeOrder "o1" demo_ctx) (snd demo_out1).
Definition demo_states : list InvDb := [snd demo_out2; snd demo_out1; demo_db].
Definition demo_events : list event :=
  ([] ++ events demo_db (CmdReserve demo_reserve) demo_db (fst demo_out1)) ++
  events demo_db (CmdConsumeOrder "o1" demo_ctx) (snd demo_out1) (fst demo_out2).

Lemma demo_history : history demo_cuid demo_db demo_states demo_events.
Proof.
  apply history_commit; [|set_solver|by vm_compute].
  apply history_commit; [apply history_start|set_solver|by vm_compute].
Qed.

Lemma stock_never_oversold_witness :
  demo_events = [EHold "c0" demo_key 5; EShip "r2"] /\
  Forall (fun db => level demo_key db =
    (moved_at demo_key db, held_at demo_key db, moved_at demo_key db - held_at demo_key db)%Z) demo_states.
Proof.
  split; [by vm_compute|]. apply Forall_forall. intros db Hin.
  apply (stock_never_oversold demo_cuid demo_db demo_states _ db demo_inv demo_history Hin).
Defined.

(** [C6] A reservation is settled at most once: in any history, whatever commands
    release, consume or expire it and however often, at most one of them drops or
    ships its hold, and when one did the reservation is no longer active. *)
Theorem reservation_settled_once (cuid : nat -> string) db0 db dbs es id :
  inv db0 -> history cuid db0 (db :: dbs) es ->
  count (settles id) es <= 1 /\
  (count (settles id) es = 1 -> is_active id db = false).
Proof.
  intros Hinv0 H. pose proof (history_starts _ _ _ _ _ id Hinv0 H) as Hst.
  destruct (history_sound _ _ _ _ Hinv0 H) as (d & ds & [= <- <-] & _ & _ & _ & Hsteps).
  apply (asteps_settles id) in Hsteps.
  assert (Hb : forall s, has_hold id s <= 1) by (intros s; unfold has_hold; destruct (holds s !! id); simpl; lia).
  assert (H0 : count (starts id) es + has_hold id (abs db0) <= 1).
  { destruct Hst as [->|(-> & Hn & _)]; [apply Hb|]. unfold has_hold. by rewrite abs_no_hold. }
  split; [lia|]. intros Hone. assert (Hno : has_hold id (abs db) = 0) by lia.
  unfold is_active. destruct (reservations db !! id) as [r|] eqn:E; [|done]. simpl.
  apply bool_decide_eq_false. intros Hs. unfold has_hold in Hno. by rewrite (abs_hold db id r) in Hno.
Qed.

Lemma reservation_settled_once_witness :
  count (settles "r2") demo_events = 1 /\ is_active "r2" (hd demo_db demo_states) = false.
Proof.
  assert (H1 : count (settles "r2") demo_events = 1) by (by vm_compute). split; [exact H1|].
  by apply (reservation_settled_once demo_cuid demo_db (hd demo_db demo_states) (tl demo_states)
    demo_events "r2" demo_inv demo_history).
Defined.

(** * The public commands *)

Lemma change_tx_execute cuid c past db1 m db' :
  begin_tx (changeOnHandIn cuid c) db1 = Ok (m, db') ->
  execute cuid past (CmdChange c) db1 = Ok (RMovement m, db').
Proof. intros H. simpl. erewrite bind_run; [|exact H]. done. Qed.

Lemma reserve_tx_execute cuid c past db1 r db' :
  begin_tx (reserveIn cuid c) db1 = Ok (r, db') ->
  execute cuid past (CmdReserve c) db1 = Ok (RReservation r, db').
Proof. intros H. simpl. erewrite bind_run; [|exact H]. done. Qed.

Lemma expire_tx_execute cuid ctx now batch past db1 n db' :
  begin_tx (expire_tx ctx now
    (expiry_candidates now (clampInt batch 1 100 EXPIRY_BATCH_SIZE) past)) db1 = Ok (n, db') ->
  execute cuid past (CmdExpire ctx now batch) db1 = Ok (RCount n, db').
Proof. intros H. simpl. erewrite bind_run; [|exact H]. done. Qed.

Lemma create_tx_execute cuid uuid c past db1 t db' :
  transfer_precheck c = Ok tt -> begin_tx (createTransfer_tx cuid uuid c) db1 = Ok (t, db') ->
  execute cuid past (CmdCreateTransfer uuid c) db1 = Ok (RTransfer t, db').
Proof.
  intros Hp H. simpl. rewrite Hp. erewrite bind_run; [|reflexivity]. erewrite bind_run; [|exact H]. done.
Qed.

Lemma transfer_tx_execute cuid a id ctx past db1 t db' :
  assertTracked (tc_context ctx) = Ok tt -> begin_tx (transitionTransfer_tx cuid a id ctx) db1 = Ok (t, db') ->
  execute cuid past (CmdTransfer a id ctx) db1 = Ok (RTransfer t, db').
Proof.
  intros Hp H. simpl. rewrite Hp. erewrite bind_run; [|reflexivity]. erewrite bind_run; [|exact H]. done.
Qed.

(** [C7] The public stock commands are safe among other clients.  Whatever the other
    clients commit between the reads, the attempts and the retries, as long as they
    keep the invariant, [changeOnHand], [reserve], [releaseReservation],
    [consumeReservation], [expireReservations] and the transfer commands end in a
    state that satisfies the invariant and evolved from the first; a success is one
    committed run of the transaction, and an error leaves nothing of it behind. *)
Theorem public_commands_safe (cuid : nat -> string) (E : env InvDb) db :
  rely E -> inv db ->
  (forall c, public_outcome cuid E (CmdChange c) db (respond RMovement (changeOnHand cuid E c db))) /\
  (forall c, public_outcome cuid E (CmdReserve c) db (respond RReservation (reserve cuid E c db))) /\
  (forall rid ctx v now0 now1,
     public_outcome cuid E (CmdRelease rid ctx v now0 now1) db
       (respond RReservation (releaseReservation E rid ctx v now0 now1 db)) /\
     public_outcome cuid E (CmdConsume rid ctx v now0 now1) db
       (respond RReservation (consumeReservation cuid E rid ctx v now0 now1 db))) /\
  (forall ctx now batch,
     expiry_candidates now (clampInt batch 1 100 EXPIRY_BATCH_SIZE) db <> [] ->
     public_outcome cuid E (CmdExpire ctx now batch) db
       (respond RCount (expireReservations E ctx now batch db))) /\
  (forall uuid c, public_outcome cuid E (CmdCreateTransfer uuid c) db
     (respond RTransfer (createTransfer cuid E uuid c db))) /\
  (forall a id ctx, public_outcome cuid E (CmdTransfer a id ctx) db
     (respond RTransfer (transitionTransfer cuid E a id ctx db))).
Proof.
  intros HE Hinv. split; [|split; [|split; [|split; [|split]]]].
  - intros c. unfold changeOnHand. destruct (_ ;; _) as [u|e]; [|by apply public_err].
    apply public_retry; [done..|]. intros. by apply change_tx_execute.
  - intros c. unfold reserve. destruct (_ ;; _) as [u|e]; [|by apply public_err].
    apply public_retry; [done..|]. intros. by apply reserve_tx_execute.
  - intros rid ctx v now0 now1. unfold releaseReservation, consumeReservation, transitionReservation.
    split; destruct (transition_precheck rid ctx now0 db) as [[r bid]|e] eqn:E1;
      try (by apply public_err); (apply public_retry; [done..|]);
      intros db1 a db' H; simpl; unfold lift_result; rewrite E1; erewrite bind_run; try reflexivity;
      cbn [fst snd]; erewrite bind_run; [done|exact H|done|exact H].
  - intros ctx now batch Hne. unfold expireReservations. destruct (assertTracked ctx); [|by apply public_err].
    rewrite bool_decide_false by done. apply public_retry; [done..|]. intros. by apply expire_tx_execute.
  - intros uuid c. unfold createTransfer. destruct (transfer_precheck c) as [[]|e] eqn:Ep; [|by apply public_err].
    apply public_retry; [done..|]. intros. by apply create_tx_execute.
  - intros a id ctx. unfold transitionTransfer. destruct (assertTracked _) as [[]|e] eqn:Ep; [|by apply public_err].
    apply public_retry; [done..|]. intros. by apply transfer_tx_execute.
Qed.

(** Another client reserves before the first attempt, which the database aborts. *)
Definition demo_others (k : nat) (db : InvDb) : InvDb :=
  if bool_decide (k = 0) then snd (after demo_db (CmdReserve demo_reserve) db) else db.
Definition demo_env : env InvDb := mkEnv demo_others
  (fun k => if bool_decide (k = 0) then Some (PrismaClientKnownRequestError "P2034" None) else None).

Lemma demo_rely : rely demo_env.
Proof.
  intros k db Hinv. cbn [demo_env others]. unfold demo_others. case_bool_decide; [|by split].
  unfold after. destruct (execute demo_cuid demo_db (CmdReserve demo_reserve) db) as [[resp db']|e] eqn:Ex;
    [|by split]. cbn [snd].
  destruct (execute_reserve demo_cuid demo_db demo_reserve db resp db' Hinv Ex) as [(H1 & H2 & _) _]. by split.
Qed.

Lemma public_commands_safe_witness :
  is_ok (fst (changeOnHand demo_cuid demo_env demo_receipt demo_db)) = true /\
  inv (snd (respond RMovement (changeOnHand demo_cuid demo_env demo_receipt demo_db))).
Proof.
  split; [by vm_compute|].
  destruct (public_commands_safe demo_cuid demo_env demo_db demo_rely demo_inv) as [H _].
  destruct (H demo_receipt) as [Hi _]. exact Hi.
Defined.
