(* ===== verification/InventoryQueryProofs.v ===== *)
(** The read side of the inventory: listings reach every row once, up to the largest
    offset the service accepts, and public availability tells exactly whether stock can
    be reserved. *)

From S2P Require Import Prelude Table Paging Json StableJson AuditTrail Retry InventoryModel Inventory InventoryQueries.
From S2P Require Import InventoryLedger InventoryProofs InventoryProperties.

(** * Listings *)

(** A listing as a function of the page: its items at an offset for a given limit. *)
Definition snapshots_at collate (q : SnapshotQuery) (db : InvDb) scan (limit offset : Z) : list InventorySnapshotDto :=
  fst (getSnapshots collate scan (mkSnapshotQuery (sq_warehouseId q) (sq_locationId q) (sq_variantId q)
    (Some (Int limit)) (Some (Int offset))) db).
Definition movements_at collate (q : MovementQuery) (db : InvDb) scan (limit offset : Z) : list InventoryMovementDto :=
  fst (getMovements collate scan (mkMovementQuery (mq_warehouseId q) (mq_locationId q) (mq_variantId q) (mq_type q)
    (Some (Int limit)) (Some (Int offset))) db).
Definition transfers_at collate (q : TransferQuery) (db : InvDb) scan (limit offset : Z) : list TransferDto :=
  fst (getTransfers collate scan (mkTransferQuery (tq_status q) (tq_sourceWarehouseId q) (tq_targetWarehouseId q)
    (Some (Int limit)) (Some (Int offset))) db).
Definition reservations_at collate (q : ReservationQuery) (db : InvDb) scan (limit offset : Z) : list ReservationContract :=
  fst (getReservations collate scan (mkReservationQuery (rq_warehouseId q) (rq_variantId q) (rq_status q)
    (Some (Int limit)) (Some (Int offset))) db).
Definition warehouses_at collate (q : WarehouseQuery) (db : InvDb) scan (limit offset : Z) : list Warehouse :=
  fst (listWarehouses collate scan (mkWarehouseQuery (wq_isActive q) (wq_isInactive q) (Some (Int limit)) (Some (Int offset))) db).
Definition locations_at collate w (q : WarehouseQuery) (db : InvDb) scan (limit offset : Z) : list WarehouseLocation :=
  fst (listLocations collate scan w
    (mkWarehouseQuery (wq_isActive q) (wq_isInactive q) (Some (Int limit)) (Some (Int offset))) db).

(** What reading page after page gives, when every page reads the rows in an order of its
    own: the rows of the filter in one strict order, each once, in [n] pages that cover the
    count while the start of the last one is an accepted offset; offsets past the largest
    repeat its page. *)
Definition listing_complete {R B} (dto : R -> B) (cmp : R -> R -> Z) (P : R -> bool) (t : gmap string R)
    (at_ : (list R -> list R) -> Z -> Z -> list B) (count : (list R -> list R) -> Z) : Prop :=
  exists found, StronglySorted (fun a b => cmp a b < 0)%Z found /\
    (forall r, r ∈ found <-> (exists k, t !! k = Some r) /\ P r = true) /\ (forall scan, count scan = Z.of_nat (length found)) /\
    forall limit n (scans : Z -> list R -> list R), (1 <= limit <= 100)%Z -> (forall o l, scans o l ≡ₚ l) ->
      ((Z.of_nat (length found) <= Z.of_nat n * limit)%Z -> ((Z.of_nat n - 1) * limit <= MAX_OFFSET)%Z ->
         walk (fun o => at_ (scans o) limit o) limit n 0 = dto <$> found) /\
      (forall offset, (MAX_OFFSET <= offset)%Z -> at_ (scans offset) limit offset = at_ (scans MAX_OFFSET) limit MAX_OFFSET).

Lemma query_limit_in limit : (1 <= limit <= 100)%Z -> query_limit (Some (Int limit)) = limit.
Proof. unfold query_limit. simpl. lia. Qed.
Lemma query_offset_in offset : (0 <= offset <= MAX_OFFSET)%Z -> query_offset (Some (Int offset)) = offset.
Proof. unfold query_offset. simpl. lia. Qed.
Lemma query_offset_cap offset : (MAX_OFFSET <= offset)%Z -> query_offset (Some (Int offset)) = MAX_OFFSET.
Proof. unfold query_offset. simpl. unfold MAX_OFFSET. lia. Qed.

(** A listing is complete when no two of its rows share a place in its order. *)
Lemma listing_complete_page {R B} (dto : R -> B) cmp `{!Comparator cmp} P id (t : gmap string R) at_ count : keyed id t ->
  (forall a b, a ∈ find_many P t -> b ∈ find_many P t -> cmp a b = 0%Z -> id a = id b) ->
  (forall scan limit offset, at_ scan limit offset =
     dto <$> fst (list_page scan cmp P (query_offset (Some (Int offset))) (query_limit (Some (Int limit))) t)) ->
  (forall scan, count scan = count_rows P t) -> listing_complete dto cmp P t at_ count.
Proof.
  intros Hid Hdec Hat Hcount. assert (Hsame : forall a b, a ∈ find_many P t -> b ∈ find_many P t -> cmp a b = 0%Z -> a = b).
  { intros a b Ha Hb E. apply Hdec in E; [|done..]. apply elem_of_find_many in Ha as [[k Ha] _], Hb as [[k' Hb] _].
    pose proof (Hid _ _ Ha). pose proof (Hid _ _ Hb). congruence. }
  assert (Hpage : forall scan o l, (forall x, scan x ≡ₚ x) -> fst (list_page scan cmp P o l t) = page o l (find_sorted cmp P t)).
  { intros scan o l Hs. unfold list_page. cbn [fst]. by rewrite (sorted_scan cmp P t Hsame (scan _) (Hs _)). }
  exists (find_sorted cmp P t). split; [exact (find_sorted_strict cmp P t Hsame id Hid)|]. split; [intros r; apply elem_of_find_sorted|].
  assert (Hlen : Z.of_nat (length (find_sorted cmp P t)) = count_rows P t) by (by rewrite find_sorted_Permutation).
  split; [intros scan; by rewrite Hcount|]. intros limit n scans Hl Hscans. split.
  - intros Hc Hn. rewrite (walk_ext _ (fun o => dto <$> page o limit (find_sorted cmp P t))).
    + by apply walk_complete; [lia|].
    + intros i Hi. rewrite Hat, query_limit_in, query_offset_in by (try split; nia). by rewrite Hpage.
  - intros offset Ho. by rewrite !Hat, !query_offset_cap, !Hpage by (lia || done).
Qed.

#[local] Typeclasses Opaque newest by_stock_key.
#[export] Instance newest_cmp {R} collate (createdAt : R -> Z) (id : R -> string) : Comparator collate -> Comparator (newest collate createdAt id).
Proof. intros H. unfold newest. apply _. Qed.
#[export] Instance by_stock_key_cmp collate : Comparator collate -> Comparator (by_stock_key collate).
Proof. intros H. change (Comparator (then_by (by_text collate (fun b => warehouseId (b_key b)))
  (then_by (by_text collate (fun b => locationId (b_key b))) (by_text collate (fun b => variantId (b_key b)))))). apply _. Qed.
#[export] Instance byCodeUnit_collation : Collation byCodeUnit.
Proof.
  assert (Hle : forall a b, (byCodeUnit a b <= 0)%Z <-> js_ltb b a = false).
  { intros a b. unfold byCodeUnit. pose proof (js_ltb_antisym a b). destruct (js_ltb a b), (js_ltb b a); intuition (congruence || lia). }
  split; [split|].
  - intros a b. rewrite Hle. unfold byCodeUnit. pose proof (js_ltb_antisym b a). destruct (js_ltb b a), (js_ltb a b); intuition (congruence || lia).
  - intros a b c. rewrite !Hle. intros H1 H2. destruct (js_ltb c a) eqn:E; [|done].
    destruct (js_ltb_total a b) as [H|[->|H]]; [|congruence|congruence]. by rewrite (js_ltb_trans c a b E H) in H2.
  - intros a b. unfold byCodeUnit. destruct (js_ltb_total a b) as [-> | [->|H]]; [done|done|]. rewrite H. by destruct (js_ltb a b).
Qed.

(** * Availability *)

(** What every place holds available of a variant. *)
Definition available_of (v : string) (db : InvDb) : Z :=
  tsum (fun b => if bool_decide (variantId (b_key b) = v) then b_available b else 0%Z) (balances db).

Lemma totals_sum v bs totals :
  total_of v (foldl add_available totals bs) =
  (total_of v totals + sumZ (fun b => if bool_decide (variantId (b_key b) = v) then b_available b else 0%Z) bs)%Z.
Proof.
  revert totals. induction bs as [|b bs IH]; intros totals; simpl; [lia|]. rewrite IH. unfold add_available, total_of.
  case_bool_decide as E; [subst v; rewrite lookup_insert_eq; simpl; lia|]. rewrite lookup_insert_ne by done. lia.
Qed.

Lemma totals_found (active : list string) v db : v ∈ active ->
  total_of v (foldl add_available ∅
    (find_many (fun b => bool_decide (variantId (b_key b) ∈ active)) (balances db))) = available_of v db.
Proof.
  intros Hv. rewrite totals_sum, sumZ_find_many. unfold total_of. rewrite lookup_empty. simpl. apply tsum_ext.
  intros k b _. case_bool_decide as Hb; [done|]. case_bool_decide as E; [|done]. by subst v.
Qed.

Lemma row_free id b db : inv db -> balances db !! id = Some b -> b_available b = free (b_key b) (abs db).
Proof.
  intros Hinv Hb. apply (row_cols (b_key b) db b Hinv). apply find_balance_Some; [apply Hinv|].
  split; [|done]. destruct Hinv as [(Hid & _) _]. by rewrite (Hid _ _ Hb).
Qed.

(** Under the invariant some stock of a variant is available exactly when a place has
    free stock of it on the abstract stock machine. *)
Lemma available_of_positive v db : inv db ->
  (0 < available_of v db)%Z <-> exists k, variantId k = v /\ (0 < free k (abs db))%Z.
Proof.
  intros Hinv.
  assert (Hpos : forall id b, balances db !! id = Some b ->
    (0 <= if bool_decide (variantId (b_key b) = v) then b_available b else 0)%Z).
  { intros id b Hb. case_bool_decide; [|lia]. rewrite (row_free id b db Hinv Hb), free_avail by done.
    destruct (proj2 Hinv (b_key b)) as [-> H1]. done. }
  unfold available_of. split.
  - intros Hsum.
    destruct (find_by (fun b => bool_decide (variantId (b_key b) = v) && (0 <? b_available b)%Z) (balances db))
      as [b|] eqn:Hf.
    + apply find_by_Some in Hf as [[id Hb] [Hv Hp]%andb_prop]. apply bool_decide_eq_true in Hv.
      exists (b_key b). rewrite <- (row_free id b db Hinv Hb). split; [done|lia].
    + rewrite find_by_None in Hf. rewrite tsum_0 in Hsum; [lia|]. intros id b Hb. specialize (Hf id b Hb).
      specialize (Hpos id b Hb). case_bool_decide; [|done]. simpl in Hf. lia.
  - intros (k & Hv & Hf). rewrite free_avail in Hf by done.
    destruct (find_balance k db) as [b|] eqn:Hb; [|by rewrite level_none in Hf].
    apply find_balance_Some in Hb as [Hb Hk]; [|apply Hinv]. pose proof (tsum_ge _ _ _ _ Hpos Hb) as Hge.
    cbn beta in Hge. rewrite bool_decide_true in Hge by congruence.
    rewrite (row_free _ b db Hinv Hb), Hk, free_avail in Hge by done. lia.
Qed.

Lemma availability_ids variantIds db : (getPublicAvailability variantIds db).*1 = take 100 (unique variantIds).
Proof.
  unfold getPublicAvailability. case_bool_decide as E; [by rewrite E|]. rewrite <- list_fmap_compose.
  apply list_fmap_id.
Qed.

Lemma availability_status variantIds db v s : (v, s) ∈ getPublicAvailability variantIds db ->
  s = if bool_decide (variants db !! v = Some true) then stock_status (available_of v db) else UNKNOWN.
Proof.
  unfold getPublicAvailability. set (ids := take 100 _). set (active := List.filter _ ids).
  case_bool_decide as E; [by intros ?%elem_of_nil|]. intros (v' & [= -> ->] & Hv)%list_elem_of_fmap.
  assert (Hact : v' ∈ active <-> variants db !! v' = Some true).
  { unfold active. rewrite list_elem_of_In, filter_In, <- list_elem_of_In.
    destruct (variants db !! v') as [[]|]; naive_solver. }
  case_bool_decide as Ha; [rewrite bool_decide_true by tauto; by rewrite totals_found|].
  by rewrite bool_decide_false by tauto.
Qed.

Lemma stock_status_out n : stock_status n = OUT_OF_STOCK <-> (n <= 0)%Z.
Proof. unfold stock_status. destruct (Z.leb_spec n 0); [done|]. destruct (n <=? 5)%Z; split; [done|lia|done|lia]. Qed.

(** * Places *)

(** Identifiers are unique, codes of warehouses trimmed and unique, codes of locations unique
    in their warehouse, and a location belongs to a warehouse. *)
Definition places_ok (db : InvDb) : Prop :=
  (forall id w, warehouses db !! id = Some w -> w_id w = id /\ trim (w_code w) = w_code w /\ truthy (w_code w) = true) /\
  (forall code, unique_on (fun w => bool_decide (w_code w = code)) (warehouses db)) /\
  (forall id l, locations db !! id = Some l -> l_id l = id /\ is_Some (warehouses db !! l_warehouseId l)) /\
  (forall warehouse code, unique_on (fun l => bool_decide (l_warehouseId l = warehouse) && bool_decide (l_code l = code))
     (locations db)).

Inductive PlaceCommand :=
  | CreateWarehouse (c : WarehouseCreateCommand)
  | UpdateWarehouse (id : string) (c : WarehouseUpdateCommand)
  | CreateLocation (warehouse : string) (c : LocationCreateCommand)
  | UpdateLocation (id : string) (c : LocationUpdateCommand).

(** What a place command does to the tables of places. *)
Definition place_effect (cmd : PlaceCommand) (db db' : InvDb) : Prop :=
  match cmd with
  | CreateWarehouse c => exists id, warehouses db !! id = None /\
      (forall id' w, warehouses db !! id' = Some w -> w_code w <> trim (wc_code c)) /\
      warehouses db' = <[id := mkWarehouse id (trim (wc_code c)) (trim (wc_name c)) (wc_city c) (wc_address c) true]>
        (warehouses db) /\ locations db' = locations db
  | UpdateWarehouse id c => exists w, warehouses db !! id = Some w /\
      warehouses db' = <[id := update_warehouse c w]> (warehouses db) /\ locations db' = locations db
  | CreateLocation warehouse c => exists id, locations db !! id = None /\ is_Some (warehouses db !! warehouse) /\
      (forall id' l, locations db !! id' = Some l -> l_warehouseId l = warehouse -> l_code l <> lc_code c) /\
      locations db' = <[id := mkLocation id warehouse (lc_code c) (lc_name c) (lc_zone c) (lc_aisle c) (lc_rack c)
        (lc_shelf c) (lc_bin c) true]> (locations db) /\ warehouses db' = warehouses db
  | UpdateLocation id c => exists l, locations db !! id = Some l /\
      locations db' = <[id := update_location c l]> (locations db) /\ warehouses db' = warehouses db
  end.

Section places.
Context (cuid : nat -> string).

Definition place_tx (cmd : PlaceCommand) : M InvDb unit :=
  match cmd with
  | CreateWarehouse c => _ ← createWarehouse_tx cuid c; mret tt
  | UpdateWarehouse id c => _ ← updateWarehouse_tx id c; mret tt
  | CreateLocation warehouse c => _ ← createLocation_tx cuid warehouse c; mret tt
  | UpdateLocation id c => _ ← updateLocation_tx id c; mret tt
  end.

Lemma none_found {R} (P : R -> bool) (t : gmap string R) :
  bool_decide (is_Some (find_by P t)) = false -> forall k r, t !! k = Some r -> P r = false.
Proof. intros H%bool_decide_eq_false%eq_None_not_Some. by apply find_by_None. Qed.

Lemma place_tx_effect cmd db u db' :
  place_tx cmd db = Ok (u, db') ->
  place_effect cmd db db' /\ same_stock db db' /\ exists row, audits db' = audits db ++ [row].
Proof.
  intros H. destruct cmd as [c|id c|w c|id c]; cbn [place_tx] in H;
    unfold createWarehouse_tx, updateWarehouse_tx, createLocation_tx, updateLocation_tx, fresh_id in H; run_inv;
    simplify_eq/=;
    match goal with H : record _ _ = _ |- _ => apply record_ok in H as [= _ ->] end;
    (split; [|split; [|by eexists]]; [|unfold same_stock; split_and!; [done..|by eexists]]);
    repeat match goal with
    | H : bool_decide (is_Some (_ !! _)) = false |- _ => apply bool_decide_eq_false in H; apply eq_None_not_Some in H
    | H : bool_decide (is_Some _) = false |- _ => pose proof (none_found _ _ H); clear H
    end; cbn [place_effect]; eexists; try (by split_and!).
  - split_and!; [done| |done..]. intros id' w Hw. eapply bool_decide_eq_false, H. exact Hw.
  - split_and!; [done|by eexists| |done..]. intros id' l Hl1 Hl2 Hl3. eapply H in Hl1.
    by rewrite !bool_decide_true in Hl1.
Qed.

Lemma place_tx_run {A} (m : M InvDb A) db a db' : m db = Ok (a, db') -> (_ ← m; mret tt) db = Ok (tt, db').
Proof. intros H. by erewrite bind_run by exact H. Qed.

Lemma place_effect_ok cmd db db' :
  (forall c, cmd = CreateWarehouse c -> truthy (trim (wc_code c)) = true) ->
  place_effect cmd db db' -> places_ok db -> places_ok db'.
Proof.
  intros Hcode H (Hw & Huw & Hl & Hul). destruct cmd as [c|id c|w c|id c]; cbn [place_effect] in H.
  - destruct H as (id & Hid & Hnew & HW & HL). unfold places_ok. rewrite HW, HL. split_and!; [| | |done].
    + intros id' w [[<- <-]|[_ Hr]]%lookup_insert_Some; [|by eapply Hw].
      cbn [w_id w_code]. split; [done|]. split; [apply trim_idem|by apply Hcode].
    + intros code. apply unique_on_insert; [done..|]. cbn [w_code]. intros <-%bool_decide_eq_true. apply find_by_None.
      intros k r Hr. apply bool_decide_eq_false. by eapply Hnew.
    + intros id' l Hr. destruct (Hl _ _ Hr) as [H1 H2]. split; [done|]. by apply lookup_insert_is_Some'; right.
  - destruct H as (w & Hid & HW & HL). unfold places_ok. rewrite HW, HL. split_and!; [| | |done].
    + intros id' w' [[<- <-]|[_ Hr]]%lookup_insert_Some; [|by eapply Hw]. simpl. by eapply Hw.
    + intros code. by eapply unique_on_update.
    + intros id' l Hr. destruct (Hl _ _ Hr) as [H1 H2]. split; [done|]. by apply lookup_insert_is_Some'; right.
  - destruct H as (id & Hid & Hex & Hnew & HL & HW). unfold places_ok. rewrite HW, HL. split_and!; [done..| |].
    + intros id' l [[<- <-]|[_ Hr]]%lookup_insert_Some; [done|by eapply Hl].
    + intros w' code. apply unique_on_insert; [done..|]. simpl.
      intros [<-%bool_decide_eq_true <-%bool_decide_eq_true]%andb_prop. apply find_by_None. intros k r Hr.
      apply andb_false_iff. destruct (decide (l_warehouseId r = w)); [right|left]; apply bool_decide_eq_false; [|done].
      by eapply Hnew.
  - destruct H as (l & Hid & HL & HW). unfold places_ok. rewrite HW, HL. split_and!; [done..| |].
    + intros id' l' [[<- <-]|[_ Hr]]%lookup_insert_Some; [|by eapply Hl]. simpl. by eapply Hl.
    + intros w' code. by eapply unique_on_update.
Qed.

(** ** Among other clients *)

Definition place_rely (E : env InvDb) : Prop :=
  forall k db, inv db -> places_ok db ->
  inv (others E k db) /\ places_ok (others E k db) /\ evolves db (others E k db).

(** The public command: one commit of its effect and one audit row on a state that
    other clients left, or an error without effect. *)
Definition place_outcome {A} (E : env InvDb) (cmd : PlaceCommand) (db : InvDb) (out : result A * InvDb) : Prop :=
  inv (snd out) /\ places_ok (snd out) /\ evolves db (snd out) /\
  exists j, j <= 3 /\ let db1 := drift E 0 j db in
    match fst out with
    | Ok _ => place_effect cmd db1 (snd out) /\ same_stock db1 (snd out) /\
        exists row, audits (snd out) = audits db1 ++ [row]
    | Err _ => snd out = db1
    end.

Section public.
Context (E : env InvDb).
Hypothesis HE : place_rely E.

Lemma drift_places k n db :
  inv db -> places_ok db -> inv (drift E k n db) /\ places_ok (drift E k n db) /\ evolves db (drift E k n db).
Proof using HE.
  revert k db. induction n as [|n IH]; intros k db Hi Hp; simpl; [done|].
  destruct (HE k db Hi Hp) as (H1 & H2 & H3). destruct (IH (S k) _ H1 H2) as (H4 & H5 & H6). split_and!; [done..|by etrans].
Qed.

Lemma place_err {A} cmd db e : inv db -> places_ok db -> place_outcome (A := A) E cmd db (Err e, db).
Proof. intros Hi Hp. unfold place_outcome. split_and!; [done..|]. exists 0. split; [lia|done]. Qed.

Lemma place_retry {A} cmd (m : M InvDb A) db :
  (forall c, cmd = CreateWarehouse c -> truthy (trim (wc_code c)) = true) ->
  (forall db1 a db', m db1 = Ok (a, db') -> place_tx cmd db1 = Ok (tt, db')) -> inv db -> places_ok db ->
  place_outcome E cmd db (inventory_withSerializableRetry E (begin_tx m) db).
Proof using HE.
  intros Hcode Hm Hi Hp. unfold inventory_withSerializableRetry, place_outcome.
  destruct (retry_loop_spec E isPrismaTransactionConflict stock_conflict (begin_tx m)
    (Z.to_nat SERIALIZABLE_RETRIES) 0 db) as (j & Hj & Hout); [unfold SERIALIZABLE_RETRIES; lia|].
  destruct (drift_places 0 (S j) db Hi Hp) as (H1 & H2 & H3).
  assert (Hj3 : S j <= 3) by (unfold SERIALIZABLE_RETRIES in Hj; lia).
  destruct (retry_loop _ _ _ _ _ _ _) as [[a|e] db']; cbn [fst snd].
  - destruct Hout as [_ Hout]. apply begin_tx_ok, Hm, place_tx_effect in Hout as (He & Hs & Ha).
    assert (Hp' : places_ok db') by exact (place_effect_ok cmd _ db' Hcode He H2).
    destruct (same_stock_refines (drift E 0 (S j) db) db' H1 Hs) as (Hi' & Hev & _).
    split_and!; [done..|by etrans|]. by exists (S j).
  - subst db'. split_and!; [done..|]. by exists (S j).
Qed.
End public.
End places.

(** * The properties *)

(** The rows of the listed tables stand under their identifiers; keys of balances and codes
    of places are unique. *)
Record listed (db : InvDb) : Prop := {
  li_stock : inv db;
  li_places : places_ok db;
  li_movements : keyed m_id (movements db);
  li_transfers : keyed t_id (transfers db)
}.

Lemma newest_decides {R} collate `{!Collation collate} (createdAt : R -> Z) (id : R -> string) a b :
  newest collate createdAt id a b = 0%Z -> id a = id b.
Proof. intros [_ H]%then_by_eq. by apply (by_text_eq collate) in H. Qed.

(** [C35] Reading a listing page after page reaches every row.  The database may read the rows
    in another order for every page, and leaves rows that compare equal in it; the texts
    are ordered by a collation that tells different texts apart.  While nothing is written
    between the pages, balances, movements, transfers, reservations, warehouses and the
    locations of a warehouse come in one strict order, each row of the filter once, in [n]
    pages of a limit between 1 and 100 that cover the count which the listing reports, as
    long as the last page starts within the largest accepted offset; past that offset every
    request repeats the same page. *)
Theorem listings_reach_every_row collate db : Collation collate -> listed db ->
  (forall q, listing_complete toSnapshotDto (by_stock_key collate) (snapshot_where q) (balances db) (snapshots_at collate q db)
     (fun scan => snd (getSnapshots collate scan q db))) /\
  (forall q, listing_complete toMovementDto (newest collate m_createdAt m_id) (movement_where q) (movements db) (movements_at collate q db)
     (fun scan => snd (getMovements collate scan q db))) /\
  (forall q, listing_complete toTransferDto (newest collate t_createdAt t_id) (transfer_where q) (transfers db) (transfers_at collate q db)
     (fun scan => snd (getTransfers collate scan q db))) /\
  (forall q, listing_complete toReservationDto (newest collate r_createdAt r_id) (reservation_where q) (reservations db)
     (reservations_at collate q db) (fun scan => snd (getReservations collate scan q db))) /\
  (forall q, listing_complete toWarehouseDto (by_text collate w_code) (fun w => activity_where q (w_isActive w)) (warehouses db)
     (warehouses_at collate q db) (fun scan => snd (listWarehouses collate scan q db))) /\
  (forall w q, listing_complete toLocationDto (by_text collate l_code)
     (fun l => bool_decide (l_warehouseId l = w) && activity_where q (l_isActive l)) (locations db)
     (locations_at collate w q db) (fun scan => snd (listLocations collate scan w q db))).
Proof.
  intros Hcol [[(Hb & Hr & Hu) _] (Hw & Huw & Hl & Hul) Hm Ht]. split_and!; intros.
  - apply (listing_complete_page _ (by_stock_key collate) _ b_id); [exact Hb| |reflexivity|reflexivity]. intros a b [[ka Ha] _]%elem_of_find_many [[kb Hb'] _]%elem_of_find_many
      [E1 [E2 E3]%then_by_eq]%then_by_eq. apply (by_text_eq collate) in E1, E2, E3; [|done..]. rewrite (Hb _ _ Ha), (Hb _ _ Hb').
    apply (Hu (b_key a) _ _ a b); [done|done|by apply has_key_true|]. apply has_key_true. by destruct (b_key a), (b_key b); cbn in *; subst.
  - apply (listing_complete_page _ (newest collate m_createdAt m_id) _ m_id); [exact Hm| |reflexivity|reflexivity]. intros a b _ _. by apply newest_decides.
  - apply (listing_complete_page _ (newest collate t_createdAt t_id) _ t_id); [exact Ht| |reflexivity|reflexivity]. intros a b _ _. by apply newest_decides.
  - apply (listing_complete_page _ (newest collate r_createdAt r_id) _ r_id); [intros k r H; by apply Hr| |reflexivity|reflexivity]. intros a b _ _. by apply newest_decides.
  - apply (listing_complete_page _ (by_text collate w_code) _ w_id); [intros k w H; by apply Hw| |reflexivity|reflexivity]. intros a b [[ka Ha] _]%elem_of_find_many [[kb Hb'] _]%elem_of_find_many E.
    apply (by_text_eq collate) in E; [|done]. rewrite (proj1 (Hw _ _ Ha)), (proj1 (Hw _ _ Hb')).
    apply (Huw (w_code a) _ _ a b); [done|done|by apply bool_decide_eq_true..].
  - apply (listing_complete_page _ (by_text collate l_code) _ l_id); [intros k l H; by apply Hl| |reflexivity|reflexivity].
    intros a b [[ka Ha] [Wa%bool_decide_eq_true _]%andb_prop]%elem_of_find_many [[kb Hb'] [Wb%bool_decide_eq_true _]%andb_prop]%elem_of_find_many E.
    apply (by_text_eq collate) in E; [|done]. rewrite (proj1 (Hl _ _ Ha)), (proj1 (Hl _ _ Hb')).
    apply (Hul w (l_code a) _ _ a b); [done|done|by rewrite !bool_decide_true..].
Qed.

Lemma demo_places_ok : places_ok demo_places.
Proof.
  unfold places_ok, demo_places. cbn [warehouses locations set_warehouses set_locations]. split_and!.
  - intros id w [<- <-]%lookup_singleton_Some. by vm_compute.
  - intros code k1 k2 w1 w2 [<- _]%lookup_singleton_Some [<- _]%lookup_singleton_Some. done.
  - intros id l [<- <-]%lookup_singleton_Some. split; [done|by eexists].
  - intros w code k1 k2 l1 l2 [<- _]%lookup_singleton_Some [<- _]%lookup_singleton_Some. done.
Qed.

(** Two reservations of one instant, which every page reads in another order. *)
Definition demo_query : ReservationQuery := mkReservationQuery None None None None None.
Definition demo_scan (o : Z) (l : list StockReservation) : list StockReservation := if bool_decide (o = 0%Z) then reverse l else l.
Definition demo_pages (scans : Z -> list StockReservation -> list StockReservation) : list ReservationContract :=
  walk (fun o => reservations_at byCodeUnit demo_query demo_places (scans o) 1 o) 1 2 0.
Lemma demo_listed : listed demo_places.
Proof.
  split; [exact demo_places_inv|exact demo_places_ok| |].
  - intros k r. change (movements demo_places) with (movements demo_db). unfold demo_db. cbn [movements]. by intros [<- <-]%lookup_singleton_Some.
  - intros k r. change (transfers demo_places) with (∅ : gmap string StockTransfer). by rewrite lookup_empty.
Qed.
Lemma listings_reach_every_row_witness : demo_pages demo_scan = demo_pages (fun _ l => l) /\ rd_id <$> demo_pages demo_scan = ["r1"; "r2"].
Proof.
  destruct (listings_reach_every_row byCodeUnit demo_places byCodeUnit_collation demo_listed) as (_ & _ & _ & H & _).
  destruct (H demo_query) as (found & _ & _ & Hc & Hw).
  assert (Hl : length found = 2) by (apply Nat2Z.inj; rewrite <- (Hc (fun l => l)); vm_compute; reflexivity).
  assert (Hgo : forall scans, (forall o l, scans o l ≡ₚ l) -> demo_pages scans = toReservationDto <$> found).
  { intros scans Hs. destruct (Hw 1%Z 2 scans) as [H1 _]; [lia|exact Hs|]. apply H1; [rewrite Hl; lia|vm_compute; discriminate]. }
  split.
  - rewrite !Hgo; [reflexivity|intros o l; reflexivity|intros o l; unfold demo_scan; destruct (bool_decide (o = 0%Z)); [apply reverse_Permutation|reflexivity]].
  - vm_compute. reflexivity.
Defined.

(** Public availability tells whether stock can be reserved.  The answer lists the
    first hundred distinct variants asked for, in order.  A variant without an active
    row is UNKNOWN; for an active one the status follows from the sum of what all
    places hold available, and in a state that satisfies the stock invariant it is
    OUT_OF_STOCK exactly when no place has a free unit on the abstract stock machine. *)
Theorem public_availability_exact variantIds db :
  inv db ->
  let shown := getPublicAvailability variantIds db in
  shown.*1 = take 100 (unique variantIds) /\
  (forall v s, (v, s) ∈ shown ->
     s = if bool_decide (variants db !! v = Some true) then stock_status (available_of v db) else UNKNOWN) /\
  (forall v s, (v, s) ∈ shown -> variants db !! v = Some true ->
     s = OUT_OF_STOCK <-> forall k, variantId k = v -> (free k (abs db) <= 0)%Z).
Proof.
  intros Hinv shown.
  assert (Hshown : forall v s, (v, s) ∈ shown ->
     s = if bool_decide (variants db !! v = Some true) then stock_status (available_of v db) else UNKNOWN).
  { apply availability_status. }
  split_and!; [apply availability_ids|done|]. intros v s Hin Hv. rewrite (Hshown v s Hin), bool_decide_true by done.
  rewrite stock_status_out. split.
  - intros Hle k Hk. destruct (decide (0 < free k (abs db))%Z) as [Hf|]; [|lia].
    assert (0 < available_of v db)%Z; [|lia]. apply available_of_positive; [done|by eexists].
  - intros Hall. destruct (decide (0 < available_of v db)%Z) as [Hp|]; [|lia].
    apply available_of_positive in Hp as (k & Hk & Hf); [|done]. specialize (Hall k Hk). lia.
Qed.

Lemma public_availability_exact_witness :
  inv demo_places /\ getPublicAvailability ["v1"; "v2"; "v1"] demo_places = [("v1", IN_STOCK); ("v2", UNKNOWN)] /\
  (getPublicAvailability ["v1"; "v2"; "v1"] demo_places).*1 = ["v1"; "v2"].
Proof.
  split; [exact demo_places_inv|]. split; [vm_compute; reflexivity|].
  rewrite (proj1 (public_availability_exact ["v1"; "v2"; "v1"] demo_places demo_places_inv)). vm_compute. reflexivity.
Defined.

(** [C34] Administering places keeps them sound and the stock untouched.  Among other
    clients that do the same, [createWarehouse], [updateWarehouse], [createLocation]
    and [updateLocation] keep the stock invariant, the codes of warehouses trimmed, not
    empty and unique, the codes of locations unique within their warehouse (they are stored
    as they are given, untrimmed) and every location in an existing warehouse; a success is
    one commit that adds the new row or replaces the columns the command names, with one
    audit row, and an error leaves nothing behind. *)
Theorem places_safe (cuid : nat -> string) (E : env InvDb) db :
  place_rely E -> inv db -> places_ok db ->
  (forall c, place_outcome E (CreateWarehouse c) db (createWarehouse cuid E c db)) /\
  (forall id c, place_outcome E (UpdateWarehouse id c) db (updateWarehouse E id c db)) /\
  (forall w c, place_outcome E (CreateLocation w c) db (createLocation cuid E w c db)) /\
  (forall id c, place_outcome E (UpdateLocation id c) db (updateLocation E id c db)).
Proof.
  intros HE Hi Hp. split_and!.
  - intros c. unfold createWarehouse. destruct (assertTracked _) as [[]|e]; [|by apply place_err].
    destruct (truthy (trim (wc_code c))) eqn:Hcode; [|by apply place_err].
    apply (place_retry cuid); [done|by intros ? [= <-]|exact (place_tx_run (createWarehouse_tx cuid c))|done..].
  - intros id c. unfold updateWarehouse. destruct (assertTracked _) as [[]|e]; [|by apply place_err].
    apply (place_retry cuid); [done..|exact (place_tx_run (updateWarehouse_tx id c))|done|done].
  - intros w c. unfold createLocation. destruct (assertTracked _) as [[]|e]; [|by apply place_err].
    apply (place_retry cuid); [done..|exact (place_tx_run (createLocation_tx cuid w c))|done|done].
  - intros id c. unfold updateLocation. destruct (assertTracked _) as [[]|e]; [|by apply place_err].
    apply (place_retry cuid); [done..|exact (place_tx_run (updateLocation_tx id c))|done|done].
Qed.

(** The database aborts the first attempt. *)
Definition demo_aborting : env InvDb := mkEnv (fun _ db => db)
  (fun k => if bool_decide (k = 0) then Some (PrismaClientKnownRequestError "P2034" None) else None).
Definition demo_warehouse : WarehouseCreateCommand := mkWarehouseCreate demo_ctx " WH-2 " "Second" None None.

Lemma demo_place_rely : place_rely demo_aborting.
Proof. by intros k db Hi Hp. Qed.

Lemma places_safe_witness :
  is_ok (fst (createWarehouse demo_cuid demo_aborting demo_warehouse demo_places)) = true /\
  places_ok (snd (createWarehouse demo_cuid demo_aborting demo_warehouse demo_places)).
Proof.
  split; [vm_compute; reflexivity|].
  destruct (places_safe demo_cuid demo_aborting demo_places demo_place_rely demo_places_inv demo_places_ok) as [H _].
  destruct (H demo_warehouse) as (_ & Hp & _). exact Hp.
Defined.
