(* ===== verification/InventoryBehaviour.v ===== *)
(** Functional properties of the stock commands: the exact conditions of a
    reservation, replays, the settlement of an order's reservations, and the expiry
    batch. *)

From S2P Require Import Prelude Table Json AuditTrail Retry InventoryModel Inventory.
From S2P Require Import InventoryLedger InventoryProofs InventoryExpiry InventorySafety.
From S2P Require Import InventorySafety InventoryProperties.

(** * Replays *)

Lemma replay_movement key db id m :
  keys_unique db -> movements db !! id = Some m -> m_idempotencyKey m = Some key ->
  find_by (fun x => bool_decide (m_idempotencyKey x = Some key)) (movements db) = Some m.
Proof.
  intros Hu Hm Hk. eapply (find_by_unique (m_has key)); [apply Hu|exact Hm|].
  unfold m_has. by apply bool_decide_eq_true.
Qed.

Lemma replay_reservation key db id r :
  keys_unique db -> reservations db !! id = Some r -> r_idempotencyKey r = Some key ->
  find_by (fun x => bool_decide (r_idempotencyKey x = Some key)) (reservations db) = Some r.
Proof.
  intros Hu Hr Hk. eapply (find_by_unique (r_has key)); [apply Hu|exact Hr|].
  unfold r_has. by apply bool_decide_eq_true.
Qed.

(** The run of a change whose key is already used by [m]. *)
Lemma change_replay_run cuid c key m id db :
  keys_unique db -> validateStockCommand c = Ok tt -> cs_idempotencyKey c = Some key -> truthy key = true ->
  movements db !! id = Some m -> m_idempotencyKey m = Some key ->
  changeOnHandIn cuid c db =
    if movementMatches m c then Ok (m, set_locks (locks db ++ [lock_of (cs_key c)]) db)
    else Err (idempotencyConflict key).
Proof.
  intros Hu Hv Hkey Ht Hm Hk. unfold changeOnHandIn. rewrite Hv, Hkey. cbn [truthy_opt default].
  rewrite Ht. unfold lift_result, acquireBalanceLock, advisory_lock, modify, gets, mbind, M_bind.
  cbn [movements set_locks]. rewrite (replay_movement key db id m) by done.
  by destruct (movementMatches m c).
Qed.

Lemma reserve_replay_run cuid c key r id db :
  keys_unique db -> assertTracked (rs_context c) = Ok tt -> valid_quantity (rs_quantity c) = true ->
  rs_idempotencyKey c = Some key -> truthy key = true ->
  reservations db !! id = Some r -> r_idempotencyKey r = Some key ->
  reserveIn cuid c db =
    if reservationMatches r c then Ok (r, set_locks (locks db ++ [lock_of (rs_key c)]) db)
    else Err (idempotencyConflict key).
Proof.
  intros Hu Hv Hq Hkey Ht Hm Hk. unfold reserveIn. rewrite Hv, Hq, Hkey. cbn [truthy_opt default negb].
  rewrite Ht. unfold lift_result, acquireBalanceLock, advisory_lock, modify, gets, mbind, M_bind, throw_if.
  cbn [reservations set_locks]. rewrite (replay_reservation key db id r) by done.
  by destruct (reservationMatches r c).
Qed.

Lemma changeOnHandIn_validated cuid c db r :
  changeOnHandIn cuid c db = Ok r -> validateStockCommand c = Ok tt.
Proof. unfold changeOnHandIn. intros H. run_inv. by destruct v. Qed.

Lemma reserveIn_validated cuid c db r :
  reserveIn cuid c db = Ok r ->
  assertTracked (rs_context c) = Ok tt /\ valid_quantity (rs_quantity c) = true.
Proof. unfold reserveIn. intros H. run_inv. destruct v. by apply negb_false_iff in Hguard. Qed.

(** * When a reservation succeeds *)

(** The database can store the row: a fresh identifier and counters in range. *)
Definition can_reserve (cuid : nat -> string) (b : InventoryBalance) (q : Z) (db : InvDb) : Prop :=
  reservations db !! cuid (nextId db) = None /\
  (- INT4_MAX - 1 <= b_onHand b <= INT4_MAX)%Z /\ (0 <= b_reserved b + q <= INT4_MAX)%Z /\
  (0 <= b_available b <= INT4_MAX)%Z /\ (0 <= b_version b < INT4_MAX)%Z.

Lemma int4_true z : (- INT4_MAX - 1 <= z <= INT4_MAX)%Z -> int4 z = true.
Proof. intros H. unfold int4. by rewrite andb_true_iff, !Z.leb_le. Qed.

Lemma assertStockIdentity_locks k ls db :
  assertStockIdentity k db = Ok (tt, db) ->
  assertStockIdentity k (set_locks ls db) = Ok (tt, set_locks ls db).
Proof.
  unfold assertStockIdentity, gets, throw_if, mbind, M_bind. cbn [warehouses locations variants set_locks].
  repeat (destruct (negb _); [done|]). done.
Qed.

(** A hold takes its quantity out of the free stock of its key. *)
Lemma hold_consumes id k q db db' :
  inv db -> refines [EHold id k q] db db' ->
  (moved_at k db' - held_at k db' = moved_at k db - held_at k db - q)%Z.
Proof.
  intros Hinv (Hinv' & _ & (s1 & (_ & Hnone & [Hon1 Hh1]) & [Hon2 Hh2])).
  rewrite <- !holds_sum. destruct Hinv as [_ Hl], Hinv' as [_ Hl'].
  assert (Hm : moved_at k db' = moved_at k db).
  { specialize (Hon2 k). rewrite Hon1 in Hon2. cbn [abs onHand] in Hon2.
    destruct (Hl k) as [E1 _], (Hl' k) as [E2 _]. rewrite E1, E2 in Hon2. done. }
  rewrite <- Hh2, Hh1, Hm. cbn [holds]. rewrite tsum_insert_new by done.
  unfold hold_at at 1, at_key. simpl. rewrite decide_True by done. lia.
Qed.

(** A reservation is decided by the free stock alone.  A tracked, valid, new
    request for an existing place and SKU succeeds when its quantity is at most the
    quantity on hand less all active reservations, provided the database can store
    the row, and is refused with INSUFFICIENT_STOCK exactly otherwise. *)
Theorem reserve_decides (cuid : nat -> string) c db :
  inv db ->
  assertTracked (rs_context c) = Ok tt -> valid_quantity (rs_quantity c) = true ->
  rs_idempotencyKey c = None ->
  assertStockIdentity (rs_key c) db = Ok (tt, db) -> rs_expectedVersion c = None ->
  (forall b, find_balance (rs_key c) db = Some b -> can_reserve cuid b (int_val (rs_quantity c)) db) ->
  let free_stock := (moved_at (rs_key c) db - held_at (rs_key c) db)%Z in
  ((int_val (rs_quantity c) <= free_stock)%Z ->
     exists r db', reserveIn cuid c db = Ok (r, db') /\ reservation_of c r /\
       (moved_at (rs_key c) db' - held_at (rs_key c) db' = free_stock - int_val (rs_quantity c))%Z) /\
  ((free_stock < int_val (rs_quantity c))%Z ->
     reserveIn cuid c db = Err (insufficientStock "Insufficient available stock.")).
Proof.
  intros Hinv Ht Hq Hkn Hid Hver Hcan free_stock. apply valid_quantity_true in Hq as Hq'.
  assert (Hrun : reserveIn cuid c db = reserveIn cuid c db) by done. unfold reserveIn at 2 in Hrun.
  rewrite Ht, Hq, Hver, Hkn in Hrun. cbn [truthy_opt] in Hrun.
  unfold lift_result, acquireBalanceLock, advisory_lock, modify, gets, mbind, M_bind, throw_if in Hrun.
  cbn [negb] in Hrun. rewrite assertStockIdentity_locks, find_balance_locks in Hrun by done.
  pose proof Hinv as [Hwf Hl]. destruct (Hl (rs_key c)) as [Hlev Hle].
  fold free_stock in Hlev, Hle. destruct (find_balance (rs_key c) db) as [b|] eqn:Hb.
  - rewrite (level_find _ _ _ Hb) in Hlev. injection Hlev as Hoh Hrs Hav.
    cbn [assertVersion from_option unwrap] in Hrun. unfold unwrap in Hrun. rewrite Hav in Hrun.
    split; intros Hcmp.
    + specialize (Hcan b eq_refl) as (Hfresh & B1 & B2 & B3 & B4).
      apply Z.ltb_ge in Hcmp as Hcmp'. rewrite Hcmp' in Hrun.
      unfold update_balance_key, write_balance, create_reservation, fresh_id, unwrap, gets, modify, throw_if,
        record, zoom, modify, mret, M_ret, mbind, M_bind in Hrun.
      rewrite find_balance_locks, Hb in Hrun. cbn [b_onHand b_reserved b_available b_version] in Hrun.
      rewrite !int4_true in Hrun by lia. cbn [andb negb nextId set_nextId set_balances set_locks reservations] in Hrun.
      rewrite Hfresh in Hrun. cbn in Hrun.
      assert (Hdup : find_by (fun _ : StockReservation => false) (reservations db) = None)
        by (by apply find_by_None).
      rewrite Hdup in Hrun. cbn in Hrun. eexists _, _. split; [exact Hrun|].
      apply reserveIn_refines in Hrun as [Hof [(Hkey & _)|(_ & _ & _ & _ & _ & Href)]]; [by rewrite Hkn in Hkey| |done].
      split; [done|]. by apply hold_consumes in Href.
    + apply Z.ltb_lt in Hcmp. by rewrite Hcmp in Hrun.
  - rewrite (level_none _ _ Hb) in Hlev. injection Hlev as Hoh Hrs Hav. split; intros Hcmp; [lia|].
    by rewrite Hrun.
Qed.
(** Idempotency keys.  After an on-hand change or a reservation with a non-empty
    key succeeded, in any later state the same command succeeds again, answers with
    the same movement, or the same reservation in its current status, and changes
    nothing but the lock it took; a different command under that key is refused with
    a 409 and changes nothing. *)
Theorem stock_commands_idempotent (cuid : nat -> string) key db db1 db2 :
  inv db -> evolves db1 db2 -> keys_unique db2 -> truthy key = true ->
  (forall c c' m, changeOnHandIn cuid c db = Ok (m, db1) ->
     m_idempotencyKey m = Some key -> cs_idempotencyKey c = Some key -> cs_idempotencyKey c' = Some key ->
     changeOnHandIn cuid c db2 = Ok (m, set_locks (locks db2 ++ [lock_of (cs_key c)]) db2) /\
     (validateStockCommand c' = Ok tt -> ~ movement_of c' m ->
      changeOnHandIn cuid c' db2 = Err (idempotencyConflict key))) /\
  (forall c c' r, reserveIn cuid c db = Ok (r, db1) ->
     r_idempotencyKey r = Some key -> rs_idempotencyKey c = Some key -> rs_idempotencyKey c' = Some key ->
     (exists st, reserveIn cuid c db2 =
        Ok (set_status st r, set_locks (locks db2 ++ [lock_of (rs_key c)]) db2)) /\
     (assertTracked (rs_context c') = Ok tt -> valid_quantity (rs_quantity c') = true ->
      ~ reservation_of c' r -> reserveIn cuid c' db2 = Err (idempotencyConflict key))).
Proof.
  intros Hinv Hev Hu Ht. split.
  - intros c c' m H Hmk Hk Hk'. apply changeOnHandIn_validated in H as Hv.
    apply changeOnHandIn_refines in H as [Hm Hcase]; [|done].
    assert (Hin : exists id, movements db2 !! id = Some m).
    { destruct Hev as (_ & _ & Hsub & _). destruct Hcase as [(_ & _ & [id H] & (_ & E & _) & _)|(_ & _ & E & _)].
      - exists id. eapply lookup_weaken; [|exact Hsub]. by rewrite E.
      - exists (m_id m). eapply lookup_weaken; [|exact Hsub]. rewrite E. apply lookup_insert_eq. }
    destruct Hin as [id Hin]. split; [|intros Hv' Hne];
      erewrite change_replay_run by done.
    + by rewrite (proj2 (movementMatches_true m c)).
    + destruct (movementMatches m c') eqn:E; [|done]. by apply movementMatches_true in E.
  - intros c c' r H Hrk Hk Hk'. apply reserveIn_validated in H as Hv. destruct Hv as [Hv Hq].
    apply reserveIn_refines in H as [Hr Hcase]; [|done].
    assert (Hin : exists id st, reservations db2 !! id = Some (set_status st r)).
    { destruct Hev as (Hres & _).
      assert (H1 : exists id, reservations db1 !! id = Some r).
      { destruct Hcase as [(_ & _ & [id H] & (_ & _ & E & _) & _)|(_ & _ & _ & E & _)].
        - exists id. by rewrite E.
        - exists (r_id r). rewrite E. apply lookup_insert_eq. }
      destruct H1 as [id H1]. destruct (Hres _ _ H1) as (r' & H2 & Hr' & _). exists id, (r_status r').
      by rewrite <- Hr'. }
    destruct Hin as (id & st & Hin). split; [exists st|intros Hv' Hq' Hne];
      erewrite reserve_replay_run by done.
    + by rewrite (proj2 (reservationMatches_true (set_status st r) c)).
    + destruct (reservationMatches _ c') eqn:E; [|done]. by apply reservationMatches_true in E.
Qed.

Definition demo_receipt_out := changeOnHandIn demo_cuid demo_receipt demo_db.
Lemma stock_commands_idempotent_witness :
  match demo_receipt_out with
  | Ok (m, db1) => is_ok (changeOnHandIn demo_cuid demo_receipt db1) = true
  | Err _ => False
  end.
Proof.
  destruct demo_receipt_out as [[m db1]|e] eqn:E; [|by vm_compute in E].
  assert (Hk : m_idempotencyKey m = Some "k2") by (vm_compute in E; by injection E as <- _).
  assert (Hu : keys_unique db1) by (eapply keys_changeOnHandIn; [exact demo_unique|exact E]).
  destruct (stock_commands_idempotent demo_cuid "k2" demo_db db1 db1 demo_inv
    ltac:(reflexivity) Hu eq_refl) as [H _].
  destruct (H demo_receipt demo_receipt m E Hk eq_refl eq_refl) as [-> _]. done.
Defined.

(** * Settling the reservations of an order *)

Section avoid.
Context (cuid : nat -> string).

Lemma avoids_write b : avoids balanceInconsistent (write_balance b).
Proof. apply avoids_bind; [by apply avoids_throw_if|]. intros _. apply avoids_modify. Qed.

Lemma avoids_update_id id f : avoids balanceInconsistent (update_balance_id id f).
Proof.
  apply avoids_bind; [apply avoids_gets|]. intros row.
  apply avoids_bind; [by apply avoids_unwrap|]. intros b. apply avoids_write.
Qed.

Lemma avoids_movement k t q before after rt ri reason ik :
  avoids balanceInconsistent (create_movement cuid k t q before after rt ri reason ik).
Proof.
  repeat first
    [ by apply avoids_ret | by apply avoids_gets | by apply avoids_modify | by apply avoids_throw_if
    | apply avoids_bind; [|intros ?] | done ].
Qed.

Lemma avoids_status id st : avoids balanceInconsistent (update_reservation_status id st).
Proof.
  repeat first
    [ by apply avoids_ret | by apply avoids_gets | by apply avoids_modify | by apply avoids_unwrap
    | apply avoids_bind; [|intros ?] ].
Qed.

Lemma avoids_record input : avoids balanceInconsistent (record (S := InvDb) input).
Proof. done. Qed.

(** The row of an active reservation covers it. *)
Lemma active_covered db id r :
  inv db -> reservations db !! id = Some r -> r_status r = ACTIVE ->
  exists b, find_balance (r_key r) db = Some b /\ (b_reserved b <? r_quantity r)%Z = false.
Proof.
  intros [Hwf Hl] Hr Hs. pose proof (held_at_ge db id r Hwf Hr Hs) as Hge.
  pose proof Hwf as (_ & Hq & _). apply Hq in Hr as [_ Hpos]. destruct (Hl (r_key r)) as [Hlev _].
  unfold level in Hlev. destruct (find_balance (r_key r) db) as [b|].
  - exists b. split; [done|]. injection Hlev as _ Hres _. apply Z.ltb_ge. lia.
  - injection Hlev as _ Hres _. lia.
Qed.

(** The reads and guards shared by both kinds of settlement. *)
Lemma settle_consistent r (k : StockReservation -> InventoryBalance -> M InvDb Z) db :
  inv db -> (forall x b, avoids balanceInconsistent (k x b)) ->
  (acquireBalanceLock (r_key r) ;;
   row ← gets (fun db => reservations db !! r_id r);
   match row with
   | Some current =>
       if negb (bool_decide (r_status current = ACTIVE)) then mret 0%Z
       else
         b ← gets (find_balance (r_key current));
         balance ← unwrap b balanceInconsistent;
         throw_if (b_reserved balance <? r_quantity current)%Z balanceInconsistent ;;
         k current balance
   | None => mret 0%Z
   end) db <> Err balanceInconsistent.
Proof.
  intros Hinv Hk H.
  apply bind_err_inv in H as [H|(u & s & H1 & H)]; [done|]. apply lock_ok in H1 as [ls [= _ ->]].
  apply bind_err_inv in H as [H|(row & s & [= <- <-] & H)]; [done|]. simpl in H.
  destruct (reservations db !! r_id r) as [x|] eqn:Hx; [|done].
  destruct (bool_decide (r_status x = ACTIVE)) eqn:Hs; [|done]. apply bool_decide_eq_true in Hs. cbn [negb] in H.
  destruct (active_covered db _ _ Hinv Hx Hs) as (b & Hb & Hle).
  apply bind_err_inv in H as [H|(row & s & [= <- <-] & H)]; [done|]. rewrite find_balance_locks, Hb in H.
  apply bind_err_inv in H as [H|(b' & s & [= <- <-] & H)]; [done|]. rewrite Hle in H.
  apply bind_err_inv in H as [H|(u' & s & [= <- <-] & H)]; [done|]. by apply Hk in H.
Qed.

Lemma consumeSingle_consistent r ctx db :
  inv db -> consumeSingleReservation cuid r ctx db <> Err balanceInconsistent.
Proof.
  intros Hinv. apply (settle_consistent r _ db Hinv). intros x b.
  apply avoids_bind; [apply avoids_update_id|intros _].
  apply avoids_bind; [apply avoids_movement|intros _].
  apply avoids_bind; [apply avoids_status|intros _]. done.
Qed.

Lemma rebalance_consistent r st action ctx sys db :
  inv db -> rebalanceReservationRelease r st action ctx sys db <> Err balanceInconsistent.
Proof.
  intros Hinv. apply (settle_consistent r _ db Hinv). intros x b.
  apply avoids_bind; [apply avoids_update_id|intros _].
  apply avoids_bind; [apply avoids_status|intros _]. done.
Qed.

Lemma sum_each_consistent st e (f : StockReservation -> M InvDb Z) rs db :
  (forall r db n db', inv db -> f r db = Ok (n, db') -> finishes st (e (r_id r)) (r_id r) n db db') ->
  (forall r db, inv db -> f r db <> Err balanceInconsistent) ->
  inv db -> sum_each rs f db <> Err balanceInconsistent.
Proof.
  intros Hf He. revert db. induction rs as [|r rs IH]; intros db Hinv H; [done|]. cbn [sum_each] in H.
  apply bind_err_inv in H as [H|(n & s & H1 & H)]; [by apply He in H|].
  apply Hf in H1; [|done]. apply finishes_refines in H1 as (es & (Hinv' & _) & _).
  apply bind_err_inv in H as [H|(n' & s' & H2 & H)]; [by apply IH in H|done].
Qed.
End avoid.

Lemma order_finished_none st orderId db db' :
  st <> ACTIVE -> wf_tables db' -> order_finished st orderId db db' -> order_reservations orderId db' = [].
Proof.
  intros Hst Hwf Hfin. destruct (order_reservations orderId db') as [|r l] eqn:E; [done|]. exfalso.
  assert (Hr : r ∈ order_reservations orderId db') by (rewrite E; set_solver).
  apply order_reservations_spec in Hr as (Hr & Ho & Hs); [|done]. rewrite Hfin in Hr.
  apply fmap_Some in Hr as (x & _ & Hx). destruct (_ && _) eqn:Ex.
  - subst r. by simpl in Hs.
  - subst r. by rewrite !bool_decide_true in Ex.
Qed.

(** Settling an order.  [consumeReservationsForOrder] turns every active
    reservation of the order into CONSUMED and touches no other row, ships exactly
    their quantities and answers with their number; running it again answers 0 and
    changes nothing.  [releaseReservationsForOrder] does the same with RELEASED and
    without shipping.  Neither can fail because a balance is inconsistent. *)
Theorem order_settled_exactly (cuid : nat -> string) orderId ctx db :
  inv db ->
  (forall n db', consumeReservationsForOrder cuid orderId ctx db = Ok (n, db') ->
     n = Z.of_nat (length (order_reservations orderId db)) /\
     order_finished CONSUMED orderId db db' /\
     asteps (EShip <$> (r_id <$> order_reservations orderId db)) (abs db) (abs db') /\
     consumeReservationsForOrder cuid orderId ctx db' = Ok (0%Z, db')) /\
  (forall n db', releaseReservationsForOrder orderId ctx db = Ok (n, db') ->
     n = Z.of_nat (length (order_reservations orderId db)) /\
     order_finished RELEASED orderId db db' /\
     asteps (EDrop <$> (r_id <$> order_reservations orderId db)) (abs db) (abs db') /\
     releaseReservationsForOrder orderId ctx db' = Ok (0%Z, db')) /\
  consumeReservationsForOrder cuid orderId ctx db <> Err balanceInconsistent /\
  releaseReservationsForOrder orderId ctx db <> Err balanceInconsistent.
Proof.
  intros Hinv.
  assert (Hc : forall r db n db', inv db -> consumeSingleReservation cuid r ctx db = Ok (n, db') ->
    finishes CONSUMED (EShip (r_id r)) (r_id r) n db db') by (intros; by eapply consumeSingle_refines).
  assert (Hr : forall r db n db', inv db -> releaseSingleReservation r ctx None db = Ok (n, db') ->
    finishes RELEASED (EDrop (r_id r)) (r_id r) n db db') by (intros; by eapply rebalance_refines).
  split; [|split; [|split]].
  - intros n db' H. unfold consumeReservationsForOrder in H. run_inv.
    apply (order_loop_refines CONSUMED EShip) in H as (-> & (Hinv' & _ & Hs) & Hfin); [|done..].
    rewrite length_fmap. split; [done|]. split; [done|]. split; [done|].
    unfold consumeReservationsForOrder, throw_if, gets, mbind, M_bind. rewrite Hguard.
    by rewrite (order_finished_none CONSUMED orderId db) by (done || apply Hinv').
  - intros n db' H. unfold releaseReservationsForOrder, releaseOrderReservations in H. run_inv.
    apply (order_loop_refines RELEASED EDrop) in H as (-> & (Hinv' & _ & Hs) & Hfin); [|done..].
    rewrite length_fmap. split; [done|]. split; [done|]. split; [done|].
    unfold releaseReservationsForOrder, releaseOrderReservations, lift_result, gets, mbind, M_bind. rewrite Hres.
    by rewrite (order_finished_none RELEASED orderId db) by (done || apply Hinv').
  - intros H. unfold consumeReservationsForOrder in H.
    apply bind_err_inv in H as [H|(u & s & H1 & H)]; [unfold throw_if in H; by destruct (negb _)|].
    run_inv. apply bind_err_inv in H as [H|(rs & s & [= <- <-] & H)]; [done|].
    eapply (sum_each_consistent CONSUMED EShip) in H; [done|done| |done].
    intros. by apply consumeSingle_consistent.
  - intros H. unfold releaseReservationsForOrder, releaseOrderReservations in H.
    apply bind_err_inv in H as [H|(u & s & H1 & H)].
    { unfold lift_result, assertTracked in H. by destruct (_ || _). }
    run_inv. apply bind_err_inv in H as [H|(rs & s & [= <- <-] & H)]; [done|].
    eapply (sum_each_consistent RELEASED EDrop) in H; [done|done| |done].
    intros r db1 Hdb1. exact (rebalance_consistent r _ _ ctx None db1 Hdb1).
Qed.

Lemma order_settled_exactly_witness :
  match consumeReservationsForOrder demo_cuid "o1" demo_ctx demo_db with
  | Ok (n, db') => n = 1%Z /\ consumeReservationsForOrder demo_cuid "o1" demo_ctx db' = Ok (0%Z, db')
  | Err _ => False
  end.
Proof.
  destruct (order_settled_exactly demo_cuid "o1" demo_ctx demo_db demo_inv) as [H _].
  destruct (consumeReservationsForOrder demo_cuid "o1" demo_ctx demo_db) as [[n db']|e] eqn:E;
    [|by vm_compute in E].
  destruct (H n db' eq_refl) as (-> & _ & _ & ->). split; [by vm_compute|done].
Defined.

(** * The expiry batch *)

(** Expiry.  One batch expires all and only the candidates that are still active
    and due when it holds the locks, answers with their number, drops exactly their
    holds, and takes the balance locks in strictly ascending key order, the same
    order in every batch, so that two batches cannot wait for each other in a cycle. *)
Theorem expiry_batch_exact ctx now candidates db n db' :
  inv db -> expire_tx ctx now candidates db = Ok (n, db') ->
  let due_now r := bool_decide (r_id r ∈ r_id <$> candidates) && due now r in
  n = count_rows due_now (reservations db) /\
  (forall id, reservations db' !! id =
     (fun r => if due_now r then set_status EXPIRED r else r) <$> reservations db !! id) /\
  asteps (EDrop <$> (r_id <$> find_many due_now (reservations db))) (abs db) (abs db') /\
  (exists ks, locks db' = locks db ++ (lock_of <$> ks) /\
     StronglySorted (fun k1 k2 => js_ltb (expiryBalanceKey k1) (expiryBalanceKey k2) = true) ks /\
     forall c, c ∈ candidates -> r_key c ∈ ks).
Proof.
  intros Hinv H due_now. apply expire_tx_refines in H as (-> & (_ & _ & Hs) & Hres & ks & Hks & Hlocks); [|done].
  split; [done|]. split; [done|]. split; [done|]. exists ks. split; [done|].
  pose proof (orderedKeys_ascending candidates) as Hasc. rewrite <- Hks in Hasc. split.
  - clear -Hasc. induction ks as [|k ks IH]; [constructor|]. rewrite fmap_cons in Hasc.
    apply StronglySorted_inv in Hasc as [Hasc Hall]. constructor; [by apply IH|].
    apply Forall_forall. intros k' Hk'. rewrite Forall_forall in Hall. apply Hall.
    by apply list_elem_of_fmap_2.
  - intros c Hc. assert (Hin : expiryBalanceKey (r_key c) ∈ orderedKeys candidates)
      by (apply elem_of_orderedKeys; eauto).
    rewrite <- Hks in Hin. apply list_elem_of_fmap in Hin as (k & Heq & Hk).
    apply expiryBalanceKey_inj in Heq. by subst k.
Qed.

Lemma expiry_batch_exact_witness :
  match expire_tx demo_ctx 60 (expiry_candidates 60 100 demo_db) demo_db with
  | Ok (n, db') => n = 1%Z /\ is_active "r1" db' = false /\ is_active "r2" db' = true
  | Err _ => False
  end.
Proof.
  destruct (expire_tx demo_ctx 60 (expiry_candidates 60 100 demo_db) demo_db) as [[n db']|e] eqn:E;
    [|by vm_compute in E].
  destruct (expiry_batch_exact demo_ctx 60 _ demo_db n db' demo_inv E) as (-> & Hres & _).
  split; [by vm_compute|]. unfold is_active. rewrite !Hres. split; by vm_compute.
Defined.

Lemma reserve_decides_witness :
  exists r db', reserveIn demo_cuid (mkReserve demo_key demo_ctx None (Int 6) 99 None None) demo_db = Ok (r, db').
Proof.
  destruct (reserve_decides demo_cuid (mkReserve demo_key demo_ctx None (Int 6) 99 None None) demo_db) as [H _].
  - exact demo_inv.
  - by vm_compute.
  - by vm_compute.
  - done.
  - by vm_compute.
  - done.
  - intros b H. assert (b = mkBalance "b1" demo_key 10 4 6 1) as -> by (vm_compute in H; injection H as <-; reflexivity).
    unfold can_reserve, INT4_MAX. cbn [b_onHand b_reserved b_available b_version rs_quantity int_val].
    split; [by vm_compute|lia].
  - destruct H as (r & db' & -> & _); [vm_compute; discriminate|eauto].
Defined.
