(* ===== verification/StocktakeProperties.v ===== *)
(** The properties of stocktakes: the exact effect of an approval on the ledger, the
    life cycle and safety of every command among other clients, exactly-once
    execution, and the blindness of the count. *)

From S2P Require Import Prelude Table Paging Json StableJson AuditTrail Retry InventoryModel Inventory.
From S2P Require Import InventoryLedger InventoryProofs Durable DurableSafety.
From S2P Require Import Stocktake StocktakeProofs StocktakeSessions InventoryProperties.

(** * Helpers *)

(** What a command does to the session it names. *)
Definition sheet_step (cmd : StkCommand) (x x' : StkTables) : Prop :=
  match session_of cmd with
  | Some (id, v) => session_step cmd id v x x'
  | None => created_session x x'
  end.

Section commands.
Context (cuid : nat -> string) (collate : string -> string -> Z) (hash : string -> string).

Lemma prepared_safe now cmd ctx scope payload body :
  prepare cuid collate now cmd ctx = Ok (scope, payload, body) -> safe_body sheet_ok (sheet_step cmd) body.
Proof.
  intros Hp d a d' Hinv Hok H.
  destruct (prepared_body_ok cuid collate now cmd ctx scope payload body d a d' Hinv Hok Hp H) as (es & H1 & H2 & H3).
  split; [by exists es|]. split; [done|]. exact H3.
Qed.

Lemma prepared_distinct now cmd ctx scope payload body :
  prepare cuid collate now cmd ctx = Ok (scope, payload, body) -> distinct_keys payload.
Proof.
  intros Hp. destruct cmd as [uuid input|id v|id v ls|id v|id v|id v]; simpl in Hp.
  - destruct (create_input input) as [[[st l1] l2]|e]; [|done]. injection Hp as _ <- _. solve_distinct.
  - injection Hp as _ <- _. solve_distinct.
  - destruct (normalizeCounts ls) as [counts|e]; [|done]. injection Hp as _ <- _. unfold line_payload. solve_distinct.
  - injection Hp as _ <- _. solve_distinct.
  - injection Hp as _ <- _. solve_distinct.
  - injection Hp as _ <- _. solve_distinct.
Qed.
End commands.

(** A response without any expected quantity. *)
Definition blind_detail (r : StocktakeDetail) : Prop :=
  sm_netDifference (sd_summary r) = None /\
  Forall (fun l => sl_expectedQty l = None /\ sl_difference l = None) (sd_lines r).

Lemma authorized_blind r : blind_detail (authorizedResponse false r).
Proof. split; [done|]. apply Forall_forall. intros l Hl. by apply list_elem_of_fmap in Hl as (l0 & -> & _). Qed.

Definition erase_line (l : StocktakeLine) : StocktakeLine :=
  mkLine (sl_id l) (sl_locationId l) (sl_locationCode l) (sl_locationName l) (sl_variantId l)
    (sl_sku l) (sl_productName l) (sl_variantTitle l) None (sl_countedQty l) None (sl_countedAt l)
    (sl_notes l) (sl_countedById l) (sl_movementId l).

Lemma lines_erased d items :
  lines d false items = match lines d true items with Ok ls => Ok (erase_line <$> ls) | Err e => Err e end.
Proof.
  induction items as [|i items IH]; [done|]. simpl. unfold toLine.
  destruct (locations (inv_of d) !! si_locationId i); [|done].
  destruct (variantInfos (own d) !! si_variantId i); [|done]. unfold mbind, result_bind in *.
  rewrite IH. by destruct (lines d true items).
Qed.

Lemma toDetail_erased collate d row :
  toDetail collate d row false =
  match toDetail collate d row true with Ok r => Ok (authorizedResponse false r) | Err e => Err e end.
Proof.
  unfold toDetail. destruct (warehouses (inv_of d) !! st_warehouseId row); [|done].
  unfold mbind, result_bind. rewrite lines_erased. by destruct (lines d true _).
Qed.

(** * Properties *)

(** [C25] Approving a count sets the ledger to exactly what was counted.  When [approve]
    succeeds, its session was in review at the expected version and every line of it
    was counted; afterwards the stock of each counted place and variant is the counted
    quantity with its reservations untouched and never exceeding it, no other stock
    changed, the ledger moved through one STOCKTAKE adjustment per line that differed,
    and the session is completed at the next version with the same lines. *)
Theorem stocktake_approval_exact cuid collate now id v ctx d a d' :
  inv (inv_of d) -> sheet_ok (own d) -> approve_tx cuid collate now id v ctx d = Ok (a, d') ->
  exists row row', stocktakes (own d) !! id = Some row /\ st_status row = S_REVIEW /\ st_version row = v /\
    let items := items_of collate id (own d) in
    items <> [] /\ uncounted items = false /\
    (forall item, item ∈ items ->
       let reserved := reserved_at (line_stock row item) (inv_of d) in
       (reserved <= counted item)%Z /\
       level (line_stock row item) (inv_of d') = (counted item, reserved, counted item - reserved)%Z) /\
    (forall k, k ∉ line_stock row <$> items -> level k (inv_of d') = level k (inv_of d)) /\
    refines (sheet_events row (inv_of d) items) (inv_of d) (inv_of d') /\
    st_status row' = S_COMPLETED /\ st_version row' = (v + 1)%Z /\
    stocktakes (own d') = <[id := row']> (stocktakes (own d)) /\ same_sheet (own d) (own d').
Proof.
  intros Hinv Hok H. apply approve_tx_ok in H as (row & Hr & Hs & Hv & Hne & Hc & Hbody & Hin & Hout & Hsheet); [|done..].
  destruct Hbody as (Href & _ & r & row' & Hr' & _ & [_ Hto] & Hv' & _ & Hst).
  exists row, row'. by split_and!.
Qed.

(** [C32] Every stocktake command is safe among other clients.  Whatever the other clients
    commit between the attempts of a command, as long as they keep the invariants, it
    ends in a state in which the stock invariant, the count sheets and the command
    records are in order and which evolved from the first; a success committed once,
    either answering from the command's record with nothing changed, or making the one
    transition its kind allows of the session it names, at the version the caller
    expected; an error leaves nothing of the command behind. *)
Theorem stocktake_commands_safe cuid collate hash (E : env stk_store) now cmd ctx s :
  store_rely sheet_ok E -> store_ok sheet_ok s ->
  match prepare cuid collate now cmd ctx with
  | Ok (scope, payload, _) =>
      durable_outcome sheet_ok (sheet_step cmd) E (stk_command_id hash scope payload ctx) s
        (run_stocktake cuid collate hash E now cmd ctx s)
  | Err e => run_stocktake cuid collate hash E now cmd ctx s = (Err e, s)
  end.
Proof.
  intros HE Hs. unfold run_stocktake.
  destruct (prepare cuid collate now cmd ctx) as [[[scope payload] body]|e] eqn:Hp; [|done].
  unfold mbind, result_bind. destruct (command_check _ ctx) as [[]|e]; cbn [fst snd].
  - apply durable_public; [done|by eapply prepared_safe| |done].
    intros id d r d' H. by eapply load_detail_reads.
  - split; [done|]. split; [reflexivity|]. by left.
Qed.

(** A stocktake command runs once per key.  After a command committed, a repetition
    with its key, by the same actor in the same scope and on any later state, changes no
    table: if its payload is the same value up to the order of keys, it answers with the
    response recorded the first time, reduced to what the repeating caller may see, and
    otherwise it is refused as a reuse of the key.  The digest is assumed not to collide
    on the two payloads. *)
Theorem stocktake_runs_once cuid collate hash now cmd ctx scope payload body s r s' now2 cmd2 ctx2 payload2 body2 s2 :
  prepare cuid collate now cmd ctx = Ok (scope, payload, body) ->
  prepare cuid collate now2 cmd2 ctx2 = Ok (scope, payload2, body2) ->
  sx_actorId ctx2 = sx_actorId ctx -> sx_idempotencyKey ctx2 = sx_idempotencyKey ctx ->
  (hash (stableJson payload) = hash (stableJson payload2) -> stableJson payload = stableJson payload2) ->
  records_ok (records s) -> stk_tx cuid collate hash scope payload ctx body s = Ok (r, s') ->
  records_ok (records s2) -> records s' ⊆ records s2 ->
  exists full, r = authorizedResponse (sx_canApprove ctx) full /\
    (same_value payload payload2 -> exists s3,
       stk_tx cuid collate hash scope payload2 ctx2 body2 s2 = Ok (authorizedResponse (sx_canApprove ctx2) full, s3) /\
       own (domain s3) = own (domain s2) /\ same_stock (inv_of (domain s2)) (inv_of (domain s3)) /\
       records s3 = records s2) /\
    (~ same_value payload payload2 ->
       stk_tx cuid collate hash scope payload2 ctx2 body2 s2 = Err (ct_reused stk_texts)).
Proof.
  intros Hp Hp2 Ha Hk Hhash Hs H Hs2 Hsub.
  unfold stk_tx in H. apply command_records in H as (Hs' & _ & prior & full & Hf & Hpay & Hresp & ->); [|done].
  pose proof (prepared_distinct cuid collate now cmd ctx scope payload body Hp) as Hd.
  set (c2 := stk_command_id hash scope payload2 ctx2).
  assert (Hf2 : find_record c2 s2 = Some prior).
  { eapply find_record_later; [exact Hs2|exact Hsub|]. unfold find_record, same_command in *. simpl in *.
    by rewrite Ha, Hk. }
  exists full. split; [done|]. split; intros Hsame.
  - exists (locked (command_locks stk_texts c2) s2). unfold stk_tx. rewrite (command_replay cuid stk_texts c2 _ _ _ s2 prior full Hf2 Hresp).
    rewrite bool_decide_true; [split; [done|]; split; [done|]; split; [by unfold same_stock|done]|].
    rewrite Hpay. simpl. by apply stableJson_same in Hsame as ->.
  - unfold stk_tx. rewrite (command_replay cuid stk_texts c2 _ _ _ s2 prior full Hf2 Hresp).
    rewrite bool_decide_false; [done|]. rewrite Hpay. simpl. intros E. apply Hsame, stableJson_same; auto.
Qed.

(** The count is blind.  No response to a caller who may not approve carries an
    expected quantity, a difference or a net difference: neither [get], which answers
    with exactly what the approver sees less these fields, nor [list], nor any command,
    the repeated ones included. *)
Theorem stocktake_blind_count cuid collate hash ctx :
  sx_canApprove ctx = false ->
  (forall id d r, get_stocktake collate id ctx d = Ok r ->
     blind_detail r /\ exists row full, stocktakes (own d) !! id = Some row /\
       toDetail collate d row true = Ok full /\ r = authorizedResponse false full) /\
  (forall query d items n, list_stocktakes collate query ctx d = Ok (items, n) ->
     Forall (fun i => sm_netDifference (sli_summary i) = None) items) /\
  (forall scope payload body s r s', records_ok (records s) ->
     stk_tx cuid collate hash scope payload ctx body s = Ok (r, s') -> blind_detail r).
Proof.
  intros Hctx. split; [|split].
  - intros id d r. unfold get_stocktake. rewrite Hctx. destruct (stocktakes (own d) !! id) as [row|]; [|done].
    rewrite toDetail_erased. destruct (toDetail collate d row true) as [full|e] eqn:E; [|done].
    intros [= <-]. split; [apply authorized_blind|]. by exists row, full.
  - intros query d items n. unfold list_stocktakes. rewrite Hctx. unfold mbind, result_bind.
    destruct (all_ok _ _) as [l|e] eqn:E; [|done]. intros [= <- _]. revert l E.
    induction (page _ _ _) as [|row rows IH]; intros l E; simpl in E; [by injection E as <-|].
    destruct (toListItem collate d false row) as [item|e] eqn:Ei; [|done].
    unfold mbind, result_bind in E. destruct (all_ok _ rows) as [l'|e'] eqn:E'; [|done].
    injection E as <-. constructor; [|by apply IH]. unfold toListItem in Ei.
    destruct (warehouses _ !! _); [|done]. by injection Ei as <-.
  - intros scope payload body s r s' Hs H. unfold stk_tx in H. apply command_records in H as (_ & _ & prior & full & _ & _ & _ & ->); [|done].
    rewrite Hctx. apply authorized_blind.
Qed.

(** The text that identifies a payload depends on its value only: the stable texts of
    two payloads are equal exactly when the payloads are equal up to the order of the
    keys of their objects. *)
Theorem stable_json_canonical j j' : distinct_keys j -> stableJson j = stableJson j' <-> same_value j j'.
Proof. apply stableJson_same. Qed.

(** * Witnesses *)

Definition demo_session : StocktakeRow :=
  mkStocktake "s1" "ST-1" "w1" S_REVIEW SC_WAREHOUSE (JObj []) 3 None "admin" (Some "counter") None (Some 1%Z)
    (Some 2%Z) None None 0.
Definition demo_sheet_item : StocktakeItem :=
  Stocktake.mkItem "i1" "s1" "l1" "v1" 10 (Some 7%Z) (Some (-3)%Z) (Some 2%Z) None None (Some "counter").
Definition demo_tables : StkTables :=
  mkStkTables {["s1" := demo_session]} {["i1" := demo_sheet_item]}
    {["v1" := mkVariantInfo "v1" "SKU-1" None "Yarn"]}.
Definition demo_domain : Domain StkTables := mkDomain demo_places demo_tables.
Definition demo_stk : stk_store := mkStore demo_domain ∅.
Definition demo_approver : StocktakeContext := mkContext "admin" None "key-12345" true.
Definition demo_counter : StocktakeContext := mkContext "admin" None "key-12345" false.
Definition demo_approve : StkCommand := StkApprove "s1" 3.

Lemma demo_sheet_ok : sheet_ok demo_tables.
Proof.
  unfold sheet_ok, demo_tables. cbn [stocktakes stk_items]. split; [|split].
  - intros id r [<- <-]%lookup_singleton_Some. done.
  - intros id i [<- <-]%lookup_singleton_Some. done.
  - intros item k1 k2 i1 i2 [<- _]%lookup_singleton_Some [<- _]%lookup_singleton_Some _ _. done.
Qed.

Lemma demo_stk_ok : store_ok sheet_ok demo_stk.
Proof. split; [exact demo_places_inv|]. split; [exact demo_sheet_ok|exact records_ok_empty]. Qed.

Definition demo_approval := approve_tx demo_cuid byCodeUnit 5 "s1" 3 demo_approver demo_domain.

Lemma stocktake_approval_exact_witness :
  match demo_approval with
  | Ok (a, d') => level demo_key (inv_of d') = (7, 4, 3)%Z /\
      level (line_stock demo_session demo_sheet_item) (inv_of d') = (7, 4, 3)%Z
  | Err _ => False
  end.
Proof.
  destruct demo_approval as [[a d']|e] eqn:E; [|by vm_compute in E].
  destruct (stocktake_approval_exact demo_cuid byCodeUnit 5 "s1" 3 demo_approver demo_domain a d'
    demo_places_inv demo_sheet_ok E) as (row & row' & Hr & _ & _ & _ & _ & Hin & _).
  assert (row = demo_session) as -> by (vm_compute in Hr; injection Hr as <-; reflexivity). clear E.
  assert (Hi : demo_sheet_item ∈ items_of byCodeUnit "s1" (own demo_domain)) by (vm_compute; constructor 1).
  destruct (Hin demo_sheet_item Hi) as [_ Hl]. split; exact Hl.
Defined.

Definition quiet_env : env stk_store := mkEnv (fun _ s => s) (fun _ => None).
Lemma quiet_rely : store_rely sheet_ok quiet_env.
Proof. intros k s H. by split. Qed.

Lemma stocktake_commands_safe_witness :
  is_ok (fst (run_stocktake demo_cuid byCodeUnit id quiet_env 5 demo_approve demo_approver demo_stk)) = true /\
  store_ok sheet_ok (snd (run_stocktake demo_cuid byCodeUnit id quiet_env 5 demo_approve demo_approver demo_stk)).
Proof.
  split; [vm_compute; reflexivity|].
  pose proof (stocktake_commands_safe demo_cuid byCodeUnit id quiet_env 5 demo_approve demo_approver demo_stk
    quiet_rely demo_stk_ok) as H.
  exact (proj1 H).
Defined.

Definition demo_first := stk_tx demo_cuid byCodeUnit id "approve:s1" (version_payload 3) demo_approver
  (approve_tx demo_cuid byCodeUnit 5 "s1" 3 demo_approver) demo_stk.
Definition demo_repeat (v : Z) (s : stk_store) := stk_tx demo_cuid byCodeUnit id "approve:s1" (version_payload v)
  demo_counter (approve_tx demo_cuid byCodeUnit 9 "s1" v demo_counter) s.

Lemma stocktake_runs_once_witness :
  match demo_first with
  | Ok (r, s') => is_ok (demo_repeat 3 s') = true /\ demo_repeat 4 s' = Err (ct_reused stk_texts)
  | Err _ => False
  end.
Proof.
  destruct demo_first as [[r s']|e] eqn:E; [|by vm_compute in E].
  assert (Hs' : records_ok (records s')).
  { unfold demo_first, stk_tx in E. eapply command_records in E as [E _]; [exact E|exact records_ok_empty]. }
  split.
  - destruct (stocktake_runs_once demo_cuid byCodeUnit id 5 demo_approve demo_approver "approve:s1" (version_payload 3)
      _ demo_stk r s' 9 demo_approve demo_counter (version_payload 3) _ s' eq_refl eq_refl eq_refl eq_refl
      (fun H => H) records_ok_empty E Hs' (reflexivity _)) as (full & _ & H & _).
    destruct H as (s3 & H & _).
    + apply stableJson_same; [solve_distinct|reflexivity].
    + unfold demo_repeat. rewrite H. reflexivity.
  - destruct (stocktake_runs_once demo_cuid byCodeUnit id 5 demo_approve demo_approver "approve:s1" (version_payload 3)
      _ demo_stk r s' 9 (StkApprove "s1" 4) demo_counter (version_payload 4) _ s' eq_refl eq_refl eq_refl eq_refl
      (fun H => H) records_ok_empty E Hs' (reflexivity _)) as (full & _ & _ & H).
    apply H. clear. intros H. apply stableJson_same in H; [vm_compute in H; discriminate|solve_distinct].
Defined.

Lemma stocktake_blind_count_witness :
  match get_stocktake byCodeUnit "s1" demo_counter demo_domain with
  | Ok r => blind_detail r
  | Err _ => False
  end.
Proof.
  destruct (get_stocktake byCodeUnit "s1" demo_counter demo_domain) as [r|e] eqn:E; [|by vm_compute in E].
  destruct (stocktake_blind_count demo_cuid byCodeUnit id demo_counter eq_refl) as [H _].
  exact (proj1 (H "s1" demo_domain r E)).
Defined.

Lemma stable_json_canonical_witness :
  stableJson (JObj [("a", JNum 1); ("b", JNum 2)]) = stableJson (JObj [("b", JNum 2); ("a", JNum 1)]) /\
  same_value (JObj [("a", JNum 1); ("b", JNum 2)]) (JObj [("b", JNum 2); ("a", JNum 1)]).
Proof.
  split; [reflexivity|]. apply stable_json_canonical; [solve_distinct|reflexivity].
Defined.

(** Two warehouses may use one location code.  Listed without a warehouse, such locations
    compare equal, and when the database reads the table in another order for the second
    page, the page repeats a location and another one is never shown. *)
Definition demo_shelves : Domain StkTables :=
  mkDomain (set_locations {["l1" := mkLocation "l1" "w1" "A-1" None None None None None None true;
    "l2" := mkLocation "l2" "w2" "A-1" None None None None None None true]} demo_places) demo_tables.
Definition options_page (scan : forall R, list R -> list R) (offset : Z) : list string :=
  op_id <$> fst (location_options byCodeUnit (fun _ _ => true) scan None None offset 1 demo_shelves).
Example shared_code_repeated :
  options_page (fun _ l => l) 0 = ["l1"] /\ options_page (fun _ l => reverse l) 1 = ["l1"].
Proof. split; vm_compute; reflexivity. Qed.
