(* ===== verification/PurchasingProperties.v ===== *)
(** The properties of purchasing: which order lines are accepted, what a receipt posts,
    the safety of every command among other clients, and the bounds that hold in every
    history. *)

From S2P Require Import Prelude Table Paging Json StableJson AuditTrail Retry InventoryModel Inventory.
From S2P Require Import InventoryLedger InventoryProofs Durable DurableSafety.
From S2P Require Import Purchasing PurchasingProofs PurchasingOrders PurchasingCommands PurchasingReceipts.
From S2P Require Import InventoryProperties.

(** * Prepared commands *)

Section commands.
Context (cuid : nat -> string) (collate : string -> string -> Z) (hash : string -> string).

Lemma optional_lines items ls :
  (match items with
   | Some items => checked ← normalizeLines items; Ok (Some checked)
   | None => Ok None
   end) = Ok ls -> optional_lines_ok ls.
Proof.
  intros H l ->. destruct items as [items|]; [|done]. unfold mbind, result_bind in H.
  destruct (normalizeLines items) as [checked|e] eqn:E; [|done]. injection H as <-.
  by apply normalized_lines in E as (H1 & _ & H2 & _).
Qed.

Lemma prepared_order_ok cmd ctx scope payload body d a d' :
  inv (inv_of d) -> pur_ok (own d) -> prepare_order cuid collate cmd ctx = Ok (scope, payload, body) ->
  body d = Ok (a, d') -> exists es, order_body_ok cmd es d d'.
Proof.
  intros Hinv Hok Hp H. destruct cmd as [uuid id input|uuid input|id input|id v|id v]; simpl in Hp;
    unfold mbind, result_bind in Hp.
  - destruct (receive_input id input) as [[[reference lines] quantities]|e] eqn:E; [|done]. injection Hp as _ _ <-.
    apply receive_input_ok in E. eapply receive_tx_ok in H as (row & row' & _ & _ & _ & _ & Hb); [|done..].
    by eexists.
  - destruct (normalizeLines _) as [ls|e] eqn:E; [|done]. injection Hp as _ _ <-.
    apply normalized_lines in E as (H1 & _ & H2 & _). eexists. by eapply create_order_tx_ok.
  - destruct (assertCommandTarget _ _) as [u|e]; [|done]. destruct (_ && _); [done|].
    destruct (match pu_items input with Some _ => _ | None => _ end) as [ls|e] eqn:E; [|done]. injection Hp as _ _ <-.
    apply optional_lines in E. eexists. by eapply update_order_tx_ok.
  - destruct (assertCommandTarget _ _) as [u|e]; [|done]. injection Hp as _ _ <-. eexists.
    by eapply (transition_order_tx_ok _ (PurApprove id v)).
  - destruct (assertCommandTarget _ _) as [u|e]; [|done]. injection Hp as _ _ <-. eexists.
    by eapply (transition_order_tx_ok _ (PurCancel id v)).
Qed.

Lemma prepared_order_safe cmd ctx scope payload body :
  prepare_order cuid collate cmd ctx = Ok (scope, payload, body) -> safe_body pur_ok (order_step cmd) body.
Proof.
  intros Hp d a d' Hinv Hok H. destruct (prepared_order_ok cmd ctx scope payload body d a d' Hinv Hok Hp H) as (es & H1 & H2 & H3).
  split; [by exists es|]. by split.
Qed.

Lemma purchasing_outcome E cmd ctx s scope payload body :
  store_rely pur_ok E -> store_ok pur_ok s -> prepare_order cuid collate cmd ctx = Ok (scope, payload, body) ->
  durable_outcome pur_ok (order_step cmd) E (pur_command_id hash scope payload ctx) s
    (run_purchasing cuid collate hash E cmd ctx s).
Proof.
  intros HE Hs Hp. unfold run_purchasing. rewrite Hp. destruct (negb _).
  - split; [done|]. split; [reflexivity|]. by left.
  - apply durable_public; [done|by eapply prepared_order_safe| |done]. intros t d r d' H. by run_inv.
Qed.
End commands.

(** * Histories *)

(** The stores that sequences of commands produce, with any attempts aborted, from an
    inventory in order and empty order tables. *)
Inductive purchase_history (cuid : nat -> string) (collate : string -> string -> Z) (hash : string -> string)
    : pur_store -> Prop :=
  | history_start db sup cat : inv db ->
      purchase_history cuid collate hash (mkStore (mkDomain db (mkPurTables ∅ ∅ ∅ ∅ sup cat)) ∅)
  | history_command s aborts cmd ctx : purchase_history cuid collate hash s ->
      purchase_history cuid collate hash (snd (run_purchasing cuid collate hash (mkEnv (fun _ s => s) aborts) cmd ctx s)).

Lemma pur_ok_start sup cat : pur_ok (mkPurTables ∅ ∅ ∅ ∅ sup cat).
Proof.
  split; cbn [orders order_items receipt_lines]; try (intros id r H; by rewrite lookup_empty in H).
  - intros oid v k1 k2 i1 i2 H. by rewrite lookup_empty in H.
  - intros oid. unfold order_total. rewrite tsum_empty. by unfold MAX_I64.
Qed.

Lemma history_ok cuid collate hash s : purchase_history cuid collate hash s -> store_ok pur_ok s.
Proof.
  induction 1 as [db sup cat Hinv|s aborts cmd ctx _ IH].
  - split; [done|]. split; [apply pur_ok_start|].
    apply records_ok_empty.
  - destruct (prepare_order cuid collate cmd ctx) as [[[scope payload] body]|e] eqn:Hp.
    + eapply (purchasing_outcome cuid collate hash _ cmd ctx s) in Hp as [H _]; [exact H| |done]. intros k s0 H0. by split.
    + unfold run_purchasing. by rewrite Hp.
Qed.

(** * Properties *)

(** [normalizeLines] is a checked constructor of order lines.  It accepts an input
    exactly when it has 1 to 100 lines with distinct variants, whole quantities from one
    to a million, positive decimal costs without leading zeros, and a total that fits the
    64-bit column, computed without overflow on the way; and what it returns are these
    lines, each well formed, in the order of their variants. *)
Theorem order_lines_normalized items ls :
  normalizeLines items = Ok ls <->
  inputs_ok items /\ ls = js_sort by_line_variant (input_line <$> items) /\
  Forall line_ok ls /\ NoDup (ln_variantId <$> ls) /\ (sumZ line_cost ls <= MAX_I64)%Z.
Proof.
  split; [|intros (H1 & H2 & _); by apply normalizeLines_ok].
  intros H. pose proof H as H'. apply normalizeLines_ok in H' as [H1 H2]. apply normalized_lines in H as (H3 & H4 & H5 & _).
  done.
Qed.

(** [C24] A receipt posts exactly what was delivered.  When [receive] succeeds, the stock
    on hand and available of every key rises by the sum of the delivered lines at it and
    nothing else moves; each line has its receipt line and its RECEIPT movement of the
    same quantity; each item of the order rises by what was delivered of its variant; the
    reference was not used before for the order; and the order is RECEIVED exactly when
    every item is now complete, at the next version. *)
Theorem receipt_posts_delivery cuid collate uuid id input reference lines quantities ctx d a d' :
  inv (inv_of d) -> pur_ok (own d) -> receive_input id input = Ok (reference, lines, quantities) ->
  receive_tx cuid collate uuid id (rx_expectedVersion input) reference lines quantities ctx d = Ok (a, d') ->
  exists row row', orders (own d) !! id = Some row /\ orders (own d') !! id = Some row' /\
    receipt_done uuid id reference row lines quantities d d' /\
    refines (delivery_event (po_warehouseId row) <$> lines) (inv_of d) (inv_of d') /\
    (forall v, quantity_of v quantities = sumZ (delivered_of v) lines) /\
    po_version row' = (po_version row + 1)%Z /\
    (po_status row' = PO_RECEIVED \/ po_status row' = PO_PARTIALLY_RECEIVED) /\
    (po_status row' = PO_RECEIVED <->
     forall k i, order_items (own d') !! k = Some i -> oi_orderId i = id -> oi_receivedQty i = oi_orderedQty i).
Proof.
  intros Hinv Hok Hin H. apply receive_input_ok in Hin.
  eapply (receive_tx_ok cuid collate uuid id input) in H as (row & row' & Hr & Hr' & Hs & Hdone & Href & Hok' & Hstep); [|done..].
  destruct Hstep as (r & r' & H1 & H2 & [_ Hto] & H4 & _ & H6). pose proof Hr' as Hr''. rewrite H6, lookup_insert_eq in Hr''.
  assert (r = row) as -> by congruence. assert (r' = row') as -> by congruence.
  exists row, row'. split; [done|]. split; [done|]. split; [done|]. split; [done|].
  split; [apply Hin|]. split; [congruence|]. split; [tauto|].
  pose proof (ok_progress _ Hok' _ _ Hr') as Hp. pose proof (ok_orders _ Hok' _ _ Hr') as Hid. unfold progress_ok in Hp.
  rewrite Hid in Hp. destruct Hto as [Hto|Hto]; rewrite Hto in *; [|split; [intros _; exact Hp|done]].
  split; [done|]. intros Hall. destruct Hp as [_ (k & i & Hk & Ho & Hlt)]. specialize (Hall k i Hk Ho). lia.
Qed.

(** Every purchasing command is safe among other clients.  Whatever the other clients
    commit between the attempts, as long as they keep the invariants, a command ends in a
    state in which the stock, the orders and the command records are in order; a success
    committed once, from the record of its key with nothing changed, or by the one
    transition that its kind allows of the order it names at the expected version, or by
    the creation of a draft; an error leaves nothing of the command behind. *)
Theorem purchasing_commands_safe cuid collate hash (E : env pur_store) cmd ctx s :
  store_rely pur_ok E -> store_ok pur_ok s ->
  match prepare_order cuid collate cmd ctx with
  | Ok (scope, payload, _) =>
      durable_outcome pur_ok (order_step cmd) E (pur_command_id hash scope payload ctx) s
        (run_purchasing cuid collate hash E cmd ctx s)
  | Err e => run_purchasing cuid collate hash E cmd ctx s = (Err e, s)
  end.
Proof.
  intros HE Hs. destruct (prepare_order cuid collate cmd ctx) as [[[scope payload] body]|e] eqn:Hp.
  - by eapply purchasing_outcome.
  - unfold run_purchasing. by rewrite Hp.
Qed.

(** [C29] In every history of purchasing commands the quantities and costs of orders stay in
    their ranges: an item's received quantity is the sum of its receipt lines, never
    negative and never more than ordered, which is at most a million; the cost of an order
    fits a signed 64-bit integer; nothing is received of a draft, approved or cancelled
    order, everything of a received one, and something but not all of a partially received
    one. *)
Theorem order_quantities_bounded cuid collate hash s :
  purchase_history cuid collate hash s ->
  let x := own (domain s) in
  (forall id i, order_items x !! id = Some i ->
     (oi_receivedQty i = delivered id (receipt_lines x) /\ 0 <= oi_receivedQty i <= oi_orderedQty i /\
      1 <= oi_orderedQty i <= 1000000 /\ 1 <= oi_unitCost i)%Z) /\
  (forall oid, order_total oid (order_items x) <= MAX_I64)%Z /\
  (forall id r, orders x !! id = Some r -> progress_ok (order_items x) r).
Proof.
  intros H. apply history_ok in H as (_ & Hok & _). split; [|split].
  - intros id i Hi. destruct (ok_items _ Hok id i Hi) as (_ & (H1 & H2 & H3) & _).
    split; [by apply (ok_received _ Hok)|done].
  - apply (ok_totals _ Hok).
  - apply (ok_progress _ Hok).
Qed.

(** * Witnesses *)

Lemma order_lines_normalized_example :
  normalizeLines [mkItemInput "v2" (Int 3) "250"; mkItemInput "v1" (Int 2) "1000"] =
    Ok [mkLine "v1" 2 1000; mkLine "v2" 3 250].
Proof. vm_compute. reflexivity. Qed.

Definition demo_order : OrderRow := mkOrder "o1" "PO-1" "s1" "w1" PO_APPROVED 2 None None 0.
Definition demo_order_item : OrderItem := mkOrderItem "p1" "o1" "v1" 5 0 100.
Definition demo_purchases : PurTables :=
  mkPurTables {["o1" := demo_order]} {["p1" := demo_order_item]} ∅ ∅ {["s1" := mkSupplierInfo "SUP" "Supplier" true]}
    {["v1" := mkCatalogVariant "v1" "SKU-1" None "Yarn" true true true]}.
Definition demo_purchasing : Domain PurTables := mkDomain demo_places demo_purchases.
Definition demo_pur_store : pur_store := mkStore demo_purchasing ∅.
Definition demo_buyer : PurContext := mkPurContext "buyer" None "key-12345".
Definition demo_uuid (n : nat) : string := "u" +:+ pretty n.
Definition demo_delivery : PurchaseReceiptCreateDto :=
  mkReceiptCreate (Int 2) " D-77 " [mkReceiptInput "v1" "l1" (Int 3)].

Lemma demo_pur_ok : pur_ok demo_purchases.
Proof.
  unfold demo_purchases. split; cbn [orders order_items receipt_lines].
  - intros id r [<- <-]%lookup_singleton_Some. done.
  - intros id i [<- <-]%lookup_singleton_Some. split; [done|]. split; [unfold item_ok; simpl; lia|by eexists].
  - intros oid v k1 k2 i1 i2 [<- _]%lookup_singleton_Some [<- _]%lookup_singleton_Some _ _. done.
  - intros oid. unfold order_total. rewrite <- insert_empty, tsum_insert_new, tsum_empty by done.
    unfold item_cost, MAX_I64. simpl. destruct (bool_decide _); lia.
  - intros id l H. by rewrite lookup_empty in H.
  - intros id i [<- <-]%lookup_singleton_Some. done.
  - intros id r [<- <-]%lookup_singleton_Some. intros k i [_ <-]%lookup_singleton_Some _. done.
Qed.

Definition demo_receive := receive_tx demo_cuid byCodeUnit demo_uuid "o1" (Int 2) "D-77" [mkDelivery "v1" "l1" 3]
  [("v1", 3%Z)] demo_buyer demo_purchasing.

Lemma receipt_posts_delivery_witness :
  match demo_receive with
  | Ok (a, d') => level demo_key (inv_of d') = (13, 4, 9)%Z /\
      plus (level demo_key demo_places) (sumZ (delivered_at "w1" demo_key) [mkDelivery "v1" "l1" 3]) = (13, 4, 9)%Z
  | Err _ => False
  end.
Proof.
  destruct demo_receive as [[a d']|e] eqn:E; [|by vm_compute in E].
  destruct (receipt_posts_delivery demo_cuid byCodeUnit demo_uuid "o1" demo_delivery "D-77" [mkDelivery "v1" "l1" 3]
    [("v1", 3%Z)] demo_buyer demo_purchasing a d' demo_places_inv demo_pur_ok eq_refl E)
    as (row & row' & Hr & _ & [Hl _] & _).
  assert (row = demo_order) as -> by (vm_compute in Hr; injection Hr as <-; reflexivity). clear E Hr.
  specialize (Hl demo_key). split; [rewrite Hl|]; vm_compute; reflexivity.
Defined.

Definition demo_quiet : env pur_store := mkEnv (fun _ s => s) (fun _ => None).

Lemma demo_pur_store_ok : store_ok pur_ok demo_pur_store.
Proof. split; [exact demo_places_inv|]. split; [exact demo_pur_ok|apply records_ok_empty]. Qed.

Lemma demo_quiet_rely : store_rely pur_ok demo_quiet.
Proof. intros k s H. by split. Qed.

Definition demo_run := run_purchasing demo_cuid byCodeUnit id demo_quiet (PurReceive demo_uuid "o1" demo_delivery)
  demo_buyer demo_pur_store.

Lemma purchasing_commands_safe_witness : is_ok (fst demo_run) = true /\ store_ok pur_ok (snd demo_run).
Proof.
  split; [vm_compute; reflexivity|].
  pose proof (purchasing_commands_safe demo_cuid byCodeUnit id demo_quiet (PurReceive demo_uuid "o1" demo_delivery)
    demo_buyer demo_pur_store demo_quiet_rely demo_pur_store_ok) as H.
  exact (proj1 H).
Defined.

(** A draft created from empty tables. *)
Definition demo_start : pur_store :=
  mkStore (mkDomain demo_places (mkPurTables ∅ ∅ ∅ ∅ (suppliers demo_purchases) (catalog demo_purchases))) ∅.
Definition demo_created : pur_store :=
  snd (run_purchasing demo_cuid byCodeUnit id (mkEnv (fun _ s => s) (fun _ => None))
    (PurCreate demo_uuid (mkPurCreate "s1" "w1" None None [mkItemInput "v1" (Int 2) "1000"])) demo_buyer demo_start).

Lemma order_quantities_bounded_witness :
  size (order_items (own (domain demo_created))) = 1%nat /\
  forall oid, (order_total oid (order_items (own (domain demo_created))) <= MAX_I64)%Z.
Proof.
  split; [vm_compute; reflexivity|].
  assert (H : purchase_history demo_cuid byCodeUnit id demo_created).
  { apply history_command, history_start, demo_places_inv. }
  exact (proj1 (proj2 (order_quantities_bounded demo_cuid byCodeUnit id demo_created H))).
Defined.
