(* ===== verification/TransferProperties.v ===== *)
(** The stock commands leave the transfer tables alone: any property of these tables
    is preserved by the operations on balances, movements, reservations and audit
    rows, and so by every command but the transfer commands. *)

From S2P Require Import Prelude Retry Table Json AuditTrail InventoryModel Inventory InventoryLedger InventoryProofs.
From S2P Require Import InventoryExpiry InventoryTransfer TransferProofs InventorySafety InventoryProperties.

Section frame.
Context (cuid : nat -> string) (P : InvDb -> Prop).
Hypothesis frame : forall db db',
  transfers db' = transfers db -> transferTransitions db' = transferTransitions db -> P db -> P db'.

Ltac framed := intros; eapply frame; [..|eassumption]; reflexivity.
#[local] Hint Extern 1 (preserves P (modify _)) => (apply preserves_modify; framed) : pres.

Lemma frame_lock parts : preserves P (advisory_lock parts).
Proof using frame. apply preserves_modify. framed. Qed.
Lemma frame_record input : preserves P (record (S := InvDb) input).
Proof using frame. apply preserves_zoom. framed. Qed.
Lemma frame_recordMany inputs : preserves P (recordMany (S := InvDb) inputs).
Proof using frame. destruct inputs; [apply preserves_ret|]. apply preserves_zoom. framed. Qed.
Lemma frame_fresh_id : preserves P (fresh_id cuid).
Proof using frame. intros db a db' H [= _ <-]. eapply frame; [..|exact H]; reflexivity. Qed.
Lemma frame_write_balance b : preserves P (write_balance b).
Proof using frame. unfold write_balance. solve_preserves. Qed.
#[local] Hint Resolve frame_lock frame_record frame_recordMany frame_fresh_id frame_write_balance : pres.

Lemma frame_update_balance_id id f : preserves P (update_balance_id id f).
Proof using frame. unfold update_balance_id. eauto with pres. Qed.
Lemma frame_update_balance_key k f : preserves P (update_balance_key k f).
Proof using frame. unfold update_balance_key. eauto with pres. Qed.
Lemma frame_upsert k oh rs av f : preserves P (upsert_balance cuid k oh rs av f).
Proof using frame. unfold upsert_balance. solve_preserves. Qed.
Lemma frame_create_movement k t q before after rt ri reason ik :
  preserves P (create_movement cuid k t q before after rt ri reason ik).
Proof using frame. unfold create_movement. solve_preserves. Qed.
Lemma frame_create_reservation k orderId q e ik :
  preserves P (create_reservation cuid k orderId q e ik).
Proof using frame. unfold create_reservation. solve_preserves. Qed.
Lemma frame_update_status id st : preserves P (update_reservation_status id st).
Proof using frame. unfold update_reservation_status. solve_preserves. Qed.
Lemma frame_identity k : preserves P (assertStockIdentity k).
Proof using frame. intros db u db' H E. by apply assertStockIdentity_ok in E as [= _ ->]. Qed.
Lemma frame_begin {A} (m : M InvDb A) : preserves P m -> preserves P (begin_tx m).
Proof using frame. intros H. apply preserves_bind; [apply preserves_modify; framed|done]. Qed.

#[local] Hint Resolve frame_update_balance_id frame_update_balance_key frame_upsert frame_create_movement
  frame_create_reservation frame_update_status frame_identity : pres.

Lemma frame_consumeSingle r ctx : preserves P (consumeSingleReservation cuid r ctx).
Proof using frame. unfold consumeSingleReservation, acquireBalanceLock. solve_preserves. Qed.
Lemma frame_rebalance r st action ctx sys : preserves P (rebalanceReservationRelease r st action ctx sys).
Proof using frame. unfold rebalanceReservationRelease, acquireBalanceLock. solve_preserves. Qed.
Lemma frame_update_group g : preserves P (update_group g).
Proof using frame. unfold update_group. solve_preserves. Qed.
Lemma frame_transition rid bid r v now apply :
  (forall r b, preserves P (apply r b)) -> preserves P (transition_tx rid bid r v now apply).
Proof using frame. intros H. unfold transition_tx, acquireBalanceLock. solve_preserves. Qed.
#[local] Hint Resolve frame_consumeSingle frame_rebalance frame_update_group : pres.

Definition stock_command (cmd : Command) : Prop :=
  match cmd with CmdCreateTransfer _ _ | CmdTransfer _ _ _ => False | _ => True end.

Lemma frame_execute past cmd : stock_command cmd -> preserves P (execute cuid past cmd).
Proof using frame.
  intros Hc. destruct cmd; try done; unfold execute; solve_preserves; apply frame_begin.
  - unfold changeOnHandIn, acquireBalanceLock. solve_preserves.
  - unfold reserveIn, acquireBalanceLock. solve_preserves.
  - apply frame_transition. intros. unfold release_apply. solve_preserves.
  - apply frame_transition. intros. unfold consume_apply. solve_preserves.
  - unfold transitionProductionReservationIn. solve_preserves.
  - unfold expire_tx, acquireBalanceLock. solve_preserves.
Qed.
End frame.

(** The properties of stock transfers: conservation of the stock of a variant between
    shelves and transit, the life cycle of a transfer in every history of commands,
    and idempotent repetition. *)

(** * Totals per variant *)

(** [z] at the keys of variant [v]. *)
Definition of_variant (v : string) (k : StockKey) (z : Z) : Z :=
  if bool_decide (variantId k = v) then z else 0%Z.

(** The stock of a variant on the shelves of all locations. *)
Definition variant_stock (v : string) (db : InvDb) : Z :=
  tsum (fun b => of_variant v (b_key b) (b_onHand b)) (balances db).

Definition item_quantity (v : string) (item : TransferItem) : Z :=
  if bool_decide (i_variantId item = v) then i_quantity item else 0%Z.
Definition transfer_quantity (v : string) (t : StockTransfer) : Z := sumZ (item_quantity v) (t_items t).
(** The stock of a variant that left its source and has not arrived. *)
Definition in_transit (v : string) (db : InvDb) : Z :=
  tsum (fun t => if bool_decide (t_status t = T_IN_TRANSIT) then transfer_quantity v t else 0%Z) (transfers db).

Lemma sum_at_key (f : StockKey -> Z -> Z) ks k0 z :
  (forall k, f k 0 = 0)%Z -> NoDup ks -> k0 ∈ ks -> sumZ (fun k => f k (at_key k0 k z)) ks = f k0 z.
Proof.
  intros Hf. induction ks as [|k ks IH]; intros Hnd Hin; [by apply elem_of_nil in Hin|].
  apply NoDup_cons in Hnd as [Hk Hnd]. rewrite sumZ_cons. apply elem_of_cons in Hin as [->|Hin].
  - unfold at_key at 1. rewrite decide_True by done. rewrite (sumZ_ext _ (fun _ => 0%Z)).
    + rewrite sumZ_const. lia.
    + intros k' Hk'. unfold at_key. rewrite decide_False by (intros ->; contradiction). apply Hf.
  - rewrite IH by done. unfold at_key. rewrite decide_False by (intros ->; contradiction). rewrite Hf. lia.
Qed.

Lemma of_variant_0 v k : of_variant v k 0 = 0%Z.
Proof. unfold of_variant. by destruct (bool_decide _). Qed.

Lemma of_variant_sum {A} v k (f : A -> Z) l : of_variant v k (sumZ f l) = sumZ (fun a => of_variant v k (f a)) l.
Proof.
  unfold of_variant. destruct (bool_decide _); [done|]. by rewrite sumZ_const.
Qed.

(** The total over the table is the total over any list that holds its keys. *)
Lemma variant_stock_keys v ks db :
  inv db -> NoDup ks -> (forall b, b ∈ rows (balances db) -> b_key b ∈ ks) ->
  variant_stock v db = sumZ (fun k => of_variant v k (onHand (abs db) k)) ks.
Proof.
  intros Hinv Hnd Hks. unfold variant_stock. rewrite tsum_rows.
  rewrite (sumZ_ext _ (fun b => sumZ (fun k => of_variant v k (at_key (b_key b) k (b_onHand b))) ks)).
  2: { intros b Hb. rewrite sum_at_key; [done|apply of_variant_0|done|by apply Hks]. }
  rewrite sumZ_swap. apply sumZ_ext. intros k _. rewrite <- of_variant_sum. f_equal.
  rewrite <- tsum_rows. cbn [abs onHand]. rewrite (level_row k db Hinv). cbn [fst].
  unfold find_balance. rewrite <- tsum_unique.
  - apply tsum_ext. intros id b _. unfold at_key, has_key. case_decide as H1; case_bool_decide; congruence.
  - destruct Hinv as [(_ & _ & Hu) _]. apply Hu.
Qed.

Lemma changes_onHand ms s s' k :
  asteps (change_event <$> ms) s s' -> onHand s' k = (onHand s k + sumZ (change_at k) ms)%Z.
Proof.
  revert s. induction ms as [|[k0 d] ms IH]; intros s; simpl.
  - intros [H _]. rewrite H. lia.
  - intros (s1 & (_ & _ & [Hs1 _]) & Hs'). apply IH in Hs' as ->. rewrite Hs1. simpl.
    unfold change_at at 2. simpl. lia.
Qed.

(** Stock changes move the total of a variant by the changes at its keys. *)
Lemma variant_stock_changes v ms db db' :
  inv db -> refines (change_event <$> ms) db db' ->
  variant_stock v db' = (variant_stock v db + sumZ (fun m => of_variant v (fst m) (snd m)) ms)%Z.
Proof.
  intros Hinv (Hinv' & _ & Hsteps).
  set (ks := unique ((b_key <$> rows (balances db)) ++ (b_key <$> rows (balances db')) ++ (fst <$> ms))).
  assert (Hin : forall b, b ∈ rows (balances db) -> b_key b ∈ ks).
  { intros b Hb. apply elem_of_unique, elem_of_app. left. by apply list_elem_of_fmap_2. }
  assert (Hin' : forall b, b ∈ rows (balances db') -> b_key b ∈ ks).
  { intros b Hb. apply elem_of_unique, elem_of_app. right. apply elem_of_app. left. by apply list_elem_of_fmap_2. }
  assert (Hms : forall m, m ∈ ms -> fst m ∈ ks).
  { intros m Hm. apply elem_of_unique, elem_of_app. right. apply elem_of_app. right. by apply list_elem_of_fmap_2. }
  pose proof (NoDup_unique _ : NoDup ks) as Hnd.
  rewrite (variant_stock_keys v ks db), (variant_stock_keys v ks db') by done.
  rewrite (sumZ_ext _ (fun m => sumZ (fun k => of_variant v k (at_key (fst m) k (snd m))) ks) ms).
  2: { intros m Hm. rewrite sum_at_key; [done|apply of_variant_0|done|by apply Hms]. }
  rewrite sumZ_swap, <- sumZ_add. apply sumZ_ext. intros k _. rewrite (changes_onHand _ _ _ k Hsteps).
  rewrite <- of_variant_sum. unfold of_variant, change_at. destruct (bool_decide _); lia.
Qed.

Lemma transfer_moves_variant v d t :
  sumZ (fun m => of_variant v (fst m) (snd m)) (transfer_moves d t) =
  match d with out => - transfer_quantity v t | in_ => transfer_quantity v t end%Z.
Proof.
  unfold transfer_moves, transfer_quantity. rewrite sumZ_fmap.
  induction (t_items t) as [|i l IH]; [by destruct d|]. rewrite !sumZ_cons, IH. simpl.
  unfold item_quantity, of_variant. simpl. destruct d; simpl; destruct (bool_decide _); lia.
Qed.

(** * Conservation *)

Definition transit_weight (v : string) (t : StockTransfer) : Z :=
  if bool_decide (t_status t = T_IN_TRANSIT) then transfer_quantity v t else 0%Z.

(** What a step of a transfer adds to the shelves. *)
Definition shelf_change (v : string) (a : TransferAction) (t : StockTransfer) : Z :=
  match a with
  | dispatch => - transfer_quantity v t
  | receive => transfer_quantity v t
  | _ => 0
  end%Z.

Lemma moves_of_variant v a t :
  sumZ (fun m => of_variant v (fst m) (snd m)) (moves_of a t) = shelf_change v a t.
Proof. destruct a; try done; simpl; by rewrite transfer_moves_variant. Qed.

Lemma transit_step v a t :
  t_status t ∈ allowedFrom a ->
  transit_weight v (set_transfer_status (nextTransferStatus a) t) = (transit_weight v t - shelf_change v a t)%Z.
Proof.
  intros H. unfold transit_weight, transfer_quantity. cbn [set_transfer_status t_status t_items].
  destruct a; simpl in H; repeat (apply elem_of_cons in H as [H|H]; [rewrite H; simpl; unfold transfer_quantity; lia|]);
    by apply elem_of_nil in H.
Qed.

Lemma begin_same db : same_stock db (set_locks [] db).
Proof. by unfold same_stock. Qed.

(** The total of a step: the shelves and the transit move against each other. *)
Lemma step_conserves a id ctx db t' db' v :
  inv db -> transition_steps a id ctx (set_locks [] db) t' db' ->
  exists t, transfers db !! id = Some t /\
    variant_stock v db' = (variant_stock v db + shelf_change v a t)%Z /\
    in_transit v db' = (in_transit v db - shelf_change v a t)%Z.
Proof.
  intros Hinv (_ & t & Ht & Hs & _ & -> & Ht' & Href). exists t. split; [done|].
  apply refines_begin in Href; [|done]. apply (variant_stock_changes v) in Href as ->; [|done].
  rewrite moves_of_variant. split; [done|]. unfold in_transit. rewrite Ht'. simpl.
  rewrite (tsum_insert _ _ _ _ _ Ht). pose proof (transit_step v a t Hs) as Hstep.
  unfold transit_weight in Hstep. rewrite Hstep. cbn [transfers set_locks]. lia.
Qed.

(** [C23] Transfers conserve stock.  Whatever transfer command commits, the stock of each
    variant on the shelves of all warehouses plus the stock in transit is what it was:
    a dispatch moves exactly the transfer's quantities from the shelves into transit,
    a receipt moves exactly them back to the shelves, and creation, request, approval,
    cancellation and replays move nothing. *)
Theorem transfers_conserve_stock (cuid : nat -> string) past cmd db resp db' v :
  inv db -> ~ stock_command cmd -> execute cuid past cmd db = Ok (resp, db') ->
  (variant_stock v db' + in_transit v db' = variant_stock v db + in_transit v db)%Z /\
  variant_stock v db' = (variant_stock v db +
    match cmd with
    | CmdTransfer a id ctx =>
        if transition_replayed ctx db then 0 else from_option (shelf_change v a) 0 (transfers db !! id)
    | _ => 0
    end)%Z.
Proof.
  intros Hinv Hcmd H. destruct cmd as [| | | | | | | | |uuid c|a id ctx]; try (by destruct Hcmd; exact I); simpl in H.
  - begin_inv. apply createTransfer_tx_ok in Htx as [(_ & _ & _ & ->)|(_ & Hn & Hc & Ht & _ & Hb & _)].
    + split; [done|]. unfold variant_stock. simpl. lia.
    + unfold variant_stock, in_transit. rewrite Hb, Ht. simpl in Hn |- *. rewrite tsum_insert_new by done.
      destruct Hc as (_ & _ & _ & -> & _). simpl. lia.
  - begin_inv. apply inv_begin in Hinv as Hinv'. apply transitionTransfer_tx_ok in Htx as [Hr|Hs]; [| |done].
    + rewrite (proj1 (transition_replayed_eq a id ctx _ _ _) Hr : transition_replayed ctx db = true).
      destruct Hr as (_ & _ & -> & _). split; [done|]. unfold variant_stock. simpl. lia.
    + rewrite (proj2 (transition_replayed_eq a id ctx _ _ _) Hs : transition_replayed ctx db = false).
      destruct (step_conserves a id ctx db _ _ v Hinv Hs) as (t & -> & -> & ->). simpl. lia.
Qed.

(** * The life of a transfer *)

(** [follows acts s s']: the actions lead from status [s] to [s'], each one from a
    status in which it is allowed. *)
Fixpoint follows (acts : list TransferAction) (s s' : TransferStatus) : Prop :=
  match acts with
  | [] => s' = s
  | a :: acts => s ∈ allowedFrom a /\ follows acts (nextTransferStatus a) s'
  end.

(** The same transfer after [acts]: other columns than the status and the version,
    which counts the actions, do not change. *)
Definition advanced (acts : list TransferAction) (t t' : StockTransfer) : Prop :=
  follows acts (t_status t) (t_status t') /\
  t' = mkTransfer (t_id t) (t_code t) (t_sourceWarehouseId t) (t_targetWarehouseId t) (t_status t')
         (t_version t + Z.of_nat (length acts)) (t_idempotencyKey t) (t_items t) (t_createdAt t).

Lemma follows_app acts1 acts2 s1 s2 s3 :
  follows acts1 s1 s2 -> follows acts2 s2 s3 -> follows (acts1 ++ acts2) s1 s3.
Proof.
  revert s1. induction acts1 as [|a acts1 IH]; intros s1; simpl; [by intros ->|].
  intros [H1 H2] H3. split; [done|by apply IH].
Qed.

Lemma advanced_nil t : advanced [] t t.
Proof. split; [done|]. destruct t. simpl. f_equal. lia. Qed.

Lemma advanced_app acts1 acts2 t1 t2 t3 :
  advanced acts1 t1 t2 -> advanced acts2 t2 t3 -> advanced (acts1 ++ acts2) t1 t3.
Proof.
  intros [F1 E1] [F2 E2]. split; [by eapply follows_app|]. rewrite E2, E1. simpl.
  rewrite length_app, Nat2Z.inj_add. f_equal. lia.
Qed.

Lemma advanced_step a t :
  t_status t ∈ allowedFrom a -> advanced [a] t (set_transfer_status (nextTransferStatus a) t).
Proof. intros H. by repeat split. Qed.

(** The actions by which a draft reaches each status. *)
Definition lifecycle (s : TransferStatus) : list (list TransferAction) :=
  match s with
  | T_DRAFT => [[]]
  | T_REQUESTED => [[request]]
  | T_APPROVED => [[request; approve]]
  | T_IN_TRANSIT => [[request; approve; dispatch]]
  | T_RECEIVED => [[request; approve; dispatch; receive]]
  | T_CANCELLED => [[cancel]; [request; cancel]; [request; approve; cancel]]
  end.

Lemma follows_final acts s s' : s ∈ [T_RECEIVED; T_CANCELLED] -> follows acts s s' -> acts = [] /\ s' = s.
Proof.
  intros Hs. destruct acts as [|a acts]; [done|]. intros [H _]. exfalso.
  set_unfold. destruct Hs as [->|[->|[]]], a; simpl in H; set_unfold; intuition congruence.
Qed.

(** One action at a time: the first is forced by the status. *)
Lemma follows_lifecycle acts s : follows acts T_DRAFT s -> acts ∈ lifecycle s.
Proof.
  assert (Hc : forall acts s, follows acts T_CANCELLED s -> acts = [] /\ s = T_CANCELLED).
  { intros. apply follows_final; [set_solver|done]. }
  assert (Hr : forall acts s, follows acts T_RECEIVED s -> acts = [] /\ s = T_RECEIVED).
  { intros. apply follows_final; [set_solver|done]. }
  assert (Ht : forall acts s, follows acts T_IN_TRANSIT s ->
    (acts = [] /\ s = T_IN_TRANSIT) \/ (acts = [receive] /\ s = T_RECEIVED)).
  { intros [|a l] s0; [by left|]. intros [H F]. right. destruct a; simpl in H; set_unfold; try (intuition congruence).
    by apply Hr in F as [-> ->]. }
  assert (Ha : forall acts s, follows acts T_APPROVED s -> request :: approve :: acts ∈ lifecycle s).
  { intros [|a l] s0; simpl; [intros ->; set_solver|]. intros [H F].
    destruct a; simpl in H; set_unfold; try (intuition congruence).
    - apply Ht in F as [[-> ->]|[-> ->]]; set_solver.
    - apply Hc in F as [-> ->]. set_solver. }
  assert (Hq : forall acts s, follows acts T_REQUESTED s -> request :: acts ∈ lifecycle s).
  { intros [|a l] s0; simpl; [intros ->; set_solver|]. intros [H F].
    destruct a; simpl in H; set_unfold; try (intuition congruence).
    - by apply Ha.
    - apply Hc in F as [-> ->]. set_solver. }
  destruct acts as [|a l]; simpl; [intros ->; set_solver|]. intros [H F].
  destruct a; simpl in H; set_unfold; try (intuition congruence).
  - by apply Hq.
  - apply Hc in F as [-> ->]. set_solver.
Qed.

(** From one state of the tables to a later one: rows advance, and rows that are new
    advanced from a draft. *)
Definition is_draft (t : StockTransfer) : Prop := t_status t = T_DRAFT /\ t_version t = 0%Z.
Definition transfers_evolve (T T' : gmap string StockTransfer) : Prop :=
  (forall id t, T !! id = Some t -> exists acts t', T' !! id = Some t' /\ advanced acts t t') /\
  (forall id t', T !! id = None -> T' !! id = Some t' -> exists acts t, is_draft t /\ advanced acts t t').

#[export] Instance transfers_evolve_preorder : PreOrder transfers_evolve.
Proof.
  split.
  - intros T. split; [|congruence]. intros id t Ht. exists [], t. split; [done|apply advanced_nil].
  - intros T1 T2 T3 [A1 B1] [A2 B2]. split.
    + intros id t Ht. destruct (A1 id t Ht) as (acts1 & t2 & Ht2 & H1).
      destruct (A2 id t2 Ht2) as (acts2 & t3 & Ht3 & H2). exists (acts1 ++ acts2), t3.
      split; [done|by eapply advanced_app].
    + intros id t3 Hn Ht3. destruct (T2 !! id) as [t2|] eqn:E; [|by eapply B2].
      destruct (B1 id t2 Hn E) as (acts1 & t & Hd & H1). destruct (A2 id t2 E) as (acts2 & t3' & Ht3' & H2).
      simplify_eq. exists (acts1 ++ acts2), t. split; [done|by eapply advanced_app].
Qed.

Lemma evolve_new T t : T !! t_id t = None -> is_draft t -> transfers_evolve T (<[t_id t := t]> T).
Proof.
  intros Hn Hd. split.
  - intros id x Hx. exists [], x. split; [|apply advanced_nil]. rewrite lookup_insert_ne; [done|congruence].
  - intros id x Hid [[<- <-]|[_ Hx]]%lookup_insert_Some; [|congruence].
    exists [], t. split; [done|apply advanced_nil].
Qed.

Lemma evolve_step T id t a :
  T !! id = Some t -> t_status t ∈ allowedFrom a ->
  transfers_evolve T (<[id := set_transfer_status (nextTransferStatus a) t]> T).
Proof.
  intros Ht Ha. split.
  - intros i x Hx. destruct (decide (i = id)) as [->|Hne].
    + simplify_eq. exists [a], (set_transfer_status (nextTransferStatus a) t).
      split; [apply lookup_insert_eq|by apply advanced_step].
    + exists [], x. split; [by rewrite lookup_insert_ne|apply advanced_nil].
  - intros i x Hi [[<- <-]|[_ Hx]]%lookup_insert_Some; congruence.
Qed.

Lemma execute_transfers cuid past cmd db resp db' :
  inv db -> execute cuid past cmd db = Ok (resp, db') -> transfers_evolve (transfers db) (transfers db').
Proof.
  intros Hinv H. destruct cmd as [| | | | | | | | |uuid c|a id ctx].
  1-9: apply (frame_execute cuid (fun d => transfers_evolve (transfers db) (transfers d))) in H;
    [exact H|by intros ? ? -> _|exact I|reflexivity].
  - simpl in H. begin_inv. apply createTransfer_tx_ok in Htx as [(_ & _ & _ & ->)|(_ & Hn & Hc & -> & _)];
      [done|]. apply evolve_new; [done|]. by destruct Hc as (_ & _ & _ & ? & ? & _).
  - simpl in H. begin_inv. apply inv_begin in Hinv as Hinv'.
    apply transitionTransfer_tx_ok in Htx as [(_ & _ & -> & _)|(_ & t & Ht & Hs & _ & -> & -> & _)]; [done| |done].
    by apply evolve_step.
Qed.

Lemma history_transfers cuid db0 dbs es past :
  inv db0 -> history cuid db0 dbs es -> past ∈ dbs ->
  exists db, head dbs = Some db /\ transfers_evolve (transfers past) (transfers db).
Proof.
  intros Hinv0 H. revert past. induction H as [|past0 cmd db dbs es resp db' H IH Hp Hexec]; intros past Hin.
  - apply list_elem_of_singleton in Hin as ->. by exists db0.
  - exists db'. split; [done|]. apply elem_of_cons in Hin as [->|Hin]; [done|].
    destruct (IH past Hin) as (d & [= <-] & Hev). etrans; [exact Hev|].
    apply history_sound in H as (d & ds & [= <- <-] & Hinv & _); [|done]. by eapply execute_transfers.
Qed.

(** [C31] The life of a transfer.  From any state of a history of commands to its last
    one, a transfer keeps its identity, route and items, its version grows by one for
    each action taken on it, and every action was taken in a status that allows it.
    A draft, and so every transfer created on the way, reaches a status only by the
    actions of [lifecycle], each at most once: nothing is received that was not
    requested, approved and dispatched before, and nothing is cancelled after its
    dispatch.  A received or cancelled transfer never changes again. *)
Theorem transfer_lifecycle (cuid : nat -> string) db0 db dbs es past id t' :
  inv db0 -> history cuid db0 (db :: dbs) es -> past ∈ db :: dbs ->
  transfers db !! id = Some t' ->
  match transfers past !! id with
  | Some t =>
      exists acts, advanced acts t t' /\
        (t_status t = T_DRAFT -> acts ∈ lifecycle (t_status t')) /\
        (t_status t ∈ [T_RECEIVED; T_CANCELLED] -> t' = t)
  | None => exists acts, acts ∈ lifecycle (t_status t') /\ t_version t' = Z.of_nat (length acts)
  end.
Proof.
  intros Hinv0 H Hin Ht'. destruct (history_transfers cuid db0 _ es past Hinv0 H Hin) as (d & [= <-] & Ha & Hb).
  destruct (transfers past !! id) as [t|] eqn:Ht.
  - destruct (Ha id t Ht) as (acts & t2 & Ht2 & Hadv). simplify_eq. exists acts. split; [done|].
    pose proof Hadv as [Hf He]. split.
    + intros Hd. rewrite Hd in Hf. by apply follows_lifecycle.
    + intros Hfin. apply follows_final in Hf as [-> Hst]; [|done]. rewrite He, Hst. destruct t. simpl. f_equal. lia.
  - destruct (Hb id t' Ht Ht') as (acts & t & [Hd Hv] & [Hf He]). exists acts. rewrite Hd in Hf.
    split; [by apply follows_lifecycle|]. rewrite He. simpl. lia.
Qed.

(** * Repetition *)

Lemma items_match inputs items :
  Forall2 item_of inputs items -> (forall i, i ∈ inputs -> isInteger (ti_quantity i) = true) ->
  forallb (fun p => item_matches (fst p) (snd p)) (zip items inputs) = true.
Proof.
  induction 1 as [|i x inputs items (H1 & H2 & H3 & H4) Hall IH]; intros Hint; [done|]. simpl.
  rewrite IH, andb_true_r by (intros; apply Hint; set_solver). unfold item_matches. simpl.
  assert (Hi : isInteger (ti_quantity i) = true) by (apply Hint; set_solver).
  rewrite H1, H2, H3, H4, !bool_decide_true; try done. by destruct (ti_quantity i).
Qed.

(** A created row matches its own command except for the code, which was trimmed. *)
Lemma created_matches uuid c t :
  transfer_precheck c = Ok tt -> created_transfer uuid c t ->
  transferMatches t c = bool_decide (t_code t = default (t_code t) (ct_code c)).
Proof.
  intros Hp (_ & Hs & Ht & _ & _ & _ & Hitems). unfold transferMatches. rewrite Hs, Ht.
  pose proof (Forall2_length _ _ _ Hitems) as Hlen. rewrite !bool_decide_true by done. simpl.
  destruct (bool_decide _) eqn:E; [|done]. simpl. rewrite bool_decide_true by done. simpl.
  apply items_match; [done|]. intros i Hi. unfold transfer_precheck in Hp.
  destruct (assertTracked _); [|done]. simpl in Hp. destruct (bool_decide (ct_items c = [])); [done|].
  destruct (_ <? _)%Z; [done|]. destruct (existsb _ _) eqn:Ex; [done|].
  destruct (isInteger (ti_quantity i)) eqn:Ei; [done|]. exfalso. apply not_true_iff_false in Ex. apply Ex.
  apply existsb_exists. exists i. split; [by apply list_elem_of_In|]. by rewrite Ei.
Qed.

Lemma createTransfer_replay cuid uuid c db t :
  truthy_opt (ct_idempotencyKey c) = true ->
  find_by (keyed (ct_idempotencyKey c)) (transfers db) = Some t ->
  createTransfer_tx cuid uuid c db =
    if transferMatches t c then Ok (t, db)
    else Err (idempotencyConflict (default EmptyString (ct_idempotencyKey c))).
Proof.
  intros Hk Hf. unfold createTransfer_tx. erewrite bind_run; [|reflexivity]. rewrite Hk.
  change (find_by (fun t => bool_decide (t_idempotencyKey t = ct_idempotencyKey c)) (transfers db))
    with (find_by (keyed (ct_idempotencyKey c)) (transfers db)). rewrite Hf.
  by destruct (transferMatches t c).
Qed.

Definition transition_conflict : exn :=
  conflictCode "IDEMPOTENCY_CONFLICT" "Idempotency key was already used for a different transfer transition.".

Lemma transition_replay cuid a id ctx db t r :
  transfers db !! id = Some t -> truthy_opt (tc_idempotencyKey ctx) = true ->
  find_by (transition_keyed (tc_idempotencyKey ctx)) (transferTransitions db) = Some r ->
  transitionTransfer_tx cuid a id ctx db =
    if bool_decide (transition_matches a id ctx r) then Ok (t, db) else Err transition_conflict.
Proof.
  intros Ht Hk Hf. unfold transitionTransfer_tx. erewrite bind_run; [|reflexivity].
  rewrite Ht. erewrite bind_run; [|reflexivity]. erewrite bind_run; [|reflexivity]. rewrite Hk.
  change (find_by (fun t => bool_decide (Some (tt_idempotencyKey t) = tc_idempotencyKey ctx))
    (transferTransitions db)) with (find_by (transition_keyed (tc_idempotencyKey ctx)) (transferTransitions db)).
  rewrite Hf.
  replace (_ || _ || _) with (negb (bool_decide (transition_matches a id ctx r))).
  - by destruct (bool_decide _).
  - unfold transition_matches. rewrite !bool_decide_and. by rewrite !negb_andb, orb_assoc.
Qed.

(** Transfer commands are idempotent.  After a creation that used its key for the
    first time, repeating the command changes nothing and answers with the created
    transfer, unless the code it carries is not the one that was stored (the code is
    stored trimmed, but compared as it was sent): then it is refused as a conflict.
    After a transition under a key, repeating it changes nothing and answers with the
    transfer, and any other transition under the key is refused. *)
Theorem transfer_commands_idempotent (cuid : nat -> string) db :
  inv db ->
  (forall uuid uuid' c t db',
     transfer_precheck c = Ok tt -> truthy_opt (ct_idempotencyKey c) = true ->
     find_by (keyed (ct_idempotencyKey c)) (transfers db) = None ->
     createTransfer_tx cuid uuid c db = Ok (t, db') ->
     createTransfer_tx cuid uuid' c db' =
       if bool_decide (t_code t = default (t_code t) (ct_code c)) then Ok (t, db')
       else Err (idempotencyConflict (default EmptyString (ct_idempotencyKey c)))) /\
  (forall a id ctx t db',
     truthy_opt (tc_idempotencyKey ctx) = true ->
     transitionTransfer_tx cuid a id ctx db = Ok (t, db') ->
     transitionTransfer_tx cuid a id ctx db' = Ok (t, db') /\
     (forall a2 id2 ctx2, tc_idempotencyKey ctx2 = tc_idempotencyKey ctx -> is_Some (transfers db' !! id2) ->
        (a2, id2, tc_expectedVersion ctx2) <> (a, id, tc_expectedVersion ctx) ->
        transitionTransfer_tx cuid a2 id2 ctx2 db' = Err transition_conflict)).
Proof.
  intros Hinv. split.
  - intros uuid uuid' c t db' Hp Hk Hnew H.
    apply createTransfer_tx_ok in H as [(_ & Hf & _)|(_ & Hid & Hc & Ht & _)]; [congruence|].
    rewrite (createTransfer_replay cuid uuid' c db' t Hk), (created_matches uuid c t Hp Hc); [done|].
    rewrite Ht. apply find_by_inserted; [done..|]. apply bool_decide_eq_true. by destruct Hc as (_ & _ & _ & _ & _ & -> & _).
  - intros a id ctx t db' Hk H.
    assert (Hrow : exists r, find_by (transition_keyed (tc_idempotencyKey ctx)) (transferTransitions db') = Some r /\
      transition_matches a id ctx r /\ transfers db' !! id = Some t).
    { apply transitionTransfer_tx_ok in H as [(_ & Ht & -> & r & Hf & Hm)|(Hkey & t0 & _ & _ & _ & _ & Ht & _)];
        [by exists r| |done]. destruct (Hkey Hk) as (_ & r & Hf & Hm). exists r. split; [done|]. split; [done|].
      rewrite Ht. apply lookup_insert_eq. }
    destruct Hrow as (r & Hf & Hm & Ht). split.
    + rewrite (transition_replay cuid a id ctx db' t r Ht Hk Hf). by rewrite bool_decide_true.
    + intros a2 id2 ctx2 Hk2 [t2 Ht2] Hne.
      rewrite (transition_replay cuid a2 id2 ctx2 db' t2 r Ht2); [|by rewrite Hk2|by rewrite Hk2].
      rewrite bool_decide_false; [done|]. intros (E1 & E2 & E3). destruct Hm as (M1 & M2 & M3). congruence.
Qed.

(** * Witnesses *)

Definition demo_warehouse2 : Warehouse := mkWarehouse "w2" "W2" "Second" None None true.
Definition demo_location2 : WarehouseLocation := mkLocation "l2" "w2" "B-1" None None None None None None true.
Definition demo_tdb : InvDb :=
  set_warehouses (<["w2" := demo_warehouse2]> (warehouses demo_db))
    (set_locations (<["l2" := demo_location2]> (locations demo_db)) demo_db).
Definition demo_create (code : option string) : CreateTransferCommand :=
  mkCreateTransfer demo_ctx code "w1" "w2" [mkItemCommand "v1" (Int 3) (Some "l1") (Some "l2")] (Some "t1").
Definition demo_transition (a : TransferAction) (key : string) : Command :=
  CmdTransfer a "c0" (mkTransferContext demo_ctx None (Some key)).
Definition demo_run (cmd : Command) (db : InvDb) : InvDb := snd (after db cmd db).
Definition demo_t1 := demo_run (CmdCreateTransfer "uuid" (demo_create None)) demo_tdb.
Definition demo_t2 := demo_run (demo_transition request "t2") demo_t1.
Definition demo_t3 := demo_run (demo_transition approve "t3") demo_t2.
Definition demo_t4 := demo_run (demo_transition dispatch "t4") demo_t3.

Lemma demo_tinv : inv demo_tdb.
Proof. apply (inv_same_stock demo_db); [apply demo_inv|by unfold same_stock]. Qed.

Lemma history_one cuid db0 cmd db dbs es :
  is_ok (execute cuid db cmd db) = true -> history cuid db0 (db :: dbs) es ->
  exists es', history cuid db0
    (match execute cuid db cmd db with Ok (_, db') => db' | Err _ => db end :: db :: dbs) es'.
Proof.
  destruct (execute cuid db cmd db) as [[resp db']|e] eqn:E; [|done]. intros _ H. eexists.
  eapply (history_commit _ _ db); [exact H|set_solver|exact E].
Qed.

Lemma demo_run_history cmd db dbs :
  is_ok (execute demo_cuid db cmd db) = true ->
  (exists es, history demo_cuid demo_tdb (db :: dbs) es) ->
  exists es, history demo_cuid demo_tdb (demo_run cmd db :: db :: dbs) es.
Proof.
  intros Hok [es H]. destruct (history_one _ _ _ _ _ _ Hok H) as [es' H']. exists es'.
  unfold demo_run, after. by destruct (execute demo_cuid db cmd db) as [[resp db']|e].
Qed.

Lemma demo_thistory : exists es, history demo_cuid demo_tdb [demo_t4; demo_t3; demo_t2; demo_t1; demo_tdb] es.
Proof.
  do 4 (apply demo_run_history; [by vm_compute|]). exists []. apply history_start.
Qed.

Lemma history_inv cuid db0 dbs es db : inv db0 -> history cuid db0 dbs es -> db ∈ dbs -> inv db.
Proof.
  intros Hinv H Hin. destruct (history_sound _ _ _ _ Hinv H) as (d & ds & -> & _ & _ & Hall & _). by apply Hall.
Qed.

Lemma demo_t3_inv : inv demo_t3.
Proof.
  destruct demo_thistory as [es H]. apply (history_inv _ _ _ _ _ demo_tinv H). constructor 2. constructor 1.
Qed.

(** Three of ten units leave the shelf. *)
Lemma transfers_conserve_stock_witness :
  match execute demo_cuid demo_t3 (demo_transition dispatch "t4") demo_t3 with
  | Ok (_, db') =>
      (variant_stock "v1" db' + in_transit "v1" db' = variant_stock "v1" demo_t3 + in_transit "v1" demo_t3)%Z /\
      variant_stock "v1" demo_t3 = 10%Z /\ variant_stock "v1" demo_t4 = 7%Z
  | Err _ => False
  end.
Proof.
  destruct (execute demo_cuid demo_t3 (demo_transition dispatch "t4") demo_t3) as [[resp db']|e] eqn:E;
    [|by vm_compute in E].
  split; [|clear E; vm_compute; split; reflexivity].
  exact (proj1 (transfers_conserve_stock demo_cuid demo_t3 (demo_transition dispatch "t4") demo_t3 resp db' "v1"
    demo_t3_inv (fun H : False => H) E)).
Defined.

Lemma transfer_lifecycle_witness :
  match transfers demo_t4 !! "c0" with
  | Some t' => t_status t' = T_IN_TRANSIT /\
      exists acts, acts ∈ lifecycle (t_status t') /\ t_version t' = Z.of_nat (length acts)
  | None => False
  end.
Proof.
  destruct demo_thistory as [es H]. destruct (transfers demo_t4 !! "c0") as [t'|] eqn:E; [|by vm_compute in E].
  split; [vm_compute in E; by injection E as <-|].
  exact (transfer_lifecycle demo_cuid demo_tdb demo_t4 _ es demo_tdb "c0" t' demo_tinv H
    ltac:(do 4 constructor 2; constructor 1) E).
Defined.

(** A creation without a code repeats; one whose code was padded is refused. *)
Lemma transfer_commands_idempotent_witness :
  match createTransfer_tx demo_cuid "uuid" (demo_create None) demo_tdb,
        createTransfer_tx demo_cuid "uuid" (demo_create (Some " T ")) demo_tdb with
  | Ok (t1, db1), Ok (t2, db2) =>
      createTransfer_tx demo_cuid "other" (demo_create None) db1 = Ok (t1, db1) /\
      createTransfer_tx demo_cuid "other" (demo_create (Some " T ")) db2 = Err (idempotencyConflict "t1")
  | _, _ => False
  end.
Proof.
  destruct (createTransfer_tx demo_cuid "uuid" (demo_create None) demo_tdb) as [[t1 db1]|e] eqn:E1;
    [|by vm_compute in E1].
  destruct (createTransfer_tx demo_cuid "uuid" (demo_create (Some " T ")) demo_tdb) as [[t2 db2]|e] eqn:E2;
    [|by vm_compute in E2].
  destruct (transfer_commands_idempotent demo_cuid demo_tdb demo_tinv) as [H _]. split.
  - rewrite (H "uuid" "other" (demo_create None) t1 db1 ltac:(by vm_compute) ltac:(by vm_compute)
      ltac:(by vm_compute) E1). vm_compute in E1. injection E1 as <- <-. reflexivity.
  - rewrite (H "uuid" "other" (demo_create (Some " T ")) t2 db2 ltac:(by vm_compute) ltac:(by vm_compute)
      ltac:(by vm_compute) E2). vm_compute in E2. injection E2 as <- <-. reflexivity.
Defined.
