(* ===== verification/DoorProofs.v ===== *)
(** Properties of custom doors: money strings round-trip, quantities and prices are
    exact ceilings of rational formulas, a total is offered automatically only when no
    human decision is open, holes are four distinct positions, and production stages
    are reached one by one under their conditions. *)

From S2P Require Import Prelude Decimals Table StateMachine Door.

Open Scope Z_scope.

(** * Money *)

Lemma doorMoney_Ok s n :
  doorMoney s = Ok n <->
  canonical (String.list_ascii_of_string s) /\ digits_value (String.list_ascii_of_string s) = n /\
  (length (String.list_ascii_of_string s) <= 19)%nat /\ n <= MAX_DOOR_MONEY.
Proof.
  unfold doorMoney. destruct (parse_natural 19 _) as [m|] eqn:E.
  - apply parse_natural_Some in E as (Hc & Hl & ->). destruct (MAX_DOOR_MONEY <? _) eqn:Em.
    + apply Z.ltb_lt in Em. split; [done|]. intros (_ & <- & _ & Hle). lia.
    + apply Z.ltb_ge in Em. split; [intros [= <-]; done|]. by intros (_ & -> & _).
  - split; [done|]. intros (Hc & <- & Hl & _).
    assert (parse_natural 19 (String.list_ascii_of_string s) =
      Some (digits_value (String.list_ascii_of_string s))) by (by apply parse_natural_Some). congruence.
Qed.

Lemma doorMoney_bounds s n : doorMoney s = Ok n -> 0 <= n <= MAX_DOOR_MONEY.
Proof.
  intros ((Hd & _) & <- & _ & Hle)%doorMoney_Ok. pose proof (digits_value_bounds _ Hd). lia.
Qed.

(** * Amounts *)

(** [q] is the least integer with [n / d <= q]. *)
Definition is_ceil (n d q : Z) : Prop := 0 < d /\ (q - 1) * d < n <= q * d.

Lemma ceilDiv_ok n d q : ceilDiv n d = Ok q -> is_ceil n d q /\ 0 <= q.
Proof.
  unfold ceilDiv, is_ceil. destruct (_ || _) eqn:E; [done|]. apply orb_false_iff in E as [Hn%Z.ltb_ge Hd%Z.leb_gt].
  intros [= <-]. pose proof (Z.div_mod (n + d - 1) d ltac:(lia)).
  pose proof (Z.mod_pos_bound (n + d - 1) d ltac:(lia)). split; [split; [done|nia]|].
  apply Z.div_pos; lia.
Qed.

Lemma checkedMoney_ok v r : checkedMoney v = Ok r -> r = v /\ 0 <= v <= MAX_DOOR_MONEY.
Proof.
  unfold checkedMoney. destruct (_ || _) eqn:E; [done|]. apply orb_false_iff in E as [H1%Z.ltb_ge H2%Z.ltb_ge].
  by intros [= <-].
Qed.

Lemma res_bind_ok {A B} (m : result A) (k : A -> result B) b :
  (m ≫= k) = Ok b <-> exists a, m = Ok a /\ k a = Ok b.
Proof. unfold mbind, result_bind. destruct m; naive_solver. Qed.

(** The rational quantity of a component: the rule's measure with its waste, or the
    minimum when that is larger. *)
Definition rule_quantity (item : DoorItemInput) (rule : DoorPricingComponent) : Z * Z :=
  (basis_quantity (c_basis rule) (widthMm item - c_widthDeductionMm rule)
     (heightMm item - c_heightDeductionMm rule) * (c_multiplier rule * (10000 + c_wasteBps rule)),
   basis_divisor (c_basis rule) * (c_divisor rule * 10000)).

Definition quantity_spec (item : DoorItemInput) (rule : DoorPricingComponent) (n d : Z) : Prop :=
  let '(rn, rd) := rule_quantity item rule in
  exists minimumN minimumD, parse_minimum (c_minimumQuantity rule) = Some (minimumN, minimumD) /\
    0 <= minimumN /\ 0 < minimumD /\
    ((n, d) = (rn, rd) /\ minimumN * rd <= rn * minimumD \/
     (n, d) = (minimumN, minimumD) /\ rn * minimumD < minimumN * rd).

Lemma parse_minimum_bounds s n d : parse_minimum s = Some (n, d) -> 0 <= n /\ 0 < d.
Proof.
  unfold parse_minimum. destruct (split_point _) as [w f]. intros H.
  destruct (parse_natural 13 w) as [whole|] eqn:Ew; [|done]. simpl in H.
  apply parse_natural_Some in Ew as ((Hd & _) & _ & ->). pose proof (digits_value_bounds _ Hd).
  destruct f as [f|]; [|injection H as <- <-; lia].
  destruct (_ && _) eqn:E; [|done]. injection H as <- <-.
  apply andb_true_iff in E as [[Hf _]%andb_true_iff _]. rewrite forallb_forall in Hf.
  assert (Hf' : Forall (fun c => is_digit c = true) f)
    by (apply Forall_forall; intros x Hx; by apply Hf, list_elem_of_In).
  pose proof (digits_value_bounds f Hf').
  assert (0 < 10 ^ Z.of_nat (length f)) by (apply Z.pow_pos_nonneg; lia). nia.
Qed.

Lemma measured_ok item rule u n d :
  measured item rule u = Ok (n, d) ->
  quantity_spec item rule n d /\ u = expected_unit (c_basis rule) /\
  0 < widthMm item - c_widthDeductionMm rule /\ 0 < heightMm item - c_heightDeductionMm rule.
Proof.
  unfold measured, quantity_spec, rule_quantity.
  destruct (_ || _) eqn:E; [done|]. apply orb_false_iff in E as [Hw%Z.leb_gt Hh%Z.leb_gt].
  destruct (bool_decide (u = _)) eqn:Eu; [|done]. apply bool_decide_eq_true in Eu. cbn [negb].
  destruct (parse_minimum _) as [[mn md]|] eqn:Em; [|done].
  pose proof (parse_minimum_bounds _ _ _ Em) as [Hmn Hmd].
  destruct (_ <? _) eqn:El; intros [= <- <-]; (split; [|done]); exists mn, md; (split; [done|]);
    (split; [done|]); (split; [done|]); [right|left].
  - by apply Z.ltb_lt in El.
  - by apply Z.ltb_ge in El.
Qed.

(** The amount of a part: the ceiling of quantity times rate, and the fee. *)
Definition amount_spec (n d : Z) (c : DoorMaterialConfiguration) (amount : Z) : Prop :=
  exists rate r q fee, mc_rate c = Some rate /\ doorMoney rate = Ok r /\ is_ceil (n * r) d q /\
    doorMoney (mc_processingFee c) = Ok fee /\ amount = q + fee /\ 0 <= amount <= MAX_DOOR_MONEY.

Lemma component_amount_ok now n d c amount :
  component_amount now n d c = Ok amount ->
  match amount with
  | Some a => amount_spec n d c a /\ expired now c = false
  | None => mc_rate c = None \/ expired now c = true
  end.
Proof.
  unfold component_amount. destruct (mc_rate c) as [rate|] eqn:Er; [|intros [= <-]; by left].
  destruct (expired now c) eqn:Ee; [intros [= <-]; by right|]. intros H.
  apply res_bind_ok in H as (r & Hr & H). apply res_bind_ok in H as (q & Hq & H).
  apply res_bind_ok in H as (fee & Hfee & H). apply res_bind_ok in H as (a & Ha & H).
  injection H as <-. apply checkedMoney_ok in Ha as [-> Ha]. apply ceilDiv_ok in Hq as [Hq _].
  split; [|done]. exists rate, r, q, fee. done.
Qed.

(** The price of one door: materials, labor, additions, tax, discount, minimum. *)
Definition unit_spec (item : DoorItemInput) (cfg : DoorModelConfiguration) (material u : Z) : Prop :=
  exists work extras tax disc minimum,
    match labor cfg with
    | Some l => exists fixed square area, doorMoney (la_fixed l) = Ok fixed /\
        doorMoney (la_perSquareMeter l) = Ok square /\
        is_ceil (widthMm item * heightMm item * square) 1000000 area /\ work = fixed + area
    | None => work = 0
    end /\
    mapM doorMoney (ad_amount <$> additional cfg) = Ok extras /\
    is_ceil ((material + work + sumZ id extras) * taxBps cfg) 10000 tax /\
    doorMoney (discount cfg) = Ok disc /\ doorMoney (minimumTotal cfg) = Ok minimum /\
    disc <= material + work + sumZ id extras + tax /\
    u = Z.max minimum (material + work + sumZ id extras + tax - disc) /\
    0 <= u <= MAX_DOOR_MONEY.

Lemma sum_money_ok xs u0 u :
  sum_money xs u0 = Ok u -> exists extras, mapM doorMoney xs = Ok extras /\ u = u0 + sumZ id extras.
Proof.
  revert u0. induction xs as [|x xs IH]; intros u0 H; simpl in H.
  - injection H as <-. exists []. split; [done|]. simpl. lia.
  - apply res_bind_ok in H as (a & Ha & H). apply IH in H as (extras & He & ->).
    exists (a :: extras). split; [|rewrite sumZ_cons; unfold id; lia].
    simpl. apply res_bind_ok. exists a. split; [done|]. apply res_bind_ok. by exists extras.
Qed.

Lemma finish_unit_ok item cfg material u :
  finish_unit item cfg material = Ok u -> unit_spec item cfg material u.
Proof.
  intros H. unfold finish_unit in H. apply res_bind_ok in H as (u1 & Hlabor & H).
  apply res_bind_ok in H as (u2 & Hsum & H). apply sum_money_ok in Hsum as (extras & Hex & ->).
  apply res_bind_ok in H as (tax & Htax & H). apply ceilDiv_ok in Htax as [Htax Htax0].
  apply res_bind_ok in H as (disc & Hdisc & H). destruct (_ <? disc) eqn:Ed; [done|]. apply Z.ltb_ge in Ed.
  apply res_bind_ok in H as (minimum & Hmin & H). apply checkedMoney_ok in H as [Hu Hrange].
  exists (u1 - material), extras, tax, disc, minimum.
  replace (material + (u1 - material)) with u1 by lia.
  split.
  - destruct (labor cfg) as [l|]; [|injection Hlabor as <-; lia].
    apply res_bind_ok in Hlabor as (fixed & Hf & Hl). apply res_bind_ok in Hl as (sq & Hsq & Hl).
    apply res_bind_ok in Hl as (area & Ha & Hl). injection Hl as <-. apply ceilDiv_ok in Ha as [Ha _].
    exists fixed, sq, area. split_and!; [done..|lia].
  - split; [done|]. split; [done|]. split; [done|]. split; [done|]. split; [lia|].
    destruct (_ <? minimum) eqn:Em; [apply Z.ltb_lt in Em|apply Z.ltb_ge in Em]; lia.
Qed.

(** * Lines *)

(** Only reasons were added. *)
Definition noted (extra : list string) (s s' : PricingState) : Prop :=
  s' = mkPricing (reasons s ++ extra) (calculated s) (complete s).

Lemma noted_nil s : noted [] s s.
Proof. unfold noted. rewrite app_nil_r. by destruct s. Qed.

Lemma noted_trans e1 e2 s1 s2 s3 : noted e1 s1 s2 -> noted e2 s2 s3 -> noted (e1 ++ e2) s1 s3.
Proof. unfold noted. intros -> ->. simpl. by rewrite app_assoc. Qed.

Lemma add_reason_ok r s u s' : add_reason r s = Ok (u, s') -> noted [r] s s'.
Proof. unfold add_reason. intros H. by run_inv. Qed.

(** The part of a priced component. *)
Definition part_spec (now : Z) (item : DoorItemInput) (materialMap : gmap string DoorMaterial)
    (selected : gmap string string) (rule : DoorPricingComponent) (p : DoorPart) : Prop :=
  exists id material n d, selected !! c_slot rule = Some id /\ materialMap !! id = Some material /\
    quantity_spec item rule n d /\ mc_unit (ma_configuration material) = expected_unit (c_basis rule) /\
    pa_materialId p = ma_id material /\ pa_quantityNumerator p = n * quantity item /\
    pa_quantityDenominator p = d /\
    match pa_amount p with
    | Some a => amount_spec n d (ma_configuration material) a /\ expired now (ma_configuration material) = false
    | None => mc_rate (ma_configuration material) = None \/ expired now (ma_configuration material) = true
    end.

Definition priced (p : DoorPart) : bool := bool_decide (is_Some (pa_amount p)).
Definition part_total (ps : list DoorPart) : Z := sumZ (fun p => default 0 (pa_amount p)) ps.
Definition active_components (selected : gmap string string) (cs : list DoorPricingComponent) :=
  List.filter (fun c => truthy_opt (selected !! c_slot c)) cs.

Lemma price_components_ok now prefix item materialMap selected cs unit lc parts s r s' :
  price_components now prefix item materialMap selected cs unit lc parts s = Ok (r, s') ->
  exists ps extra, r = (unit + part_total ps, lc && forallb priced ps, parts ++ ps) /\
    Forall2 (part_spec now item materialMap selected) (active_components selected cs) ps /\
    noted extra s s' /\ (extra = [] -> forallb priced ps = true).
Proof.
  revert unit lc parts s. induction cs as [|rule cs IH]; intros unit lc parts s H; simpl in H.
  { run_inv. exists [], []. rewrite app_nil_r, andb_true_r. unfold part_total. simpl.
    rewrite Z.add_0_r. split_and!; [done|constructor|apply noted_nil|done]. }
  simpl. destruct (truthy_opt (selected !! c_slot rule)) eqn:Et; simpl in H; [|by apply IH].
  run_inv. rename v into material, v0 into amount. destruct v1 as [n d]. simpl in Hres.
  destruct (selected !! c_slot rule) as [id|] eqn:Eid; [|done]. simpl in Hsome.
  apply measured_ok in Hres0 as (Hq & Hu & _). apply component_amount_ok in Hres.
  assert (Hnote : exists e, noted e s s3 /\ (e = [] -> is_Some amount)).
  { destruct amount as [a|]; [run_inv; exists []; split; [apply noted_nil|eauto]|].
    apply add_reason_ok in Hrun2. by eexists. }
  destruct Hnote as (e & He & Hesome). apply IH in H as (ps & extra & -> & Hps & Hnoted & Hextra).
  exists (mkPart (ma_title material) amount (n * quantity item) d (ma_id material) (ma_variantId material)
    (mc_unit (ma_configuration material)) (mc_stockUnit (ma_configuration material)) :: ps), (e ++ extra).
  split; [|split; [|split]].
  - unfold part_total. rewrite sumZ_cons. simpl. by rewrite <- app_assoc, <- andb_assoc, Z.add_assoc.
  - constructor; [|done]. exists id, material, n, d. simpl. done.
  - by eapply noted_trans.
  - intros [He0 Hx0]%app_nil. simpl. unfold priced at 1. simpl.
    rewrite bool_decide_true by (by apply Hesome). by apply Hextra.
Qed.

Lemma uncovered_ok prefix parts chosen lc s lc' s' :
  uncovered prefix parts chosen lc s = Ok (lc', s') ->
  exists extra, noted extra s s' /\ (lc' = true -> lc = true) /\
    (extra = [] -> lc' = lc) /\
    (lc' = true \/ extra = [] -> Forall (fun m => exists p, p ∈ parts /\ pa_materialId p = ma_id m) chosen).
Proof.
  revert lc s. induction chosen as [|m chosen IH]; intros lc s H; simpl in H.
  { run_inv. exists []. split; [apply noted_nil|]. split; [done|]. split; [done|]. constructor. }
  destruct (existsb _ parts) eqn:E.
  - apply IH in H as (extra & Hn & H1 & H2 & H3). exists extra. split_and!; [done..|].
    intros H. constructor; [|by apply H3]. apply existsb_exists in E as (p & Hp & Heq).
    apply bool_decide_eq_true in Heq. exists p. by rewrite list_elem_of_In.
  - run_inv. apply add_reason_ok in Hrun. apply IH in H as (extra & Hn & H1 & H2 & H3).
    eexists. split; [by eapply noted_trans|]. split; [by intros ?%H1|].
    split; [done|]. intros [?%H1|?]; done.
Qed.

(** The chosen materials: one allowed, active material for every slot that is
    required or selected. *)
Definition slot_choice (materialMap : gmap string DoorMaterial) (selected : gmap string string)
    (slot : Slot) (chosen : list DoorMaterial) : Prop :=
  match selected !! sl_key slot with
  | Some id =>
      if truthy id then exists m, m ∈ chosen /\ materialMap !! id = Some m /\ ma_active m = true /\
                         id ∈ sl_materialIds slot
      else sl_required slot = false
  | None => sl_required slot = false
  end.

Lemma choose_ok materialMap selected ss chosen :
  choose materialMap selected ss = Ok chosen ->
  Forall (fun slot => slot_choice materialMap selected slot chosen) ss /\
  Forall (fun m => ma_active m = true /\ exists id, materialMap !! id = Some m) chosen.
Proof.
  revert chosen. induction ss as [|slot ss IH]; intros chosen H; simpl in H.
  { injection H as <-. by split. }
  destruct (truthy_opt (selected !! sl_key slot)) eqn:Et; simpl in H.
  - destruct (selected !! sl_key slot) as [id|] eqn:Eid; [|done]. simpl in *.
    destruct (materialMap !! id) as [m|] eqn:Em; [|done].
    destruct (bool_decide (id ∈ sl_materialIds slot)) eqn:Ein; [|done].
    destruct (ma_active m) eqn:Ea; [|done]. simpl in H.
    apply res_bind_ok in H as (rest & Hrest & H). injection H as <-. apply IH in Hrest as [H1 H2].
    split; constructor; eauto.
    + unfold slot_choice. rewrite Eid, Et. exists m. apply bool_decide_eq_true in Ein.
      split; [set_solver|done].
    + eapply Forall_impl; [exact H1|]. intros sl. unfold slot_choice.
      destruct (selected !! sl_key sl) as [i|]; [|done]. destruct (truthy i); [|done].
      intros (x & Hx & ?). exists x. split; [set_solver|done].
  - destruct (sl_required slot) eqn:Er; simpl in H; [by destruct (selected !! _)|].
    apply IH in H as [H1 H2]. split; [|done]. constructor; [|done]. unfold slot_choice.
    destruct (selected !! sl_key slot) as [id|]; [|done]. simpl in Et. by rewrite Et.
Qed.

Lemma check_incompatible_ok rules chosen :
  check_incompatible rules chosen = Ok tt ->
  Forall (fun rule => exists id, id ∈ in_materialIds rule /\ forall m, m ∈ chosen -> ma_id m <> id) rules.
Proof.
  induction rules as [|rule rules IH]; simpl; [by constructor|].
  destruct (forallb _ _) eqn:E; [done|]. intros H. constructor; [|by apply IH].
  apply not_true_iff_false in E. rewrite forallb_forall in E.
  destruct (decide (Exists (fun id => Forall (fun m => ma_id m <> id) chosen) (in_materialIds rule))) as [Hd|Hd].
  - apply Exists_exists in Hd as (id & Hid & Hall). exists id. split; [done|]. by apply Forall_forall.
  - exfalso. apply E. intros id Hid. apply existsb_exists.
    apply list_elem_of_In in Hid. apply not_Exists_Forall in Hd; [|apply _].
    rewrite Forall_forall in Hd. specialize (Hd id Hid). simpl in Hd.
    apply not_Forall_Exists in Hd; [|apply _]. apply Exists_exists in Hd as (m & Hm & Heq).
    exists m. rewrite <- list_elem_of_In. split; [done|]. apply bool_decide_eq_true.
    by destruct (decide (ma_id m = id)).
Qed.

(** What a priced line says of its item. *)
Definition line_valid (models : list DoorModel) (materialMap : gmap string DoorMaterial) (now : Z)
    (index : nat) (item : DoorItemInput) (line : DoorPricingLine) : Prop :=
  let cfg := mo_configuration (ln_model line) in
  let selected := map_of (selections item) in
  ln_item line = index /\ ln_quantity line = quantity item /\ ln_widthMm line = widthMm item /\
  ln_heightMm line = heightMm item /\
  0 < widthMm item <= 2147483647 /\ 0 < heightMm item <= 2147483647 /\ 0 < quantity item <= 1000 /\
  (ln_model line ∈ models /\ mo_id (ln_model line) = modelId item /\ mo_active (ln_model line) = true) /\
  Forall (fun slot => slot_choice materialMap selected slot (ln_materials line)) (slots cfg) /\
  Forall (fun rule => exists id, id ∈ in_materialIds rule /\
    forall m, m ∈ ln_materials line -> ma_id m <> id) (incompatible cfg) /\
  Forall2 (part_spec now item materialMap selected) (active_components selected (components cfg)) (ln_parts line).

(** The money of a line: absent when some rate, rule or labor is missing. *)
Definition line_money (item : DoorItemInput) (line : DoorPricingLine) : Prop :=
  let cfg := mo_configuration (ln_model line) in
  match ln_unitTotal line, ln_total line with
  | Some u, Some t =>
      unit_spec item cfg (part_total (ln_parts line)) u /\ t = u * quantity item /\ 0 <= t <= MAX_DOOR_MONEY /\
      forallb priced (ln_parts line) = true /\ components cfg <> [] /\ is_Some (labor cfg) /\
      Forall (fun m => exists p, p ∈ ln_parts line /\ pa_materialId p = ma_id m) (ln_materials line)
  | None, None => True
  | _, _ => False
  end.

(** Nothing about the line waits for a person. *)
Definition line_automatic (item : DoorItemInput) (line : DoorPricingLine) : Prop :=
  let cfg := mo_configuration (ln_model line) in
  is_Some (ln_total line) /\ manualApproval cfg = false /\
  exists t, technical cfg = Some t /\ te_minWidthMm t <= widthMm item <= te_maxWidthMm t /\
    te_minHeightMm t <= heightMm item <= te_maxHeightMm t.

Definition line_adds (line : DoorPricingLine) (extra : list string) (s s' : PricingState) : Prop :=
  s' = mkPricing (reasons s ++ extra) (calculated s + default 0 (ln_total line))
         (complete s && bool_decide (is_Some (ln_total line))).

Lemma noted_if (b : bool) (r : string) s u s' :
  (if b then mret tt else add_reason r) s = Ok (u, s') ->
  exists e, noted e s s' /\ (e = [] -> b = true).
Proof.
  destruct b; intros H; [run_inv; exists []; split; [apply noted_nil|done]|].
  apply add_reason_ok in H. by eexists.
Qed.

Lemma noted_technical cfg item r1 r2 s u s' :
  (match technical cfg with
   | None => add_reason r1
   | Some t => if within_technical t item then mret tt else add_reason r2
   end) s = Ok (u, s') ->
  exists e, noted e s s' /\ (e = [] -> exists t, technical cfg = Some t /\
    te_minWidthMm t <= widthMm item <= te_maxWidthMm t /\ te_minHeightMm t <= heightMm item <= te_maxHeightMm t).
Proof.
  destruct (technical cfg) as [t|]; intros H.
  - apply noted_if in H as (e & Hn & He). exists e. split; [done|]. intros E. apply He in E. exists t.
    unfold within_technical in E. rewrite !andb_true_iff, !Z.leb_le in E. split; [done|lia].
  - apply add_reason_ok in H. by eexists.
Qed.

Lemma positive_int4_ok v : positive_int4 v = true -> 0 < v <= 2147483647.
Proof. unfold positive_int4. rewrite !andb_true_iff, !Z.leb_le, Z.ltb_lt. lia. Qed.

Lemma add_total_ok lc total s u s' :
  add_total lc total s = Ok (u, s') ->
  s' = mkPricing (reasons s) (calculated s + default 0 (only_if lc total)) (complete s && lc) /\
  (lc = true -> 0 <= calculated s + total <= MAX_DOOR_MONEY).
Proof.
  unfold add_total. destruct lc; intros H; run_inv.
  - apply checkedMoney_ok in Hres as [-> Hb]. by rewrite andb_true_r.
  - simpl. by rewrite Z.add_0_r, andb_false_r.
Qed.

Lemma price_line_ok now models materialMap index item s line s' :
  price_line now models materialMap index item s = Ok (line, s') ->
  line_valid models materialMap now index item line /\ line_money item line /\
  (is_Some (ln_total line) -> calculated s' <= MAX_DOOR_MONEY) /\
  exists extra, line_adds line extra s s' /\ (extra = [] -> line_automatic item line).
Proof.
  intros H. unfold price_line in H. run_inv. destruct v2.
  apply noted_technical in Hrun3 as (e1 & N1 & A1).
  assert (Hman : exists e, noted e s4 s5 /\ (e = [] -> manualApproval (mo_configuration v) = false)).
  { destruct (manualApproval _); [apply add_reason_ok in Hrun4; by eexists|].
    run_inv. exists []. split; [apply noted_nil|done]. }
  destruct Hman as (e2 & N2 & A2). apply noted_if in Hrun8 as (e3 & N3 & A3).
  apply price_components_ok in Hrun9 as (ps & e4 & -> & Hps & N4 & A4). cbn [fst snd app] in *.
  apply uncovered_ok in Hrun10 as (e5 & N5 & Hlc & Heq & Hcov).
  apply choose_ok in Hres2 as [Hslots _]. apply check_incompatible_ok in Hres1.
  apply finish_unit_ok in Hres0. apply checkedMoney_ok in Hres as [-> Htot].
  apply add_total_ok in Hrun13 as [-> Hsum]. rewrite Z.add_0_l in Hres0.
  apply find_some in Hsome as [Hin Hmo]. apply andb_true_iff in Hmo as [Hid%bool_decide_eq_true Hact].
  apply negb_false_iff in Hguard1. simpl in Hguard1. rewrite !andb_true_iff in Hguard1.
  destruct Hguard1 as (Hw%positive_int4_ok & Hh%positive_int4_ok & Hq%positive_int4_ok & _).
  apply Z.ltb_ge in Hguard0. pose proof (noted_trans _ _ _ _ _ N1 N2) as N12.
  pose proof (noted_trans _ _ _ _ _ N12 N3) as N123. pose proof (noted_trans _ _ _ _ _ N123 N4) as N1234.
  pose proof (noted_trans _ _ _ _ _ N1234 N5) as N. unfold noted in N. subst s11. cbn [calculated reasons complete] in *.
  split; [|split; [|split]].
  - unfold line_valid. simpl. split_and!; try done; try lia. by apply list_elem_of_In.
  - unfold line_money. simpl. destruct x10; [|done]. simpl. pose proof (Hlc eq_refl) as Hl.
    apply andb_true_iff in Hl as [[Hc Hlab]%andb_true_iff Hpr]. apply negb_true_iff, bool_decide_eq_false in Hc.
    apply bool_decide_eq_true in Hlab. split_and!; try done; try lia. apply Hcov. by left.
  - cbn [ln_total calculated]. destruct x10; [|by intros []]. intros _. simpl. destruct (Hsum eq_refl). lia.
  - exists ((((e1 ++ e2) ++ e3) ++ e4) ++ e5). split.
    + unfold line_adds. simpl. f_equal. by destruct x10.
    + intros [[[[E1 E2]%app_nil E3]%app_nil E4]%app_nil E5]%app_nil. unfold line_automatic. simpl.
      split; [|split; [by apply A2|by apply A1]].
      rewrite (Heq E5), (A3 E3), (A4 E4). simpl. eauto.
Qed.

(** * Lines of an order *)

Lemma price_lines_ok now models materialMap index items s lines s' :
  price_lines now models materialMap index items s = Ok (lines, s') ->
  length lines = length items /\
  (forall i item line, items !! i = Some item -> lines !! i = Some line ->
     line_valid models materialMap now (index + i) item line /\ line_money item line) /\
  (exists extra, reasons s' = reasons s ++ extra /\
     (extra = [] -> Forall2 line_automatic items lines)) /\
  calculated s' = calculated s + sumZ (fun l => default 0 (ln_total l)) lines /\
  complete s' = complete s && forallb (fun l => bool_decide (is_Some (ln_total l))) lines /\
  (lines <> [] -> complete s' = true -> calculated s' <= MAX_DOOR_MONEY).
Proof.
  revert index s lines. induction items as [|item items IH]; intros index s lines H; simpl in H; run_inv.
  { split; [done|]. split; [done|]. split; [exists []; rewrite app_nil_r; split; [done|constructor]|].
    simpl. rewrite Z.add_0_r, andb_true_r. done. }
  apply price_line_ok in Hrun as (Hv & Hm & Hmax & extra & Hadd & Hauto).
  apply IH in Hrun0 as (Hlen & Hall & (extra' & Hre & Hauto') & Hcalc & Hcomp & Hmax').
  unfold line_adds in Hadd. subst s0. cbn [reasons calculated complete] in *.
  split; [simpl; lia|]. split; [|split; [|split; [|split]]].
  - intros [|i] it ln Hi Hl; simpl in Hi, Hl.
    + injection Hi as <-. injection Hl as <-. by rewrite Nat.add_0_r.
    + rewrite <- Nat.add_succ_comm. by apply Hall.
  - exists (extra ++ extra'). rewrite Hre, app_assoc. split; [done|].
    intros [E1 E2]%app_nil. constructor; [by apply Hauto|by apply Hauto'].
  - rewrite Hcalc, sumZ_cons. lia.
  - rewrite Hcomp. simpl. by rewrite andb_assoc.
  - intros _ Hc. destruct x0 as [|l ls]; [|by apply Hmax'].
    rewrite Hcomp in Hc. simpl in Hcalc, Hc. rewrite andb_true_r in Hc.
    apply andb_true_iff in Hc as [_ Hc%bool_decide_eq_true]. specialize (Hmax Hc). lia.
Qed.

(** * Manufacturing *)

Definition hole_ok (heightMm : Z) (hole : Hole) : Prop :=
  exists d, ho_distanceMm hole = Int d /\ Z.abs d <= MAX_SAFE_INTEGER /\ 0 < d <= heightMm /\
    (ho_reference hole = "TOP" \/ ho_reference hole = "BOTTOM").

Lemma hole_valid_true h hole : hole_valid h hole = true <-> hole_ok h hole.
Proof.
  unfold hole_valid, hole_ok, one_of, isSafeInteger.
  rewrite !andb_true_iff, Z.ltb_lt, Z.leb_le, bool_decide_eq_true, !elem_of_cons, elem_of_nil.
  destruct (ho_distanceMm hole) as [d|]; simpl; [rewrite Z.leb_le; naive_solver|naive_solver].
Qed.

Lemma check_holes_ok h positions hs :
  check_holes h positions hs = Ok tt <->
  Forall (hole_ok h) hs /\ NoDup (hole_top h <$> hs) /\ (forall x, x ∈ hole_top h <$> hs -> x ∉ positions).
Proof.
  revert positions. induction hs as [|hole hs IH]; intros positions; simpl.
  { split; [intros _; split; [done|]; split; [constructor|set_solver]|done]. }
  destruct (hole_valid h hole) eqn:E; simpl.
  - apply hole_valid_true in E. case_bool_decide as Hp.
    + split; [done|]. intros (_ & _ & Hd). destruct (Hd (hole_top h hole)); set_solver.
    + rewrite IH, Forall_cons, NoDup_cons. set_solver.
  - split; [done|]. intros (Hv & _). apply Forall_cons in Hv as [Hv _].
    apply hole_valid_true in Hv. congruence.
Qed.

(** * Production *)

Definition production_stage (s : DoorStatus) : Prop :=
  s ∈ [D_APPROVED_FOR_PRODUCTION; D_IN_PRODUCTION; D_QUALITY_CONTROL; D_READY_FOR_DELIVERY;
       D_AWAITING_SETTLEMENT; D_COMPLETED].

(** What must hold to enter a status. *)
Definition door_gate (to : DoorStatus) (c : DoorContext) : Prop :=
  to = D_CANCELLED \/
  (cx_approved c = true /\ cx_accepted c = true /\ cx_remaining c <= 0 /\
   (production_stage to -> cx_technical c = true) /\
   (to = D_IN_PRODUCTION -> cx_stockReady c = true) /\
   (to ∈ [D_QUALITY_CONTROL; D_READY_FOR_DELIVERY; D_COMPLETED] -> cx_consumed c = true) /\
   (to = D_COMPLETED -> cx_remaining c = 0 /\ cx_delivery c = true)).

Lemma guard_ok (b : bool) e (r : result unit) :
  (if b then Err e else r) = Ok tt <-> b = false /\ r = Ok tt.
Proof. destruct b; naive_solver. Qed.

Lemma bool_guard (P : Prop) `{Decision P} b : bool_decide P && negb b = false <-> (P -> b = true).
Proof. case_bool_decide; destruct b; naive_solver. Qed.

Lemma door_gate_ok from to c :
  assertDoorTransition from to c = Ok tt <-> to ∈ DOOR_TRANSITIONS from /\ door_gate to c.
Proof.
  unfold assertDoorTransition, assertTransition, canTransition.
  assert (Hne : to ∈ DOOR_TRANSITIONS from -> from <> to) by (intros H ->; destruct to; set_solver).
  destruct (bool_decide (from = to)) eqn:Eq.
  { apply bool_decide_eq_true in Eq. split; [done|]. intros [H _]. by apply Hne in H. }
  destruct (bool_decide (to ∈ DOOR_TRANSITIONS from)) eqn:Ein;
    [apply bool_decide_eq_true in Ein|apply bool_decide_eq_false in Ein; by split; [|intros [? _]]].
  unfold mbind, result_bind, door_gate, production_stage. destruct (decide (to = D_CANCELLED)) as [Hc|Hc];
    [rewrite bool_decide_true by done; naive_solver|rewrite (bool_decide_false (to = D_CANCELLED)) by done].
  rewrite !guard_ok, !bool_guard, orb_false_iff, !negb_false_iff, Z.ltb_ge.
  assert (Hdone : bool_decide (to = D_COMPLETED) &&
      (negb (bool_decide (cx_remaining c = 0)) || negb (cx_delivery c)) = false <->
    (to = D_COMPLETED -> cx_remaining c = 0 /\ cx_delivery c = true)).
  { destruct (decide (to = D_COMPLETED)) as [Hd|Hd];
      [rewrite (bool_decide_true (to = D_COMPLETED)) by done|rewrite (bool_decide_false (to = D_COMPLETED)) by done; naive_solver].
    rewrite andb_true_l, orb_false_iff, !negb_false_iff, bool_decide_eq_true. tauto. }
  rewrite Hdone. tauto.
Qed.

(** The statuses an order went through, newest first, with what each step was
    checked against. *)
Inductive door_path : DoorStatus -> list DoorStatus -> Prop :=
  | door_start : door_path D_DRAFT [D_DRAFT]
  | door_step from to c visited :
      door_path from visited -> assertDoorTransition from to c = Ok tt ->
      door_path to (to :: visited).

Definition stages_before (s : DoorStatus) : list DoorStatus :=
  match s with
  | D_DRAFT | D_PENDING_QUOTE_APPROVAL | D_AWAITING_DEPOSIT | D_CANCELLED => [D_DRAFT]
  | D_DEPOSIT_PAID => [D_DRAFT; D_AWAITING_DEPOSIT]
  | D_AWAITING_TECHNICAL_APPROVAL => [D_DRAFT; D_AWAITING_DEPOSIT; D_DEPOSIT_PAID]
  | D_APPROVED_FOR_PRODUCTION =>
      [D_DRAFT; D_AWAITING_DEPOSIT; D_DEPOSIT_PAID; D_AWAITING_TECHNICAL_APPROVAL]
  | D_IN_PRODUCTION =>
      [D_DRAFT; D_AWAITING_DEPOSIT; D_DEPOSIT_PAID; D_AWAITING_TECHNICAL_APPROVAL;
       D_APPROVED_FOR_PRODUCTION]
  | D_QUALITY_CONTROL =>
      [D_DRAFT; D_AWAITING_DEPOSIT; D_DEPOSIT_PAID; D_AWAITING_TECHNICAL_APPROVAL;
       D_APPROVED_FOR_PRODUCTION; D_IN_PRODUCTION]
  | D_READY_FOR_DELIVERY =>
      [D_DRAFT; D_AWAITING_DEPOSIT; D_DEPOSIT_PAID; D_AWAITING_TECHNICAL_APPROVAL;
       D_APPROVED_FOR_PRODUCTION; D_IN_PRODUCTION; D_QUALITY_CONTROL]
  | D_AWAITING_SETTLEMENT | D_COMPLETED =>
      [D_DRAFT; D_AWAITING_DEPOSIT; D_DEPOSIT_PAID; D_AWAITING_TECHNICAL_APPROVAL;
       D_APPROVED_FOR_PRODUCTION; D_IN_PRODUCTION; D_QUALITY_CONTROL; D_READY_FOR_DELIVERY]
  end.

Definition started (s : DoorStatus) : bool :=
  bool_decide (s ∈ [D_IN_PRODUCTION; D_QUALITY_CONTROL; D_READY_FOR_DELIVERY; D_AWAITING_SETTLEMENT;
    D_COMPLETED]).

Lemma door_edges from to :
  to ∈ DOOR_TRANSITIONS from ->
  (to <> D_PENDING_QUOTE_APPROVAL -> to <> D_CANCELLED -> to <> D_AWAITING_DEPOSIT ->
     stages_before to ⊆ from :: stages_before from) /\
  (started to = false -> started from = false).
Proof.
  destruct from, to; simpl; intros H; (split; [intros; try done; set_solver|]); try done;
    exfalso; revert H; vm_compute; set_solver.
Qed.

Lemma door_path_stages s visited :
  door_path s visited -> s ∈ visited /\ stages_before s ⊆ visited /\ D_DRAFT ∈ visited /\
  (started s = false -> D_IN_PRODUCTION ∉ visited).
Proof.
  induction 1 as [|from to c visited Hp (Hs & Hst & Hd & Hc) Ht]; [set_solver|].
  apply door_gate_ok in Ht as [Ht _]. apply door_edges in Ht as [Hsub Hstart].
  split; [set_solver|]. split; [|split; [set_solver|]].
  - destruct (decide (to = D_PENDING_QUOTE_APPROVAL \/ to = D_CANCELLED \/ to = D_AWAITING_DEPOSIT)) as [E|E].
    + assert (stages_before to = [D_DRAFT]) as -> by naive_solver. set_solver.
    + intros x Hx. apply Hsub in Hx; [|naive_solver..]. set_solver.
  - intros Hto. apply not_elem_of_cons. split; [by intros <-|by apply Hc, Hstart].
Qed.

(** * Properties *)

(** [C40] Money strings round-trip.  [doorMoney] accepts exactly the decimal numerals
    without leading zeros of the integers from 0 to 2^63-1, each integer has one
    accepted numeral, and it is the one that is printed. *)
Theorem door_money_roundtrip s n :
  doorMoney s = Ok n <-> (0 <= n <= MAX_DOOR_MONEY /\ s = print_money n).
Proof.
  split.
  - intros H. pose proof (doorMoney_bounds s n H) as Hb. split; [done|].
    apply doorMoney_Ok in H as (Hc & Hv & _). apply list_ascii_inj.
    destruct (print_money_canonical n ltac:(lia)) as [Hc' Hv']. apply canonical_inj; [done..|congruence].
  - intros [Hb ->]. apply doorMoney_Ok. destruct (print_money_canonical n ltac:(lia)) as [Hc Hv].
    split; [done|]. split; [done|]. split; [|lia].
    set (ds := String.list_ascii_of_string (print_money n)) in *. clearbody ds.
    destruct (decide (length ds <= 19)%nat) as [|Hlen]; [done|exfalso].
    destruct Hc as (Hd & Hne & Hz). destruct ds as [|c ds]; [done|]. simpl in Hz, Hlen.
    apply Forall_cons in Hd as [Hc Hd]. pose proof (digits_value_lower c ds Hc Hd) as Hlow.
    pose proof (digit_range c Hc). assert (digit_value c <> 0) by (intros H0; specialize (Hz H0); lia).
    assert (10 ^ 19 <= 10 ^ Z.of_nat (length ds)) by (apply Z.pow_le_mono_r; lia).
    unfold MAX_DOOR_MONEY in Hb. nia.
Qed.

(** [C30] Door prices are exact.  A computed quotation has one line per item with its
    dimensions and quantity; every part's quantity is the rule's rational measure
    with waste, or its minimum when larger, and its amount the ceiling of quantity
    times rate plus the fee; the unit price is materials, labor, additions and tax,
    each rounded up once, less the discount and at least the minimum; the line total
    is unit price times quantity; and the calculated total, present exactly when
    every line has one, is their sum and fits 63 bits. *)
Theorem door_prices_exact items models materials now snap :
  priceDoors items models materials now = Ok snap ->
  let materialMap := map_of ((fun m => (ma_id m, m)) <$> materials) in
  length (sn_lines snap) = length items /\
  (forall i item line, items !! i = Some item -> sn_lines snap !! i = Some line ->
     line_valid models materialMap now i item line /\ line_money item line) /\
  (forall t, sn_calculatedTotal snap = Some t <->
     (forall line, line ∈ sn_lines snap -> is_Some (ln_total line)) /\
     t = sumZ (fun line => default 0 (ln_total line)) (sn_lines snap)) /\
  (forall t, sn_calculatedTotal snap = Some t -> t <= MAX_DOOR_MONEY).
Proof.
  unfold priceDoors. destruct (_ || _) eqn:Ec; [done|].
  destruct (price_lines _ _ _ _ _ _) as [[lines s]|e] eqn:E; [|done]. intros [= <-]. cbn [sn_lines sn_calculatedTotal].
  apply price_lines_ok in E as (Hlen & Hall & _ & Hcalc & Hcomp & Hmax). cbn [calculated complete] in *.
  split; [done|]. split; [by intros i; apply (Hall i)|].
  assert (Hiff : complete s = true <-> forall line, line ∈ lines -> is_Some (ln_total line)).
  { rewrite Hcomp, andb_true_l, forallb_forall. setoid_rewrite <- list_elem_of_In.
    setoid_rewrite bool_decide_eq_true. done. }
  unfold only_if. split; intros t.
  - rewrite <- Hiff, Hcalc. destruct (complete s); naive_solver.
  - destruct (complete s); [|done]. intros [= <-]. apply Hmax; [|done]. intros ->.
    apply orb_false_iff in Ec as [Ec%bool_decide_eq_false _]. by destruct items.
Qed.

(** No total is offered automatically while a person must decide.  A quotation
    carries a total, and the same full amount as its deposit, exactly when it has a
    calculated total and no open reason; then every line's model has technical rules
    that the dimensions satisfy, needs no manual approval, and every selected
    material is active, allowed, compatible and priced with a valid rate. *)
Theorem door_automatic_total items models materials now snap :
  priceDoors items models materials now = Ok snap ->
  (forall t, sn_total snap = Some t <-> (sn_calculatedTotal snap = Some t /\ sn_reasons snap = [])) /\
  (forall t, sn_total snap = Some t ->
     sn_deposit snap = Some t /\ Forall2 line_automatic items (sn_lines snap) /\
     Forall (fun line => forallb priced (ln_parts line) = true) (sn_lines snap)).
Proof.
  unfold priceDoors. destruct (_ || _) eqn:Ec; [done|].
  destruct (price_lines _ _ _ _ _ _) as [[lines s]|e] eqn:E; [|done]. intros [= <-].
  cbn [sn_lines sn_calculatedTotal sn_total sn_reasons sn_deposit].
  apply price_lines_ok in E as (Hlen & Hall & (extra & Hre & Hauto) & _ & Hcomp & _).
  cbn [reasons complete app] in *. unfold only_if. split.
  - intros t. destruct (complete s); [|split; [done|intros [? _]; done]].
    destruct (decide (reasons s = [])) as [Hr|Hr].
    + rewrite (bool_decide_true (reasons s = [])) by done. rewrite Hr. simpl. tauto.
    + rewrite (bool_decide_false (reasons s = [])) by done. simpl. split; [intros [=]|]. intros [_ Hr']. by destruct Hr.
  - intros t. destruct (complete s) eqn:Ecomp; [|by intros [=]].
    destruct (decide (reasons s = [])) as [Hr|Hr];
      [rewrite (bool_decide_true (reasons s = [])) by done
      |rewrite (bool_decide_false (reasons s = [])) by done; by intros [=]].
    simpl. intros [= <-].
    split; [done|]. split; [apply Hauto; congruence|]. apply Forall_lookup. intros i line Hi.
    destruct (lookup_lt_is_Some_2 items i) as [item Hitem]; [rewrite <- Hlen; by eapply lookup_lt_Some|].
    destruct (Hall i item line Hitem Hi) as [_ Hm]. unfold line_money in Hm.
    symmetry in Hcomp. rewrite andb_true_l, forallb_forall in Hcomp.
    assert (Hs : bool_decide (is_Some (ln_total line)) = true)
      by (apply Hcomp, list_elem_of_In; by eapply list_elem_of_lookup_2).
    apply bool_decide_eq_true in Hs as [t Ht]. rewrite Ht in Hm.
    destruct (ln_unitTotal line); [|done]. tauto.
Qed.

(** Manufacturing input.  A specification is accepted exactly when its colour and
    sides are known and it is STANDARD without holes, or CUSTOM with exactly four
    holes at whole distances within the door's height whose positions, measured
    from the top, are pairwise distinct. *)
Theorem door_manufacturing_exact item :
  validateDoorManufacturing item = Ok tt <->
  match manufacturing item with
  | None => True
  | Some v =>
      profileColor v ∈ ["BLACK"; "WHITE"; "GOLD"; "BRONZE"] /\
      handleSide v ∈ ["RIGHT"; "LEFT"; "TOP"; "BOTTOM"] /\
      hingeSide v ∈ ["RIGHT"; "LEFT"; "TOP"; "BOTTOM"] /\
      ((drillingMode v = "STANDARD" /\ holes v = []) \/
       (drillingMode v = "CUSTOM" /\ length (holes v) = 4%nat /\ Forall (hole_ok (heightMm item)) (holes v) /\
        NoDup (hole_top (heightMm item) <$> holes v)))
  end.
Proof.
  unfold validateDoorManufacturing. destruct (manufacturing item) as [v|]; [|done].
  rewrite guard_ok, !orb_false_iff, !negb_false_iff. unfold one_of. rewrite !bool_decide_eq_true.
  assert (Hmode : drillingMode v ∈ ["STANDARD"; "CUSTOM"] <->
    drillingMode v = "STANDARD" \/ drillingMode v = "CUSTOM") by set_solver.
  rewrite Hmode. destruct (decide (drillingMode v = "STANDARD")) as [Hd|Hd].
  - rewrite bool_decide_true by done. rewrite Hd. case_bool_decide; naive_solver.
  - rewrite (bool_decide_false (drillingMode v = "STANDARD")) by done.
    rewrite guard_ok, negb_false_iff, Nat.eqb_eq, check_holes_ok.
    assert (Hempty : forall x, x ∈ hole_top (heightMm item) <$> holes v -> x ∉ @nil Z) by (intros; set_solver).
    naive_solver.
Qed.

(** Production is staged and gated.  A status is entered exactly along the
    transition table and, except for cancellation, only with an approved and
    accepted quotation and nothing left to pay; the production stages also need the
    technical approval, reserved and then consumed stock, and completion needs full
    settlement and delivery data.  An order in production went through every stage
    before, and once it was in production it is never cancelled. *)
Theorem door_production_gated :
  (forall from to c, assertDoorTransition from to c = Ok tt <->
     to ∈ DOOR_TRANSITIONS from /\ door_gate to c) /\
  (forall s visited, door_path s visited -> stages_before s ⊆ visited) /\
  (forall visited, door_path D_CANCELLED visited -> D_IN_PRODUCTION ∉ visited).
Proof.
  split; [apply door_gate_ok|]. split.
  - intros s visited H. by apply door_path_stages in H as (_ & Hs & _).
  - intros visited H. apply door_path_stages in H as (_ & _ & _ & Hc). by apply Hc.
Qed.

(** * Witnesses *)

Definition demo_material : DoorMaterial :=
  mkMaterial "g1" "GL-1" "Glass" true 1 None (mkMaterialConfiguration M2 (Some "1500000") None "2000" None).
Definition demo_configuration : DoorModelConfiguration :=
  mkModelConfiguration (Some (mkTechnical 300 1200 500 2400 2)) false
    [mkSlot "glass" "Glass" ["g1"] true] []
    [mkComponent "glass" AREA 1 1 50 60 500 "0.25"]
    (Some (mkLabor "100000" "50000")) [mkAdditional "Packing" "3000"] 900 "1000" "0" None.
Definition demo_model : DoorModel := mkModel "m1" "DM-1" "Decofix" true 3 demo_configuration.
Definition demo_item : DoorItemInput := mkItem "m1" 600 2001 2 [("glass", "g1")] None.
Definition demo_snapshot : result DoorQuoteSnapshot :=
  priceDoors [demo_item] [demo_model] [demo_material] 0.

(** 0.55 m by 1.941 m with 5% waste at 1,500,000 per square metre, and so on. *)
Lemma door_prices_exact_witness :
  match demo_snapshot with
  | Ok snap => sn_calculatedTotal snap = Some 4023200 /\ length (sn_lines snap) = 1%nat
  | Err _ => False
  end.
Proof.
  destruct demo_snapshot as [snap|e] eqn:E; [|by vm_compute in E].
  destruct (door_prices_exact [demo_item] [demo_model] [demo_material] 0 snap E) as (Hl & _).
  split; [|exact Hl]. vm_compute in E. injection E as <-. reflexivity.
Defined.

Lemma door_automatic_total_witness :
  match demo_snapshot with
  | Ok snap => sn_deposit snap = Some 4023200
  | Err _ => False
  end.
Proof.
  destruct demo_snapshot as [snap|e] eqn:E; [|by vm_compute in E].
  apply (door_automatic_total [demo_item] [demo_model] [demo_material] 0 snap E).
  vm_compute in E. injection E as <-. reflexivity.
Defined.
