(* ===== verification/CreditRuns.v ===== *)
(** Runs of the steps that the credit commands share: reads of an account and of its
    balances, and the rows they insert. *)

From S2P Require Import Prelude Table Json AuditTrail Retry InventoryModel Inventory InventoryLedger.
From S2P Require Import Durable DurableSafety StateMachine IsoTime Paging.
From S2P Require Import Credit CreditCommands CreditBooks.

(** Evidence is immutable: rows are only added. *)
Definition grows (t t' : CreditTables) : Prop :=
  documents t ⊆ documents t' /\ receipts t ⊆ receipts t' /\ entries t ⊆ entries t' /\
  sale_returns t ⊆ sale_returns t' /\ payouts t ⊆ payouts t'.

#[export] Instance grows_preorder : PreOrder grows.
Proof.
  split; [by intros t|]. intros t1 t2 t3 (A & B & C & D & E) (A' & B' & C' & D' & E'). split_and!; by etrans.
Qed.

Lemma posts_grow es t t' : posts es t t' -> grows t t'.
Proof.
  intros H. destruct (posts_frame es t t' H) as (_ & E & Hsub). unfold grows. split_and!; [..|exact Hsub| |]; by rewrite E.
Qed.

Lemma posts_cons_app e es t t1 t2 : posts [e] t t1 -> posts es t1 t2 -> posts (e :: es) t t2.
Proof.
  intros H. inversion H as [|? ? ? acc ? Hid Hc Ha Hp]; subst. inversion Hp; subst. by apply posts_cons.
Qed.

Definition stock_kept (d d' : Domain CreditTables) : Prop := same_stock (inv_of d) (inv_of d').

#[export] Instance stock_kept_preorder : PreOrder stock_kept.
Proof. split; [by intros d|]. intros d1 d2 d3. unfold stock_kept. apply transitivity. Qed.

Lemma quiet_audit input (d : Domain CreditTables) u d' : record input d = Ok (u, d') -> own d' = own d /\ stock_kept d d'.
Proof. exact (quiet_record input d u d'). Qed.

Section runs.
Context (cuid : nat -> string).
Implicit Types (d : Domain CreditTables) (t : CreditTables).

(** * Reads *)

Lemma summary_ok id d s d' : summary id d = Ok (s, d') ->
  d' = d /\ (exists a, accounts (own d) !! id = Some a /\ cs_id s = ca_id a /\ cs_creditLimit s = ca_creditLimit a) /\
  cs_outstanding s = sumZ (outstanding (own d)) (account_documents id (own d)).
Proof. intros H. unfold summary in H. run_inv. split; [done|]. split; [by eexists|done]. Qed.

Lemma account_of_ok c v d a d' : account_of c v d = Ok (a, d') -> accounts_ok (accounts (own d)) ->
  d' = d /\ accounts (own d) !! ca_id a = Some a /\ ca_customerId a = c.
Proof.
  intros H [Hid _]. unfold account_of in H. run_inv. apply find_by_Some in Hsome as [[k Hk] E%bool_decide_eq_true].
  split; [done|]. split; [|done]. by rewrite (Hid k _ Hk).
Qed.

Lemma checkDebtBound_ok id delta d u d' : books_ok (own d) -> checkDebtBound id delta d = Ok (u, d') ->
  d' = d /\ (0 <= account_total id (own d) + delta <= MAX_CREDIT_IRR)%Z.
Proof.
  intros Hok H. unfold checkDebtBound in H. run_inv.
  match goal with H : summary _ _ = _ |- _ => apply summary_ok in H as (-> & _ & E) end.
  rewrite account_total_documents in E by done. rewrite E in *.
  match goal with H : (_ || _)%bool = false |- _ => apply orb_false_iff in H as [H1%Z.ltb_ge H2%Z.ltb_ge] end. done.
Qed.

Lemma find_balance_ok id a ids t b : books_ok t -> find_balance_of id (balances_of a ids t) = Some b ->
  exists x, documents t !! id = Some x /\ rd_id x = id /\ rd_accountId x = a /\ id ∈ ids /\ b = document_balance t x.
Proof.
  intros Hok H. unfold find_balance_of in H. apply head_Some_elem_of in H.
  apply list_elem_of_In, filter_In in H as [H%list_elem_of_In E%bool_decide_eq_true].
  unfold balances_of in H. apply list_elem_of_fmap in H as (x & -> & Hx). apply elem_of_find_many in Hx as [[k Hk] Hx].
  apply andb_prop in Hx as [[H1%bool_decide_eq_true H2%bool_decide_eq_true]%andb_prop _]. simpl in E. subst id.
  exists x. destruct (bk_documents t Hok k x Hk) as [<- _]. by split_and!.
Qed.

(** * Writes *)

Lemma advance_account_ok id d u d' : advance_account id d = Ok (u, d') -> accounts_ok (accounts (own d)) ->
  stock_kept d d' /\ exists acc, own d' = set_accounts acc (own d) /\ policy_of <$> acc = policy_of <$> accounts (own d).
Proof.
  intros H [Hid _]. unfold advance_account, put_account in H. run_inv.
  match goal with H : on_own _ _ = _ |- _ => apply on_own_ok in H as (x & [= _ <-] & ->) end.
  split; [by unfold stock_kept|]. eexists. split; [done|]. simpl. rewrite (Hid id v) by done.
  rewrite fmap_insert. apply insert_id. by rewrite lookup_fmap, Hsome.
Qed.

(** The row of a new entry. *)
Definition entry_row (id : string) (a docId : string) (rc rv : option string) (k : CreditEntryKind) (n : Z) e :=
  en_id e = id /\ en_accountId e = a /\ en_documentId e = docId /\ en_receiptId e = rc /\ en_reversalOfId e = rv /\
  en_kind e = k /\ en_amount e = n.

Lemma create_entry_ok a docId rc rv k n eff ev rs h ctx d e d' :
  create_entry cuid a docId rc rv k n eff ev rs h ctx d = Ok (e, d') -> accounts_ok (accounts (own d)) ->
  stock_kept d d' /\ posts [e] (own d) (own d') /\ entry_row (en_id e) a docId rc rv k n e.
Proof.
  intros H Hacc. unfold create_entry in H. run_inv.
  match goal with H : on_inv _ _ = _ |- _ => apply quiet_fresh in H as [E1 Q1] end.
  rewrite <- E1 in Hacc.
  match goal with H : advance_account _ _ = _ |- _ => apply advance_account_ok in H as (Q2 & acc & E2 & Hpol); [|done] end.
  match goal with H : on_own _ _ = _ |- _ => apply on_own_ok in H as (x' & [= _ <-] & ->) end.
  match goal with H : (_ || _)%bool = false |- _ => apply orb_false_iff in H as [G1%bool_decide_eq_false G2%bool_decide_eq_false] end.
  apply eq_None_not_Some in G1, G2. rewrite E2, E1 in *. cbn in G1, G2, Hpol.
  split; [unfold stock_kept; etrans; [exact Q1|exact Q2]|]. split; [|by split_and!].
  cbn [own]. apply (posts_cons _ [] (own d) acc); [exact G1|exact G2|exact Hpol|]. apply posts_nil.
Qed.

(** Several entries. *)
Lemma create_entries_ok {A} (f : A -> M (Domain CreditTables) CreditLedgerEntry) (P : A -> CreditLedgerEntry -> Prop) l d es d' :
  (forall x d e d', accounts_ok (accounts (own d)) -> f x d = Ok (e, d') ->
     stock_kept d d' /\ posts [e] (own d) (own d') /\ P x e) ->
  accounts_ok (accounts (own d)) -> map_each l f d = Ok (es, d') ->
  stock_kept d d' /\ posts es (own d) (own d') /\ Forall2 P l es.
Proof.
  intros Hf. revert d es. induction l as [|x l IH]; intros d es Hacc H; simpl in H; run_inv.
  { split; [done|]. split; [constructor|constructor]. }
  match goal with H : f _ _ = _ |- _ => apply Hf in H as (Q1 & P1 & HP); [|done] end.
  match goal with H : map_each _ _ _ = _ |- _ => apply IH in H as (Q2 & P2 & HPs) end.
  - split; [by etrans|]. split; [by eapply posts_cons_app|by constructor].
  - eapply policy_accounts; [|exact Hacc]. by apply posts_frame in P1 as (? & _).
Qed.

Lemma create_document_ok a o k n issued due terms src ctx d x d' :
  create_document cuid a o k n issued due terms src ctx d = Ok (x, d') ->
  stock_kept d d' /\ own d' = set_documents (<[rd_id x := x]> (documents (own d))) (own d) /\
  documents (own d) !! rd_id x = None /\ (0 < n)%Z /\
  rd_accountId x = a /\ rd_orderId x = o /\ rd_kind x = k /\ rd_amount x = n /\
  rd_issuedAt x = issued /\ rd_dueAt x = due /\ rd_termsDays x = terms.
Proof.
  intros H. unfold create_document in H. run_inv.
  match goal with H : on_inv _ _ = _ |- _ => apply quiet_fresh in H as [E1 Q1] end.
  match goal with H : on_own _ _ = _ |- _ => apply on_own_ok in H as (x' & [= _ <-] & ->) end.
  repeat match goal with H : (_ || _)%bool = false |- _ => apply orb_false_iff in H as [? ?] end.
  match goal with H : bool_decide (is_Some (documents _ !! _)) = false |- _ =>
    apply bool_decide_eq_false, eq_None_not_Some in H as G end.
  rewrite E1 in *. cbn [own]. split; [exact Q1|]. split; [done|]. split; [done|]. split; [lia|]. done.
Qed.

Lemma receipt_row_ok a n m ev h eff ctx d x d' :
  create_receipt cuid a n m ev h eff ctx d = Ok (x, d') ->
  stock_kept d d' /\ own d' = set_receipts (<[cr_receiptId x := x]> (receipts (own d))) (own d) /\
  receipts (own d) !! cr_receiptId x = None /\ cr_accountId x = a /\ cr_amount x = n.
Proof.
  intros H. unfold create_receipt in H. run_inv.
  match goal with H : on_inv _ _ = _ |- _ => apply quiet_fresh in H as [E1 Q1] end.
  match goal with H : on_own _ _ = _ |- _ => apply on_own_ok in H as (x' & [= _ <-] & ->) end.
  match goal with H : (_ || _)%bool = false |- _ => apply orb_false_iff in H as [G1%bool_decide_eq_false%eq_None_not_Some _] end.
  rewrite E1 in *. cbn [own]. by split_and!.
Qed.
End runs.
