(* ===== verification/CreditPostings.v ===== *)
(** The books stay balanced under each kind of posting: a new document with its
    initial entry, an adjustment, the allocation of a receipt, its reversal, and the
    rows of compensations and payouts. *)

From S2P Require Import Prelude Table Json AuditTrail Retry InventoryModel Inventory.
From S2P Require Import InventoryLedger Durable DurableSafety StateMachine IsoTime Paging.
From S2P Require Import Credit CreditCommands CreditSales CreditBooks CreditRuns.

(** The one element of a list with a key. *)
Lemma sumZ_keyed {A B} (key : A -> B) (P : A -> bool) (f : A -> Z) l x :
  NoDup (key <$> l) -> x ∈ l -> P x = true -> (forall y, y ∈ l -> P y = true -> key y = key x) ->
  sumZ (fun y => if P y then f y else 0%Z) l = f x.
Proof.
  induction l as [|y l IH]; [by intros _ ?%elem_of_nil|]. intros [Hy Hnd]%NoDup_cons Hx HP Hkey. simpl.
  assert (Hkey' : forall y, y ∈ l -> P y = true -> key y = key x) by (intros z Hz; apply Hkey; by apply elem_of_cons; right).
  apply elem_of_cons in Hx as [<-|Hx].
  - rewrite HP, (sumZ_ext _ (fun _ => 0%Z)); [rewrite sumZ_const; lia|]. intros z Hz. destruct (P z) eqn:E; [|done].
    destruct Hy. rewrite <- (Hkey' z Hz E). by apply list_elem_of_fmap_2.
  - rewrite (IH Hnd Hx HP Hkey'). destruct (P y) eqn:E; [|lia]. destruct Hy.
    rewrite (Hkey y); [by apply list_elem_of_fmap_2|by apply elem_of_cons; left|done].
Qed.

Section postings.
Context (t0 : CreditTables) (Hok : books_ok t0).

Lemma post_totals es t t' acc : posts es t t' -> entries t = entries t0 -> (forall e, e ∈ es -> en_accountId e = acc) ->
  (account_total acc t0 + sumZ en_amount es <= MAX_CREDIT_IRR)%Z -> forall a, (account_total a t' <= MAX_CREDIT_IRR)%Z.
Proof using Hok.
  intros Hp HE Ha Hle a. unfold account_total in *. rewrite (posts_sum es t t' _ Hp), (sum_entries_eq _ t t0 HE).
  destruct (decide (a = acc)) as [->|Hne].
  - rewrite (sumZ_ext _ en_amount es); [done|]. intros e He. by rewrite (Ha e He), bool_decide_true.
  - rewrite (sumZ_ext _ (fun _ => 0%Z) es), sumZ_const.
    + pose proof (bk_total t0 Hok a) as H. unfold account_total in H. lia.
    + intros e He. by rewrite (Ha e He), bool_decide_false by done.
Qed.

Lemma post_outstanding es t t' d : posts es t t' -> entries t = entries t0 ->
  outstanding t' d = (outstanding t0 d + sumZ (fun e => if of_document d e then en_amount e else 0) es)%Z.
Proof using. intros Hp HE. unfold outstanding. by rewrite (posts_sum es t t' _ Hp), (sum_entries_eq _ t t0 HE). Qed.

Lemma post_principal es t t' d : posts es t t' -> entries t = entries t0 ->
  principal t' d = (principal t0 d + sumZ (fun e => if of_document d e && is_principal e then en_amount e else 0) es)%Z.
Proof using. intros Hp HE. unfold principal. by rewrite (posts_sum es t t' _ Hp), (sum_entries_eq _ t t0 HE). Qed.

(** Postings other than corrections leave the principal. *)
Lemma post_principal_kept es t t' d : posts es t t' -> entries t = entries t0 -> (forall e, e ∈ es -> is_principal e = false) ->
  principal t' d = principal t0 d.
Proof using.
  intros Hp HE Hno. rewrite (post_principal es t t' d Hp HE), (sumZ_ext _ (fun _ => 0%Z)), sumZ_const; [lia|].
  intros e He. by rewrite (Hno e He), andb_false_r.
Qed.

Lemma document_key id d : documents t0 !! id = Some d -> rd_id d = id.
Proof using Hok. apply (bk_documents t0 Hok). Qed.
Lemma same_document d d' : documents t0 !! rd_id d = Some d -> (exists id, documents t0 !! id = Some d') -> rd_id d = rd_id d' -> d = d'.
Proof using Hok. intros H [id H'] E. pose proof (document_key id d' H') as K. congruence. Qed.

(** ** A new document with its initial entry *)

Lemma no_entries_yet x : documents t0 !! rd_id x = None -> outstanding t0 x = 0%Z /\ principal t0 x = 0%Z.
Proof using Hok.
  intros Hx. assert (H : forall id e, entries t0 !! id = Some e -> of_document x e = false).
  { intros id e He. destruct (bk_entries t0 Hok id e He) as [_ (d & Hd & _)]. unfold of_document.
    rewrite bool_decide_false; [done|]. congruence. }
  split; apply sum_entries_0; intros id e He; by rewrite (H id e He).
Qed.

Lemma books_new_document x e t' :
  documents t0 !! rd_id x = None -> is_Some (accounts t0 !! rd_accountId x) -> (0 < rd_amount x)%Z ->
  (account_total (rd_accountId x) t0 + rd_amount x <= MAX_CREDIT_IRR)%Z ->
  posts [e] (set_documents (<[rd_id x := x]> (documents t0)) t0) t' ->
  en_accountId e = rd_accountId x -> en_documentId e = rd_id x -> en_kind e = initial_kind (rd_kind x) ->
  en_amount e = rd_amount x -> plain e -> books_ok t'.
Proof using Hok.
  intros Hx Hacc Hpos Htot Hp Ea Ed Ek En Hpl. set (t := set_documents _ t0) in *.
  assert (HDt : forall id d, documents t !! id = Some d -> (id = rd_id x /\ d = x) \/ (rd_id x <> id /\ documents t0 !! id = Some d)).
  { intros id d [[<- <-]|[? ?]]%(lookup_insert_Some (documents t0)); [by left|by right]. }
  assert (Hx' : documents t !! rd_id x = Some x) by apply lookup_insert_eq.
  assert (Hin : is_initial e = true) by (unfold is_initial; rewrite Ek; apply bool_decide_eq_true; destruct (rd_kind x); set_solver).
  assert (Hof : of_document x e = true) by (unfold of_document; by rewrite Ea, Ed, !bool_decide_true).
  apply (books_post t0 t t' [e]); try done.
  - by apply insert_subseteq.
  - intros e' ->%list_elem_of_singleton. exists x. destruct (posts_frame _ _ _ Hp) as (_ & -> & _).
    split; [cbn; by rewrite Ed|]. split; [done|]. unfold entry_shape. rewrite Ek. destruct (rd_kind x) eqn:K; cbn; rewrite ?K; by split_and!.
  - apply (bk_accounts t0 Hok).
  - intros id d [[-> ->]|[_ Hd]]%HDt; [right|by left]. split_and!; [done..|]. exists e. split; [by constructor|done].
  - intros id r Hr. left. split; [done|]. intros e' ->%list_elem_of_singleton. by destruct Hpl as [-> _].
  - intros id d [[-> ->]|[Hne Hd]]%HDt.
    + right. rewrite (post_outstanding [e] t t' x Hp), (post_principal [e] t t' x Hp) by done.
      destruct (no_entries_yet x Hx) as [-> ->]. simpl. rewrite Hof. pose proof (account_total_nonneg (rd_accountId x) t0 Hok).
      destruct (is_principal e); simpl; lia.
    + left. intros e' ->%list_elem_of_singleton. by rewrite Ed, (document_key id d Hd).
  - apply (post_totals [e] t t' (rd_accountId x) Hp); [done|by intros e' ->%list_elem_of_singleton|simpl; lia].
  - intros id r e' Hr _ ->%list_elem_of_singleton. destruct (bk_returns t0 Hok id r Hr) as [_ (d & Hd & _)]. congruence.
Qed.

(** ** Corrections *)

Lemma books_correction x e t' :
  documents t0 !! rd_id x = Some x -> posts [e] t0 t' ->
  en_accountId e = rd_accountId x -> en_documentId e = rd_id x -> plain e ->
  (en_kind e = ENTRY_DEBIT_ADJUSTMENT /\ 0 < en_amount e \/ en_kind e = ENTRY_CREDIT_NOTE /\ en_amount e < 0)%Z ->
  (0 <= outstanding t0 x + en_amount e)%Z -> (principal t0 x + en_amount e <= MAX_CREDIT_IRR)%Z ->
  (account_total (rd_accountId x) t0 + en_amount e <= MAX_CREDIT_IRR)%Z ->
  (forall id r, sale_returns t0 !! id = Some r -> (0 < sr_refundDue r)%Z -> sr_documentId r <> rd_id x) -> books_ok t'.
Proof using Hok.
  intros Hx Hp Ea Ed Hpl Hk Hout Hprin Htot Hret.
  assert (Hof : of_document x e = true) by (unfold of_document; by rewrite Ea, Ed, !bool_decide_true).
  apply (books_post t0 t0 t' [e]); try done.
  - intros e' ->%list_elem_of_singleton. exists x. destruct (posts_frame _ _ _ Hp) as (_ & -> & _).
    split; [cbn; by rewrite Ed|]. split; [done|]. unfold entry_shape. by destruct Hk as [[-> ?]|[-> ?]].
  - apply (bk_accounts t0 Hok).
  - by left.
  - intros id r Hr. left. split; [done|]. intros e' ->%list_elem_of_singleton. by destruct Hpl as [-> _].
  - intros id d Hd. destruct (decide (rd_id d = rd_id x)) as [E|Hne]; [right|left; intros e' ->%list_elem_of_singleton; congruence].
    rewrite <- (same_document x d Hx (ex_intro _ id Hd)) by done.
    rewrite (post_outstanding [e] t0 t' x Hp), (post_principal [e] t0 t' x Hp) by done. simpl. rewrite Hof.
    assert (is_principal e = true) as -> by (unfold is_principal; apply bool_decide_eq_true; destruct Hk as [[-> _]|[-> _]]; set_solver).
    simpl. lia.
  - apply (post_totals [e] t0 t' (rd_accountId x) Hp); [done|by intros e' ->%list_elem_of_singleton|simpl; lia].
  - intros id r e' Hr Hdue ->%list_elem_of_singleton. rewrite Ed. intros E. by apply (Hret id r Hr Hdue).
Qed.

(** ** Receipts *)

(** The allocation [e] of the receipt [r]. *)
Definition allocates (r : CreditReceipt) (e : CreditLedgerEntry) : Prop :=
  en_kind e = ENTRY_RECEIPT /\ en_receiptId e = Some (cr_receiptId r) /\ en_reversalOfId e = None /\
  en_accountId e = cr_accountId r /\ (en_amount e < 0)%Z /\
  exists x, documents t0 !! en_documentId e = Some x /\ rd_accountId x = cr_accountId r /\ (0 <= outstanding t0 x + en_amount e)%Z.

Lemma no_allocations_yet r id e : receipts t0 !! cr_receiptId r = None -> entries t0 !! id = Some e -> is_receipt_of r e = false.
Proof using Hok.
  intros Hr He. apply not_true_is_false. intros [K%bool_decide_eq_true R%bool_decide_eq_true]%andb_prop.
  destruct (bk_entries t0 Hok id e He) as [_ (d & _ & _ & Hs)]. unfold entry_shape in Hs. rewrite K in Hs.
  destruct Hs as (_ & _ & r' & R' & Hr' & _). congruence.
Qed.

Lemma new_receipt_ok r es t t' : receipts t0 !! cr_receiptId r = None -> (0 < cr_amount r)%Z -> entries t = entries t0 ->
  posts es t t' -> (forall e, e ∈ es -> allocates r e) -> sumZ en_amount es = (- cr_amount r)%Z -> receipt_ok t' r.
Proof using Hok.
  intros Hr Hpos HE Hp Hes Hsum.
  assert (Hyes : forall e, e ∈ es -> is_receipt_of r e = true).
  { intros e He. destruct (Hes e He) as (K & R & _). unfold is_receipt_of. by rewrite K, R, !bool_decide_true. }
  split; [done|]. split.
  - rewrite (posts_sum es t t' _ Hp), (sum_entries_eq _ t t0 HE), sum_entries_0 by (intros; by eapply no_allocations_yet).
    rewrite (sumZ_ext _ en_amount es); [lia|]. intros e He. by rewrite (Hyes e He).
  - exists false. intros id e He Hre. apply not_true_is_false. rewrite reversed_in_true. intros (k & v & Hv & Hrev).
    destruct (posts_lookup es t t' k v Hp Hv) as [Hv0|[_ Hv0]]; [|destruct (Hes v Hv0) as (_ & _ & N & _); congruence].
    rewrite HE in Hv0. destruct (bk_entries t0 Hok k v Hv0) as [_ (d & _ & _ & Hs)]. unfold entry_shape, plain in Hs.
    rewrite Hrev in Hs. destruct (en_kind v); try naive_solver. destruct Hs as (o & [= Eid] & Ho & _ & _ & _ & _ & _).
    assert (Ho' : entries t' !! en_id o = Some o).
    { eapply lookup_weaken; [|apply (posts_frame es t t' Hp)]. by rewrite HE. }
    destruct (posts_lookup es t t' id e Hp He) as [He0|[-> He0]].
    + rewrite HE in He0. by rewrite (no_allocations_yet r id e Hr He0) in Hre.
    + destruct (posts_new es t t' e Hp He0) as [_ Hn]. rewrite HE in Hn. congruence.
Qed.

Lemma books_receipt r es t' :
  receipts t0 !! cr_receiptId r = None -> (0 < cr_amount r)%Z ->
  posts es (set_receipts (<[cr_receiptId r := r]> (receipts t0)) t0) t' -> (forall e, e ∈ es -> allocates r e) ->
  NoDup (en_documentId <$> es) -> sumZ en_amount es = (- cr_amount r)%Z -> books_ok t'.
Proof using Hok.
  intros Hr Hpos Hp Hes Hnd Hsum. set (t := set_receipts _ t0) in *.
  assert (HRt : forall id x, receipts t !! id = Some x -> (id = cr_receiptId r /\ x = r) \/ receipts t0 !! id = Some x).
  { intros id x [[<- <-]|[? ?]]%(lookup_insert_Some (receipts t0)); [by left|by right]. }
  apply (books_post t0 t t' es); try done.
  - by apply insert_subseteq.
  - intros e He. destruct (Hes e He) as (K & R & N & A & Neg & x & Hx & Ax & _). exists x.
    destruct (posts_frame _ _ _ Hp) as (_ & -> & _). split; [done|]. split; [congruence|]. unfold entry_shape. rewrite K.
    split; [done|]. split; [done|]. exists r. split; [done|]. split; [apply lookup_insert_eq|done].
  - apply (bk_accounts t0 Hok).
  - by left.
  - intros id x [[-> ->]|Hx]%HRt; [right; split; [done|by apply (new_receipt_ok r es t t')]|left].
    split; [done|]. intros e He. destruct (Hes e He) as (_ & -> & _). congruence.
  - intros id d Hd. destruct (decide (Exists (fun e => en_documentId e = rd_id d) es)) as [He|Hno].
    + right. apply Exists_exists in He as (e & He & Ed). destruct (Hes e He) as (K & _ & _ & A & _ & x & Hx & Ax & Hle).
      rewrite Ed in Hx. assert (x = d) as -> by (eapply eq_sym, same_document; [|by eexists|]; rewrite (document_key id d Hd) in *;
        [done|by rewrite (document_key id x Hx)]).
      rewrite (post_principal_kept es t t' d Hp) by (done || (intros y Hy; destruct (Hes y Hy) as (Ky & _); unfold is_principal; by rewrite Ky)).
      rewrite (post_outstanding es t t' d Hp), (sumZ_keyed en_documentId _ en_amount es e); try done.
      * split; [done|]. by apply (bk_balance t0 Hok id).
      * unfold of_document. rewrite A, Ed, Ax. by rewrite !bool_decide_true.
      * intros y _ [Hy%bool_decide_eq_true _]%andb_prop. congruence.
    + left. intros e He E. apply Hno, Exists_exists. by exists e.
  - apply (post_totals es t t' (cr_accountId r) Hp); [done|by intros e He; apply Hes|].
    pose proof (bk_total t0 Hok (cr_accountId r)). lia.
  - intros id y e Hy Hdue He E. destruct (Hes e He) as (_ & _ & _ & _ & Neg & x & Hx & _ & Hle).
    destruct (bk_returns t0 Hok id y Hy) as [_ (d & Hd & _ & _ & _ & H0 & _)]. rewrite E, Hd in Hx. injection Hx as <-.
    rewrite (H0 Hdue) in Hle. lia.
Qed.

(** ** Reversals *)

(** The entry [e] reverses [o]. *)
Definition reverses (o e : CreditLedgerEntry) : Prop :=
  entry_row (en_id e) (en_accountId o) (en_documentId o) (en_receiptId o) (Some (en_id o)) ENTRY_RECEIPT_REVERSAL (- en_amount o) e.

Lemma elem_of_receipt_entries r o : receipts t0 !! cr_receiptId r = Some r ->
  o ∈ receipt_entries r t0 <-> entries t0 !! en_id o = Some o /\ is_receipt_of r o = true.
Proof using Hok.
  intros Hr. unfold receipt_entries. rewrite elem_of_find_many. unfold is_receipt_of. split.
  - intros [[k Hk] [[R _]%andb_prop K]%andb_prop]. rewrite R, K. by destruct (bk_entries t0 Hok k o Hk) as [-> _].
  - intros [Ho [K R]%andb_prop]. split; [by eexists|]. rewrite R, K. rewrite bool_decide_true; [done|].
    apply bool_decide_eq_true in K, R. destruct (bk_entries t0 Hok _ o Ho) as [_ (d & _ & _ & Hs)]. unfold entry_shape in Hs.
    rewrite K in Hs. destruct Hs as (_ & _ & r' & R' & Hr' & A). congruence.
Qed.

Lemma receipt_entries_sum r : receipts t0 !! cr_receiptId r = Some r -> sumZ en_amount (receipt_entries r t0) = (- cr_amount r)%Z.
Proof using Hok.
  intros Hr. destruct (bk_receipts t0 Hok _ r Hr) as [_ (_ & <- & _)]. unfold receipt_entries. rewrite sumZ_find_many.
  apply tsum_ext. intros k e He. destruct (bk_entries t0 Hok k e He) as [K _].
  assert (E : e ∈ receipt_entries r t0 <-> is_receipt_of r e = true).
  { rewrite elem_of_receipt_entries by done. rewrite K. naive_solver. }
  unfold receipt_entries in E. rewrite elem_of_find_many in E. destruct (is_receipt_of r e), (_ && _); try done; naive_solver.
Qed.

Lemma books_reversal r es t' :
  receipts t0 !! cr_receiptId r = Some r -> posts es t0 t' -> Forall2 reverses (receipt_entries r t0) es ->
  (account_total (cr_accountId r) t0 + cr_amount r <= MAX_CREDIT_IRR)%Z ->
  (forall id s o, sale_returns t0 !! id = Some s -> (0 < sr_refundDue s)%Z -> o ∈ receipt_entries r t0 ->
     sr_documentId s <> en_documentId o) -> books_ok t'.
Proof using Hok.
  intros Hr Hp Hrev Htot Hret.
  assert (Hback : forall e, e ∈ es -> exists o, o ∈ receipt_entries r t0 /\ reverses o e).
  { intros e He. apply list_elem_of_lookup in He as [i Hi]. destruct (Forall2_lookup_r _ _ _ _ _ Hrev Hi) as (o & Ho & HR).
    exists o. split; [by eapply list_elem_of_lookup_2|done]. }
  assert (Hfwd : forall o, o ∈ receipt_entries r t0 -> exists e, e ∈ es /\ reverses o e).
  { intros o Ho. apply list_elem_of_lookup in Ho as [i Hi]. destruct (Forall2_lookup_l _ _ _ _ _ Hrev Hi) as (e & He & HR).
    exists e. split; [by eapply list_elem_of_lookup_2|done]. }
  assert (Horig : forall o, o ∈ receipt_entries r t0 -> entries t0 !! en_id o = Some o /\ en_kind o = ENTRY_RECEIPT /\
    en_receiptId o = Some (cr_receiptId r) /\ (en_amount o < 0)%Z /\ en_accountId o = cr_accountId r).
  { intros o Ho. apply elem_of_receipt_entries in Ho as [Ho [K%bool_decide_eq_true R%bool_decide_eq_true]%andb_prop]; [|done].
    destruct (bk_entries t0 Hok _ o Ho) as [_ (d & _ & _ & Hs)]. unfold entry_shape in Hs. rewrite K in Hs.
    destruct Hs as (Neg & _ & r' & R' & Hr' & A). split_and!; [done..|]. congruence. }
  assert (Hamt : forall e, e ∈ es -> (0 <= en_amount e)%Z).
  { intros e He. destruct (Hback e He) as (o & Ho & (_ & _ & _ & _ & _ & _ & ->)). destruct (Horig o Ho) as (_ & _ & _ & ? & _). lia. }
  assert (Hsum : sumZ en_amount es = cr_amount r).
  { pose proof (receipt_entries_sum r Hr) as S. clear - S Hrev. revert S. generalize (cr_amount r). induction Hrev as [|o e os es HR _ IH];
      intros n S; simpl in *; [lia|]. destruct HR as (_ & _ & _ & _ & _ & _ & ->). specialize (IH (n + en_amount o)%Z). lia. }
  apply (books_post t0 t0 t' es); try done.
  - intros e He. destruct (Hback e He) as (o & Ho & (_ & A & D & R & V & K & N)). destruct (Horig o Ho) as (Ho0 & Ko & Ro & Neg & Ao).
    destruct (bk_entries t0 Hok _ o Ho0) as [_ (x & Hx & Ax & _)]. exists x. destruct (posts_frame _ _ _ Hp) as (_ & E & Hsub).
    rewrite E. split; [cbn; by rewrite D|]. split; [congruence|]. unfold entry_shape. rewrite K. exists o. split; [done|].
    split; [cbn; by eapply lookup_weaken|]. by split_and!.
  - apply (bk_accounts t0 Hok).
  - by left.
  - intros id x Hx. destruct (decide (id = cr_receiptId r)) as [->|Hne].
    + right. assert (x = r) as -> by congruence. destruct (bk_receipts t0 Hok _ r Hr) as [_ (H1 & H2 & _)].
      assert (Hno : forall e, e ∈ es -> is_receipt_of r e = false).
      { intros e He. destruct (Hback e He) as (o & _ & (_ & _ & _ & _ & _ & K & _)). unfold is_receipt_of. by rewrite K. }
      split; [done|]. split; [done|]. split; [by rewrite (posts_sum_none es t0 t' _ Hp Hno)|]. exists true. intros id e He Hre.
      destruct (posts_lookup es t0 t' id e Hp He) as [He0|[_ He0]]; [|by rewrite (Hno e He0) in Hre].
      destruct (bk_entries t0 Hok id e He0) as [<- _]. destruct (Hfwd e) as (v & Hv & (_ & _ & _ & _ & V & _)).
      { by apply elem_of_receipt_entries. }
      apply reversed_in_true. exists (en_id v), v. split; [by apply (posts_new es t0 t' v Hp)|done].
    + left. split; [done|]. intros e He. destruct (Hback e He) as (o & Ho & (_ & _ & _ & -> & _)).
      destruct (Horig o Ho) as (_ & _ & -> & _). congruence.
  - intros id d Hd. right. rewrite (post_principal_kept es t0 t' d Hp), (post_outstanding es t0 t' d Hp); [|done..|].
    + destruct (bk_balance t0 Hok id d Hd) as [H1 H2]. split; [|done].
      assert (0 <= sumZ (fun e => if of_document d e then en_amount e else 0) es)%Z; [|lia]. apply sumZ_nonneg. intros e He.
      destruct (of_document d e); [by apply Hamt|lia].
    + intros e He. destruct (Hback e He) as (o & _ & (_ & _ & _ & _ & _ & K & _)). unfold is_principal. by rewrite K.
  - apply (post_totals es t0 t' (cr_accountId r) Hp); [done| |by rewrite Hsum].
    intros e He. destruct (Hback e He) as (o & Ho & (_ & -> & _)). by apply (Horig o Ho).
  - intros id s e Hs Hdue He. destruct (Hback e He) as (o & Ho & (_ & _ & -> & _)). intros E. by eapply Hret.
Qed.

(** ** Compensations and payouts *)

Lemma books_set_returns (m : gmap string CreditSaleReturn) (ps : gmap string CreditRefundPayout) :
  forall t, t = set_payouts ps (set_sale_returns m t0) ->
  (forall id r, m !! id = Some r -> sr_id r = id /\ return_ok t r) ->
  (forall id p, ps !! id = Some p -> is_Some (m !! py_returnId p)) ->
  books_ok t.
Proof using Hok. intros t -> Hm Hps. destruct Hok. by constructor. Qed.

Lemma payouts_none id : sale_returns t0 !! id = None -> payouts_of id t0 = 0%Z.
Proof using Hok.
  intros Hid. apply tsum_0. intros k p Hp. case_bool_decide as E; [|done].
  destruct (bk_payouts t0 Hok k p Hp) as [r Hr]. congruence.
Qed.

Lemma books_return r d : sale_returns t0 !! sr_id r = None -> documents t0 !! sr_documentId r = Some d ->
  (0 <= sr_debtCredit r)%Z -> (0 <= sr_refundDue r)%Z -> sr_amount r = (sr_debtCredit r + sr_refundDue r)%Z ->
  ((0 < sr_refundDue r)%Z -> outstanding t0 d = 0%Z) -> books_ok (set_sale_returns (<[sr_id r := r]> (sale_returns t0)) t0).
Proof using Hok.
  intros Hid Hd H1 H2 H3 H4. set (m := <[sr_id r := r]> (sale_returns t0)). apply (books_set_returns m (payouts t0) (set_sale_returns m t0) eq_refl).
  - intros id r' [[<- <-]|[_ Hr]]%(lookup_insert_Some (sale_returns t0)); [|by apply (bk_returns t0 Hok)].
    split; [done|]. exists d. split_and!; [done..|]. change (payouts_of (sr_id r) t0 <= sr_refundDue r)%Z. by rewrite payouts_none.
  - intros id p Hp. apply lookup_insert_is_Some'. right. by eapply (bk_payouts t0 Hok).
Qed.

Lemma books_payout r p : sale_returns t0 !! py_returnId p = Some r -> payouts t0 !! py_id p = None ->
  (payouts_of (py_returnId p) t0 + py_amount p <= sr_refundDue r)%Z -> books_ok (set_payouts (<[py_id p := p]> (payouts t0)) t0).
Proof using Hok.
  intros Hr Hid Hle. apply (books_set_returns (sale_returns t0) (<[py_id p := p]> (payouts t0)) _ eq_refl).
  - intros id r' Hr'. destruct (bk_returns t0 Hok id r' Hr') as [E (d & Hd & H1 & H2 & H3 & H4 & H5)]. split; [done|].
    exists d. split_and!; [done..|]. unfold payouts_of in *. cbn [payouts set_payouts]. rewrite tsum_insert_new by done.
    case_bool_decide as P; [|done]. rewrite P, E in Hr. assert (r = r') as -> by congruence. rewrite P in Hle. lia.
  - intros id q [[<- <-]|[_ Hq]]%lookup_insert_Some; [by eexists|by eapply (bk_payouts t0 Hok)].
Qed.
End postings.
