(* ===== verification/CreditBodies.v ===== *)
(** The bodies of the commands of [credit.service.ts] keep the books balanced, only add
    evidence, and leave the stock alone. *)

From S2P Require Import Prelude Table Json StableJson AuditTrail Retry InventoryModel Inventory.
From S2P Require Import InventoryLedger Durable DurableSafety StateMachine IsoTime Paging.
From S2P Require Import Credit CreditCommands CreditSales CreditBooks CreditRuns CreditPostings.

Definition credit_ok (d d' : Domain CreditTables) : Prop :=
  stock_kept d d' /\ books_ok (own d') /\ grows (own d) (own d').

(** Opens a run and the reads and writes in it. *)
Ltac quiet_run H :=
  let E := fresh "E" in let Q := fresh "Q" in destruct H as [E Q].
Ltac credit_step :=
  match goal with
  | H : summary _ _ = Ok _ |- _ => apply summary_ok in H; destruct H as (-> & _ & _)
  | H : credit_record _ _ _ _ _ = Ok _ |- _ => apply quiet_audit in H; quiet_run H
  | H : on_inv (fresh_id _) _ = Ok _ |- _ => apply quiet_fresh in H; quiet_run H
  | H : record _ _ = Ok _ |- _ => apply quiet_audit in H; quiet_run H
  end.
Ltac credit_steps := repeat (progress run_inv || credit_step).
(** The tables are those of an earlier state. *)
Ltac own_known := repeat match goal with E : own _ = own _ |- _ => rewrite ?E in *; clear E end.
(** Composes the steps that keep the stock. *)
Ltac kept := unfold stock_kept in *; repeat first [assumption | etrans; [eassumption|]].

Section bodies.
Context (cuid : nat -> string) (hash fold : string -> string).
Implicit Types (d : Domain CreditTables).

Lemma put_account_ok a d u d' : put_account a d = Ok (u, d') ->
  stock_kept d d' /\ own d' = set_accounts (<[ca_id a := a]> (accounts (own d))) (own d).
Proof.
  intros H. unfold put_account in H. run_inv.
  match goal with H : on_own _ _ = _ |- _ => apply on_own_ok in H as (x & [= _ <-] & ->) end. by split.
Qed.

Lemma accounts_ok_insert m a : accounts_ok m -> (0 <= ca_creditLimit a <= MAX_CREDIT_IRR)%Z ->
  (forall id b, m !! id = Some b -> ca_customerId b = ca_customerId a -> id = ca_id a) -> accounts_ok (<[ca_id a := a]> m).
Proof.
  intros (Hid & Hu & Hl) Ha Hc. split; [|split].
  - intros id b [[<- <-]|[_ Hb]]%lookup_insert_Some; [done|by apply Hid].
  - intros c k1 k2 a1 a2 [[<- <-]|[_ H1]]%lookup_insert_Some [[<- <-]|[_ H2]]%lookup_insert_Some P1 P2; [done|..|by apply (Hu c k1 k2 a1 a2)];
      apply bool_decide_eq_true in P1, P2; [symmetry|]; eapply Hc; [exact H2|congruence|exact H1|congruence].
  - intros id b [[<- <-]|[_ Hb]]%lookup_insert_Some; [done|by eapply Hl].
Qed.

Lemma books_put_account t a : books_ok t -> (0 <= ca_creditLimit a <= MAX_CREDIT_IRR)%Z ->
  (forall id b, accounts t !! id = Some b -> ca_customerId b = ca_customerId a -> id = ca_id a) ->
  books_ok (set_accounts (<[ca_id a := a]> (accounts t)) t).
Proof.
  intros Hok Hl Hc. apply (books_accounts t); try done.
  - apply accounts_ok_insert; [apply (bk_accounts t Hok)|done..].
  - intros id Hid. apply lookup_insert_is_Some'. by right.
Qed.

Lemma policy_tx_ok c input limit ctx d r d' :
  books_ok (own d) -> (0 <= limit <= MAX_CREDIT_IRR)%Z -> policy_tx cuid c input limit ctx d = Ok (r, d') -> credit_ok d d'.
Proof.
  intros Hok Hlim H. unfold credit_ok. unfold policy_tx in H. destruct (bk_accounts _ Hok) as (Hid & Hu & _).
  credit_steps. match goal with H : (match find_by ?P ?m with _ => _ end) _ = _ |- _ => destruct (find_by P m) as [a0|] eqn:Hf end.
  - apply find_by_Some in Hf as [[k Hk] Hc]. credit_steps.
    match goal with H : put_account _ _ = _ |- _ => apply put_account_ok in H as [Q' Ew] end.
    own_known. split; [kept|]. rewrite Ew. split; [|by split_and!].
    apply books_put_account; [done..|]. intros id b Hb Ec. cbn in *. rewrite (Hid k a0 Hk).
    apply (Hu c id k b a0 Hb Hk); [|done]. apply bool_decide_eq_true in Hc. apply bool_decide_eq_true. congruence.
  - credit_steps. match goal with H : put_account _ _ = _ |- _ => apply put_account_ok in H as [Q' Ew] end.
    own_known. split; [kept|]. rewrite Ew. split; [|by split_and!].
    apply books_put_account; [done..|]. intros id b Hb Ec. cbn in Ec. rewrite find_by_None in Hf. specialize (Hf id b Hb).
    by rewrite bool_decide_true in Hf.
Qed.

Lemma opening_tx_ok c input n issued due terms src ctx d r d' :
  books_ok (own d) -> opening_tx cuid c input n issued due terms src ctx d = Ok (r, d') -> credit_ok d d'.
Proof.
  intros Hok H. unfold credit_ok. unfold opening_tx in H. credit_steps.
  match goal with H : account_of _ _ _ = _ |- _ => apply account_of_ok in H as (-> & Ha & Hc); [|apply (bk_accounts _ Hok)] end.
  match goal with H : checkDebtBound _ _ _ = _ |- _ => apply checkDebtBound_ok in H as (-> & Hle); [|done] end.
  match goal with H : create_document _ _ _ _ _ _ _ _ _ _ _ = _ |- _ => apply create_document_ok in H as (Q1 & E1 & Hn & Hpos & D1 & _ & D3 & D2 & _) end.
  match goal with H : create_entry _ _ _ _ _ _ _ _ _ _ _ _ _ = _ |- _ =>
    apply create_entry_ok in H as (Q2 & Hp & _ & R1 & R2 & R3 & R4 & R5 & R6); [|rewrite E1; apply (bk_accounts _ Hok)] end.
  own_known. rewrite E1 in Hp. split; [kept|]. split.
  - refine (books_new_document _ Hok _ _ _ Hn _ _ _ Hp _ _ _ _ _); rewrite ?D1, ?D2, ?D3; try done; lia.
  - etrans; [|by eapply posts_grow]. split_and!; try done. by apply insert_subseteq.
Qed.

(** Every allocation is covered by what its document owes. *)
Lemma check_allocations_ok eff a ids allocs d u d' : books_ok (own d) ->
  for_each allocs (check_allocation eff (balances_of a ids (own d))) d = Ok (u, d') ->
  d' = d /\ forall item, item ∈ allocs ->
    exists x, documents (own d) !! al_documentId item = Some x /\ rd_accountId x = a /\ (al_amount item <= outstanding (own d) x)%Z.
Proof.
  intros Hok. induction allocs as [|item allocs IH]; simpl; intros H.
  { run_inv. split; [done|]. by intros ? ?%elem_of_nil. }
  run_inv. match goal with H : check_allocation _ _ _ _ = _ |- _ => unfold check_allocation in H end. run_inv.
  match goal with H : find_balance_of _ _ = _ |- _ => apply find_balance_ok in H as (x & Hx & _ & Ax & _ & ->); [|done] end.
  apply IH in H as [-> IHa]. split; [done|]. intros i [->|Hi]%elem_of_cons; [|by apply IHa].
  exists x. split_and!; [done..|]. cbn in *. lia.
Qed.

Lemma receipt_tx_ok c input n eff ev allocs ctx d r d' :
  books_ok (own d) -> (0 < n)%Z -> NoDup (al_documentId <$> allocs) -> sumZ al_amount allocs = n ->
  (forall a, a ∈ allocs -> (0 < al_amount a)%Z) ->
  receipt_tx cuid hash fold c input n eff ev allocs ctx d = Ok (r, d') -> credit_ok d d'.
Proof.
  intros Hok Hn Hnd Hsum Hpos H. unfold credit_ok. unfold receipt_tx in H. credit_steps.
  match goal with H : account_of _ _ _ = _ |- _ => apply account_of_ok in H as (-> & Ha & Hc); [|apply (bk_accounts _ Hok)] end.
  match goal with H : for_each _ _ _ = _ |- _ => apply check_allocations_ok in H as (-> & Hall); [|done] end.
  match goal with H : create_receipt _ _ _ _ _ _ _ _ _ = _ |- _ => apply receipt_row_ok in H as (Q1 & E1 & Hnew & A1 & A2) end.
  match goal with H : map_each _ _ _ = _ |- _ => eapply (create_entries_ok _ _ _ _ _ _ (fun x d e d' Hacc H =>
    create_entry_ok cuid _ _ _ _ _ _ _ _ _ _ _ d e d' H Hacc)) in H as (Q2 & Hp & Hrows) end;
    [|rewrite E1; apply (bk_accounts _ Hok)].
  own_known. rewrite E1 in Hp. split; [kept|]. split.
  - refine (books_receipt _ Hok _ _ _ Hnew _ Hp _ _ _); [by rewrite A2| | |].
    + intros e He. apply list_elem_of_lookup in He as [i Hi]. destruct (Forall2_lookup_r _ _ _ _ _ Hrows Hi) as (a & Hai & HR).
      apply list_elem_of_lookup_2 in Hai. destruct HR as (_ & R1 & R2 & R3 & R4 & R5 & R6).
      destruct (Hall a Hai) as (y & Hy & Ay & Hle). unfold allocates. rewrite R1, R2, R5, R6, A1. pose proof (Hpos a Hai).
      split_and!; [done..|lia|]. exists y. split_and!; [done..|lia].
    + match goal with |- NoDup ?l => assert (l = al_documentId <$> allocs) as ->; [|done] end.
      clear - Hrows. induction Hrows as [|a e l l' (_ & _ & R & _) _ IH]; [done|]. by rewrite !fmap_cons, R, IH.
    + rewrite A2. clear - Hrows. induction Hrows as [|a e l l' (_ & _ & _ & _ & _ & _ & R) _ IH]; [done|]. simpl. rewrite R. lia.
  - etrans; [|by eapply posts_grow]. split_and!; try done. by apply insert_subseteq.
Qed.

Lemma reverse_tx_ok c rid input eff rs ev ctx d r d' :
  books_ok (own d) -> reverse_tx cuid c rid input eff rs ev ctx d = Ok (r, d') -> credit_ok d d'.
Proof.
  intros Hok H. unfold credit_ok. unfold reverse_tx in H. credit_steps.
  match goal with H : account_of _ _ _ = _ |- _ => apply account_of_ok in H as (-> & Ha & Hc); [|apply (bk_accounts _ Hok)] end.
  match goal with H : checkDebtBound _ _ _ = _ |- _ => apply checkDebtBound_ok in H as (-> & Hle); [|done] end.
  match goal with H : match receipts _ !! _ with _ => _ end = Some ?v |- _ =>
    destruct (receipts (own d) !! rid) as [r0|] eqn:Hr in H; [|done];
    destruct (bool_decide (cr_accountId r0 = _)) eqn:Eacc in H; [|done]; apply bool_decide_eq_true in Eacc; injection H as <- end.
  destruct (bk_receipts _ Hok rid _ Hr) as [Eid _].
  match goal with H : map_each _ _ _ = _ |- _ => eapply (create_entries_ok _ _ _ _ _ _ (fun x d e d' Hacc H =>
    create_entry_ok cuid _ _ _ _ _ _ _ _ _ _ _ d e d' H Hacc)) in H as (Q2 & Hp & Hrows) end; [|apply (bk_accounts _ Hok)].
  rewrite <- Eid in Hr. own_known. split; [kept|]. split; [|by eapply posts_grow].
  refine (books_reversal _ Hok _ _ _ Hr Hp _ _ _).
  - apply Forall2_same_length_lookup. apply Forall2_same_length_lookup in Hrows as [Hlen Hrows]. split; [done|].
    intros i o e Ho He. specialize (Hrows i o e Ho He). unfold reverses. apply list_elem_of_lookup_2, elem_of_receipt_entries in Ho; [|done..].
    destruct Ho as [Ho [K%bool_decide_eq_true R%bool_decide_eq_true]%andb_prop]. destruct (bk_entries _ Hok _ o Ho) as [_ (y & _ & _ & Hs)].
    unfold entry_shape in Hs. rewrite K in Hs. destruct Hs as (_ & _ & r1 & R1 & Hr1 & A1).
    assert (r1 = r0) as -> by congruence. rewrite R, <- A1, Eacc, Eid. exact Hrows.
  - rewrite Eacc; lia.
  - intros id s o Hs Hdue Ho E. match goal with H : bool_decide (is_Some (find_by _ (sale_returns _))) = false |- _ =>
      apply bool_decide_eq_false, eq_None_not_Some in H as Hn end. rewrite find_by_None in Hn. specialize (Hn id s Hs).
    rewrite bool_decide_true in Hn by (rewrite E; by apply list_elem_of_fmap_2). simpl in Hn. lia.
Qed.

Lemma adjust_tx_ok c docId input n eff rs ev ctx d r d' :
  books_ok (own d) ->
  match jq_kind input with DEBIT_ADJUSTMENT => (0 < n)%Z | CREDIT_NOTE => (n < 0)%Z end ->
  adjust_tx cuid hash fold c docId input n eff rs ev ctx d = Ok (r, d') -> credit_ok d d'.
Proof.
  intros Hok Hn H. unfold credit_ok. unfold adjust_tx in H. credit_steps.
  match goal with H : account_of _ _ _ = _ |- _ => apply account_of_ok in H as (-> & Ha & Hc); [|apply (bk_accounts _ Hok)] end.
  match goal with H : checkDebtBound _ _ _ = _ |- _ => apply checkDebtBound_ok in H as (-> & Hle); [|done] end.
  match goal with H : head _ = Some _ |- _ => apply head_Some_elem_of in H as Hb end.
  unfold balances_of in Hb. apply list_elem_of_fmap in Hb as (doc & -> & Hx). apply elem_of_find_many in Hx as [[k Hk] Hx].
  apply andb_prop in Hx as [[Ax%bool_decide_eq_true Ix%bool_decide_eq_true]%andb_prop _]. apply list_elem_of_singleton in Ix as Ex.
  destruct (bk_documents _ Hok k doc Hk) as [<- _].
  match goal with H : create_entry _ _ _ _ _ _ _ _ _ _ _ _ _ = _ |- _ =>
    apply create_entry_ok in H as (Q2 & Hp & _ & R1 & R2 & R3 & R4 & R5 & R6); [|apply (bk_accounts _ Hok)] end.
  cbn [db_outstanding db_principal db_issuedAt document_balance] in *.
  own_known. split; [kept|]. split; [|by eapply posts_grow].
  refine (books_correction _ Hok _ _ _ Hk Hp _ _ _ _ _ _ _ _); rewrite ?R1, ?R2, ?R5, ?R6; try done; [..|lia|lia|rewrite Ax; lia|].
  - unfold adjustment_entry. destruct (jq_kind input); [by left|by right].
  - intros id s Hs _ E. match goal with H : bool_decide (is_Some (find_by _ (sale_returns _))) = false |- _ =>
      apply bool_decide_eq_false, eq_None_not_Some in H as Hno end. rewrite find_by_None in Hno. specialize (Hno id s Hs).
    rewrite bool_decide_true in Hno; congruence.
Qed.
End bodies.
