(* ===== verification/CreditSaleProofs.v ===== *)
(** Approval of a credit sale: the reservations of the order are shipped, its total
    becomes a document within the available credit, and the order moves on. *)

From S2P Require Import Prelude Decimals Table Json StableJson AuditTrail Retry InventoryModel Inventory.
From S2P Require Import InventoryLedger InventoryProofs Durable DurableSafety StateMachine IsoTime Paging.
From S2P Require Import Credit CreditCommands CreditSales CreditBooks CreditRuns CreditPostings CreditBodies.

(** * Amounts *)

Lemma pretty_digits z : (0 <= z)%Z -> canonical (String.list_ascii_of_string (pretty z)) /\
  digits_value (String.list_ascii_of_string (pretty z)) = z.
Proof.
  intros Hz. pose proof (print_money_canonical z Hz) as H. unfold print_money in H.
  destruct z as [|p|p]; [exact H|exact H|lia].
Qed.

Lemma creditAmount_Ok s b n : creditAmount s b = Ok n ->
  (0 <= n <= MAX_CREDIT_IRR)%Z /\ (b = false -> 0 < n)%Z /\ n = digits_value (String.list_ascii_of_string s).
Proof.
  unfold creditAmount. destruct (parse_natural _ _) as [m|] eqn:E; [|done].
  apply parse_natural_Some in E as ((Hd & _) & _ & ->). pose proof (digits_value_bounds _ Hd).
  destruct (_ || _) eqn:G; [done|]. intros [= <-]. apply orb_false_iff in G as [G1%Z.ltb_ge G2].
  split; [lia|]. split; [|done]. intros ->. apply bool_decide_eq_false in G2. lia.
Qed.

Lemma creditAmount_pretty z n : creditAmount (pretty z) false = Ok n -> n = z /\ (0 < z <= MAX_CREDIT_IRR)%Z.
Proof.
  intros H. apply creditAmount_Ok in H as H'. destruct H' as (H1 & H2 & H3). specialize (H2 eq_refl).
  destruct (decide (0 <= z)%Z) as [Hz|Hz]; [rewrite (proj2 (pretty_digits z Hz)) in H3; lia|].
  destruct z as [|p|p]; [lia|lia|]. unfold creditAmount in H.
  change (pretty (Z.neg p)) with (String (Ascii.ascii_of_N 45) (pretty (N.pos p))) in H. done.
Qed.

(** * Quantities by variant *)

Lemma quantity_in_add m k n v : quantity_in (add_quantity m k n) v = (quantity_in m v + if bool_decide (k = v) then n else 0)%Z.
Proof.
  unfold quantity_in, add_quantity. case_bool_decide as E; [subst; rewrite lookup_insert_eq; simpl; lia|].
  rewrite lookup_insert_ne by done. lia.
Qed.
Lemma quantity_fold {A} (key : A -> string) (f : A -> Z) l v m :
  quantity_in (foldl (fun m x => add_quantity m (key x) (f x)) m l) v =
  (quantity_in m v + sumZ (fun x => if bool_decide (key x = v) then f x else 0) l)%Z.
Proof. revert m. induction l as [|x l IH]; intros m; simpl; [lia|]. rewrite IH, quantity_in_add. lia. Qed.

(** The comparison of the two maps of [approve] is equality. *)
Lemma same_maps (m m' : gmap string Z) :
  negb (bool_decide (size m = size m')) || existsb (fun kv => negb (bool_decide (m !! fst kv = Some (snd kv)))) (map_to_list m') = false ->
  m = m'.
Proof.
  intros [Hs Hl]%orb_false_iff. apply negb_false_iff, bool_decide_eq_true in Hs.
  assert (Hsub : m' ⊆ m).
  { apply map_subseteq_spec. intros k n Hk. apply elem_of_map_to_list in Hk.
    destruct (decide (m !! k = Some n)) as [|Hne]; [done|]. exfalso.
    assert (existsb (fun kv => negb (bool_decide (m !! fst kv = Some (snd kv)))) (map_to_list m') = true); [|congruence].
    apply existsb_exists. exists (k, n). split; [by apply list_elem_of_In|]. simpl. by rewrite bool_decide_false. }
  symmetry. apply map_subseteq_size_eq; [done|lia].
Qed.

Lemma reserved_as_ordered (rs : list StockReservation) (items : list OrderLine) :
  negb (bool_decide (size (reserved_map rs) = size (ordered_map items))) ||
    existsb (fun kv => negb (bool_decide (reserved_map rs !! fst kv = Some (snd kv)))) (map_to_list (ordered_map items)) = false ->
  forall v, sumZ (fun r => if bool_decide (variantId (r_key r) = v) then r_quantity r else 0)%Z rs =
    sumZ (fun i => if bool_decide (ol_variantId i = v) then ol_quantity i else 0)%Z items.
Proof.
  intros Hm%same_maps v. assert (Hq := f_equal (fun m => quantity_in m v) Hm). unfold reserved_map, ordered_map in Hq.
  rewrite !(quantity_fold (fun r : StockReservation => variantId (r_key r)) r_quantity), !(quantity_fold ol_variantId ol_quantity) in Hq.
  unfold quantity_in in Hq. rewrite lookup_empty in Hq. simpl in Hq. lia.
Qed.

(** No reservation that a sale relies on is unusable. *)
Lemma usable_reservation now db rs r : existsb (unusable now db) rs = false -> r ∈ rs -> r_status r = ACTIVE /\ (now < r_expiresAt r)%Z.
Proof.
  intros Hu Hr. assert (Hbad : unusable now db r = false).
  { apply not_true_is_false. intros Hbad. assert (existsb (unusable now db) rs = true); [|congruence].
    apply existsb_exists. exists r. split; [by apply list_elem_of_In|done]. }
  unfold unusable in Hbad. repeat (apply orb_false_iff in Hbad as [Hbad ?]).
  apply negb_false_iff, bool_decide_eq_true in Hbad. split; [done|]. lia.
Qed.

(** * Steps outside the books *)

Definition same_books (t t' : CreditTables) : Prop := policy_of <$> accounts t' = policy_of <$> accounts t /\ books t' = books t.

#[export] Instance same_books_preorder : PreOrder same_books.
Proof. split; [by split|]. intros t1 t2 t3 [A B] [A' B']. split; congruence. Qed.

Lemma same_books_ok t t' : books_ok t -> same_books t t' -> books_ok t'.
Proof. intros Hok [A B]. by eapply books_same. Qed.
Lemma same_books_grows t t' : same_books t t' -> grows t t'.
Proof. intros [_ H]. injection H as D R E S Y. unfold grows. by rewrite D, R, E, S, Y. Qed.
Lemma same_books_sum P t t' : same_books t t' -> sum_entries P t' = sum_entries P t.
Proof. intros [_ H]. injection H as _ _ E _ _. by apply sum_entries_eq. Qed.
Lemma same_books_documents t t' : same_books t t' -> documents t' = documents t.
Proof. intros [_ H]. by injection H. Qed.

(** A step of a command that leaves stock and books. *)
Definition side_step (d d' : Domain CreditTables) : Prop := stock_kept d d' /\ same_books (own d) (own d').

#[export] Instance side_step_preorder : PreOrder side_step.
Proof. split; [by split|]. intros d1 d2 d3 [A B] [A' B']. split; by etrans. Qed.

Section steps.
Context (cuid : nat -> string).
Implicit Types (d : Domain CreditTables).

Lemma create_fulfillment_ok oid d u d' : create_fulfillment cuid oid d = Ok (u, d') ->
  side_step d d' /\ order_status (own d') = order_status (own d) /\ orders (own d') = orders (own d) /\
  fulfillment_of oid (own d) = None /\
  exists f, fulfillments (own d') = <[fu_id f := f]> (fulfillments (own d)) /\ fu_orderId f = oid /\
    fulfillments (own d) !! fu_id f = None /\
    sd_status (fulfillment_status (own d')) = <[fu_id f := FUL_PENDING]> (sd_status (fulfillment_status (own d))).
Proof.
  intros H. unfold create_fulfillment in H. run_inv.
  match goal with H : on_inv _ _ = _ |- _ => apply quiet_fresh in H as [E1 Q1] end.
  match goal with H : on_own _ _ = _ |- _ => apply on_own_ok in H as (x' & [= _ <-] & ->) end.
  match goal with H : (_ || _)%bool = false |- _ => apply orb_false_iff in H as [G1%bool_decide_eq_false%eq_None_not_Some G2%bool_decide_eq_false%eq_None_not_Some] end.
  rewrite E1 in *. split; [by split|]. cbn [own]. split; [done|]. split; [done|]. split; [exact G2|].
  exists (mkFulfillment x oid). by split_and!.
Qed.

Lemma advance_order_ok oid d o d' : advance_order oid d = Ok (o, d') ->
  side_step d d' /\ inv_of d' = inv_of d /\ order_status (own d') = order_status (own d) /\
  fulfillments (own d') = fulfillments (own d) /\ fulfillment_status (own d') = fulfillment_status (own d).
Proof.
  intros H. unfold advance_order in H. run_inv.
  match goal with H : on_own _ _ = _ |- _ => apply on_own_ok in H as (x' & [= _ <-] & ->) end. by split_and!.
Qed.

Lemma record_order_ok id from to ctx reason d row d' :
  record_order_transition cuid id from to ctx reason d = Ok (row, d') ->
  side_step d d' /\ move from to /\ sd_status (order_status (own d)) !! id = Some from /\
  sd_status (order_status (own d')) = <[id := to]> (sd_status (order_status (own d))) /\
  sd_history (order_status (own d')) = sd_history (order_status (own d)) ++ [row] /\
  tr_parentId row = id /\ tr_from row = from /\ tr_to row = to /\
  fulfillments (own d') = fulfillments (own d) /\ fulfillment_status (own d') = fulfillment_status (own d).
Proof.
  intros H. unfold record_order_transition in H. run_inv.
  match goal with H : on_inv _ _ = _ |- _ => apply quiet_fresh in H as [E1 Q1] end.
  apply on_own_ok in H as (t & H & ->). apply zoom_ok in H as (st & H & ->).
  apply recordTransition_inv in H as (Hm & Hs & -> & -> & _). cbn [view order_status_lens] in *. rewrite E1 in *.
  split; [by split|]. split; [done|]. by split.
Qed.

Lemma record_fulfillment_ok id from to ctx reason d row d' :
  record_fulfillment_transition cuid id from to ctx reason d = Ok (row, d') ->
  side_step d d' /\ move from to /\ sd_status (fulfillment_status (own d)) !! id = Some from /\
  sd_status (fulfillment_status (own d')) = <[id := to]> (sd_status (fulfillment_status (own d))) /\
  order_status (own d') = order_status (own d) /\ orders (own d') = orders (own d).
Proof.
  intros H. unfold record_fulfillment_transition in H. run_inv.
  match goal with H : on_inv _ _ = _ |- _ => apply quiet_fresh in H as [E1 Q1] end.
  apply on_own_ok in H as (t & H & ->). apply zoom_ok in H as (st & H & ->).
  apply recordTransition_inv in H as (Hm & Hs & -> & -> & _). cbn [view fulfillment_status_lens] in *. rewrite E1 in *.
  split; [by split|]. split; [done|]. by split.
Qed.
End steps.

(** * Approval *)

(** A positive amount within the available credit. *)
Lemma summary_available id d s d' n : summary id d = Ok (s, d') -> (0 < n)%Z -> (cs_availableCredit s <? n)%Z = false ->
  exists a, accounts (own d) !! id = Some a /\ ca_status a = CREDIT_ACTIVE /\
    (sumZ (outstanding (own d)) (account_documents id (own d)) + n <= ca_creditLimit a)%Z.
Proof.
  intros H Hn Hle%Z.ltb_ge. unfold summary in H. run_inv. cbn [cs_availableCredit] in Hle.
  destruct (_ && _ && _ && _)%bool eqn:E; [|lia]. apply andb_prop in E as [[[E1%bool_decide_eq_true _]%andb_prop _]%andb_prop _].
  eexists. split; [eassumption|]. split; [done|]. lia.
Qed.

(** What an approval does: the order becomes a credit sale whose document is due after
    the account's terms, within the limit, for exactly the reserved goods. *)
Definition sale_made (now : Z) (customerId orderId : string) (d d' : Domain CreditTables) : Prop :=
  exists order account x f,
    orders (own d) !! orderId = Some order /\ or_customerId order = customerId /\
    status_of_order orderId (own d) = Some PENDING_PAYMENT /\ status_of_order orderId (own d') = Some CREDIT_APPROVED /\
    fulfillments (own d') !! fu_id f = Some f /\ fu_orderId f = orderId /\
    sd_status (fulfillment_status (own d')) !! fu_id f = Some FUL_PENDING /\
    accounts (own d) !! ca_id account = Some account /\ ca_customerId account = customerId /\ ca_status account = CREDIT_ACTIVE /\
    documents (own d) !! rd_id x = None /\ documents (own d') = <[rd_id x := x]> (documents (own d)) /\
    rd_accountId x = ca_id account /\ rd_orderId x = Some orderId /\ rd_kind x = DOC_SALE /\
    rd_amount x = or_grandTotal order /\ (0 < or_grandTotal order)%Z /\ rd_issuedAt x = now /\
    rd_dueAt x = (now + ca_termsDays account * 86400000)%Z /\
    outstanding (own d') x = or_grandTotal order /\
    account_total (ca_id account) (own d') = (account_total (ca_id account) (own d) + or_grandTotal order)%Z /\
    (account_total (ca_id account) (own d') <= ca_creditLimit account)%Z /\
    (forall r, r ∈ reservations_of orderId (inv_of d) -> r_status r = ACTIVE /\ (now < r_expiresAt r)%Z) /\
    (forall v, sumZ (fun r => if bool_decide (variantId (r_key r) = v) then r_quantity r else 0) (reservations_of orderId (inv_of d)) =
               sumZ (fun i => if bool_decide (ol_variantId i = v) then ol_quantity i else 0) (or_items order))%Z.

(** The stock after a sale: every reservation of the order was shipped. *)
Definition order_shipped (orderId : string) (db db' : InvDb) : Prop :=
  refines (EShip <$> (r_id <$> order_reservations orderId db)) db db' /\ order_finished CONSUMED orderId db db'.

Section approval.
Context (cuid : nat -> string).
Implicit Types (d : Domain CreditTables).

Lemma consume_order_ok oid ctx d n d' : inv (inv_of d) -> on_inv (consumeReservationsForOrder cuid oid ctx) d = Ok (n, d') ->
  own d' = own d /\ order_shipped oid (inv_of d) (inv_of d').
Proof.
  intros Hinv H. apply on_inv_ok in H as (db & H & ->). split; [done|]. unfold consumeReservationsForOrder in H. run_inv.
  apply (order_loop_refines CONSUMED EShip) in H as (_ & Href & Hfin); [by split| |done].
  intros. by eapply consumeSingle_refines.
Qed.

Lemma order_shipped_frame oid db1 db2 db3 db4 : inv db1 -> same_stock db1 db2 -> order_shipped oid db2 db3 -> same_stock db3 db4 ->
  order_shipped oid db1 db4.
Proof.
  intros Hinv Hs [Href Hfin] Hs'. assert (R : reservations db2 = reservations db1) by apply Hs.
  assert (R' : reservations db4 = reservations db3) by apply Hs'. split.
  - unfold order_reservations in *. rewrite R in Href. eapply refines_frame_r; [|exact Hs'].
    by eapply refines_frame_l.
  - intros id. rewrite R', Hfin, R. done.
Qed.

Lemma sale_tx_ok now c oid input ctx d r d' :
  inv (inv_of d) -> books_ok (own d) -> approve_tx cuid now c oid input ctx d = Ok (r, d') ->
  order_shipped oid (inv_of d) (inv_of d') /\ books_ok (own d') /\ grows (own d) (own d') /\ sale_made now c oid d d'.
Proof.
  intros Hinv Hok H. unfold approve_tx in H. run_inv.
  match goal with H : match order_row _ _ with _ => _ end = Some ?v |- _ =>
    unfold order_row in H; destruct (orders (own d) !! oid) as [o|] eqn:Ho in H; [|done];
    destruct (bool_decide (or_customerId o = c)) eqn:Hc in H; [|done]; apply bool_decide_eq_true in Hc; injection H as <- end.
  match goal with H : account_of _ _ _ = _ |- _ => apply account_of_ok in H as (-> & Ha & Hac); [|apply (bk_accounts _ Hok)] end.
  match goal with H : creditAmount _ _ = Ok _ |- _ => apply creditAmount_pretty in H as (-> & Hpos) end.
  match goal with H : summary _ d = Ok (?s, ?s1), G : (cs_availableCredit ?s <? _)%Z = false |- _ =>
    pose proof (summary_available _ _ _ _ _ H (proj1 Hpos) G) as (a & Ha' & Hact & Hlim);
    apply summary_ok in H as (-> & _ & _) end.
  rewrite Ha in Ha'. injection Ha' as <-. rewrite account_total_documents in Hlim by done.
  match goal with H : create_document _ _ _ _ _ _ _ _ _ _ _ = _ |- _ =>
    apply create_document_ok in H as (Q1 & E1 & Hn & _ & D1 & D2 & D3 & D4 & D5 & D6 & _) end.
  match goal with H : create_entry _ _ _ _ _ _ _ _ _ _ _ _ _ = _ |- _ =>
    apply create_entry_ok in H as (Q2 & Hp & _ & R1 & R2 & R3 & R4 & R5 & R6); [|rewrite E1; apply (bk_accounts _ Hok)] end.
  match goal with H : on_inv (consumeReservationsForOrder _ _ _) _ = _ |- _ =>
    apply consume_order_ok in H as [E3 Hship]; [|eapply inv_same_stock; [exact Hinv|]; kept] end.
  match goal with H : create_fulfillment _ _ _ = _ |- _ => apply create_fulfillment_ok in H as ([Q4 B4] & O4 & _ & _ & f & F1 & F2 & F3 & F4) end.
  match goal with H : record_order_transition _ _ _ _ _ _ _ = _ |- _ =>
    apply record_order_ok in H as ([Q5 B5] & _ & _ & O5 & _ & _ & _ & _ & F5 & F6) end.
  match goal with H : advance_order _ _ = _ |- _ => apply advance_order_ok in H as ([Q6 B6] & _ & O6 & F7 & F8) end.
  match goal with H : record _ _ = _ |- _ => apply quiet_audit in H as [E7 Q7] end.
  match goal with H : summary _ _ = _ |- _ => apply summary_ok in H as (-> & _ & _) end.
  rewrite E1 in Hp. rewrite E3 in *. rewrite E7.
  assert (Hb14 : books_ok (own s14)).
  { refine (books_new_document _ Hok _ _ _ Hn _ _ _ Hp _ _ _ _ _); rewrite ?D1, ?D3, ?D4, ?R6; try done; [lia|].
    destruct (proj2 (proj2 (bk_accounts _ Hok)) _ _ Ha). lia. }
  assert (HB : same_books (own s14) (own s18)) by (etrans; [exact B4|]; etrans; [exact B5|exact B6]).
  assert (HG : grows (own d) (own s14)).
  { etrans; [|by eapply posts_grow]. split_and!; try done. by apply insert_subseteq. }
  split; [eapply order_shipped_frame; [exact Hinv| |exact Hship|]; kept|].
  split; [by eapply same_books_ok|]. split; [etrans; [exact HG|by apply same_books_grows]|].
  match goal with H : documents _ !! rd_id ?x = None |- _ => exists o, x4, x, f end.
  repeat match goal with H : (_ || _)%bool = false |- _ => apply orb_false_iff in H as [? ?] end.
  match goal with H : negb (bool_decide (status_of_order _ _ = _)) = false |- _ => apply negb_false_iff, bool_decide_eq_true in H as Hst end.
  pose proof (posts_frame _ _ _ Hp) as (_ & Ep & _).
  assert (Htot : account_total (ca_id x4) (own s18) = (account_total (ca_id x4) (own d) + or_grandTotal o)%Z).
  { unfold account_total. rewrite (same_books_sum _ _ _ HB), (posts_sum _ _ _ _ Hp). simpl. rewrite R1, R6, bool_decide_true by done.
    cbn [set_documents]. unfold sum_entries. simpl. lia. }
  split_and!; try done.
  - unfold status_of_order. by rewrite E7, O6, O5, lookup_insert_eq.
  - rewrite E7, F7, F5, F1. apply lookup_insert_eq.
  - rewrite E7, F8, F6, F4. apply lookup_insert_eq.
  - rewrite E7, (same_books_documents _ _ HB), Ep. done.
  - lia.
  - unfold outstanding. rewrite E7, (same_books_sum _ _ _ HB). change (sum_entries (of_document ?x) ?t) with (outstanding t x).
    rewrite (post_outstanding (own d) _ _ _ _ Hp) by done. destruct (no_entries_yet _ Hok _ Hn) as [-> _]. simpl. rewrite R6.
    unfold of_document. rewrite R1, R2, D1, !bool_decide_true by done. simpl. lia.
  - by rewrite E7.
  - rewrite E7, Htot. lia.
  - intros r Hr. by eapply usable_reservation.
  - apply reserved_as_ordered. by apply orb_false_iff.
Qed.
End approval.
