(* ===== verification/CreditReturnProofs.v ===== *)
(** Compensation of a credit sale and payouts of what it owes: the goods taken back
    line by line, the split between debt credited and money to refund, and the end of
    the order. *)

From S2P Require Import Prelude Decimals Table Json StableJson AuditTrail Retry InventoryModel Inventory.
From S2P Require Import InventoryLedger InventoryProofs Durable DurableSafety StateMachine IsoTime Paging.
From S2P Require Import Credit CreditCommands CreditSales CreditBooks CreditRuns CreditPostings CreditBodies.
From S2P Require Import CreditSaleProofs.

(** * Goods taken back *)

Definition with_lines (r : CreditSaleReturn) (ls : list CreditSaleReturnLine) : CreditSaleReturn :=
  mkSaleReturn (sr_id r) (sr_orderId r) (sr_documentId r) (sr_kind r) (sr_amount r) (sr_debtCredit r) (sr_refundDue r)
    (sr_entryId r) (sr_evidenceReference r) (sr_evidenceHash r) (sr_reason r) (sr_createdAt r) ls.

(** The stock key of a line, and what a line does to the stock. *)
Definition line_stock (o : CreditOrder) (l : CompLine) : StockKey :=
  mkKey (cl_warehouseId l) (cl_locationId l) (from_option ol_variantId EmptyString (find_item (cl_orderItemId l) o)).
Definition line_event (o : CreditOrder) (l : CompLine) : event := EChange (line_stock o l) (cl_quantity l).

(** The recorded line: its terms are those of the order, and a movement brought
    exactly its goods back. *)
Definition line_evidence (o : CreditOrder) (rid : string) (db : InvDb) (l : CompLine) (x : CreditSaleReturnLine) : Prop :=
  exists item m id, find_item (cl_orderItemId l) o = Some item /\ srl_orderItemId x = ol_id item /\
    srl_unitPrice x = ol_unitPrice item /\ srl_quantity x = cl_quantity l /\
    movements db !! id = Some m /\ srl_movementId x = m_id m /\ m_key m = line_stock o l /\ m_quantity m = cl_quantity l /\
    m_type m = RETURN_IN /\ m_referenceId m = Some rid.

Lemma line_evidence_later o rid db db' l x : movements db ⊆ movements db' -> line_evidence o rid db l x -> line_evidence o rid db' l x.
Proof.
  intros Hs (item & m & id & H1 & H2 & H3 & H4 & H5 & H6). exists item, m, id. split_and!; try done; [|apply H6..].
  by eapply lookup_weaken.
Qed.

(** Changes under an idempotency key: the movement answered, and the keys in use. *)
Definition used_keys (db : InvDb) : gset string := list_to_set (omap m_idempotencyKey (rows (movements db))).
Lemma elem_of_used_keys key db : key ∈ used_keys db <-> exists id m, movements db !! id = Some m /\ m_idempotencyKey m = Some key.
Proof.
  unfold used_keys. rewrite elem_of_list_to_set, list_elem_of_omap. setoid_rewrite elem_of_rows. naive_solver.
Qed.
Lemma used_keys_same db db' : movements db' = movements db -> used_keys db' = used_keys db.
Proof. unfold used_keys. by intros ->. Qed.

Lemma changeOnHandIn_key cuid c db m db' : changeOnHandIn cuid c db = Ok (m, db') -> m_idempotencyKey m = cs_idempotencyKey c.
Proof.
  intros H. unfold changeOnHandIn in H. run_inv. destruct (truthy_opt (cs_idempotencyKey c)).
  - destruct (find_by _ _) as [x|] eqn:Hf.
    + destruct (movementMatches x c); run_inv. apply find_by_Some in Hf as [_ Hf]. by apply bool_decide_eq_true in Hf.
    + run_inv. unfold create_movement in *. run_inv. done.
  - run_inv. unfold create_movement in *. run_inv. done.
Qed.

Lemma keyed_change cuid c db m db' key : inv db -> cs_idempotencyKey c = Some key -> changeOnHandIn cuid c db = Ok (m, db') ->
  movement_of c m /\ (exists id, movements db' !! id = Some m) /\
  refines (if truthy key && bool_decide (key ∈ used_keys db) then [] else [EChange (cs_key c) (int_val (cs_delta c))]) db db' /\
  used_keys db' = {[key]} ∪ used_keys db.
Proof.
  intros Hinv Hkey H. pose proof (changeOnHandIn_key cuid c db m db' H) as Hmk. rewrite Hkey in Hmk.
  apply changeOnHandIn_refines in H as (Hm & [(Ht & _ & [id Hid] & Hs & Href)|(Hf & Hn & Hmv & _ & _ & Href)]); [..|done];
    (split; [done|]); rewrite Hkey in *; cbn [truthy_opt] in *.
  - assert (HM : movements db' = movements db) by apply Hs. assert (Hu : key ∈ used_keys db) by (apply elem_of_used_keys; by exists id, m).
    split; [exists id; by rewrite HM|]. rewrite (used_keys_same _ _ HM), Ht, bool_decide_true by done. split; [done|set_solver].
  - split; [exists (m_id m); rewrite Hmv; apply lookup_insert_eq|]. split.
    + destruct (truthy key) eqn:Ht; [|done]. rewrite bool_decide_false; [done|].
      intros (id & x & Hx & Ex)%elem_of_used_keys. by destruct (Hf eq_refl id x Hx).
    + apply set_eq. intros k. rewrite elem_of_union, elem_of_singleton, !elem_of_used_keys, Hmv. setoid_rewrite lookup_insert_Some. split.
      * intros (id & x & [[<- <-]|[_ Hx]] & Ex); [left; congruence|right; by exists id, x].
      * intros [->|(id & x & Hx & Ex)]; [by exists (m_id m), m; eauto|]. exists id, x. split; [|done]. right. split; [congruence|done].
Qed.

Section lines.
Context (cuid : nat -> string) (hash : string -> string).
Implicit Types (d : Domain CreditTables).

Definition line_key (rid : string) (i : nat) : string :=
  hash_strings hash ["credit-return-stock"; rid; pretty (Z.of_nat i)].

(** The goods that lines post, when the movements before have the keys [used]: a line whose
    key is in use posts nothing. *)
Fixpoint posted_lines (o : CreditOrder) (rid : string) (used : gset string) (ls : list (nat * CompLine)) : list event :=
  match ls with
  | [] => []
  | (i, l) :: ls =>
      let key := line_key rid i in
      (if truthy key && bool_decide (key ∈ used) then [] else [line_event o l]) ++ posted_lines o rid ({[key]} ∪ used) ls
  end.

(** Lines whose keys differ and are new all post. *)
Lemma posted_all o rid used ls : NoDup (line_key rid <$> (fst <$> ls)) -> (forall i, i ∈ fst <$> ls -> line_key rid i ∉ used) ->
  posted_lines o rid used ls = line_event o <$> (snd <$> ls).
Proof.
  revert used. induction ls as [|[i l] ls IH]; intros used Hnd Hnew; [done|]. cbn [posted_lines fmap list_fmap fst snd] in *.
  apply NoDup_cons in Hnd as [Hi Hnd]. rewrite bool_decide_false by (apply Hnew; by constructor). rewrite andb_false_r. cbn. f_equal.
  apply IH; [done|]. intros j Hj. rewrite not_elem_of_union, not_elem_of_singleton. split.
  - intros E. apply Hi. rewrite <- E. by apply list_elem_of_fmap_2.
  - apply Hnew. by constructor.
Qed.

Lemma return_line_ok o ctx i l d u d' row :
  inv (inv_of d) -> sale_returns (own d) !! sr_id row = Some row ->
  return_line cuid hash o (sr_id row) ctx (i, l) d = Ok (u, d') ->
  exists x, refines (posted_lines o (sr_id row) (used_keys (inv_of d)) [(i, l)]) (inv_of d) (inv_of d') /\
    own d' = set_sale_returns (<[sr_id row := add_line row x]> (sale_returns (own d))) (own d) /\
    line_evidence o (sr_id row) (inv_of d') l x /\
    used_keys (inv_of d') = {[line_key (sr_id row) i]} ∪ used_keys (inv_of d).
Proof.
  intros Hinv Hrow H. unfold return_line in H. run_inv.
  match goal with H : on_inv (changeOnHandIn _ _) _ = _ |- _ => apply on_inv_ok in H as (db & Hch & ->) end.
  unfold create_return_line in H. run_inv.
  match goal with H : on_inv (fresh_id _) _ = _ |- _ => apply quiet_fresh in H as [E1 Q1] end.
  match goal with H : on_own _ _ = _ |- _ => apply on_own_ok in H as (x' & [= _ <-] & ->) end.
  eapply keyed_change in Hch as (Hm & [id Hid] & Href & Hkeys); [|done|reflexivity].
  cbn [inv_of own] in *. rewrite E1 in *. cbn [own] in *. rewrite Hrow in *. simplify_eq.
  destruct Hm as (M1 & M2 & M3 & _ & _ & M6). cbn in M1, M2, M3, M6, Href.
  assert (HQ : movements (inv_of s) = movements db) by apply Q1.
  assert (Hst : line_stock o l = mkKey (cl_warehouseId l) (cl_locationId l) (ol_variantId v)) by (unfold line_stock; by rewrite Hsome).
  eexists. split; [|split; [reflexivity|split]].
  - eapply refines_frame_r; [|exact Q1]. cbn [posted_lines]. rewrite app_nil_r. unfold line_event. rewrite Hst. exact Href.
  - exists v, x0, id. cbn. rewrite HQ, Hst. by split_and!.
  - cbn [inv_of]. rewrite (used_keys_same _ _ HQ). exact Hkeys.
Qed.

Lemma add_line_with r x l : with_lines (add_line r x) (sr_lines (add_line r x) ++ l) = with_lines r (sr_lines r ++ x :: l).
Proof. unfold with_lines. cbn. by rewrite <- app_assoc. Qed.

(** Returned lines post their quantities once when their keys are new. *)
Lemma return_lines_ok o ctx ls d u d' row :
  inv (inv_of d) -> sale_returns (own d) !! sr_id row = Some row ->
  for_each ls (return_line cuid hash o (sr_id row) ctx) d = Ok (u, d') ->
  exists new, refines (posted_lines o (sr_id row) (used_keys (inv_of d)) ls) (inv_of d) (inv_of d') /\
    own d' = set_sale_returns (<[sr_id row := with_lines row (sr_lines row ++ new)]> (sale_returns (own d))) (own d) /\
    Forall2 (line_evidence o (sr_id row) (inv_of d')) (snd <$> ls) new.
Proof.
  revert d row. induction ls as [|[i l] ls IH]; intros d row Hinv Hrow H; cbn [for_each] in H; run_inv.
  - exists []. split; [by apply same_stock_refines|]. rewrite app_nil_r. split; [|constructor].
    assert (with_lines row (sr_lines row) = row) as -> by by destruct row. rewrite insert_id by done. by destruct d as [? []].
  - match goal with H : return_line _ _ _ _ _ _ _ = _ |- _ =>
      apply return_line_ok in H as (x1 & Href1 & E1 & Hev1 & Hkeys1); [|done..] end.
    apply (IH s (add_line row x1)) in H as (new & Href2 & E2 & Hev2); [|apply Href1|rewrite E1; apply lookup_insert_eq].
    exists (x1 :: new). split; [|split].
    + cbn [posted_lines] in Href1 |- *. rewrite app_nil_r in Href1. rewrite Hkeys1 in Href2. by eapply refines_trans.
    + rewrite E2, E1, add_line_with. cbn [own sale_returns set_sale_returns]. unfold set_sale_returns. cbn.
      by rewrite insert_insert_eq.
    + constructor; [|exact Hev2]. eapply line_evidence_later; [|exact Hev1]. apply Href2.
Qed.

(** The indexed lines of a compensation. *)
Lemma sorted_lines_ok o ctx (ls : list CompLine) d u d' row :
  inv (inv_of d) -> sale_returns (own d) !! sr_id row = Some row -> sr_lines row = [] ->
  for_each (zip (seq 0 (length ls)) ls) (return_line cuid hash o (sr_id row) ctx) d = Ok (u, d') ->
  exists new, refines (posted_lines o (sr_id row) (used_keys (inv_of d)) (zip (seq 0 (length ls)) ls)) (inv_of d) (inv_of d') /\
    own d' = set_sale_returns (<[sr_id row := with_lines row new]> (sale_returns (own d))) (own d) /\
    Forall2 (line_evidence o (sr_id row) (inv_of d')) ls new.
Proof.
  intros Hinv Hrow Hno H. apply return_lines_ok in H as (new & Href & E & Hev); [|done..].
  rewrite snd_zip in Hev by (by rewrite length_seq). rewrite Hno in E. by exists new.
Qed.
End lines.

(** * The lines of a compensation *)

Definition line_value (o : CreditOrder) (l : CompLine) : Z := (from_option ol_unitPrice 0 (find_item (cl_orderItemId l) o) * cl_quantity l)%Z.
Definition line_quantity (id : string) (l : CompLine) : Z := if bool_decide (cl_orderItemId l = id) then cl_quantity l else 0%Z.

Lemma find_item_id id o i : find_item id o = Some i -> ol_id i = id /\ i ∈ or_items o.
Proof.
  intros H. unfold find_item in H. apply head_Some_elem_of, list_elem_of_In, filter_In in H as [H E%bool_decide_eq_true].
  split; [done|by apply list_elem_of_In].
Qed.

(** The loop over the lines: the value and the quantities are sums, and no item comes
    back more often than it was sold. *)
Lemma check_comp_lines_ok db o m n lines m' n' : check_comp_lines db o m n lines = Ok (m', n') ->
  n' = (n + sumZ (line_value o) lines)%Z /\
  (forall id, quantity_in m' id = (quantity_in m id + sumZ (line_quantity id) lines)%Z) /\
  (forall l, l ∈ lines -> exists i, find_item (cl_orderItemId l) o = Some i /\ (0 <= ol_unitPrice i)%Z /\
     (quantity_in m' (cl_orderItemId l) <= ol_quantity i)%Z).
Proof.
  revert m n. induction lines as [|l lines IH]; intros m n H; simpl in H.
  { injection H as <- <-. split; [simpl; lia|]. split; [intros; simpl; lia|]. by intros ? ?%elem_of_nil. }
  destruct (negb _); [done|]. destruct (find_item _ _) as [i|] eqn:Hi; [|done].
  destruct (_ || _) eqn:G1; [done|]. apply orb_false_iff in G1 as [_ G1%Z.ltb_ge].
  destruct (_ <? _)%Z eqn:G2; [done|]. apply Z.ltb_ge in G2. apply find_item_id in Hi as Hid. destruct Hid as [Hid _].
  apply IH in H as (-> & Hq & Hl).
  assert (Hins : forall id, quantity_in (<[ol_id i := (quantity_in m (ol_id i) + cl_quantity l)%Z]> m) id =
    (quantity_in m id + line_quantity id l)%Z).
  { intros id. unfold quantity_in at 1, line_quantity. rewrite <- Hid. case_bool_decide as E.
    - subst. rewrite lookup_insert_eq. done.
    - rewrite lookup_insert_ne by done. unfold quantity_in. lia. }
  split; [simpl; unfold line_value at 2; rewrite Hi; simpl; lia|]. split; [intros id; rewrite Hq, Hins; simpl; lia|].
  intros l' [->|Hl']%elem_of_cons; [|by apply Hl]. exists i. split; [done|]. split; [done|].
  destruct (decide (Exists (fun l'' => cl_orderItemId l'' = cl_orderItemId l) lines)) as [He|Hno].
  - apply Exists_exists in He as (l'' & Hin & E). destruct (Hl l'' Hin) as (i' & Hi' & _ & Hle). rewrite E in Hi', Hle. congruence.
  - rewrite Hq, Hins, <- Hid, (sumZ_ext _ (fun _ => 0%Z) lines), sumZ_const.
    + unfold line_quantity. rewrite bool_decide_true by done. lia.
    + intros x Hx. unfold line_quantity. rewrite bool_decide_false; [done|]. intros E. apply Hno, Exists_exists. exists x. split; [done|congruence].
Qed.

Definition fulfillment_state (f : Fulfillment) (t : CreditTables) : option FulfillmentStatus := sd_status (fulfillment_status t) !! fu_id f.

(** When goods may come back: before dispatch the consumed reservations, after a
    proven delivery what the request names. *)
Definition comp_gate (kind : CompensationKind) (oid : string) (o : CreditOrder) (f : Fulfillment) (requested lines : list CompLine)
    (d : Domain CreditTables) : Prop :=
  match kind with
  | COMP_CANCEL => or_shipment o = None /\ fulfillment_state f (own d) ∈ [Some FUL_PENDING; Some FUL_PROCESSING; Some FUL_READY_TO_SHIP] /\
      returns_of_order oid (own d) = [] /\ cancel_lines o (reservations_of oid (inv_of d)) = Ok lines
  | COMP_RETURN => is_Some (or_shipment o) /\ fulfillment_state f (own d) = Some FUL_DELIVERED /\ lines = requested /\
      exists tr, tr ∈ history_of (fu_id f) (fulfillment_status (own d)) /\ delivered_by_staff tr = true
  end.

Lemma comp_lines_ok kind oid o f requested d lines d' :
  comp_lines kind oid o f (returns_of_order oid (own d)) requested d = Ok (lines, d') ->
  d' = d /\ comp_gate kind oid o f requested lines d.
Proof.
  intros H. unfold comp_lines in H. destruct kind; run_inv; (split; [done|]); simpl;
    repeat match goal with H : (_ || _)%bool = false |- _ => apply orb_false_iff in H as [? ?] end;
    repeat match goal with H : negb _ = false |- _ => apply negb_false_iff in H end.
  - match goal with H : bool_decide (is_Some _) = false |- _ => apply bool_decide_eq_false, eq_None_not_Some in H end.
    repeat match goal with H : bool_decide _ = true |- _ => apply bool_decide_eq_true in H end. by split_and!.
  - repeat match goal with H : bool_decide _ = true |- _ => apply bool_decide_eq_true in H end.
    match goal with H : existsb _ _ = true |- _ => apply existsb_exists in H as (tr & Htr%list_elem_of_In & Hd) end.
    split_and!; [done..|]. by exists tr.
Qed.

(** * The compensation *)

(** The ledger's view of what a document owes. *)
Lemma owed_outstanding t x : books_ok t -> documents t !! rd_id x = Some x ->
  sumZ en_amount (find_many (fun e => bool_decide (en_documentId e = rd_id x)) (entries t)) = outstanding t x.
Proof.
  intros Hok Hx. rewrite sumZ_find_many. unfold outstanding, sum_entries. apply tsum_ext. intros k e He.
  by rewrite (of_document_id t Hok x k e Hx He).
Qed.

Lemma document_of_order_ok oid t x : books_ok t -> document_of_order oid t = Some x ->
  documents t !! rd_id x = Some x /\ rd_orderId x = Some oid.
Proof.
  intros Hok H. apply find_by_Some in H as [[k Hk] E%bool_decide_eq_true]. split; [|done].
  by destruct (bk_documents t Hok k x Hk) as [-> _].
Qed.

Lemma min_if a b : (if (a <? b)%Z then a else b) = Z.min a b.
Proof. destruct (Z.ltb_spec a b); lia. Qed.

(** Tables that the ledger steps leave. *)
Definition rest (t : CreditTables) :=
  (customers t, documents t, receipts t, payouts t, orders t, order_status t, fulfillments t, fulfillment_status t).

(** A compensation settles the document before it owes money. *)
Lemma books_new_row acc t x r : books_ok t -> policy_of <$> acc = policy_of <$> accounts t -> sale_returns t !! sr_id r = None ->
  documents t !! sr_documentId r = Some x -> (0 <= sr_debtCredit r)%Z -> (0 <= sr_refundDue r)%Z ->
  sr_amount r = (sr_debtCredit r + sr_refundDue r)%Z -> ((0 < sr_refundDue r)%Z -> outstanding t x = 0%Z) ->
  books_ok (set_sale_returns (<[sr_id r := r]> (sale_returns t)) (set_accounts acc t)).
Proof. intros Hok Hp. apply (books_return (set_accounts acc t)). by apply (books_same t). Qed.

Section compensation.
Context (cuid : nat -> string) (hash fold : string -> string).
Implicit Types (d : Domain CreditTables).

(** The credit note of a compensation, when something is still owed. *)
Lemma credit_note_ok x n now ref rs h ctx d r d' :
  books_ok (own d) -> documents (own d) !! rd_id x = Some x -> (0 <= n <= outstanding (own d) x)%Z ->
  (if (0 <? n)%Z then
     e ← create_entry cuid (rd_accountId x) (rd_id x) None None ENTRY_CREDIT_NOTE (- n) now ref rs h ctx; mret (Some (en_id e))
   else mret None) d = Ok (r, d') ->
  stock_kept d d' /\ books_ok (own d') /\ grows (own d) (own d') /\ rest (own d') = rest (own d) /\
  sale_returns (own d') = sale_returns (own d) /\ outstanding (own d') x = (outstanding (own d) x - n)%Z.
Proof.
  intros Hok Hx Hn H. destruct (Z.ltb_spec 0 n); run_inv; [|by split_and!; try done; lia].
  match goal with H : create_entry _ _ _ _ _ _ _ _ _ _ _ _ _ = _ |- _ =>
    apply create_entry_ok in H as (Q & Hp & _ & R1 & R2 & R3 & R4 & R5 & R6); [|apply (bk_accounts _ Hok)] end.
  pose proof (posts_frame _ _ _ Hp) as (_ & E & _). split; [done|]. split; [|split; [by eapply posts_grow|]].
  - refine (books_correction _ Hok _ _ _ Hx Hp R1 R2 _ _ _ _ _ _); rewrite ?R3, ?R4, ?R5, ?R6; [by split|right; split; [done|lia]|lia|..].
    + destruct (bk_balance _ Hok _ _ Hx). lia.
    + pose proof (bk_total _ Hok (rd_accountId x)). lia.
    + intros id q Hs Hdue E'. destruct (bk_returns _ Hok id q Hs) as [_ (y & Hy & _ & _ & _ & Hz & _)]. rewrite E', Hx in Hy.
      injection Hy as <-. specialize (Hz Hdue). lia.
  - split; [by rewrite E|]. split; [by rewrite E|]. rewrite (post_outstanding (own d) _ _ _ _ Hp) by done. simpl.
    unfold of_document. rewrite R1, R2, R6, !bool_decide_true by done. simpl. lia.
Qed.

Lemma advance_unless_ok (b : bool) id d u d' : (if b then advance_account id else mret tt) d = Ok (u, d') -> accounts_ok (accounts (own d)) ->
  stock_kept d d' /\ exists acc, own d' = set_accounts acc (own d) /\ policy_of <$> acc = policy_of <$> accounts (own d).
Proof.
  intros H Hacc. destruct b; [by eapply advance_account_ok|]. run_inv. split; [done|]. exists (accounts (own d)).
  split; [by destruct (own d)|done].
Qed.

Lemma create_sale_return_ok a oid docId kind n dc rf e ev h rs d row d' :
  create_sale_return cuid a oid docId kind n dc rf e ev h rs d = Ok (row, d') -> accounts_ok (accounts (own d)) ->
  stock_kept d d' /\ sale_returns (own d) !! sr_id row = None /\
  (exists acc, policy_of <$> acc = policy_of <$> accounts (own d) /\
     own d' = set_sale_returns (<[sr_id row := row]> (sale_returns (own d))) (set_accounts acc (own d))) /\
  sr_orderId row = oid /\ sr_documentId row = docId /\ sr_kind row = kind /\ sr_amount row = n /\ sr_debtCredit row = dc /\
  sr_refundDue row = rf /\ sr_lines row = [].
Proof.
  intros H Hacc. unfold create_sale_return in H. run_inv.
  match goal with H : on_inv (fresh_id _) _ = _ |- _ => apply quiet_fresh in H as [E1 Q1] end.
  match goal with H : on_own _ _ = _ |- _ => apply on_own_ok in H as (x' & [= _ <-] & ->) end.
  match goal with H : (_ || _)%bool = false |- _ => apply orb_false_iff in H as [G1%bool_decide_eq_false%eq_None_not_Some _] end.
  match goal with H : (if bool_decide (dc = 0%Z) then _ else _) _ = Ok _ |- _ => apply advance_unless_ok in H as Hadv; [|by rewrite E1] end.
  destruct Hadv as (Q2 & acc & E2 & Hpol). rewrite E2, E1 in *. cbn in G1. split; [kept|]. cbn [sr_id own].
  split; [exact G1|]. split; [by exists acc|]. done.
Qed.

(** The end of the order, when everything came back. *)
Definition final_order (kind : CompensationKind) : OrderStatus := match kind with COMP_CANCEL => CANCELLED | COMP_RETURN => RETURNED end.
Definition final_fulfillment_of (kind : CompensationKind) : FulfillmentStatus :=
  match kind with COMP_CANCEL => FUL_CANCELLED | COMP_RETURN => FUL_RETURNED end.

Lemma close_order_ok (complete : bool) kind oid f ctx d u d' :
  status_of_order oid (own d) = Some CREDIT_APPROVED ->
  (if complete then
     from ← gets (fun d => default FUL_PENDING (sd_status (fulfillment_status (own d)) !! fu_id f));
     record_fulfillment_transition cuid (fu_id f) from (final_fulfillment_of kind) ctx "CREDIT_SALE_COMPENSATION" ;;
     record_order_transition cuid oid CREDIT_APPROVED (final_order kind) ctx "CREDIT_SALE_COMPENSATION" ;;
     mret tt
   else mret tt) d = Ok (u, d') ->
  side_step d d' /\ status_of_order oid (own d') = Some (if complete then final_order kind else CREDIT_APPROVED) /\
  fulfillment_state f (own d') = (if complete then Some (final_fulfillment_of kind) else fulfillment_state f (own d)).
Proof.
  intros Hst H. destruct complete; run_inv; [|by split_and!].
  match goal with H : record_fulfillment_transition _ _ _ _ _ _ _ = _ |- _ => apply record_fulfillment_ok in H as (B1 & _ & _ & F1 & O1 & _) end.
  match goal with H : record_order_transition _ _ _ _ _ _ _ = _ |- _ => apply record_order_ok in H as (B2 & _ & _ & O2 & _ & _ & _ & _ & _ & F2) end.
  split; [by etrans|]. unfold status_of_order, fulfillment_state. by rewrite O2, F2, F1, !lookup_insert_eq.
Qed.

(** What a compensation does to an order, its document, the stock and the books. *)
Record compensated (kind : CompensationKind) (customerId oid : string) (requested : list CompLine) (d d' : Domain CreditTables)
    (order : CreditOrder) (x : ReceivableDocument) (f : Fulfillment) (row : CreditSaleReturn) (lines : list CompLine) : Prop := {
  cp_order : orders (own d) !! oid = Some order /\ or_customerId order = customerId;
  cp_document : documents (own d) !! rd_id x = Some x /\ rd_orderId x = Some oid;
  cp_status : status_of_order oid (own d) = Some CREDIT_APPROVED /\ fulfillment_of oid (own d) = Some f;
  cp_gate : comp_gate kind oid order f requested lines d;
  cp_row : sale_returns (own d) !! sr_id row = None /\
    sale_returns (own d') = <[sr_id row := row]> (sale_returns (own d)) /\
    sr_orderId row = oid /\ sr_documentId row = rd_id x /\ sr_kind row = kind;
  cp_amount : sr_amount row = sumZ (line_value order) lines /\ (0 <= sr_amount row <= or_grandTotal order)%Z;
  cp_split : sr_debtCredit row = Z.min (sr_amount row) (outstanding (own d) x) /\
    sr_refundDue row = (sr_amount row - sr_debtCredit row)%Z /\
    outstanding (own d') x = (outstanding (own d) x - sr_debtCredit row)%Z;
  cp_lines : Forall2 (line_evidence order (sr_id row) (inv_of d')) (js_sort (by_line_place order) lines) (sr_lines row);
  cp_returned : exists returned, (forall id, quantity_in returned id =
      (quantity_in (returned_map (returns_of_order oid (own d))) id + sumZ (line_quantity id) lines)%Z) /\
    (forall l, l ∈ lines -> exists i, find_item (cl_orderItemId l) order = Some i /\
       (quantity_in returned (cl_orderItemId l) <= ol_quantity i)%Z) /\
    status_of_order oid (own d') = Some (if complete_return order returned then final_order kind else CREDIT_APPROVED) /\
    fulfillment_state f (own d') =
      (if complete_return order returned then Some (final_fulfillment_of kind) else fulfillment_state f (own d));
  cp_stock : let ls := js_sort (by_line_place order) lines in let numbers := seq 0 (length ls) in
    let posted := posted_lines hash order (sr_id row) (used_keys (inv_of d)) (zip numbers ls) in
    refines posted (inv_of d) (inv_of d') /\
    (NoDup (line_key hash (sr_id row) <$> numbers) -> (forall i, i ∈ numbers -> line_key hash (sr_id row) i ∉ used_keys (inv_of d)) ->
     posted = line_event order <$> ls)
}.

Lemma compensate_tx_ok now c oid kind v ov ref rs requested ctx d r d' :
  inv (inv_of d) -> books_ok (own d) -> compensate_tx cuid hash fold now c oid kind v ov ref rs requested ctx d = Ok (r, d') ->
  books_ok (own d') /\ grows (own d) (own d') /\
  exists order x f row lines, compensated kind c oid requested d d' order x f row lines.
Proof.
  intros Hinv Hok H. unfold compensate_tx in H. run_inv.
  match goal with H : match order_row _ _ with _ => _ end = Some ?v |- _ =>
    unfold order_row in H; destruct (orders (own d) !! oid) as [o|] eqn:Ho in H; [|done];
    destruct (bool_decide (or_customerId o = c)) eqn:Hc in H; [|done]; apply bool_decide_eq_true in Hc; injection H as <- end.
  match goal with H : document_of_order _ _ = Some ?y |- _ => rename y into x; apply document_of_order_ok in H as [Hx Hxo]; [|done] end.
  match goal with H : account_of _ _ _ = _ |- _ => apply account_of_ok in H as (-> & Ha & Hac); [|apply (bk_accounts _ Hok)] end.
  match goal with H : fulfillment_of _ _ = Some ?y |- _ => rename y into f; rename H into Hf end.
  match goal with H : comp_lines _ _ _ _ _ _ _ = Ok (?y, _) |- _ => rename y into lines; apply comp_lines_ok in H as (-> & Hgate) end.
  match goal with H : check_comp_lines _ _ _ _ _ = Ok ?y |- _ => destruct y as [returned amount]; apply check_comp_lines_ok in H as (Ham & Hq & Hle) end.
  repeat match goal with H : (_ || _)%bool = false |- _ => apply orb_false_iff in H as [? ?] end.
  repeat match goal with H : negb (bool_decide _) = false |- _ => apply negb_false_iff, bool_decide_eq_true in H end.
  match goal with H : rd_accountId x = ca_id ?y |- _ => rename y into account; rename H into Hax end.
  match goal with H : status_of_order oid _ = _ |- _ => rename H into Hst end.
  rewrite <- Hax in *. rewrite (owed_outstanding _ _ Hok Hx), min_if in H.
  pose proof (proj1 (bk_balance _ Hok _ _ Hx)) as Howed. run_inv.
  match goal with H : (_ || _)%bool = false |- _ => apply orb_false_iff in H as [[Hlo%Z.ltb_ge Hhi%Z.ltb_ge]%orb_false_iff _] end.
  match goal with H : (if _ then _ else _) d = Ok (_, ?s1) |- _ => rename s1 into d1; apply credit_note_ok in H as (Q1 & Hok1 & G1 & E1 & S1 & O1); [|done|done|lia] end.
  match goal with H : create_sale_return _ _ _ _ _ _ _ _ _ _ _ _ _ = Ok (?y, ?s2) |- _ => rename y into row; rename s2 into d2;
    apply create_sale_return_ok in H as (Q2 & Hn & (acc & Hpol & E2) & R1 & R2 & R3 & R4 & R5 & R6 & R7); [|apply (bk_accounts _ Hok1)] end.
  injection E1 as C1 D1 P1 Y1 OR1 OS1 F1 FS1.
  match goal with H : for_each _ _ _ = Ok (_, ?t) |- _ => rename t into d3; apply sorted_lines_ok in H as (new & Href & E3 & Hev);
    [|eapply inv_same_stock; [exact Hinv|]; kept|rewrite E2; apply lookup_insert_eq|exact R7] end.
  set (row' := with_lines row new) in *.
  assert (E3' : own d3 = set_sale_returns (<[sr_id row' := row']> (sale_returns (own d))) (set_accounts acc (own d1))).
  { rewrite E3, E2, <- S1. unfold set_sale_returns. cbn. by rewrite insert_insert_eq. }
  match goal with H : (if complete_return o returned then _ else _) _ = Ok (_, ?t) |- _ => rename t into d4;
    apply (close_order_ok _ kind) in H as ([Q4 B4] & O4 & FS4); [|unfold status_of_order; rewrite E3'; cbn; by rewrite OS1] end.
  match goal with H : advance_order _ _ = Ok (_, ?t) |- _ => rename t into d5; apply advance_order_ok in H as ([Q5 B5] & _ & O5 & _ & F5) end.
  match goal with H : record _ _ = Ok (_, ?t) |- _ => rename t into d6; apply quiet_audit in H as [E6 Q6] end.
  match goal with H : summary _ _ = _ |- _ => apply summary_ok in H as (-> & _ & _) end.
  assert (HB : same_books (own d3) (own d6)) by (rewrite E6; by etrans). clear B4 B5.
  assert (HQ : same_stock (inv_of d3) (inv_of d6)) by kept.
  assert (HM : movements (inv_of d6) = movements (inv_of d3)) by apply HQ.
  assert (Hd2 : same_stock (inv_of d) (inv_of d2)) by kept.
  rewrite Z.add_0_l in *. set (A := sumZ (line_value o) lines) in *. rewrite S1 in Hn.
  assert (Hok3 : books_ok (own d3)).
  { rewrite E3', <- S1. apply (books_new_row acc _ x); [done|done|cbn; congruence|cbn; by rewrite D1, R2|cbn; lia..]. }
  assert (Hout : outstanding (own d6) x = outstanding (own d1) x).
  { unfold outstanding. rewrite (same_books_sum _ _ _ HB). apply sum_entries_eq. by rewrite E3'. }
  split; [by eapply same_books_ok|]. split.
  { etrans; [exact G1|]. etrans; [|by apply same_books_grows]. rewrite E3'. unfold grows. cbn. rewrite S1.
    split_and!; try done. by apply insert_subseteq. }
  exists o, x, f, row', lines. injection (proj2 HB) as _ _ _ HSR _. constructor; try by split_and!.
  - exact Hgate.
  - split; [done|]. split; [by rewrite HSR, E3'|]. by split_and!.
  - cbn. lia.
  - cbn. rewrite Hout, O1, R4, R5, R6. by split_and!.
  - cbn. eapply Forall2_impl; [exact Hev|]. intros l y. apply line_evidence_later. by rewrite HM.
  - exists returned. split; [exact Hq|]. split; [intros l Hl; destruct (Hle l Hl) as (i & Hi & _ & Hi'); by exists i|].
    unfold status_of_order, fulfillment_state in *. rewrite E6, O5, F5, O4, FS4, E3'. cbn. by rewrite FS1.
  - assert (Hused : used_keys (inv_of d2) = used_keys (inv_of d)) by (apply used_keys_same, Hd2). cbv zeta. rewrite <- Hused. split.
    + eapply refines_frame_l; [exact Hinv|exact Hd2|]. intros _. by eapply refines_frame_r.
    + intros Hnd Hnew. rewrite posted_all.
      * by rewrite snd_zip by (by rewrite length_seq).
      * by rewrite fst_zip by (by rewrite length_seq).
      * intros i. rewrite fst_zip by (by rewrite length_seq). apply Hnew.
Qed.
End compensation.

(** * Payouts *)

Section payout.
Context (cuid : nat -> string) (hash fold : string -> string).

Lemma paid_out_sum id t : paid_out id t = payouts_of id t.
Proof. unfold paid_out. by rewrite sumZ_find_many. Qed.

Lemma payout_tx_ok c oid rid input n eff ref rs ctx (d : Domain CreditTables) r d' :
  books_ok (own d) -> payout_tx cuid hash fold c oid rid input n eff ref rs ctx d = Ok (r, d') -> credit_ok d d'.
Proof.
  intros Hok H. unfold credit_ok. unfold payout_tx in H. run_inv.
  match goal with H : account_of _ _ _ = _ |- _ => apply account_of_ok in H as (-> & _ & _); [|apply (bk_accounts _ Hok)] end.
  match goal with H : match sale_returns _ !! _ with _ => _ end = Some ?y |- _ => rename y into q;
    destruct (sale_returns (own d) !! rid) as [q0|] eqn:Hq in H; [|done]; destruct (_ && _) in H; [|done]; injection H as -> end.
  match goal with H : (_ || _)%bool = false |- _ => apply orb_false_iff in H as [_ Hle%Z.ltb_ge] end. rewrite paid_out_sum in Hle.
  match goal with H : create_payout _ _ _ _ _ _ _ _ _ _ = _ |- _ => unfold create_payout in H end. credit_steps.
  match goal with H : advance_account _ _ = _ |- _ => apply advance_account_ok in H as (Q2 & acc & E2 & Hpol);
    [|match goal with E : own ?s = own d |- accounts_ok (accounts (own ?s)) => rewrite E end; apply (bk_accounts _ Hok)] end.
  match goal with H : on_own _ _ = _ |- _ => apply on_own_ok in H as (x' & [= _ <-] & ->) end.
  match goal with H : (_ || _)%bool = false |- _ => apply orb_false_iff in H as [Hn%bool_decide_eq_false%eq_None_not_Some _] end.
  cbn [own inv_of] in *. own_known. rewrite E2 in Hn. cbn in Hn.
  match goal with E : own _ = set_payouts _ _ |- _ => rewrite E, E2; cbn [payouts set_accounts];
    match type of E with _ = set_payouts (<[_ := ?p]> _) _ => set (row := p) end end.
  split; [kept|]. split.
  - apply (books_payout (set_accounts acc (own d))) with (r := q) (p := row); [by apply (books_same (own d))|exact Hq|exact Hn|].
    cbn. change (payouts_of rid (set_accounts acc (own d))) with (payouts_of rid (own d)). lia.
  - split_and!; try done. by apply insert_subseteq.
Qed.
End payout.
