(* ===== verification/CreditSafety.v ===== *)
(** The public commands of the credit services: validated commands have safe bodies,
    commit once among other clients, answer with HTTP errors only, and leave books that
    the deferred check of the database accepts. *)

From S2P Require Import Prelude Decimals Table Json StableJson AuditTrail Retry InventoryModel Inventory.
From S2P Require Import InventoryLedger InventoryProofs Durable DurableSafety StateMachine IsoTime Paging.
From S2P Require Import Credit CreditCommands CreditSales CreditService CreditBooks CreditRuns CreditPostings CreditBodies.
From S2P Require Import CreditSaleProofs CreditReturnProofs.

(** * The deferred check of the database

    [credit_account_reconcile] of
    [src/apps/api/prisma/migrations/20261012131000_staff_credit_sales/migration.sql]. *)

Definition document_bad (t : CreditTables) (d : ReceivableDocument) : bool :=
  negb (bool_decide (count_rows (fun e => of_document d e && bool_decide (en_kind e = initial_kind (rd_kind d))) (entries t) = 1%Z)) ||
  (outstanding t d <? 0)%Z || (MAX_CREDIT_IRR <? outstanding t d)%Z || (principal t d <? 0)%Z || (MAX_CREDIT_IRR <? principal t d)%Z.
Definition of_receipt (r : CreditReceipt) (k : CreditEntryKind) (e : CreditLedgerEntry) : bool :=
  bool_decide (en_receiptId e = Some (cr_receiptId r)) && bool_decide (en_accountId e = cr_accountId r) && bool_decide (en_kind e = k).
Definition receipt_bad (t : CreditTables) (r : CreditReceipt) : bool :=
  let reversals := count_rows (of_receipt r ENTRY_RECEIPT_REVERSAL) (entries t) in
  negb (bool_decide ((- sum_entries (of_receipt r ENTRY_RECEIPT) t)%Z = cr_amount r)) ||
  ((0 <? reversals)%Z && negb (bool_decide (reversals = count_rows (of_receipt r ENTRY_RECEIPT) (entries t)))).
Definition credit_account_reconcile (target : string) (t : CreditTables) : bool :=
  let total := account_total target t in
  negb (existsb (document_bad t) (account_documents target t)) &&
  negb (existsb (receipt_bad t) (find_many (fun r => bool_decide (cr_accountId r = target)) (receipts t))) &&
  negb ((total <? 0)%Z || (MAX_CREDIT_IRR <? total)%Z).

Section reconcile.
Context (t : CreditTables) (Hok : books_ok t).

Lemma initial_entry_once id d : documents t !! id = Some d ->
  count_rows (fun e => of_document d e && bool_decide (en_kind e = initial_kind (rd_kind d))) (entries t) = 1%Z.
Proof using Hok.
  intros Hd. destruct (bk_documents t Hok id d Hd) as [<- _]. destruct (bk_initial t Hok _ d Hd) as (e & He & Ed & Hi).
  assert (Hsame : forall k x, entries t !! k = Some x -> of_document d x && bool_decide (en_kind x = initial_kind (rd_kind d)) =
    bool_decide (en_documentId x = rd_id d) && is_initial x).
  { intros k x Hx. rewrite (of_document_id t Hok d k x Hd Hx). case_bool_decide as E; [|done]. simpl. unfold is_initial.
    destruct (bk_entries t Hok k x Hx) as [_ (d' & Hd' & _ & Hs)]. rewrite E, Hd in Hd'. injection Hd' as <-.
    destruct (decide (en_kind x ∈ [ENTRY_OPENING_BALANCE; ENTRY_SALE])) as [Hin|Hno].
    - by rewrite (initial_shape t d x Hin Hs), !bool_decide_true by (done || by destruct (rd_kind d); set_solver).
    - rewrite !bool_decide_false; [done|done|]. intros K. apply Hno. rewrite K. destruct (rd_kind d); set_solver. }
  rewrite count_rows_tsum, (tsum_ext _ (fun x => if bool_decide (en_documentId x = rd_id d) && is_initial x then 1%Z else 0%Z)).
  - rewrite (tsum_unique (fun _ => 1%Z)) by apply (bk_initial_once t Hok).
    rewrite (find_by_unique _ _ (en_id e) e); [done|apply (bk_initial_once t Hok)|done|]. by rewrite Ed, Hi, bool_decide_true.
  - intros k x Hx. by rewrite (Hsame k x Hx).
Qed.

Lemma document_fine id d : documents t !! id = Some d -> document_bad t d = false.
Proof using Hok.
  intros Hd. unfold document_bad. rewrite (initial_entry_once id d Hd), bool_decide_true by done. simpl.
  destruct (bk_balance t Hok id d Hd). pose proof (outstanding_le_principal t Hok d).
  rewrite !orb_false_iff, !Z.ltb_ge. lia.
Qed.

Lemma of_receipt_entry id r k e : receipts t !! id = Some r -> entries t !! k = Some e ->
  of_receipt r ENTRY_RECEIPT e = is_receipt_of r e.
Proof using Hok.
  intros Hr He. destruct (bk_receipts t Hok id r Hr) as [<- _]. pose proof (elem_of_receipt_entries t Hok r e Hr) as H.
  destruct (bk_entries t Hok k e He) as [E _]. unfold receipt_entries in H. rewrite elem_of_find_many in H.
  unfold of_receipt. apply eq_true_iff_eq. split; intros P.
  - apply H. split; [by eexists|exact P].
  - apply H. by rewrite E.
Qed.

(** A reversal of the receipt points to one of its allocations. *)
Lemma reversal_target id r k e : receipts t !! id = Some r -> entries t !! k = Some e -> of_receipt r ENTRY_RECEIPT_REVERSAL e = true ->
  exists o, en_reversalOfId e = Some (en_id o) /\ entries t !! en_id o = Some o /\ is_receipt_of r o = true.
Proof using Hok.
  intros Hr He [[P1%bool_decide_eq_true _]%andb_prop P3%bool_decide_eq_true]%andb_prop.
  destruct (bk_entries t Hok k e He) as [_ (d & _ & _ & Hs)]. unfold entry_shape in Hs. rewrite P3 in Hs.
  destruct Hs as (o & Ho & Hin & K & _ & _ & R & _). exists o. split; [done|]. split; [done|]. unfold is_receipt_of.
  by rewrite K, R, P1, !bool_decide_true.
Qed.

Lemma reversals_whole id r : receipts t !! id = Some r ->
  count_rows (of_receipt r ENTRY_RECEIPT_REVERSAL) (entries t) = 0%Z \/
  count_rows (of_receipt r ENTRY_RECEIPT_REVERSAL) (entries t) = count_rows (of_receipt r ENTRY_RECEIPT) (entries t).
Proof using Hok.
  intros Hr. destruct (bk_receipts t Hok id r Hr) as [Hid (_ & _ & b & Hb)]. rewrite !count_rows_tsum. destruct b.
  - right. apply Z.le_antisymm.
    + apply (tsum_matched en_id en_reversalOfId); [by intros k e He; apply (bk_entries t Hok)|lia|..].
      * intros k e He P. destruct (reversal_target id r k e Hr He P) as (o & H1 & H2 & H3). exists o. split; [done|]. split; [done|].
        split; [|done]. by rewrite (of_receipt_entry id r (en_id o) o).
      * intros o k1 k2 e1 e2 H1 H2 [_ P1]%andb_prop [_ P2]%andb_prop. by apply (bk_reversal_once t Hok o k1 k2 e1 e2).
    + apply (tsum_matched en_id (fun e => en_id <$> find_by (fun v => bool_decide (en_reversalOfId v = Some (en_id e))) (entries t)));
        [by intros k e He; apply (bk_entries t Hok)|lia|..].
      * intros k e He P. rewrite (of_receipt_entry id r k e Hr He) in P. pose proof (Hb k e He P) as Hrev. unfold reversed_in in Hrev.
        apply bool_decide_eq_true in Hrev as [v Hv]. rewrite Hv. apply find_by_Some in Hv as [[kv Hkv] Ev%bool_decide_eq_true].
        destruct (bk_entries t Hok kv v Hkv) as [<- (d & _ & _ & Hs)]. exists v. split; [done|]. split; [done|]. split; [|done].
        destruct (bk_entries t Hok k e He) as [Ek _]. unfold entry_shape, plain in Hs. rewrite Ev in Hs.
        destruct (en_kind v) eqn:K; try naive_solver. destruct Hs as (o & [= Eo] & Ho & _ & _ & Ha & Hrc & _).
        rewrite <- Eo, Ek, He in Ho. injection Ho as <-. unfold of_receipt. rewrite <- Hrc, <- Ha, K.
        rewrite <- (of_receipt_entry id r k e Hr He) in P. apply andb_prop in P as [[P1 P2]%andb_prop _]. by rewrite P1, P2.
      * intros o k1 k2 e1 e2 H1 H2 [_ P1%bool_decide_eq_true]%andb_prop [_ P2%bool_decide_eq_true]%andb_prop.
        apply fmap_Some in P1 as (v1 & F1 & E1), P2 as (v2 & F2 & E2).
        apply find_by_Some in F1 as [[j1 J1] R1], F2 as [[j2 J2] R2]. apply bool_decide_eq_true in R1, R2.
        destruct (bk_entries t Hok j1 v1 J1) as [I1 _], (bk_entries t Hok j2 v2 J2) as [I2 _].
        assert (v1 = v2) as -> by (rewrite <- I1, <- E1 in J1; rewrite <- I2, <- E2 in J2; congruence).
        destruct (bk_entries t Hok k1 e1 H1) as [K1 _], (bk_entries t Hok k2 e2 H2) as [K2 _]. congruence.
  - left. apply tsum_0. intros k e He. destruct (of_receipt r ENTRY_RECEIPT_REVERSAL e) eqn:P; [|done]. exfalso.
    destruct (reversal_target id r k e Hr He P) as (o & H1 & H2 & H3). pose proof (Hb _ o H2 H3) as Hno.
    assert (reversed_in t o = true); [|congruence]. apply reversed_in_true. by exists k, e.
Qed.

Lemma receipt_fine id r : receipts t !! id = Some r -> receipt_bad t r = false.
Proof using Hok.
  intros Hr. unfold receipt_bad. destruct (bk_receipts t Hok id r Hr) as [_ (_ & Hsum & _)].
  rewrite (sum_entries_ext (of_receipt r ENTRY_RECEIPT) (is_receipt_of r)) by (intros k e He; by eapply of_receipt_entry).
  rewrite bool_decide_true by lia. simpl. destruct (reversals_whole id r Hr) as [E | E]; rewrite E; [done|].
  rewrite bool_decide_true by done. apply andb_false_r.
Qed.

(** Sound books pass the check of every account. *)
Lemma books_reconcile target : credit_account_reconcile target t = true.
Proof using Hok.
  unfold credit_account_reconcile. rewrite !andb_true_iff, !negb_true_iff. split_and!.
  - apply not_true_is_false. intros (d & Hd & Hbad)%existsb_exists. apply list_elem_of_In in Hd. apply elem_of_find_many in Hd as [[k Hk] _].
    by rewrite (document_fine k d Hk) in Hbad.
  - apply not_true_is_false. intros (r & Hr & Hbad)%existsb_exists. apply list_elem_of_In in Hr. apply elem_of_find_many in Hr as [[k Hk] _].
    by rewrite (receipt_fine k r Hk) in Hbad.
  - pose proof (account_total_nonneg target t Hok). pose proof (bk_total t Hok target). rewrite orb_false_iff, !Z.ltb_ge. lia.
Qed.
End reconcile.

(** * Validated commands *)

Lemma result_bind_ok {A B} (r : result A) (k : A -> result B) b : (r ≫= k) = Ok b <-> exists a, r = Ok a /\ k a = Ok b.
Proof. destruct r; naive_solver. Qed.
Ltac result_inv :=
  repeat match goal with
  | H : (_ ≫= _) = Ok _ |- _ => apply result_bind_ok in H; let a := fresh "a" in let E := fresh "E" in destruct H as (a & E & H)
  | H : (if ?b then Err _ else Ok tt) = Ok _ |- _ => let G := fresh "G" in destruct b eqn:G; [discriminate H|clear H]
  | H : Ok _ = Ok _ |- _ => injection H as H; try subst
  end.

Lemma check_allocations_positive items allocs : check_allocations items = Ok allocs -> forall a, a ∈ allocs -> (0 < al_amount a)%Z.
Proof.
  revert allocs. induction items as [|i items IH]; intros allocs H; simpl in H.
  - injection H as <-. by intros ? ?%elem_of_nil.
  - result_inv. match goal with H : creditAmount _ _ = _ |- _ => apply creditAmount_Ok in H as (_ & Hp & _) end.
    intros a' [->|Ha]%elem_of_cons; [by apply Hp|]. by eapply IH.
Qed.

Section service.
Context (cuid : nat -> string) (hash fold : string -> string).

Definition credit_body (execute : M (Domain CreditTables) CreditCommandResult) : Prop :=
  safe_body books_ok grows execute.

Lemma quiet_body execute : (forall d a d', books_ok (own d) -> execute d = Ok (a, d') -> credit_ok d d') -> credit_body execute.
Proof.
  intros H d a d' Hinv Hok Hx. destruct (H d a d' Hok Hx) as (Q & B & G). split; [|by split].
  exists []. by apply same_stock_refines.
Qed.

Lemma validated_safe now now1 c cmd ctx p : prepare cuid hash fold now now1 c cmd ctx = Ok p -> credit_body (pr_execute p).
Proof.
  intros H. destruct cmd as [input|input|input|rid input|docId input|oid input|oid input|oid input|oid rid input]; simpl in H; result_inv; cbn [pr_execute].
  - apply quiet_body. intros d x d' Hok Hx. eapply policy_tx_ok; [done| |exact Hx]. by apply creditAmount_Ok in E as (Hl & _).
  - apply quiet_body. intros d x d' Hok Hx. by eapply opening_tx_ok.
  - apply quiet_body. intros d x d' Hok Hx. apply creditAmount_Ok in E as (_ & Hn & _). specialize (Hn eq_refl).
    match goal with H : negb _ || negb _ = false |- _ => apply orb_false_iff in H as [N1%negb_false_iff%bool_decide_eq_true N2%negb_false_iff%bool_decide_eq_true] end.
    eapply receipt_tx_ok; [done|exact Hn|exact N1|exact N2| |exact Hx].
    intros al Hal. apply elem_of_js_sort in Hal. by eapply check_allocations_positive.
  - apply quiet_body. intros d x d' Hok Hx. by eapply reverse_tx_ok.
  - apply quiet_body. intros d x d' Hok Hx. eapply adjust_tx_ok; [done| |exact Hx]. apply creditAmount_Ok in E as (_ & Hn & _).
    specialize (Hn eq_refl). destruct (jq_kind input); lia.
  - intros d x d' Hinv Hok Hx. apply sale_tx_ok in Hx as ([Href _] & B & Hg & _); [|done..]. split; [by eexists|by split].
  - intros d x d' Hinv Hok Hx. apply compensate_tx_ok in Hx as (B & Hg & o & y & f & row & lines & HC); [|done..].
    destruct (cp_stock _ _ _ _ _ _ _ _ _ _ _ _ HC) as (Href & _). split; [by eexists|by split].
  - intros d x d' Hinv Hok Hx. apply compensate_tx_ok in Hx as (B & Hg & o & y & f & row & lines & HC); [|done..].
    destruct (cp_stock _ _ _ _ _ _ _ _ _ _ _ _ HC) as (Href & _). split; [by eexists|by split].
  - apply quiet_body. intros d x d' Hok Hx. by eapply payout_tx_ok.
Qed.

(** ** The transaction among other clients *)

Lemma lock_locked (parts : list string) (s : credit_store) u s' : on_domain (lock_in parts) s = Ok (u, s') -> locked_only s s'.
Proof. intros H. apply zoom_ok in H as (d & H & ->). apply lock_in_ok in H as [ls ->]. by exists ls. Qed.

Lemma unlock_same (s : credit_store) : s = mkStore (mkDomain (set_locks (locks (inv_of (domain s))) (inv_of (domain s))) (own (domain s))) (records s).
Proof. by destruct s as [[[] ?] ?]. Qed.

Lemma credit_tx_safe c id p s r s' : credit_body (pr_execute p) -> store_ok books_ok s ->
  credit_tx cuid c id p s = Ok (r, s') -> durable_step books_ok grows id s s'.
Proof.
  intros Hb Hs H. unfold credit_tx in H. run_inv.
  match goal with H : on_domain (lock_in _) ?s1 = Ok (_, ?s2) |- _ => apply lock_locked in H as L2 end.
  match goal with H : (match pr_orderLock p with _ => _ end) s = Ok (_, ?t) |- _ => assert (L1 : locked_only s t) end.
  { destruct (pr_orderLock p); [by eapply lock_locked|]. run_inv. eexists. apply unlock_same. }
  eapply locked_step; [done|exact L1|]. intros Hs1. eapply locked_step; [done|exact L2|]. intros Hs2.
  eapply recorded_safe; [exact Hb| |exact Hs2|exact H]. intros t0 d0 r0 d1 Hx. by run_inv.
Qed.

(** The command that an accepted call stands for. *)
Definition credit_identity (now now1 : Z) (c : string) (cmd : CreditCommand) (ctx : CreditContext) : option CommandId :=
  match prepare cuid hash fold now now1 c cmd ctx, normalizeIdempotencyKey (cx_idempotencyKey ctx) with
  | Ok p, Ok key =>
      if negb (truthy (cx_actorId ctx)) || negb (truthy (cx_requestId ctx)) || (100 <? String.length (cx_requestId ctx))%nat
      then None else Some (credit_command_id hash c key p ctx)
  | _, _ => None
  end.

Lemma credit_outcome (E : env credit_store) now now1 c cmd ctx s :
  store_rely books_ok E -> store_ok books_ok s ->
  let out := run_credit cuid hash fold E now now1 c cmd ctx s in
  match credit_identity now now1 c cmd ctx with
  | Some id => durable_outcome books_ok grows E id s out
  | None => snd out = s /\ is_ok (fst out) = false
  end.
Proof.
  intros HE Hs out. unfold credit_identity. unfold run_credit, executeCommand in out. subst out.
  destruct (prepare _ _ _ _ _ _ _ _) as [p|e] eqn:Hp; [|done]. destruct (normalizeIdempotencyKey _) as [key|e]; [|done].
  destruct (_ || _); [done|].
  pose proof (durable_retry books_ok grows E
    (fun error => isPrismaTransactionConflict error || isPrismaSerializableContention error)
    (HttpException ConflictException (Some "CONFLICT") concurrent_message) (credit_command_id hash c key p ctx)
    (credit_tx cuid c (credit_command_id hash c key p ctx) p) s HE
    (fun s1 r s' Hs1 H => credit_tx_safe c _ p s1 r s' (validated_safe _ _ _ _ _ _ Hp) Hs1 H) Hs) as H.
  unfold withSerializableRetry. change (Z.to_nat (Z.max 1 SERIALIZABLE_RETRIES)) with 3%nat.
  destruct (retry_loop _ _ _ _ _ _ _) as [[r|e] s']; exact H.
Qed.
End service.

(** * Errors *)

Definition is_http (e : exn) : bool := match e with HttpException _ _ _ => true | _ => false end.
Definition http_only {A} (r : result A) : Prop := forall e, r = Err e -> is_http e = true.

Lemma http_ok {A} (a : A) : http_only (Ok a).
Proof. by intros e. Qed.
Lemma http_bind {A B} (r : result A) (k : A -> result B) : http_only r -> (forall a, http_only (k a)) -> http_only (r ≫= k).
Proof. intros Hr Hk e. destruct r as [a|e']; [apply Hk|]. intros [= <-]. by apply Hr. Qed.
Lemma http_if {A} (b : bool) (r r' : result A) : http_only r -> http_only r' -> http_only (if b then r else r').
Proof. by destruct b. Qed.
Lemma http_err {A} kind code message : http_only (Err (HttpException kind code message) : result A).
Proof. by intros e [= <-]. Qed.
Lemma http_amount s b : http_only (creditAmount s b).
Proof. unfold creditAmount. destruct (parse_natural _ _); [apply http_if|]; first [apply http_err|apply http_ok]. Qed.
Lemma http_text s n : http_only (text s n).
Proof. apply http_if; [apply http_err|apply http_ok]. Qed.
Lemma http_evidence s n : http_only (evidence s n).
Proof. apply http_if; [apply http_err|apply http_ok]. Qed.
Lemma http_version v : http_only (check_version v).
Proof. apply http_if; [apply http_err|apply http_ok]. Qed.
Lemma http_date now s b : http_only (date now s b).
Proof. unfold date. destruct (iso_fields s); [apply http_if; [|apply http_if]|]; first [apply http_err|apply http_ok]. Qed.
Lemma http_payout_date now s : http_only (payout_date now s).
Proof.
  unfold payout_date. apply http_if; [apply http_err|]. destruct (iso_fields s); [apply http_if|]; first [apply http_err|apply http_ok].
Qed.
Lemma http_versionInput v b : http_only (versionInput v b).
Proof. unfold versionInput. destruct v; apply http_if; first [apply http_err|apply http_ok]. Qed.
Create HintDb http.
#[export] Hint Resolve http_ok http_bind http_if http_err http_amount http_text http_evidence http_version http_date http_payout_date
  http_versionInput : http.

Lemma http_allocations items : http_only (check_allocations items).
Proof. induction items as [|i items IH]; simpl; eauto 8 with http. Qed.
Lemma http_lines lines : http_only (check_return_lines lines).
Proof. induction lines as [|l lines IH]; simpl; eauto 9 with http. Qed.
#[export] Hint Resolve http_allocations http_lines : http.

Lemma prepare_http cuid hash fold now now1 c cmd ctx : http_only (prepare cuid hash fold now now1 c cmd ctx).
Proof.
  destruct cmd; simpl; repeat (apply http_bind; [by eauto with http|intros ?]); by eauto with http.
Qed.
Lemma key_http s : http_only (normalizeIdempotencyKey s).
Proof. apply http_if; [apply http_err|apply http_ok]. Qed.
Lemma credit_error_http e : is_http (credit_error e) = true.
Proof. destruct e as [k c m|code m|cls m]; simpl; try done. by case_bool_decide. Qed.

(** The calls answer with HTTP errors only. *)
Lemma run_http cuid hash fold E now now1 c cmd ctx s : http_only (fst (run_credit cuid hash fold E now now1 c cmd ctx s)).
Proof.
  unfold run_credit. pose proof (prepare_http cuid hash fold now now1 c cmd ctx) as Hp. destruct (prepare _ _ _ _ _ _ _ _) as [p|e].
  2: { intros e' [= <-]. by apply Hp. }
  unfold executeCommand. pose proof (key_http (cx_idempotencyKey ctx)) as Hk. destruct (normalizeIdempotencyKey _) as [key|e]; [|].
  - destruct (_ || _); [apply http_err|]. destruct (withSerializableRetry _ _ _ _ _ _) as [[r|e] s']; [apply http_ok|].
    intros e' [= <-]. apply credit_error_http.
  - intros e' [= <-]. by apply Hk.
Qed.

(** A unique-constraint error never reaches the catch clause: it counts as contention,
    is retried, and is replaced when the attempts are used up. *)
Lemma retry_error {S A} (E : env S) retryable exhausted (m : M S A) n k s e s' :
  retry_loop E retryable exhausted m (Datatypes.S n) k s = (Err e, s') -> e = exhausted \/ retryable e = false.
Proof.
  revert k s. induction n as [|n IH]; intros k s H; cbn [retry_loop] in H; destruct (attempt_tx E k m s) as [[a|e1] s1]; try done;
    destruct (retryable e1) eqn:Hr; try (injection H as <- _; by right).
  - rewrite bool_decide_true in H by done. injection H as <- _. by left.
  - rewrite bool_decide_false in H by done. by eapply IH.
Qed.

Lemma unique_errors_retried {S A} (E : env S) (m : M S A) isContention message attempts s meta s' :
  withSerializableRetry E m isContention message attempts s <> (Err (PrismaClientKnownRequestError "P2002" meta), s').
Proof.
  unfold withSerializableRetry. assert (exists n, Z.to_nat (Z.max 1 attempts) = Datatypes.S n) as [n ->].
  { exists (Z.to_nat (Z.max 1 attempts) - 1)%nat. lia. }
  intros H. apply retry_error in H as [H|H]; [done|]. by rewrite orb_true_r in H.
Qed.
