(* ===== verification/CreditProperties.v ===== *)
(** The properties of customer credit: safe commands on balanced books, the approval of
    a credit sale, and its compensation, with witnesses. *)

From S2P Require Import Prelude Decimals Table Json StableJson AuditTrail Retry InventoryModel Inventory.
From S2P Require Import InventoryLedger InventoryProofs Durable DurableSafety StateMachine IsoTime Paging.
From S2P Require Import Credit CreditCommands CreditSales CreditService CreditBooks CreditRuns CreditPostings CreditBodies.
From S2P Require Import CreditSaleProofs CreditReturnProofs CreditSafety InventoryProperties.

(** * Histories *)

(** Books without any document. *)
Lemma books_ok_start t : accounts_ok (accounts t) -> documents t = ∅ -> receipts t = ∅ -> entries t = ∅ -> sale_returns t = ∅ ->
  payouts t = ∅ -> books_ok t.
Proof.
  intros HA D R E S Y. split; rewrite ?D, ?R, ?E, ?S, ?Y; try (intros id x H; by rewrite lookup_empty in H); [done|..].
  - intros id k1 k2 e1 e2 H. by rewrite lookup_empty in H.
  - intros o k1 k2 e1 e2 H. by rewrite lookup_empty in H.
  - intros a. unfold account_total, sum_entries. rewrite E, tsum_empty. done.
Qed.

(** Histories of credit commands and of other clients that keep the invariants, from
    empty books. *)
Inductive credit_history (cuid : nat -> string) (hash fold : string -> string) : credit_store -> Prop :=
  | history_start s : inv (inv_of (domain s)) -> accounts (own (domain s)) = ∅ -> documents (own (domain s)) = ∅ ->
      receipts (own (domain s)) = ∅ -> entries (own (domain s)) = ∅ -> sale_returns (own (domain s)) = ∅ ->
      payouts (own (domain s)) = ∅ -> records s = ∅ -> credit_history cuid hash fold s
  | history_other s s' : credit_history cuid hash fold s -> store_ok books_ok s' -> store_evolves s s' -> credit_history cuid hash fold s'
  | history_command s E now now1 c cmd ctx : credit_history cuid hash fold s -> store_rely books_ok E ->
      credit_history cuid hash fold (snd (run_credit cuid hash fold E now now1 c cmd ctx s)).

Lemma credit_history_ok cuid hash fold s : credit_history cuid hash fold s -> store_ok books_ok s.
Proof.
  induction 1 as [s Hinv HA D R Hen S Y Hrec|s s' _ IH Hok _|s E now now1 c cmd ctx _ IH HE]; [|done|].
  - split; [done|]. split; [|rewrite Hrec; apply records_ok_empty]. apply books_ok_start; [|done..]. rewrite HA.
    split; [intros id a H; by rewrite lookup_empty in H|]. split; [intros k k1 k2 a1 a2 H|intros id a H]; by rewrite lookup_empty in H.
  - pose proof (credit_outcome cuid hash fold E now now1 c cmd ctx s HE IH) as H. cbv zeta in H.
    destruct (credit_identity _ _ _ _ _ _ _ _); [apply H|]. by destruct H as [-> _].
Qed.

(** Balanced books: the deferred check of the database accepts every account; no
    document owes less than nothing or more than its principal; what an account owes is
    the sum over its documents; refunds are paid out within what compensations owe. *)
Definition books_balanced (t : CreditTables) : Prop :=
  (forall target, credit_account_reconcile target t = true) /\
  (forall id d, documents t !! id = Some d -> (0 <= outstanding t d <= principal t d)%Z /\ (principal t d <= MAX_CREDIT_IRR)%Z) /\
  (forall a, account_total a t = sumZ (outstanding t) (account_documents a t) /\ (0 <= account_total a t <= MAX_CREDIT_IRR)%Z) /\
  (forall id r, sale_returns t !! id = Some r ->
     sr_amount r = (sr_debtCredit r + sr_refundDue r)%Z /\ (payouts_of id t <= sr_refundDue r)%Z).

Lemma books_ok_balanced t : books_ok t -> books_balanced t.
Proof.
  intros Hok. split; [intros target; by apply books_reconcile|]. split; [|split].
  - intros id d Hd. destruct (bk_balance t Hok id d Hd). pose proof (outstanding_le_principal t Hok d). lia.
  - intros a. rewrite account_total_documents by done. split; [done|].
    pose proof (account_total_nonneg a t Hok). pose proof (bk_total t Hok a). rewrite <- account_total_documents in * by done. lia.
  - intros id r Hr. destruct (bk_returns t Hok id r Hr) as [<- (d & _ & _ & _ & H1 & _ & H2)]. by split.
Qed.

(** * Properties *)

(** [C26] Credit commands are safe.  In every history of credit commands and of other
    clients that keep the invariants, the books balance: the database's own deferred check
    accepts every account, nothing owed is negative or above its principal or above
    2^63-1, and refunds stay within what compensations owe.  The next command, among other
    clients, changes nothing when its input is refused; otherwise its success committed
    exactly once, from the record of its key with nothing changed or by adding evidence
    and never altering any, and an error, always an HTTP error, leaves nothing behind. *)
Theorem credit_commands_safe cuid hash fold (E : env credit_store) now now1 c cmd ctx s :
  credit_history cuid hash fold s -> store_rely books_ok E ->
  books_balanced (own (domain s)) /\
  let out := run_credit cuid hash fold E now now1 c cmd ctx s in
  match credit_identity cuid hash fold now now1 c cmd ctx with
  | Some id => durable_outcome books_ok grows E id s out
  | None => snd out = s /\ is_ok (fst out) = false
  end /\
  books_balanced (own (domain (snd out))) /\ (forall e, fst out = Err e -> is_http e = true).
Proof.
  intros Hs HE. split; [by eapply books_ok_balanced, credit_history_ok|]. cbv zeta. split; [|split].
  - apply credit_outcome; [done|by eapply credit_history_ok].
  - by eapply books_ok_balanced, credit_history_ok, history_command.
  - apply run_http.
Qed.

(** [C27] Approving a credit sale.  A success consumes every reservation of the order and
    ships exactly its stock; the order was pending payment and is now a credit sale with a
    pending fulfillment; its whole total became one new document that owes it in full, due
    after the account's terms; the account, active and of the order's customer, owes
    exactly that much more and stays within its limit; the reserved goods were active,
    unexpired and exactly the ordered ones; and the books stay sound. *)
Theorem credit_sale_exact cuid now c oid input ctx d r d' :
  inv (inv_of d) -> books_ok (own d) -> approve_tx cuid now c oid input ctx d = Ok (r, d') ->
  order_shipped oid (inv_of d) (inv_of d') /\ sale_made now c oid d d' /\ books_ok (own d').
Proof.
  intros Hinv Hok H. apply sale_tx_ok in H as (H1 & H2 & _ & H3); [|done..]. by split_and!.
Qed.

(** [C28] Compensating a credit sale.  A cancellation before dispatch or a return after a
    proven delivery takes back lines that together never exceed what was sold; its amount
    is the value of the lines at their original prices; it credits what the document still
    owes first, and only the rest is due for refund; every line is backed by a movement of
    exactly its goods.  The stock gains exactly the goods of the lines in their order,
    except of a line whose key (the digest of the new return's identifier and the line's
    number) a movement bears already; when these keys are new and differ, it gains exactly
    all lines.  When everything came back the order and its fulfillment are cancelled or
    returned, otherwise their states stay; and the books stay sound. *)
Theorem credit_compensation_exact cuid hash fold now c oid kind v ov ref rs requested ctx d r d' :
  inv (inv_of d) -> books_ok (own d) -> compensate_tx cuid hash fold now c oid kind v ov ref rs requested ctx d = Ok (r, d') ->
  books_ok (own d') /\ grows (own d) (own d') /\
  exists order x f row lines, compensated hash kind c oid requested d d' order x f row lines.
Proof. apply compensate_tx_ok. Qed.

(** * Witnesses *)

Definition credit_ctx : CreditContext := mkCreditContext "admin" "req-1" "key-1".
Definition later_ctx : CreditContext := mkCreditContext "admin" "req-2" "key-2".
Definition demo_order : CreditOrder :=
  mkOrder "o1" "IY-1" "cust" 0 0 0 300 90 [mkOrderLine "i1" "v1" 3 100 300] [] ["s1"] None None None.
Definition demo_tables (m : gmap string CreditAccount) : CreditTables :=
  mkCreditTables {["cust" := mkCustomer "cust" None CUSTOMER_ACTIVE]} m ∅ ∅ ∅ ∅ ∅ {["o1" := demo_order]}
    (mkStatusDb {["o1" := PENDING_PAYMENT]} []) ∅ (mkStatusDb ∅ []).
Definition demo_account : CreditAccount := mkAccount "acc" "cust" CREDIT_ACTIVE 1000 30 0.
Definition demo_store : credit_store := mkStore (mkDomain demo_places (demo_tables ∅)) ∅.
Definition demo_sale : Domain CreditTables := mkDomain demo_places (demo_tables {["acc" := demo_account]}).
Definition quiet_env : env credit_store := mkEnv (fun _ s => s) (fun _ => None).

Lemma quiet_env_rely : store_rely books_ok quiet_env.
Proof. intros k s Hs. by split. Qed.
Lemma demo_store_history cuid hash fold : credit_history cuid hash fold demo_store.
Proof. apply history_start; [exact demo_places_inv|done..]. Qed.
Lemma demo_sale_books : books_ok (own demo_sale).
Proof.
  apply books_ok_start; [|done..]. unfold demo_sale, demo_tables. cbn [own accounts]. split; [|split].
  - intros id a [<- <-]%lookup_singleton_Some. done.
  - intros c k1 k2 a1 a2 [<- <-]%lookup_singleton_Some [<- <-]%lookup_singleton_Some. done.
  - intros id a [<- <-]%lookup_singleton_Some. done.
Qed.

Definition demo_policy : CreditCommand := Policy (mkPolicyRequest None CREDIT_ACTIVE "1000" (Int 30)).
Definition demo_run := run_credit demo_cuid id id quiet_env 10 10 "cust" demo_policy credit_ctx demo_store.

Lemma credit_commands_safe_witness :
  is_ok (fst demo_run) = true /\ books_balanced (own (domain (snd demo_run))).
Proof.
  split; [vm_compute; reflexivity|].
  destruct (credit_commands_safe demo_cuid id id quiet_env 10 10 "cust" demo_policy credit_ctx demo_store
    (demo_store_history _ _ _) quiet_env_rely) as (_ & _ & H & _). exact H.
Defined.

Definition demo_approve := approve_tx demo_cuid 50 "cust" "o1" (mkSaleRequest (Int 0) (Int 0)) credit_ctx demo_sale.
Definition demo_sold : Domain CreditTables := match demo_approve with Ok (_, d) => d | Err _ => demo_sale end.

Lemma credit_sale_exact_witness :
  is_ok demo_approve = true /\ sale_made 50 "cust" "o1" demo_sale demo_sold.
Proof.
  split; [vm_compute; reflexivity|]. unfold demo_sold. destruct demo_approve as [[r d]|e] eqn:E.
  - exact (proj1 (proj2 (credit_sale_exact demo_cuid 50 "cust" "o1" _ credit_ctx demo_sale r d demo_places_inv demo_sale_books E))).
  - vm_compute in E. discriminate E.
Defined.

Lemma demo_sold_ok : inv (inv_of demo_sold) /\ books_ok (own demo_sold).
Proof.
  unfold demo_sold. destruct demo_approve as [[r d]|e] eqn:E; [|by vm_compute in E].
  apply sale_tx_ok in E as ([(Hinv & _) _] & Hok & _); [by split|exact demo_places_inv|exact demo_sale_books].
Qed.

Definition demo_cancel := compensate_tx demo_cuid id id 60 "cust" "o1" COMP_CANCEL (Int 1) (Int 1) "receipt-7" "changed mind" [] later_ctx demo_sold.
Definition demo_cancelled : Domain CreditTables := match demo_cancel with Ok (_, d) => d | Err _ => demo_sold end.

Lemma credit_compensation_exact_witness :
  is_ok demo_cancel = true /\ (level demo_key (inv_of demo_cancelled)).1.1 = (level demo_key (inv_of demo_sale)).1.1 /\
  status_of_order "o1" (own demo_cancelled) = Some CANCELLED /\ used_keys (inv_of demo_sold) = ∅ /\
  exists order x f row lines, compensated id COMP_CANCEL "cust" "o1" [] demo_sold demo_cancelled order x f row lines.
Proof.
  split; [vm_compute; reflexivity|]. split; [vm_compute; reflexivity|]. split; [vm_compute; reflexivity|]. split; [vm_compute; reflexivity|].
  unfold demo_cancelled. destruct demo_cancel as [[r d]|e] eqn:E.
  - exact (proj2 (proj2 (credit_compensation_exact demo_cuid id id 60 "cust" "o1" COMP_CANCEL _ _ _ _ [] later_ctx demo_sold r d
      (proj1 demo_sold_ok) (proj2 demo_sold_ok) E))).
  - vm_compute in E. discriminate E.
Defined.
