(* ===== verification/PromotionCapacity.v ===== *)
(** The capacity of promotions and coupons: how many uses a table row counts, and that
    reservation, confirmation, release and refund keep the count equal to the redemptions
    that hold a use. *)

From S2P Require Import Prelude Table Json AuditTrail InventoryModel Inventory InventoryLedger InventoryProofs.
From S2P Require Import Durable DurableSafety PromotionEngine PromotionClaims.

(** * Rows with slots

    A row [x] with the key [id] counts [used x] uses of at most [max x]; the redemptions
    that [holds id] hold one each. *)

Definition holds_promotion (id : string) (r : PromotionRedemption) : bool := bool_decide (re_promotionId r = id) && counted r.
Definition holds_coupon (id : string) (r : PromotionRedemption) : bool := bool_decide (re_couponId r = Some id) && counted r.

Definition fits (max : option Z) (used : Z) : Prop := forall m, max = Some m -> (used <= m)%Z.

Lemma alter_Some {A} (f : A -> A) (m : gmap string A) i x : m !! i = Some x -> alter f i m = <[i := f x]> m.
Proof. intros H. rewrite <- (insert_id m i x H) at 1. apply alter_insert_eq. Qed.

Section slots.
Context {R : Type} (used : R -> Z) (max : R -> option Z) (with_count : Z -> R -> R) (holds : string -> PromotionRedemption -> bool).
Context (used_with : forall n x, used (with_count n x) = n) (max_with : forall n x, max (with_count n x) = max x).

Definition slots_ok (t : gmap string R) (rs : gmap string PromotionRedemption) : Prop :=
  forall id x, truthy id = true -> t !! id = Some x -> used x = count_rows (holds id) rs /\ fits (max x) (used x).

(** [n] more uses of the row [id]. *)
Definition bump (n : Z) (id : string) (t : gmap string R) : gmap string R := alter (fun x => with_count (used x + n) x) id t.

Lemma slots_redemptions t rs rs' : (forall id, truthy id = true -> count_rows (holds id) rs' = count_rows (holds id) rs) ->
  slots_ok t rs -> slots_ok t rs'.
Proof using. intros E H id x Hid Hx. rewrite E by done. by apply H. Qed.

Lemma slots_bump t rs rs' n id0 :
  slots_ok t rs ->
  (forall id, truthy id = true -> count_rows (holds id) rs' = (count_rows (holds id) rs + if bool_decide (id = id0) then n else 0)%Z) ->
  (forall x, t !! id0 = Some x -> (n <= 0)%Z \/ fits (max x) (used x + n)) ->
  slots_ok (bump n id0 t) rs'.
Proof using max_with used_with.
  intros H E Hfit id x Hid Hx. unfold bump in Hx. rewrite E by done. destruct (decide (id = id0)) as [->|Hne].
  - rewrite bool_decide_true by done. rewrite lookup_alter in Hx. rewrite decide_True in Hx by done.
    apply fmap_Some in Hx as (y & Hy & ->). rewrite used_with, max_with. destruct (H id0 y Hid Hy) as [H1 H2]. split; [lia|].
    destruct (Hfit y Hy) as [Hn|Hf]; [|done]. intros m Hm. specialize (H2 m Hm). lia.
  - rewrite bool_decide_false by done. rewrite lookup_alter_ne in Hx by done. destruct (H id x Hid Hx). split; [lia|done].
Qed.

Lemma is_Some_bump n id0 t id : is_Some (bump n id0 t !! id) <-> is_Some (t !! id).
Proof using. unfold bump. apply lookup_alter_is_Some. Qed.
End slots.

Lemma exhausted_fits max used : exhausted max used = false -> fits max (used + 1).
Proof. unfold exhausted. intros H m ->. apply Z.leb_gt in H. lia. Qed.

Definition bump_promotion (n : Z) (id : string) (t : PromoTables) : PromoTables :=
  set_promotions (bump pm_usedCount with_used n id (promotions t)) t.
Definition bump_coupon (n : Z) (id : option string) (t : PromoTables) : PromoTables :=
  match id with
  | Some id => if truthy id then set_coupons (bump cn_usedCount with_coupon_used n id (coupons t)) t else t
  | None => t
  end.
(** [n] more uses of a promotion and, when it came with one, of its coupon. *)
Definition bump_uses (n : Z) (promotionId : string) (couponId : option string) (t : PromoTables) : PromoTables :=
  bump_coupon n couponId (bump_promotion n promotionId t).

Lemma bump_uses_redemptions n p c t : redemptions (bump_uses n p c t) = redemptions t.
Proof. unfold bump_uses, bump_coupon. destruct c as [c|]; [|done]. by destruct (truthy c). Qed.

(** * The invariant *)

(** A redemption refers to its promotion and coupon, and gives back at most its discount. *)
Definition redemption_ok (t : PromoTables) (id : string) (r : PromotionRedemption) : Prop :=
  re_id r = id /\ is_Some (promotions t !! re_promotionId r) /\
  (forall c, re_couponId r = Some c -> truthy c = true -> is_Some (coupons t !! c)) /\
  (0 <= re_refundedDiscount r <= re_discountAmount r)%Z /\
  (re_status r = RED_REFUNDED -> re_refundedDiscount r = re_discountAmount r).

Record promo_ok (t : PromoTables) : Prop := {
  pk_ids : forall id p, promotions t !! id = Some p -> pm_id p = id /\ truthy id = true;
  pk_promotions : slots_ok pm_usedCount pm_maxRedemptions holds_promotion (promotions t) (redemptions t);
  pk_coupons : slots_ok cn_usedCount cn_maxRedemptions holds_coupon (coupons t) (redemptions t);
  pk_redemptions : forall id r, redemptions t !! id = Some r -> redemption_ok t id r
}.

(** No customer is above the limit of a promotion. *)
Definition customer_limits (t : PromoTables) : Prop :=
  forall id p c, promotions t !! id = Some p -> fits (pm_perCustomerLimit p) (customerUsage t id c None).

(** * Writes *)

(** One redemption row changes or appears; its uses are counted where they belong. *)
Definition uses_change (n : Z) (rs rs' : gmap string PromotionRedemption) (p : string) (c : option string) : Prop :=
  (forall id, count_rows (holds_promotion id) rs' = count_rows (holds_promotion id) rs + if bool_decide (id = p) then n else 0)%Z /\
  (forall id, count_rows (holds_coupon id) rs' = count_rows (holds_coupon id) rs + if bool_decide (Some id = c) then n else 0)%Z.

Definition uses_of (r : PromotionRedemption) : Z := if counted r then 1 else 0.

Lemma uses_change_new rs id r : rs !! id = None -> uses_change (uses_of r) rs (<[id := r]> rs) (re_promotionId r) (re_couponId r).
Proof.
  intros H. unfold uses_of. split; intros x; rewrite count_rows_insert by done; f_equal; unfold holds_promotion, holds_coupon;
    repeat case_bool_decide; simpl; try congruence; by destruct (counted r).
Qed.

(** The terms of a redemption that no later step changes. *)
Definition same_terms (r r' : PromotionRedemption) : Prop :=
  re_id r' = re_id r /\ re_promotionId r' = re_promotionId r /\ re_couponId r' = re_couponId r /\ re_orderId r' = re_orderId r /\
  re_customerId r' = re_customerId r /\ re_discountAmount r' = re_discountAmount r.

Lemma uses_change_update rs id r r' : rs !! id = Some r -> same_terms r r' ->
  uses_change (uses_of r' - uses_of r) rs (<[id := r']> rs) (re_promotionId r) (re_couponId r).
Proof.
  intros H (_ & Hp & Hc & _). unfold uses_of. split; intros x; rewrite (count_rows_replace _ _ _ r) by done;
    unfold holds_promotion, holds_coupon; rewrite ?Hp, ?Hc; repeat case_bool_decide; simpl; try congruence;
    destruct (counted r), (counted r'); lia.
Qed.

Lemma bump_pm_id n id0 m id p : bump pm_usedCount with_used n id0 m !! id = Some p ->
  exists q, m !! id = Some q /\ pm_id p = pm_id q /\ pm_perCustomerLimit p = pm_perCustomerLimit q /\ pm_maxRedemptions p = pm_maxRedemptions q /\
    pm_usedCount p = (pm_usedCount q + if bool_decide (id = id0) then n else 0)%Z.
Proof.
  unfold bump. intros H. destruct (decide (id = id0)) as [->|Hne].
  - rewrite lookup_alter, decide_True in H by done. apply fmap_Some in H as (q & Hq & ->). exists q. rewrite bool_decide_true by done. by split_and!.
  - rewrite lookup_alter_ne in H by done. exists p. rewrite bool_decide_false by done. split_and!; [done..|lia].
Qed.

(** The tables after a redemption changed by [n] uses of [p] and [c]. *)
Lemma promo_ok_write t n p c rs' :
  promo_ok t -> uses_change n (redemptions t) rs' p c ->
  ((n <= 0)%Z \/ (forall x, promotions t !! p = Some x -> exhausted (pm_maxRedemptions x) (pm_usedCount x) = false) /\
     (forall id x, c = Some id -> truthy id = true -> coupons t !! id = Some x -> exhausted (cn_maxRedemptions x) (cn_usedCount x) = false) /\ n = 1%Z) ->
  (forall id r, rs' !! id = Some r -> redemption_ok t id r) ->
  promo_ok (set_redemptions rs' (bump_uses n p c t)).
Proof.
  intros [Hid Hp Hc Hr] [Hup Huc] Hn Hrs. unfold bump_uses.
  assert (Hcs : coupons (bump_coupon n c (bump_promotion n p t)) = match c with Some c => if truthy c then bump cn_usedCount with_coupon_used n c (coupons t)
    else coupons t | None => coupons t end) by (unfold bump_coupon; destruct c as [c|]; [destruct (truthy c)|]; done).
  assert (Hps : promotions (bump_coupon n c (bump_promotion n p t)) = bump pm_usedCount with_used n p (promotions t))
    by (unfold bump_coupon; destruct c as [c|]; [destruct (truthy c)|]; done).
  split; cbn [set_redemptions promotions coupons redemptions]; rewrite ?Hcs, ?Hps.
  - intros id q H. apply bump_pm_id in H as (q' & H & -> & _). by apply (Hid id q').
  - apply (slots_bump pm_usedCount pm_maxRedemptions with_used holds_promotion (fun n x => eq_refl) (fun n x => eq_refl) _ (redemptions t));
      [done|intros id _; apply Hup|].
    intros x Hx. destruct Hn as [Hn|(H1 & _ & ->)]; [by left|]. right. by apply exhausted_fits, H1.
  - assert (Hskip : (forall id, truthy id = true -> Some id <> c) -> slots_ok cn_usedCount cn_maxRedemptions holds_coupon (coupons t) rs').
    { intros Hne. eapply slots_redemptions; [|exact Hc]. intros id Ht. rewrite Huc, bool_decide_false by (by apply Hne). lia. }
    destruct c as [c|]; [|by apply Hskip]. destruct (truthy c) eqn:Ht; [|apply Hskip; intros id H [= ->]; congruence].
    apply (slots_bump cn_usedCount cn_maxRedemptions with_coupon_used holds_coupon (fun n x => eq_refl) (fun n x => eq_refl) _ (redemptions t));
      [done| |].
    + intros id _. rewrite Huc. repeat case_bool_decide; congruence.
    + intros x Hx. destruct Hn as [Hn|(_ & H2 & ->)]; [by left|]. right. by eapply exhausted_fits, H2.
  - intros id r H. destruct (Hrs id r H) as (H1 & H2 & H3 & H4). split; [done|].
    cbn [set_redemptions promotions coupons]. rewrite Hcs, Hps. split; [by apply is_Some_bump|]. split; [|done].
    intros c' E Ht. specialize (H3 c' E Ht). destruct c as [c|]; [|done]. destruct (truthy c); [|done]. by apply is_Some_bump.
Qed.

(** The same when no use moves. *)
Lemma promo_ok_rows t rs' : promo_ok t ->
  (forall id, count_rows (holds_promotion id) rs' = count_rows (holds_promotion id) (redemptions t)) ->
  (forall id, count_rows (holds_coupon id) rs' = count_rows (holds_coupon id) (redemptions t)) ->
  (forall id r, rs' !! id = Some r -> redemption_ok t id r) -> promo_ok (set_redemptions rs' t).
Proof.
  intros [Hid Hp Hc Hr] E1 E2 Hrs. split; cbn [set_redemptions promotions coupons redemptions]; [done|..|done];
    (eapply slots_redemptions; [intros; first [apply E1|apply E2]|done]).
Qed.

(** * Reservation *)

(** The row that a reservation writes. *)
Definition reserved_row (id orderId customerId : string) (p : Promotion) (a : AppliedPromotion) : PromotionRedemption :=
  mkRedemption id (ap_promotionId a) (ap_couponId a) orderId customerId RED_RESERVED (ap_itemDiscount a + ap_shippingDiscount a)
    (ap_shippingDiscount a) 0 (redemption_snapshot p a) None None None.

Definition kept_stock (d d' : Domain PromoTables) : Prop := same_stock (inv_of d) (inv_of d').

Section reservation.
Context (cuid : nat -> string).
Implicit Types (d : Domain PromoTables).

Lemma claim_promotion_ok id d n d' : claim_promotion id d = Ok (n, d') -> n = 1%Z ->
  exists p, promotions (own d) !! id = Some p /\ pm_isActive p = true /\ exhausted (pm_maxRedemptions p) (pm_usedCount p) = false /\
    d' = mkDomain (inv_of d) (bump_promotion 1 id (own d)).
Proof.
  intros H Hn. unfold claim_promotion in H. run_inv. destruct (promotions (own d) !! id) as [p|] eqn:Hp; [|by run_inv].
  destruct (pm_isActive p) eqn:Ha; [|by run_inv]. destruct (exhausted _ _) eqn:He; [by run_inv|]. simpl in H. run_domain.
  exists p. split_and!; try done. unfold bump_promotion, bump. by rewrite (alter_Some _ _ _ p).
Qed.
Lemma claim_coupon_ok id d n d' : claim_coupon id d = Ok (n, d') -> n = 1%Z -> truthy id = true ->
  exists c, coupons (own d) !! id = Some c /\ cn_isActive c = true /\ exhausted (cn_maxRedemptions c) (cn_usedCount c) = false /\
    d' = mkDomain (inv_of d) (bump_coupon 1 (Some id) (own d)).
Proof.
  intros H Hn Ht. unfold claim_coupon in H. run_inv. destruct (coupons (own d) !! id) as [c|] eqn:Hc; [|by run_inv].
  destruct (cn_isActive c) eqn:Ha; [|by run_inv]. destruct (exhausted _ _) eqn:He; [by run_inv|]. simpl in H. run_domain.
  exists c. split_and!; try done. unfold bump_coupon, bump. by rewrite Ht, (alter_Some _ _ _ c).
Qed.

Lemma create_redemption_ok p a oid cid d u d' : create_redemption cuid p a oid cid d = Ok (u, d') ->
  exists id, redemptions (own d) !! id = None /\
    find_by (fun r => bool_decide (re_promotionId r = ap_promotionId a) && bool_decide (re_orderId r = oid)) (redemptions (own d)) = None /\
    (0 <= ap_itemDiscount a + ap_shippingDiscount a)%Z /\ kept_stock d d' /\
    own d' = set_redemptions (<[id := reserved_row id oid cid p a]> (redemptions (own d))) (own d).
Proof.
  intros H. unfold create_redemption in H. run_inv.
  match goal with H : on_inv _ _ = _ |- _ => apply quiet_fresh in H as [E1 Q1] end. run_part.
  match goal with H : modify _ _ = _ |- _ => injection H as _ <- end. rewrite E1 in *.
  match goal with H : negb _ = false |- _ => apply negb_false_iff in H; apply andb_prop in H as [[Hd%Z.leb_le _]%andb_prop _] end.
  match goal with H : (_ || _)%bool = false |- _ => apply orb_false_iff in H as [G1%bool_decide_eq_false%eq_None_not_Some G2%bool_decide_eq_false%eq_None_not_Some] end.
  eexists. split_and!; [exact G1|exact G2|exact Hd|exact Q1|done].
Qed.

(** The uses of a customer. *)
Definition held_by (id c : string) (r : PromotionRedemption) : bool :=
  bool_decide (re_promotionId r = id) && bool_decide (re_customerId r = c) && counted r.
Lemma customerUsage_held t id c : customerUsage t id c None = count_rows (held_by id c) (redemptions t).
Proof. unfold customerUsage. apply count_rows_ext. intros k r _. unfold held_by. simpl. by rewrite andb_true_r. Qed.

Lemma limits_write t n p c rs' : customer_limits t ->
  (forall id x k, promotions t !! id = Some x -> fits (pm_perCustomerLimit x) (count_rows (held_by id k) (redemptions t)) ->
     fits (pm_perCustomerLimit x) (count_rows (held_by id k) rs')) ->
  customer_limits (set_redemptions rs' (bump_uses n p c t)).
Proof.
  intros H Hle id x k Hx.
  assert (Hps : promotions (set_redemptions rs' (bump_uses n p c t)) = bump pm_usedCount with_used n p (promotions t))
    by (unfold bump_uses, bump_coupon; destruct c as [c|]; [destruct (truthy c)|]; done).
  rewrite Hps in Hx. apply bump_pm_id in Hx as (q & Hq & _ & -> & _). rewrite customerUsage_held. apply (Hle id q k Hq).
  rewrite <- customerUsage_held. by apply H.
Qed.

(** One applied promotion takes one use of its promotion and coupon. *)
Definition reserved_one (oid cid : string) (a : AppliedPromotion) (r : PromotionRedemption) d d' : Prop :=
  (exists p, promotions (own d) !! ap_promotionId a = Some p /\ pm_isActive p = true /\ r = reserved_row (re_id r) oid cid p a) /\
  redemptions (own d) !! re_id r = None /\ kept_stock d d' /\
  own d' = set_redemptions (<[re_id r := r]> (redemptions (own d))) (bump_uses 1 (ap_promotionId a) (ap_couponId a) (own d)).

Lemma reserve_one_ok oid cid a d u d' : promo_ok (own d) -> reserve_one cuid oid cid a d = Ok (u, d') ->
  promo_ok (own d') /\ (customer_limits (own d) -> customer_limits (own d')) /\ exists r, reserved_one oid cid a r d d'.
Proof.
  intros Hok H. unfold reserve_one in H. run_inv.
  match goal with H : claim_promotion _ _ = Ok (_, _), G : negb (bool_decide (_ = 1%Z)) = false |- _ =>
    apply claim_promotion_ok in H as (p & Hp & Ha & He & ->); [|by apply negb_false_iff, bool_decide_eq_true in G] end.
  rewrite Hp in *. match goal with H : Some _ = Some _ |- _ => injection H as <- end.
  match goal with H : create_redemption _ _ _ _ _ ?d1 = _ |- _ => rename d1 into d2; apply create_redemption_ok in H as (rid & Hn & _ & Hd & Hq & E) end.
  assert (Hc : inv_of d2 = inv_of d /\ own d2 = bump_uses 1 (ap_promotionId a) (ap_couponId a) (own d) /\
    (forall c y, ap_couponId a = Some c -> truthy c = true -> coupons (own d) !! c = Some y -> exhausted (cn_maxRedemptions y) (cn_usedCount y) = false) /\
    forall c, ap_couponId a = Some c -> truthy c = true -> is_Some (coupons (own d) !! c)).
  { unfold bump_uses. destruct (ap_couponId a) as [c|]; [|run_inv; by split_and!].
    destruct (truthy c) eqn:Ht; [|run_inv; split_and!; [done|by unfold bump_coupon; rewrite Ht|congruence..]]. run_inv.
    match goal with H : claim_coupon _ _ = Ok (_, _), G : negb (bool_decide (_ = 1%Z)) = false |- _ =>
      apply claim_coupon_ok in H as (y & Hy & _ & Hcx & ->); [|by apply negb_false_iff, bool_decide_eq_true in G|done] end.
    cbn [own bump_promotion set_promotions coupons] in Hy.
    split_and!; [done..| |]; intros c' *; [intros [= <-] _ Hx; congruence|intros [= <-] _; by eexists]. }
  destruct Hc as (Hi & Ho & Hcx & Hcs).
  assert (Er : redemptions (own d2) = redemptions (own d)) by (rewrite Ho; apply bump_uses_redemptions).
  rewrite Er, Ho in *. set (row := reserved_row rid oid cid p a) in *.
  assert (Hrow : reserved_one oid cid a row d d').
  { split; [by exists p|]. split; [done|]. split; [unfold kept_stock in *; by rewrite <- Hi|]. done. }
  split; [|split; [|by exists row]].
  - rewrite E. eapply promo_ok_write.
    + done.
    + exact (uses_change_new _ rid row Hn).
    + right. split_and!; [intros y; rewrite Hp; by intros [= <-]|exact Hcx|done].
    + intros k r [[<- <-]|[Hne Hr]]%lookup_insert_Some; [|by apply (pk_redemptions _ Hok)].
      split; [done|]. split; [by eexists|]. split; [|split; [|done]]; [|by simpl].
      intros c Hca Ht. by apply Hcs.
  - intros Hl. rewrite E. apply limits_write; [done|]. intros k y c Hy Hf. rewrite count_rows_insert by done.
    unfold held_by at 2. cbn [re_promotionId re_customerId row reserved_row].
    destruct (bool_decide (ap_promotionId a = k) && bool_decide (cid = c)) eqn:Ek; simpl; [|intros m Hm; specialize (Hf m Hm); lia].
    apply andb_prop in Ek as [E1%bool_decide_eq_true E2%bool_decide_eq_true]. subst k c.
    rewrite Hp in Hy. injection Hy as <-. rewrite <- customerUsage_held. apply exhausted_fits.
    rewrite <- (proj1 (pk_ids _ Hok _ _ Hp)). done.
Qed.

(** All of them: one new redemption for each, and nothing else. *)
Definition add_redemptions (rs : list PromotionRedemption) (m : gmap string PromotionRedemption) : gmap string PromotionRedemption :=
  foldl (fun m r => <[re_id r := r]> m) m rs.

Lemma reserve_ok oid cid result d u d' : promo_ok (own d) -> reserve cuid oid cid result d = Ok (u, d') ->
  promo_ok (own d') /\ (customer_limits (own d) -> customer_limits (own d')) /\ kept_stock d d' /\
  exists rs, redemptions (own d') = add_redemptions rs (redemptions (own d)) /\
    Forall2 (fun a r => exists p, r = reserved_row (re_id r) oid cid p a) (er_applied result) rs /\
    NoDup (re_id <$> rs) /\ Forall (fun r => redemptions (own d) !! re_id r = None) rs.
Proof.
  unfold reserve. revert d u. induction (er_applied result) as [|a l IH]; intros d u Hok H; simpl in H; run_inv.
  { split; [done|]. split; [done|]. split; [by unfold kept_stock|]. exists []. split_and!; by constructor. }
  match goal with H : reserve_one _ _ _ _ _ = _ |- _ => apply reserve_one_ok in H as (Hok1 & Hl1 & r & (p & _ & _ & Hr) & Hnone & Hq1 & E1); [|done] end.
  match goal with H : for_each _ _ _ = _ |- _ => apply IH in H as (Hok2 & Hl2 & Hq2 & rs & E2 & Hf & Hnd & Hnew); [|done] end.
  assert (Er : redemptions (own s) = <[re_id r := r]> (redemptions (own d))) by (by rewrite E1).
  rewrite Er in *.
  split; [done|]. split; [tauto|]. split; [by unfold kept_stock in *; etrans|]. exists (r :: rs). split_and!.
  - done.
  - constructor; [by exists p|done].
  - simpl. apply NoDup_cons. split; [|done]. intros (y & Ey & Hy)%list_elem_of_fmap. rewrite Forall_forall in Hnew.
    specialize (Hnew y Hy). rewrite <- Ey, lookup_insert_eq in Hnew. done.
  - constructor; [done|]. eapply Forall_impl; [exact Hnew|]. intros y Hy. by apply lookup_insert_None in Hy as [].
Qed.
End reservation.

(** * Settlement *)

(** The terms that settlement keeps of a row, whose uses do not grow. *)
Definition settles (r r' : PromotionRedemption) : Prop := same_terms r r' /\ (counted r' = true -> counted r = true).

(** One row of the list becomes [g] of it; the uses it gives up go back. *)
Definition row_step (g : PromotionRedemption -> PromotionRedemption) (r : PromotionRedemption) (d d' : Domain PromoTables) : Prop :=
  inv_of d' = inv_of d /\
  own d' = set_redemptions (<[re_id r := g r]> (redemptions (own d))) (bump_uses (uses_of (g r) - uses_of r) (re_promotionId r) (re_couponId r) (own d)).

Lemma customer_limits_settle t id r r' n p c : customer_limits t -> redemptions t !! id = Some r -> settles r r' ->
  customer_limits (set_redemptions (<[id := r']> (redemptions t)) (bump_uses n p c t)).
Proof.
  intros Hl Hr ((_ & E1 & _ & _ & E2 & _) & Hc). apply limits_write; [done|]. intros k y x Hy Hf m Hm. specialize (Hf m Hm).
  rewrite (count_rows_replace _ _ _ r) by done. unfold held_by at 2 3. rewrite E1, E2.
  destruct (_ && bool_decide (re_customerId r = x))%bool; simpl; [|lia]. destruct (counted r'), (counted r); (lia || naive_solver).
Qed.

Lemma row_step_ok g r d d' : promo_ok (own d) -> redemptions (own d) !! re_id r = Some r -> settles r (g r) ->
  ((0 <= re_refundedDiscount (g r) <= re_discountAmount r)%Z /\ (re_status (g r) = RED_REFUNDED -> re_refundedDiscount (g r) = re_discountAmount r)) ->
  row_step g r d d' -> promo_ok (own d') /\ (customer_limits (own d) -> customer_limits (own d')).
Proof.
  intros Hok Hr Hs Href [_ ->]. split.
  - apply promo_ok_write; [done| | |].
    + apply uses_change_update; [done|apply Hs].
    + left. unfold uses_of. destruct Hs as [_ Hs]. destruct (counted (g r)), (counted r); simpl; (lia || (specialize (Hs eq_refl); done)).
    + intros id x [[<- <-]|[Hne Hx]]%lookup_insert_Some; [|by apply (pk_redemptions _ Hok)].
      destruct (pk_redemptions _ Hok _ _ Hr) as (H1 & H2 & H3 & H4 & H5). destruct Hs as ((S1 & S2 & S3 & S4 & S5 & S6) & _).
      unfold redemption_ok. rewrite S1, S2, S3, S6. by destruct Href as [[? ?] ?]; split_and!.
  - intros Hl. by eapply customer_limits_settle.
Qed.

Inductive rows_run (g : PromotionRedemption -> PromotionRedemption) : list PromotionRedemption -> Domain PromoTables -> Domain PromoTables -> Prop :=
  | rows_done d : rows_run g [] d d
  | rows_next r rs d d1 d2 : row_step g r d d1 -> rows_run g rs d1 d2 -> rows_run g (r :: rs) d d2.

(** The rows with these ids become [g] of themselves. *)
Definition rewritten (g : PromotionRedemption -> PromotionRedemption) (ids : list string) (m m' : gmap string PromotionRedemption) : Prop :=
  forall id, m' !! id = (fun r => if bool_decide (id ∈ ids) then g r else r) <$> m !! id.

Definition good_step (g : PromotionRedemption -> PromotionRedemption) (r : PromotionRedemption) : Prop :=
  (0 <= re_refundedDiscount r <= re_discountAmount r)%Z -> (re_status r = RED_REFUNDED -> re_refundedDiscount r = re_discountAmount r) ->
  settles r (g r) /\ (0 <= re_refundedDiscount (g r) <= re_discountAmount r)%Z /\
  (re_status (g r) = RED_REFUNDED -> re_refundedDiscount (g r) = re_discountAmount r).

Lemma rows_run_ok g rs d d' : promo_ok (own d) -> NoDup (re_id <$> rs) ->
  (forall r, r ∈ rs -> redemptions (own d) !! re_id r = Some r /\ good_step g r) -> rows_run g rs d d' ->
  promo_ok (own d') /\ (customer_limits (own d) -> customer_limits (own d')) /\ inv_of d' = inv_of d /\
  rewritten g (re_id <$> rs) (redemptions (own d)) (redemptions (own d')).
Proof.
  intros Hok Hnd Hrs H. induction H as [d|r rs d d1 d2 Hstep Hrun IH].
  { split; [done|]. split; [done|]. split; [done|]. intros id. by destruct (redemptions (own d) !! id). }
  destruct (Hrs r) as [Hr Hg]; [by left|]. destruct (pk_redemptions _ Hok _ _ Hr) as (_ & _ & _ & R1 & R2).
  destruct (Hg R1 R2) as (Hs & Href). apply NoDup_cons in Hnd as [Hnin Hnd].
  assert (Er : redemptions (own d1) = <[re_id r := g r]> (redemptions (own d))) by (by destruct Hstep as [_ ->]).
  destruct (row_step_ok g r d d1 Hok Hr Hs Href Hstep) as [Hok1 Hl1].
  destruct IH as (Hok2 & Hl2 & Hi & Hw); [done|done| |].
  { intros y Hy. rewrite Er, lookup_insert_ne; [by apply Hrs; right|]. intros E. apply Hnin. rewrite E. by apply list_elem_of_fmap_2. }
  split; [done|]. split; [tauto|]. split; [destruct Hstep; congruence|]. intros id. rewrite Hw, Er.
  destruct (decide (id = re_id r)) as [->|Hne].
  - rewrite lookup_insert_eq, Hr. simpl. rewrite bool_decide_false by done. rewrite bool_decide_true by set_solver. done.
  - rewrite lookup_insert_ne by done. destruct (redemptions (own d) !! id); [|done]. simpl. f_equal.
    assert (Hiff : id ∈ re_id r :: (re_id <$> rs) <-> id ∈ re_id <$> rs) by set_solver. case_bool_decide; case_bool_decide; tauto.
Qed.

Lemma bump_uses_0 p c t : bump_uses 0 p c t = t.
Proof.
  assert (Hp : forall m : gmap string Promotion, bump pm_usedCount with_used 0 p m = m).
  { intros m. unfold bump. apply alter_id. intros x _. rewrite Z.add_0_r. by destruct x. }
  assert (Hc : forall c (m : gmap string Coupon), bump cn_usedCount with_coupon_used 0 c m = m).
  { intros k m. unfold bump. apply alter_id. intros x _. rewrite Z.add_0_r. by destruct x. }
  unfold bump_uses, bump_coupon, bump_promotion. destruct c as [c|]; [destruct (truthy c)|];
    cbn [set_promotions coupons]; rewrite ?Hp, ?Hc; by destruct t.
Qed.

Lemma row_step_same g r d : g r = r -> redemptions (own d) !! re_id r = Some r -> row_step g r d d.
Proof.
  intros E Hr. split; [done|]. rewrite E, Z.sub_diag, bump_uses_0, insert_id by done. by destruct (own d).
Qed.
Lemma row_step_keep g r d : uses_of (g r) = uses_of r ->
  row_step g r d (mkDomain (inv_of d) (set_redemptions (<[re_id r := g r]> (redemptions (own d))) (own d))).
Proof. intros E. split; [done|]. by rewrite E, Z.sub_diag, bump_uses_0. Qed.

(** The uses that a redemption holds are counted. *)
Lemma held_uses t id r : promo_ok t -> redemptions t !! id = Some r -> counted r = true ->
  (forall p, promotions t !! re_promotionId r = Some p -> (0 < pm_usedCount p)%Z) /\
  (forall c x, re_couponId r = Some c -> truthy c = true -> coupons t !! c = Some x -> (0 < cn_usedCount x)%Z).
Proof.
  intros Hok Hr Hc. split.
  - intros p Hp. destruct (pk_ids _ Hok _ _ Hp) as [_ Ht]. destruct (pk_promotions _ Hok _ _ Ht Hp) as [-> _].
    apply (Z.lt_le_trans _ 1); [lia|]. apply (count_rows_pos _ _ id r Hr). unfold holds_promotion. by rewrite bool_decide_true, Hc.
  - intros c x Ec Ht Hx. destruct (pk_coupons _ Hok _ _ Ht Hx) as [-> _].
    apply (Z.lt_le_trans _ 1); [lia|]. apply (count_rows_pos _ _ id r Hr). unfold holds_coupon. by rewrite bool_decide_true, Hc.
Qed.

Lemma alter_None {A} (f : A -> A) (m : gmap string A) i : m !! i = None -> alter f i m = m.
Proof. intros H. apply alter_id. congruence. Qed.

Lemma returnCapacity_ok p c d u d' :
  (forall x, promotions (own d) !! p = Some x -> (0 < pm_usedCount x)%Z) ->
  (forall k x, c = Some k -> truthy k = true -> coupons (own d) !! k = Some x -> (0 < cn_usedCount x)%Z) ->
  returnCapacity p c d = Ok (u, d') -> d' = mkDomain (inv_of d) (bump_uses (-1) p c (own d)).
Proof.
  intros Hp Hc H. unfold returnCapacity, return_promotion in H. run_domain.
  assert (E : match promotions (own d) !! p with
    | Some x => if (0 <? pm_usedCount x)%Z then set_promotions (<[p := with_used (pm_usedCount x - 1) x]> (promotions (own d))) (own d) else own d
    | None => own d end = bump_promotion (-1) p (own d)).
  { unfold bump_promotion, bump. destruct (promotions (own d) !! p) as [x|] eqn:Hx.
    - rewrite (proj2 (Z.ltb_lt _ _) (Hp x eq_refl)), (alter_Some _ _ _ x) by done. done.
    - rewrite alter_None by done. by destruct (own d). }
  rewrite E in *. unfold bump_uses, bump_coupon. destruct c as [c|]; [|by run_inv].
  destruct (truthy c) eqn:Ht; [|by run_inv]. unfold return_coupon in *. run_domain. f_equal.
  assert (Ec : coupons (bump_promotion (-1) p (own d)) = coupons (own d)) by done. rewrite Ec in *.
  unfold bump. destruct (coupons (own d) !! c) as [x|] eqn:Hx.
  - rewrite (proj2 (Z.ltb_lt _ _) (Hc c x eq_refl Ht Hx)), (alter_Some _ _ _ x) by done. done.
  - rewrite alter_None by done. done.
Qed.

(** A row in state [from] that gives up its uses. *)
Lemma give_up_step g from r d n d1 : promo_ok (own d) -> redemptions (own d) !! re_id r = Some r -> re_status r = from -> counted r = true ->
  counted (g r) = false -> flip (re_id r) from g d = Ok (n, d1) ->
  n = 1%Z /\ forall u d', returnCapacity (re_promotionId r) (re_couponId r) d1 = Ok (u, d') -> row_step g r d d'.
Proof.
  intros Hok Hr Hs Hc Hg H. unfold flip in H. run_inv. rewrite Hr in H. rewrite bool_decide_true in H by done. run_domain.
  split; [done|]. intros u d' H. destruct (held_uses _ _ _ Hok Hr Hc) as [Hp Hk].
  apply returnCapacity_ok in H as ->; [|done..]. split; [done|]. cbn [own inv_of]. unfold uses_of. rewrite Hg, Hc.
  unfold bump_uses, bump_coupon. destruct (re_couponId r) as [c|]; [destruct (truthy c)|]; done.
Qed.

(** Rows read from the table: stored under their ids, and distinct. *)
Lemma found_rows t P : promo_ok t -> NoDup (re_id <$> find_many P (redemptions t)) /\
  forall r, r ∈ find_many P (redemptions t) -> redemptions t !! re_id r = Some r /\ P r = true.
Proof.
  intros Hok. assert (Hid : forall k r, redemptions t !! k = Some r -> re_id r = k) by (intros k r H; by apply (pk_redemptions _ Hok)).
  split; [by apply NoDup_find_many|]. intros r [[k Hk] HP]%elem_of_find_many. by rewrite (Hid k r).
Qed.

Definition released (now : Z) (reason : string) (r : PromotionRedemption) : PromotionRedemption :=
  with_red_status RED_RELEASED (re_refundedDiscount r) (Some (short_reason reason)) (re_confirmedAt r) (Some now) r.
Definition confirmed (now : Z) (r : PromotionRedemption) : PromotionRedemption :=
  with_red_status RED_CONFIRMED (re_refundedDiscount r) (re_releaseReason r) (Some now) (re_releasedAt r) r.
Definition refund_share (paid refunded : Z) (r : PromotionRedemption) : Z :=
  if (paid <=? refunded)%Z then re_discountAmount r else Z.quot (re_discountAmount r * refunded) paid.
Definition refunded_row (now paid refunded : Z) (r : PromotionRedemption) : PromotionRedemption :=
  let share := refund_share paid refunded r in
  if bool_decide (re_status r = RED_REFUNDED) || (share <? re_refundedDiscount r)%Z then r
  else if (paid <=? refunded)%Z
  then with_red_status RED_REFUNDED share (Some "FULL_REFUND") (re_confirmedAt r) (Some now) r
  else with_red_status (re_status r) share (re_releaseReason r) (re_confirmedAt r) (re_releasedAt r) r.

(** The rows of an order in state [from] become [g] of themselves, all others stay. *)
Definition order_settled (P : PromotionRedemption -> bool) (g : PromotionRedemption -> PromotionRedemption) (m m' : gmap string PromotionRedemption) : Prop :=
  forall id, m' !! id = (fun r => if P r then g r else r) <$> m !! id.

Lemma rewritten_settled P g t m' : promo_ok t -> rewritten g (re_id <$> find_many P (redemptions t)) (redemptions t) m' ->
  order_settled P g (redemptions t) m'.
Proof.
  intros Hok H id. rewrite H. destruct (redemptions t !! id) as [r|] eqn:Hr; [|done]. simpl. f_equal.
  assert (Hid : re_id r = id) by (by apply (pk_redemptions _ Hok)). destruct (P r) eqn:HP.
  - rewrite bool_decide_true; [done|]. rewrite <- Hid. apply list_elem_of_fmap_2. apply elem_of_find_many. split; [by exists id|done].
  - rewrite bool_decide_false; [done|]. intros (x & E & Hx)%list_elem_of_fmap.
    destruct (found_rows t P Hok) as [_ Hf]. destruct (Hf x Hx) as [H1 H2]. rewrite <- E, Hr in H1. congruence.
Qed.

(** A settlement keeps the invariants and touches the named rows only. *)
Definition settled_as (P : PromotionRedemption -> bool) (g : PromotionRedemption -> PromotionRedemption) (d d' : Domain PromoTables) : Prop :=
  promo_ok (own d') /\ (customer_limits (own d) -> customer_limits (own d')) /\ inv_of d' = inv_of d /\
  order_settled P g (redemptions (own d)) (redemptions (own d')).

Lemma rows_run_settled P g d d' : promo_ok (own d) -> (forall r, P r = true -> good_step g r) ->
  rows_run g (find_many P (redemptions (own d))) d d' -> settled_as P g d d'.
Proof.
  intros Hok Hg H. destruct (found_rows _ P Hok) as [Hnd Hf].
  apply rows_run_ok in H as (H1 & H2 & H3 & H4); [|done|done|intros r Hr; destruct (Hf r Hr); split; [done|by apply Hg]].
  split_and!; [done..|]. by apply rewritten_settled.
Qed.

(** ** Release *)

Lemma good_released now reason r : counted r = true -> re_status r <> RED_REFUNDED -> good_step (released now reason) r.
Proof. intros Hc Hs H1 _. split; [by split; [split_and!|]|]. by split. Qed.

Lemma reserved_counted o r : of_order_in o RED_RESERVED r = true -> re_status r = RED_RESERVED /\ counted r = true.
Proof. intros [_ H%bool_decide_eq_true]%andb_prop. split; [done|]. unfold counted. rewrite H. apply bool_decide_true. by left. Qed.

Lemma release_loop now reason rs d n d' : promo_ok (own d) -> NoDup (re_id <$> rs) ->
  (forall r, r ∈ rs -> redemptions (own d) !! re_id r = Some r /\ re_status r = RED_RESERVED) ->
  sum_each rs (release_one now reason) d = Ok (n, d') -> n = Z.of_nat (length rs) /\ rows_run (released now reason) rs d d'.
Proof.
  revert d n. induction rs as [|r rs IH]; intros d n Hok Hnd Hrs H; simpl in H; run_inv; [by split; [|constructor]|].
  destruct (Hrs r) as [Hr Hs]; [by left|].
  assert (Hc : counted r = true) by (unfold counted; rewrite Hs; apply bool_decide_true; by left).
  match goal with H : release_one _ _ _ _ = _ |- _ => unfold release_one in H; run_inv end.
  match goal with H : flip _ _ _ _ = _ |- _ => apply (give_up_step (released now reason) _ r) in H as [-> Hret]; [|done..] end.
  simpl in *. run_inv.
  match goal with H : returnCapacity _ _ _ = _ |- _ => apply Hret in H as Hstep end.
  destruct (pk_redemptions _ Hok _ _ Hr) as (_ & _ & _ & R1 & R2).
  destruct (good_released now reason r Hc ltac:(by rewrite Hs) R1 R2) as [Hs' Href].
  destruct (row_step_ok _ r d _ Hok Hr Hs' Href Hstep) as [Hok1 _]. apply NoDup_cons in Hnd as [Hnin Hnd].
  match goal with H : sum_each rs _ _ = _ |- _ => apply IH in H as [-> Hrun]; [|done|done|] end.
  - split; [simpl length; lia|]. by econstructor.
  - intros y Hy. destruct Hstep as [_ ->]. cbn [set_redemptions redemptions].
    rewrite lookup_insert_ne; [by apply Hrs; right|]. intros E. apply Hnin. rewrite E. by apply list_elem_of_fmap_2.
Qed.

Lemma releaseForOrder_ok o reason now d n d' : promo_ok (own d) -> releaseForOrder o reason now d = Ok (n, d') ->
  n = count_rows (of_order_in o RED_RESERVED) (redemptions (own d)) /\
  settled_as (of_order_in o RED_RESERVED) (released now reason) d d'.
Proof.
  intros Hok H. unfold releaseForOrder in H. run_inv. destruct (found_rows _ (of_order_in o RED_RESERVED) Hok) as [Hnd Hf].
  apply release_loop in H as [-> Hrun]; [|done..|].
  - split; [done|]. apply rows_run_settled; [done| |done]. intros r [Hs Hc]%reserved_counted. apply good_released; [done|]. by rewrite Hs.
  - intros r Hr. destruct (Hf r Hr) as [H1 [H2 _]%reserved_counted]. done.
Qed.

(** ** Confirmation *)

Lemma count_rows_fmap {A} (P : A -> bool) f (t : gmap string A) : count_rows P (f <$> t) = count_rows (fun r => P (f r)) t.
Proof. by rewrite !count_rows_tsum, tsum_fmap. Qed.

Lemma confirmed_counted now o r : of_order_in o RED_RESERVED r = true -> counted (confirmed now r) = counted r.
Proof. intros [Hs ->]%reserved_counted. unfold counted, confirmed. cbn. apply bool_decide_true. right. by left. Qed.

Lemma confirmForOrder_ok o now d n d' : promo_ok (own d) -> confirmForOrder o now d = Ok (n, d') ->
  n = count_rows (of_order_in o RED_RESERVED) (redemptions (own d)) /\
  settled_as (of_order_in o RED_RESERVED) (confirmed now) d d'.
Proof.
  intros Hok H. unfold confirmForOrder in H. run_domain. split; [done|].
  set (g := fun r : PromotionRedemption => if of_order_in o RED_RESERVED r then confirmed now r else r).
  assert (Hg : forall r, same_terms r (g r) /\ counted (g r) = counted r).
  { intros r. unfold g. destruct (of_order_in _ _ r) eqn:E; [|done]. split; [by split_and!|by eapply confirmed_counted]. }
  assert (Hs : order_settled (of_order_in o RED_RESERVED) (confirmed now) (redemptions (own d))
    (update_many (of_order_in o RED_RESERVED) (confirmed now) (redemptions (own d)))) by (intros id; apply lookup_update_many).
  split; [|split; [|by split]]; cbn [own inv_of].
  - apply promo_ok_rows; [done|..].
    + intros id. unfold update_many. rewrite count_rows_fmap. apply count_rows_ext. intros k r _.
      change (holds_promotion id (g r) = holds_promotion id r). unfold holds_promotion.
      destruct (Hg r) as [(_ & -> & _) ->]. done.
    + intros id. unfold update_many. rewrite count_rows_fmap. apply count_rows_ext. intros k r _.
      change (holds_coupon id (g r) = holds_coupon id r). unfold holds_coupon.
      destruct (Hg r) as [(_ & _ & -> & _) ->]. done.
    + intros id r Hr. unfold update_many in Hr. rewrite lookup_fmap in Hr. apply fmap_Some in Hr as (x & Hx & ->). change (redemption_ok (own d) id (g x)).
      destruct (pk_redemptions _ Hok _ _ Hx) as (H1 & H2 & H3 & H4 & H5). destruct (Hg x) as [(S1 & S2 & S3 & S4 & S5 & S6) _].
      unfold redemption_ok. rewrite S1, S2, S3, S6. split; [done|]. split; [done|]. split; [done|].
      unfold g. destruct (of_order_in _ _ x) eqn:E; [|done]. by split.
  - intros Hl id p c Hp. specialize (Hl id p c Hp). rewrite customerUsage_held in *. cbn [set_redemptions redemptions].
    replace (count_rows _ (update_many _ _ _)) with (count_rows (held_by id c) (redemptions (own d))); [done|].
    unfold update_many. rewrite count_rows_fmap. apply count_rows_ext. intros k r _.
    change (held_by id c r = held_by id c (g r)). unfold held_by.
    destruct (Hg r) as [(_ & -> & _ & _ & -> & _) ->]. done.
Qed.

(** ** Refund *)

Lemma refund_share_bounds paid refunded r : (0 < paid)%Z -> (0 <= refunded)%Z -> (0 <= re_discountAmount r)%Z ->
  (0 <= refund_share paid refunded r <= re_discountAmount r)%Z.
Proof.
  intros Hp Hr Hd. unfold refund_share. destruct (Z.leb_spec paid refunded); [lia|]. rewrite Z.quot_div_nonneg by nia.
  split; [apply Z.div_pos; nia|]. apply Z.div_le_upper_bound; nia.
Qed.

Definition refundable_status (r : PromotionRedemption) : Prop := re_status r = RED_CONFIRMED \/ re_status r = RED_REFUNDED.
Lemma refundable_order o r : refundable o r = true -> refundable_status r.
Proof. intros [_ H%bool_decide_eq_true]%andb_prop. set_unfold in H. destruct H as [H|[H|[]]]; [by left|by right]. Qed.

Lemma refunded_row_ok now paid refunded r : (0 < paid)%Z -> (0 <= refunded)%Z -> refundable_status r -> good_step (refunded_row now paid refunded) r.
Proof.
  intros Hp Hr Hs H1 H2. pose proof (refund_share_bounds paid refunded r Hp Hr ltac:(lia)). unfold refunded_row.
  destruct (bool_decide (re_status r = RED_REFUNDED) || _)%bool eqn:E; [by split; [split; [split_and!|]|]|].
  apply orb_false_iff in E as [E1%bool_decide_eq_false _]. destruct Hs as [Hs|]; [|done].
  assert (Hc : counted r = true) by (unfold counted; rewrite Hs; apply bool_decide_true; right; by left).
  unfold refund_share in *. destruct (Z.leb_spec paid refunded); cbn [with_red_status re_refundedDiscount re_discountAmount re_status].
  - split; [split; [by split_and!|done]|]. split; [lia|done].
  - split; [split; [by split_and!|done]|]. split; [lia|congruence].
Qed.

Lemma refund_one_ok now paid refunded r d u d' : promo_ok (own d) -> redemptions (own d) !! re_id r = Some r -> refundable_status r ->
  refund_one now paid refunded r d = Ok (u, d') -> row_step (refunded_row now paid refunded) r d d'.
Proof.
  intros Hok Hr Hs H. unfold refund_one in H. fold (refund_share paid refunded r) in H.
  destruct (bool_decide (re_status r = RED_REFUNDED)) eqn:E1.
  { run_inv. apply row_step_same; [|done]. unfold refunded_row. by rewrite E1. }
  destruct (refund_share paid refunded r <? re_refundedDiscount r)%Z eqn:E2.
  { run_inv. apply row_step_same; [|done]. unfold refunded_row. by rewrite E1, E2. }
  assert (E : refunded_row now paid refunded r = if (paid <=? refunded)%Z
    then with_red_status RED_REFUNDED (refund_share paid refunded r) (Some "FULL_REFUND") (re_confirmedAt r) (Some now) r
    else with_red_status (re_status r) (refund_share paid refunded r) (re_releaseReason r) (re_confirmedAt r) (re_releasedAt r) r)
    by (unfold refunded_row; by rewrite E1, E2).
  apply bool_decide_eq_false in E1. destruct Hs as [Hs|]; [|done].
  destruct (paid <=? refunded)%Z eqn:E3.
  - run_inv. assert (Hc : counted r = true) by (unfold counted; rewrite Hs; apply bool_decide_true; right; by left).
    match goal with H : flip _ _ ?f _ = _ |- _ => apply (give_up_step f _ r) in H as [-> Hret]; [|done..] end.
    simpl in H. apply Hret in H. unfold row_step in *. by rewrite E.
  - run_domain. rewrite <- E. apply row_step_keep. rewrite E. unfold uses_of, counted. done.
Qed.

Lemma refund_loop now paid refunded rs d u d' : (0 < paid)%Z -> (0 <= refunded)%Z -> promo_ok (own d) -> NoDup (re_id <$> rs) ->
  (forall r, r ∈ rs -> redemptions (own d) !! re_id r = Some r /\ refundable_status r) ->
  for_each rs (refund_one now paid refunded) d = Ok (u, d') -> rows_run (refunded_row now paid refunded) rs d d'.
Proof.
  intros Hp Hr. revert d u. induction rs as [|r rs IH]; intros d u Hok Hnd Hrs H; simpl in H; run_inv; [constructor|].
  destruct (Hrs r) as [Hst Hs]; [by left|].
  match goal with H : refund_one _ _ _ _ _ = _ |- _ => apply refund_one_ok in H as Hstep; [|done..] end.
  destruct (pk_redemptions _ Hok _ _ Hst) as (_ & _ & _ & R1 & R2).
  destruct (refunded_row_ok now paid refunded r Hp Hr Hs R1 R2) as [Hset Href].
  destruct (row_step_ok _ r d _ Hok Hst Hset Href Hstep) as [Hok1 _]. apply NoDup_cons in Hnd as [Hnin Hnd].
  econstructor; [exact Hstep|]. eapply IH; [done|done| |done]. intros y Hy. destruct Hstep as [_ ->]. cbn [set_redemptions redemptions].
  rewrite lookup_insert_ne; [by apply Hrs; right|]. intros E. apply Hnin. rewrite E. by apply list_elem_of_fmap_2.
Qed.

Lemma applyRefund_ok o now paid refunded d u d' : (0 <= refunded)%Z -> promo_ok (own d) -> applyRefund o now paid refunded d = Ok (u, d') ->
  settled_as (refundable o) (if (paid <=? 0)%Z then id else refunded_row now paid refunded) d d'.
Proof.
  intros Hr Hok H. unfold applyRefund in H. destruct (Z.leb_spec paid 0).
  { run_inv. split; [done|]. split; [done|]. split; [done|]. intros k. destruct (redemptions (own d) !! k) as [r|]; [|done].
    simpl. by destruct (refundable o r). }
  run_inv. destruct (found_rows _ (refundable o) Hok) as [Hnd Hf].
  apply refund_loop in H; [|done..|].
  - apply rows_run_settled; [done| |done]. intros r Hs%refundable_order. by apply refunded_row_ok.
  - intros r Hin. destruct (Hf r Hin) as [H1 H2%refundable_order]. done.
Qed.
