(* ===== verification/PromotionProperties.v ===== *)
(** The properties of promotion capacity, with witnesses. *)

From S2P Require Import Prelude Table Json AuditTrail InventoryModel Inventory InventoryLedger InventoryProofs InventoryProperties.
From S2P Require Import Durable DurableSafety PromotionEngine PromotionClaims PromotionCapacity.

(** * Operations *)

Inductive PromoOp :=
  | Reserve (orderId customerId : string) (result : EngineResult)
  | Confirm (orderId : string) (now : Z)
  | Release (orderId reason : string) (now : Z)
  | Refunding (orderId : string) (now paidTotal refundedTotal : Z).

Definition run_promo (cuid : nat -> string) (op : PromoOp) : M (Domain PromoTables) Z :=
  match op with
  | Reserve o c result => reserve cuid o c result ;; mret 0%Z
  | Confirm o now => confirmForOrder o now
  | Release o reason now => releaseForOrder o reason now
  | Refunding o now paid refunded => applyRefund o now paid refunded ;; mret 0%Z
  end.
Definition op_valid (op : PromoOp) : Prop := match op with Refunding _ _ _ refunded => (0 <= refunded)%Z | _ => True end.

(** Every promotion and coupon counts exactly the redemptions that hold a use of it, and
    no more than its maximum. *)
Definition capacity_exact (t : PromoTables) : Prop :=
  (forall id p, promotions t !! id = Some p -> pm_usedCount p = count_rows (holds_promotion id) (redemptions t) /\
     fits (pm_maxRedemptions p) (pm_usedCount p)) /\
  (forall id c, truthy id = true -> coupons t !! id = Some c -> cn_usedCount c = count_rows (holds_coupon id) (redemptions t) /\
     fits (cn_maxRedemptions c) (cn_usedCount c)).

Lemma promo_ok_exact t : promo_ok t -> capacity_exact t.
Proof.
  intros Hok. split; [|exact (pk_coupons _ Hok)]. intros id p Hp. destruct (pk_ids _ Hok _ _ Hp). by apply (pk_promotions _ Hok).
Qed.

(** What an operation does to the redemptions. *)
Definition op_effect (op : PromoOp) (n : Z) (d d' : Domain PromoTables) : Prop :=
  match op with
  | Reserve o c result =>
      exists rs, redemptions (own d') = add_redemptions rs (redemptions (own d)) /\
        Forall2 (fun a r => exists p, r = reserved_row (re_id r) o c p a) (er_applied result) rs /\
        NoDup (re_id <$> rs) /\ Forall (fun r => redemptions (own d) !! re_id r = None) rs
  | Confirm o now =>
      n = count_rows (of_order_in o RED_RESERVED) (redemptions (own d)) /\
      order_settled (of_order_in o RED_RESERVED) (confirmed now) (redemptions (own d)) (redemptions (own d'))
  | Release o reason now =>
      n = count_rows (of_order_in o RED_RESERVED) (redemptions (own d)) /\
      order_settled (of_order_in o RED_RESERVED) (released now reason) (redemptions (own d)) (redemptions (own d'))
  | Refunding o now paid refunded =>
      order_settled (refundable o) (if (paid <=? 0)%Z then id else refunded_row now paid refunded) (redemptions (own d)) (redemptions (own d'))
  end.

Lemma run_promo_ok cuid op d n d' : promo_ok (own d) -> op_valid op -> run_promo cuid op d = Ok (n, d') ->
  promo_ok (own d') /\ (customer_limits (own d) -> customer_limits (own d')) /\ op_effect op n d d'.
Proof.
  intros Hok Hv H. destruct op as [o c result|o now|o reason now|o now paid refunded]; simpl in H, Hv.
  - run_inv. match goal with H : reserve _ _ _ _ _ = _ |- _ => apply reserve_ok in H as (H1 & H2 & _ & H3); [by split_and!|done] end.
  - apply confirmForOrder_ok in H as (H0 & H1 & H2 & _ & H3); [by split_and!|done].
  - apply releaseForOrder_ok in H as (H0 & H1 & H2 & _ & H3); [by split_and!|done].
  - run_inv. match goal with H : applyRefund _ _ _ _ _ = _ |- _ => apply applyRefund_ok in H as (H1 & H2 & _ & H3); [by split_and!|done..] end.
Qed.

(** * Properties *)

(** [C16] Promotion capacity is exact.  Reservation at checkout, confirmation by a payment,
    release by a cancellation and return by a refund keep the used count of every promotion
    and coupon equal to the number of redemptions that hold a use, at most its maximum, and
    no customer passes the limit per customer.  A reservation adds one row for each applied
    promotion; confirmation and release turn exactly the reserved rows of the order and
    return their number; a refund gives back the share of the discount that was refunded,
    never more than the discount, and the uses when everything was. *)
Theorem promotion_capacity_exact cuid op d n d' :
  promo_ok (own d) -> op_valid op -> run_promo cuid op d = Ok (n, d') ->
  promo_ok (own d') /\ capacity_exact (own d') /\ (customer_limits (own d) -> customer_limits (own d')) /\ op_effect op n d d'.
Proof.
  intros Hok Hv H. apply run_promo_ok in H as (H1 & H2 & H3); [|done..]. split_and!; [done|by apply promo_ok_exact|done..].
Qed.

(** * Witnesses *)

Definition demo_promotion : Promotion :=
  mkPromotionRow "p1" "spring" PERCENTAGE MODE_COUPON (Some 1000) None None None None None None true (Some 1%Z) (Some 1%Z) false None false 0 0 0 [].
Definition demo_coupon : Coupon := mkCoupon "c1" "p1" "SPRING" true None 0 None.
Definition demo_promos : Domain PromoTables :=
  mkDomain demo_places (mkPromoTables {["p1" := demo_promotion]} {["c1" := demo_coupon]} ∅ ∅).
Definition demo_applied : EngineResult :=
  mkResult [mkApplied "p1" (Some "c1") "spring" PERCENTAGE 30 0 []] 30 0 30.

Lemma demo_promos_ok : promo_ok (own demo_promos).
Proof.
  split; unfold demo_promos; cbn [own promotions coupons redemptions].
  - by intros id p [<- <-]%lookup_singleton_Some.
  - intros id p _ [<- <-]%lookup_singleton_Some. split; [done|]. intros m [= <-]. vm_compute. discriminate.
  - intros id p _ [<- <-]%lookup_singleton_Some. split; [done|]. by intros m.
  - intros id r H. by rewrite lookup_empty in H.
Qed.

Definition demo_reserved := run_promo demo_cuid (Reserve "o1" "cust" demo_applied) demo_promos.
Definition demo_holding : Domain PromoTables := match demo_reserved with Ok (_, d) => d | Err _ => demo_promos end.

Lemma promotion_capacity_exact_witness :
  is_ok demo_reserved = true /\ capacity_exact (own demo_holding) /\
  is_ok (run_promo demo_cuid (Reserve "o2" "cust2" demo_applied) demo_holding) = false.
Proof.
  split; [vm_compute; reflexivity|]. split; [|vm_compute; reflexivity].
  unfold demo_holding. destruct demo_reserved as [[n d]|e] eqn:E.
  - exact (proj1 (proj2 (promotion_capacity_exact demo_cuid (Reserve "o1" "cust" demo_applied) demo_promos n d demo_promos_ok I E))).
  - vm_compute in E. discriminate E.
Defined.
