(* ===== verification/SalesBooks.v ===== *)
(** Runs of the steps that the commands on placed orders share: what each does to the sales
    tables, and that it leaves the stock.  The invariant of payments: what the rows of orders,
    payments and refunds say together, and that the writes of the commands keep it. *)

From S2P Require Import Prelude Table Json StableJson AuditTrail Retry InventoryModel Inventory.
From S2P Require Import InventoryLedger InventoryProofs Durable DurableSafety StateMachine.
From S2P Require Import Door.
From S2P Require Import PromotionEngine PromotionClaims PromotionCapacity Credit CreditCommands CreditSales CreditBooks CreditRuns CreditSaleProofs.
From S2P Require Import Sales OrderCommands Fulfilling Payments.

(** * Runs of shared steps *)

(** Nothing happens to the stock. *)
Definition unmoved (d d' : Sales) : Prop := same_stock (inv_of d) (inv_of d').
#[export] Instance unmoved_preorder : PreOrder unmoved.
Proof. split; [by intros d|]. intros d1 d2 d3. unfold unmoved. apply transitivity. Qed.

(** A new row of a status history. *)
Definition moved_to {Status} (id : string) (to : Status) (row : Transition Status) (db : StatusDb Status) : StatusDb Status :=
  mkStatusDb (<[id := to]> (sd_status db)) (sd_history db ++ [row]).
Definition transition_row {Status} (id : string) (from to : Status) (meta : TransitionMeta) (row : Transition Status) : Prop :=
  tr_parentId row = id /\ tr_from row = from /\ tr_to row = to /\ tr_actorId row = tm_actorId meta /\ tr_requestId row = tm_requestId meta /\
  tr_reason row = tm_reason meta.

Section runs.
Context (cuid : nat -> string).
Implicit Types (d : Sales) (t : SalesTables).

Lemma audit_step input d u d' : record input d = Ok (u, d') -> own d' = own d /\ unmoved d d'.
Proof. exact (quiet_record input d u d'). Qed.

Lemma lock_step orderId d u d' : acquireOrderLock orderId d = Ok (u, d') -> own d' = own d /\ unmoved d d'.
Proof. intros H. by apply quiet_lock in H. Qed.

Lemma outbox_step topic ty agg key payload d u d' : create_outbox cuid topic ty agg key payload d = Ok (u, d') ->
  unmoved d d' /\ exists id, outbox (own d) !! id = None /\ find_by (outbox_key key) (outbox (own d)) = None /\
    own d' = set_outbox (<[id := mkOutboxEvent id topic ty agg key payload]> (outbox (own d))) (own d).
Proof.
  intros H. unfold create_outbox in H. run_inv.
  match goal with H : on_inv _ _ = _ |- _ => apply quiet_fresh in H as [E1 Q1] end. run_domain.
  match goal with H : (_ || _)%bool = false |- _ => apply orb_false_iff in H as [G1%bool_decide_eq_false%eq_None_not_Some G2%bool_decide_eq_false%eq_None_not_Some] end.
  rewrite E1 in *. split; [exact Q1|]. eexists. by split_and!.
Qed.

Lemma move_order_step id from to meta d row d' : move_order cuid id from to meta d = Ok (row, d') ->
  unmoved d d' /\ move from to /\ order_state id (own d) = Some from /\ transition_row id from to meta row /\
  own d' = set_credit (put (moved_to id to row (order_status (credit (own d)))) (credit (own d))) (own d).
Proof.
  intros H. unfold move_order in H. run_inv.
  match goal with H : on_inv _ _ = _ |- _ => apply quiet_fresh in H as [E1 Q1] end.
  apply zoom_ok in H as (c & H & ->). apply on_own_ok in H as (t & H & ->). apply zoom_ok in H as (st & H & ->).
  apply recordTransition_inv in H as (Hm & Hs & -> & -> & _). cbn [view order_status_lens sales_credit own inv_of] in *. rewrite E1 in *.
  split; [exact Q1|]. split; [done|]. split; [done|]. split; [by split_and!|]. simpl. by rewrite ?E1.
Qed.
Lemma move_fulfillment_step id from to meta d row d' : move_fulfillment cuid id from to meta d = Ok (row, d') ->
  unmoved d d' /\ move from to /\ fulfillment_state id (own d) = Some from /\ transition_row id from to meta row /\
  own d' = set_credit (put (moved_to id to row (fulfillment_status (credit (own d)))) (credit (own d))) (own d).
Proof.
  intros H. unfold move_fulfillment in H. run_inv.
  match goal with H : on_inv _ _ = _ |- _ => apply quiet_fresh in H as [E1 Q1] end.
  apply zoom_ok in H as (c & H & ->). apply on_own_ok in H as (t & H & ->). apply zoom_ok in H as (st & H & ->).
  apply recordTransition_inv in H as (Hm & Hs & -> & -> & _). cbn [view fulfillment_status_lens sales_credit own inv_of] in *. rewrite E1 in *.
  split; [exact Q1|]. split; [done|]. split; [done|]. split; [by split_and!|]. simpl. by rewrite ?E1.
Qed.
Lemma move_payment_step id from to meta d row d' : move_payment cuid id from to meta d = Ok (row, d') ->
  unmoved d d' /\ move from to /\ payment_state id (own d) = Some from /\ transition_row id from to meta row /\
  own d' = set_payment_status (moved_to id to row (payment_status (own d))) (own d).
Proof.
  intros H. unfold move_payment in H. run_inv.
  match goal with H : on_inv _ _ = _ |- _ => apply quiet_fresh in H as [E1 Q1] end.
  apply on_own_ok in H as (t & H & ->). apply zoom_ok in H as (st & H & ->).
  apply recordTransition_inv in H as (Hm & Hs & -> & -> & _). cbn [view payment_status_lens own inv_of] in *. rewrite E1 in *.
  split; [exact Q1|]. split; [done|]. split; [done|]. split; [by split_and!|]. simpl. by rewrite ?E1.
Qed.

(** ** Records of commands *)

Lemma command_step orderId scope keyHash fp resp expires d id d' : create_command cuid orderId scope keyHash fp resp expires d = Ok (id, d') ->
  unmoved d d' /\ commands (own d) !! id = None /\ find_command orderId scope keyHash (own d) = None /\ is_Some (find_order orderId (own d)) /\
  own d' = set_commands (<[id := mkOrderCommand id orderId scope keyHash fp resp expires]> (commands (own d))) (own d).
Proof.
  intros H. unfold create_command in H. run_inv.
  match goal with H : on_inv _ _ = _ |- _ => apply quiet_fresh in H as [E1 Q1] end. run_domain.
  match goal with H : (_ || _)%bool = false |- _ => apply orb_false_iff in H as [G1%bool_decide_eq_false%eq_None_not_Some G2%bool_decide_eq_false%eq_None_not_Some] end.
  match goal with H : bool_decide (_ = None) = false |- _ => apply bool_decide_eq_false, not_eq_None_Some in H as G3 end.
  rewrite E1 in *. split; [exact Q1|]. by split_and!.
Qed.
Lemma response_step id resp d u d' : store_response id resp d = Ok (u, d') ->
  inv_of d' = inv_of d /\ exists r, commands (own d) !! id = Some r /\
    own d' = set_commands (<[id := mkOrderCommand (oc_id r) (oc_orderId r) (oc_scope r) (oc_keyHash r) (oc_fingerprint r) (Some resp) (oc_expiresAt r)]>
      (commands (own d))) (own d).
Proof. intros H. unfold store_response in H. run_domain. split; [done|]. by eexists. Qed.
Lemma replay_step prior fp running d r d' : replay_command prior fp running d = Ok (r, d') ->
  d' = d /\ oc_fingerprint prior = fp /\ oc_response prior = Some r.
Proof.
  intros H. unfold replay_command in H. run_inv.
  match goal with H : negb _ = false |- _ => apply negb_false_iff, bool_decide_eq_true in H end. done.
Qed.

(** ** Payments *)

Lemma update_payment_step id f d u d' : update_payment id f d = Ok (u, d') ->
  inv_of d' = inv_of d /\ exists p, payments (own d) !! id = Some p /\ own d' = set_payments (<[id := f p]> (payments (own d))) (own d).
Proof. intros H. unfold update_payment in H. run_domain. split; [done|]. by eexists. Qed.

(** ** Other components *)

Lemma on_promo_step {A} (m : M (Domain PromoTables) A) d a d' : on_promo m d = Ok (a, d') ->
  exists x, m (mkDomain (inv_of d) (promo (own d))) = Ok (a, x) /\ d' = mkDomain (inv_of x) (set_promo (own x) (own d)).
Proof. intros H. apply zoom_ok in H as (x & H & ->). by exists x. Qed.
Lemma on_credit_step {A} (m : M (Domain CreditTables) A) d a d' : on_credit m d = Ok (a, d') ->
  exists x, m (mkDomain (inv_of d) (credit (own d))) = Ok (a, x) /\ d' = mkDomain (inv_of x) (set_credit (own x) (own d)).
Proof. intros H. apply zoom_ok in H as (x & H & ->). by exists x. Qed.
Lemma on_inv_step {A} (m : M InvDb A) d a d' : on_inv m d = Ok (a, d') -> own d' = own d /\ m (inv_of d) = Ok (a, inv_of d').
Proof. intros H. by apply on_inv_ok in H as (x & H & ->). Qed.
End runs.

(** Expresses the tables after a run by those before it. *)
Ltac track := repeat match goal with E : own ?s = _ |- _ => is_var s; try rewrite E in *; clear E end.

(** * What payments depend on *)

Record Core := mkCore {
  k_orders : gmap string CreditOrder;
  k_order : gmap string OrderStatus;
  k_payments : gmap string Payment;
  k_payment : gmap string PaymentStatus;
  k_refunds : gmap string Refund
}.
Definition core_of (t : SalesTables) : Core :=
  mkCore (orders (credit t)) (sd_status (order_status (credit t))) (payments t) (sd_status (payment_status t)) (refunds t).

(** A payment that may still be or was received, and one that was. *)
Definition live (s : PaymentStatus) : bool := bool_decide (s ∈ [PAY_PENDING; PAY_PAID; PAY_PARTIALLY_REFUNDED; PAY_REFUNDED]).
Definition settled (s : PaymentStatus) : bool := bool_decide (s ∈ [PAY_PAID; PAY_PARTIALLY_REFUNDED; PAY_REFUNDED]).
Definition closed (s : option OrderStatus) : Prop := s = Some PAID \/ s = Some CANCELLED.

(** What a status says of the refunded amount. *)
Definition refund_fits (s : PaymentStatus) (p : Payment) : Prop :=
  match s with
  | PAY_PARTIALLY_REFUNDED => 0 < pt_refundedAmount p < pt_amount p
  | PAY_REFUNDED => 0 < pt_refundedAmount p /\ pt_refundedAmount p = pt_amount p
  | _ => pt_refundedAmount p = 0
  end%Z.
Definition find_refund (key : string) (rs : gmap string Refund) : option Refund := find_by (fun r => bool_decide (rf_idempotencyKey r = key)) rs.
Definition refunded_total (id : string) (rs : gmap string Refund) : Z :=
  tsum (fun r => if bool_decide (rf_paymentId r = id) then rf_amount r else 0%Z) rs.

(** The order of a payment, when it is a shop order. *)
Definition shop_order (c : Core) (orderId : string) : Prop := exists o, k_orders c !! orderId = Some o /\ or_doorOrder o = None.

Definition payment_linked (c : Core) (id : string) (p : Payment) : Prop :=
  pt_id p = id /\ exists o, k_orders c !! pt_orderId p = Some o /\ id ∈ or_payments o /\ (or_doorOrder o = None -> pt_amount p = or_grandTotal o).

(** The unique index on the keys of refunds. *)
Definition refund_keys (rs : gmap string Refund) : Prop := forall key, unique_on (fun r => bool_decide (rf_idempotencyKey r = key)) rs.

Record capture_ok (c : Core) : Prop := {
  ck_orders : forall id o, k_orders c !! id = Some o -> or_id o = id;
  ck_payments : forall id p, k_payments c !! id = Some p -> payment_linked c id p;
  ck_listed : forall id o pid, k_orders c !! id = Some o -> pid ∈ or_payments o -> exists p, k_payments c !! pid = Some p /\ pt_orderId p = id;
  ck_states : forall id, is_Some (k_payment c !! id) <-> is_Some (k_payments c !! id);
  ck_single : forall id1 id2 p1 p2 s1 s2, k_payments c !! id1 = Some p1 -> k_payments c !! id2 = Some p2 -> pt_orderId p1 = pt_orderId p2 ->
    shop_order c (pt_orderId p1) -> k_payment c !! id1 = Some s1 -> k_payment c !! id2 = Some s2 -> live s1 = true -> live s2 = true -> id1 = id2;
  ck_settled : forall id p s, k_payments c !! id = Some p -> k_payment c !! id = Some s -> settled s = true -> shop_order c (pt_orderId p) ->
    closed (k_order c !! pt_orderId p);
  ck_paid : forall id, shop_order c id -> k_order c !! id = Some PAID ->
    exists pid p s, k_payments c !! pid = Some p /\ pt_orderId p = id /\ k_payment c !! pid = Some s /\ settled s = true;
  ck_refunded : forall id p s, k_payments c !! id = Some p -> k_payment c !! id = Some s ->
    refund_fits s p /\ pt_refundedAmount p = refunded_total id (k_refunds c);
  ck_refunds : forall id r, k_refunds c !! id = Some r -> rf_id r = id /\ (0 < rf_amount r)%Z /\ is_Some (k_payments c !! rf_paymentId r);
  ck_refund_keys : refund_keys (k_refunds c)
}.

(** * Writes *)

Definition core_state (id : string) (s : OrderStatus) (c : Core) : Core :=
  mkCore (k_orders c) (<[id := s]> (k_order c)) (k_payments c) (k_payment c) (k_refunds c).
Definition core_payment (id : string) (p : Payment) (s : PaymentStatus) (c : Core) : Core :=
  mkCore (k_orders c) (k_order c) (<[id := p]> (k_payments c)) (<[id := s]> (k_payment c)) (k_refunds c).
Definition core_refund (r : Refund) (c : Core) : Core :=
  mkCore (k_orders c) (k_order c) (k_payments c) (k_payment c) (<[rf_id r := r]> (k_refunds c)).
Definition core_order (id : string) (o : CreditOrder) (c : Core) : Core :=
  mkCore (<[id := o]> (k_orders c)) (k_order c) (k_payments c) (k_payment c) (k_refunds c).

(** A step of an order: it closes no order without money, and reopens none with. *)
Lemma capture_state id s c : capture_ok c -> (shop_order c id -> s <> PAID) -> (closed (k_order c !! id) -> s = CANCELLED) ->
  capture_ok (core_state id s c).
Proof.
  intros [A B C D E F G H I J] Hs Hc. split; cbn [core_state k_orders k_order k_payments k_payment k_refunds]; try done.
  - intros pid p st Hp Hst Hset Hshop. destruct (decide (pt_orderId p = id)) as [<-|Hne].
    + right. rewrite lookup_insert_eq. f_equal. apply Hc. by eapply F.
    + rewrite lookup_insert_ne by done. by eapply F.
  - intros oid Hshop Hpaid. apply lookup_insert_Some in Hpaid as [[<- ->]|[Hne Hpaid]]; [by destruct (Hs Hshop)|by apply G].
Qed.

Section payment.
Context (c : Core) (id : string) (p p' : Payment) (s s' : PaymentStatus) (ost : gmap string OrderStatus) (rs : gmap string Refund).
Context (Hok : capture_ok c) (Hp : k_payments c !! id = Some p) (Hs : k_payment c !! id = Some s).
Context (Hrow : pt_id p' = pt_id p /\ pt_orderId p' = pt_orderId p /\ pt_amount p' = pt_amount p).
Context (Hlive : live s' = true -> live s = true) (Hkeep : settled s = true -> settled s' = true).
Context (Hothers : forall oid, oid <> pt_orderId p -> ost !! oid = k_order c !! oid).
Context (Hclosed : shop_order c (pt_orderId p) -> settled s' = true \/ closed (k_order c !! pt_orderId p) -> closed (ost !! pt_orderId p)).
Context (Hpaid : shop_order c (pt_orderId p) -> ost !! pt_orderId p = Some PAID -> settled s' = true \/ k_order c !! pt_orderId p = Some PAID).
Context (Hfits : refund_fits s' p' /\ pt_refundedAmount p' = refunded_total id rs).
Context (Hsums : forall pid, pid <> id -> refunded_total pid rs = refunded_total pid (k_refunds c)).
Context (Hrows : forall rid r, rs !! rid = Some r -> rf_id r = rid /\ (0 < rf_amount r)%Z /\ is_Some (k_payments c !! rf_paymentId r)).
Context (Hkeys : refund_keys rs).

(** One payment changes, with the status of its order and its refunds. *)
Definition core_changed : Core := mkCore (k_orders c) ost (<[id := p']> (k_payments c)) (<[id := s']> (k_payment c)) rs.

Lemma changed_payment pid q : k_payments core_changed !! pid = Some q ->
  exists q0, k_payments c !! pid = Some q0 /\ pt_id q = pt_id q0 /\ pt_orderId q = pt_orderId q0 /\ pt_amount q = pt_amount q0.
Proof using Hp Hrow.
  cbn. intros [[<- <-]|[Hne Hq]]%lookup_insert_Some; [by exists p|by exists q].
Qed.
Lemma changed_live pid st : k_payment core_changed !! pid = Some st -> live st = true -> exists st0, k_payment c !! pid = Some st0 /\ live st0 = true.
Proof using Hlive Hs. cbn. intros [[<- <-]|[Hne Hq]]%lookup_insert_Some Hl; [exists s; by split; [|apply Hlive]|by exists st]. Qed.
Lemma kept_settled pid st : k_payment c !! pid = Some st -> settled st = true -> exists st', k_payment core_changed !! pid = Some st' /\ settled st' = true.
Proof using Hkeep Hs.
  intros Hq Hl. destruct (decide (pid = id)) as [->|Hne].
  - exists s'. cbn. rewrite lookup_insert_eq. split; [done|]. apply Hkeep. congruence.
  - exists st. cbn. by rewrite lookup_insert_ne.
Qed.

Lemma capture_changed : capture_ok core_changed.
Proof using Hclosed Hfits Hkeep Hkeys Hlive Hok Hothers Hp Hpaid Hrow Hrows Hs Hsums.
  destruct Hok as [A B C D E F G H I J]. split; cbn [core_changed k_orders k_order k_refunds].
  - exact A.
  - intros pid q Hq. apply changed_payment in Hq as (q0 & Hq & E1 & E2 & E3). destruct (B _ _ Hq) as (H1 & o & H2 & H3 & H4).
    split; [congruence|]. exists o. rewrite E2, E3. by split_and!.
  - intros oid o pid Ho Hin. destruct (C _ _ _ Ho Hin) as (q & Hq & Eq). destruct (decide (pid = id)) as [->|Hne].
    + exists p'. cbn. rewrite lookup_insert_eq. split; [done|]. destruct Hrow as (_ & -> & _). congruence.
    + exists q. cbn. by rewrite lookup_insert_ne.
  - intros pid. cbn. destruct (decide (pid = id)) as [->|Hne]; [rewrite !lookup_insert_eq; by split|rewrite !lookup_insert_ne by done; apply D].
  - intros i1 i2 q1 q2 s1 s2 H1 H2 Eo Hshop S1 S2 L1 L2. apply changed_payment in H1 as (q1' & H1 & _ & E1 & _), H2 as (q2' & H2 & _ & E2 & _).
    apply changed_live in S1 as (t1 & S1 & L1'); [|done]. apply changed_live in S2 as (t2 & S2 & L2'); [|done].
    rewrite E1 in Hshop. eapply (E _ _ q1' q2'); try done. congruence.
  - intros pid q st Hq Hst Hset Hshop. pose proof Hq as Hq'. apply changed_payment in Hq as (q0 & Hq0 & _ & Eo & _). rewrite Eo in *.
    destruct (decide (pt_orderId q0 = pt_orderId p)) as [Eq|Hne].
    + rewrite Eq in *. apply Hclosed; [done|]. cbn in Hst; apply lookup_insert_Some in Hst as [[<- <-]|[Hne Hst]]; [by left|right].
      rewrite <- Eq. eapply F; try done. by rewrite Eq.
    + rewrite Hothers by done. cbn in Hst; apply lookup_insert_Some in Hst as [[<- <-]|[Hne' Hst]]; [congruence|]. by eapply F.
  - intros oid Hshop Hpd. destruct (decide (oid = pt_orderId p)) as [->|Hne].
    + destruct (Hpaid Hshop Hpd) as [Hset|Hwas].
      * exists id, p', s'. cbn. rewrite !lookup_insert_eq. by destruct Hrow as (_ & -> & _).
      * destruct (G _ Hshop Hwas) as (pid & q & st & Hq & Eq & Hst & Hset). destruct (kept_settled _ _ Hst Hset) as (st' & Hst' & Hset').
        destruct (decide (pid = id)) as [->|Hn].
        -- exists id, p', st'. split; [cbn; by rewrite lookup_insert_eq|]. by destruct Hrow as (_ & -> & _).
        -- exists pid, q, st'. split; [cbn; by rewrite lookup_insert_ne|]. done.
    + rewrite Hothers in Hpd by done. destruct (G _ Hshop Hpd) as (pid & q & st & Hq & Eq & Hst & Hset).
      destruct (kept_settled _ _ Hst Hset) as (st' & Hst' & Hset'). exists pid, q, st'. split; [|done].
      cbn. rewrite lookup_insert_ne; [done|]. intros <-. congruence.
  - intros pid q st Hq Hst. cbn in Hq, Hst. apply lookup_insert_Some in Hq as [[<- <-]|[Hne Hq]].
    + rewrite lookup_insert_eq in Hst. injection Hst as <-. exact Hfits.
    + rewrite lookup_insert_ne in Hst by done. rewrite Hsums by done. by eapply H.
  - intros rid r Hr. destruct (Hrows rid r Hr) as (R1 & R2 & R3). split; [done|]. split; [done|]. cbn.
    destruct (decide (rf_paymentId r = id)) as [->|Hne]; [by rewrite lookup_insert_eq|by rewrite lookup_insert_ne].
  - exact Hkeys.
Qed.
End payment.

(** * The writes of the commands *)

Lemma refund_fits_none s p : settled s = false -> refund_fits s p <-> pt_refundedAmount p = 0%Z.
Proof. by destruct s. Qed.

Section writes.
Context (c : Core) (Hok : capture_ok c).

Lemma rows_kept rid r : k_refunds c !! rid = Some r -> rf_id r = rid /\ (0 < rf_amount r)%Z /\ is_Some (k_payments c !! rf_paymentId r).
Proof using Hok. apply (ck_refunds c Hok). Qed.

(** A payment row changes in columns that no rule reads. *)
Lemma capture_row id p p' s : k_payments c !! id = Some p -> k_payment c !! id = Some s ->
  pt_id p' = pt_id p /\ pt_orderId p' = pt_orderId p /\ pt_amount p' = pt_amount p /\ pt_refundedAmount p' = pt_refundedAmount p ->
  capture_ok (core_payment id p' s c).
Proof using Hok.
  intros Hp Hs (E1 & E2 & E3 & E4). destruct (ck_refunded c Hok _ _ _ Hp Hs) as [Hf Ht].
  refine (capture_changed c id p p' s s (k_order c) (k_refunds c) Hok Hp Hs _ _ _ _ _ _ _ _ _ _); try done.
  - intros Hshop [Hset|Hc]; [by eapply (ck_settled c Hok)|done].
  - by right.
  - split; [|congruence]. unfold refund_fits in *. by rewrite E3, E4.
  - apply rows_kept.
  - apply (ck_refund_keys c Hok).
Qed.

(** A pending payment fails. *)
Lemma capture_failed id p : k_payments c !! id = Some p -> k_payment c !! id = Some PAY_PENDING -> capture_ok (core_payment id p PAY_FAILED c).
Proof using Hok.
  intros Hp Hs. destruct (ck_refunded c Hok _ _ _ Hp Hs) as [Hf Ht].
  refine (capture_changed c id p p PAY_PENDING PAY_FAILED (k_order c) (k_refunds c) Hok Hp Hs _ _ _ _ _ _ _ _ _ _); try done.
  - by intros _ [|].
  - by right.
  - apply rows_kept.
  - apply (ck_refund_keys c Hok).
Qed.

(** A pending payment is received; the status of its order is [ost]. *)
Lemma capture_received id p p' ost : k_payments c !! id = Some p -> k_payment c !! id = Some PAY_PENDING ->
  pt_id p' = pt_id p /\ pt_orderId p' = pt_orderId p /\ pt_amount p' = pt_amount p /\ pt_refundedAmount p' = pt_refundedAmount p ->
  (forall oid, oid <> pt_orderId p -> ost !! oid = k_order c !! oid) ->
  (shop_order c (pt_orderId p) -> closed (ost !! pt_orderId p)) ->
  capture_ok (mkCore (k_orders c) ost (<[id := p']> (k_payments c)) (<[id := PAY_PAID]> (k_payment c)) (k_refunds c)).
Proof using Hok.
  intros Hp Hs (E1 & E2 & E3 & E4) Ho Hc. destruct (ck_refunded c Hok _ _ _ Hp Hs) as [Hf Ht]. simpl in Hf.
  refine (capture_changed c id p p' PAY_PENDING PAY_PAID ost (k_refunds c) Hok Hp Hs _ _ _ Ho _ _ _ _ _ _); try done.
  - by intros Hshop _; apply Hc.
  - by left.
  - split; [simpl; congruence|congruence].
  - apply rows_kept.
  - apply (ck_refund_keys c Hok).
Qed.

(** A refund is recorded. *)
Lemma refunded_total_insert r pid : k_refunds c !! rf_id r = None ->
  refunded_total pid (<[rf_id r := r]> (k_refunds c)) = ((if bool_decide (rf_paymentId r = pid) then rf_amount r else 0) + refunded_total pid (k_refunds c))%Z.
Proof using. intros H. unfold refunded_total. by rewrite tsum_insert_new. Qed.

Lemma capture_refund r p s : k_payments c !! rf_paymentId r = Some p -> k_payment c !! rf_paymentId r = Some s ->
  s = PAY_PAID \/ s = PAY_PARTIALLY_REFUNDED -> k_refunds c !! rf_id r = None -> find_refund (rf_idempotencyKey r) (k_refunds c) = None -> (0 < rf_amount r)%Z ->
  (pt_refundedAmount p + rf_amount r <= pt_amount p)%Z ->
  let total := (pt_refundedAmount p + rf_amount r)%Z in
  let s' := if bool_decide (total = pt_amount p) then PAY_REFUNDED else PAY_PARTIALLY_REFUNDED in
  capture_ok (core_refund r (core_payment (rf_paymentId r) (with_refunded total p) s' c)).
Proof using Hok.
  intros Hp Hs Hst Hfresh Hkey Hpos Hle total s'. destruct (ck_refunded c Hok _ _ _ Hp Hs) as [Hf Ht].
  assert (Hnn : (0 <= pt_refundedAmount p)%Z) by (destruct Hst as [E | E]; rewrite E in Hf; simpl in Hf; lia).
  assert (Hset : settled s = true) by (by destruct Hst as [E | E]; rewrite E).
  assert (Hset' : settled s' = true) by (unfold s'; by destruct (bool_decide _)).
  refine (capture_changed c (rf_paymentId r) p (with_refunded total p) s s' (k_order c) (<[rf_id r := r]> (k_refunds c)) Hok Hp Hs _ _ _ _ _ _ _ _ _ _); try done.
  - intros _. by destruct Hst as [E | E]; rewrite E.
  - intros Hshop _. by eapply (ck_settled c Hok).
  - by left.
  - split; [|rewrite refunded_total_insert, bool_decide_true by done; simpl; lia].
    unfold s'. case_bool_decide; simpl; lia.
  - intros pid Hne. rewrite refunded_total_insert, bool_decide_false by done. lia.
  - intros rid x [[<- <-]|[Hne Hx]]%lookup_insert_Some; [|by apply rows_kept]. split; [done|]. split; [done|]. by exists p.
  - intros key. apply unique_on_insert; [done|apply (ck_refund_keys c Hok)|]. by intros <-%bool_decide_eq_true.
Qed.

(** An order row changes in columns that no rule reads. *)
Lemma capture_order id o o' : k_orders c !! id = Some o -> or_id o' = or_id o -> or_payments o' = or_payments o ->
  or_grandTotal o' = or_grandTotal o -> or_doorOrder o' = or_doorOrder o -> capture_ok (core_order id o' c).
Proof using Hok.
  intros Ho E1 E2 E3 E4. destruct Hok as [A B C D E F G H I J].
  assert (Hshop : forall oid, shop_order (core_order id o' c) oid -> shop_order c oid).
  { intros oid (x & Hx & Hd). cbn in Hx. apply lookup_insert_Some in Hx as [[<- <-]|[Hne Hx]]; [exists o|exists x]; split; congruence. }
  assert (Hold : forall oid x, k_orders c !! oid = Some x -> exists x', k_orders (core_order id o' c) !! oid = Some x' /\
     or_payments x' = or_payments x /\ or_grandTotal x' = or_grandTotal x /\ or_doorOrder x' = or_doorOrder x).
  { intros oid x Hx. cbn. destruct (decide (oid = id)) as [->|Hne].
    - exists o'. rewrite lookup_insert_eq. split; [done|]. split_and!; congruence.
    - exists x. by rewrite lookup_insert_ne. }
  split; try done; cbn [core_order k_orders k_order k_payments k_payment k_refunds].
  - intros oid x [[<- <-]|[Hne Hx]]%lookup_insert_Some; [rewrite E1|]; by apply A.
  - intros pid q Hq. destruct (B _ _ Hq) as (H1 & x & H2 & H3 & H4). split; [done|].
    destruct (Hold _ _ H2) as (x' & Hx' & P1 & P2 & P3). exists x'. rewrite P1, P2, P3. by split_and!.
  - intros oid x pid [[<- <-]|[Hne Hx]]%lookup_insert_Some Hin; [rewrite E2 in Hin|]; by eapply C.
  - intros i1 i2 p1 p2 s1 s2 H1 H2 Eo Hsh. by eapply E; [..|apply Hshop].
  - intros pid q s H1 H2 H3 Hsh. by eapply F; [..|apply Hshop].
  - intros oid Hsh. by apply G, Hshop.
Qed.

(** A payment attempt is registered. *)
Lemma capture_new o p : k_orders c !! pt_orderId p = Some o -> k_payments c !! pt_id p = None -> k_payment c !! pt_id p = None ->
  pt_refundedAmount p = 0%Z -> (or_doorOrder o = None -> pt_amount p = or_grandTotal o) ->
  (or_doorOrder o = None -> forall id q s, k_payments c !! id = Some q -> pt_orderId q = pt_orderId p -> k_payment c !! id = Some s -> live s = false) ->
  capture_ok (core_order (pt_orderId p) (with_payment (pt_id p) o) (core_payment (pt_id p) p PAY_PENDING c)).
Proof using Hok.
  intros Ho Hp Hs Hr Ha Hfree. pose proof Hok as [A B C D E F G H I J].
  set (c' := core_order _ _ _).
  assert (Hshop : forall oid, shop_order c' oid -> shop_order c oid).
  { intros oid (x & Hx & Hd). cbn in Hx. apply lookup_insert_Some in Hx as [[<- <-]|[Hne Hx]]; [exists o|exists x]; by split. }
  assert (Hnone : forall id q s, k_payments c !! id = Some q -> pt_orderId q = pt_orderId p -> shop_order c (pt_orderId p) ->
    k_payment c !! id = Some s -> live s = false).
  { intros id q s H1 H2 (x & Hx & Hd) H3. assert (x = o) as -> by congruence. by eapply Hfree. }
  assert (Hnew : forall id q, k_payments c !! id = Some q -> id <> pt_id p) by congruence.
  split; unfold c'; cbn [core_order core_payment k_orders k_order k_payments k_payment k_refunds].
  - intros oid x [[<- <-]|[Hne Hx]]%lookup_insert_Some; [by apply (A _ o)|by apply A].
  - intros pid q [[<- <-]|[Hne Hq]]%lookup_insert_Some.
    + split; [done|]. exists (with_payment (pt_id p) o). cbn. rewrite lookup_insert_eq. split; [done|]. split; [set_solver|done].
    + destruct (B _ _ Hq) as (H1 & x & H2 & H3 & H4). split; [done|]. cbn. destruct (decide (pt_orderId q = pt_orderId p)) as [Eq|Hn].
      * rewrite Eq, lookup_insert_eq. eexists. split; [done|]. assert (x = o) as -> by congruence. cbn. split; [set_solver|done].
      * rewrite lookup_insert_ne by done. by exists x.
  - intros oid x pid Hx Hin. destruct (decide (pid = pt_id p)) as [->|Hn].
    + exists p. rewrite lookup_insert_eq. split; [done|]. apply lookup_insert_Some in Hx as [[<- <-]|[Hne Hx]]; [done|].
      destruct (C _ _ _ Hx Hin) as (q & Hq & _). congruence.
    + rewrite lookup_insert_ne by done. apply lookup_insert_Some in Hx as [[<- <-]|[Hne Hx]]; [|by eapply C].
      apply (C _ o); [done|]. cbn in Hin. by apply elem_of_app in Hin as [Hin|Hin%list_elem_of_singleton].
  - intros pid. destruct (decide (pid = pt_id p)) as [->|Hn]; [rewrite !lookup_insert_eq; by split|by rewrite !lookup_insert_ne].
  - intros i1 i2 q1 q2 s1 s2 [[<- <-]|[N1 H1]]%lookup_insert_Some [[<- <-]|[N2 H2]]%lookup_insert_Some Eo Hsh S1 S2 L1 L2; [done|..].
    + exfalso. rewrite lookup_insert_ne in S2 by done. rewrite (Hnone _ _ _ H2) in L2; [done|done|by apply Hshop|done].
    + exfalso. rewrite lookup_insert_ne in S1 by done. rewrite (Hnone _ _ _ H1) in L1; [done|done|rewrite <- Eo; by apply Hshop|done].
    + rewrite lookup_insert_ne in S1, S2 by done. apply (E _ _ q1 q2 s1 s2); try done. by apply Hshop.
  - intros pid q s [[<- <-]|[Hne Hq]]%lookup_insert_Some Hst Hset Hsh.
    + rewrite lookup_insert_eq in Hst. by injection Hst as <-.
    + rewrite lookup_insert_ne in Hst by done. apply (F pid q s); try done. by apply Hshop.
  - intros oid Hsh Hpd. destruct (G oid (Hshop _ Hsh) Hpd) as (pid & q & s & H1 & H2 & H3 & H4). exists pid, q, s.
    assert (Hn : pid <> pt_id p) by (by eapply Hnew). by rewrite !lookup_insert_ne.
  - intros pid q s [[<- <-]|[Hne Hq]]%lookup_insert_Some Hst.
    + rewrite lookup_insert_eq in Hst. injection Hst as <-. split; [done|]. rewrite Hr. symmetry. apply tsum_0. intros rid r Hrr.
      destruct (I _ _ Hrr) as (_ & _ & [x Hx]). rewrite bool_decide_false; [done|]. intros Eq. congruence.
    + rewrite lookup_insert_ne in Hst by done. by apply H.
  - intros rid r Hrr. destruct (I _ _ Hrr) as (R1 & R2 & [x Hx]). split; [done|]. split; [done|].
    rewrite lookup_insert_ne; [by exists x|]. apply not_eq_sym. by eapply Hnew.
  - exact J.
Qed.
End writes.

(** * The invariant of the sales tables *)

(** Door orders are stored under their ids. *)
Definition door_keys (t : SalesTables) : Prop := forall id r, door_orders (doors t) !! id = Some r -> dr_id r = id.
Definition sales_ok (t : SalesTables) : Prop := capture_ok (core_of t) /\ promo_ok (promo t) /\ books_ok (credit t) /\ door_keys t.

Lemma sales_ok_core t c : capture_ok c -> core_of t = c -> promo_ok (promo t) -> books_ok (credit t) -> door_keys t -> sales_ok t.
Proof. intros Hc <- Hp Hb Hd. by split_and!. Qed.

Lemma door_keys_same t t' : door_keys t -> door_orders (doors t') = door_orders (doors t) -> door_keys t'.
Proof. intros H E id r. rewrite E. apply H. Qed.

(** Writes that no rule reads. *)
Definition same_sales (t t' : SalesTables) : Prop :=
  core_of t' = core_of t /\ promo t' = promo t /\ same_books (credit t) (credit t') /\ door_orders (doors t') = door_orders (doors t).
#[export] Instance same_sales_preorder : PreOrder same_sales.
Proof. split; [by split|]. intros t1 t2 t3 (A & B & C & D) (A' & B' & C' & D'). split_and!; [congruence..|by etrans|congruence]. Qed.

Lemma sales_ok_same t t' : sales_ok t -> same_sales t t' -> sales_ok t'.
Proof.
  intros (Hc & Hp & Hb & Hd) (E1 & E2 & E3 & E4). split; [by rewrite E1|]. split; [by rewrite E2|].
  split; [by eapply same_books_ok|by eapply door_keys_same].
Qed.
