(* ===== verification/OrderProofs.v ===== *)
(** Cancellation and expiry of unpaid orders give back exactly what the order held. *)

From S2P Require Import Prelude Table Paging Json StableJson AuditTrail Retry InventoryModel Inventory.
From S2P Require Import InventoryLedger InventoryProofs Durable DurableSafety StateMachine.
From S2P Require Import PromotionEngine PromotionClaims PromotionCapacity Credit CreditCommands CreditSales CreditBooks CreditRuns CreditSaleProofs.
From S2P Require Import Sales OrderCommands Fulfilling Payments SalesBooks.

(** * Stock *)

(** Every active reservation of the order was released. *)
Definition stock_released (orderId : string) (n : Z) (db db' : InvDb) : Prop :=
  n = Z.of_nat (length (order_reservations orderId db)) /\
  refines (EDrop <$> (r_id <$> order_reservations orderId db)) db db' /\ order_finished RELEASED orderId db db'.

Lemma release_loop_ok orderId ctx sys db n db' : inv db -> releaseOrderReservations orderId ctx sys db = Ok (n, db') ->
  stock_released orderId n db db'.
Proof.
  intros Hinv H. unfold releaseOrderReservations in H. run_inv.
  apply (order_loop_refines RELEASED EDrop) in H as (-> & Href & Hfin); [|intros; by eapply rebalance_refines|done].
  split; [by rewrite length_fmap|]. by split.
Qed.
Lemma release_order_ok orderId ctx db n db' : inv db -> releaseReservationsForOrder orderId ctx db = Ok (n, db') -> stock_released orderId n db db'.
Proof. intros Hinv H. unfold releaseReservationsForOrder in H. run_inv. by eapply release_loop_ok. Qed.
Lemma release_expired_ok orderId rid db n db' : inv db -> releaseReservationsForOrderFromExpiry orderId rid db = Ok (n, db') ->
  stock_released orderId n db db'.
Proof. intros Hinv H. unfold releaseReservationsForOrderFromExpiry in H. run_inv. by eapply release_loop_ok. Qed.

Lemma stock_released_frame orderId n db1 db2 db3 db4 : inv db1 -> same_stock db1 db2 -> stock_released orderId n db2 db3 -> same_stock db3 db4 ->
  stock_released orderId n db1 db4.
Proof.
  intros Hinv Hs (Hn & Href & Hfin) Hs'. assert (R : reservations db2 = reservations db1) by apply Hs.
  assert (R' : reservations db4 = reservations db3) by apply Hs'. unfold stock_released, order_reservations in *. rewrite R in *.
  split; [done|]. split; [|intros id; by rewrite R', Hfin, R].
  eapply refines_frame_r; [|exact Hs']. by eapply refines_frame_l.
Qed.

(** * What a cancellation does *)

(** The order moved from PENDING_PAYMENT to CANCELLED; its [n] active reservations and its
    reserved promotion uses were given back; one event tells of it; nothing else changed but
    records of commands. *)
Definition order_cancelled (now : Z) (reason orderId : string) (n : Z) (d d' : Sales) : Prop :=
  exists row id topic key payload p' cs,
    own d' = set_commands cs (set_outbox (<[id := mkOutboxEvent id topic "order" orderId key payload]> (outbox (own d)))
      (set_promo p' (set_credit (put (moved_to orderId CANCELLED row (order_status (credit (own d)))) (credit (own d))) (own d)))) /\
    order_state orderId (own d) = Some PENDING_PAYMENT /\
    tr_parentId row = orderId /\ tr_from row = PENDING_PAYMENT /\ tr_to row = CANCELLED /\ tr_reason row = Some reason /\
    outbox (own d) !! id = None /\ find_by (outbox_key key) (outbox (own d)) = None /\
    stock_released orderId n (inv_of d) (inv_of d') /\
    promo_ok p' /\ (customer_limits (promo (own d)) -> customer_limits p') /\
    order_settled (of_order_in orderId RED_RESERVED) (released now reason) (redemptions (promo (own d))) (redemptions p').

Lemma order_cancelled_ok now reason orderId n d d' : sales_ok (own d) -> order_cancelled now reason orderId n d d' -> sales_ok (own d').
Proof.
  intros (Hc & Hp & Hb & Hd) (row & id & topic & key & payload & p' & cs & E & Hst & _ & _ & _ & _ & _ & _ & _ & Hp' & _).
  eapply sales_ok_core; [apply (capture_state orderId CANCELLED _ Hc)|rewrite E; reflexivity|by rewrite E| |].
  - by intros _.
  - done.
  - rewrite E. eapply same_books_ok; [exact Hb|]. by split.
  - by rewrite E.
Qed.

Section cancel.
Context (cuid : nat -> string) (hash : string -> string).
Implicit Types (d : Sales).

Lemma releaseForOrder_step o reason now d n d' : promo_ok (promo (own d)) -> on_promo (releaseForOrder o reason now) d = Ok (n, d') ->
  inv_of d' = inv_of d /\ exists p', own d' = set_promo p' (own d) /\ promo_ok p' /\ (customer_limits (promo (own d)) -> customer_limits p') /\
    order_settled (of_order_in o RED_RESERVED) (released now reason) (redemptions (promo (own d))) (redemptions p').
Proof.
  intros Hok H. apply on_promo_step in H as (x & H & ->). apply releaseForOrder_ok in H as (_ & H1 & H2 & H3 & H4); [|done].
  split; [exact H3|]. exists (own x). by split_and!.
Qed.

(** The common part of cancellation and expiry. *)
Lemma cancel_steps now reason orderId meta actor ty key payload input (release : M InvDb Z) d0 row d1 n d2 k d3 u d4 u' d5 :
  inv (inv_of d0) -> promo_ok (promo (own d0)) ->
  (forall db n db', inv db -> release db = Ok (n, db') -> stock_released orderId n db db') ->
  move_order cuid orderId PENDING_PAYMENT CANCELLED (meta_of actor meta reason) d0 = Ok (row, d1) ->
  on_inv release d1 = Ok (n, d2) -> on_promo (releaseForOrder orderId reason now) d2 = Ok (k, d3) ->
  create_outbox cuid ty "order" orderId key payload d3 = Ok (u, d4) -> record input d4 = Ok (u', d5) ->
  order_cancelled now reason orderId n d0 d5 /\ commands (own d5) = commands (own d0).
Proof.
  intros Hinv Hp Hrel H1 H2 H3 H4 H5.
  apply move_order_step in H1 as (Q1 & _ & Hst & (T1 & T2 & T3 & _ & _ & T4) & E1).
  apply on_inv_step in H2 as [E2 H2]. apply Hrel in H2; [|by eapply inv_same_stock].
  apply releaseForOrder_step in H3 as (I3 & p' & E3 & P1 & P2 & P3); [|by rewrite E2, E1].
  apply outbox_step in H4 as (Q4 & id & O1 & O2 & E4). apply audit_step in H5 as [E5 Q5].
  rewrite E3, E2, E1 in *. split; [|by rewrite E5, E4].
  exists row, id, ty, key, payload, p', (commands (own d0)). split_and!; try done.
  - by rewrite E5, E4.
  - eapply stock_released_frame; [exact Hinv|exact Q1|exact H2|]. unfold unmoved in *. rewrite I3 in Q4. by etrans.
Qed.

Lemma set_commands_id t : set_commands (commands t) t = t.
Proof. by destruct t. Qed.

(** Records of commands around it. *)
Lemma order_cancelled_frame now reason orderId n d d1 d2 d' cs cs' : inv (inv_of d) -> unmoved d d1 -> own d1 = set_commands cs (own d) ->
  order_cancelled now reason orderId n d1 d2 -> inv_of d' = inv_of d2 -> own d' = set_commands cs' (own d2) ->
  order_cancelled now reason orderId n d d'.
Proof.
  intros Hinv Q1 E1 (row & id & topic & key & payload & p' & cs2 & E & H1 & H2 & H3 & H4 & H5 & H6 & H7 & H8 & H9 & H10 & H11) I2 E2.
  rewrite E1 in *. exists row, id, topic, key, payload, p', cs'. split_and!; try done; [by rewrite E2, E|].
  rewrite I2. eapply stock_released_frame; [exact Hinv|exact Q1|exact H8|done].
Qed.

(** The command ran for the first time. *)
Definition cancel_fresh (now : Z) (c : CancelCommand) (r : OrderResponse) d d' : Prop :=
  exists order n, find_order (cc_orderId c) (own d) = Some order /\ or_doorOrder order = None /\
    (forall owner, cc_ownerCustomerId c = Some owner -> truthy owner = true -> or_customerId order = owner) /\
    r = Cancelled (mkCommandResult (cc_orderId c) (or_number order) CANCELLED n now) /\
    order_cancelled now (cc_reason c) (cc_orderId c) n d d'.

(** The answer is on record, for the key and until its expiry. *)
Definition answered (orderId scope keyHash fp : string) (expires : Z) (r : OrderResponse) (t : SalesTables) : Prop :=
  exists rec, find_command orderId scope keyHash t = Some rec /\ oc_fingerprint rec = fp /\ oc_response rec = Some r /\ oc_expiresAt rec = expires.

(** The records that a cancellation at the time [now] still sees. *)
Definition kept_commands (now : Z) (c : CancelCommand) (t : SalesTables) : gmap string OrderCommandRecord :=
  delete_many (fun r => same_key (cc_orderId c) (cc_scope c) (hash (cc_idempotencyKey c)) r && (oc_expiresAt r <=? now)%Z) (commands t).

Lemma inserted_command id orderId scope keyHash fp r expires (cs : gmap string OrderCommandRecord) resp0 t :
  find_by (same_key orderId scope keyHash) cs = None ->
  commands t = <[id := mkOrderCommand id orderId scope keyHash fp (Some r) expires]> (<[id := mkOrderCommand id orderId scope keyHash fp resp0 expires]> cs) ->
  cs !! id = None -> answered orderId scope keyHash fp expires r t.
Proof.
  intros Hn Hcs Hid. exists (mkOrderCommand id orderId scope keyHash fp (Some r) expires). split; [|done].
  unfold find_command. rewrite Hcs, insert_insert_eq. apply find_by_inserted; [done|done|]. unfold same_key. cbn. by rewrite !bool_decide_true.
Qed.

Lemma cancel_order_tx_ok now c d r d' : inv (inv_of d) -> sales_ok (own d) -> cancel_tx cuid hash now c d = Ok (r, d') ->
  (exists prior, find_by (same_key (cc_orderId c) (cc_scope c) (hash (cc_idempotencyKey c))) (kept_commands now c (own d)) = Some prior /\
     oc_fingerprint prior = cc_fingerprint c /\ oc_response prior = Some r /\ unmoved d d' /\
     own d' = set_commands (kept_commands now c (own d)) (own d)) \/
  (cancel_fresh now c r d d' /\
   answered (cc_orderId c) (cc_scope c) (hash (cc_idempotencyKey c)) (cc_fingerprint c) (now + ORDER_CANCEL_RECORD_TTL_MS) r (own d')).
Proof.
  intros Hinv Hok H. unfold cancel_tx in H. run_inv.
  match goal with H : acquireOrderLock _ _ = _ |- _ => apply lock_step in H as [E0 Q0] end. run_part.
  match goal with H : modify _ _ = _ |- _ => injection H as _ <- end. rewrite E0 in *. fold (kept_commands now c (own d)) in *.
  destruct (find_command _ _ _ _) as [prior|] eqn:Hprior in H.
  { left. apply replay_step in H as (-> & Hf & Hr). exists prior. by split_and!. }
  right. run_inv.
  match goal with H : create_command _ _ _ _ _ _ _ _ = _ |- _ => apply command_step in H as (Q1 & Hid & _ & _ & E1) end.
  match goal with H1 : move_order _ _ _ _ _ _ = _, H2 : on_inv _ _ = _, H3 : on_promo _ _ = _, H4 : create_outbox _ _ _ _ _ _ _ = _, H5 : record _ _ = _ |- _ =>
    eapply (cancel_steps now) in H5 as [Hcan Ecs]; [| | |intros ? ? ?; apply release_order_ok|exact H1|exact H2|exact H3|exact H4] end.
  - assert (Hd0 : unmoved d s0) by (etrans; [exact Q0|exact Q1]).
    match goal with H : store_response _ _ _ = _ |- _ => apply response_step in H as (I2 & rec & Hrec & E2) end. rewrite Ecs, E1 in Hrec, E2. cbn [own set_commands commands] in Hrec, E2.
    rewrite lookup_insert_eq in Hrec. injection Hrec as <-. split.
    + assert (Hord : find_order (cc_orderId c) (own d) = Some v) by (rewrite E1 in Hsome; exact Hsome).
      exists v, x9. split; [exact Hord|]. split_and!; [..|done|].
      * match goal with H : bool_decide (is_Some (or_doorOrder v)) = false |- _ => by apply bool_decide_eq_false, eq_None_not_Some in H end.
      * intros owner Ho Ht. rewrite Ho, Ht in *. simpl in *.
        match goal with H : negb _ = false |- or_customerId _ = _ => apply negb_false_iff, bool_decide_eq_true in H; exact H end.
      * eapply (order_cancelled_frame _ _ _ _ d s0); [exact Hinv|exact Hd0|rewrite E1; reflexivity|exact Hcan|exact I2|exact E2].
    + eapply inserted_command; [exact Hprior|rewrite E2; reflexivity|exact Hid].
  - eapply inv_same_stock; [exact Hinv|]. etrans; [exact Q0|exact Q1].
  - rewrite E1. apply Hok.
Qed.

(** An order expires when it is still due, and is left alone otherwise. *)
Lemma expireOrder_tx_ok now orderId ctx d b d' : inv (inv_of d) -> sales_ok (own d) -> expireOrder_tx cuid now orderId ctx d = Ok (b, d') ->
  let due := match find_order orderId (own d) with Some o => still_due now orderId o (own d) | None => false end in
  b = due /\
  if due then exists n, order_cancelled now (RELEASE_REASON by_expiry) orderId n d d' /\ commands (own d') = commands (own d)
  else own d' = own d /\ unmoved d d'.
Proof.
  intros Hinv Hok H. unfold expireOrder_tx in H. run_inv.
  match goal with H : acquireOrderLock _ _ = _ |- _ => apply lock_step in H as [E0 Q0] end. rewrite E0 in *.
  destruct (find_order orderId (own d)) as [o|]; [|by run_inv]. destruct (still_due now orderId o (own d)); cbn [negb] in H; [|by run_inv].
  run_inv. split; [done|].
  match goal with H1 : move_order _ _ _ _ _ _ = _, H2 : on_inv _ _ = _, H3 : on_promo _ _ = _, H4 : create_outbox _ _ _ _ _ _ _ = _, H5 : record _ _ = _ |- _ =>
    eapply (cancel_steps now) in H5 as [Hcan Ecs]; [| | | |exact H1|exact H2|exact H3|exact H4] end.
  - eexists. split; [|by rewrite Ecs, E0]. eapply (order_cancelled_frame _ _ _ _ d _ _ _ (commands (own d)) (commands _)); [exact Hinv|exact Q0| |exact Hcan|done|].
    + rewrite E0. by destruct (own d).
    + symmetry. apply set_commands_id.
  - by eapply inv_same_stock.
  - rewrite E0. apply Hok.
  - intros db n db' Hdb. destruct (xc_actorId ctx); [by apply release_order_ok|by apply release_expired_ok].
Qed.
End cancel.
