(* ===== verification/PaymentProofs.v ===== *)
(** Payments from their initiation to their refund: what each transaction does, and that
    it keeps the invariant of the sales tables. *)

From S2P Require Import Prelude Table Paging Json StableJson AuditTrail Retry InventoryModel Inventory.
From S2P Require Import InventoryLedger InventoryProofs Durable DurableSafety StateMachine.
From S2P Require Import Door.
From S2P Require Import PromotionEngine PromotionClaims PromotionCapacity Credit CreditCommands CreditSales CreditBooks CreditRuns CreditSaleProofs.
From S2P Require Import Sales OrderCommands Fulfilling Payments SalesBooks OrderProofs.

(** * Reads *)

Lemma load_payment_ok id t w : load_payment id t = Some w ->
  payments t !! id = Some (pw_payment w) /\ payment_state id t = Some (pw_status w) /\
  find_order (pt_orderId (pw_payment w)) t = Some (pw_order w) /\ order_state (pt_orderId (pw_payment w)) t = Some (pw_orderStatus w).
Proof.
  unfold load_payment. destruct (payments t !! id) as [p|]; [|done]. cbn. destruct (payment_state id t) as [s|]; [|done]. cbn.
  destruct (find_order (pt_orderId p) t) as [o|] eqn:Ho; [|done]. cbn. destruct (order_state (pt_orderId p) t) as [os|] eqn:Hos; [|done]. cbn.
  intros [= <-]. by split_and!.
Qed.

Lemma payment_exists id t s : capture_ok (core_of t) -> payment_state id t = Some s -> exists p, payments t !! id = Some p /\ pt_id p = id.
Proof.
  intros Hok Hs. assert (H : is_Some (k_payment (core_of t) !! id)) by (by exists s). apply (ck_states _ Hok) in H as [p Hp].
  exists p. split; [done|]. by destruct (ck_payments _ Hok _ _ Hp).
Qed.

Section payments.
Context (cuid : nat -> string) (hash : string -> string) (gateway : PaymentGatewayConfig).
Implicit Types (d : Sales) (t : SalesTables).

(** * Initiation *)

(** A payment of the sales tables changes or is added; the rest stays. *)
Lemma create_payment_step order amount quote keyHash fp requestId d p d' :
  create_payment cuid gateway order amount quote keyHash fp requestId d = Ok (p, d') ->
  unmoved d d' /\ payments (own d) !! pt_id p = None /\ payment_state (pt_id p) (own d) = None /\
  pt_orderId p = or_id order /\ pt_amount p = amount /\ pt_refundedAmount p = 0%Z /\ pt_authority p = None /\ pt_idempotencyKey p = keyHash /\
  find_by (fun p => bool_decide (pt_idempotencyKey p = keyHash)) (payments (own d)) = None /\
  core_of (own d') = core_order (or_id order) (with_payment (pt_id p) order) (core_payment (pt_id p) p PAY_PENDING (core_of (own d))) /\
  promo (own d') = promo (own d) /\ same_books (credit (own d)) (credit (own d')) /\
  door_orders (doors (own d')) = door_orders (doors (own d)).
Proof.
  intros H. unfold create_payment in H. run_inv.
  match goal with H : on_inv _ _ = _ |- _ => apply quiet_fresh in H as [E1 Q1] end.
  match goal with H : (_ || _ || _)%bool = false |- _ =>
    apply orb_false_iff in H as [[G1%bool_decide_eq_false%eq_None_not_Some G2%bool_decide_eq_false%eq_None_not_Some]%orb_false_iff G3%bool_decide_eq_false%eq_None_not_Some] end.
  repeat match goal with H : on_own _ _ = _ |- _ => apply on_own_ok in H as (? & [= _ <-] & ->) end.
  match goal with H : on_credit _ _ = _ |- _ => apply on_credit_step in H as (z & H & ->); apply on_own_ok in H as (z' & [= _ <-] & ->) end.
  rewrite E1 in *. cbn [own inv_of] in *. split; [exact Q1|]. split; [exact G1|]. split; [exact G2|].
  split; [done|]. split; [done|]. split; [done|]. split; [done|]. split; [done|]. split; [exact G3|].
  destruct quote; (split; [reflexivity|]); (split; [reflexivity|]); by split.
Qed.

(** Answering from an earlier attempt of the key or of the order. *)
Lemma attemptForExisting_ok p s orderId fp cmp a : attemptForExisting p s orderId fp cmp = Ok a ->
  s = Some PAY_PENDING /\ pt_orderId p = orderId /\ (cmp = true -> pt_idempotencyFingerprint p = fp) /\
  exists authority, pt_authority p = Some authority /\ a = attempt_replay (pt_id p) authority (pt_amount p) (pt_gatewayEnvironment p).
Proof.
  unfold attemptForExisting. intros H. destruct (cmp && _) eqn:E1; [done|]. destruct (negb cmp && _) eqn:E2; [done|].
  destruct (bool_decide (s = Some PAY_PENDING)) eqn:E3; [|done]. destruct (bool_decide (pt_orderId p = orderId)) eqn:E4; [|done]. cbn in H.
  apply bool_decide_eq_true in E3, E4. destruct (pt_authority p) as [authority|]; [|done]. injection H as <-.
  split; [done|]. split; [done|]. split; [|by exists authority]. intros ->. cbn in E1. by apply negb_false_iff, bool_decide_eq_true in E1.
Qed.

(** A shop order is payable for its total while it waits for payment. *)
Lemma payable_shop now customer o t n q : payable_amount now customer o t = Ok (n, q) -> door_of o t = None ->
  order_state (or_id o) t = Some PENDING_PAYMENT /\ (now < or_reservationExpiresAt o)%Z /\ n = or_grandTotal o /\ q = None.
Proof.
  unfold payable_amount. intros H Hd. rewrite Hd in H. destruct (_ || _) eqn:E; [done|]. injection H as <- <-.
  apply orb_false_iff in E as [E1%negb_false_iff%bool_decide_eq_true E2%Z.leb_gt]. done.
Qed.

(** What the registration of an attempt does. *)
Definition registered (now : Z) (userId orderId key : string) (r : RegisteredAttempt) d d' : Prop :=
  exists order customer amount quote, find_order orderId (own d) = Some order /\ or_customerId order = cu_id customer /\ cu_userId customer = Some userId /\
    payable_amount now customer order (own d) = Ok (amount, quote) /\
    match r with
    | attempt_replay id authority n environment =>
        own d' = own d /\ exists p, (exists k, payments (own d) !! k = Some p) /\ pt_id p = id /\ pt_orderId p = orderId /\ payment_state id (own d) = Some PAY_PENDING /\
          pt_authority p = Some authority /\ pt_amount p = n /\ pt_gatewayEnvironment p = environment
    | attempt_authorize id number n =>
        number = or_number order /\ n = amount /\
        find_by (fun p => bool_decide (pt_idempotencyKey p = hash key)) (payments (own d)) = None /\
        exists p, pt_id p = id /\ pt_orderId p = orderId /\ pt_amount p = n /\ pt_refundedAmount p = 0%Z /\ pt_authority p = None /\
          payments (own d) !! id = None /\
          core_of (own d') = core_order orderId (with_payment id order) (core_payment id p PAY_PENDING (core_of (own d)))
    end.

(** No attempt is active: none of the order's payments is alive. *)
Lemma no_active_attempt t o : capture_ok (core_of t) -> find_order (or_id o) t = Some o -> or_doorOrder o = None ->
  order_state (or_id o) t = Some PENDING_PAYMENT -> head (find_sorted (ascending pt_createdAt) (active_attempt (or_id o) t) (payments t)) = None ->
  forall id q s, payments t !! id = Some q -> pt_orderId q = or_id o -> payment_state id t = Some s -> live s = false.
Proof.
  intros Hok Ho Hd Hst Hh id q s Hq Eq Hs. destruct (live s) eqn:Hl; [|done]. exfalso.
  destruct (settled s) eqn:Hset.
  - assert (Hc : closed (k_order (core_of t) !! pt_orderId q)).
    { eapply (ck_settled _ Hok); [exact Hq|exact Hs|done|]. exists o. by rewrite Eq. }
    rewrite Eq in Hc. unfold order_state in Hst. cbn in Hc. rewrite Hst in Hc. by destruct Hc.
  - assert (s = PAY_PENDING) as -> by (by destruct s).
    assert (Hin : q ∈ find_sorted (ascending pt_createdAt) (active_attempt (or_id o) t) (payments t)).
    { apply elem_of_find_sorted. split; [by exists id|]. unfold active_attempt. rewrite (bool_decide_true (pt_orderId q = or_id o)) by done.
      destruct (ck_payments _ Hok _ _ Hq) as [-> _]. by rewrite Hs. }
    destruct (find_sorted _ _ _); [by apply elem_of_nil in Hin|done].
Qed.

Lemma register_tx_ok now userId orderId key requestId d r d' : sales_ok (own d) -> register_tx cuid hash gateway now userId orderId key requestId d = Ok (r, d') ->
  unmoved d d' /\ registered now userId orderId key r d d' /\ sales_ok (own d').
Proof.
  intros Hok H. pose proof Hok as (Hc & Hp & Hb & Hdk). unfold register_tx in H. run_inv.
  match goal with H : acquireOrderLock _ _ = _ |- _ => apply lock_step in H as [E0 Q0] end. rewrite E0 in *.
  match goal with H : match find_order _ _ with _ => _ end = Some ?v |- _ =>
    destruct (find_order orderId (own d)) as [o|] eqn:Ho in H; [|done]; destruct (bool_decide (or_customerId o = _)) eqn:Hcu in H; [|done];
    apply bool_decide_eq_true in Hcu; injection H as <- end.
  match goal with H : find_by _ (customers _) = Some _ |- _ => apply find_by_Some in H as [_ Hu%bool_decide_eq_true] end.
  match goal with H : payable_amount _ _ _ _ = Ok ?v |- _ => destruct v as [amount quote]; rename H into Hpay end.
  assert (Eo : or_id o = orderId) by (by apply (ck_orders _ Hc)).
  assert (Hreplay : forall p k fp b a, payments (own d) !! k = Some p ->
    attemptForExisting p (payment_state (pt_id p) (own d)) (or_id o) fp b = Ok a ->
    registered now userId orderId key a d s1).
  { intros p k fp b a Hk Ha. apply attemptForExisting_ok in Ha as (Hs & Hoid & _ & authority & Hau & ->).
    exists o, v0, amount, quote. split_and!; try done. exists p. split_and!; try done; [by exists k|congruence]. }
  destruct (find_by _ (payments (own d))) as [p|] eqn:Hkey.
  { apply find_by_Some in Hkey as [[k Hk] _]. run_inv. split; [done|]. split; [by eapply Hreplay|by rewrite E0]. }
  destruct (head _) as [p|] eqn:Hact.
  { apply head_Some_elem_of, elem_of_find_sorted in Hact as [[k Hk] _]. run_inv. split; [done|]. split; [by eapply Hreplay|by rewrite E0]. }
  run_inv.
  match goal with H : create_payment _ _ _ _ _ _ _ _ _ = Ok (?p, _) |- _ =>
    apply create_payment_step in H as (Q1 & F1 & F2 & F3 & F4 & F5 & F6 & F7 & F8 & F9 & F10 & F11 & F12); rename p into p0 end.
  rewrite E0 in *. cbn [fst snd] in *. split; [by etrans|]. split.
  { exists o, v0, amount, quote. split_and!; try done. exists p0. by split_and!. }
  eapply sales_ok_core; [|exact F9|by rewrite F10|by eapply same_books_ok|by eapply door_keys_same]. rewrite <- F3.
  assert (Hshop : or_doorOrder o = None -> order_state (or_id o) (own d) = Some PENDING_PAYMENT /\ amount = or_grandTotal o).
  { intros Hd. apply payable_shop in Hpay as (H1 & _ & H2 & _); [done|]. unfold door_of. by rewrite Hd. }
  apply capture_new; [done|by rewrite F3|done|done|done|..].
  - intros Hd. rewrite F4. by apply Hshop.
  - intros Hd id q st Hq Eq Hst. rewrite F3 in Eq. destruct (Hshop Hd) as [Hpend _].
    by eapply (no_active_attempt (own d) o).
Qed.

(** ** The gateway's answer *)

Lemma core_payment_row t id p s : payments t !! id = Some p -> payment_state id t = Some s ->
  core_of t = core_payment id p s (core_of t).
Proof. intros Hp Hs. unfold core_payment, core_of. cbn. unfold payment_state in Hs. by rewrite !insert_id. Qed.

Lemma persist_tx_ok now orderId id amount authority d r d' : sales_ok (own d) -> persist_tx gateway now orderId id amount authority d = Ok (r, d') ->
  unmoved d d' /\ sales_ok (own d') /\
  (own d' = own d \/ exists p, payments (own d) !! id = Some p /\ payment_state id (own d) = Some PAY_PENDING /\ pt_authority p = None /\
     own d' = set_payments (<[id := with_authority (Some authority) p]> (payments (own d))) (own d)).
Proof.
  intros Hok H. pose proof Hok as (Hc & Hp & Hb & Hdk). unfold persist_tx in H. run_inv.
  match goal with H : acquireOrderLock _ _ = _ |- _ => apply lock_step in H as [E0 Q0] end. rewrite E0 in *.
  destruct (payments (own d) !! id) as [p|] eqn:Hrow; [|run_inv; rewrite E0; by split_and!; [..|left]].
  destruct (_ && _) eqn:Hg; [|run_inv; rewrite E0; by split_and!; [..|left]].
  apply andb_prop in Hg as [Hs%bool_decide_eq_true Ha%bool_decide_eq_true]. run_inv.
  match goal with H : update_payment _ _ _ = _ |- _ => apply update_payment_step in H as (I1 & q & Hq & E1) end. rewrite E0 in *.
  assert (q = p) as -> by congruence. split; [unfold unmoved in *; by rewrite I1|]. split; [|right; exists p; by split_and!].
  rewrite E1. eapply sales_ok_core; [apply (capture_row _ Hc id p (with_authority (Some authority) p) PAY_PENDING)| |done|done|done]; [done..|].
  unfold core_payment, core_of. cbn. f_equal. unfold payment_state in Hs. by rewrite insert_id.
Qed.

(** A pending payment that fails. *)
Definition payment_failed (id reason : string) d d' : Prop :=
  payment_state id (own d) = Some PAY_PENDING /\ payment_state id (own d') = Some PAY_FAILED /\
  exists row, tr_reason row = Some reason /\ tr_parentId row = id /\
    own d' = set_outbox (outbox (own d')) (set_payment_status (moved_to id PAY_FAILED row (payment_status (own d))) (own d)).

Lemma payment_failed_ok id reason d d' : sales_ok (own d) -> payment_failed id reason d d' -> sales_ok (own d').
Proof.
  intros (Hc & Hp & Hb & Hdk) (Hs & _ & row & _ & _ & E). destruct (payment_exists id _ _ Hc Hs) as (p & Hrow & _).
  rewrite E. eapply sales_ok_core; [apply (capture_failed _ Hc id p)| |done|done|done]; [done|done|].
  unfold core_payment, core_of. cbn. f_equal. by rewrite insert_id.
Qed.

Lemma set_outbox_id t : set_outbox (outbox t) t = t.
Proof. by destruct t. Qed.

Lemma mark_failed_tx_ok id requestId reason d u d' : sales_ok (own d) -> mark_failed_tx cuid id requestId reason d = Ok (u, d') ->
  unmoved d d' /\ sales_ok (own d') /\ (d' = d \/ payment_failed id reason d d').
Proof.
  intros Hok H. unfold mark_failed_tx in H. run_inv. destruct (negb _) eqn:Hg; [run_inv; by split_and!; [..|left]|].
  apply negb_false_iff, bool_decide_eq_true in Hg. run_inv.
  match goal with H : move_payment _ _ _ _ _ _ = _ |- _ => apply move_payment_step in H as (Q1 & _ & _ & (T1 & _ & _ & _ & _ & T2) & E1) end.
  match goal with |- unmoved d ?x /\ _ => rename x into d1 end.
  assert (Hf : payment_failed id reason d d1).
  { split; [done|]. split; [rewrite E1; apply lookup_insert_eq|]. eexists. split; [exact T2|]. split; [exact T1|]. by rewrite E1. }
  split; [done|]. split; [by eapply payment_failed_ok|by right].
Qed.

(** * Settlement *)

Lemma confirmForOrder_step o now d n d' : promo_ok (promo (own d)) -> on_promo (confirmForOrder o now) d = Ok (n, d') ->
  inv_of d' = inv_of d /\ exists p', own d' = set_promo p' (own d) /\ promo_ok p' /\ (customer_limits (promo (own d)) -> customer_limits p') /\
    order_settled (of_order_in o RED_RESERVED) (confirmed now) (redemptions (promo (own d))) (redemptions p').
Proof.
  intros Hok H. apply on_promo_step in H as (x & H & ->). apply confirmForOrder_ok in H as (_ & H1 & H2 & H3 & H4); [|done].
  split; [exact H3|]. exists (own x). by split_and!.
Qed.

Lemma consume_step oid ctx d n d' : inv (inv_of d) -> on_inv (consumeReservationsForOrder cuid oid ctx) d = Ok (n, d') ->
  own d' = own d /\ order_shipped oid (inv_of d) (inv_of d') /\ n = Z.of_nat (length (order_reservations oid (inv_of d))).
Proof.
  intros Hinv H. apply on_inv_ok in H as (db & H & ->). split; [done|]. unfold consumeReservationsForOrder in H. run_inv.
  apply (order_loop_refines CONSUMED EShip) in H as (-> & Href & Hfin); [|intros; by eapply consumeSingle_refines|done].
  split; [by split|]. by rewrite length_fmap.
Qed.

(** The fulfillment of an order, created when there is none. *)
Definition fulfillment_ready (orderId : string) (f : Fulfillment) (c c' : CreditTables) : Prop :=
  fulfillment_of orderId c' = Some f /\ order_status c' = order_status c /\ orders c' = orders c /\ same_books c c' /\
  (c' = c \/ fulfillment_of orderId c = None /\ sd_status (fulfillment_status c') !! fu_id f = Some FUL_PENDING).

Lemma set_credit_id t : set_credit (credit t) t = t.
Proof. by destruct t. Qed.

Lemma upsert_step orderId d f d' : upsert_fulfillment cuid orderId d = Ok (f, d') ->
  unmoved d d' /\ exists c', own d' = set_credit c' (own d) /\ fulfillment_ready orderId f (credit (own d)) c'.
Proof.
  intros H. unfold upsert_fulfillment in H. run_inv. destruct (order_fulfillment orderId (own d)) as [g|] eqn:Hg.
  { run_inv. split; [done|]. eexists. split; [symmetry; apply set_credit_id|]. split_and!; try done; by left. }
  run_inv.
  match goal with H : on_credit _ _ = _ |- _ => apply on_credit_step in H as (y & H & ->); apply create_fulfillment_ok in H as ([Q B] & O1 & O2 & N & g & F1 & F2 & F3 & F4) end.
  match goal with H : order_fulfillment _ _ = Some ?w |- _ => cbn in H; rename H into Hf, w into f end.
  split; [exact Q|]. exists (own y). split; [done|]. cbn [own] in *.
  split; [exact Hf|]. split; [done|]. split; [done|]. split; [exact B|]. right. split; [exact N|].
  assert (f = g) as ->; [|rewrite F4; apply lookup_insert_eq].
  assert (E : fulfillment_of orderId (own y) = Some g); [|unfold order_fulfillment, set_credit in Hf; cbn in Hf; congruence].
  unfold fulfillment_of in *. rewrite F1. apply find_by_inserted; [done|exact N|by apply bool_decide_true].
Qed.

Lemma open_step id requestId d u d' : open_fulfillment cuid id requestId d = Ok (u, d') ->
  unmoved d d' /\ exists os, own d' = set_openings os (own d).
Proof.
  intros H. unfold open_fulfillment in H. run_inv.
  match goal with H : on_inv _ _ = _ |- _ => apply quiet_fresh in H as [E1 Q1] end. run_part.
  match goal with H : modify _ _ = _ |- _ => injection H as _ <- end. rewrite E1. split; [exact Q1|]. cbn [own].
  destruct (has_transition _ _ _); [|by eexists]. exists (openings (own d)). by destruct (own d).
Qed.

(** A pending payment was received under its gateway reference, with the order in [s']. *)
Definition received (id reference : string) (p : Payment) (s' : OrderStatus) (c : Core) : Core :=
  mkCore (k_orders c) (<[pt_orderId p := s']> (k_order c)) (<[id := with_reference (Some reference) p]> (k_payments c))
    (<[id := PAY_PAID]> (k_payment c)) (k_refunds c).

Lemma received_ok c id reference p s' : capture_ok c -> k_payments c !! id = Some p -> k_payment c !! id = Some PAY_PENDING ->
  (shop_order c (pt_orderId p) -> s' = PAID \/ s' = CANCELLED) -> capture_ok (received id reference p s' c).
Proof.
  intros Hok Hp Hs Hs'. unfold received. apply (capture_received c Hok id p (with_reference (Some reference) p)); try done.
  - intros oid Hne. by rewrite lookup_insert_ne.
  - intros Hshop. rewrite lookup_insert_eq. destruct (Hs' Hshop) as [-> | ->]; [by left|by right].
Qed.

(** While a payment of a shop order is pending, the order is not paid. *)
Lemma pending_unpaid c id p o : capture_ok c -> k_payments c !! id = Some p -> k_payment c !! id = Some PAY_PENDING ->
  k_orders c !! pt_orderId p = Some o -> or_doorOrder o = None -> k_order c !! pt_orderId p <> Some PAID.
Proof.
  intros Hok Hp Hs Ho Hd Hpaid. assert (Hshop : shop_order c (pt_orderId p)) by (by exists o).
  destruct (ck_paid _ Hok _ Hshop Hpaid) as (pid & q & s & Hq & Eq & Hst & Hset).
  assert (pid = id) as ->; [|rewrite Hs in Hst; by injection Hst as <-].
  eapply (ck_single _ Hok _ _ _ _ _ _ Hq Hp Eq); [by rewrite Eq|exact Hst|exact Hs| |done]. by destruct s.
Qed.

(** What the settlement of an open shop order does: the money is received, the order is
    paid, its reservations are shipped, its promotion uses confirmed, its fulfillment opened. *)
Definition shop_settled (now : Z) (w : PaymentWithOrder) (reference : string) (out : VerificationOutcome) d d' : Prop :=
  let p := pw_payment w in let oid := pt_orderId p in
  order_state oid (own d) = Some PENDING_PAYMENT /\
  core_of (own d') = received (pt_id p) reference p PAID (core_of (own d)) /\ same_books (credit (own d)) (credit (own d')) /\ door_orders (doors (own d')) = door_orders (doors (own d)) /\
  order_shipped oid (inv_of d) (inv_of d') /\
  (exists p', promo (own d') = p' /\ promo_ok p' /\ (customer_limits (promo (own d)) -> customer_limits p') /\
     order_settled (of_order_in oid RED_RESERVED) (confirmed now) (redemptions (promo (own d))) (redemptions p')) /\
  (exists f, order_fulfillment oid (own d') = Some f /\ vo_fulfillmentId out = Some (fu_id f) /\
     (order_fulfillment oid (own d) = Some f \/ order_fulfillment oid (own d) = None /\ fulfillment_state (fu_id f) (own d') = Some FUL_PENDING)) /\
  (exists id payload, outbox (own d) !! id = None /\
     outbox (own d') = <[id := mkOutboxEvent id "PAYMENT_VERIFIED" "payment" (pt_id p) ("payment-verified:" +:+ pt_id p) payload]> (outbox (own d))) /\
  vo_paymentStatus out = PAY_PAID /\ vo_outcome out = VERIFIED /\ vo_orderId out = oid /\ vo_orderStatus out = PAID /\
  vo_referenceId out = Some reference /\ vo_consumedReservations out = Z.of_nat (length (order_reservations oid (inv_of d))).

Lemma settle_shop_ok now payment w reference requestId d out d' : inv (inv_of d) -> sales_ok (own d) ->
  load_payment (pt_id payment) (own d) = Some w -> pw_status w = PAY_PENDING -> pt_orderId payment = pt_orderId (pw_payment w) ->
  or_doorOrder (pw_order w) = None -> settle_shop cuid now payment w reference requestId d = Ok (out, d') -> shop_settled now w reference out d d'.
Proof.
  intros Hinv (Hc & Hp & Hb & Hdk) Hw Hpend Hoid Hdoor H. apply load_payment_ok in Hw as (W1 & W2 & W3 & W4). rewrite Hpend in W2.
  assert (Hid : pt_id (pw_payment w) = pt_id payment) by (by destruct (ck_payments _ Hc _ _ W1)).
  pose proof (pending_unpaid _ _ _ _ Hc W1 W2 W3 Hdoor) as Hun. unfold settle_shop in H. rewrite Hoid in H. run_inv.
  match goal with H : move_payment _ _ _ _ _ _ = _ |- _ => apply move_payment_step in H as (Q1 & _ & _ & _ & E1) end.
  match goal with H : update_payment _ _ _ = _ |- _ => apply update_payment_step in H as (I2 & q & Hq & E2) end.
  assert (q = pw_payment w) as -> by (rewrite E1 in Hq; cbn in Hq; congruence).
  match goal with H : (if bool_decide (pw_orderStatus w = PENDING_PAYMENT) then _ else _) _ = _ |- _ =>
    destruct (bool_decide (pw_orderStatus w = PENDING_PAYMENT)) eqn:Hst in H; [apply bool_decide_eq_true in Hst|exfalso] end.
  2: { run_inv. match goal with H : negb _ = false |- _ => apply negb_false_iff, bool_decide_eq_true in H; rewrite H in W4 end. by apply Hun. }
  run_inv.
  match goal with H : move_order _ _ _ _ _ _ = _ |- _ => apply move_order_step in H as (Q3 & _ & _ & _ & E3) end.
  match goal with H : on_promo _ _ = _ |- _ => apply confirmForOrder_step in H as (I4 & p' & E4 & P1 & P2 & P3); [|by rewrite E3, E2, E1] end.
  assert (Q04 : forall s4, inv_of s4 = inv_of s2 -> unmoved d s4).
  { intros s' E. unfold unmoved in *. rewrite E, I4. rewrite I2 in Q3. by etrans. }
  match goal with H : on_inv _ ?a = _ |- _ => apply consume_step in H as (E5 & Hship & Hn); [|eapply inv_same_stock; [exact Hinv|by apply Q04]] end.
  match goal with H : upsert_fulfillment _ _ _ = _ |- _ => apply upsert_step in H as (Q6 & c' & E6 & F1 & F2 & F3 & F4 & F5) end.
  match goal with H : open_fulfillment _ _ _ _ = _ |- _ => apply open_step in H as (Q7 & os & E7) end.
  match goal with H : create_outbox _ _ _ _ _ _ _ = _ |- _ => apply outbox_step in H as (Q8 & eid & O1 & O2 & E8) end.
  match goal with A : record _ s6 = _, B : record _ s7 = _ |- _ => apply audit_step in A as [E9 Q9]; apply audit_step in B as [E10 Q10] end.
  unfold shop_settled. track. cbn in F1, F2, F3, F4, F5, O1 |- *.
  split; [by rewrite Hst in W4|]. split.
  { unfold received, core_of. cbn. rewrite F2, F3, Hid. done. }
  split; [exact F4|]. split; [done|]. split.
  { eapply order_shipped_frame; [exact Hinv|by apply (Q04 s2)|exact Hship|]. unfold unmoved in *. etrans; [exact Q6|]. etrans; [exact Q7|].
    etrans; [exact Q8|]. by etrans. }
  split; [by exists p'|]. split.
  { exists x4. split; [exact F1|]. split; [done|]. destruct F5 as [-> | [F5 F6]]; [left; exact F1|right; by split]. }
  split; [eexists eid, _; by rewrite Hid|]. split_and!; try done.
  rewrite Hn. unfold order_reservations. f_equal. f_equal. assert (R : reservations (inv_of s2) = reservations (inv_of d)) by (by apply (Q04 s2)).
  by rewrite R.
Qed.

Lemma shop_settled_ok now w reference out d d' : sales_ok (own d) -> load_payment (pt_id (pw_payment w)) (own d) = Some w -> pw_status w = PAY_PENDING ->
  shop_settled now w reference out d d' -> sales_ok (own d').
Proof.
  intros (Hc & Hp & Hb & Hdk) Hw Hpend (_ & E & B & Ed & _ & (p' & <- & Hp' & _) & _). apply load_payment_ok in Hw as (W1 & W2 & _). rewrite Hpend in W2.
  eapply sales_ok_core; [|exact E|done|by eapply same_books_ok|by eapply door_keys_same]. apply received_ok; [done..|]. by left.
Qed.

(** ** A payment verified after its order was cancelled *)

(** Only the money is recorded: no order, stock or promotion use comes back. *)
Definition late_received (w : PaymentWithOrder) (reference : string) (out : VerificationOutcome) d d' : Prop :=
  let p := pw_payment w in
  pw_orderStatus w = CANCELLED /\ unmoved d d' /\ vo_outcome out = VERIFIED_AFTER_CANCELLED /\ vo_paymentStatus out = PAY_PAID /\
  vo_orderStatus out = CANCELLED /\ vo_consumedReservations out = 0%Z /\
  exists row id payload, outbox (own d) !! id = None /\
    own d' = set_outbox (<[id := mkOutboxEvent id "PAYMENT_VERIFIED_AFTER_CANCELLED" "payment" (pt_id p)
        ("payment-verified-after-cancelled:" +:+ pt_id p) payload]> (outbox (own d)))
      (set_payments (<[pt_id p := with_reference (Some reference) p]> (payments (own d)))
        (set_payment_status (moved_to (pt_id p) PAY_PAID row (payment_status (own d))) (own d))).

Lemma settleAfterCancellation_ok w reference requestId d out d' : load_payment (pt_id (pw_payment w)) (own d) = Some w ->
  pw_orderStatus w = CANCELLED -> settleAfterCancellation cuid w reference requestId d = Ok (out, d') -> late_received w reference out d d'.
Proof.
  intros Hw Hc H. apply load_payment_ok in Hw as (W1 & W2 & _). unfold settleAfterCancellation in H. run_inv.
  match goal with H : move_payment _ _ _ _ _ _ = _ |- _ => apply move_payment_step in H as (Q1 & _ & _ & _ & E1) end.
  match goal with H : update_payment _ _ _ = _ |- _ => apply update_payment_step in H as (I2 & q & Hq & E2) end.
  assert (q = pw_payment w) as -> by (rewrite E1 in Hq; cbn in Hq; congruence).
  match goal with H : create_outbox _ _ _ _ _ _ _ = _ |- _ => apply outbox_step in H as (Q3 & eid & O1 & _ & E3) end.
  match goal with H : record _ _ = _ |- _ => apply audit_step in H as [E4 Q4] end.
  split; [done|]. split.
  { unfold unmoved in *. rewrite I2 in Q3. etrans; [exact Q1|]. etrans; [exact Q3|exact Q4]. }
  do 4 (split; [done|]). track. eexists _, eid, _. split; [exact O1|]. done.
Qed.

Lemma late_received_ok w reference out d d' : sales_ok (own d) -> load_payment (pt_id (pw_payment w)) (own d) = Some w -> pw_status w = PAY_PENDING ->
  late_received w reference out d d' -> sales_ok (own d').
Proof.
  intros (Hc & Hp & Hb & Hdk) Hw Hpend (Hst & _ & _ & _ & _ & _ & row & id & payload & _ & E). apply load_payment_ok in Hw as (W1 & W2 & _ & W4).
  rewrite Hpend in W2. rewrite Hst in W4. rewrite E.
  eapply sales_ok_core; [apply (received_ok _ (pt_id (pw_payment w)) reference (pw_payment w) CANCELLED Hc); [done|done|by right]| |done|done|done].
  unfold received, core_of. cbn. f_equal. symmetry. by apply insert_id.
Qed.

(** ** Made-to-order doors *)

(** The rows of the order's payments with this one received. *)
Definition door_rows (w : PaymentWithOrder) t : list PaymentRow :=
  (fun x => if bool_decide (Door.py_id x = pt_id (pw_payment w))
     then Door.mkPayment (Door.py_id x) PAY_PAID (Door.py_amount x) (Door.py_refundedAmount x) else x)
    <$> order_payment_rows (pw_order w) t.

(** The received total is the price of the approved current quotation, which this payment
    was allocated to, and nothing was cancelled. *)
Definition door_covered (w : PaymentWithOrder) t : Prop :=
  exists row quote, door_orders (doors t) !! pt_orderId (pw_payment w) = Some row /\ dr_status row <> D_CANCELLED /\ pw_orderStatus w <> CANCELLED /\
    quote ∈ door_quotes (dr_id row) t /\ dq_version quote = dr_currentQuoteVersion row /\ dq_approved quote = true /\
    dq_total quote = Some (doorPaid (door_rows w t)) /\ (q ← allocated_quote (pt_id (pw_payment w)) (dr_id row) t; Some (dq_id q)) = Some (dq_id quote).

(** The money is received in any case; the order is paid only when its price is covered. *)
Definition door_received (w : PaymentWithOrder) (reference : string) (s' : OrderStatus) d d' : Prop :=
  unmoved d d' /\ core_of (own d') = received (pt_id (pw_payment w)) reference (pw_payment w) s' (core_of (own d)) /\
  (s' = pw_orderStatus w \/ s' = PAID /\ pw_orderStatus w = PENDING_PAYMENT /\ door_covered w (own d)) /\
  promo (own d') = promo (own d) /\ same_books (credit (own d)) (credit (own d')) /\ door_keys (own d').

Lemma set_doors_id t : set_doors (doors t) t = t.
Proof. by destruct t. Qed.

Lemma production_step orderId action message payload d u d' : create_production_record cuid orderId action message payload d = Ok (u, d') ->
  unmoved d d' /\ exists x, own d' = set_doors (set_production x (doors (own d))) (own d).
Proof.
  intros H. unfold create_production_record in H. run_inv.
  match goal with H : on_inv _ _ = _ |- _ => apply quiet_fresh in H as [E1 Q1] end. run_part.
  match goal with H : modify _ _ = _ |- _ => injection H as _ <- end. rewrite E1. split; [exact Q1|]. by eexists.
Qed.

(** The two optional steps. *)
Lemma optional_move b id from to meta d u d' :
  (if b : bool then _ ← move_order cuid id from to meta; mret tt else mret tt) d = Ok (u, d') ->
  unmoved d d' /\ if b then exists row, own d' = set_credit (put (moved_to id to row (order_status (credit (own d)))) (credit (own d))) (own d)
                  else own d' = own d.
Proof.
  destruct b; intros H; run_inv; [|done].
  match goal with H : move_order _ _ _ _ _ _ = _ |- _ => apply move_order_step in H as (Q1 & _ & _ & _ & E1) end. split; [done|]. by eexists.
Qed.
Lemma optional_deposit (b : bool) (row : DoorOrder) e d u d' :
  (if b then throw_if (negb (int4 (dr_version row + 1))) e ;;
     on_own (modify (fun t => set_doors (set_door_orders (<[dr_id row := with_door_status D_DEPOSIT_PAID row]> (door_orders (doors t))) (doors t)) t))
   else mret tt) d = Ok (u, d') ->
  unmoved d d' /\ exists x, own d' = set_doors x (own d) /\ (door_keys (own d) -> door_keys (own d')).
Proof.
  destruct b; intros H; run_domain.
  - split; [done|]. eexists. split; [done|]. intros Hk id r. cbn. intros [[<- <-]|[_ Hr]]%lookup_insert_Some; [done|by apply Hk].
  - split; [done|]. eexists. split; [symmetry; apply set_doors_id|done].
Qed.

Lemma settleDoorPaymentIn_ok w reference requestId d res d' : sales_ok (own d) -> load_payment (pt_id (pw_payment w)) (own d) = Some w ->
  pw_status w = PAY_PENDING -> settleDoorPaymentIn cuid w reference requestId d = Ok (res, d') -> door_received w reference (snd res) d d'.
Proof.
  intros (Hc & Hp & Hb & Hdk) Hw Hpend H. apply load_payment_ok in Hw as (W1 & W2 & W3 & W4). unfold settleDoorPaymentIn in H. run_inv.
  fold (door_rows w (own d)) in *.
  match goal with H : (if ?b then _ ← move_order _ _ _ _ _; _ else _) _ = _ |- _ => set (pays := b) in *; apply optional_move in H as [Q3 E3] end.
  match goal with H : move_payment _ _ _ _ _ _ = _ |- _ => apply move_payment_step in H as (Q1 & _ & _ & _ & E1) end.
  match goal with H : update_payment _ _ _ = _ |- _ => apply update_payment_step in H as (I2 & q & Hq & E2) end.
  assert (q = pw_payment w) as -> by (rewrite E1 in Hq; cbn in Hq; congruence).
  match goal with H : (if _ then throw_if _ _ ;; _ else _) _ = _ |- _ => apply optional_deposit in H as (Q4 & x4' & E4 & Hk4) end.
  match goal with H : create_production_record _ _ _ _ _ _ = _ |- _ => apply production_step in H as (Q5 & x5' & E5) end.
  match goal with H : create_outbox _ _ _ _ _ _ _ = _ |- _ => apply outbox_step in H as (Q6 & eid & _ & _ & E6) end.
  match goal with H : record _ _ = _ |- _ => apply audit_step in H as [E7 Q7] end.
  match goal with H : door_orders _ !! _ = Some ?r |- _ => rename H into Hrow, r into row end.
  assert (Hkey : dr_id row = pt_orderId (pw_payment w)) by (by apply Hdk).
  assert (D7 : doors (own s7) = doors (own d)).
  { destruct pays; [destruct E3 as [tr E3]|]; rewrite E3, E2, E1; done. }
  assert (K8 : door_keys (own s8)) by (apply Hk4; eapply door_keys_same; [exact Hdk|by rewrite D7]).
  split.
  { unfold unmoved in *. rewrite I2 in Q3. repeat (first [assumption|etrans; [eassumption|]]). }
  cbn [snd]. assert (Ks : k_order (core_of (own d)) !! pt_orderId (pw_payment w) = Some (pw_orderStatus w)) by exact W4.
  assert (Kd : door_keys (own s11)) by (rewrite E7, E6; eapply door_keys_same; [exact K8|by rewrite E5]).
  destruct pays eqn:Hpays; unfold pays in Hpays.
  - destruct E3 as [tr E3]. apply andb_prop in Hpays as [[Hr%negb_true_iff Ht%Z.leb_le]%andb_prop Hst%bool_decide_eq_true].
    repeat (apply orb_false_iff in Hr as [Hr ?]).
    split; [track; unfold received, core_of; cbn; by rewrite Hkey|]. split; [right|split; [by track|split; [by track; split|exact Kd]]].
    split; [done|]. split; [done|].
    match goal with H : head (List.filter _ _) = Some ?q0 |- _ => apply head_Some_elem_of, list_elem_of_In, filter_In in H as [Hq1%list_elem_of_In Hq2%bool_decide_eq_true];
      exists row, q0 end.
    repeat match goal with H : bool_decide _ = false |- _ => apply bool_decide_eq_false in H | H : negb _ = false |- _ => apply negb_false_iff in H
      | H : bool_decide _ = true |- _ => apply bool_decide_eq_true in H | H : (_ <? _)%Z = false |- _ => apply Z.ltb_ge in H end.
    split_and!; try done.
    + match goal with H : dq_total _ = Some _ |- _ => rewrite H end. f_equal. lia.
    + match goal with H : allocated_quote _ _ _ = Some _ |- _ => rewrite H end. cbn. by f_equal.
  - split; [track; unfold received, core_of; cbn; f_equal; symmetry; by apply insert_id|].
    split; [by left|]. split; [by track|]. split; [by track; split|exact Kd].
Qed.

Lemma door_received_ok w reference s' d d' : sales_ok (own d) -> load_payment (pt_id (pw_payment w)) (own d) = Some w -> pw_status w = PAY_PENDING ->
  or_doorOrder (pw_order w) <> None -> door_received w reference s' d d' -> sales_ok (own d').
Proof.
  intros (Hc & Hp & Hb & Hdk) Hw Hpend Hdoor (_ & E & _ & P & B & K). apply load_payment_ok in Hw as (W1 & W2 & W3 & _). rewrite Hpend in W2.
  eapply sales_ok_core; [|exact E|by rewrite P|by eapply same_books_ok|exact K]. apply received_ok; [done..|].
  intros (o & Ho & Hn). exfalso. apply Hdoor. unfold find_order in W3. cbn in Ho. congruence.
Qed.

(** ** The answer of the gateway *)

(** What a verified pending payment leads to. *)
Definition verified_settled (now : Z) (w : PaymentWithOrder) (reference : string) (out : VerificationOutcome) d d' : Prop :=
  vo_paymentId out = pt_id (pw_payment w) /\ vo_paymentStatus out = PAY_PAID /\
  match or_doorOrder (pw_order w) with
  | Some _ => exists s', door_received w reference s' d d'
  | None => if bool_decide (pw_orderStatus w = CANCELLED) then late_received w reference out d d' else shop_settled now w reference out d d'
  end.

Lemma verified_settled_frame now w reference out d d1 d' : inv (inv_of d) -> own d1 = own d -> unmoved d d1 ->
  verified_settled now w reference out d1 d' -> verified_settled now w reference out d d'.
Proof.
  intros Hinv E Q (H1 & H2 & H). split; [done|]. split; [done|]. destruct (or_doorOrder _).
  - destruct H as (s' & Q' & H). exists s'. rewrite E in H. split; [by etrans|exact H].
  - destruct (bool_decide _).
    + destruct H as (A & Q' & B). rewrite E in B. split; [exact A|]. split; [by etrans|exact B].
    + unfold shop_settled in *. rewrite E in H. destruct H as (A1 & A2 & A3 & A4 & A5 & A6).
      split; [exact A1|]. split; [exact A2|]. split; [exact A3|]. split; [exact A4|].
      split; [by eapply order_shipped_frame|]. destruct A6 as (A6 & A7 & A8 & A9 & A10 & A11 & A12 & A13 & A14).
      split_and!; try done. rewrite A14. unfold order_reservations. assert (R : reservations (inv_of d1) = reservations (inv_of d)) by apply Q.
      by rewrite R.
Qed.

Lemma verified_settled_ok now w reference out d d' : sales_ok (own d) -> load_payment (pt_id (pw_payment w)) (own d) = Some w ->
  pw_status w = PAY_PENDING -> verified_settled now w reference out d d' -> sales_ok (own d').
Proof.
  intros Hok Hw Hs (_ & _ & H). destruct (or_doorOrder (pw_order w)) eqn:Hd.
  - destruct H as [s' H]. eapply door_received_ok; try done. by rewrite Hd.
  - destruct (bool_decide _); [by eapply late_received_ok|by eapply shop_settled_ok].
Qed.

(** The payment as it was read before the gateway answered is still the payment of that order. *)
Definition still_of_order (payment : Payment) t : Prop :=
  forall p, payments t !! pt_id payment = Some p -> pt_orderId payment = pt_orderId p.

Lemma settle_pending_ok now payment w reference requestId d out d' : inv (inv_of d) -> sales_ok (own d) ->
  load_payment (pt_id payment) (own d) = Some w -> pw_status w = PAY_PENDING -> still_of_order payment (own d) ->
  settle_pending cuid now payment w reference requestId d = Ok (out, d') -> verified_settled now w reference out d d'.
Proof.
  intros Hinv Hok Hw Hs Hof H. pose proof (load_payment_ok _ _ _ Hw) as (W1 & W2 & W3 & W4).
  assert (Hid : pt_id (pw_payment w) = pt_id payment) by (by destruct (ck_payments _ (proj1 Hok) _ _ W1)).
  assert (Hoid := Hof _ W1). unfold verified_settled, settle_pending in *. rewrite <- Hid in Hw. destruct (or_doorOrder (pw_order w)) as [x|] eqn:Hd.
  - run_inv. match goal with H : settleDoorPaymentIn _ _ _ _ _ = Ok (?r, _) |- _ => apply settleDoorPaymentIn_ok in H; [|done..] end.
    split; [done|]. split; [done|]. by eexists.
  - run_inv. destruct (bool_decide (pw_orderStatus w = CANCELLED)) eqn:Hc.
    + apply bool_decide_eq_true in Hc. assert (Hout : vo_paymentId out = pt_id (pw_payment w)) by (unfold settleAfterCancellation in H; by run_inv).
      apply settleAfterCancellation_ok in H as Hl; [|done..]. split; [done|]. split; [apply Hl|done].
    + assert (Hout : vo_paymentId out = pt_id payment /\ vo_paymentStatus out = PAY_PAID) by (unfold settle_shop in H; by run_inv).
      rewrite Hid in Hw. apply settle_shop_ok in H; [|done..]. rewrite Hid. destruct Hout. by split_and!.
Qed.

Lemma apply_verified_tx_ok now payment reference requestId d out d' : inv (inv_of d) -> sales_ok (own d) -> still_of_order payment (own d) ->
  apply_verified_tx cuid now payment reference requestId d = Ok (out, d') ->
  exists w, load_payment (pt_id payment) (own d) = Some w /\
    ((pw_status w = PAY_PAID /\ own d' = own d /\ unmoved d d' /\ out = replayOutcome w) \/
     (pw_status w = PAY_PENDING /\ verified_settled now w reference out d d')).
Proof.
  intros Hinv Hok Hof H. unfold apply_verified_tx in H. run_inv.
  match goal with H : acquireOrderLock _ _ = _ |- _ => apply lock_step in H as [E0 Q0] end. rewrite E0 in *.
  match goal with H : load_payment _ _ = Some ?v |- _ => rename v into w; rename H into Hw end. exists w. split; [done|].
  destruct (bool_decide (pw_status w = PAY_PAID)) eqn:Hp; [apply bool_decide_eq_true in Hp; run_inv; by left|]. right. run_inv.
  match goal with H : negb _ = false |- _ => apply negb_false_iff, bool_decide_eq_true in H as Hs end. split; [done|].
  eapply verified_settled_frame; [exact Hinv|exact E0|exact Q0|]. eapply settle_pending_ok; [by eapply inv_same_stock| | |exact Hs| |exact H];
    by rewrite E0.
Qed.

(** The gateway refuses: a pending payment fails, anything else stays. *)
Lemma mark_not_paid_tx_ok payment requestId d out d' : sales_ok (own d) -> mark_not_paid_tx cuid payment requestId d = Ok (out, d') ->
  exists w, load_payment (pt_id payment) (own d) = Some w /\ unmoved d d' /\
    ((pw_status w <> PAY_PENDING /\ own d' = own d /\ out = replayOutcome w) \/
     (pw_status w = PAY_PENDING /\ payment_failed (pt_id payment) REASON_NOT_PAID d d' /\ vo_paymentStatus out = PAY_FAILED /\ vo_outcome out = NOT_PAID)).
Proof.
  intros Hok H. unfold mark_not_paid_tx in H. run_inv.
  match goal with H : acquireOrderLock _ _ = _ |- _ => apply lock_step in H as [E0 Q0] end. rewrite E0 in *.
  match goal with H : load_payment _ _ = Some ?v |- _ => rename v into w; rename H into Hw end. exists w. split; [done|].
  destruct (negb _) eqn:Hp; [apply negb_true_iff, bool_decide_eq_false in Hp; run_inv; split; [done|]; by left|].
  apply negb_false_iff, bool_decide_eq_true in Hp. run_inv.
  match goal with H : move_payment _ _ _ _ _ _ = _ |- _ => apply move_payment_step in H as (Q1 & _ & Hs & (T1 & _ & _ & _ & _ & T2) & E1) end.
  match goal with H : create_outbox _ _ _ _ _ _ _ = _ |- _ => apply outbox_step in H as (Q3 & eid & O1 & _ & E3) end.
  match goal with H : record _ _ = _ |- _ => apply audit_step in H as [E4 Q4] end.
  rewrite E0 in *. split; [unfold unmoved in *; repeat (first [assumption|etrans; [eassumption|]])|]. right. split; [done|].
  split; [|done]. split; [done|]. split; [track; apply lookup_insert_eq|]. eexists. split; [exact T2|]. split; [exact T1|]. by track.
Qed.

(** An unconfirmed payment stays pending; it is reported once. *)
Definition reported (payment : Payment) d d' : Prop :=
  same_sales (own d) (own d') /\ unmoved d d' /\ commands (own d') = commands (own d) /\
  (own d' = own d \/ find_by (outbox_key (unconfirmed_key (pt_id payment))) (outbox (own d)) = None /\
     exists id payload, outbox (own d) !! id = None /\
     outbox (own d') = <[id := mkOutboxEvent id "PAYMENT_VERIFICATION_UNCONFIRMED" "payment" (pt_id payment) (unconfirmed_key (pt_id payment)) payload]>
       (outbox (own d))).

Lemma record_unconfirmed_tx_ok payment requestId d out d' : record_unconfirmed_tx cuid payment requestId d = Ok (out, d') ->
  exists w, load_payment (pt_id payment) (own d) = Some w /\ reported payment d d' /\
    out = if bool_decide (pw_status w = PAY_PENDING) then unconfirmedOutcome w else replayOutcome w.
Proof.
  intros H. unfold record_unconfirmed_tx in H. run_inv.
  match goal with H : load_payment _ _ = Some ?v |- _ => rename v into w; rename H into Hw end. exists w. split; [done|].
  assert (Hsame : reported payment d d) by (split; [done|]; split; [by unfold unmoved|]; split; [done|by left]).
  destruct (bool_decide (pw_status w = PAY_PENDING)); cbn [negb] in H; [|by run_inv]. run_inv.
  destruct (find_by _ _) eqn:Hf; [by run_inv|]. run_inv.
  match goal with H : create_outbox _ _ _ _ _ _ _ = _ |- _ => apply outbox_step in H as (Q3 & eid & O1 & _ & E3) end.
  match goal with H : record _ _ = _ |- _ => apply audit_step in H as [E4 Q4] end.
  split; [|done]. split; [by track; split_and!|]. split; [by etrans|]. split; [by track|]. right. split; [done|]. eexists eid, _. split; [done|]. by track.
Qed.

(** * Refunds *)

Lemma applyRefund_step o now paid refunded d u d' : (0 <= refunded)%Z -> promo_ok (promo (own d)) -> on_promo (applyRefund o now paid refunded) d = Ok (u, d') ->
  inv_of d' = inv_of d /\ exists p', own d' = set_promo p' (own d) /\ promo_ok p' /\ (customer_limits (promo (own d)) -> customer_limits p') /\
    order_settled (refundable o) (if (paid <=? 0)%Z then id else refunded_row now paid refunded) (redemptions (promo (own d))) (redemptions p').
Proof.
  intros Hr Hok H. apply on_promo_step in H as (x & H & ->). apply applyRefund_ok in H as (H1 & H2 & H3 & H4); [|done..].
  split; [exact H3|]. exists (own x). by split_and!.
Qed.

Lemma create_refund_step amount keyHash input d r d' : create_refund cuid amount keyHash input d = Ok (r, d') ->
  unmoved d d' /\ refunds (own d) !! rf_id r = None /\ rf_paymentId r = ri_paymentId input /\ rf_amount r = amount /\ rf_idempotencyKey r = keyHash /\
  rf_gatewayReferenceId r = ri_gatewayReferenceId input /\ rf_reason r = ri_reason input /\ rf_note r = ri_note input /\
  find_by (fun x => bool_decide (rf_idempotencyKey x = keyHash)) (refunds (own d)) = None /\
  own d' = set_refunds (<[rf_id r := r]> (refunds (own d))) (own d).
Proof.
  intros H. unfold create_refund in H. run_inv.
  match goal with H : on_inv _ _ = _ |- _ => apply quiet_fresh in H as [E1 Q1] end. run_part.
  match goal with H : modify _ _ = _ |- _ => injection H as _ <- end.
  match goal with H : (_ || _)%bool = false |- _ => apply orb_false_iff in H as [G1%bool_decide_eq_false%eq_None_not_Some G2%bool_decide_eq_false%eq_None_not_Some] end.
  rewrite E1 in *. split; [exact Q1|]. split_and!; try done. apply find_by_None. intros k y Hy. rewrite find_by_None in G2.
  specialize (G2 k y Hy). unfold refund_collides in G2. apply orb_false_iff in G2 as [_ G2%bool_decide_eq_false].
  apply bool_decide_false. by apply not_eq_sym.
Qed.

(** The key and the fingerprint of a request, and the answer of a recorded refund with its
    payment as it is now. *)
Definition refund_key (input : RefundInput) : string := hash (REFUND_SCOPE +:+ ":" +:+ ri_paymentId input +:+ ":" +:+ ri_idempotencyKey input).
Definition refund_print (amount : Z) (input : RefundInput) : string :=
  refund_fingerprint hash amount (ri_gatewayReferenceId input) (ri_reason input) (ri_note input).
Definition recorded_print (r : Refund) : string := refund_fingerprint hash (rf_amount r) (rf_gatewayReferenceId r) (rf_reason r) (rf_note r).
Definition refund_view (r : Refund) (p : Payment) (s : option PaymentStatus) : RefundView :=
  mkRefundView (rf_id r) (rf_paymentId r) (pt_orderId p) (rf_amount r) (if bool_decide (s = Some PAY_REFUNDED) then PAY_REFUNDED else PAY_PARTIALLY_REFUNDED)
    (pt_refundedAmount p) (pt_amount p - pt_refundedAmount p) (rf_createdAt r).

(** A request that repeats a refund: it is answered with it, and nothing changes. *)
Definition refund_repeated (amount : Z) (input : RefundInput) (claimed : Refund) (v : RefundView) d d' : Prop :=
  d' = d /\ rf_paymentId claimed = ri_paymentId input /\ recorded_print claimed = refund_print amount input /\
  exists p, payments (own d) !! ri_paymentId input = Some p /\ v = refund_view claimed p (payment_state (rf_paymentId claimed) (own d)).
(** What the recording of a refund does. *)
Definition refund_made (now amount : Z) (input : RefundInput) (v : RefundView) d d' : Prop :=
  exists p s r p', payments (own d) !! ri_paymentId input = Some p /\ payment_state (ri_paymentId input) (own d) = Some s /\
    (s = PAY_PAID \/ s = PAY_PARTIALLY_REFUNDED) /\ (pt_refundedAmount p + amount <= pt_amount p)%Z /\
    refunds (own d) !! rf_id r = None /\ find_refund (refund_key input) (refunds (own d)) = None /\
    rf_paymentId r = ri_paymentId input /\ rf_amount r = amount /\ rf_idempotencyKey r = refund_key input /\
    rf_gatewayReferenceId r = ri_gatewayReferenceId input /\ rf_reason r = ri_reason input /\ rf_note r = ri_note input /\
    (let total := (pt_refundedAmount p + amount)%Z in
     let s' := if bool_decide (total = pt_amount p) then PAY_REFUNDED else PAY_PARTIALLY_REFUNDED in
     core_of (own d') = core_refund r (core_payment (ri_paymentId input) (with_refunded total p) s' (core_of (own d))) /\
     v = refund_view r (with_refunded total p) (Some s') /\
     order_settled (refundable (pt_orderId p)) (if (pt_amount p <=? 0)%Z then id else refunded_row now (pt_amount p) total)
       (redemptions (promo (own d))) (redemptions p')) /\
    promo (own d') = p' /\ promo_ok p' /\ (customer_limits (promo (own d)) -> customer_limits p') /\
    unmoved d d' /\ same_books (credit (own d)) (credit (own d')) /\ doors (own d') = doors (own d).

Lemma refund_made_ok now amount input v d d' : (0 < amount)%Z -> sales_ok (own d) -> refund_made now amount input v d d' -> sales_ok (own d').
Proof.
  intros Hpos (Hc & Hp & Hb & Hdk) (p & s & r & p' & H1 & H2 & H3 & H4 & H5 & H5k & H6 & H7 & H7k & _ & _ & _ & (H8 & _) & <- & H9 & _ & _ & H10 & H11).
  eapply sales_ok_core; [|exact H8|exact H9|by eapply same_books_ok|eapply door_keys_same; [exact Hdk|by rewrite H11]].
  rewrite <- H6, <- H7. rewrite <- H7 in Hpos, H4. rewrite <- H6 in H1, H2. rewrite <- H7k in H5k. by apply (capture_refund _ Hc r p s).
Qed.

(** The status moves on, when it does. *)
Lemma optional_refund (b : bool) id from to meta d u d' :
  (if b then _ ← move_payment cuid id from to meta; mret tt else mret tt) d = Ok (u, d') -> (b = false -> to = from) ->
  unmoved d d' /\ (b = false -> own d' = own d) /\
  exists h, payment_state id (own d) = Some from -> own d' = set_payment_status (mkStatusDb (<[id := to]> (sd_status (payment_status (own d)))) h) (own d).
Proof.
  destruct b; intros H Hb; run_inv.
  - match goal with H : move_payment _ _ _ _ _ _ = _ |- _ => apply move_payment_step in H as (Q1 & _ & _ & _ & E1) end.
    split; [done|]. split; [done|]. eexists. intros _. exact E1.
  - split; [by unfold unmoved|]. split; [done|]. match goal with |- exists h, _ -> own ?x = _ => rename x into d; exists (sd_history (payment_status (own d))) end.
    intros Hs. rewrite Hb by done. rewrite insert_id by done. by destruct (own d) as [? ? ? ? []].
Qed.


Lemma refund_tx_ok now amount input d v d' : (0 < amount)%Z -> sales_ok (own d) -> refund_tx cuid hash now amount input d = Ok (v, d') ->
  (exists claimed, find_refund (refund_key input) (refunds (own d)) = Some claimed /\ refund_repeated amount input claimed v d d') \/ refund_made now amount input v d d'.
Proof.
  intros Hpos (Hc & Hp & Hb & Hdk) H. unfold refund_tx in H. run_inv. fold (refund_key input) in *. fold (find_refund (refund_key input) (refunds (own d))) in *.
  destruct (find_refund _ _) as [claimed|] eqn:Hkey.
  { left. run_inv. match goal with H : negb _ = false |- _ => apply negb_false_iff, bool_decide_eq_true in H end.
    exists claimed. split; [done|]. match goal with H : payments _ !! rf_paymentId claimed = Some ?q, H' : replay_refund _ _ _ _ _ = Ok _ |- _ =>
      rename q into p, H into Hrow; unfold replay_refund in H'; fold (refund_print amount input) (recorded_print claimed) in H';
      destruct (bool_decide (recorded_print claimed = refund_print amount input)) eqn:Ep in H'; [|done]; injection H' as <- end.
    apply bool_decide_eq_true in Ep. destruct (ck_payments _ Hc _ _ Hrow) as [-> _]. split; [done|]. split; [done|]. split; [done|].
    exists p. split; [congruence|done]. }
  right. run_inv.
  match goal with H : acquireOrderLock _ _ = _ |- _ => apply lock_step in H as [E0 Q0] end. rewrite E0 in *.
  repeat match goal with H : payments (own d) !! ri_paymentId input = Some ?a, H' : payments (own d) !! ri_paymentId input = Some ?b |- _ =>
    assert (b = a) as -> by congruence; clear H' end.
  match goal with H : payments (own d) !! ri_paymentId input = Some ?a |- _ => rename a into p, H into Hrow end.
  assert (Hid : pt_id p = ri_paymentId input) by (by destruct (ck_payments _ Hc _ _ Hrow)). rewrite Hid in *.
  unfold remainingRefundable in *. destruct (payment_state (ri_paymentId input) (own d)) as [s|] eqn:Hs; [|done]. change (default PAY_PENDING (Some s)) with s in *.
  destruct (bool_decide (Some s ∈ [Some PAY_PAID; Some PAY_PARTIALLY_REFUNDED])) eqn:Hset; cbn [negb] in *; [|done].
  apply bool_decide_eq_true in Hset. match goal with H : (_ <? amount)%Z = false |- _ => apply Z.ltb_ge in H as Hle end.
  assert (Hss : s = PAY_PAID \/ s = PAY_PARTIALLY_REFUNDED) by (set_unfold in Hset; destruct Hset as [[=]|[[=]|[]]]; [by left|by right]).
  set (total := (pt_refundedAmount p + amount)%Z) in *. set (s' := if bool_decide (total = pt_amount p) then PAY_REFUNDED else PAY_PARTIALLY_REFUNDED) in *.
  destruct (ck_refunded _ Hc _ _ _ Hrow Hs) as [Hf _].
  assert (Hnn : (0 <= pt_refundedAmount p)%Z) by (destruct Hss as [E | E]; rewrite E in Hf; simpl in Hf; lia).
  match goal with H : create_refund _ _ _ _ _ = Ok (?x, _) |- _ => rename x into r; apply create_refund_step in H as (Q1 & R1 & R2 & R3 & R4 & R5 & R6 & R7 & _ & E1) end.
  match goal with H : update_payment _ _ _ = _ |- _ => apply update_payment_step in H as (I2 & q & Hq & E2) end.
  assert (q = p) as -> by (rewrite E1, E0 in Hq; cbn in Hq; congruence).
  match goal with H : on_promo _ _ = _ |- _ => apply applyRefund_step in H as (I3 & p' & E3 & P1 & P2 & P3); [|lia|by rewrite E2, E1, E0] end.
  match goal with H : (if negb _ then _ else _) _ = _ |- _ => apply optional_refund in H as (Q4 & _ & h & E4);
    [|intros E%negb_false_iff%bool_decide_eq_true; exact E] end.
  match goal with H : record _ _ = _ |- _ => apply audit_step in H as [E5 Q5] end.
  match goal with H : create_outbox _ _ _ _ _ _ _ = _ |- _ => apply outbox_step in H as (Q6 & eid & O1 & _ & E6) end.
  specialize (E4 ltac:(rewrite E3, E2, E1, E0; exact Hs)).
  exists p, s, r, p'. unfold refund_made. fold total. fold s'.
  split; [done|]. split; [done|]. split; [done|]. split; [unfold total; lia|]. split; [by rewrite E0 in R1|].
  do 7 (split; [done|]). split.
  { split; [track; unfold core_refund, core_payment, core_of; cbn; done|]. split; [|by rewrite E2, E1, E0 in P3].
    unfold refund_view. cbn. rewrite R2, R3. f_equal. unfold s'. by destruct (bool_decide (total = _)). }
  split; [by track|]. split; [done|]. split; [by rewrite E2, E1, E0 in P2|]. split.
  { unfold unmoved in *. rewrite I3, I2 in Q4. repeat (first [assumption|etrans; [eassumption|]]). }
  split; by track.
Qed.

(** A recorded refund answers every later request under its key. *)
Lemma refund_tx_repeats r now amount input d : sales_ok (own d) -> refunds (own d) !! rf_id r = Some r -> rf_idempotencyKey r = refund_key input ->
  rf_paymentId r = ri_paymentId input ->
  exists p, payments (own d) !! ri_paymentId input = Some p /\ refund_tx cuid hash now amount input d =
    if bool_decide (refund_print amount input = recorded_print r) then Ok (refund_view r p (payment_state (ri_paymentId input) (own d)), d)
    else Err payload_conflict.
Proof.
  intros (Hc & _) Hr Hk Hp. destruct (ck_refunds _ Hc _ _ Hr) as (_ & _ & [p Hrow]). rewrite Hp in Hrow. exists p. split; [done|].
  assert (Hf : find_refund (refund_key input) (refunds (own d)) = Some r).
  { apply (find_by_unique _ _ (rf_id r)); [apply (ck_refund_keys _ Hc)|done|by apply bool_decide_eq_true]. }
  assert (Hid : pt_id p = ri_paymentId input) by (by destruct (ck_payments _ Hc _ _ Hrow)).
  unfold refund_tx. fold (refund_key input). erewrite bind_run by reflexivity. fold (find_refund (refund_key input) (refunds (own d))). rewrite Hf, Hp.
  change (k_payments (core_of (own d))) with (payments (own d)) in Hrow.
  erewrite bind_run by (unfold unwrap; rewrite Hrow; reflexivity). rewrite bool_decide_true by done. erewrite bind_run by reflexivity.
  unfold lift_result, replay_refund. fold (refund_print amount input) (recorded_print r). rewrite Hid.
  rewrite (bool_decide_ext (recorded_print r = refund_print amount input) (refund_print amount input = recorded_print r)) by done.
  by destruct (bool_decide _).
Qed.
End payments.
