(* ===== verification/FulfillmentProofs.v ===== *)
(** Fulfillment: what the staff commands from the start of the work to the delivery do,
    and what must hold before each. *)

From S2P Require Import Prelude Table Paging Json StableJson AuditTrail Retry InventoryModel Inventory.
From S2P Require Import InventoryLedger InventoryProofs Durable DurableSafety StateMachine.
From S2P Require Import PromotionEngine PromotionClaims PromotionCapacity Credit CreditCommands CreditSales CreditBooks CreditRuns CreditSaleProofs.
From S2P Require Import Sales OrderCommands Fulfilling Payments SalesBooks OrderProofs.

(** * The proof of money *)

(** The order was paid by a received payment, or its total is a booked credit sale. *)
Definition financially_proven (orderId : string) (o : CreditOrder) (t : SalesTables) : Prop :=
  (order_state orderId t = Some PAID /\
     exists pid p s, payments t !! pid = Some p /\ pt_orderId p = orderId /\ payment_state pid t = Some s /\ settled s = true /\
       (or_doorOrder o = None -> pt_amount p = or_grandTotal o)) \/
  (order_state orderId t = Some CREDIT_APPROVED /\
     exists x e, document_of_order orderId (credit t) = Some x /\ rd_kind x = DOC_SALE /\ rd_amount x = or_grandTotal o /\
       sale_entries x (credit t) = [e] /\ en_amount e = or_grandTotal o /\ or_payments o = []).

Lemma authorized_proven orderId o t : capture_ok (core_of t) -> find_order orderId t = Some o -> authorized orderId o t = true ->
  financially_proven orderId o t.
Proof.
  intros Hok Ho H. unfold authorized, hasFulfillmentFinancialProof in H. case_bool_decide as E1.
  - left. split; [done|]. apply negb_true_iff, bool_decide_eq_false in H. unfold settled_payments in H.
    destruct (List.filter _ _) as [|pid l] eqn:Hl; [done|].
    assert (Hin : In pid (pid :: l)) by (by left). rewrite <- Hl in Hin. apply filter_In in Hin as [Hin Hs%bool_decide_eq_true].
    apply list_elem_of_In in Hin. destruct (ck_listed _ Hok _ _ _ Ho Hin) as (p & Hp & Ep).
    set_unfold in Hs. assert (Hst : exists s, payment_state pid t = Some s /\ settled s = true).
    { destruct Hs as [Hs|[Hs|[]]]; eexists; by split. }
    destruct Hst as (s & Hst & Hset). exists pid, p, s. split_and!; try done. intros Hd.
    destruct (ck_payments _ Hok _ _ Hp) as (_ & o' & Ho' & _ & Ha). rewrite Ep in Ho'. unfold find_order in Ho. cbn in Ho'.
    assert (o' = o) as -> by congruence. by apply Ha.
  - case_bool_decide as E2; [|done]. cbn [negb] in H. right. split; [done|].
    destruct (document_of_order orderId (credit t)) as [x|]; [|done]. unfold find_order in Ho. rewrite Ho in H.
    repeat (apply andb_prop in H as [H ?]). repeat match goal with H : bool_decide _ = true |- _ => apply bool_decide_eq_true in H end.
    destruct (sale_entries x (credit t)) as [|e [|]] eqn:He; try done.
    match goal with H : (_ && _)%bool = true |- _ => apply andb_prop in H as [He1%bool_decide_eq_true _] end.
    exists x, e. split_and!; try done. congruence.
Qed.

(** * Commands *)

(** A recorded answer was repeated; nothing changed. *)
Definition replayed (orderId scope keyHash fp : string) (r : OrderResponse) (d d' : Sales) : Prop :=
  exists prior, find_command orderId scope keyHash (own d) = Some prior /\ oc_fingerprint prior = fp /\ oc_response prior = Some r /\
    own d' = own d /\ unmoved d d'.

(** The order of a command, ready for it. *)
Definition command_order (orderId : string) (s : FulfillmentStatus) (o : CreditOrder) (f : Fulfillment) (t : SalesTables) : Prop :=
  find_order orderId t = Some o /\ order_fulfillment orderId t = Some f /\ fulfillment_state (fu_id f) t = Some s.

Lemma fulfillment_in_ok orderId t s f : fulfillment_in orderId t s = true -> order_fulfillment orderId t = Some f -> fulfillment_state (fu_id f) t = Some s.
Proof. unfold fulfillment_in. intros H%bool_decide_eq_true Hf. by rewrite Hf in H. Qed.

(** The fulfillment moves on; records of the command, audits and events aside, nothing else
    of the tables changes. *)
Definition fulfillment_moved (f : Fulfillment) (from to : FulfillmentStatus) (t t' : SalesTables) : Prop :=
  fulfillment_state (fu_id f) t = Some from /\ fulfillment_state (fu_id f) t' = Some to /\
  exists row, tr_from row = from /\ tr_to row = to /\ tr_parentId row = fu_id f /\
    credit t' = put (moved_to (fu_id f) to row (fulfillment_status (credit t))) (credit t).

Section fulfillment.
Context (cuid : nat -> string) (hash : string -> string).
Implicit Types (d : Sales) (t : SalesTables).

Lemma store_step now orderId scope keyHash fp r d u d' : storeShipmentCommandReplay cuid now orderId scope keyHash fp r d = Ok (u, d') ->
  unmoved d d' /\ exists id, commands (own d) !! id = None /\ find_command orderId scope keyHash (own d) = None /\
    own d' = set_commands (<[id := mkOrderCommand id orderId scope keyHash fp (Some r) (now + DAY_MS)]> (commands (own d))) (own d).
Proof.
  intros H. unfold storeShipmentCommandReplay in H. run_inv.
  match goal with H : create_command _ _ _ _ _ _ _ _ = _ |- _ => apply command_step in H as (Q & H1 & H2 & _ & E) end.
  split; [done|]. by eexists.
Qed.

(** The record that a command leaves answers its key from now on. *)
Lemma stored_answer now orderId scope keyHash fp r t t' id : commands t !! id = None -> find_command orderId scope keyHash t = None ->
  commands t' = <[id := mkOrderCommand id orderId scope keyHash fp (Some r) (now + DAY_MS)]> (commands t) ->
  answered orderId scope keyHash fp (now + DAY_MS) r t'.
Proof.
  intros H1 H2 E. exists (mkOrderCommand id orderId scope keyHash fp (Some r) (now + DAY_MS)). split; [|done].
  unfold find_command in *. rewrite E. apply find_by_inserted; [done|done|]. unfold same_key. cbn. by rewrite !bool_decide_true.
Qed.

(** ** Start and readiness *)

(** What the command asks of stock and picks. *)
Definition guard_holds (command : FulfillmentCommand) (orderId : string) (o : CreditOrder) (f : Fulfillment) d : Prop :=
  match command with
  | start => consumed_all orderId (inv_of d) = true
  | ready => or_items o <> [] /\ picked_count (fu_id f) (own d) = Z.of_nat (length (or_items o))
  end.

Lemma command_guard_ok orderId command o f d u d' : command_guard orderId command o f d = Ok (u, d') -> d' = d /\ guard_holds command orderId o f d.
Proof.
  intros H. destruct command; unfold command_guard in H; run_inv.
  - match goal with H : negb _ = false |- _ => apply negb_false_iff in H end. done.
  - match goal with H : (_ || _)%bool = false |- _ => apply orb_false_iff in H as [H1%bool_decide_eq_false H2%negb_false_iff%bool_decide_eq_true] end.
    split; [done|]. split; [|done]. intros E. by rewrite E in H1.
Qed.

Lemma consumed_frame orderId db db' : reservations db' = reservations db -> consumed_all orderId db' = consumed_all orderId db.
Proof. unfold consumed_all. by intros ->. Qed.
Lemma guard_frame command orderId o f d d1 : own d1 = own d -> unmoved d d1 -> guard_holds command orderId o f d1 -> guard_holds command orderId o f d.
Proof.
  intros E Q. unfold guard_holds. rewrite E. destruct command; [|done]. rewrite (consumed_frame orderId (inv_of d) (inv_of d1)); [done|apply Q].
Qed.

(** A start or readiness that was recorded for the first time. *)
Definition advanced (now : Z) (orderId : string) (command : FulfillmentCommand) (r : OrderResponse) d d' : Prop :=
  exists o f g, command_order orderId (from_of command) o f (own d) /\ financially_proven orderId o (own d) /\ guard_holds command orderId o f d /\
    fulfillments (credit (own d)) !! fu_id f = Some g /\ r = Advanced (fu_id g) orderId (to_of command) /\ fulfillment_moved f (from_of command) (to_of command) (own d) (own d') /\
    unmoved d d' /\ same_sales (own d) (own d').

Lemma execute_tx_ok now orderId command ctx d r d' : sales_ok (own d) -> execute_tx cuid hash now orderId command ctx d = Ok (r, d') ->
  let keyHash := hash (ox_idempotencyKey ctx) in
  let fp := fingerprint_of hash [("actorId", JStr (ox_actorId ctx)); ("command", JStr (command_str command))] in
  replayed orderId (command_scope command) keyHash fp r d d' \/
  (advanced now orderId command r d d' /\ find_command orderId (command_scope command) keyHash (own d) = None /\
   answered orderId (command_scope command) keyHash fp (now + DAY_MS) r (own d')).
Proof.
  intros (Hc & _) H. unfold execute_tx in H. run_inv.
  match goal with H : acquireOrderLock _ _ = _ |- _ => apply lock_step in H as [E0 Q0] end. rewrite E0 in *.
  destruct (find_command _ _ _ _) as [prior|] eqn:Hprior in H.
  { left. apply replay_step in H as (-> & Hf & Hr). exists prior. by split_and!. }
  right. run_inv.
  match goal with H : (_ || _)%bool = false |- _ => apply orb_false_iff in H as [Ha%negb_false_iff Hst%negb_false_iff] end.
  match goal with H : command_guard _ _ _ _ _ = _ |- _ => apply command_guard_ok in H as [-> Hg]; apply (guard_frame _ _ _ _ d) in Hg; [|done..] end.
  match goal with H : move_fulfillment _ _ _ _ _ _ = _ |- _ => apply move_fulfillment_step in H as (Q1 & _ & Hs & (T1 & T2 & T3 & _) & E1) end.
  match goal with H : record _ _ = _ |- _ => apply audit_step in H as [E2 Q2] end.
  match goal with H : storeShipmentCommandReplay _ _ _ _ _ _ _ _ = _ |- _ => apply store_step in H as (Q3 & id & C1 & C2 & E3) end.
  match goal with H : find_order _ _ = Some ?a, H' : order_fulfillment _ _ = Some ?b |- _ => rename a into o, b into f, H into Ho, H' into Hf end.
  match goal with H : fulfillments _ !! fu_id f = Some ?a |- _ => rename a into g, H into Hrow end.
  rewrite E2, E1, E0 in C1, C2. rewrite E1, E0 in Hrow. split; [|split; [done|]].
  - exists o, f, g. split; [split; [done|split; [done|by eapply fulfillment_in_ok]]|]. split; [by apply authorized_proven|]. split; [done|].
    split; [exact Hrow|]. split; [done|]. split.
    { split; [by rewrite E0 in Hs|]. split; [rewrite E3, E2, E1; apply lookup_insert_eq|]. eexists. split; [exact T2|]. split; [exact T3|]. split; [exact T1|].
      by rewrite E3, E2, E1, E0. }
    split; [unfold unmoved in *; repeat (first [assumption|etrans; [eassumption|]])|]. track. by split_and!.
  - eapply stored_answer; [exact C1|exact C2|]. by rewrite E3, E2, E1, E0.
Qed.

(** ** Picks *)

Lemma create_pick_step id itemId quantity ctx d p d' : create_pick cuid id itemId quantity ctx d = Ok (p, d') ->
  unmoved d d' /\ fp_fulfillmentId p = id /\ fp_orderItemId p = itemId /\ fp_quantity p = quantity /\ fp_actorId p = Some (ox_actorId ctx) /\
  fp_requestId p = ox_requestId ctx /\ (0 < quantity)%Z /\ picks (own d) !! fp_id p = None /\ own d' = set_picks (<[fp_id p := p]> (picks (own d))) (own d).
Proof.
  intros H. unfold create_pick in H. run_inv.
  match goal with H : on_inv _ _ = _ |- _ => apply quiet_fresh in H as [E1 Q1] end. run_part.
  match goal with H : modify _ _ = _ |- _ => injection H as _ <- end.
  match goal with H : (_ || _)%bool = false |- _ => apply orb_false_iff in H as [G1%bool_decide_eq_false%eq_None_not_Some _] end.
  match goal with H : (quantity <=? 0)%Z = false |- _ => apply Z.leb_gt in H end.
  rewrite E1 in *. split; [exact Q1|]. by split_and!.
Qed.

(** A pick that was recorded for the first time. *)
Definition picked (orderId itemId : string) (quantity : number) (ctx : OrderContext) (r : OrderResponse) d d' : Prop :=
  exists o f item p, command_order orderId FUL_PROCESSING o f (own d) /\ financially_proven orderId o (own d) /\ consumed_all orderId (inv_of d) = true /\
    find_item itemId o = Some item /\ quantity = Int (ol_quantity item) /\ pick_of itemId (own d) = None /\
    fp_orderItemId p = itemId /\ fp_fulfillmentId p = fu_id f /\ fp_quantity p = ol_quantity item /\ fp_actorId p = Some (ox_actorId ctx) /\
    picks (own d) !! fp_id p = None /\ picks (own d') = <[fp_id p := p]> (picks (own d)) /\ r = Picked (proof p) /\
    credit (own d') = credit (own d) /\ unmoved d d' /\ same_sales (own d) (own d').

Lemma pick_tx_ok now orderId itemId quantity ctx d r d' : sales_ok (own d) -> pick_tx cuid hash now orderId itemId quantity ctx d = Ok (r, d') ->
  let keyHash := hash (ox_idempotencyKey ctx) in
  let fp := fingerprint_of hash [("actorId", JStr (ox_actorId ctx)); ("itemId", JStr itemId); ("quantity", jnumber quantity)] in
  replayed orderId PICK_SCOPE keyHash fp r d d' \/
  (picked orderId itemId quantity ctx r d d' /\ find_command orderId PICK_SCOPE keyHash (own d) = None /\
   answered orderId PICK_SCOPE keyHash fp (now + DAY_MS) r (own d')).
Proof.
  intros (Hc & _) H. unfold pick_tx in H. run_inv.
  match goal with H : acquireOrderLock _ _ = _ |- _ => apply lock_step in H as [E0 Q0] end. rewrite E0 in *.
  destruct (find_command _ _ _ _) as [prior|] eqn:Hprior in H.
  { left. apply replay_step in H as (-> & Hf & Hr). exists prior. by split_and!. }
  right. run_inv.
  match goal with H : (negb (authorized _ _ _) || _)%bool = false |- _ => apply orb_false_iff in H as [Ha%negb_false_iff Hst%negb_false_iff] end.
  match goal with H : create_pick _ _ _ _ _ _ = Ok (?x, _) |- _ => rename x into p; apply create_pick_step in H as (Q1 & P1 & P2 & P3 & P4 & _ & _ & P5 & E1) end.
  match goal with H : record _ _ = _ |- _ => apply audit_step in H as [E2 Q2] end.
  match goal with H : storeShipmentCommandReplay _ _ _ _ _ _ _ _ = _ |- _ => apply store_step in H as (Q3 & id & C1 & C2 & E3) end.
  match goal with H : find_order _ _ = Some ?a, H' : order_fulfillment _ _ = Some ?b, H'' : find_item _ _ = Some ?c |- _ =>
    rename a into o, b into f, c into item, H into Ho, H' into Hf, H'' into Hitem end.
  repeat match goal with H : negb _ = false |- _ => apply negb_false_iff in H end.
  match goal with H : bool_decide (quantity = _) = true |- _ => apply bool_decide_eq_true in H as Hq end.
  match goal with H : bool_decide (is_Some _) = false |- _ => apply bool_decide_eq_false, eq_None_not_Some in H as Hnew end.
  match goal with H : consumed_all _ _ = true |- _ => rewrite (consumed_frame orderId (inv_of d)) in H by apply Q0; rename H into Hcon end.
  rewrite E2, E1, E0 in C1, C2. rewrite E0 in P5. split; [|split; [done|]].
  - exists o, f, item, p. split; [split; [done|split; [done|by eapply fulfillment_in_ok]]|]. split; [by apply authorized_proven|].
    do 8 (split; [done|]). split; [exact P5|]. split; [by track|]. split; [done|]. split; [by track|].
    split; [unfold unmoved in *; repeat (first [assumption|etrans; [eassumption|]])|]. track. by split_and!.
  - eapply stored_answer; [exact C1|exact C2|]. by rewrite E3, E2, E1, E0.
Qed.

(** ** Dispatch *)

Definition line_of (i : OrderLine) (l : ShipmentLine) : Prop := sl_orderItemId l = ol_id i /\ sl_quantity l = ol_quantity i.

Lemma shipment_lines_step items d lines d' : map_each items (create_shipment_line cuid) d = Ok (lines, d') ->
  own d' = own d /\ unmoved d d' /\ Forall2 line_of items lines.
Proof.
  revert d lines. induction items as [|i items IH]; intros d lines H; simpl in H; run_inv; [by split_and!|].
  match goal with H : create_shipment_line _ _ _ = _ |- _ => unfold create_shipment_line in H; run_inv end.
  match goal with H : on_inv _ _ = _ |- _ => apply quiet_fresh in H as [E1 Q1] end.
  match goal with H : map_each _ _ _ = _ |- _ => apply IH in H as (E2 & Q2 & F) end.
  split; [congruence|]. split; [unfold unmoved; etrans; [exact Q1|exact Q2]|]. by constructor.
Qed.

Lemma create_shipment_step o orderId fid carrier code address ctx d s d' : create_shipment cuid o orderId fid carrier code address ctx d = Ok (s, d') ->
  unmoved d d' /\ sh_orderId s = orderId /\ sh_fulfillmentId s = fid /\ sh_carrier s = carrier /\ sh_trackingCode s = code /\
  sh_addressSnapshot s = address /\ sh_actorId s = Some (ox_actorId ctx) /\ Forall2 line_of (or_items o) (sh_lines s) /\
  shipments (own d) !! sh_id s = None /\ find_by (fun x => bool_decide (sh_orderId x = orderId)) (shipments (own d)) = None /\
  own d' = set_credit (set_orders (<[orderId := with_shipment (sh_id s) o]> (orders (credit (own d)))) (credit (own d)))
    (set_shipments (<[sh_id s := s]> (shipments (own d))) (own d)).
Proof.
  intros H. unfold create_shipment in H. run_inv.
  match goal with H : on_inv _ _ = _ |- _ => apply quiet_fresh in H as [E1 Q1] end.
  match goal with H : map_each _ _ _ = _ |- _ => apply shipment_lines_step in H as (E2 & Q2 & F) end.
  match goal with H : (_ || _)%bool = false |- _ => apply orb_false_iff in H as [G1%bool_decide_eq_false%eq_None_not_Some G2%bool_decide_eq_false%eq_None_not_Some] end.
  match goal with H : on_own _ _ = _ |- _ => apply on_own_ok in H as (? & [= _ <-] & ->) end.
  match goal with H : on_credit _ _ = _ |- _ => apply on_credit_step in H as (z & H & ->); apply on_own_ok in H as (z' & [= _ <-] & ->) end.
  rewrite E2, E1 in *. cbn [own inv_of] in *. split; [unfold unmoved; etrans; [exact Q1|exact Q2]|].
  do 7 (split; [done|]). split; [exact G1|]. split; [|by rewrite ?E2, ?E1].
  apply find_by_None. intros k y Hy. rewrite find_by_None in G2. specialize (G2 k y Hy). unfold shipment_collides in G2.
  apply orb_false_iff in G2 as [G2 _]. apply orb_false_iff in G2 as [G2%bool_decide_eq_false _]. apply bool_decide_false. by apply not_eq_sym.
Qed.

(** A dispatch that was recorded for the first time: everything was paid for, taken from the
    stock and picked exactly, and the parcel holds exactly the ordered lines. *)
Definition dispatched (orderId carrier code : string) (r : OrderResponse) d d' : Prop :=
  exists o f s address row, command_order orderId FUL_READY_TO_SHIP o f (own d) /\ financially_proven orderId o (own d) /\
    consumed_all orderId (inv_of d) = true /\ or_shipment o = None /\ or_items o <> [] /\
    (forall i, i ∈ or_items o -> fp_quantity <$> pick_of (ol_id i) (own d) = Some (ol_quantity i)) /\
    or_addressSnapshot o = Some address /\
    sh_orderId s = orderId /\ sh_fulfillmentId s = fu_id f /\ sh_carrier s = trim carrier /\ sh_trackingCode s = trim code /\ sh_addressSnapshot s = address /\
    Forall2 line_of (or_items o) (sh_lines s) /\
    find_by (fun x => bool_decide (sh_orderId x = orderId)) (shipments (own d)) = None /\
    shipments (own d) !! sh_id s = None /\ shipments (own d') = <[sh_id s := s]> (shipments (own d)) /\
    tr_from row = FUL_READY_TO_SHIP /\ tr_to row = FUL_SHIPPED /\ tr_parentId row = fu_id f /\
    credit (own d') = put (moved_to (fu_id f) FUL_SHIPPED row (fulfillment_status (credit (own d))))
      (set_orders (<[orderId := with_shipment (sh_id s) o]> (orders (credit (own d)))) (credit (own d))) /\
    (exists id payload, outbox (own d) !! id = None /\ outbox (own d') = <[id := mkOutboxEvent id "SHIPMENT_DISPATCHED" "order" orderId
       ("shipment:" +:+ sh_id s +:+ ":dispatched") payload]> (outbox (own d))) /\
    r = Dispatched (sh_id s) (trim carrier) (trim code) (sh_dispatchedAt s) /\ unmoved d d' /\
    core_of (own d') = core_order orderId (with_shipment (sh_id s) o) (core_of (own d)) /\ promo (own d') = promo (own d) /\ doors (own d') = doors (own d).

Lemma dispatch_tx_ok now orderId carrier code ctx d r d' : sales_ok (own d) -> dispatch_tx cuid hash now orderId carrier code ctx d = Ok (r, d') ->
  let keyHash := hash (ox_idempotencyKey ctx) in
  let fp := fingerprint_of hash [("actorId", JStr (ox_actorId ctx)); ("carrier", JStr (trim carrier)); ("trackingCode", JStr (trim code))] in
  replayed orderId DISPATCH_SCOPE keyHash fp r d d' \/
  (dispatched orderId carrier code r d d' /\ find_command orderId DISPATCH_SCOPE keyHash (own d) = None /\
   answered orderId DISPATCH_SCOPE keyHash fp (now + DAY_MS) r (own d')).
Proof.
  intros (Hc & _) H. unfold dispatch_tx in H. run_inv.
  match goal with H : acquireOrderLock _ _ = _ |- _ => apply lock_step in H as [E0 Q0] end. rewrite E0 in *.
  destruct (find_command _ _ _ _) as [prior|] eqn:Hprior in H.
  { left. apply replay_step in H as (-> & Hf & Hr). exists prior. by split_and!. }
  right. run_inv.
  match goal with H : (negb (authorized _ _ _) || _ || _)%bool = false |- _ =>
    apply orb_false_iff in H as [[Ha%negb_false_iff Hst%negb_false_iff]%orb_false_iff Hns%bool_decide_eq_false%eq_None_not_Some] end.
  match goal with H : (bool_decide (or_items _ = []) || _)%bool = false |- _ => apply orb_false_iff in H as [Hne%bool_decide_eq_false Hpk] end.
  match goal with H : create_shipment _ _ _ _ _ _ _ _ _ = Ok (?x, _) |- _ =>
    rename x into sh; apply create_shipment_step in H as (Q1 & P1 & P2 & P3 & P4 & P5 & _ & P6 & P7 & P8 & E1) end.
  match goal with H : move_fulfillment _ _ _ _ _ _ = Ok (?x, _) |- _ => rename x into row; apply move_fulfillment_step in H as (Q2 & _ & Hs & (T1 & T2 & T3 & _) & E2) end.
  match goal with H : record _ _ = _ |- _ => apply audit_step in H as [E3 Q3] end.
  match goal with H : create_outbox _ _ _ _ _ _ _ = _ |- _ => apply outbox_step in H as (Q4 & eid & O1 & _ & E4) end.
  match goal with H : storeShipmentCommandReplay _ _ _ _ _ _ _ _ = _ |- _ => apply store_step in H as (Q5 & id & C1 & C2 & E5) end.
  match goal with H : find_order _ _ = Some ?a, H' : order_fulfillment _ _ = Some ?b |- _ => rename a into o, b into f, H into Ho, H' into Hf end.
  match goal with H : consumed_all _ _ = _ |- _ => idtac | H : negb (consumed_all _ _) = false |- _ => apply negb_false_iff in H end.
  match goal with H : consumed_all _ _ = true |- _ => rewrite (consumed_frame orderId (inv_of d)) in H by apply Q0; rename H into Hcon end.
  match goal with H : or_addressSnapshot o = Some ?a |- _ => rename a into address end.
  rewrite E4, E3, E2, E1, E0 in C1, C2. rewrite E0 in P7, P8. rewrite E3, E2, E1, E0 in O1. split; [|split; [done|]].
  - exists o, f, sh, address, row. split; [split; [done|split; [done|by eapply fulfillment_in_ok]]|]. split; [by apply authorized_proven|].
    split; [done|]. split; [done|]. split; [done|]. split.
    { intros i Hi. assert (Hu : unpicked (own d) i = false).
      { apply not_true_is_false. intros Hu. rewrite <- not_false_iff_true in Hu. apply Hu. apply not_true_is_false. intros Hx.
        assert (existsb (unpicked (own d)) (or_items o) = true); [|congruence]. apply existsb_exists. exists i. split; [by apply list_elem_of_In|done]. }
      unfold unpicked in Hu. by apply negb_false_iff, bool_decide_eq_true in Hu. }
    do 7 (split; [done|]). split; [exact P8|]. split; [exact P7|]. split; [by track|]. do 3 (split; [done|]). split; [by track|].
    split; [eexists eid, _; split; [exact O1|by track]|]. split; [done|].
    split; [unfold unmoved in *; repeat (first [assumption|etrans; [eassumption|]])|]. split_and!; by track.
  - eapply stored_answer; [exact C1|exact C2|]. by rewrite E5, E4, E3, E2, E1, E0.
Qed.

Lemma dispatched_ok orderId carrier code r d d' : sales_ok (own d) -> dispatched orderId carrier code r d d' -> sales_ok (own d').
Proof.
  intros (Hc & Hp & Hb & Hdk) (o & f & s & address & row & H). repeat match type of H with _ /\ _ => destruct H as [? H] end.
  match goal with H : command_order _ _ _ _ _ |- _ => destruct H as (Ho & _) end.
  eapply sales_ok_core; [apply (capture_order _ Hc orderId o (with_shipment (sh_id s) o)); done|eassumption|congruence| |].
  - eapply same_books_ok; [exact Hb|]. match goal with H : credit (own d') = _ |- _ => rewrite H end. by split.
  - eapply door_keys_same; [exact Hdk|congruence].
Qed.

(** ** Delivery *)

(** A delivery that was recorded for the first time. *)
Definition delivered (orderId proofReference : string) (r : OrderResponse) d d' : Prop :=
  exists o f shipmentId, command_order orderId FUL_SHIPPED o f (own d) /\ or_shipment o = Some shipmentId /\
    fulfillment_moved f FUL_SHIPPED FUL_DELIVERED (own d) (own d') /\ unmoved d d' /\ same_sales (own d) (own d') /\
    (exists id payload, outbox (own d) !! id = None /\ outbox (own d') = <[id := mkOutboxEvent id "SHIPMENT_DELIVERED" "order" orderId
       ("shipment:" +:+ shipmentId +:+ ":delivered") payload]> (outbox (own d))) /\
    exists at_, r = Delivered shipmentId orderId proofReference at_.

Lemma deliver_tx_ok now orderId proofReference ctx d r d' : deliver_tx cuid hash now orderId proofReference ctx d = Ok (r, d') ->
  let keyHash := hash (ox_idempotencyKey ctx) in
  let fp := fingerprint_of hash [("actorId", JStr (ox_actorId ctx)); ("proofReference", JStr proofReference)] in
  replayed orderId DELIVERY_SCOPE keyHash fp r d d' \/
  (delivered orderId proofReference r d d' /\ find_command orderId DELIVERY_SCOPE keyHash (own d) = None /\
   answered orderId DELIVERY_SCOPE keyHash fp (now + DAY_MS) r (own d')).
Proof.
  intros H. unfold deliver_tx in H. run_inv.
  match goal with H : acquireOrderLock _ _ = _ |- _ => apply lock_step in H as [E0 Q0] end. rewrite E0 in *.
  destruct (find_command _ _ _ _) as [prior|] eqn:Hprior in H.
  { left. apply replay_step in H as (-> & Hf & Hr). exists prior. by split_and!. }
  right. run_inv.
  match goal with H : (negb (bool_decide (is_Some _)) || _)%bool = false |- _ => apply orb_false_iff in H as [_ Hst%negb_false_iff] end.
  match goal with H : move_fulfillment _ _ _ _ _ _ = Ok (?x, _) |- _ => rename x into row; apply move_fulfillment_step in H as (Q2 & _ & Hs & (T1 & T2 & T3 & _) & E2) end.
  match goal with H : record _ _ = _ |- _ => apply audit_step in H as [E3 Q3] end.
  match goal with H : create_outbox _ _ _ _ _ _ _ = _ |- _ => apply outbox_step in H as (Q4 & eid & O1 & _ & E4) end.
  match goal with H : storeShipmentCommandReplay _ _ _ _ _ _ _ _ = _ |- _ => apply store_step in H as (Q5 & id & C1 & C2 & E5) end.
  match goal with H : find_order _ _ = Some ?a, H' : order_fulfillment _ _ = Some ?b |- _ => rename a into o, b into f, H into Ho, H' into Hf end.
  match goal with H : or_shipment o = Some ?a |- _ => rename a into sid, H into Hsh end.
  rewrite E4, E3, E2, E0 in C1, C2. rewrite E3, E2, E0 in O1. split; [|split; [done|]].
  - exists o, f, sid. split; [split; [done|split; [done|by eapply fulfillment_in_ok]]|]. split; [exact Hsh|]. split.
    { split; [by rewrite E0 in Hs|]. split; [rewrite E5, E4, E3, E2; apply lookup_insert_eq|]. eexists. split; [exact T2|]. split; [exact T3|]. split; [exact T1|].
      by rewrite E5, E4, E3, E2, E0. }
    split; [unfold unmoved in *; repeat (first [assumption|etrans; [eassumption|]])|]. split; [track; by split_and!|].
    split; [eexists eid, _; split; [exact O1|by track]|]. by eexists.
  - eapply stored_answer; [exact C1|exact C2|]. by rewrite E5, E4, E3, E2, E0.
Qed.
End fulfillment.
