(* ===== verification/SalesSafety.v ===== *)
(** Commands on placed orders among other clients: every transaction keeps the invariants
    of stock and sales and only moves forward, and a public command commits once or leaves
    nothing. *)

From S2P Require Import Prelude StateMachine Retry PromotionEngine Table Paging Json StableJson AuditTrail.
From S2P Require Import InventoryModel Inventory Durable PromotionClaims Credit CreditCommands CreditSales Sales OrderCommands.
From S2P Require Import Fulfilling Payments InventoryLedger InventoryProofs DurableSafety CreditBooks CreditRuns CreditSaleProofs PromotionCapacity.
From S2P Require Import SalesBooks OrderProofs PaymentProofs FulfillmentProofs.

(** * Forward steps *)

(** What was agreed when an order was placed. *)
Definition order_terms (o : CreditOrder) : string * list OrderLine * Z * Z * Z * string * option string :=
  (or_number o, or_items o, or_discount o, or_shipping o, or_grandTotal o, or_customerId o, or_doorOrder o).

(** Orders keep their terms, paid and cancelled orders stay so, payments keep
    their order and amount, received money stays received, refunds are never altered. *)
Record core_evolves (c c' : Core) : Prop := {
  ce_orders : forall id o, k_orders c !! id = Some o -> exists o', k_orders c' !! id = Some o' /\ order_terms o' = order_terms o;
  ce_closed : forall id, closed (k_order c !! id) -> k_order c' !! id = k_order c !! id;
  ce_payments : forall id p s, k_payments c !! id = Some p -> k_payment c !! id = Some s ->
    exists p' s', k_payments c' !! id = Some p' /\ k_payment c' !! id = Some s' /\ pt_orderId p' = pt_orderId p /\ pt_amount p' = pt_amount p /\
      (settled s = true -> settled s' = true);
  ce_refunds : k_refunds c ⊆ k_refunds c'
}.

#[export] Instance core_evolves_preorder : PreOrder core_evolves.
Proof.
  split.
  - intros c. split; [intros id o H; by exists o|done| |done]. intros id p s Hp Hs. by exists p, s.
  - intros c1 c2 c3 [A B C D] [A' B' C' D']. split; [| | |by etrans].
    + intros id o H. destruct (A _ _ H) as (o1 & H1 & E1). destruct (A' _ _ H1) as (o2 & H2 & F1).
      exists o2. split; congruence.
    + intros id H. rewrite B'; rewrite (B id H); [done|exact H].
    + intros id p s Hp Hs. destruct (C _ _ _ Hp Hs) as (p1 & s1 & H1 & H2 & E1 & E2 & E3).
      destruct (C' _ _ _ H1 H2) as (p2 & s2 & H3 & H4 & F1 & F2 & F3). exists p2, s2. split_and!; [done..|congruence|congruence|tauto].
Qed.

Lemma evolves_state id s c : ~ closed (k_order c !! id) -> core_evolves c (core_state id s c).
Proof.
  intros Hn. split; cbn; [intros i o H; by exists o| |intros i p st Hp Hs; by exists p, st|done].
  intros i Hi. destruct (decide (i = id)) as [->|Hne]; [done|by rewrite lookup_insert_ne].
Qed.

Lemma evolves_changed c id p p' s s' ost rs : k_payments c !! id = Some p -> k_payment c !! id = Some s ->
  pt_orderId p' = pt_orderId p -> pt_amount p' = pt_amount p -> (settled s = true -> settled s' = true) ->
  (forall i, closed (k_order c !! i) -> ost !! i = k_order c !! i) -> k_refunds c ⊆ rs ->
  core_evolves c (mkCore (k_orders c) ost (<[id := p']> (k_payments c)) (<[id := s']> (k_payment c)) rs).
Proof.
  intros Hp Hs E1 E2 Hset Ho Hr. split; cbn; [intros i o H; by exists o|done| |done].
  intros i q st Hq Hst. destruct (decide (i = id)) as [->|Hne].
  - exists p', s'. rewrite !lookup_insert_eq. split_and!; try done; [congruence..|]. intros H. apply Hset. congruence.
  - exists q, st. by rewrite !lookup_insert_ne.
Qed.

Lemma evolves_order id o o' c : k_orders c !! id = Some o -> order_terms o' = order_terms o -> core_evolves c (core_order id o' c).
Proof.
  intros Ho E. split; cbn; [|done|intros i p s Hp Hs; by exists p, s|done].
  intros i x Hx. destruct (decide (i = id)) as [->|Hne]; [exists o'|exists x; by rewrite lookup_insert_ne].
  rewrite lookup_insert_eq. by assert (x = o) as -> by congruence.
Qed.

Lemma evolves_new id p c : k_payments c !! id = None -> core_evolves c (core_payment id p PAY_PENDING c).
Proof.
  intros Hn. split; cbn; [intros i o H; by exists o|done| |done]. intros i q s Hq Hs. exists q, s.
  assert (i <> id) by congruence. by rewrite !lookup_insert_ne.
Qed.

(** * States *)

Definition sale_state (d : Sales) : Prop := inv (inv_of d) /\ sales_ok (own d).
Definition sales_evolves (d d' : Sales) : Prop := evolves (inv_of d) (inv_of d') /\ core_evolves (core_of (own d)) (core_of (own d')).

#[export] Instance sales_evolves_preorder : PreOrder sales_evolves.
Proof. split; [by intros d|]. intros d1 d2 d3 [A B] [A' B']. split; by etrans. Qed.

(** What a transaction does to a good state. *)
Definition sale_step (d d' : Sales) : Prop := sale_state d' /\ sales_evolves d d'.

Lemma unmoved_step d d' : sale_state d -> unmoved d d' -> sales_ok (own d') -> core_evolves (core_of (own d)) (core_of (own d')) -> sale_step d d'.
Proof.
  intros [Hinv Hok] Q Hok' He. apply same_stock_refines in Q as (I & V & _); [|done]. split; by split.
Qed.
Lemma same_step d d' : sale_state d -> unmoved d d' -> same_sales (own d) (own d') -> sale_step d d'.
Proof.
  intros Hs Q Hsame. apply unmoved_step; [done|done|by eapply sales_ok_same; [apply Hs|]|]. by destruct Hsame as [-> _].
Qed.
Lemma kept_step d d' : sale_state d -> unmoved d d' -> own d' = own d -> sale_step d d'.
Proof. intros Hs Q E. apply same_step; [done|done|by rewrite E]. Qed.

Lemma cancelled_step now reason orderId n d d' : sale_state d -> order_cancelled now reason orderId n d d' -> sale_step d d'.
Proof.
  intros [Hinv Hok] H. pose proof (order_cancelled_ok _ _ _ _ _ _ Hok H) as Hok'.
  destruct H as (row & id & topic & key & payload & p' & cs & E & Hst & _ & _ & _ & _ & _ & _ & (_ & (I & V & _) & _) & _).
  split; [by split|]. split; [done|]. rewrite E. apply (evolves_state orderId CANCELLED (core_of (own d))).
  unfold order_state in Hst. cbn. rewrite Hst. by intros [|].
Qed.

Lemma failed_step id reason d d' : sale_state d -> unmoved d d' -> payment_failed id reason d d' -> sale_step d d'.
Proof.
  intros Hs Q H. pose proof (payment_failed_ok id reason d d' (proj2 Hs) H) as Hok. destruct H as (Hst & _ & row & _ & _ & E).
  destruct (payment_exists id _ _ (proj1 (proj2 Hs)) Hst) as (p & Hp & _). apply unmoved_step; [done|done|done|].
  assert (Ec : core_of (own d') = mkCore (k_orders (core_of (own d))) (k_order (core_of (own d))) (<[id := p]> (k_payments (core_of (own d))))
    (<[id := PAY_FAILED]> (k_payment (core_of (own d)))) (k_refunds (core_of (own d)))).
  { rewrite E. unfold core_of. cbn. f_equal. symmetry. by apply insert_id. }
  rewrite Ec. eapply (evolves_changed _ id p p PAY_PENDING); done.
Qed.

Lemma received_evolves c id reference p s' : k_payments c !! id = Some p -> k_payment c !! id = Some PAY_PENDING ->
  (closed (k_order c !! pt_orderId p) -> k_order c !! pt_orderId p = Some s') -> core_evolves c (received id reference p s' c).
Proof.
  intros Hp Hs Hc. unfold received. eapply evolves_changed; [exact Hp|exact Hs|done|done|done| |done].
  intros i Hi. destruct (decide (i = pt_orderId p)) as [->|Hne]; [rewrite lookup_insert_eq; symmetry; by apply Hc|by rewrite lookup_insert_ne].
Qed.

Lemma settled_step now w reference out d d' : sale_state d -> load_payment (pt_id (pw_payment w)) (own d) = Some w -> pw_status w = PAY_PENDING ->
  verified_settled now w reference out d d' -> sale_step d d'.
Proof.
  intros [Hinv Hok] Hw Hs H. pose proof (verified_settled_ok _ _ _ _ _ _ Hok Hw Hs H) as Hok'.
  pose proof (load_payment_ok _ _ _ Hw) as (W1 & W2 & W3 & W4). rewrite Hs in W2. destruct H as (_ & _ & H).
  destruct (or_doorOrder (pw_order w)) eqn:Hd; [|destruct (bool_decide _) eqn:Hc].
  - destruct H as (s' & Q & E & Hs' & _). apply unmoved_step; [done|done|done|]. rewrite E. apply received_evolves; [done|done|].
    unfold order_state in W4. cbn. rewrite W4. destruct Hs' as [-> | (-> & -> & _)]; [done|by intros [|]].
  - destruct H as (Hst & Q & _ & _ & _ & _ & row & id & payload & _ & E). apply unmoved_step; [done|done|done|]. rewrite E.
    rewrite Hst in W4.
    assert (Ec : core_of (own d') = received (pt_id (pw_payment w)) reference (pw_payment w) CANCELLED (core_of (own d))).
    { rewrite E. unfold received, core_of. cbn. f_equal. symmetry. by apply insert_id. }
    rewrite E in Ec. rewrite Ec. by apply received_evolves.
  - destruct H as (Hst & E & _ & _ & ((I & V & _) & _) & _). split; [by split|]. split; [done|]. rewrite E. apply received_evolves; [done|done|].
    unfold order_state in Hst. cbn. rewrite Hst. by intros [|].
Qed.

Lemma refund_step now amount hash input v d d' : (0 < amount)%Z -> sale_state d -> refund_made hash now amount input v d d' -> sale_step d d'.
Proof.
  intros Hpos [Hinv Hok] H. pose proof (refund_made_ok _ _ _ _ _ _ _ Hpos Hok H) as Hok'.
  destruct H as (p & s & r & p' & H1 & H2 & H3 & _ & H5 & _ & _ & _ & _ & _ & _ & _ & (H8 & _) & _ & _ & _ & Q & _).
  apply unmoved_step; [done|done|done|]. rewrite H8.
  apply (evolves_changed (core_of (own d)) _ p _ s _ (k_order (core_of (own d))) (<[rf_id r := r]> (k_refunds (core_of (own d))))); try done.
  - intros _. by destruct (bool_decide _).
  - by apply insert_subseteq.
Qed.

Lemma registered_step hash now userId orderId key r d d' : sale_state d -> unmoved d d' -> registered hash now userId orderId key r d d' ->
  sales_ok (own d') -> sale_step d d'.
Proof.
  intros Hs Q (o & cu & amount & quote & Ho & _ & _ & _ & H) Hok. apply unmoved_step; [done|done|done|].
  destruct r as [id authority n environment|id number n].
  - by destruct H as [-> _].
  - destruct H as (_ & _ & _ & p & _ & _ & _ & _ & _ & Hn & ->). etrans; [by apply (evolves_new id p (core_of (own d)))|].
    by apply (evolves_order orderId o).
Qed.

Lemma dispatched_step orderId carrier code r d d' : sale_state d -> dispatched orderId carrier code r d d' -> sale_step d d'.
Proof.
  intros Hs H. pose proof (dispatched_ok _ _ _ _ _ _ (proj2 Hs) H) as Hok. destruct H as (o & f & s & address & row & H).
  repeat match type of H with _ /\ _ => destruct H as [? H] end.
  match goal with H : command_order _ _ _ _ _ |- _ => destruct H as (Ho & _) end.
  match goal with H : core_of (own d') = _ |- _ => rename H into E end. apply unmoved_step; [done|done|done|]. rewrite E.
  by apply (evolves_order orderId o).
Qed.

(** * Transactions *)

(** A transaction keeps the invariants and moves forward, from any state later than [s0]. *)
Definition safe_from {A} (s0 : Sales) (m : SM A) : Prop :=
  forall d a d', sale_state d -> sales_evolves s0 d -> m d = Ok (a, d') -> sale_step d d'.
Definition safe_tx {A} (m : SM A) : Prop := forall d a d', sale_state d -> m d = Ok (a, d') -> sale_step d d'.

Lemma safe_anywhere {A} s0 (m : SM A) : safe_tx m -> safe_from s0 m.
Proof. intros H d a d' Hd _. by apply H. Qed.

Section transactions.
Context (cuid : nat -> string) (hash : string -> string) (gateway : PaymentGatewayConfig).

Lemma safe_cancel now c : safe_tx (cancel_tx cuid hash now c).
Proof.
  intros d r d' Hs H. apply cancel_order_tx_ok in H as [(prior & _ & _ & _ & Q & E)|[(o & n & _ & _ & _ & _ & H) _]]; [| |apply Hs..].
  - apply same_step; [done|done|by rewrite E].
  - by eapply cancelled_step.
Qed.
Lemma safe_expire now orderId ctx : safe_tx (expireOrder_tx cuid now orderId ctx).
Proof.
  intros d b d' Hs H. apply expireOrder_tx_ok in H; [|apply Hs..]. destruct H as [_ H].
  destruct (match find_order orderId (own d) with Some _ => _ | None => _ end); [|destruct H; by apply kept_step].
  destruct H as (n & H & _). by eapply cancelled_step.
Qed.
Lemma safe_register now userId orderId key requestId : safe_tx (register_tx cuid hash gateway now userId orderId key requestId).
Proof. intros d r d' Hs H. apply register_tx_ok in H as (Q & H & Hok); [|apply Hs]. by eapply registered_step. Qed.
Lemma safe_persist now orderId id amount authority : safe_tx (persist_tx gateway now orderId id amount authority).
Proof.
  intros d r d' Hs H. apply persist_tx_ok in H as (Q & Hok & [E|(p & Hp & Hst & _ & E)]); [by apply kept_step| |apply Hs].
  apply unmoved_step; [done|done|done|]. rewrite E.
  assert (Ec : core_of (set_payments (<[id := with_authority (Some authority) p]> (payments (own d))) (own d)) =
    mkCore (k_orders (core_of (own d))) (k_order (core_of (own d))) (<[id := with_authority (Some authority) p]> (k_payments (core_of (own d))))
      (<[id := PAY_PENDING]> (k_payment (core_of (own d)))) (k_refunds (core_of (own d)))).
  { unfold core_of. cbn. f_equal. symmetry. by apply insert_id. }
  rewrite Ec. by eapply (evolves_changed _ id p).
Qed.
Lemma safe_mark_failed id requestId reason : safe_tx (mark_failed_tx cuid id requestId reason).
Proof.
  intros d u d' Hs H. apply mark_failed_tx_ok in H as (Q & _ & [-> | H]); [by apply kept_step|by eapply failed_step|apply Hs].
Qed.
Lemma safe_not_paid payment requestId : safe_tx (mark_not_paid_tx cuid payment requestId).
Proof.
  intros d out d' Hs H. apply mark_not_paid_tx_ok in H as (w & _ & Q & [(_ & E & _)|(_ & H & _)]); [by apply kept_step|by eapply failed_step|apply Hs].
Qed.
Lemma safe_unconfirmed payment requestId : safe_tx (record_unconfirmed_tx cuid payment requestId).
Proof. intros d out d' Hs H. apply record_unconfirmed_tx_ok in H as (w & _ & (Hsame & Q & _) & _). by apply same_step. Qed.

(** The gateway's confirmation concerns the payment that was read at [s0]. *)
Lemma evolved_order s0 d payment status : sales_evolves s0 d -> payments (own s0) !! pt_id payment = Some payment ->
  payment_state (pt_id payment) (own s0) = Some status -> still_of_order payment (own d).
Proof.
  intros [_ He] Hp Hs q Hq. destruct (ce_payments _ _ He _ _ _ Hp Hs) as (p' & s' & H1 & _ & H2 & _). cbn in H1. congruence.
Qed.
Lemma safe_verified s0 now payment status reference requestId : payments (own s0) !! pt_id payment = Some payment ->
  payment_state (pt_id payment) (own s0) = Some status -> safe_from s0 (apply_verified_tx cuid now payment reference requestId).
Proof.
  intros Hp Hst d out d' Hs He H. apply apply_verified_tx_ok in H as (w & Hw & H); [|apply Hs..|by eapply evolved_order].
  destruct H as [(_ & E & Q & _)|[Hw' H]]; [by apply kept_step|]. eapply settled_step; [done| |done|exact H].
  pose proof (load_payment_ok _ _ _ Hw) as (Hrow & _). destruct (ck_payments _ (proj1 (proj2 Hs)) _ _ Hrow) as [-> _]. exact Hw.
Qed.

Lemma safe_refund now amount input : (0 < amount)%Z -> safe_tx (refund_tx cuid hash now amount input).
Proof.
  intros Hpos d v d' Hs H. apply refund_tx_ok in H as [(c & _ & -> & _)|H]; [by apply kept_step|by eapply refund_step|done|apply Hs].
Qed.
Lemma replayed_step orderId scope keyHash fp r d d' : sale_state d -> replayed orderId scope keyHash fp r d d' -> sale_step d d'.
Proof. intros Hs (prior & _ & _ & _ & E & Q). by apply kept_step. Qed.
Lemma safe_execute now orderId command ctx : safe_tx (execute_tx cuid hash now orderId command ctx).
Proof.
  intros d r d' Hs H. apply execute_tx_ok in H as [H|[(o & f & g & _ & _ & _ & _ & _ & _ & Q & Hsame) _]]; [by eapply replayed_step|by apply same_step|apply Hs].
Qed.
Lemma safe_pick now orderId itemId quantity ctx : safe_tx (pick_tx cuid hash now orderId itemId quantity ctx).
Proof.
  intros d r d' Hs H. apply pick_tx_ok in H as [H|[H _]]; [by eapply replayed_step| |apply Hs].
  destruct H as (o & f & item & p & H). repeat match type of H with _ /\ _ => destruct H as [? H] end. by apply same_step.
Qed.
Lemma safe_dispatch now orderId carrier code ctx : safe_tx (dispatch_tx cuid hash now orderId carrier code ctx).
Proof. intros d r d' Hs H. apply dispatch_tx_ok in H as [H|[H _]]; [by eapply replayed_step|by eapply dispatched_step|apply Hs]. Qed.
Lemma safe_deliver now orderId proofReference ctx : safe_tx (deliver_tx cuid hash now orderId proofReference ctx).
Proof.
  intros d r d' Hs H. apply deliver_tx_ok in H as [H|[(o & f & s & _ & _ & _ & Q & Hsame & _) _]]; [by eapply replayed_step|by apply same_step].
Qed.
End transactions.

#[export] Hint Resolve safe_anywhere safe_cancel safe_expire safe_register safe_persist safe_mark_failed safe_not_paid safe_unconfirmed
  safe_execute safe_pick safe_dispatch safe_deliver : sales.

(** * Among other clients *)

Definition sales_rely (E : env Sales) : Prop := forall k s, sale_state s -> sale_step s (others E k s).

Lemma sales_drift E k n s : sales_rely E -> sale_state s -> sale_step s (drift E k n s).
Proof.
  intros HE. revert k s. induction n as [|n IH]; intros k s Hs; simpl; [by split|].
  destruct (HE k s Hs) as [H1 H2]. destruct (IH (S k) _ H1) as [H3 H4]. split; [done|]. by etrans.
Qed.

(** A command of one transaction: it committed once, on a state that the other clients
    left, or nothing of it remains. *)
Definition ran_once {A} (E : env Sales) (m : SM A) s (out : result A * Sales) : Prop :=
  sale_step s (snd out) /\
  match fst out with
  | Ok a => exists d, sale_state d /\ sales_evolves s d /\ m d = Ok (a, snd out)
  | Err _ => exists n, snd out = drift E 1 n s
  end.

Definition sale_unlocked (d : Sales) : Sales := mkDomain (set_locks [] (inv_of d)) (own d).
Lemma begin_sale_run {A} (m : SM A) d : begin_sale m d = m (sale_unlocked d).
Proof. unfold begin_sale. by erewrite bind_run by reflexivity. Qed.

Lemma sales_retry {A} E contended message (m : SM A) s : sales_rely E -> safe_from s m -> sale_state s ->
  ran_once E m s (withSerializableRetry E (begin_sale m) contended message SERIALIZABLE_RETRIES s).
Proof.
  intros HE Hm Hs. unfold withSerializableRetry, ran_once.
  destruct (retry_loop_spec E (fun e => contended e || isPrismaSerializableContention e)
    (HttpException ConflictException (Some "CONFLICT") message) (begin_sale m) 3%nat 1%nat s) as (j & _ & Hout); [lia|].
  change (Z.to_nat (Z.max 1 SERIALIZABLE_RETRIES)) with 3%nat.
  destruct (retry_loop _ _ _ _ _ _ _) as [[a|e] s']; cbn [fst snd].
  - destruct Hout as [_ Hout]. rewrite begin_sale_run in Hout. destruct (sales_drift E 1 (S j) s HE Hs) as [Hok Hev].
    set (d := sale_unlocked (drift E 1 (S j) s)) in *. assert (Hd : sale_state d) by exact Hok. assert (He : sales_evolves s d) by exact Hev.
    destruct (Hm d a s' Hd He Hout) as [H1 H2]. split; [split; [done|by etrans]|]. by exists d.
  - subst s'. split; [by apply sales_drift|]. by exists (S j).
Qed.

(** The public commands on placed orders and their payments, among other clients: each
    keeps the invariants of stock and sales and only moves forward. *)

Lemma sale_step_refl s : sale_state s -> sale_step s s.
Proof. by split. Qed.
Lemma sale_step_trans s1 s2 s3 : sale_step s1 s2 -> (sale_state s2 -> sale_step s2 s3) -> sale_step s1 s3.
Proof. intros [H1 E1] H. destruct (H H1) as [H2 E2]. split; [done|]. by etrans. Qed.
#[export] Hint Resolve sale_step_refl : sales.

Section commands.
Context (cuid : nat -> string) (hash : string -> string) (gateway : PaymentGatewayConfig) (provider : PaymentProvider).
Context (collate : string -> string -> Z).
Implicit Types (s : Sales).

Lemma retry_step {A} E contended message (m : SM A) s : sales_rely E -> safe_from s m -> sale_state s ->
  sale_step s (snd (withSerializableRetry E (begin_sale m) contended message SERIALIZABLE_RETRIES s)).
Proof. intros HE Hm Hs. by apply (sales_retry E contended message m s HE Hm Hs). Qed.

(** * Orders *)

Lemma cancelAsCustomer_step E now userId orderId key requestId s : sales_rely E -> sale_state s ->
  sale_step s (snd (cancelAsCustomer cuid hash E now userId orderId key requestId s)).
Proof.
  intros HE Hs. unfold cancelAsCustomer. destruct (assertTrackedOrder _ _); [|by auto with sales].
  destruct (find_by _ _); [|by auto with sales]. apply retry_step; auto with sales.
Qed.
Lemma cancelAsStaff_step E now userId orderId key requestId s : sales_rely E -> sale_state s ->
  sale_step s (snd (cancelAsStaff cuid hash E now userId orderId key requestId s)).
Proof.
  intros HE Hs. unfold cancelAsStaff. destruct (assertTrackedOrder _ _); [|by auto with sales]. apply retry_step; auto with sales.
Qed.

Lemma expireOrder_step E now orderId ctx s : sales_rely E -> sale_state s -> sale_step s (snd (expireOrder cuid E now orderId ctx s)).
Proof. intros HE Hs. apply retry_step; auto with sales. Qed.
Lemma expire_each_step Es now ctx ids n s : (forall id, sales_rely (Es id)) -> sale_state s ->
  sale_step s (snd (expire_each cuid Es now ctx ids n s)).
Proof.
  intros HE. revert n s. induction ids as [|id ids IH]; intros n s Hs; simpl; [by auto with sales|].
  pose proof (expireOrder_step (Es id) now id ctx s (HE id) Hs) as H. destruct (expireOrder _ _ _ _ _ _) as [[b|e] s1]; cbn [snd] in H.
  - eapply sale_step_trans; [exact H|]. apply IH.
  - destruct (isOrderStateConflict e); [|exact H]. eapply sale_step_trans; [exact H|]. apply IH.
Qed.
Lemma expirePending_step Es now batch actorId requestId s : (forall id, sales_rely (Es id)) -> sale_state s ->
  sale_step s (snd (expirePendingPaymentOrders cuid collate Es now batch actorId requestId s)).
Proof.
  intros HE Hs. unfold expirePendingPaymentOrders. destruct (assertTrackedOrder _ _); [|by auto with sales]. by apply expire_each_step.
Qed.
Lemma expireAbandoned_step Es now batch requestId s : (forall id, sales_rely (Es id)) -> sale_state s ->
  sale_step s (snd (expireAbandonedOrdersAsSystem cuid collate Es now batch requestId s)).
Proof.
  intros HE Hs. unfold expireAbandonedOrdersAsSystem. destruct (system_context _); [|by auto with sales]. by apply expire_each_step.
Qed.
Lemma expireAbandonedOne_step E now orderId requestId s : sales_rely E -> sale_state s ->
  sale_step s (snd (expireAbandonedOrderAsSystem cuid E now orderId requestId s)).
Proof.
  intros HE Hs. unfold expireAbandonedOrderAsSystem. destruct (system_context _); [|by auto with sales].
  destruct (negb _); [by auto with sales|]. by apply expireOrder_step.
Qed.

(** * Payments *)

Lemma initiate_step E1 E2 now1 now2 userId orderId key requestId s : sales_rely E1 -> sales_rely E2 -> sale_state s ->
  sale_step s (snd (initiate cuid hash gateway provider E1 E2 now1 now2 userId orderId key requestId s)).
Proof.
  intros HE1 HE2 Hs. unfold initiate.
  match goal with |- context [withSerializableRetry E1 (begin_sale ?m) ?c ?msg ?n s] =>
    pose proof (retry_step E1 c msg m s HE1 ltac:(auto with sales) Hs) as H; destruct (withSerializableRetry E1 (begin_sale m) c msg n s) as [[r|e] s1] end;
    cbn [snd] in H; [|exact H]. destruct r as [|id number amount]; [exact H|].
  destruct (authorize _ _) as [answer|]; [|exact H].
  assert (Hp : forall a, sale_step s (snd (withSerializableRetry E2 (begin_sale (persist_tx gateway now2 orderId id amount a)) never_contended
    "Payment changed concurrently; reconcile the recorded attempt." SERIALIZABLE_RETRIES s1))).
  { intros a. eapply sale_step_trans; [exact H|]. intros H1. apply retry_step; auto with sales. }
  assert (Hf : forall reason msg, sale_step s (snd (withSerializableRetry E2 (begin_sale (mark_failed_tx cuid id requestId reason)) never_contended
    msg SERIALIZABLE_RETRIES s1))).
  { intros reason msg. eapply sale_step_trans; [exact H|]. intros H1. apply retry_step; auto with sales. }
  destruct answer as [a| | | |]; cbn [refusal]; [..|exact H|].
  { specialize (Hp a). destruct (withSerializableRetry _ _ _ _ _ _) as [[[]|] ?]; exact Hp. }
  all: match goal with |- context [mark_failed_tx _ _ _ ?reason] => match goal with Hf : forall _ _, _ |- _ => specialize (Hf reason) end end.
  all: match goal with |- context [withSerializableRetry _ _ _ ?msg _ _] => match goal with Hf : forall _, sale_step _ _ |- _ => specialize (Hf msg) end end.
  all: destruct (withSerializableRetry _ _ _ _ _ _) as [[] ?]; assumption.
Qed.

(** A payment found by its authority is read with its own row. *)
Lemma by_authority_read authority s w : sale_state s -> payment_by_authority authority (own s) = Some w ->
  payments (own s) !! pt_id (pw_payment w) = Some (pw_payment w) /\ payment_state (pt_id (pw_payment w)) (own s) = Some (pw_status w).
Proof.
  intros [_ (Hc & _)] H. unfold payment_by_authority in H. destruct (find_by _ _) as [p|] eqn:Hf; [|done].
  apply find_by_Some in Hf as [[k Hk] _]. destruct (ck_payments _ Hc _ _ Hk) as [Eid _].
  cbn in H. rewrite Eid in H. apply load_payment_ok in H as (H1 & H2 & _).
  assert (pt_id (pw_payment w) = k) as -> by (by destruct (ck_payments _ Hc _ _ H1)). by split.
Qed.

Lemma verify_step E now authority status requestId s : sales_rely E -> sale_state s ->
  sale_step s (snd (verify cuid gateway provider E now authority status requestId s)).
Proof.
  intros HE Hs. unfold verify. destruct (_ || _)%bool; [by auto with sales|]. destruct (negb _); [by auto with sales|].
  destruct (payment_by_authority _ _) as [w|] eqn:Hw; [|by auto with sales]. apply by_authority_read in Hw as [Hp Hst]; [|done].
  destruct (assertPaymentBelongsToGateway _ _); [|by auto with sales]. destruct (negb _); [by auto with sales|].
  assert (Hrun : forall (m : SM VerificationOutcome) msg door, safe_from s m ->
    sale_step s (snd (match settlement E m msg s with (Ok o, s') => (Ok (asResponse gateway o door), s') | (Err e, s') => (Err e, s') end))).
  { intros m msg door Hm. pose proof (retry_step E isPrismaSerializableContention msg m s HE Hm Hs) as H. unfold settlement.
    destruct (withSerializableRetry _ _ _ _ _ _) as [[] ?]; exact H. }
  destruct (bool_decide (status = Some "NOK")); [apply Hrun; auto with sales|].
  destruct (verify_with _ _); [apply Hrun; by eapply safe_verified|apply Hrun; auto with sales|by auto with sales|apply Hrun; auto with sales|by auto with sales].
Qed.

Lemma recheck_step E now paymentId actorId requestId s : sales_rely E -> sale_state s ->
  sale_step s (snd (recheck cuid gateway provider E now paymentId actorId requestId s)).
Proof.
  intros HE Hs. unfold recheck. destruct (load_payment _ _) as [w|]; [|by auto with sales]. destruct (bool_decide _); [by auto with sales|].
  unfold transaction. destruct (record _ s) as [[u s1]|e] eqn:Hr; [|by auto with sales].
  assert (H1 : sale_step s s1) by (apply audit_step in Hr as [E1 Q1]; by apply kept_step).
  destruct (bool_decide _); [exact H1|]. destruct (_ || _)%bool; [exact H1|].
  eapply sale_step_trans; [exact H1|]. intros Hs1.
  pose proof (verify_step E now (default EmptyString (pt_authority (pw_payment w))) None requestId s1 HE Hs1) as H.
  destruct (verify _ _ _ _ _ _ _ _ _) as [[] ?]; exact H.
Qed.

Lemma parseAmount_pos raw amount : parseAmount raw = Ok amount -> (0 < amount)%Z.
Proof.
  unfold parseAmount. destruct (_ || _)%bool; [done|]. destruct (_ <=? 0)%Z eqn:Hz; [done|]. intros [= <-]. by apply Z.leb_gt in Hz.
Qed.
Lemma record_refund_step E now input s : sales_rely E -> sale_state s -> sale_step s (snd (record_refund cuid hash E now input s)).
Proof.
  intros HE Hs. unfold record_refund. destruct (parseAmount _) as [amount|] eqn:Ha; [|by auto with sales].
  destruct (assertEvidence _); [|by auto with sales]. apply parseAmount_pos in Ha. apply retry_step; [done| |done]. by apply safe_anywhere, safe_refund.
Qed.

(** * Fulfillment *)

Lemma execute_step E now orderId command ctx s : sales_rely E -> sale_state s -> sale_step s (snd (execute cuid hash E now orderId command ctx s)).
Proof. intros HE Hs. unfold execute. destruct (_ || _)%bool; [by auto with sales|]. apply retry_step; auto with sales. Qed.
Lemma record_pick_step E now orderId itemId quantity ctx s : sales_rely E -> sale_state s ->
  sale_step s (snd (record_pick cuid hash E now orderId itemId quantity ctx s)).
Proof. intros HE Hs. apply retry_step; auto with sales. Qed.
Lemma dispatch_step E now orderId carrier code ctx s : sales_rely E -> sale_state s ->
  sale_step s (snd (dispatch cuid hash E now orderId carrier code ctx s)).
Proof. intros HE Hs. apply retry_step; auto with sales. Qed.
Lemma confirm_step E now orderId proofReference ctx s : sales_rely E -> sale_state s ->
  sale_step s (snd (confirm cuid hash E now orderId proofReference ctx s)).
Proof. intros HE Hs. apply retry_step; auto with sales. Qed.
End commands.
