(* ===== verification/OrderReplays.v ===== *)
(** Commands on orders that are recorded under a key: a repetition answers from the record. *)

From S2P Require Import Prelude Table Paging Json StableJson AuditTrail Retry InventoryModel Inventory.
From S2P Require Import InventoryLedger InventoryProofs Durable DurableSafety StateMachine.
From S2P Require Import PromotionEngine PromotionClaims PromotionCapacity Credit CreditCommands CreditSales CreditBooks CreditRuns CreditSaleProofs.
From S2P Require Import Sales OrderCommands Fulfilling Payments SalesBooks OrderProofs PaymentProofs FulfillmentProofs SalesSafety.

(** The five commands that keep a record, with what identifies the record. *)
Inductive KeyedCommand :=
  | K_cancel (c : CancelCommand)
  | K_execute (orderId : string) (command : FulfillmentCommand) (ctx : OrderContext)
  | K_pick (orderId itemId : string) (quantity : number) (ctx : OrderContext)
  | K_dispatch (orderId carrier trackingCode : string) (ctx : OrderContext)
  | K_deliver (orderId proofReference : string) (ctx : OrderContext).

Section keyed.
Context (cuid : nat -> string) (hash : string -> string).
Implicit Types (d : Sales) (t : SalesTables).

Definition keyed_tx (now : Z) (k : KeyedCommand) : SM OrderResponse :=
  match k with
  | K_cancel c => cancel_tx cuid hash now c
  | K_execute o c ctx => execute_tx cuid hash now o c ctx
  | K_pick o i q ctx => pick_tx cuid hash now o i q ctx
  | K_dispatch o c t ctx => dispatch_tx cuid hash now o c t ctx
  | K_deliver o p ctx => deliver_tx cuid hash now o p ctx
  end.
Definition keyed_order (k : KeyedCommand) : string :=
  match k with K_cancel c => cc_orderId c | K_execute o _ _ | K_pick o _ _ _ | K_dispatch o _ _ _ | K_deliver o _ _ => o end.
Definition keyed_scope (k : KeyedCommand) : string :=
  match k with
  | K_cancel c => cc_scope c | K_execute _ c _ => command_scope c | K_pick _ _ _ _ => PICK_SCOPE
  | K_dispatch _ _ _ _ => DISPATCH_SCOPE | K_deliver _ _ _ => DELIVERY_SCOPE
  end.
Definition keyed_hash (k : KeyedCommand) : string :=
  hash match k with K_cancel c => cc_idempotencyKey c | K_execute _ _ x | K_pick _ _ _ x | K_dispatch _ _ _ x | K_deliver _ _ x => ox_idempotencyKey x end.
Definition keyed_print (k : KeyedCommand) : string :=
  match k with
  | K_cancel c => cc_fingerprint c
  | K_execute _ c x => fingerprint_of hash [("actorId", JStr (ox_actorId x)); ("command", JStr (command_str c))]
  | K_pick _ i q x => fingerprint_of hash [("actorId", JStr (ox_actorId x)); ("itemId", JStr i); ("quantity", jnumber q)]
  | K_dispatch _ c t x => fingerprint_of hash [("actorId", JStr (ox_actorId x)); ("carrier", JStr (trim c)); ("trackingCode", JStr (trim t))]
  | K_deliver _ p x => fingerprint_of hash [("actorId", JStr (ox_actorId x)); ("proofReference", JStr p)]
  end.
Definition find_keyed (k : KeyedCommand) t : option OrderCommandRecord := find_command (keyed_order k) (keyed_scope k) (keyed_hash k) t.

(** The unique index of the records. *)
Definition one_record (k : KeyedCommand) t : Prop := unique_on (same_key (keyed_order k) (keyed_scope k) (keyed_hash k)) (commands t).

(** The answer on record. *)
Definition recorded_as (k : KeyedCommand) (expires : Z) (r : OrderResponse) t : Prop :=
  answered (keyed_order k) (keyed_scope k) (keyed_hash k) (keyed_print k) expires r t.

Lemma replayed_recorded orderId scope keyHash fp r d d' : replayed orderId scope keyHash fp r d d' ->
  exists expires, answered orderId scope keyHash fp expires r (own d').
Proof. intros (prior & H1 & H2 & H3 & E & _). exists (oc_expiresAt prior), prior. by rewrite E. Qed.

(** Every success leaves its answer on record. *)
Lemma keyed_recorded now k d r d' : sale_state d -> keyed_tx now k d = Ok (r, d') -> exists expires, recorded_as k expires r (own d').
Proof.
  intros [Hinv Hok] H. destruct k as [c|o c x|o i q x|o c t x|o p x]; cbn [keyed_tx] in H.
  - apply cancel_order_tx_ok in H as [(prior & H1 & H2 & H3 & _ & E)|[_ H]]; [| |done..].
    + exists (oc_expiresAt prior), prior. by rewrite E.
    + eexists. exact H.
  - apply execute_tx_ok in H as [H|(_ & _ & H)]; [by eapply replayed_recorded|by eexists|done].
  - apply pick_tx_ok in H as [H|(_ & _ & H)]; [by eapply replayed_recorded|by eexists|done].
  - apply dispatch_tx_ok in H as [H|(_ & _ & H)]; [by eapply replayed_recorded|by eexists|done].
  - apply deliver_tx_ok in H as [H|(_ & _ & H)]; [by eapply replayed_recorded|by eexists].
Qed.

(** ** Repetitions *)

Lemma lock_runs orderId d : exists d1, acquireOrderLock orderId d = Ok (tt, d1) /\ own d1 = own d /\ unmoved d d1.
Proof. eexists. split; [reflexivity|]. by split. Qed.

Lemma replay_runs prior fp running r d : oc_response prior = Some r ->
  replay_command prior fp running d = if bool_decide (oc_fingerprint prior = fp) then Ok (r, d) else Err payload_conflict.
Proof. intros Hr. unfold replay_command. rewrite Hr. by destruct (bool_decide _). Qed.

(** The record survives the removal of expired ones. *)
Lemma kept_found now c t prior : unique_on (same_key (cc_orderId c) (cc_scope c) (hash (cc_idempotencyKey c))) (commands t) ->
  find_command (cc_orderId c) (cc_scope c) (hash (cc_idempotencyKey c)) t = Some prior -> (now < oc_expiresAt prior)%Z ->
  find_command (cc_orderId c) (cc_scope c) (hash (cc_idempotencyKey c)) (set_commands (kept_commands hash now c t) t) = Some prior.
Proof.
  intros Hu Hf Hnow. apply find_by_Some in Hf as [[id Hid] HP]. unfold find_command. cbn [commands set_commands].
  assert (Hk : kept_commands hash now c t !! id = Some prior).
  { apply lookup_delete_many. split; [done|]. rewrite HP. by apply Z.leb_gt. }
  apply (find_by_unique _ _ id); [|done|done]. intros k1 k2 r1 r2 [H1 _]%lookup_delete_many [H2 _]%lookup_delete_many. by eapply Hu.
Qed.

(** What a repetition answers, at a state that still has the record. *)
Definition repeated (fp : string) (r : OrderResponse) (prior : OrderCommandRecord) (k : KeyedCommand) d (out : result (OrderResponse * Sales)) : Prop :=
  if bool_decide (oc_fingerprint prior = fp)
  then exists d', out = Ok (r, d') /\ unmoved d d' /\ find_keyed k (own d') = Some prior /\ own d' = set_commands (commands (own d')) (own d)
  else out = Err payload_conflict.

Lemma repeated_same fp r prior k d d1 : find_keyed k (own d) = Some prior -> own d1 = own d -> unmoved d d1 ->
  repeated fp r prior k d (if bool_decide (oc_fingerprint prior = fp) then Ok (r, d1) else Err payload_conflict).
Proof.
  intros Hf E Q. unfold repeated. destruct (bool_decide _); [|done]. exists d1. split; [done|]. split; [done|]. rewrite E. split; [done|].
  symmetry. apply set_commands_id.
Qed.

(** Runs a staff command up to its record. *)
Ltac run_to_record L E1 Ho Hf Hr :=
  rewrite (bind_run _ _ _ _ _ L); erewrite bind_run by reflexivity; rewrite E1, Ho; erewrite bind_run by reflexivity;
  erewrite bind_run by reflexivity; rewrite E1; unfold find_keyed, keyed_hash in Hf; cbn [keyed_order keyed_scope] in Hf;
  rewrite Hf, (replay_runs _ _ _ _ _ Hr); by apply repeated_same.

Lemma keyed_repeat now k d prior r : is_Some (find_order (keyed_order k) (own d)) -> one_record k (own d) -> find_keyed k (own d) = Some prior ->
  oc_response prior = Some r -> (now < oc_expiresAt prior)%Z -> repeated (keyed_print k) r prior k d (keyed_tx now k d).
Proof.
  intros [order Ho] Hu Hf Hr Hnow. destruct (lock_runs (keyed_order k) d) as (d1 & L & E1 & Q1).
  destruct k as [c|o c x|o i q x|o c t x|o p x]; cbn [keyed_tx keyed_order] in *.
  - unfold cancel_tx. rewrite (bind_run _ _ _ _ _ L).
    set (d2 := mkDomain (inv_of d1) (set_commands (kept_commands hash now c (own d1)) (own d1))).
    erewrite (bind_run _ _ d1 tt d2) by reflexivity. erewrite bind_run by reflexivity.
    assert (Hk : find_command (cc_orderId c) (cc_scope c) (hash (cc_idempotencyKey c)) (own d2) = Some prior).
    { unfold d2. cbn [own]. rewrite E1. by apply kept_found. }
    rewrite Hk, (replay_runs _ _ _ _ _ Hr). unfold repeated. cbn [keyed_print]. destruct (bool_decide _); [|done].
    exists d2. split; [done|]. split; [exact Q1|]. split; [exact Hk|]. unfold d2. cbn [own]. by rewrite E1.
  - unfold execute_tx. run_to_record L E1 Ho Hf Hr.
  - unfold pick_tx. run_to_record L E1 Ho Hf Hr.
  - unfold dispatch_tx. run_to_record L E1 Ho Hf Hr.
  - unfold deliver_tx. run_to_record L E1 Ho Hf Hr.
Qed.
End keyed.
