(* ===== verification/SalesProperties.v ===== *)
(** The properties of placed orders, their payments and their fulfillment, with
    witnesses. *)

From S2P Require Import Prelude Table Paging Json StableJson AuditTrail Retry InventoryModel Inventory.
From S2P Require Import InventoryLedger InventoryProofs InventoryProperties Durable DurableSafety StateMachine.
From S2P Require Import Door.
From S2P Require Import PromotionEngine PromotionClaims PromotionCapacity PromotionProperties Credit CreditCommands CreditSales CreditBooks.
From S2P Require Import CreditRuns CreditSaleProofs CreditProperties.
From S2P Require Import Sales OrderCommands Fulfilling Payments SalesBooks OrderProofs PaymentProofs FulfillmentProofs.
From S2P Require Import SalesSafety OrderReplays.

(** * Commands *)

Inductive SaleCommand :=
  | CancelByCustomer (userId orderId key requestId : string)
  | CancelByStaff (userId orderId key requestId : string)
  | ExpirePending (batch : option number) (actorId requestId : string)
  | ExpireAll (batch : option number) (requestId : string)
  | ExpireOne (orderId requestId : string)
  | Initiate (userId orderId key requestId : string)
  | Verify (authority : string) (status : option string) (requestId : string)
  | Recheck (paymentId actorId requestId : string)
  | RecordRefund (input : RefundInput)
  | Execute (orderId : string) (command : FulfillmentCommand) (ctx : OrderContext)
  | RecordPick (orderId itemId : string) (quantity : number) (ctx : OrderContext)
  | Dispatch (orderId carrier trackingCode : string) (ctx : OrderContext)
  | Confirm (orderId proofReference : string) (ctx : OrderContext).
Inductive SaleAnswer :=
  | A_order (r : OrderResponse) | A_count (n : Z) | A_expired (b : bool) | A_initiated (o : InitiationOutcome)
  | A_verification (v : PaymentVerification) | A_reconciliation (r : Reconciliation) | A_refund (v : RefundView).

Definition answer {A} (f : A -> SaleAnswer) (out : result A * Sales) : result SaleAnswer * Sales :=
  (match fst out with Ok a => Ok (f a) | Err e => Err e end, snd out).

(** The other clients during a command: [cl_first] in its first transaction, [cl_second] in
    the one after the gateway's answer, [cl_order] in the expiry of each order. *)
Record Clients := mkClients { cl_first : env Sales; cl_second : env Sales; cl_order : string -> env Sales }.
Definition clients_rely (cl : Clients) : Prop :=
  sales_rely (cl_first cl) /\ sales_rely (cl_second cl) /\ forall id, sales_rely (cl_order cl id).

Section histories.
Context (cuid : nat -> string) (hash : string -> string) (gateway : PaymentGatewayConfig) (provider : PaymentProvider).
Context (collate : string -> string -> Z).

Definition run_sale (cl : Clients) (now1 now2 : Z) (cmd : SaleCommand) (s : Sales) : result SaleAnswer * Sales :=
  let E := cl_first cl in
  match cmd with
  | CancelByCustomer u o k r => answer A_order (cancelAsCustomer cuid hash E now1 u o k r s)
  | CancelByStaff u o k r => answer A_order (cancelAsStaff cuid hash E now1 u o k r s)
  | ExpirePending batch a r => answer A_count (expirePendingPaymentOrders cuid collate (cl_order cl) now1 batch a r s)
  | ExpireAll batch r => answer A_count (expireAbandonedOrdersAsSystem cuid collate (cl_order cl) now1 batch r s)
  | ExpireOne o r => answer A_expired (expireAbandonedOrderAsSystem cuid E now1 o r s)
  | Initiate u o k r => answer A_initiated (initiate cuid hash gateway provider E (cl_second cl) now1 now2 u o k r s)
  | Verify a st r => answer A_verification (verify cuid gateway provider E now1 a st r s)
  | Recheck p a r => answer A_reconciliation (recheck cuid gateway provider E now1 p a r s)
  | RecordRefund input => answer A_refund (record_refund cuid hash E now1 input s)
  | Execute o c ctx => answer A_order (execute cuid hash E now1 o c ctx s)
  | RecordPick o i q ctx => answer A_order (record_pick cuid hash E now1 o i q ctx s)
  | Dispatch o c t ctx => answer A_order (dispatch cuid hash E now1 o c t ctx s)
  | Confirm o p ctx => answer A_order (confirm cuid hash E now1 o p ctx s)
  end.

Lemma run_sale_step cl now1 now2 cmd s : clients_rely cl -> sale_state s -> sale_step s (snd (run_sale cl now1 now2 cmd s)).
Proof.
  intros (H1 & H2 & H3) Hs. destruct cmd; cbn [run_sale answer snd].
  - by apply cancelAsCustomer_step.
  - by apply cancelAsStaff_step.
  - by apply expirePending_step.
  - by apply expireAbandoned_step.
  - by apply expireAbandonedOne_step.
  - by apply initiate_step.
  - by apply verify_step.
  - by apply recheck_step.
  - by apply record_refund_step.
  - by apply execute_step.
  - by apply record_pick_step.
  - by apply dispatch_step.
  - by apply confirm_step.
Qed.

(** Histories of commands and of other clients that keep the invariants, from placed orders
    without payments. *)
Inductive sales_history : Sales -> Prop :=
  | sales_start s : inv (inv_of s) -> promo_ok (promo (own s)) -> books_ok (credit (own s)) -> door_keys (own s) ->
      (forall id o, find_order id (own s) = Some o -> or_id o = id /\ or_payments o = [] /\ order_state id (own s) <> Some PAID) ->
      payments (own s) = ∅ -> sd_status (payment_status (own s)) = ∅ -> refunds (own s) = ∅ -> sales_history s
  | sales_other s s' : sales_history s -> sale_step s s' -> sales_history s'
  | sales_command s cl now1 now2 cmd : sales_history s -> clients_rely cl -> sales_history (snd (run_sale cl now1 now2 cmd s)).

Lemma capture_ok_start c : (forall id o, k_orders c !! id = Some o -> or_id o = id /\ or_payments o = [] /\ k_order c !! id <> Some PAID) ->
  k_payments c = ∅ -> k_payment c = ∅ -> k_refunds c = ∅ -> capture_ok c.
Proof.
  intros HO P S R. split; rewrite ?P, ?S, ?R; try (intros ? ? H; by rewrite lookup_empty in H).
  - intros id o Ho. by destruct (HO id o Ho).
  - intros id o pid Ho Hin. destruct (HO id o Ho) as (_ & E & _). rewrite E in Hin. by apply elem_of_nil in Hin.
  - intros id. rewrite !lookup_empty. by split.
  - intros id1 id2 p1 p2 s1 s2 H. by rewrite lookup_empty in H.
  - intros id p s H. by rewrite lookup_empty in H.
  - intros id (o & Ho & _) Hpaid. by destruct (HO id o Ho) as (_ & _ & Hn).
  - intros id p s H. by rewrite lookup_empty in H.
  - intros key k1 k2 r1 r2 H. by rewrite lookup_empty in H.
Qed.

Lemma sales_history_ok s : sales_history s -> sale_state s.
Proof.
  induction 1 as [s Hinv Hp Hb Hd HO P S R|s s' _ IH [H _]|s cl now1 now2 cmd _ IH Hcl]; [|done|by apply run_sale_step].
  split; [done|]. split; [|done]. by apply capture_ok_start.
Qed.
End histories.

(** * Money *)

(** What an order received. *)
Definition captured_for (orderId : string) (t : SalesTables) (p : Payment) : bool :=
  bool_decide (pt_orderId p = orderId) && match payment_state (pt_id p) t with Some s => settled s | None => false end.
Definition captured_total (orderId : string) (t : SalesTables) : Z :=
  tsum (fun p => if captured_for orderId t p then pt_amount p else 0%Z) (payments t).

(** A shop order received nothing, or exactly its total once, and then it is paid or was
    cancelled before; one attempt at most is alive; a payment was refunded what its refunds
    say, and only out of received money. *)
Definition money_sound (t : SalesTables) : Prop :=
  (forall id o, find_order id t = Some o -> or_doorOrder o = None ->
     captured_total id t = 0%Z /\ order_state id t <> Some PAID \/
     captured_total id t = or_grandTotal o /\ (order_state id t = Some PAID \/ order_state id t = Some CANCELLED)) /\
  (forall id1 id2 p1 p2 s1 s2, payments t !! id1 = Some p1 -> payments t !! id2 = Some p2 -> pt_orderId p1 = pt_orderId p2 ->
     shop_order (core_of t) (pt_orderId p1) -> payment_state id1 t = Some s1 -> payment_state id2 t = Some s2 ->
     live s1 = true -> live s2 = true -> id1 = id2) /\
  (forall id p, payments t !! id = Some p -> exists s, payment_state id t = Some s /\ pt_refundedAmount p = refunded_total id (refunds t) /\
     (pt_refundedAmount p = 0%Z \/ settled s = true /\ (0 < pt_refundedAmount p <= pt_amount p)%Z)).

Lemma settled_live s : settled s = true -> live s = true.
Proof. by destruct s. Qed.

Lemma captured_exact id o t : capture_ok (core_of t) -> find_order id t = Some o -> or_doorOrder o = None ->
  captured_total id t = 0%Z /\ order_state id t <> Some PAID \/
  captured_total id t = or_grandTotal o /\ (order_state id t = Some PAID \/ order_state id t = Some CANCELLED).
Proof.
  intros Hok Ho Hd. assert (Hshop : shop_order (core_of t) id) by (by exists o).
  assert (Hcap : forall k p, payments t !! k = Some p -> captured_for id t p = true ->
    pt_orderId p = id /\ exists s, payment_state k t = Some s /\ settled s = true).
  { intros k p Hk H. destruct (ck_payments _ Hok _ _ Hk) as [Eid _]. apply andb_prop in H as [H1%bool_decide_eq_true H2].
    rewrite Eid in H2. destruct (payment_state k t) as [s|]; [|done]. split; [done|]. by exists s. }
  assert (Hu : unique_on (captured_for id t) (payments t)).
  { intros k1 k2 p1 p2 H1 H2 C1 C2. destruct (Hcap _ _ H1 C1) as (E1 & s1 & S1 & L1), (Hcap _ _ H2 C2) as (E2 & s2 & S2 & L2).
    eapply (ck_single _ Hok k1 k2 p1 p2 s1 s2); try done; [congruence|by rewrite E1|by apply settled_live..]. }
  unfold captured_total. rewrite tsum_unique by done. destruct (find_by _ _) as [p|] eqn:Hf; cbn [from_option].
  - right. apply find_by_Some in Hf as [[k Hk] Hc]. destruct (Hcap _ _ Hk Hc) as (E & s & S & L). split.
    + destruct (ck_payments _ Hok _ _ Hk) as (_ & o' & Ho' & _ & Ha). rewrite E in Ho'. unfold find_order in Ho. cbn in Ho'.
      assert (o' = o) as -> by congruence. by apply Ha.
    + pose proof (ck_settled _ Hok _ _ _ Hk S L) as H. rewrite E in H. exact (H Hshop).
  - left. split; [done|]. intros Hpaid. destruct (ck_paid _ Hok _ Hshop Hpaid) as (k & p & s & Hk & E & S & L).
    rewrite find_by_None in Hf. specialize (Hf k p Hk). unfold captured_for in Hf. destruct (ck_payments _ Hok _ _ Hk) as [Eid _].
    rewrite Eid in Hf. unfold payment_state in Hf. cbn in S. rewrite S, L, bool_decide_true in Hf by done. done.
Qed.

Lemma capture_money_sound t : capture_ok (core_of t) -> money_sound t.
Proof.
  intros Hok. split; [intros id o; by apply captured_exact|]. split; [exact (ck_single _ Hok)|].
  intros id p Hp. assert (Hs : is_Some (k_payments (core_of t) !! id)) by (by exists p). apply (ck_states _ Hok) in Hs as [s Hs].
  exists s. split; [exact Hs|]. destruct (ck_refunded _ Hok _ _ _ Hp Hs) as [Hf Ht]. split; [exact Ht|].
  destruct s; cbn in Hf; try (by left); right; split; (done || lia).
Qed.

(** Sound books of sales: money, promotion capacity and customer credit. *)
Definition sold_soundly (t : SalesTables) : Prop := money_sound t /\ capacity_exact (promo t) /\ books_balanced (credit t).
Lemma sales_ok_sound t : sales_ok t -> sold_soundly t.
Proof. intros (Hc & Hp & Hb & _). split; [by apply capture_money_sound|]. split; [by apply promo_ok_exact|by apply books_ok_balanced]. Qed.

(** * Properties *)

(** [C8] Commands on placed orders are safe.  In every history of cancellations, expiries,
    payments, verifications, rechecks, refunds and fulfillment commands, among other clients
    that keep the invariants, every shop order received either nothing, and is not paid, or
    exactly its total from one payment, and is paid or was cancelled; no order has two
    living attempts; refunds add up to what their payment says, never above what it
    received; promotion capacity is exact and the credit books balance.  The next command
    keeps the stock sound and only moves forward: orders keep their lines, total and
    customer, paid and cancelled orders stay so, received money stays received and refunds
    stay as recorded. *)
Theorem sales_commands_safe cuid hash gateway provider collate cl now1 now2 cmd s :
  sales_history cuid hash gateway provider collate s -> clients_rely cl ->
  sold_soundly (own s) /\
  let s' := snd (run_sale cuid hash gateway provider collate cl now1 now2 cmd s) in
  sale_step s s' /\ sold_soundly (own s').
Proof.
  intros Hs Hcl. pose proof (sales_history_ok _ _ _ _ _ _ Hs) as Hok. split; [apply sales_ok_sound, Hok|]. cbv zeta.
  pose proof (run_sale_step cuid hash gateway provider collate cl now1 now2 cmd s Hcl Hok) as H. split; [exact H|apply sales_ok_sound, H].
Qed.

(** [C10] Giving back an unpaid order.  A cancellation either repeats the recorded answer of
    its key, or moves a shop order of its owner from PENDING_PAYMENT to CANCELLED; an expiry
    does so exactly when the order is still due and has no payment attempt.  Then every
    active reservation of the order is released, each exactly once and nothing else of the
    stock moves, every reserved promotion use of the order is returned, one event is left,
    and nothing else of the tables changes but the record of the command. *)
Theorem order_release_exact cuid hash now c orderId ctx d :
  inv (inv_of d) -> sales_ok (own d) ->
  (forall r d', cancel_tx cuid hash now c d = Ok (r, d') -> sales_ok (own d') /\
     ((exists prior, find_by (same_key (cc_orderId c) (cc_scope c) (hash (cc_idempotencyKey c))) (kept_commands hash now c (own d)) = Some prior /\
         oc_fingerprint prior = cc_fingerprint c /\ oc_response prior = Some r /\ unmoved d d' /\
         own d' = set_commands (kept_commands hash now c (own d)) (own d)) \/
      (cancel_fresh now c r d d' /\
       answered (cc_orderId c) (cc_scope c) (hash (cc_idempotencyKey c)) (cc_fingerprint c) (now + ORDER_CANCEL_RECORD_TTL_MS) r (own d')))) /\
  (forall b d', expireOrder_tx cuid now orderId ctx d = Ok (b, d') -> sales_ok (own d') /\
     b = match find_order orderId (own d) with Some o => still_due now orderId o (own d) | None => false end /\
     if b then exists n, order_cancelled now (RELEASE_REASON by_expiry) orderId n d d' /\ commands (own d') = commands (own d)
     else own d' = own d /\ unmoved d d').
Proof.
  intros Hinv Hok. split.
  - intros r d' H. split; [|by apply cancel_order_tx_ok in H]. eapply (safe_cancel cuid hash now c); [by split|exact H].
  - intros b d' H. split; [eapply (safe_expire cuid now orderId ctx); [by split|exact H]|].
    apply expireOrder_tx_ok in H as [-> H]; done.
Qed.

(** [C9] Recording the gateway's answer.  A verified payment that is still pending becomes
    PAID with its reference and, for an open shop order, the order becomes PAID, every
    active reservation is shipped exactly once, the promotion uses are confirmed and a
    fulfillment is opened; after a cancellation only the money is recorded; a door order is
    paid only when its approved quotation is covered.  Repeating it answers from the
    record and changes nothing.  A refused payment fails, once; an unconfirmed one stays
    pending and is reported once. *)
Theorem gateway_answer_exact cuid now payment reference requestId d :
  inv (inv_of d) -> sales_ok (own d) -> still_of_order payment (own d) ->
  (forall out d', apply_verified_tx cuid now payment reference requestId d = Ok (out, d') -> sales_ok (own d') /\
     exists w, load_payment (pt_id payment) (own d) = Some w /\
       ((pw_status w = PAY_PAID /\ own d' = own d /\ unmoved d d' /\ out = replayOutcome w) \/
        (pw_status w = PAY_PENDING /\ verified_settled now w reference out d d'))) /\
  (forall out d', mark_not_paid_tx cuid payment requestId d = Ok (out, d') -> sales_ok (own d') /\
     exists w, load_payment (pt_id payment) (own d) = Some w /\ unmoved d d' /\
       ((pw_status w <> PAY_PENDING /\ own d' = own d /\ out = replayOutcome w) \/
        (pw_status w = PAY_PENDING /\ payment_failed (pt_id payment) REASON_NOT_PAID d d' /\ vo_paymentStatus out = PAY_FAILED /\ vo_outcome out = NOT_PAID))) /\
  (forall out d', record_unconfirmed_tx cuid payment requestId d = Ok (out, d') -> sales_ok (own d') /\
     exists w, load_payment (pt_id payment) (own d) = Some w /\ reported payment d d' /\
       out = if bool_decide (pw_status w = PAY_PENDING) then unconfirmedOutcome w else replayOutcome w).
Proof.
  intros Hinv Hok Hof. assert (Hs : sale_state d) by (by split). split; [|split]; intros out d' H.
  - pose proof H as H'. apply apply_verified_tx_ok in H as (w & Hw & H); [|done..]. split; [|by exists w].
    destruct H as [(_ & -> & _)|[Hp H]]; [done|]. eapply verified_settled_ok; [done| |done|exact H].
    pose proof (load_payment_ok _ _ _ Hw) as (Hrow & _). destruct (ck_payments _ (proj1 Hok) _ _ Hrow) as [-> _]. exact Hw.
  - split; [by eapply (safe_not_paid cuid payment requestId)|by apply mark_not_paid_tx_ok in H].
  - split; [by eapply (safe_unconfirmed cuid payment requestId)|by apply record_unconfirmed_tx_ok in H].
Qed.

(** [C11] Recording a refund.  A request under a key that has a refund changes nothing: it is
    the same payment and the same evidence, and the answer tells that refund with the
    status, the refunded total and the rest that its payment has by now.  Otherwise the
    payment was received and has at least the amount left; one refund row is added, the
    refunded total grows by exactly the amount, the payment becomes REFUNDED when nothing is
    left and PARTIALLY_REFUNDED otherwise, promotion discounts return in proportion, and
    neither the stock nor the order changes.  From then on, in every later state, the key
    belongs to this refund: the same request is answered with it and changes nothing,
    another one is refused. *)
Theorem refund_recording_exact cuid hash now amount input d v d' :
  (0 < amount)%Z -> sales_ok (own d) -> refund_tx cuid hash now amount input d = Ok (v, d') ->
  sales_ok (own d') /\
  ((exists claimed, find_refund (refund_key hash input) (refunds (own d)) = Some claimed /\ refund_repeated hash amount input claimed v d d') \/
   refund_made hash now amount input v d d' /\
   exists r, refunds (own d') = <[rf_id r := r]> (refunds (own d)) /\ rv_refundId v = rf_id r /\ rf_amount r = amount /\
     forall now2 amount2 input2 d2, sale_step d' d2 -> ri_paymentId input2 = ri_paymentId input -> ri_idempotencyKey input2 = ri_idempotencyKey input ->
       exists p2, payments (own d2) !! ri_paymentId input = Some p2 /\
         refund_tx cuid hash now2 amount2 input2 d2 =
           if bool_decide (refund_print hash amount2 input2 = refund_print hash amount input)
           then Ok (refund_view r p2 (payment_state (ri_paymentId input) (own d2)), d2) else Err payload_conflict).
Proof.
  intros Hpos Hok H. apply refund_tx_ok in H as [(c & Hf & H)|H]; [| |done..].
  { split; [by destruct H as [-> _]|]. left. by exists c. }
  split; [by eapply refund_made_ok|]. right. split; [done|].
  destruct H as (p & s & r & p' & _ & _ & _ & _ & _ & _ & Hp & Ha & Hk & Hg & Hr & Hn & (E & -> & _) & _). exists r.
  apply (f_equal k_refunds) in E. cbn in E. do 3 (split; [done|]). intros now2 amount2 input2 d2 ([_ Hok2] & _ & He) E1 E2.
  assert (Hkeep : refunds (own d2) !! rf_id r = Some r).
  { eapply lookup_weaken; [|exact (ce_refunds _ _ He)]. cbn. rewrite E. by rewrite lookup_insert_eq. }
  destruct (refund_tx_repeats cuid hash r now2 amount2 input2 d2 Hok2 Hkeep) as (p2 & Hp2 & Ht); [|congruence|].
  { rewrite Hk. unfold refund_key. by rewrite E1, E2. }
  rewrite E1 in Hp2, Ht. exists p2. split; [done|]. rewrite Ht.
  assert (recorded_print hash r = refund_print hash amount input) as -> by (unfold recorded_print, refund_print; by rewrite Ha, Hg, Hr, Hn). done.
Qed.

(** [C12] The stages of fulfillment.  A command that did not repeat a recorded answer started,
    readied, picked, dispatched or delivered under exactly the conditions of its stage: the
    order is paid for by a received payment of its total or a booked credit sale, its stock
    was consumed, the fulfillment is in the state before; readiness needs a pick of every
    line, a pick equals the ordered quantity and happens once for a line, a dispatch ships
    exactly the ordered lines, each picked exactly, to the order's address, in the only
    shipment of the order, and a delivery follows a dispatch.  Then the fulfillment moves
    one stage, the answer is on record, and stock and money stay as they are. *)
Theorem fulfillment_stages_exact cuid hash now orderId ctx d :
  sales_ok (own d) ->
  (forall command r d', execute_tx cuid hash now orderId command ctx d = Ok (r, d') ->
     let fp := fingerprint_of hash [("actorId", JStr (ox_actorId ctx)); ("command", JStr (command_str command))] in
     replayed orderId (command_scope command) (hash (ox_idempotencyKey ctx)) fp r d d' \/
     advanced now orderId command r d d' /\ answered orderId (command_scope command) (hash (ox_idempotencyKey ctx)) fp (now + DAY_MS) r (own d')) /\
  (forall itemId quantity r d', pick_tx cuid hash now orderId itemId quantity ctx d = Ok (r, d') ->
     let fp := fingerprint_of hash [("actorId", JStr (ox_actorId ctx)); ("itemId", JStr itemId); ("quantity", jnumber quantity)] in
     replayed orderId PICK_SCOPE (hash (ox_idempotencyKey ctx)) fp r d d' \/
     picked orderId itemId quantity ctx r d d' /\ answered orderId PICK_SCOPE (hash (ox_idempotencyKey ctx)) fp (now + DAY_MS) r (own d')) /\
  (forall carrier code r d', dispatch_tx cuid hash now orderId carrier code ctx d = Ok (r, d') ->
     let fp := fingerprint_of hash [("actorId", JStr (ox_actorId ctx)); ("carrier", JStr (trim carrier)); ("trackingCode", JStr (trim code))] in
     replayed orderId DISPATCH_SCOPE (hash (ox_idempotencyKey ctx)) fp r d d' \/
     dispatched orderId carrier code r d d' /\ answered orderId DISPATCH_SCOPE (hash (ox_idempotencyKey ctx)) fp (now + DAY_MS) r (own d')) /\
  (forall proofReference r d', deliver_tx cuid hash now orderId proofReference ctx d = Ok (r, d') ->
     let fp := fingerprint_of hash [("actorId", JStr (ox_actorId ctx)); ("proofReference", JStr proofReference)] in
     replayed orderId DELIVERY_SCOPE (hash (ox_idempotencyKey ctx)) fp r d d' \/
     delivered orderId proofReference r d d' /\ answered orderId DELIVERY_SCOPE (hash (ox_idempotencyKey ctx)) fp (now + DAY_MS) r (own d')).
Proof.
  intros Hok. split; [|split; [|split]].
  - intros command r d' H. apply execute_tx_ok in H as [H|(H1 & _ & H2)]; [by left|by right|done].
  - intros itemId quantity r d' H. apply pick_tx_ok in H as [H|(H1 & _ & H2)]; [by left|by right|done].
  - intros carrier code r d' H. apply dispatch_tx_ok in H as [H|(H1 & _ & H2)]; [by left|by right|done].
  - intros proofReference r d' H. apply deliver_tx_ok in H as [H|(H1 & _ & H2)]; [by left|by right].
Qed.

(** [C13] Order commands run once per key.  A cancellation, start, readiness, pick, dispatch or
    delivery that succeeds leaves its answer on record.  While the record stands, in any
    later state that still has the order, its key with the same fingerprint answers the
    same and changes no row but expired records; with another fingerprint it is refused. *)
Theorem order_commands_idempotent cuid hash now k d r d' :
  sale_state d -> keyed_tx cuid hash now k d = Ok (r, d') ->
  exists expires, recorded_as hash k expires r (own d') /\
    forall now2 k2 d2 prior,
      find_keyed hash k (own d') = Some prior -> find_keyed hash k2 (own d2) = Some prior -> one_record hash k2 (own d2) ->
      is_Some (find_order (keyed_order k2) (own d2)) -> (now2 < expires)%Z ->
      (keyed_print hash k2 = keyed_print hash k -> exists d3, keyed_tx cuid hash now2 k2 d2 = Ok (r, d3) /\ unmoved d2 d3 /\
         find_keyed hash k2 (own d3) = Some prior /\ own d3 = set_commands (commands (own d3)) (own d2)) /\
      (keyed_print hash k2 <> keyed_print hash k -> keyed_tx cuid hash now2 k2 d2 = Err payload_conflict).
Proof.
  intros Hs H. destruct (keyed_recorded cuid hash now k d r d' Hs H) as (expires & Hrec). exists expires. split; [exact Hrec|].
  intros now2 k2 d2 prior Hp Hf Hu Ho Hnow. destruct Hrec as (rec & R1 & R2 & R3 & R4). unfold find_keyed in Hp.
  assert (rec = prior) as -> by congruence. rewrite <- R4 in Hnow.
  pose proof (keyed_repeat cuid hash now2 k2 d2 prior r Ho Hu Hf R3 Hnow) as Hrep. unfold repeated in Hrep. rewrite R2 in Hrep.
  split; intros E; [rewrite bool_decide_true in Hrep by done; exact Hrep|rewrite bool_decide_false in Hrep by congruence; exact Hrep].
Qed.

(** * Witnesses *)

Definition shop_demo_order : CreditOrder :=
  mkOrder "o1" "IY-1" "cust" 0 0 0 300 90 [mkOrderLine "i1" "v1" 3 100 300] [] [] None (Some (JObj [("city", JStr "Yazd")])) None.
Definition shop_demo_tables : SalesTables :=
  mkSales (mkCreditTables {["cust" := mkCustomer "cust" (Some "u1") CUSTOMER_ACTIVE]} ∅ ∅ ∅ ∅ ∅ ∅ {["o1" := shop_demo_order]}
      (mkStatusDb {["o1" := PENDING_PAYMENT]} []) ∅ (mkStatusDb ∅ []))
    (mkPromoTables ∅ ∅ ∅ ∅) (mkDoorTables ∅ ∅ ∅ ∅) ∅ (mkStatusDb ∅ []) ∅ [] ∅ ∅ ∅ ∅.
Definition shop_demo : Sales := mkDomain demo_places shop_demo_tables.
Definition quiet_sales : env Sales := mkEnv (fun _ s => s) (fun _ => None).
Definition quiet_clients : Clients := mkClients quiet_sales quiet_sales (fun _ => quiet_sales).
Definition demo_gateway : PaymentGatewayConfig := mkGateway "zarinpal" sandbox "https://shop/callback".
Definition demo_provider : PaymentProvider := mkProvider (fun _ => Some (A_redirect "auth-1")) (fun _ => V_verified "ref-1").
Definition demo_sale_run := run_sale demo_cuid id demo_gateway demo_provider (fun _ _ => 0%Z) quiet_clients 50 50.
Definition demo_after (cmds : list SaleCommand) : Sales := fold_left (fun s c => snd (demo_sale_run c s)) cmds shop_demo.

Definition staff (key : string) : OrderContext := mkOrderContext "admin" key key.
Definition demo_pay : list SaleCommand := [Initiate "u1" "o1" "k1" "req-1"; Verify "auth-1" (Some "OK") "req-2"].
Definition demo_ready : list SaleCommand :=
  demo_pay ++ [Execute "o1" start (staff "k2"); RecordPick "o1" "i1" (Int 3) (staff "k3"); Execute "o1" ready (staff "k4")].

Lemma quiet_clients_rely : clients_rely quiet_clients.
Proof. assert (H : sales_rely quiet_sales) by (intros k s Hs; by apply sale_step_refl). by split_and!. Qed.

Lemma shop_demo_history cmds : sales_history demo_cuid id demo_gateway demo_provider (fun _ _ => 0%Z) (demo_after cmds).
Proof.
  unfold demo_after. induction cmds as [|c cmds IH] using rev_ind; simpl.
  - apply sales_start; [exact demo_places_inv| | | | |done..].
    + split; cbn; unfold slots_ok; intros; match goal with H : ∅ !! _ = Some _ |- _ => by rewrite lookup_empty in H end.
    + apply books_ok_start; [|done..]. unfold accounts_ok, unique_on. cbn. split_and!; intros; match goal with H : ∅ !! _ = Some _ |- _ => by rewrite lookup_empty in H end.
    + intros i r H. cbn in H. by rewrite lookup_empty in H.
    + intros i o H. unfold find_order in H. cbn in H. apply lookup_singleton_Some in H as [<- <-]. by split_and!.
  - rewrite fold_left_app. apply sales_command; [exact IH|exact quiet_clients_rely].
Qed.
Lemma shop_demo_state cmds : sale_state (demo_after cmds).
Proof. eapply sales_history_ok, shop_demo_history. Qed.

Definition demo_begun : Sales := demo_after (take 1 demo_pay).
Lemma sales_commands_safe_witness :
  captured_total "o1" (own demo_begun) = 0%Z /\
  captured_total "o1" (own (snd (demo_sale_run (Verify "auth-1" (Some "OK") "req-2") demo_begun))) = 300%Z /\
  sold_soundly (own (snd (demo_sale_run (Verify "auth-1" (Some "OK") "req-2") demo_begun))).
Proof.
  split; [vm_compute; reflexivity|]. split; [vm_compute; reflexivity|].
  exact (proj2 (proj2 (sales_commands_safe demo_cuid id demo_gateway demo_provider (fun _ _ => 0%Z) quiet_clients 50 50
    (Verify "auth-1" (Some "OK") "req-2") demo_begun (shop_demo_history _) quiet_clients_rely))).
Defined.

(** The result and the state of a transaction that succeeds. *)
Definition ran {A} (m : SM A) (d : Sales) : Sales := match m d with Ok (_, d') => d' | Err _ => d end.

Definition demo_order_cancel : CancelCommand := cancel_command id "o1" STAFF_CANCEL_SCOPE None "admin" "req-9" "k9" by_staff.
Lemma order_release_exact_witness :
  is_ok (cancel_tx demo_cuid id 50 demo_order_cancel shop_demo) = true /\
  order_state "o1" (own (ran (cancel_tx demo_cuid id 50 demo_order_cancel) shop_demo)) = Some CANCELLED /\
  sales_ok (own (ran (cancel_tx demo_cuid id 50 demo_order_cancel) shop_demo)) /\
  is_ok (expireOrder_tx demo_cuid 100 "o1" (mkExpiryContext None "job-1") shop_demo) = true /\
  sales_ok (own (ran (expireOrder_tx demo_cuid 100 "o1" (mkExpiryContext None "job-1")) shop_demo)).
Proof.
  destruct (shop_demo_state []) as [Hinv Hok].
  destruct (order_release_exact demo_cuid id 50 demo_order_cancel "o1" (mkExpiryContext None "job-1") shop_demo Hinv Hok) as [H1 _].
  destruct (order_release_exact demo_cuid id 100 demo_order_cancel "o1" (mkExpiryContext None "job-1") shop_demo Hinv Hok) as [_ H2].
  split; [vm_compute; reflexivity|]. split; [vm_compute; reflexivity|]. unfold ran. split; [|split; [vm_compute; reflexivity|]].
  - destruct (cancel_tx demo_cuid id 50 demo_order_cancel shop_demo) as [[r d]|e] eqn:E; [exact (proj1 (H1 r d eq_refl))|exact Hok].
  - destruct (expireOrder_tx demo_cuid 100 "o1" (mkExpiryContext None "job-1") shop_demo) as [[b d]|e] eqn:E; [exact (proj1 (H2 b d eq_refl))|exact Hok].
Defined.

Definition demo_payment : Payment := mkPaymentRow "c0" "o1" "zarinpal" 300 (Some "auth-1") None 0 "k1" "fp" None "sandbox" 7.
Definition demo_settle : SM VerificationOutcome := apply_verified_tx demo_cuid 50 demo_payment "ref-1" "req-2".
Lemma gateway_answer_exact_witness :
  is_ok (demo_settle demo_begun) = true /\ sales_ok (own (ran demo_settle demo_begun)) /\
  payment_state "c0" (own (ran demo_settle demo_begun)) = Some PAY_PAID /\
  is_ok (mark_not_paid_tx demo_cuid demo_payment "req-3" demo_begun) = true /\
  is_ok (record_unconfirmed_tx demo_cuid demo_payment "req-4" demo_begun) = true.
Proof.
  split; [vm_compute; reflexivity|]. split; [|split; [|split]]; [|vm_compute; reflexivity..].
  destruct (shop_demo_state (take 1 demo_pay)) as [Hinv Hok]. fold demo_begun in Hinv, Hok.
  assert (Hof : still_of_order demo_payment (own demo_begun)).
  { intros p Hp. assert (E : pt_orderId <$> payments (own demo_begun) !! "c0" = Some "o1") by (vm_compute; reflexivity).
    change (pt_id demo_payment) with "c0" in Hp. rewrite Hp in E. injection E as E. symmetry. exact E. }
  destruct (gateway_answer_exact demo_cuid 50 demo_payment "ref-1" "req-2" demo_begun Hinv Hok Hof) as [H _].
  unfold ran. destruct (demo_settle demo_begun) as [[out d]|e] eqn:E; [exact (proj1 (H out d E))|exact Hok].
Defined.

Definition demo_refund_input : RefundInput := mkRefundInput "c0" "100" "gw-7" "damaged" None "admin" "req-5" "k5".
Definition demo_refund_tx : SM RefundView := refund_tx demo_cuid id 60 100 demo_refund_input.
Lemma refund_recording_exact_witness :
  match demo_refund_tx (demo_after demo_pay) with
  | Ok (v, d) => rv_remainingRefundable v = 200%Z /\ rv_paymentStatus v = PAY_PARTIALLY_REFUNDED /\ sales_ok (own d)
  | Err _ => False
  end.
Proof.
  destruct (demo_refund_tx (demo_after demo_pay)) as [[v d]|e] eqn:E; [|vm_compute in E; discriminate E].
  assert (F : match demo_refund_tx (demo_after demo_pay) with Ok (v, _) => Some (rv_remainingRefundable v, rv_paymentStatus v) | Err _ => None end =
    Some (200%Z, PAY_PARTIALLY_REFUNDED)) by (vm_compute; reflexivity).
  rewrite E in F. injection F as F1 F2. split; [exact F1|]. split; [exact F2|].
  exact (proj1 (refund_recording_exact demo_cuid id 60 100 demo_refund_input (demo_after demo_pay) v d eq_refl (proj2 (shop_demo_state demo_pay)) E)).
Defined.

Definition demo_dispatch_tx : SM OrderResponse := dispatch_tx demo_cuid id 60 "o1" "post" "T1" (staff "k6").
Lemma fulfillment_stages_exact_witness :
  match demo_dispatch_tx (demo_after demo_ready) with
  | Ok (r, d) => dispatched "o1" "post" "T1" r (demo_after demo_ready) d
  | Err _ => False
  end.
Proof.
  destruct (demo_dispatch_tx (demo_after demo_ready)) as [[r d]|e] eqn:E; [|vm_compute in E; discriminate E].
  destruct (fulfillment_stages_exact demo_cuid id 60 "o1" (staff "k6") (demo_after demo_ready) (proj2 (shop_demo_state demo_ready)))
    as (_ & _ & H & _). destruct (H "post" "T1" r d E) as [(prior & Hp & _)|[Hd _]]; [|exact Hd].
  assert (F : find_command "o1" DISPATCH_SCOPE (id "k6") (own (demo_after demo_ready)) = None) by (vm_compute; reflexivity).
  unfold staff in Hp. cbn [ox_idempotencyKey] in Hp. rewrite F in Hp. discriminate Hp.
Defined.

Definition demo_keyed : KeyedCommand := K_execute "o1" start (staff "k2").
Lemma order_commands_idempotent_witness :
  match keyed_tx demo_cuid id 50 demo_keyed (demo_after demo_pay) with
  | Ok (r, d) => r = Advanced "c4" "o1" FUL_PROCESSING /\ exists expires, recorded_as id demo_keyed expires r (own d)
  | Err _ => False
  end.
Proof.
  destruct (keyed_tx demo_cuid id 50 demo_keyed (demo_after demo_pay)) as [[r d]|e] eqn:E; [|vm_compute in E; discriminate E].
  assert (F : match keyed_tx demo_cuid id 50 demo_keyed (demo_after demo_pay) with Ok (r, _) => Some r | Err _ => None end =
    Some (Advanced "c4" "o1" FUL_PROCESSING)) by (vm_compute; reflexivity).
  rewrite E in F. injection F as F. split; [exact F|].
  destruct (order_commands_idempotent demo_cuid id 50 demo_keyed (demo_after demo_pay) r d (shop_demo_state _) E) as (expires & H & _).
  exists expires. exact H.
Defined.
