(* ===== verification/ShopBooks.v ===== *)
(** The invariant of the shop: carts within their limits and owned once, quotes used once,
    mutations and checkouts recorded once under their key, and order sheets that match their
    orders; and how the shop evolves. *)

From S2P Require Import Prelude StateMachine Retry PromotionEngine Table Paging Json StableJson CheckoutAddress.
From S2P Require Import AuditTrail InventoryModel Inventory Durable PromotionClaims Credit CreditCommands CreditSales Sales.
From S2P Require Import Shop Carts Checkout InventoryLedger InventoryProofs DurableSafety CreditBooks CreditRuns CreditSaleProofs.
From S2P Require Import SalesBooks.

(** * The invariant *)

(** The lines of all carts: their rows, one line for a variant, and the limit of a cart. *)
Record items_ok (cs : gmap string Cart) (items : gmap string CartItem) : Prop := {
  ik_rows : forall id i, items !! id = Some i -> item_id i = id /\ (1 <= item_quantity i <= MAX_CART_QUANTITY)%Z /\ is_Some (cs !! item_cartId i);
  ik_single : forall id1 id2 i1 i2, items !! id1 = Some i1 -> items !! id2 = Some i2 -> item_cartId i1 = item_cartId i2 ->
    item_variantId i1 = item_variantId i2 -> id1 = id2;
  ik_limit : forall id, (count_rows (of_cart id) items <= MAX_CART_LINES)%Z
}.
Record carts_ok (cs : gmap string Cart) : Prop := {
  ca_keys : forall id c, cs !! id = Some c -> cart_id c = id;
  ca_owner : forall id1 id2 c1 c2 x, cs !! id1 = Some c1 -> cs !! id2 = Some c2 -> cart_customerId c1 = Some x -> cart_customerId c2 = Some x -> id1 = id2
}.
Record mutations_ok (ms : gmap string CartMutation) : Prop := {
  mk_keys : forall id m, ms !! id = Some m -> mu_id m = id;
  mk_single : forall id1 id2 m1 m2 h, ms !! id1 = Some m1 -> ms !! id2 = Some m2 -> mu_customerId m1 = mu_customerId m2 -> mu_scope m1 = mu_scope m2 ->
    mu_keyHash m1 = Some h -> mu_keyHash m2 = Some h -> id1 = id2
}.

(** A used quote names its order, and an order at most one quote. *)
Record quotes_ok (os : gmap string CreditOrder) (qs : gmap string ShippingQuote) : Prop := {
  qk_keys : forall id q, qs !! id = Some q -> qu_id q = id;
  qk_used : forall id q, qs !! id = Some q -> (qu_consumedAt q = None <-> qu_orderId q = None) /\
    (forall o, qu_orderId q = Some o -> is_Some (os !! o));
  qk_single : forall id1 id2 q1 q2 o, qs !! id1 = Some q1 -> qs !! id2 = Some q2 -> qu_orderId q1 = Some o -> qu_orderId q2 = Some o -> id1 = id2
}.

(** The sheet of an order adds up and has the lines of the order. *)
Definition line_of (l : OrderLineSnapshot) : string * Z * Z * Z := (os_variantId l, os_quantity l, os_unitPrice l, os_lineTotal l).
Definition item_of (i : OrderLine) : string * Z * Z * Z := (ol_variantId i, ol_quantity i, ol_unitPrice i, ol_total i).
Definition sheet_fits (o : CreditOrder) (sheet : OrderSheet) : Prop :=
  sumZ os_lineTotal (sheet_lines sheet) = sheet_subtotal sheet /\
  or_grandTotal o = (sheet_subtotal sheet - or_discount o + or_shipping o)%Z /\ (0 <= or_grandTotal o)%Z /\
  (item_of <$> or_items o) = (line_of <$> sheet_lines sheet) /\
  Forall (fun l => 0 < os_quantity l /\ os_lineTotal l = os_unitPrice l * os_quantity l)%Z (sheet_lines sheet).
Definition sheets_ok (os : gmap string CreditOrder) (sheets : gmap string OrderSheet) : Prop :=
  forall id sheet, sheets !! id = Some sheet -> exists o, os !! id = Some o /\ sheet_fits o sheet.

(** A completed record answers what its order has, which one quote paid the way for. *)
Definition answers (t : ShopTables) (r : CheckoutRecord) (a : CheckoutResponse) : Prop :=
  kr_orderId r = Some (co_orderId a) /\
  (exists o sheet, orders (credit (sales t)) !! co_orderId a = Some o /\ order_sheets t !! co_orderId a = Some sheet /\
     or_customerId o = kr_customerId r /\ co_number a = or_number o /\ co_discount a = or_discount o /\ co_shipping a = or_shipping o /\
     co_total a = or_grandTotal o /\ co_subtotal a = sheet_subtotal sheet /\ co_items a = sheet_lines sheet) /\
  exists q, quotes t !! sc_quoteId (co_shippingQuote a) = Some q /\ shippingQuoteContract q = co_shippingQuote a /\ qu_orderId q = Some (co_orderId a).
Record records_ok (t : ShopTables) : Prop := {
  rk_keys : forall id r, checkouts t !! id = Some r -> kr_id r = id;
  rk_single : forall id1 id2 r1 r2, checkouts t !! id1 = Some r1 -> checkouts t !! id2 = Some r2 -> kr_customerId r1 = kr_customerId r2 ->
    kr_keyHash r1 = kr_keyHash r2 -> id1 = id2;
  rk_answers : forall id r, checkouts t !! id = Some r -> exists a, kr_response r = Some a /\ answers t r a
}.

(** Records of staff orders: one for an actor and a key. *)
Record staff_ok (rs : gmap string StaffRecord) : Prop := {
  sf_keys : forall id r, rs !! id = Some r -> sr_id r = id;
  sf_single : forall id1 id2 r1 r2, rs !! id1 = Some r1 -> rs !! id2 = Some r2 -> sr_actorId r1 = sr_actorId r2 -> sr_keyHash r1 = sr_keyHash r2 -> id1 = id2
}.

Record shop_ok (t : ShopTables) : Prop := {
  sk_carts : carts_ok (carts t);
  sk_items : items_ok (carts t) (cart_items t);
  sk_coupons : forall id, is_Some (coupon_intents t !! id) -> is_Some (carts t !! id);
  sk_mutations : mutations_ok (mutations t);
  sk_methods : forall id m, methods t !! id = Some m -> sm_id m = id;
  sk_quotes : quotes_ok (orders (credit (sales t))) (quotes t);
  sk_sheets : sheets_ok (orders (credit (sales t))) (order_sheets t);
  sk_records : records_ok t;
  sk_staff : staff_ok (staff_records t)
}.

(** * Evolution *)

(** While the version of a cart stays, so do its lines and its coupon. *)
Definition same_content (id : string) (t t' : ShopTables) : Prop :=
  (forall k i, item_cartId i = id -> cart_items t !! k = Some i <-> cart_items t' !! k = Some i) /\
  coupon_intents t' !! id = coupon_intents t !! id.
Definition cart_evolves (t t' : ShopTables) : Prop :=
  forall id c owner, carts t !! id = Some c -> cart_customerId c = Some owner ->
    exists c', carts t' !! id = Some c' /\ cart_customerId c' = Some owner /\ (cart_version c <= cart_version c')%Z /\
      (cart_version c' = cart_version c -> same_content id t t').
Record shop_evolves (t t' : ShopTables) : Prop := {
  se_carts : cart_evolves t t';
  se_quotes : forall id q o, quotes t !! id = Some q -> qu_orderId q = Some o -> quotes t' !! id = Some q;
  se_sheets : order_sheets t ⊆ order_sheets t';
  se_staff : staff_records t ⊆ staff_records t'
}.

#[export] Instance cart_evolves_preorder : PreOrder cart_evolves.
Proof.
  split.
  - intros t id c x Hc Hx. exists c. split_and!; [done..|lia|]. intros _. by split.
  - intros t1 t2 t3 H1 H2 id c x Hc Hx. destruct (H1 _ _ _ Hc Hx) as (c2 & Hc2 & Hx2 & L2 & S2).
    destruct (H2 _ _ _ Hc2 Hx2) as (c3 & Hc3 & Hx3 & L3 & S3). exists c3. split_and!; [done..|lia|]. intros E.
    destruct S2 as [A B]; [lia|]. destruct S3 as [A' B']; [lia|]. split; [|congruence]. intros k i Hi. by rewrite (A k i Hi), (A' k i Hi).
Qed.
#[export] Instance shop_evolves_preorder : PreOrder shop_evolves.
Proof.
  split.
  - intros t. split; [done|by intros|done|done].
  - intros t1 t2 t3 [A B C D] [A' B' C' D']. split; [by etrans| |by etrans|by etrans]. intros id q o Hq Ho. eapply B'; [by eapply B|done].
Qed.

(** Steps that only touch the tables of the shop in front of the orders. *)
Definition shop_only (t t' : ShopTables) : Prop := sales t' = sales t /\ (shop_ok t -> shop_ok t' /\ shop_evolves t t').
#[export] Instance shop_only_preorder : PreOrder shop_only.
Proof.
  split; [by intros t|]. intros t1 t2 t3 [E1 H1] [E2 H2]. split; [congruence|]. intros H. destruct (H1 H) as [K1 V1].
  destruct (H2 K1) as [K2 V2]. split; [done|by etrans].
Qed.

(** * Writes *)

Lemma same_cart_evolves t t' : carts t' = carts t -> cart_items t' = cart_items t -> coupon_intents t' = coupon_intents t -> cart_evolves t t'.
Proof.
  intros E1 E2 E3 id c x Hc Hx. exists c. rewrite E1. split_and!; [done..|lia|]. intros _. unfold same_content. by rewrite E2, E3.
Qed.
Lemma answers_same t t' r a : sales t' = sales t -> order_sheets t' = order_sheets t -> quotes t' = quotes t -> answers t r a -> answers t' r a.
Proof. unfold answers. intros -> -> ->. done. Qed.
Lemma records_ok_same t t' : sales t' = sales t -> order_sheets t' = order_sheets t -> quotes t' = quotes t -> checkouts t' = checkouts t ->
  records_ok t -> records_ok t'.
Proof.
  intros E1 E2 E3 E4 [A B C]. split; rewrite E4; [done..|]. intros id r Hr. destruct (C _ _ Hr) as (a & H1 & H2). exists a. split; [done|].
  by eapply answers_same.
Qed.

(** A cart changes: its lines, its coupon, its version. *)
Definition cart_write (id : string) (c : Cart) (items : gmap string CartItem) (coupons : gmap string string) (t : ShopTables) : ShopTables :=
  set_carts (<[id := with_version (cart_version c + 1) c]> (carts t)) (set_coupon_intents coupons (set_cart_items items t)).
Definition others_kept (id : string) (items items' : gmap string CartItem) : Prop :=
  forall k i, item_cartId i <> id -> items !! k = Some i <-> items' !! k = Some i.

Lemma carts_ok_write id c cs : carts_ok cs -> cs !! id = Some c -> carts_ok (<[id := with_version (cart_version c + 1) c]> cs).
Proof.
  intros [A B] Hc. split.
  - intros i x [[<- <-]|[Hne Hx]]%lookup_insert_Some; [by apply (A _ _ Hc)|by apply A].
  - assert (Hold : forall i x, <[id := with_version (cart_version c + 1) c]> cs !! i = Some x -> exists y, cs !! i = Some y /\ cart_customerId y = cart_customerId x).
    { intros i x [[<- <-]|[Hne Hx]]%lookup_insert_Some; [by exists c|by exists x]. }
    intros i1 i2 c1 c2 x H1 H2 E1 E2. apply Hold in H1 as (y1 & H1 & F1), H2 as (y2 & H2 & F2). apply (B i1 i2 y1 y2 x); congruence.
Qed.
Lemma items_ok_carts cs cs' items : (forall id, is_Some (cs !! id) -> is_Some (cs' !! id)) -> items_ok cs items -> items_ok cs' items.
Proof. intros H [A B C]. split; [|done..]. intros id i Hi. destruct (A _ _ Hi) as (H1 & H2 & H3). split; [done|]. split; [done|by apply H]. Qed.

Lemma cart_write_only id c items coupons t : carts t !! id = Some c -> (items_ok (carts t) (cart_items t) -> items_ok (carts t) items) ->
  others_kept id (cart_items t) items -> (forall k, k <> id -> coupons !! k = coupon_intents t !! k) ->
  shop_only t (cart_write id c items coupons t).
Proof.
  intros Hc Hi Ho Hk. split; [done|]. intros [A B C D M E F G K].
  assert (Hgrow : forall k, is_Some (carts t !! k) -> is_Some (<[id := with_version (cart_version c + 1) c]> (carts t) !! k)).
  { intros k Hs. destruct (decide (k = id)) as [->|Hne]; [by rewrite lookup_insert_eq|by rewrite lookup_insert_ne]. }
  split; [split; cbn; try done|split; [|by intros|done|done]].
  - by apply carts_ok_write.
  - eapply items_ok_carts; [exact Hgrow|by apply Hi].
  - intros k Hs. apply Hgrow. destruct (decide (k = id)) as [->|Hne]; [by exists c|]. apply C. by rewrite <- Hk.
  - by eapply records_ok_same; [..|exact G].
  - intros k x owner Hx Hw. cbn. destruct (decide (k = id)) as [->|Hne].
    + exists (with_version (cart_version c + 1) c). rewrite lookup_insert_eq. assert (x = c) as -> by congruence. cbn. split_and!; [done..|lia|lia].
    + exists x. rewrite lookup_insert_ne by done. split_and!; [done..|lia|]. intros _. split; cbn; [|by apply Hk].
      intros k' i Hi'. apply Ho. congruence.
Qed.

(** ** Lines of carts *)

Lemma count_rows_subset {R} (P : R -> bool) (t t' : gmap string R) : t' ⊆ t -> (count_rows P t' <= count_rows P t)%Z.
Proof.
  rewrite !count_rows_tsum. revert t. induction t' as [|k r m Hk IH] using map_ind; intros t Hs.
  - rewrite tsum_empty. apply tsum_nonneg. intros k r _. by destruct (P r).
  - assert (Hr : t !! k = Some r) by (eapply lookup_weaken; [apply lookup_insert_eq|exact Hs]).
    rewrite tsum_insert_new, (tsum_delete _ t k r Hr) by done. apply Z.add_le_mono_l, IH.
    apply map_subseteq_spec. intros i x Hi. rewrite lookup_delete_ne by congruence. eapply lookup_weaken; [|exact Hs].
    rewrite lookup_insert_ne by congruence. done.
Qed.
Lemma delete_many_subset {R} P (t : gmap string R) : delete_many P t ⊆ t.
Proof. apply map_subseteq_spec. intros k r [H _]%lookup_delete_many. exact H. Qed.

Lemma items_ok_subset cs items items' : items' ⊆ items -> items_ok cs items -> items_ok cs items'.
Proof.
  intros Hs [A B C]. assert (Hl : forall k i, items' !! k = Some i -> items !! k = Some i) by (intros k i H; by eapply lookup_weaken).
  split; [intros id i Hi; by apply A, Hl| |].
  - intros id1 id2 i1 i2 H1 H2. apply B; by apply Hl.
  - intros id. etrans; [by apply count_rows_subset|apply C].
Qed.
Lemma items_ok_replace cs items i q : items_ok cs items -> items !! item_id i = Some i -> (1 <= q <= MAX_CART_QUANTITY)%Z ->
  items_ok cs (<[item_id i := mkCartItem (item_id i) (item_cartId i) (item_variantId i) q]> items).
Proof.
  intros [A B C] Hi Hq. set (i' := mkCartItem _ _ _ q).
  assert (Hl : forall k x, <[item_id i := i']> items !! k = Some x -> exists y, items !! k = Some y /\ item_cartId y = item_cartId x /\ item_variantId y = item_variantId x).
  { intros k x [[<- <-]|[Hne Hx]]%lookup_insert_Some; [by exists i|by exists x]. }
  split.
  - intros k x [[<- <-]|[Hne Hx]]%lookup_insert_Some; [|by apply A]. destruct (A _ _ Hi) as (_ & _ & H). split; [done|]. split; [exact Hq|exact H].
  - intros k1 k2 x1 x2 H1 H2 E1 E2. apply Hl in H1 as (y1 & H1 & F1 & G1), H2 as (y2 & H2 & F2 & G2). eapply (B k1 k2 y1 y2); congruence.
  - intros id. rewrite (count_rows_replace _ _ _ i) by done. change (of_cart id i') with (of_cart id i). specialize (C id). destruct (of_cart id i); lia.
Qed.
Lemma items_ok_insert cs items i : items_ok cs items -> items !! item_id i = None -> (1 <= item_quantity i <= MAX_CART_QUANTITY)%Z ->
  is_Some (cs !! item_cartId i) -> find_by (same_line (item_cartId i) (item_variantId i)) items = None ->
  (count_rows (of_cart (item_cartId i)) items < MAX_CART_LINES)%Z -> items_ok cs (<[item_id i := i]> items).
Proof.
  intros [A B C] Hn Hq Hc Hf Hlim. rewrite find_by_None in Hf.
  assert (Hnone : forall k x, items !! k = Some x -> item_cartId x = item_cartId i -> item_variantId x = item_variantId i -> False).
  { intros k x Hx E1 E2. specialize (Hf k x Hx). unfold same_line in Hf. by rewrite E1, E2, !bool_decide_true in Hf. }
  split.
  - intros k x [[<- <-]|[Hne Hx]]%lookup_insert_Some; [done|by apply A].
  - intros k1 k2 x1 x2 [[<- <-]|[N1 H1]]%lookup_insert_Some [[<- <-]|[N2 H2]]%lookup_insert_Some E1 E2; [done|..].
    + by destruct (Hnone _ _ H2).
    + by destruct (Hnone _ _ H1).
    + by eapply B.
  - intros id. rewrite count_rows_insert by done. unfold of_cart at 2. case_bool_decide as E; [subst; lia|specialize (C id); lia].
Qed.
Lemma others_kept_subset id items items' : items' ⊆ items -> (forall k i, item_cartId i <> id -> items !! k = Some i -> items' !! k = Some i) ->
  others_kept id items items'.
Proof. intros Hs H k i Hi. split; [by apply H|]. intros Hk. by eapply lookup_weaken. Qed.
Lemma others_kept_delete id P items : (forall i, P i = true -> item_cartId i = id) -> others_kept id items (delete_many P items).
Proof.
  intros HP. apply others_kept_subset; [apply delete_many_subset|]. intros k i Hi Hk. apply lookup_delete_many. split; [done|].
  destruct (P i) eqn:E; [by destruct Hi; apply HP|done].
Qed.
Lemma others_kept_put id k i items : item_cartId i = id -> (forall x, items !! k = Some x -> item_cartId x = id) -> others_kept id items (<[k := i]> items).
Proof.
  intros Hi Hk k' x Hx. destruct (decide (k' = k)) as [->|Hne]; [|by rewrite lookup_insert_ne]. rewrite lookup_insert_eq. split.
  - intros H. by destruct Hx; apply Hk.
  - by intros [= <-].
Qed.

(** ** Other rows *)

Lemma new_cart_only id c t : carts t !! id = None -> cart_id c = id -> (forall x, cart_customerId c = Some x -> cart_of x t = None) ->
  shop_only t (set_carts (<[id := c]> (carts t)) t).
Proof.
  intros Hn Eid Hx. split; [done|]. intros [A B C D M E F G K].
  assert (Hgrow : forall k, is_Some (carts t !! k) -> is_Some (<[id := c]> (carts t) !! k)).
  { intros k Hs. destruct (decide (k = id)) as [->|Hne]; [by rewrite lookup_insert_eq|by rewrite lookup_insert_ne]. }
  assert (Hfree : forall k y x, carts t !! k = Some y -> cart_customerId y = Some x -> cart_customerId c = Some x -> False).
  { intros k y x Hy E1 E2. specialize (Hx x E2). unfold cart_of in Hx. rewrite find_by_None in Hx. specialize (Hx k y Hy). simpl in Hx.
    by apply bool_decide_eq_false in Hx. }
  split; [split; cbn; try done|split; [|by intros|done|done]].
  - destruct A as [A1 A2]. split; [intros k y [[<- <-]|[Hne Hy]]%lookup_insert_Some; [done|by apply A1]|].
    intros k1 k2 y1 y2 x [[<- <-]|[N1 H1]]%lookup_insert_Some [[<- <-]|[N2 H2]]%lookup_insert_Some E1 E2; [done|..].
    + by destruct (Hfree _ _ _ H2 E2 E1).
    + by destruct (Hfree _ _ _ H1 E1 E2).
    + by eapply A2.
  - by eapply items_ok_carts.
  - intros k Hk. by apply Hgrow, C.
  - by eapply records_ok_same; [..|exact G].
  - intros k y owner Hy Hw. exists y. cbn. rewrite lookup_insert_ne by congruence. split_and!; [done..|lia|]. intros _. by split.
Qed.

Lemma mutations_only ms t : (mutations_ok (mutations t) -> mutations_ok ms) -> shop_only t (set_mutations ms t).
Proof.
  intros Hm. split; [done|]. intros [A B C D M E F G K]. split; [split; cbn; try done|split; [by apply same_cart_evolves|by intros|done|done]].
  - by apply Hm.
  - by eapply records_ok_same; [..|exact G].
Qed.
Lemma mutations_ok_subset ms ms' : ms' ⊆ ms -> mutations_ok ms -> mutations_ok ms'.
Proof.
  intros Hs [A B]. assert (Hl : forall k m, ms' !! k = Some m -> ms !! k = Some m) by (intros k m H; by eapply lookup_weaken).
  split; [intros id m Hm; by apply A, Hl|]. intros id1 id2 m1 m2 h H1 H2. by apply (B id1 id2 m1 m2 h); apply Hl.
Qed.
Lemma mutations_ok_insert ms m h : mutations_ok ms -> mu_keyHash m = Some h -> ms !! mu_id m = None ->
  find_by (scoped_mutation (mu_customerId m) (mu_scope m) h) ms = None -> mutations_ok (<[mu_id m := m]> ms).
Proof.
  intros [A B] Eh Hn Hf. rewrite find_by_None in Hf.
  assert (Hnone : forall k x h', ms !! k = Some x -> mu_customerId x = mu_customerId m -> mu_scope x = mu_scope m -> mu_keyHash x = Some h' ->
    mu_keyHash m = Some h' -> False).
  { intros k x h' Hx E1 E2 E3 E4. specialize (Hf k x Hx). unfold scoped_mutation in Hf. rewrite E1, E2, E3, !bool_decide_true in Hf; [done|congruence|done..]. }
  split; [intros k x [[<- <-]|[Hne Hx]]%lookup_insert_Some; [done|by apply A]|].
  intros k1 k2 x1 x2 h' [[<- <-]|[N1 H1]]%lookup_insert_Some [[<- <-]|[N2 H2]]%lookup_insert_Some E1 E2 F1 F2; [done|..].
  - by destruct (Hnone _ _ h' H2).
  - by destruct (Hnone _ _ h' H1).
  - by eapply B.
Qed.

(** Quotes come, and go unused. *)
Lemma answers_quotes t qs r a : (forall id q o, quotes t !! id = Some q -> qu_orderId q = Some o -> qs !! id = Some q) -> answers t r a -> answers (set_quotes qs t) r a.
Proof. intros Hq (H1 & H2 & q & Hx & Ex & Ho). split; [done|]. split; [exact H2|]. exists q. split; [by eapply Hq|done]. Qed.
Lemma quotes_only qs t : (quotes_ok (orders (credit (sales t))) (quotes t) -> quotes_ok (orders (credit (sales t))) qs) ->
  (quotes_ok (orders (credit (sales t))) (quotes t) -> forall id q o, quotes t !! id = Some q -> qu_orderId q = Some o -> qs !! id = Some q) ->
  shop_only t (set_quotes qs t).
Proof.
  intros Hok Hq. split; [done|]. intros [A B C D M E F [G1 G2 G3] K]. specialize (Hq E). split; [split; try done|split; [by apply same_cart_evolves|done|done|done]].
  - by apply Hok.
  - split; [done|done|]. intros id r Hr. destruct (G3 _ _ Hr) as (a & Ha & Hs). exists a. split; [done|by apply answers_quotes].
Qed.
Lemma quotes_ok_subset os qs qs' : qs' ⊆ qs -> quotes_ok os qs -> quotes_ok os qs'.
Proof.
  intros Hs [A B C]. assert (Hl : forall k q, qs' !! k = Some q -> qs !! k = Some q) by (intros k q H; by eapply lookup_weaken).
  split; [intros id q Hq; by apply A, Hl|intros id q Hq; by apply (B id), Hl|]. intros id1 id2 q1 q2 o H1 H2. by apply C; apply Hl.
Qed.
Lemma quotes_ok_insert os qs q : quotes_ok os qs -> qs !! qu_id q = None -> qu_consumedAt q = None -> qu_orderId q = None -> quotes_ok os (<[qu_id q := q]> qs).
Proof.
  intros [A B C] Hn E1 E2. split.
  - intros id x [[<- <-]|[Hne Hx]]%lookup_insert_Some; [done|by apply A].
  - intros id x [[<- <-]|[Hne Hx]]%lookup_insert_Some; [|by eapply B]. rewrite E1, E2. split; [done|]. by intros o.
  - intros id1 id2 x1 x2 o [[<- <-]|[N1 H1]]%lookup_insert_Some [[<- <-]|[N2 H2]]%lookup_insert_Some F1 F2; [done|congruence..|by eapply C].
Qed.

(** Runs of the steps that carts and checkout share: what each does to the tables of the
    shop, and that it leaves the stock. *)

(** * Runs on the shop *)

(** The tables of placed orders, and a run that leaves the stock alone. *)
Definition shop_view (d : Shop) : Sales := mkDomain (inv_of d) (sales (own d)).
Definition undisturbed (d d' : Shop) : Prop := same_stock (inv_of d) (inv_of d').
#[export] Instance undisturbed_preorder : PreOrder undisturbed.
Proof. split; [by intros d|]. intros d1 d2 d3. unfold undisturbed. apply transitivity. Qed.

Lemma on_sales_step {A} (m : SM A) d a d' : on_sales m d = Ok (a, d') ->
  exists x, m (shop_view d) = Ok (a, x) /\ d' = mkDomain (inv_of x) (set_sales (own x) (own d)).
Proof. intros H. apply zoom_ok in H as (x & H & ->). by exists x. Qed.
Lemma shop_audit_step input (d : Shop) u d' : record input d = Ok (u, d') -> own d' = own d /\ undisturbed d d'.
Proof. exact (quiet_record input d u d'). Qed.
Lemma rethrow_ok {S A} f (m : M S A) s r : rethrow f m s = Ok r <-> m s = Ok r.
Proof. unfold rethrow. by destruct (m s). Qed.

Lemma fresh_step cuid (d : Shop) id d' : on_inv (fresh_id cuid) d = Ok (id, d') -> own d' = own d /\ undisturbed d d'.
Proof. intros H. by apply quiet_fresh in H. Qed.
Lemma fresh_each_step {A} cuid (l : list A) (d : Shop) ids d' : map_each l (fun _ => on_inv (fresh_id cuid)) d = Ok (ids, d') ->
  own d' = own d /\ undisturbed d d' /\ length ids = length l.
Proof.
  revert d ids. induction l as [|x l IH]; intros d ids H; simpl in H; run_inv; [done|].
  match goal with H : on_inv _ _ = _ |- _ => apply fresh_step in H as [E1 Q1] end.
  match goal with H : map_each _ _ _ = _ |- _ => apply IH in H as (E2 & Q2 & L) end.
  split; [congruence|]. split; [by etrans|]. simpl. by f_equal.
Qed.

Lemma bump_cart_step id d u d' : bump_cart id d = Ok (u, d') ->
  inv_of d' = inv_of d /\ exists c, carts (own d) !! id = Some c /\ int4 (cart_version c + 1) = true /\
    own d' = set_carts (<[id := with_version (cart_version c + 1) c]> (carts (own d))) (own d).
Proof.
  intros H. unfold bump_cart in H. run_domain. match goal with H : negb _ = false |- _ => apply negb_false_iff in H end.
  split; [done|]. by eexists.
Qed.
Lemma delete_items_step P d n d' : delete_items P d = Ok (n, d') ->
  inv_of d' = inv_of d /\ n = count_rows P (cart_items (own d)) /\ own d' = set_cart_items (delete_many P (cart_items (own d))) (own d).
Proof. intros H. unfold delete_items in H. by run_domain. Qed.
Lemma delete_intent_step id d n d' : delete_intent id d = Ok (n, d') ->
  inv_of d' = inv_of d /\ n = match coupon_intents (own d) !! id with Some _ => 1%Z | None => 0%Z end /\
  own d' = set_coupon_intents (delete id (coupon_intents (own d))) (own d).
Proof. intros H. unfold delete_intent in H. by run_domain. Qed.

Lemma load_cart_step collate customerId (d : Shop) loaded d' : load_cart collate customerId d = Ok (loaded, d') ->
  d' = d /\ match loaded with
            | None => cart_of customerId (own d) = None
            | Some (cart, rows) => cart_of customerId (own d) = Some cart /\ cart_rows collate (cart_id cart) (own d) = Some rows
            end.
Proof. intros H. unfold load_cart in H. run_inv. destruct (cart_of customerId _) as [cart|] eqn:Hc; by run_inv. Qed.
