(* ===== verification/CartProofs.v ===== *)
(** What the mutations of a cart do: the quantities it holds, its version, the answer and
    its record; coupons; and that the invariant of the shop is kept. *)

From S2P Require Import Prelude Table Paging Json StableJson CheckoutAddress AuditTrail Retry InventoryModel Inventory.
From S2P Require Import InventoryLedger InventoryProofs Durable DurableSafety StateMachine.
From S2P Require Import PromotionEngine PromotionClaims Credit CreditCommands CreditSales CreditBooks CreditRuns CreditSaleProofs.
From S2P Require Import Sales Shop Carts Checkout SalesBooks ShopBooks.

(** * Unique rows *)

Lemma cart_of_iff x t c : carts_ok (carts t) -> cart_of x t = Some c <-> carts t !! cart_id c = Some c /\ cart_customerId c = Some x.
Proof.
  intros [A B]. split.
  - intros [[k Hk] E%bool_decide_eq_true]%find_by_Some. by rewrite (A _ _ Hk).
  - intros [Hc E]. eapply find_by_unique; [|exact Hc|by apply bool_decide_eq_true].
    intros k1 k2 c1 c2 H1 H2 E1%bool_decide_eq_true E2%bool_decide_eq_true. by eapply B.
Qed.
Lemma find_line_iff cs cartId v t i : items_ok cs (cart_items t) ->
  find_line cartId v t = Some i <-> cart_items t !! item_id i = Some i /\ item_cartId i = cartId /\ item_variantId i = v.
Proof.
  intros [A B _]. unfold find_line, same_line. split.
  - intros [[k Hk] [E1%bool_decide_eq_true E2%bool_decide_eq_true]%andb_prop]%find_by_Some. by destruct (A _ _ Hk) as [<- _].
  - intros (Hi & E1 & E2). eapply find_by_unique; [|exact Hi|by rewrite E1, E2, !bool_decide_true].
    intros k1 k2 i1 i2 H1 H2 [F1%bool_decide_eq_true G1%bool_decide_eq_true]%andb_prop [F2%bool_decide_eq_true G2%bool_decide_eq_true]%andb_prop.
    eapply B; [exact H1|exact H2|congruence..].
Qed.

(** The quantity of a variant in the cart of a customer. *)
Definition held (customerId v : string) (t : ShopTables) : option Z :=
  cart ← cart_of customerId t; item_quantity <$> find_line (cart_id cart) v t.

(** * Records of mutations *)

(** Only records that expired may go. *)
Definition pruned (now : Z) (ms ms' : gmap string CartMutation) : Prop :=
  ms' ⊆ ms /\ forall k m, ms !! k = Some m -> (now < mu_expiresAt m)%Z -> ms' !! k = Some m.
#[export] Instance pruned_preorder now : PreOrder (pruned now).
Proof. split; [by intros ms|]. intros m1 m2 m3 [A B] [A' B']. split; [by etrans|]. intros k m H L. by apply B'; [apply B|]. Qed.

Lemma pruned_delete now P ms : (forall k m, ms !! k = Some m -> P m = true -> (mu_expiresAt m <= now)%Z) -> pruned now ms (delete_many P ms).
Proof.
  intros HP. split; [apply delete_many_subset|]. intros k m Hk L. apply lookup_delete_many. split; [done|].
  destruct (P m) eqn:E; [|done]. specialize (HP _ _ Hk E). lia.
Qed.

Lemma set_mutations_same t : set_mutations (mutations t) t = t.
Proof. by destruct t. Qed.
Lemma set_mutations_twice m1 m2 t : set_mutations m1 (set_mutations m2 t) = set_mutations m1 t.
Proof. done. Qed.

(** [requireSellableVariant] holds. *)
Definition sellable_variant (v : string) (t : ShopTables) : Prop :=
  exists x p, catalog t !! v = Some x /\ products t !! va_productId x = Some p /\ sellable_row x p = true.

Section carts.
Context (cuid : nat -> string) (hash fold : string -> string) (collate : string -> string -> Z).
Implicit Types (d : Shop) (t : ShopTables).

(** A step that only prunes. *)
Definition prunes (now : Z) d d' : Prop :=
  inv_of d' = inv_of d /\ exists ms, own d' = set_mutations ms (own d) /\ pruned now (mutations (own d)) ms.
Lemma prunes_refl now d : prunes now d d.
Proof. split; [done|]. exists (mutations (own d)). by rewrite set_mutations_same. Qed.
Lemma prunes_trans now d1 d2 d3 : prunes now d1 d2 -> prunes now d2 d3 -> prunes now d1 d3.
Proof.
  intros (I1 & ms1 & E1 & P1) (I2 & ms2 & E2 & P2). split; [congruence|]. exists ms2. rewrite E2, E1, set_mutations_twice. split; [done|].
  rewrite E1 in P2. by etrans.
Qed.
Lemma prunes_only now d d' : prunes now d d' -> shop_only (own d) (own d').
Proof. intros (_ & ms & -> & [Hs _]). apply mutations_only. by apply mutations_ok_subset. Qed.

Lemma cleanup_step customerId now d u d' : mutations_ok (mutations (own d)) -> cleanupCustomerCartMutations collate customerId now d = Ok (u, d') ->
  prunes now d d'.
Proof.
  intros [A _] H. unfold cleanupCustomerCartMutations in H. run_domain. split; [done|]. eexists. split; [reflexivity|].
  apply pruned_delete. intros k m Hk [x [E Hx]]%bool_decide_eq_true%list_elem_of_fmap.
  apply elem_of_take in Hx as (n & Hx & _). apply list_elem_of_lookup_2, elem_of_find_sorted in Hx as [[k' Hk'] Hp].
  apply andb_prop in Hp as [_ Hp%Z.leb_le]. rewrite (A _ _ Hk), (A _ _ Hk') in E. subst k'. assert (m = x) as -> by congruence. exact Hp.
Qed.

Lemma live_step P now d m d' : mutations_ok (mutations (own d)) -> live_mutation P now d = Ok (m, d') ->
  prunes now d d' /\ match m with Some m => mutations (own d') !! mu_id m = Some m /\ P m = true /\ (now < mu_expiresAt m)%Z | None => True end.
Proof.
  intros [A _] H. unfold live_mutation in H. run_inv. destruct (find_by P (mutations (own d))) as [x|] eqn:Hf; [|run_inv; split; [apply prunes_refl|done]].
  apply find_by_Some in Hf as [[k Hk] HP]. pose proof (A _ _ Hk) as Ek. destruct (now <? mu_expiresAt x)%Z eqn:E.
  - apply Z.ltb_lt in E. run_inv. split; [apply prunes_refl|]. split_and!; [done|done|exact E].
  - apply Z.ltb_ge in E. run_domain. split; [|done]. split; [done|]. eexists. split; [reflexivity|]. split; [apply delete_subseteq|].
    intros k' m Hm L. rewrite lookup_delete_ne; [done|]. intros <-. assert (m = x) as -> by congruence. lia.
Qed.

(** The record that answers a repeated key: under its scope, or an older one without. *)
Definition recorded (customerId scope key : string) (m : CartMutation) : Prop :=
  scoped_mutation customerId scope (hash key) m = true \/ legacy_mutation customerId key m = true.
Lemma findReplay_step customerId scope key now d m d' : mutations_ok (mutations (own d)) ->
  findReplay customerId scope (hash key) key now d = Ok (m, d') ->
  prunes now d d' /\ match m with Some m => mutations (own d) !! mu_id m = Some m /\ recorded customerId scope key m /\ (now < mu_expiresAt m)%Z | None => True end.
Proof.
  intros Hm H. unfold findReplay in H. run_inv. match goal with H : live_mutation _ _ d = _ |- _ => apply live_step in H as [P1 L1]; [|done] end.
  assert (Hback : forall d1 k r, prunes now d d1 -> mutations (own d1) !! k = Some r -> mutations (own d) !! k = Some r).
  { intros d1 k r (_ & ms & -> & [Hs _]) Hr. by eapply lookup_weaken. }
  destruct x as [r|]; run_inv.
  - destruct L1 as (L1 & L2 & L3). split; [done|]. split_and!; [by eapply Hback|by left|done].
  - assert (Hm' : mutations_ok (mutations (own s))) by (destruct P1 as (_ & ms & -> & [Hs _]); by eapply mutations_ok_subset).
    apply live_step in H as [P2 L2]; [|done]. pose proof (prunes_trans _ _ _ _ P1 P2) as P3. split; [done|]. destruct m as [m|]; [|done].
    destruct L2 as (L2 & L4 & L5). split_and!; [by eapply Hback|by right|done].
Qed.

(** * Lines *)

Lemma persisted_step cartId now d r d' : persistedCartResult collate cartId now d = Ok (r, d') ->
  d' = d /\ exists cart rows, carts (own d) !! cartId = Some cart /\ cart_rows collate cartId (own d) = Some rows /\
    r = (Some cartId, mkCartResponse (buildCartView (inv_of d) cart rows now) None).
Proof. intros H. unfold persistedCartResult in H. run_inv. split; [done|]. by eexists _, _. Qed.

(** The cart of a customer is there, or new and empty. *)
Definition cart_opened (customerId : string) (c : Cart) t t' : Prop :=
  (cart_of customerId t = Some c /\ t' = t) \/
  (cart_of customerId t = None /\ carts t !! cart_id c = None /\ c = mkCart (cart_id c) (Some customerId) None None 1 /\
   t' = set_carts (<[cart_id c := c]> (carts t)) t).
Lemma upsert_cart_step customerId d c d' : upsert_cart cuid customerId d = Ok (c, d') -> undisturbed d d' /\ cart_opened customerId c (own d) (own d').
Proof.
  intros H. unfold upsert_cart in H. run_inv. destruct (cart_of customerId (own d)) as [c0|] eqn:Hc; [run_inv; by split; [|left]|]. run_inv.
  match goal with H : on_inv _ _ = _ |- _ => apply fresh_step in H as [E1 Q1] end. run_domain.
  match goal with H : bool_decide (is_Some _) = false |- _ => apply bool_decide_eq_false, eq_None_not_Some in H as Hn end.
  split; [exact Q1|]. right. rewrite E1 in *. by split_and!.
Qed.
Lemma opened_only customerId c t t' : cart_opened customerId c t t' -> shop_only t t'.
Proof. intros [[_ ->]|(Hn & Hf & E & ->)]; [done|]. apply new_cart_only; [done|done|]. intros x Hx. rewrite E in Hx. by injection Hx as <-. Qed.
Lemma opened_cart customerId c t t' : shop_ok t -> cart_opened customerId c t t' -> carts t' !! cart_id c = Some c /\ cart_customerId c = Some customerId.
Proof.
  intros [A _] [[H ->]|(_ & _ & E & ->)]; [by apply cart_of_iff|]. cbn. rewrite lookup_insert_eq. split; [done|]. by rewrite E.
Qed.

(** The line of a variant is written. *)
Definition line_put (cartId v : string) (q : Z) (i : CartItem) t : Prop :=
  i = mkCartItem (item_id i) cartId v q /\
  match find_line cartId v t with Some i0 => item_id i = item_id i0 | None => cart_items t !! item_id i = None end.
Lemma upsert_line_step cartId v q d u d' : upsert_line cuid cartId v q d = Ok (u, d') ->
  undisturbed d d' /\ exists i, line_put cartId v q i (own d) /\ own d' = set_cart_items (<[item_id i := i]> (cart_items (own d))) (own d).
Proof.
  intros H. unfold upsert_line in H. run_inv. destruct (find_line cartId v (own d)) as [i0|] eqn:Hi.
  - run_domain. split; [done|]. exists (mkCartItem (item_id i0) cartId v q). unfold line_put. rewrite Hi. done.
  - run_inv. match goal with H : on_inv _ _ = _ |- _ => apply fresh_step in H as [E1 Q1] end. run_domain.
    match goal with H : bool_decide (is_Some _) = false |- _ => apply bool_decide_eq_false, eq_None_not_Some in H as Hn end.
    rewrite E1 in *. split; [exact Q1|]. eexists (mkCartItem _ cartId v q). unfold line_put. rewrite Hi. by split_and!.
Qed.

Lemma line_put_only cartId v q i c t : carts t !! cartId = Some c -> (1 <= q <= MAX_CART_QUANTITY)%Z ->
  (find_line cartId v t = None -> (count_rows (of_cart cartId) (cart_items t) < MAX_CART_LINES)%Z) -> line_put cartId v q i t ->
  shop_only t (cart_write cartId c (<[item_id i := i]> (cart_items t)) (coupon_intents t) t).
Proof.
  intros Hc Hq Hlim [Ei Hi]. split; [done|]. intros Hok. destruct (find_line cartId v t) as [i0|] eqn:Hf.
  - apply (find_line_iff (carts t)) in Hf as (H0 & F1 & F2); [|apply Hok]. apply cart_write_only; [done| | |done|done].
    + intros Hit. rewrite Ei, Hi. subst cartId v. by apply (items_ok_replace _ _ i0).
    + apply (others_kept_put _ _ i); [by rewrite Ei|]. rewrite Hi. intros x Hx. congruence.
  - apply cart_write_only; [done| | |done|done].
    + intros Hit. apply items_ok_insert; try rewrite Ei; cbn; try done. by apply Hlim.
    + apply (others_kept_put _ _ i); [by rewrite Ei|]. congruence.
Qed.

(** What writing a line does: the cart opened, its line set, its version raised when the
    quantity changed. *)
Definition line_written (customerId v : string) (resolve : option Z -> Z) (c : Cart) t t' : Prop :=
  exists t0, cart_opened customerId c t t0 /\ sellable_variant v t /\
    let old := item_quantity <$> find_line (cart_id c) v t0 in let q := resolve old in
    (1 <= q <= MAX_CART_QUANTITY)%Z /\ (old = None -> (count_rows (of_cart (cart_id c)) (cart_items t0) < MAX_CART_LINES)%Z) /\
    ((old = Some q /\ t' = t0) \/
     (old <> Some q /\ exists i, line_put (cart_id c) v q i t0 /\ t' = cart_write (cart_id c) c (<[item_id i := i]> (cart_items t0)) (coupon_intents t0) t0)).

Lemma requireSellable_step v d u d' : requireSellableVariant v d = Ok (u, d') -> d' = d /\ sellable_variant v (own d).
Proof.
  intros H. unfold requireSellableVariant in H. run_inv. split; [done|].
  match goal with H : negb _ = false |- _ => apply negb_false_iff in H as Hs end.
  destruct (catalog _ !! v) as [x|] eqn:Hx; [|done]. destruct (products _ !! _) as [p|] eqn:Hp; [|done]. by exists x, p.
Qed.

(** The answer is the view of the cart that is left. *)
Definition views (now : Z) (cartId : string) (r : option string * CartResponse) d' : Prop :=
  exists cart rows, carts (own d') !! cartId = Some cart /\ cart_rows collate cartId (own d') = Some rows /\
    r = (Some cartId, mkCartResponse (buildCartView (inv_of d') cart rows now) None).

Lemma quantity_checked q u : validateCartQuantity (Int q) = Ok u -> (1 <= q <= MAX_CART_QUANTITY)%Z.
Proof.
  unfold validateCartQuantity. cbn [isInteger int_val negb orb]. intros H.
  destruct (q <? 1)%Z eqn:E1; [done|]. destruct (MAX_CART_QUANTITY <? q)%Z eqn:E2; [done|]. apply Z.ltb_ge in E1, E2. lia.
Qed.

Lemma writeLine_step now customerId v resolve d r d' : shop_ok (own d) -> writeLine cuid collate now customerId v resolve d = Ok (r, d') ->
  undisturbed d d' /\ exists c, line_written customerId v resolve c (own d) (own d') /\ views now (cart_id c) r d'.
Proof.
  intros Hok H. unfold writeLine in H. run_inv.
  match goal with H : requireSellableVariant _ _ = _ |- _ => apply requireSellable_step in H as [-> Hs] end.
  match goal with H : upsert_cart _ _ _ = _ |- _ => apply upsert_cart_step in H as [Q1 Ho] end.
  pose proof (opened_cart _ _ _ _ Hok Ho) as [Hc _]. destruct (proj2 (opened_only _ _ _ _ Ho) Hok) as [Hok1 _].
  match goal with H : validateCartQuantity _ = _ |- _ => apply quantity_checked in H as Hq end.
  match goal with H : (_ && _)%bool = false |- _ => rename H into Hl end.
  assert (Hlim : item_quantity <$> find_line (cart_id x0) v (own s0) = None -> (count_rows (of_cart (cart_id x0)) (cart_items (own s0)) < MAX_CART_LINES)%Z).
  { intros E%fmap_None. rewrite E, bool_decide_true in Hl by done. by apply Z.leb_gt in Hl. }
  case_bool_decide as E.
  - apply persisted_step in H as (-> & cart & rows & H1 & H2 & H3). split; [exact Q1|]. exists x0. split; [|by exists cart, rows].
    exists (own s0). split; [done|]. split; [done|]. split; [exact Hq|]. split; [exact Hlim|by left].
  - run_inv. match goal with H : upsert_line _ _ _ _ _ = _ |- _ => apply upsert_line_step in H as (Q2 & i & Hi & E2) end.
    match goal with H : bump_cart _ _ = _ |- _ => apply bump_cart_step in H as (I3 & c & Hc' & _ & E3) end.
    apply persisted_step in H as (-> & cart & rows & H1 & H2 & H3). rewrite E2 in Hc'. cbn in Hc'. assert (c = x0) as -> by congruence.
    split; [etrans; [exact Q1|]; etrans; [exact Q2|]; unfold undisturbed; by rewrite I3|].
    exists x0. split; [|by exists cart, rows]. exists (own s0). split; [done|]. split; [done|]. split; [exact Hq|]. split; [exact Hlim|right]. split; [done|]. exists i. split; [done|].
    by rewrite E3, E2.
Qed.

Lemma line_written_only customerId v resolve c t t' : shop_ok t -> line_written customerId v resolve c t t' -> shop_only t t'.
Proof.
  intros Hok (t0 & Ho & _ & Hq & Hlim & H). pose proof (opened_only _ _ _ _ Ho) as H1. destruct (opened_cart _ _ _ _ Hok Ho) as [Hc _].
  etrans; [exact H1|]. destruct H as [[_ ->]|(_ & i & Hi & ->)]; [done|]. eapply line_put_only; [exact Hc|exact Hq| |exact Hi].
  intros E. apply Hlim. by rewrite E.
Qed.

(** A line is taken out. *)
Definition line_removed (v : string) (cart : Cart) t t' : Prop :=
  match find_line (cart_id cart) v t with
  | None => t' = t
  | Some i => t' = cart_write (cart_id cart) cart (delete_many (same_line (cart_id cart) v) (cart_items t)) (coupon_intents t) t
  end.
Lemma delete_none {R} P (m : gmap string R) : find_by P m = None -> delete_many P m = m.
Proof.
  intros H. rewrite find_by_None in H. apply map_eq. intros k. apply option_eq. intros r. rewrite lookup_delete_many. split; [by intros [? _]|].
  intros Hr. split; [done|by eapply H].
Qed.
Lemma set_items_same t : set_cart_items (cart_items t) t = t.
Proof. by destruct t. Qed.

Lemma removeLine_step now customerId v d r d' : shop_ok (own d) -> removeLine collate now customerId v d = Ok (r, d') ->
  inv_of d' = inv_of d /\
  match cart_of customerId (own d) with
  | None => d' = d /\ r = (None, mkCartResponse (buildEmptyCartView now) None)
  | Some c => line_removed v c (own d) (own d') /\ views now (cart_id c) r d'
  end.
Proof.
  intros Hok H. unfold removeLine in H. run_inv. destruct (cart_of customerId (own d)) as [c|] eqn:Hc; [|by run_inv]. run_inv.
  apply cart_of_iff in Hc as [Hc _]; [|apply Hok].
  match goal with H : delete_items _ _ = _ |- _ => apply delete_items_step in H as (I1 & -> & E1) end. unfold line_removed.
  destruct (find_line (cart_id c) v (own d)) as [i|] eqn:Hi; case_match eqn:E.
  - match goal with H : bump_cart _ _ = _ |- _ => apply bump_cart_step in H as (I3 & c' & Hc' & _ & E3) end.
    apply persisted_step in H as (-> & cart & rows & H1 & H2 & H3). rewrite E1 in Hc'. cbn in Hc'. assert (c' = c) as -> by congruence.
    split; [congruence|]. split; [by rewrite E3, E1|by exists cart, rows].
  - exfalso. apply find_by_Some in Hi as [[k Hk] HP]. pose proof (count_rows_pos _ _ _ _ Hk HP) as Hn. apply Z.ltb_ge in E. lia.
  - exfalso. apply Z.ltb_lt in E. unfold find_line in Hi. rewrite find_by_None in Hi. rewrite count_rows_tsum, tsum_0 in E; [lia|].
    intros k x Hx. by rewrite (Hi k x Hx).
  - run_inv. apply persisted_step in H as (-> & cart & rows & H1 & H2 & H3). split; [done|].
    assert (own s = own d) as Es by (rewrite E1; unfold find_line in Hi; rewrite (delete_none _ _ Hi); apply set_items_same).
    rewrite Es in *. split; [done|]. exists cart, rows. by rewrite Es.
Qed.
Lemma line_removed_only v c t t' : carts t !! cart_id c = Some c -> line_removed v c t t' -> shop_only t t'.
Proof.
  unfold line_removed. intros Hc H. destruct (find_line _ v t); [|by subst]. subst t'. apply cart_write_only; [done| | |done].
  - apply items_ok_subset, delete_many_subset.
  - apply others_kept_delete. by intros i [E%bool_decide_eq_true _]%andb_prop.
Qed.

(** * Quantities *)

Definition owned (k x : string) t : Prop := exists c, carts t !! k = Some c /\ cart_customerId c = Some x.
Lemma held_iff x w q t : shop_ok t -> held x w t = Some q <->
  exists k, owned k x t /\ exists j i, cart_items t !! j = Some i /\ item_cartId i = k /\ item_variantId i = w /\ item_quantity i = q.
Proof.
  intros Hok. unfold held. split.
  - intros (c & Hc & Hq)%bind_Some. apply cart_of_iff in Hc as [Hc Hx]; [|apply Hok]. apply fmap_Some in Hq as (i & Hi & ->).
    apply (find_line_iff (carts t)) in Hi as (Hi & E1 & E2); [|apply Hok]. exists (cart_id c). split; [by exists c|]. by exists (item_id i), i.
  - intros (k & (c & Hc & Hx) & j & i & Hi & E1 & E2 & <-). pose proof (ca_keys _ (sk_carts _ Hok) _ _ Hc) as Ek.
    pose proof (proj1 (ik_rows _ _ (sk_items _ Hok) _ _ Hi)) as Ej. rewrite <- Ek in *. rewrite <- Ej in *.
    apply bind_Some. exists c. split; [apply cart_of_iff; [apply Hok|done]|]. apply fmap_Some. exists i. split; [|done].
    apply (find_line_iff (carts t)); [apply Hok|done].
Qed.

(** Writes that leave the other lines leave the other quantities. *)
Lemma held_kept id v x w t t' : shop_ok t -> shop_ok t' -> (forall k, owned k x t' <-> owned k x t) ->
  (forall j i, item_cartId i <> id \/ item_variantId i <> v -> cart_items t' !! j = Some i <-> cart_items t !! j = Some i) ->
  (w = v -> ~ owned id x t) -> held x w t' = held x w t.
Proof.
  intros H1 H2 Ho Hi Hn. apply option_eq. intros q. rewrite !held_iff by done. split; intros (k & Hk & j & i & Hj & E1 & E2 & E3); exists k.
  - rewrite Ho in Hk. split; [done|]. exists j, i. split; [|done]. apply Hi; [|done]. destruct (decide (w = v)) as [Ew|]; [|right; congruence]. left. intros E. apply Hn; [done|]. by rewrite <- E, E1.
  - split; [by apply Ho|]. exists j, i. split; [|done]. apply Hi; [|done]. destruct (decide (w = v)) as [Ew|]; [|right; congruence]. left. intros E. apply Hn; [done|]. by rewrite <- E, E1.
Qed.
Lemma owned_write k x id c items coupons t : carts t !! id = Some c -> owned k x (cart_write id c items coupons t) <-> owned k x t.
Proof.
  intros Hc. unfold owned. cbn. destruct (decide (k = id)) as [->|Hne]; [|by rewrite lookup_insert_ne]. rewrite lookup_insert_eq. split.
  - intros (c' & [= <-] & Hx). by exists c.
  - intros (c' & Hc' & Hx). assert (c' = c) as -> by congruence. by eexists.
Qed.
Lemma owned_only id c x t : shop_ok t -> carts t !! id = Some c -> cart_customerId c = Some x -> forall y, owned id y t -> y = x.
Proof. intros _ Hc Hx y (c' & Hc' & Hy). congruence. Qed.

Lemma held_opened x w customerId c t t' : shop_ok t -> cart_opened customerId c t t' -> held x w t' = held x w t.
Proof.
  intros Hok Ho. pose proof (proj2 (opened_only _ _ _ _ Ho) Hok) as [Hok' _]. destruct Ho as [[_ ->]|(Hn & Hf & E & ->)]; [done|].
  apply option_eq. intros q. rewrite !held_iff by done. split; intros (k & (y & Hy & Hx) & j & i & Hj & E1 & H); exists k.
  - split; [|by exists j, i]. exists y. split; [|done]. cbn in Hy. apply lookup_insert_Some in Hy as [[<- <-]|[_ Hy]]; [|done].
    destruct (ik_rows _ _ (sk_items _ Hok) _ _ Hj) as (_ & _ & [z Hz]). congruence.
  - split; [|by exists j, i]. exists y. split; [|done]. cbn. rewrite lookup_insert_ne; [done|congruence].
Qed.

Definition changed_held (c : CartChange) (held : string -> option Z) (w : string) : option Z :=
  match c with
  | AddLine v q => if bool_decide (w = v) then Some match held v with None => q | Some n => (n + q)%Z end else held w
  | SetLine v q => if bool_decide (w = v) then Some q else held w
  | RemoveLine v => if bool_decide (w = v) then None else held w
  end.

Lemma line_written_held customerId v resolve c t t' : shop_ok t -> line_written customerId v resolve c t t' ->
  held customerId v t' = Some (resolve (held customerId v t)) /\ (1 <= resolve (held customerId v t) <= MAX_CART_QUANTITY)%Z /\
  forall x w, x <> customerId \/ w <> v -> held x w t' = held x w t.
Proof.
  intros Hok H. pose proof (proj2 (line_written_only _ _ _ _ _ _ Hok H) Hok) as [Hok' _]. destruct H as (t0 & Ho & _ & Hq & _ & H).
  pose proof (proj2 (opened_only _ _ _ _ Ho) Hok) as [Hok0 _]. destruct (opened_cart _ _ _ _ Hok Ho) as [Hc Hx].
  assert (E0 : item_quantity <$> find_line (cart_id c) v t0 = held customerId v t).
  { rewrite <- (held_opened _ _ _ _ _ _ Hok Ho). unfold held. assert (cart_of customerId t0 = Some c) as -> by (apply cart_of_iff; [apply Hok0|done]). done. }
  rewrite E0 in *. assert (Hrest : forall x w, held x w t0 = held x w t) by (intros x w; by eapply held_opened).
  destruct H as [[E ->]|(_ & i & [Ei Hi] & ->)].
  - split; [by rewrite Hrest|]. split; [done|]. intros x w _. apply Hrest.
  - split; [|split; [done|]].
    + apply held_iff; [done|]. exists (cart_id c). split; [apply owned_write; [done|by exists c]|]. exists (item_id i), i. cbn.
      rewrite lookup_insert_eq. split; [done|]. by rewrite Ei.
    + intros x w Hn. rewrite <- Hrest. eapply (held_kept (cart_id c) v); [done|done| | |].
      * intros k. by apply owned_write.
      * intros j y Hy. cbn. destruct (decide (j = item_id i)) as [->|Hne]; [|by rewrite lookup_insert_ne]. rewrite lookup_insert_eq. split.
        -- intros [= <-]. rewrite Ei in Hy. cbn in Hy. destruct Hy; done.
        -- intros Hl. destruct (find_line _ v t0) as [i0|] eqn:Hf; [|congruence]. apply (find_line_iff (carts t0)) in Hf as (F1 & F2 & F3); [|apply Hok0].
           assert (y = i0) as -> by congruence. destruct Hy; congruence.
      * intros -> Hw. pose proof (owned_only _ _ _ _ Hok0 Hc Hx _ Hw). destruct Hn; congruence.
Qed.
Lemma line_removed_held customerId v c t t' : shop_ok t -> cart_of customerId t = Some c -> line_removed v c t t' ->
  held customerId v t' = None /\ forall x w, x <> customerId \/ w <> v -> held x w t' = held x w t.
Proof.
  intros Hok Hcart H. pose proof Hcart as [Hc Hx]%cart_of_iff; [|apply Hok]. pose proof (proj2 (line_removed_only _ _ _ _ Hc H) Hok) as [Hok' _].
  unfold line_removed in H. destruct (find_line (cart_id c) v t) as [i|] eqn:Hf; subst t'.
  - split.
    + apply eq_None_not_Some. intros [q Hq]. apply held_iff in Hq as (k & Hk & j & y & Hy & E1 & E2 & _); [|done]. apply owned_write in Hk; [|done].
      destruct Hk as (c' & Hc' & Hx'). assert (k = cart_id c) as -> by (by eapply (ca_owner _ (sk_carts _ Hok))). cbn in Hy.
      apply lookup_delete_many in Hy as [_ Hy]. unfold same_line in Hy. by rewrite E1, E2, !bool_decide_true in Hy.
    + intros x w Hn. eapply (held_kept (cart_id c) v); [done|done| | |].
      * intros k. by apply owned_write.
      * intros j y Hy. cbn. rewrite lookup_delete_many. split; [by intros [? _]|]. intros Hl. split; [done|]. unfold same_line.
        destruct Hy; [by rewrite bool_decide_false|by rewrite andb_comm, bool_decide_false].
      * intros -> Hw. pose proof (owned_only _ _ _ _ Hok Hc Hx _ Hw). destruct Hn; congruence.
  - split; [|done]. unfold held. rewrite Hcart. simpl. by rewrite Hf.
Qed.

(** * Changes *)

Lemma line_written_mutations customerId v resolve c t t' : line_written customerId v resolve c t t' -> mutations t' = mutations t.
Proof. intros (t0 & Ho & _ & _ & _ & [[_ ->]|(_ & i & _ & ->)]); by destruct Ho as [[_ ->]|(_ & _ & _ & ->)]. Qed.

(** The answer: the view of the customer's cart, or of none. *)
Definition answered (now : Z) (customerId : string) (r : option string * CartResponse) d' : Prop :=
  match cart_of customerId (own d') with
  | None => r = (None, mkCartResponse (buildEmptyCartView now) None)
  | Some cart => exists rows, cart_rows collate (cart_id cart) (own d') = Some rows /\
      r = (Some (cart_id cart), mkCartResponse (buildCartView (inv_of d') cart rows now) None)
  end.
Lemma views_answered now x c r d' : shop_ok (own d') -> owned (cart_id c) x (own d') -> views now (cart_id c) r d' -> answered now x r d'.
Proof.
  intros Hok (c' & Hc' & Hx) (cart & rows & H1 & H2 & ->). assert (c' = cart) as -> by congruence.
  assert (E : cart_of x (own d') = Some cart).
  { apply cart_of_iff; [apply Hok|]. by rewrite (ca_keys _ (sk_carts _ Hok) _ _ H1). }
  unfold answered. rewrite E. pose proof (ca_keys _ (sk_carts _ Hok) _ _ H1) as Ek. rewrite Ek. by exists rows.
Qed.

Definition cart_changed (now : Z) (customerId : string) (c : CartChange) (r : option string * CartResponse) d d' : Prop :=
  (forall w, held customerId w (own d') = changed_held c (fun v => held customerId v (own d)) w) /\
  (forall x w, x <> customerId -> held x w (own d') = held x w (own d)) /\ answered now customerId r d'.

Lemma written_changed now customerId c v resolve d r d' : shop_ok (own d) ->
  changed_held c (fun v => held customerId v (own d)) = (fun w => if bool_decide (w = v) then Some (resolve (held customerId v (own d))) else held customerId w (own d)) ->
  writeLine cuid collate now customerId v resolve d = Ok (r, d') ->
  undisturbed d d' /\ shop_only (own d) (own d') /\ mutations (own d') = mutations (own d) /\ cart_changed now customerId c r d d'.
Proof.
  intros Hok Hc H. apply writeLine_step in H as (Q & cart & Hw & Hv); [|done]. pose proof (line_written_only _ _ _ _ _ _ Hok Hw) as Ho.
  split; [done|]. split; [done|]. split; [by eapply line_written_mutations|]. pose proof (line_written_held _ _ _ _ _ _ Hok Hw) as (H1 & H2 & H3).
  split; [|split].
  - intros w. rewrite Hc. case_bool_decide as E; [by subst|]. apply H3. by right.
  - intros x w Hx. apply H3. by left.
  - eapply views_answered; [by apply Ho| |exact Hv]. destruct Hw as (t0 & Hop & _ & _ & _ & Hw). destruct (opened_cart _ _ _ _ Hok Hop) as [Hc1 Hc2].
    destruct Hw as [[_ ->]|(_ & i & _ & ->)]; [by exists cart|]. apply owned_write; [done|by exists cart].
Qed.

Lemma apply_change_step now customerId c d r d' : shop_ok (own d) -> apply_change cuid collate now customerId c d = Ok (r, d') ->
  undisturbed d d' /\ shop_only (own d) (own d') /\ mutations (own d') = mutations (own d) /\ cart_changed now customerId c r d d'.
Proof.
  intros Hok H. destruct c as [v q|v q|v]; cbn [apply_change] in H.
  1,2: by eapply written_changed; [done| |exact H].
  apply removeLine_step in H as [I H]; [|done]. destruct (cart_of customerId (own d)) as [cart|] eqn:Hc.
  - destruct H as [Hr Hv]. pose proof Hc as [Hk Hx]%cart_of_iff; [|apply Hok]. pose proof (line_removed_only _ _ _ _ Hk Hr) as Ho.
    destruct (line_removed_held _ _ _ _ _ Hok Hc Hr) as [H1 H2]. split; [unfold undisturbed; by rewrite I|]. split; [done|].
    assert (Hw : mutations (own d') = mutations (own d) /\ owned (cart_id cart) customerId (own d')).
    { unfold line_removed in Hr. destruct (find_line _ v _); rewrite Hr; [|split; [done|by exists cart]].
      split; [done|]. apply owned_write; [done|by exists cart]. }
    split; [apply Hw|]. split; [|split].
    + intros w. cbn [changed_held]. case_bool_decide as E; [by subst|]. apply H2. by right.
    + intros x w Hne. apply H2. by left.
    + eapply views_answered; [by apply Ho|apply Hw|exact Hv].
  - destruct H as [-> ->]. split; [done|]. split; [done|]. split; [done|]. split; [|split; [done|]].
    + intros w. cbn [changed_held]. case_bool_decide as E; [subst|done]. unfold held. by rewrite Hc.
    + unfold answered. by rewrite Hc.
Qed.

(** * Mutations *)

Definition change_print (c : CartChange) : string := fingerprint_of hash [("scope", JStr (change_scope c)); ("payload", change_payload c)].
Definition print_matches (c : CartChange) (m : CartMutation) : bool :=
  bool_decide (mu_fingerprint m = change_print c) ||
  (bool_decide (is_Some (mu_idempotencyKey m)) && bool_decide (mu_fingerprint m = hash (print_json (change_payload c)))).

(** Drawing an identifier changes nothing that a view shows. *)
Definition same_shelves (db db' : InvDb) : Prop := balances db' = balances db /\ warehouses db' = warehouses db /\ locations db' = locations db.
Lemma fresh_shelves d id d' : on_inv (fresh_id cuid) d = Ok (id, d') -> same_shelves (inv_of d) (inv_of d').
Proof. intros H. by apply on_inv_ok in H as (t & [= _ <-] & ->). Qed.
Lemma view_same db db' cart rows now : same_shelves db db' -> buildCartView db' cart rows now = buildCartView db cart rows now.
Proof. intros (E1 & E2 & E3). unfold buildCartView, cart_line, available_of, active_place. by rewrite E1, E2, E3. Qed.

Lemma create_mutation_step cartId customerId scope keyHash fp response expiresAt d u d' :
  create_mutation cuid cartId customerId scope keyHash fp response expiresAt d = Ok (u, d') ->
  undisturbed d d' /\ same_shelves (inv_of d) (inv_of d') /\ exists id, mutations (own d) !! id = None /\ find_by (scoped_mutation customerId scope keyHash) (mutations (own d)) = None /\
    own d' = set_mutations (<[id := mkCartMutation id cartId customerId scope None (Some keyHash) fp response expiresAt]> (mutations (own d))) (own d).
Proof.
  intros H. unfold create_mutation in H. run_inv.
  match goal with H : on_inv _ _ = _ |- _ => pose proof (fresh_shelves _ _ _ H) as Hsh; apply fresh_step in H as [E1 Q1] end. run_domain.
  match goal with H : (_ || _)%bool = false |- _ => apply orb_false_iff in H as [G1%bool_decide_eq_false%eq_None_not_Some G2%bool_decide_eq_false%eq_None_not_Some] end.
  rewrite E1 in *. split; [exact Q1|]. split; [exact Hsh|]. eexists. by split_and!.
Qed.
Lemma create_mutation_only id cartId customerId scope keyHash fp response expiresAt t : mutations t !! id = None ->
  find_by (scoped_mutation customerId scope keyHash) (mutations t) = None ->
  shop_only t (set_mutations (<[id := mkCartMutation id cartId customerId scope None (Some keyHash) fp response expiresAt]> (mutations t)) t).
Proof. intros Hn Hf. apply mutations_only. intros Hm. by eapply (mutations_ok_insert _ (mkCartMutation id _ _ _ _ _ _ _ _) keyHash). Qed.

Definition mutation_recorded (expiresAt : Z) (customerId key : string) (c : CartChange) (r : option string * CartResponse) t : Prop :=
  exists m, mutations t !! mu_id m = Some m /\ scoped_mutation customerId (change_scope c) (hash key) m = true /\ print_matches c m = true /\
    mu_cartId m = fst r /\ mu_response m = snd r /\ mu_expiresAt m = expiresAt.

Lemma mutation_tx_step now customerId key c d r d' : shop_ok (own d) -> mutation_tx cuid hash collate now customerId key c d = Ok (r, d') ->
  undisturbed d d' /\ shop_only (own d) (own d') /\
  ((exists m, mutations (own d) !! mu_id m = Some m /\ recorded customerId (change_scope c) key m /\ (now < mu_expiresAt m)%Z /\
     print_matches c m = true /\ r = mu_response m /\ prunes now d d') \/
   (exists cartId, cart_changed now customerId c (cartId, r) d d' /\
     mutation_recorded (now + CART_REPLAY_TTL_MS) customerId key c (cartId, r) (own d'))).
Proof.
  intros Hok H. unfold mutation_tx in H. run_inv.
  match goal with H : cleanupCustomerCartMutations _ _ _ _ = _ |- _ => apply cleanup_step in H as P1; [|apply Hok] end.
  pose proof (prunes_only _ _ _ P1) as Ho1. destruct (proj2 Ho1 Hok) as [Hok1 _].
  match goal with H : findReplay _ _ _ _ _ _ = _ |- _ => apply findReplay_step in H as [P2 Hf]; [|apply Hok1] end.
  pose proof (prunes_trans _ _ _ _ P1 P2) as P. pose proof (prunes_only _ _ _ P) as Ho2. destruct (proj2 Ho2 Hok) as [Hok2 _].
  assert (Hback : forall k m, mutations (own s) !! k = Some m -> mutations (own d) !! k = Some m).
  { intros k m Hm. destruct P1 as (_ & ms & E & [Hs _]). rewrite E in Hm. by eapply lookup_weaken. }
  destruct x0 as [m|]; run_inv.
  - destruct Hf as (F1 & F2 & F3). match goal with H : negb _ = false |- _ => apply negb_false_iff in H as Hfp end.
    split; [unfold undisturbed; by rewrite (proj1 P)|]. split; [done|]. left. exists m. split; [by apply Hback|]. by split_and!.
  - match goal with H : apply_change _ _ _ _ _ _ = _ |- _ => apply apply_change_step in H as (Q3 & Ho3 & Em & Hch); [|done] end.
    match goal with H : create_mutation _ _ _ _ _ _ _ _ _ = _ |- _ => apply create_mutation_step in H as (Q4 & Hsh & id & Hn & Hfree & E4) end.
    assert (Hsame : forall x w, held x w (own s0) = held x w (own d)).
    { destruct P as (_ & ms & -> & _). done. }
    split; [unfold undisturbed in *; rewrite (proj1 P) in Q3; by etrans|].
    split; [etrans; [exact Ho2|]; etrans; [exact Ho3|]; rewrite E4; by apply create_mutation_only|]. right.
    destruct x0 as [cartId response]. exists cartId. cbn [fst snd] in *. split.
    + destruct Hch as (H1 & H2 & H3). unfold cart_changed. rewrite E4. split; [|split].
      * intros w. change (held customerId w (own s1) = changed_held c (fun v => held customerId v (own d)) w). rewrite H1.
        by destruct c; cbn [changed_held]; rewrite ?Hsame.
      * intros y w Hy. rewrite <- Hsame. by apply H2.
      * unfold answered in *. rewrite E4. change (cart_of customerId (set_mutations _ (own s1))) with (cart_of customerId (own s1)).
        destruct (cart_of customerId (own s1)) as [cart|]; [|done]. destruct H3 as (rows & Hr & Ha). exists rows. split; [exact Hr|]. by rewrite (view_same _ _ _ _ _ Hsh).
    + rewrite E4. eexists (mkCartMutation id _ _ _ _ _ _ _ _). cbn. rewrite lookup_insert_eq. split; [done|]. unfold scoped_mutation, print_matches, change_print. cbn. rewrite !bool_decide_true by done. done.
Qed.

(** A repeated request gets the recorded answer. *)
Lemma kept_record now d d' m : prunes now d d' -> mutations (own d) !! mu_id m = Some m -> (now < mu_expiresAt m)%Z -> mutations (own d') !! mu_id m = Some m.
Proof. intros (_ & ms & -> & [_ H]) Hm L. by apply H. Qed.
Lemma cleanup_run customerId now d : exists d', cleanupCustomerCartMutations collate customerId now d = Ok (tt, d').
Proof. unfold cleanupCustomerCartMutations. eexists. by erewrite bind_run by reflexivity. Qed.
Lemma mutation_replay now customerId key c d m : shop_ok (own d) -> mutations (own d) !! mu_id m = Some m ->
  scoped_mutation customerId (change_scope c) (hash key) m = true -> print_matches c m = true -> (now < mu_expiresAt m)%Z ->
  exists d', mutation_tx cuid hash collate now customerId key c d = Ok (mu_response m, d') /\ prunes now d d'.
Proof.
  intros Hok Hm Hs Hp L. destruct (cleanup_run customerId now d) as [d1 H1]. pose proof (cleanup_step _ _ _ _ _ (sk_mutations _ Hok) H1) as P1.
  exists d1. split; [|done]. unfold mutation_tx. erewrite bind_run by exact H1. pose proof (kept_record _ _ _ _ P1 Hm L) as Hm1.
  destruct (proj2 (prunes_only _ _ _ P1) Hok) as [Hok1 _].
  assert (Hf : find_by (scoped_mutation customerId (change_scope c) (hash key)) (mutations (own d1)) = Some m).
  { eapply find_by_unique; [|exact Hm1|exact Hs]. intros k1 k2 m1 m2 F1 F2 G1 G2. unfold scoped_mutation in G1, G2.
    apply andb_prop in G1 as [[A1%bool_decide_eq_true A2%bool_decide_eq_true]%andb_prop A3%bool_decide_eq_true].
    apply andb_prop in G2 as [[B1%bool_decide_eq_true B2%bool_decide_eq_true]%andb_prop B3%bool_decide_eq_true].
    by eapply (mk_single _ (sk_mutations _ Hok1)); [exact F1|exact F2|congruence|congruence|exact A3|exact B3]. }
  assert (Hr : findReplay customerId (change_scope c) (hash key) key now d1 = Ok (Some m, d1)).
  { assert (E : live_mutation (scoped_mutation customerId (change_scope c) (hash key)) now d1 = Ok (Some m, d1)).
    { unfold live_mutation. erewrite bind_run by reflexivity. rewrite Hf. by apply Z.ltb_lt in L as ->. }
    unfold findReplay. by erewrite bind_run by exact E. }
  erewrite bind_run by exact Hr. cbv zeta iota beta. fold (change_print c).
  unfold print_matches in Hp. by rewrite Hp.
Qed.

(** * Coupons *)

Lemma apply_coupon_step now customerId code userId requestId d u d' : shop_ok (own d) ->
  apply_coupon_tx fold collate now customerId code userId requestId d = Ok (u, d') ->
  undisturbed d d' /\ exists cart rows, cart_of customerId (own d) = Some cart /\ cart_rows collate (cart_id cart) (own d) = Some rows /\ rows <> [] /\
    po_couponError (shop_price fold (own d) (price_input customerId rows 0 false (Some code) now)) = None /\
    own d' = cart_write (cart_id cart) cart (cart_items (own d)) (<[cart_id cart := code]> (coupon_intents (own d))) (own d).
Proof.
  intros Hok H. unfold apply_coupon_tx in H. run_inv. match goal with H : load_cart _ _ _ = _ |- _ => apply load_cart_step in H as [-> Hl] end.
  destruct x as [[cart rows]|]; [|by run_inv]. destruct Hl as [Hc Hrows]. run_inv.
  match goal with H : bool_decide (length _ = _) = false |- _ => apply bool_decide_eq_false in H as Hne end.
  destruct (po_couponError _) eqn:Hp; [by run_inv|]. run_inv.
  match goal with H : on_own _ _ = _ |- _ => apply on_own_ok in H as (t1 & H & ->) end. run_inv.
  match goal with H : bump_cart _ _ = _ |- _ => apply bump_cart_step in H as (I3 & c & Hc' & _ & E3) end.
  match goal with H : on_inv (record _) _ = _ |- _ => apply shop_audit_step in H as [E4 Q4] end.
  pose proof Hc as [Hk _]%cart_of_iff; [|apply Hok]. cbn [own inv_of] in *. cbn in Hc'. assert (c = cart) as -> by congruence.
  split; [unfold undisturbed in *; by rewrite I3 in Q4|]. exists cart, rows. split; [done|]. split; [done|]. split; [by intros ->|]. split; [done|].
  by rewrite E4, E3.
Qed.
Lemma coupon_only code cart t : carts t !! cart_id cart = Some cart ->
  shop_only t (cart_write (cart_id cart) cart (cart_items t) (<[cart_id cart := code]> (coupon_intents t)) t).
Proof. intros Hc. apply cart_write_only; [done|done|done|]. intros k Hk. by rewrite lookup_insert_ne. Qed.

Lemma remove_coupon_step customerId userId requestId d u d' : shop_ok (own d) -> remove_coupon_tx customerId userId requestId d = Ok (u, d') ->
  undisturbed d d' /\ match cart_of customerId (own d) with
    | Some cart => match coupon_intents (own d) !! cart_id cart with
                   | Some _ => own d' = cart_write (cart_id cart) cart (cart_items (own d)) (delete (cart_id cart) (coupon_intents (own d))) (own d)
                   | None => own d' = own d
                   end
    | None => own d' = own d
    end.
Proof.
  intros Hok H. unfold remove_coupon_tx in H. run_inv. destruct (cart_of customerId (own d)) as [cart|] eqn:Hc; [|by run_inv]. run_inv.
  match goal with H : delete_intent _ _ = _ |- _ => apply delete_intent_step in H as (I1 & -> & E1) end.
  pose proof Hc as [Hk _]%cart_of_iff; [|apply Hok]. destruct (coupon_intents (own d) !! cart_id cart) as [x|] eqn:Hx; cbn in H.
  - run_inv. match goal with H : bump_cart _ _ = _ |- _ => apply bump_cart_step in H as (I3 & c & Hc' & _ & E3) end.
    apply shop_audit_step in H as [E4 Q4]. rewrite E1 in Hc'. cbn in Hc'. assert (c = cart) as -> by congruence.
    split; [unfold undisturbed in *; by rewrite I3, I1 in Q4|]. by rewrite E4, E3, E1.
  - run_inv. split; [unfold undisturbed; by rewrite I1|]. rewrite E1, delete_id by done. by destruct (own d).
Qed.
Lemma uncoupon_only cart t : carts t !! cart_id cart = Some cart ->
  shop_only t (cart_write (cart_id cart) cart (cart_items t) (delete (cart_id cart) (coupon_intents t)) t).
Proof. intros Hc. apply cart_write_only; [done|done|done|]. intros k Hk. by rewrite lookup_delete_ne. Qed.
End carts.
