(* ===== verification/PlacingProofs.v ===== *)
(** Reserving the lines of a new order: which balances are taken, and that the loop holds
    exactly the ordered quantities on stock that is free. *)

From S2P Require Import Prelude Table Paging Json StableJson CheckoutAddress AuditTrail Retry InventoryModel Inventory.
From S2P Require Import InventoryLedger InventoryProofs Durable DurableSafety StateMachine.
From S2P Require Import PromotionEngine PromotionClaims Credit CreditCommands CreditSales Sales Shop Carts Checkout.

(** * What a line takes *)

(** Balances are emptied one after another until the quantity is reached. *)
Fixpoint allocate (remaining : Z) (bs : list InventoryBalance) : list (StockKey * Z) :=
  match bs with
  | [] => []
  | b :: bs =>
      if bool_decide (remaining = 0%Z) then []
      else let quantity := Z.min remaining (b_available b) in (b_key b, quantity) :: allocate (remaining - quantity) bs
  end.

Lemma allocate_sum remaining bs : (0 <= remaining)%Z -> Forall (fun b => 0 < b_available b)%Z bs ->
  sumZ snd (allocate remaining bs) = Z.min remaining (sumZ b_available bs) /\ Forall (fun kq => 0 < kq.2)%Z (allocate remaining bs).
Proof.
  revert remaining. induction bs as [|b bs IH]; intros remaining Hr Hb; cbn [allocate].
  { split; [|by constructor]. unfold sumZ. simpl. lia. }
  apply Forall_cons in Hb as [Hb Hbs]. rewrite sumZ_cons.
  assert (Hs : (0 <= sumZ b_available bs)%Z) by (apply sumZ_nonneg; intros x Hx; rewrite Forall_forall in Hbs; specialize (Hbs x Hx); lia).
  case_bool_decide as E; [split; [unfold sumZ at 1; simpl; lia|by constructor]|].
  destruct (IH (remaining - Z.min remaining (b_available b))%Z) as [H1 H2]; [lia|done|].
  split; [rewrite sumZ_cons, H1; simpl; lia|constructor; [simpl; lia|done]].
Qed.

(** * Holds *)

Definition hold_event (r : StockReservation) : event := EHold (r_id r) (r_key r) (r_quantity r).
Definition add_reservations (rs : list StockReservation) (m : gmap string StockReservation) : gmap string StockReservation :=
  foldl (fun m r => <[r_id r := r]> m) m rs.
(** A reservation of an order that is still held. *)
Definition held_for (p : Placement) (r : StockReservation) : Prop :=
  r_orderId r = Some (pc_orderId p) /\ r_status r = ACTIVE /\ r_expiresAt r = pc_expiresAt p /\ (0 < r_quantity r)%Z.

(** The reservations [rs] appeared, each on stock that was free, and nothing else moved. *)
Definition placed (p : Placement) (rs : list StockReservation) (db db' : InvDb) : Prop :=
  refines (hold_event <$> rs) db db' /\ reservations db' = add_reservations rs (reservations db) /\ Forall (held_for p) rs.

Lemma placed_nil p db : inv db -> placed p [] db db.
Proof. intros Hinv. split; [by apply same_stock_refines|]. split; [done|by constructor]. Qed.
Lemma placed_app p rs1 rs2 db1 db2 db3 : placed p rs1 db1 db2 -> placed p rs2 db2 db3 -> placed p (rs1 ++ rs2) db1 db3.
Proof.
  intros (R1 & E1 & F1) (R2 & E2 & F2). split; [rewrite fmap_app; by eapply refines_trans|].
  split; [by rewrite E2, E1; unfold add_reservations; rewrite foldl_app|by apply Forall_app].
Qed.
Lemma placed_frame p rs db1 db2 db3 db4 : inv db1 -> same_stock db1 db2 -> placed p rs db2 db3 -> same_stock db3 db4 -> placed p rs db1 db4.
Proof.
  intros Hinv Q1 (R & E & F) Q2. split; [|split; [|done]].
  - eapply refines_frame_r; [|exact Q2]. by eapply refines_frame_l.
  - destruct Q1 as (_ & _ & R1 & _), Q2 as (_ & _ & R2 & _). by rewrite R2, E, R1.
Qed.

(** The balances that were read are still there, under their key. *)
Definition still_there (db : InvDb) (b : InventoryBalance) : Prop := exists b', balances db !! b_id b = Some b' /\ b_key b' = b_key b.
Lemma still_there_evolves db db' b : evolves db db' -> still_there db b -> still_there db' b.
Proof. intros (_ & H & _) (b1 & H1 & E1). destruct (H _ _ H1) as (b2 & H2 & E2). exists b2. split; [done|congruence]. Qed.

Section placing.
Context (cuid : nat -> string) (collate : string -> string -> Z) (p : Placement).

Lemma take_balance_ok e b q db u db' : take_balance e b q db = Ok (u, db') ->
  exists b0, balances db !! b_id b = Some b0 /\ b_version b0 = b_version b /\ (q <= b_available b0)%Z /\
    db' = put_balance (mkBalance (b_id b0) (b_key b0) (b_onHand b0) (b_reserved b0 + q) (b_available b0 - q) (b_version b0 + 1)) db.
Proof.
  intros H. unfold take_balance in H. run_inv. destruct (balances db !! b_id b) as [b0|] eqn:Hb; [|by run_inv].
  run_inv. apply write_balance_ok in H as (_ & [= _ ->]). exists b0.
  match goal with H : negb _ = false |- _ => apply negb_false_iff, andb_prop in H as [[H1%bool_decide_eq_true H2%Z.leb_le]%andb_prop _] end.
  by split_and!.
Qed.

Lemma reserve_from_ok variant b q db r db' : inv db -> still_there db b -> variantId (b_key b) = variant -> (0 < q)%Z ->
  reserve_from cuid p variant b q db = Ok (r, db') -> placed p [r] db db' /\ r_key r = b_key b /\ r_quantity r = q.
Proof.
  intros Hinv (b1 & Hb1 & Ek) <- Hq H. unfold reserve_from in H. run_inv.
  match goal with H : take_balance _ _ _ _ = _ |- _ => apply take_balance_ok in H as (b0 & Hb & _ & Hav & ->) end.
  match goal with H : create_reservation _ _ _ _ _ _ _ = _ |- _ => apply create_reservation_ok in H as (id & Hid & [= -> ->]) end.
  match goal with H : record _ _ = _ |- _ => apply record_audit_ok in H as (rows & [= _ ->]) end.
  assert (b1 = b0) as -> by congruence. pose proof Hinv as [(Hwb & _ & Hu) _]. pose proof (Hwb _ _ Hb) as Eid.
  assert (Hkey : mkKey (warehouseId (b_key b)) (locationId (b_key b)) (variantId (b_key b)) = b_key b) by (by destruct (b_key b)).
  assert (Hf : find_balance (b_key b) db = Some b0) by (apply find_balance_Some; [apply Hinv|]; split; [by rewrite Eid|done]).
  destruct (row_cols _ _ _ Hinv Hf) as (_ & Hlev & Hcol & _).
  split; [|by rewrite Hkey]. split; [|split; [done|by repeat constructor]].
  cbn [fmap list_fmap hold_event r_id r_key r_quantity]. unfold hold_event. cbn [r_id r_key r_quantity]. rewrite Hkey.
  eapply (hold_refines db _ (mkBalance (b_id b0) (b_key b0) (b_onHand b0) (b_reserved b0 + q) (b_available b0 - q) (b_version b0 + 1)) Hinv);
    [|reflexivity|exact Hid|reflexivity|done|done|done|done|done|done|done|by eexists| |].
  - eapply find_slot; [done|exact Hf|done|done].
  - unfold shifted. cbn [b_key]. rewrite Ek, Hlev. unfold cols. simpl. rewrite !pair_eq. lia.
  - simpl. lia.
Qed.

Lemma reserve_each_ok variant bs remaining db rs db' : inv db -> Forall (still_there db) bs ->
  Forall (fun b => variantId (b_key b) = variant /\ 0 < b_available b)%Z bs -> (0 <= remaining)%Z ->
  reserve_each cuid p variant bs remaining db = Ok (rs, db') ->
  placed p rs db db' /\ (fun r => (r_key r, r_quantity r)) <$> rs = allocate remaining bs.
Proof.
  revert remaining db rs. induction bs as [|b bs IH]; intros remaining db rs Hinv Hst Hb Hr H; simpl in H; [run_inv; split; [by apply placed_nil|done]|].
  apply Forall_cons in Hst as [Hst Hsts], Hb as [[Hv Hav] Hbs]. simpl. case_bool_decide as E; [run_inv; split; [by apply placed_nil|done]|].
  run_inv. match goal with H : reserve_from _ _ _ _ _ _ = _ |- _ => apply reserve_from_ok in H as (P1 & E1 & E2); [|done|done|done|lia] end.
  match goal with H : reserve_each _ _ _ _ _ _ = _ |- _ => apply IH in H as (P2 & E3) end.
  - split; [by eapply (placed_app p [_])|]. cbn [allocate]. rewrite fmap_cons, E1, E2, E3 by done. done.
  - apply P1.
  - eapply Forall_impl; [exact Hsts|]. intros y. apply still_there_evolves, P1.
  - done.
  - lia.
Qed.

(** ** Lines *)

(** A line is filled from the balances with free stock, in their order. *)
Definition line_filled (db : InvDb) (l : OrderLineSnapshot) (rs : list StockReservation) : Prop :=
  (fun r => (r_key r, r_quantity r)) <$> rs = allocate (os_quantity l) (free_balances collate (os_variantId l) db) /\
  sumZ r_quantity rs = os_quantity l /\ Forall (fun r => variantId (r_key r) = os_variantId l) rs.

Lemma free_balances_rows v db : inv db -> Forall (still_there db) (free_balances collate v db) /\
  Forall (fun b => variantId (b_key b) = v /\ 0 < b_available b)%Z (free_balances collate v db).
Proof.
  intros Hinv. split; apply Forall_forall; intros b Hb; apply elem_of_find_sorted in Hb as [[id Hid] Hp].
  - exists b. pose proof Hinv as [(Hwb & _) _]. by rewrite (Hwb _ _ Hid).
  - apply andb_prop in Hp as [[H1%bool_decide_eq_true H2%Z.ltb_lt]%andb_prop _]. done.
Qed.

Lemma reserve_line_ok l db rs db' : inv db -> (0 <= os_quantity l)%Z -> reserve_line cuid collate p l db = Ok (rs, db') ->
  placed p rs db db' /\ line_filled db l rs.
Proof.
  intros Hinv Hq H. unfold reserve_line in H. run_inv.
  match goal with H : (_ <? _)%Z = false |- _ => apply Z.ltb_ge in H as Hsum end.
  destruct (free_balances_rows (os_variantId l) db Hinv) as [Hst Hb]. apply reserve_each_ok in H as [P E]; [|done..].
  split; [done|]. split; [done|].
  assert (Hpos : Forall (fun b => 0 < b_available b)%Z (free_balances collate (os_variantId l) db)) by (eapply Forall_impl; [exact Hb|by intros ? [_ ?]]).
  destruct (allocate_sum (os_quantity l) _ Hq Hpos) as [Hs _]. split.
  - transitivity (sumZ snd ((fun r => (r_key r, r_quantity r)) <$> rs)); [by rewrite sumZ_fmap|]. rewrite E, Hs. lia.
  - apply Forall_forall. intros r Hr. assert (Hin : (r_key r, r_quantity r) ∈ allocate (os_quantity l) (free_balances collate (os_variantId l) db)).
    { rewrite <- E. apply list_elem_of_fmap. by exists r. }
    clear -Hb Hin. revert Hin. generalize (os_quantity l). induction Hb as [|b bs [Hv _] _ IH]; intros q Hin; simpl in Hin; [by apply elem_of_nil in Hin|].
    case_bool_decide; [by apply elem_of_nil in Hin|]. apply elem_of_cons in Hin as [[= -> _]|Hin]; [done|by eapply IH].
Qed.

(** Every line is filled at the moment it is reached. *)
Inductive lines_filled : InvDb -> list OrderLineSnapshot -> list StockReservation -> InvDb -> Prop :=
  | filled_nil db : lines_filled db [] [] db
  | filled_cons db db1 db' l ls rs rss : placed p rs db db1 -> line_filled db l rs -> lines_filled db1 ls rss db' ->
      lines_filled db (l :: ls) (rs ++ rss) db'.

Lemma lines_filled_placed db ls rs db' : inv db -> lines_filled db ls rs db' -> placed p rs db db'.
Proof. intros Hinv H. induction H as [|db db1 db' l ls rs rss P _ _ IH]; [by apply placed_nil|]. eapply placed_app; [exact P|]. apply IH, P. Qed.

Lemma reserve_lines_ok ls db rs db' : inv db -> Forall (fun l => 0 <= os_quantity l)%Z ls -> reserve_lines cuid collate p ls db = Ok (rs, db') ->
  lines_filled db ls rs db'.
Proof.
  intros Hinv Hq H. unfold reserve_lines in H. run_inv. match goal with H : map_each _ _ _ = _ |- _ => rename H into Hm; rename x into rss end.
  revert db rss Hinv Hm. induction Hq as [|l ls Hl Hls IH]; intros db rss Hinv Hm; simpl in Hm; run_inv; [constructor|].
  match goal with H : reserve_line _ _ _ _ _ = _ |- _ => apply reserve_line_ok in H as [P F]; [|done..] end.
  simpl. econstructor; [exact P|exact F|]. apply IH; [apply P|done].
Qed.

(** What is held of a variant for the order is what its lines ask for. *)
Definition ordered_of (v : string) (ls : list OrderLineSnapshot) : Z := sumZ (fun l => if bool_decide (os_variantId l = v) then os_quantity l else 0%Z) ls.
Lemma lines_filled_sum db ls rs db' v : lines_filled db ls rs db' ->
  sumZ (fun r => if bool_decide (variantId (r_key r) = v) then r_quantity r else 0%Z) rs = ordered_of v ls.
Proof.
  induction 1 as [|db db1 db' l ls rs rss _ (_ & Hs & Hv) _ IH]; [done|]. unfold ordered_of. rewrite sumZ_app, sumZ_cons, IH. f_equal.
  rewrite <- Hs. case_bool_decide as E.
  - apply sumZ_ext. intros r Hr. rewrite Forall_forall in Hv. by rewrite bool_decide_true by (rewrite Hv; done).
  - rewrite (sumZ_ext _ (fun _ => 0%Z)); [rewrite sumZ_const; lia|]. intros r Hr. rewrite Forall_forall in Hv. by rewrite bool_decide_false by (rewrite Hv; done).
Qed.
End placing.
