(* ===== verification/CheckoutProofs.v ===== *)
(** What a checkout does: the runs of its steps, the order it leaves, and that the invariant
    of sales is kept; what a preview quotes, and that a checkout accepts each of its quotes
    until it expires. *)

From S2P Require Import Prelude Table Paging Json StableJson CheckoutAddress AuditTrail Retry InventoryModel Inventory.
From S2P Require Import InventoryLedger InventoryProofs Durable DurableSafety StateMachine.
From S2P Require Import PromotionEngine PromotionClaims PromotionCapacity Credit CreditCommands CreditSales CreditBooks CreditRuns CreditSaleProofs.
From S2P Require Import Sales Shop Carts Checkout SalesBooks SalesSafety ShopBooks PlacingProofs.

(** * Before the order *)

Section checkout.
Context (cuid uuid : nat -> string) (hash fold : string -> string) (collate : string -> string -> Z).
Implicit Types (d : Shop) (t : ShopTables).

Lemma requireValidQuote_step qid now customerId cart address d q d' : requireValidQuote hash qid now customerId cart address d = Ok (q, d') ->
  d' = d /\ quotes (own d) !! qid = Some q /\ exists m, methods (own d) !! qu_shippingMethodId q = Some m /\
    valid_quote hash now customerId cart address q m = true.
Proof.
  intros H. unfold requireValidQuote in H. run_inv. destruct (quotes _ !! qid) as [q0|] eqn:Hq; [|by run_inv]. run_inv.
  match goal with H : negb _ = false |- _ => apply negb_false_iff in H end. split; [done|]. split; [done|]. by eexists.
Qed.

(** The cart was priced: its lines at today's prices, a valid quote, and the discount that
    the quote promised. *)
Definition checkout_priced (now : Z) (c : CheckoutCommand) (cart : Cart) (rows : list CartRow) (lines : list OrderLineSnapshot)
    (q : ShippingQuote) (outcome : PricingOutcome) t : Prop :=
  cart_of (cq_customerId c) t = Some cart /\ cart_rows collate (cart_id cart) t = Some rows /\ rows <> [] /\
  Forall (fun r => sellable_row (row_variant r) (row_product r) = true) rows /\ lines = snapshot_line <$> rows /\
  quotes t !! cq_shippingQuoteId c = Some q /\
  (exists m, methods t !! qu_shippingMethodId q = Some m /\ valid_quote hash now (cq_customerId c) cart (cq_address c) q m = true) /\
  sumZ os_lineTotal lines = qu_subtotal q /\ qu_pricePolicyRevision q = PRICE_POLICY_REVISION /\
  outcome = method_price fold t now (cq_customerId c) cart rows (qu_amount q) /\ er_totalDiscount (po_result outcome) = qu_promotionDiscount q.

Lemma price_checkout_step now c d r d' : price_checkout hash fold collate now c d = Ok (r, d') ->
  d' = d /\ let '(cart, lines, q, outcome) := r in exists rows, checkout_priced now c cart rows lines q outcome (own d).
Proof.
  intros H. unfold price_checkout in H. run_inv.
  match goal with H : load_cart _ _ _ = _ |- _ => apply load_cart_step in H as [-> Hl] end.
  destruct x as [[cart rows]|]; [|by run_inv]. destruct Hl as [Hc Hrows]. run_inv.
  match goal with H : requireValidQuote _ _ _ _ _ _ _ = _ |- _ => apply requireValidQuote_step in H as (-> & Hq & Hm) end.
  split; [done|]. exists rows.
  match goal with H : bool_decide (length _ = _) = false |- _ => apply bool_decide_eq_false in H as Hne end.
  match goal with H : existsb _ _ = false |- _ => rename H into Hs end.
  match goal with H : (_ || _)%bool = false |- _ => apply orb_false_iff in H as [E1%negb_false_iff%bool_decide_eq_true E2%negb_false_iff%bool_decide_eq_true] end.
  match goal with H : negb (bool_decide _) = false |- _ => apply negb_false_iff, bool_decide_eq_true in H as E3 end.
  split_and!; try done; [by intros ->|].
  apply Forall_forall. intros r Hr. destruct (sellable_row _ _) eqn:E; [done|].
  assert (existsb (fun r => negb (sellable_row (row_variant r) (row_product r))) rows = true); [|congruence].
  apply existsb_exists. exists r. rewrite <- list_elem_of_In. split; [done|]. by rewrite E.
Qed.

(** * The order *)

Lemma create_order_step n d id d' : create_order cuid n d = Ok (id, d') ->
  undisturbed d d' /\ exists itemIds, length itemIds = length (sheet_lines (no_sheet n)) /\ NoDup itemIds /\
    find_order id (sales (own d)) = None /\ order_state id (sales (own d)) = None /\ order_check n = true /\ order_fits n = true /\
    own d' = insert_order id (new_order id itemIds n) (no_sheet n) (own d).
Proof.
  intros H. unfold create_order in H. run_inv.
  match goal with H : on_inv _ _ = _ |- _ => apply fresh_step in H as [E1 Q1] end.
  match goal with H : map_each _ _ _ = _ |- _ => apply fresh_each_step in H as (E2 & Q2 & L) end. run_domain.
  repeat match goal with H : negb _ = false |- _ => apply negb_false_iff in H end.
  match goal with H : (_ || _ || _)%bool = false |- _ => apply orb_false_iff in H as [[G1 G2]%orb_false_iff _] end.
  unfold row_taken in G1. apply orb_false_iff in G1 as [G1%bool_decide_eq_false%eq_None_not_Some G3%bool_decide_eq_false%eq_None_not_Some].
  apply negb_false_iff, bool_decide_eq_true in G2. rewrite E2, E1 in *.
  split; [by etrans|]. eexists. by split_and!.
Qed.

Definition used_quote (now : Z) (orderId : string) (q : ShippingQuote) : ShippingQuote :=
  mkQuote (qu_id q) (qu_customerId q) (qu_cartId q) (qu_cartVersion q) (qu_shippingMethodId q) (qu_methodCode q) (qu_methodTitle q)
    (qu_addressHash q) (qu_subtotal q) (qu_amount q) (qu_promotionDiscount q) (qu_pricePolicyRevision q) (qu_policyRevision q) (qu_expiresAt q)
    (Some now) (Some orderId).
Lemma consume_quote_step qid id now d u d' : consume_quote qid id now d = Ok (u, d') ->
  inv_of d' = inv_of d /\ exists q, quotes (own d) !! qid = Some q /\ qu_orderId q = None /\
    own d' = set_quotes (<[qid := used_quote now id q]> (quotes (own d))) (own d).
Proof.
  intros H. unfold consume_quote in H. run_inv. destruct (quotes _ !! qid) as [q|] eqn:Hq; [|by run_inv]. run_domain.
  match goal with H : negb _ = false |- _ => apply negb_false_iff, andb_prop in H as [_ Hn%bool_decide_eq_true] end.
  split; [done|]. by exists q.
Qed.

Lemma reserve_uses_step id customerId result d u d' : promo_ok (promo (sales (own d))) ->
  rethrow conflictFromRejection (on_sales (on_promo (PromotionClaims.reserve cuid id customerId result))) d = Ok (u, d') ->
  undisturbed d d' /\ exists p', own d' = set_sales (set_promo p' (sales (own d))) (own d) /\ promo_ok p' /\
    (customer_limits (promo (sales (own d))) -> customer_limits p') /\
    exists rs, redemptions p' = add_redemptions rs (redemptions (promo (sales (own d)))) /\
      Forall2 (fun a r => exists p, r = reserved_row (re_id r) id customerId p a) (er_applied result) rs.
Proof.
  intros Hok H. apply rethrow_ok, on_sales_step in H as (x & H & ->). apply on_promo_step in H as (y & H & ->).
  apply reserve_ok in H as (H1 & H2 & H3 & rs & H4 & H5 & _); [|done]. split; [exact H3|]. exists (own y). split_and!; try done. by exists rs.
Qed.

(** The tables after the order: the steps in their order. *)
Definition ordered_tables (id : string) (o : CreditOrder) (sheet : OrderSheet) (p' : PromoTables) (row : Transition OrderStatus)
    (qid : string) (q' : ShippingQuote) (event : OutboxEvent) (cartId : string) (cart : Cart) t : ShopTables :=
  let t1 := insert_order id o sheet t in
  let s := set_promo p' (sales t1) in
  let s := set_credit (put (moved_to id PENDING_PAYMENT row (order_status (credit s))) (credit s)) s in
  let s := set_outbox (<[ob_id event := event]> (outbox s)) s in
  set_carts (<[cartId := with_version (cart_version cart + 1) cart]> (carts t))
    (set_coupon_intents (delete cartId (coupon_intents t))
      (set_cart_items (delete_many (of_cart cartId) (cart_items t)) (set_quotes (<[qid := q']> (quotes t)) (set_sales s t1)))).

Definition order_placed (now : Z) (c : CheckoutCommand) (cart : Cart) (lines : list OrderLineSnapshot) (q : ShippingQuote)
    (outcome : PricingOutcome) (id : string) (n : NewOrder) (rs : list StockReservation) d d' : Prop :=
  exists number itemIds p' row q0 event cart0,
    n = order_to_place now c number lines q (er_totalDiscount (po_result outcome)) /\ order_check n = true /\
    find_order id (sales (own d)) = None /\ order_state id (sales (own d)) = None /\ NoDup itemIds /\ length itemIds = length lines /\
    own d' = ordered_tables id (new_order id itemIds n) (no_sheet n) p' row (qu_id q) (used_quote now id q0) event (cart_id cart) cart0 (own d) /\
    carts (own d) !! cart_id cart = Some cart0 /\ int4 (cart_version cart0 + 1) = true /\
    transition_row id DRAFT PENDING_PAYMENT (meta_of (Some (cq_userId c)) (Some (cq_requestId c)) "CHECKOUT_COMPLETED") row /\
    quotes (own d) !! qu_id q = Some q0 /\ qu_orderId q0 = None /\
    outbox (sales (own d)) !! ob_id event = None /\ ob_topic event = "ORDER_CREATED" /\ ob_aggregateId event = id /\
    promo_ok p' /\ (customer_limits (promo (sales (own d))) -> customer_limits p') /\
    (exists reds, redemptions p' = add_redemptions reds (redemptions (promo (sales (own d)))) /\
       Forall2 (fun a r => exists p, r = reserved_row (re_id r) id (cq_customerId c) p a) (er_applied (po_result outcome)) reds) /\
    (exists db1 db2, same_stock (inv_of d) db1 /\ same_stock db2 (inv_of d') /\
       lines_filled collate (checkout_placement hash now (cq_customerId c) (hash (cq_idempotencyKey c)) id (cq_userId c) (cq_requestId c)) db1 lines rs db2).

Lemma order_check_quantities n : order_check n = true -> Forall (fun l => 0 < os_quantity l)%Z (sheet_lines (no_sheet n)).
Proof.
  unfold order_check. intros [_ H]%andb_prop. rewrite forallb_forall in H. apply Forall_forall. intros l Hl. apply list_elem_of_In in Hl.
  specialize (H l Hl). apply andb_prop in H as [[H%Z.ltb_lt _]%andb_prop _]. done.
Qed.

Lemma place_order_step now c cart lines q outcome d id n rs d' : inv (inv_of d) -> promo_ok (promo (sales (own d))) ->
  place_order cuid uuid hash collate now c cart lines q outcome d = Ok ((id, n, rs), d') ->
  order_placed now c cart lines q outcome id n rs d d'.
Proof.
  intros Hinv Hp H. unfold place_order in H. run_inv.
  match goal with H : on_inv (fresh_id uuid) _ = _ |- _ => apply fresh_step in H as [E0 Q0] end.
  match goal with H : create_order _ _ _ = _ |- _ => apply create_order_step in H as (Q1 & itemIds & L & Hnd & Hf & Hs & Hck & _ & E1) end.
  match goal with H : rethrow _ _ _ = _ |- _ => apply reserve_uses_step in H as (Q2 & p' & E2 & Hp' & Hl' & Hreds); [|by rewrite E1, E0] end.
  match goal with H : on_sales (move_order _ _ _ _ _) _ = _ |- _ => apply on_sales_step in H as (moved & H & ->) end.
  match goal with H : move_order _ _ _ _ _ _ = _ |- _ => apply move_order_step in H as (Q3 & _ & _ & Hrow & E3) end.
  match goal with H : on_inv (reserve_lines _ _ _ _) _ = _ |- _ => apply on_inv_ok in H as (stocked & H & ->) end.
  match goal with H : reserve_lines _ _ _ _ _ = _ |- _ => apply reserve_lines_ok in H as Hfill end; cbn [inv_of own] in *.
  2: { eapply inv_same_stock; [exact Hinv|]. etrans; [exact Q0|]. etrans; [exact Q1|]. etrans; [exact Q2|]. exact Q3. }
  2: { eapply Forall_impl; [exact (order_check_quantities _ Hck)|]. intros l Hl. simpl in Hl. lia. }
  match goal with H : consume_quote _ _ _ _ = _ |- _ => apply consume_quote_step in H as (I4 & q0 & Hq1 & Hq2 & E4) end.
  match goal with H : on_sales (create_outbox _ _ _ _ _ _) _ = _ |- _ => apply on_sales_step in H as (told & H & ->) end.
  match goal with H : create_outbox _ _ _ _ _ _ _ = _ |- _ => apply outbox_step in H as (Q5 & eid & O1 & _ & E5) end.
  match goal with H : empty_cart _ _ = _ |- _ => unfold empty_cart in H end. run_inv.
  match goal with H : delete_items _ _ = _ |- _ => apply delete_items_step in H as (I6 & _ & E6) end.
  match goal with H : delete_intent _ _ = _ |- _ => apply delete_intent_step in H as (I7 & _ & E7) end.
  match goal with H : bump_cart _ _ = _ |- _ => apply bump_cart_step in H as (I8 & cart0 & Hc & Hv & E8) end.
  cbn [inv_of own] in *.
  unfold shop_view in *. rewrite E3, E2, E1, E0 in *. clear E0 E1 E2 E3. cbn [inv_of own] in *. rewrite E4 in *. clear E4. rewrite E5 in *. clear E5.
  rewrite E6 in *. clear E6. rewrite E7 in *. clear E7.
  eexists (orderNumber now x), itemIds, p', _, q0, (mkOutboxEvent eid "ORDER_CREATED" "order" x0 ("order-created:" +:+ x0) _), cart0.
  split_and!; [reflexivity|exact Hck|exact Hf|exact Hs|exact Hnd|exact L|exact E8|exact Hc|exact Hv|exact Hrow|exact Hq1|exact Hq2|exact O1|done|done|
    exact Hp'|exact Hl'|exact Hreds|].
  exists (inv_of moved), stocked. split; [etrans; [exact Q0|]; etrans; [exact Q1|]; etrans; [exact Q2|exact Q3]|]. split; [|exact Hfill].
  rewrite I8, I7, I6, <- I4. exact Q5.
Qed.
End checkout.

(** * Previews *)

Section preview.
Context (cuid : nat -> string) (hash fold : string -> string) (collate : string -> string -> Z).
Implicit Types (d : Shop) (t : ShopTables).

Lemma create_quote_step now row d q d' : (forall id, qu_id (row id) = id /\ qu_consumedAt (row id) = None /\ qu_orderId (row id) = None) ->
  create_quote cuid now row d = Ok (q, d') ->
  undisturbed d d' /\ q = row (qu_id q) /\ quotes (own d) !! qu_id q = None /\ quote_check now q = true /\
  own d' = set_quotes (<[qu_id q := q]> (quotes (own d))) (own d) /\ shop_only (own d) (own d').
Proof.
  intros Hrow H. unfold create_quote in H. run_inv. match goal with H : on_inv _ _ = _ |- _ => apply fresh_step in H as [E1 Q1] end. run_domain.
  match goal with H : bool_decide (is_Some _) = false |- _ => apply bool_decide_eq_false, eq_None_not_Some in H as Hn end.
  match goal with H : negb (quote_check _ _) = false |- _ => apply negb_false_iff in H as Hq end. rewrite E1 in *.
  destruct (Hrow x) as (R1 & R2 & R3). split; [exact Q1|]. rewrite R1. split; [done|]. split; [done|]. split; [done|]. split; [done|].
  rewrite <- R1 at 1. apply quotes_only.
  - intros Hk. apply quotes_ok_insert; [done|by rewrite R1|done|done].
  - intros _ id q o Hq1 Hq2. rewrite lookup_insert_ne; [done|]. rewrite R1. congruence.
Qed.

Definition subtotal_of (rows : list CartRow) : Z := sumZ os_lineTotal (snapshot_line <$> rows).
Lemma view_subtotal db cart rows now : cv_subtotal (buildCartView db cart rows now) = subtotal_of rows.
Proof. unfold buildCartView, subtotal_of. cbn [cv_subtotal]. rewrite !sumZ_fmap. done. Qed.

(** The quote for a method. *)
Definition quoted (now : Z) (customerId : string) (address : CheckoutAddress) (cart : Cart) (rows : list CartRow) t (m : ShippingMethod) (q : ShippingQuote) : Prop :=
  q = quote_of now customerId (checkoutAddressHash hash address) cart (subtotal_of rows)
        (er_totalDiscount (po_result (method_price fold t now customerId cart rows (sm_amount m)))) m (qu_id q).

Definition quote_each (now : Z) (customerId : string) (address : CheckoutAddress) (cart : Cart) (rows : list CartRow) (subtotal : Z) (m : ShippingMethod)
    : HM (PricingOutcome * ShippingQuote) :=
  t ← gets own;
  let priced := method_price fold t now customerId cart rows (sm_amount m) in
  q ← create_quote cuid now (quote_of now customerId (checkoutAddressHash hash address) cart subtotal (er_totalDiscount (po_result priced)) m);
  mret (priced, q).

(** Only quotes are added. *)
Definition quotes_grow t t' : Prop := exists qs, t' = set_quotes qs t /\ quotes t ⊆ qs.
Lemma quote_each_steps now customerId address cart rows ms d pqs d' :
  map_each ms (quote_each now customerId address cart rows (subtotal_of rows)) d = Ok (pqs, d') ->
  undisturbed d d' /\ shop_only (own d) (own d') /\ quotes_grow (own d) (own d') /\
  Forall2 (fun m pq => fst pq = method_price fold (own d) now customerId cart rows (sm_amount m) /\
    quoted now customerId address cart rows (own d) m (snd pq)) ms pqs /\
  Forall (fun pq => quotes (own d) !! qu_id (snd pq) = None /\ quotes (own d') !! qu_id (snd pq) = Some (snd pq)) pqs.
Proof.
  revert d pqs. induction ms as [|m ms IH]; intros d pqs H; simpl in H; run_inv.
  { split; [done|]. split; [done|]. split; [|by split; constructor]. exists (quotes (own d)). split; [by destruct (own d)|done]. }
  match goal with H : quote_each _ _ _ _ _ _ _ _ = _ |- _ => unfold quote_each in H end. run_inv.
  match goal with H : create_quote _ _ _ _ = _ |- _ => apply create_quote_step in H as (Q1 & Eq & Hn & _ & E1 & O1); [|done] end.
  match goal with H : map_each _ _ _ = _ |- _ => apply IH in H as (Q2 & O2 & (qs & E2 & G2) & F2 & L2) end.
  match goal with E : own ?s2 = set_quotes (<[qu_id ?q := ?q]> _) _ |- _ => rename q into quote end.
  split; [by etrans|]. split; [by etrans|]. rewrite E1 in *. cbn [quotes set_quotes] in *.
  assert (Hin : quotes (own s0) !! qu_id quote = Some quote) by (rewrite E2; cbn; eapply lookup_weaken; [apply lookup_insert_eq|exact G2]).
  split; [|split].
  - exists qs. split; [by rewrite E2|]. etrans; [by apply (insert_subseteq _ (qu_id quote) quote)|exact G2].
  - constructor; [by split|]. exact F2.
  - constructor; [by split|]. eapply Forall_impl; [exact L2|]. intros [p q] [H1 H2]. split; [|done]. cbn in *. by apply lookup_insert_None in H1 as [H1 _].
Qed.

(** * The preview *)

Definition sellable_rows (rows : list CartRow) : Prop := Forall (fun r => sellable_row (row_variant r) (row_product r) = true) rows.
Lemma sellable_rows_iff rows : existsb (fun r => negb (sellable_row (row_variant r) (row_product r))) rows = false <-> sellable_rows rows.
Proof.
  unfold sellable_rows. induction rows as [|r rows IH]; simpl; [by split|]. rewrite orb_false_iff, negb_false_iff, IH, Forall_cons. done.
Qed.

(** The view of the cart, and a new quote for each active method in their order; expired
    quotes of the customer go. *)
Definition previewed (now : Z) (customerId : string) (address : CheckoutAddress) (v : CheckoutPreview) d d' : Prop :=
  exists cart rows qs, cart_of customerId (own d) = Some cart /\ cart_rows collate (cart_id cart) (own d) = Some rows /\ rows <> [] /\ sellable_rows rows /\
    vw_cart v = buildCartView (inv_of d) cart rows now /\ vw_shipping v = shippingQuoteContract <$> qs /\ qs <> [] /\
    Forall2 (quoted now customerId address cart rows (own d)) (find_sorted (method_order collate) sm_isActive (methods (own d))) qs /\
    (exists m, head (find_sorted (method_order collate) sm_isActive (methods (own d))) = Some m /\
       vw_promotion v = Some (cartView (method_price fold (own d) now customerId cart rows (sm_amount m)))) /\
    Forall (fun q => quotes (own d') !! qu_id q = Some q) qs /\
    exists kept, own d' = set_quotes kept (own d) /\ delete_many (expired_quote customerId now) (quotes (own d)) ⊆ kept.

Lemma preview_tx_step now customerId address d v d' : preview_tx cuid hash fold collate now customerId address d = Ok (v, d') ->
  undisturbed d d' /\ shop_only (own d) (own d') /\ previewed now customerId address v d d'.
Proof.
  intros H. unfold preview_tx in H. run_inv. match goal with H : load_cart _ _ _ = _ |- _ => apply load_cart_step in H as [-> Hl] end.
  destruct x as [[cart rows]|]; [|by run_inv]. destruct Hl as [Hc Hrows]. run_inv.
  match goal with H : bool_decide (length rows = _) = false |- _ => apply bool_decide_eq_false in H as Hne end.
  match goal with H : bool_decide (length (find_sorted _ _ _) = _) = false |- _ => apply bool_decide_eq_false in H as Hms end.
  match goal with H : existsb _ _ = false |- _ => apply sellable_rows_iff in H as Hs end.
  match goal with H : on_own _ _ = _ |- _ => apply on_own_ok in H as (t1 & H & ->) end. run_inv.
  match goal with H : map_each _ _ _ = _ |- _ => rename H into Hmap end. rewrite view_subtotal in Hmap.
  apply quote_each_steps in Hmap as (Q & O & (qs & E & G) & F & L). cbn [own inv_of] in *.
  split; [exact Q|]. split.
  - etrans; [|exact O]. apply quotes_only; [apply quotes_ok_subset, delete_many_subset|]. intros Hk id q o Hq Ho. apply lookup_delete_many. split; [done|].
    unfold expired_quote. apply andb_false_iff. left. apply andb_false_iff. right. apply bool_decide_eq_false. intros Hn.
    destruct (qk_used _ _ Hk _ _ Hq) as [Hiff _]. apply Hiff in Hn. congruence.
  - match type of F with Forall2 _ _ ?pqs => exists cart, rows, (snd <$> pqs) end. split; [done|]. split; [done|]. split; [by intros ->|]. split; [done|].
    split; [done|]. split; [cbn; by rewrite <- list_fmap_compose|]. split; [|split; [|split; [|split]]].
    + intros E0%fmap_nil_inv. subst. apply Forall2_nil_inv_r in F. by rewrite F in Hms.
    + apply Forall2_fmap_r. eapply Forall2_impl; [exact F|]. by intros m [p q] [_ Hq].
    + inversion F as [E0|m [p q] ms pqs [Hp _] _ E0]; [by rewrite <- E0 in Hms|]. exists m. split; [done|]. cbn in *. by rewrite Hp.
    + apply Forall_fmap. eapply Forall_impl; [exact L|]. by intros [p q] [_ Hq].
    + exists qs. split; [done|exact G].
Qed.

(** * Accepting a quote *)

(** No promotion starts or ends between two instants. *)
Definition same_windows (now now' : Z) (tp : PromoTables) : Prop :=
  forall id p, promotions tp !! id = Some p -> started now' p = started now p /\ unexpired now' p = unexpired now p.

Lemma candidates_same_windows prior customerId lines shipping code now now' known ex tp : same_windows now now' tp ->
  automatic_candidates prior tp (mkPriceInput customerId lines shipping code now' known ex) =
  automatic_candidates prior tp (mkPriceInput customerId lines shipping code now known ex).
Proof.
  intros H. unfold automatic_candidates. cbn [pi_now pi_customerId pi_excludeOrderId]. do 2 f_equal. unfold find_many. apply filter_ext_in.
  intros p Hp%list_elem_of_In. apply elem_of_rows in Hp as [id Hp]. destruct (H id p Hp) as [E1 E2]. unfold automatic, in_window. by rewrite E1, E2.
Qed.
Lemma coupon_same_windows prior customerId pls shipping code now now' known ex tp lines c : same_windows now now' tp ->
  check_coupon prior tp (mkPriceInput customerId pls shipping code now' known ex) lines c =
  check_coupon prior tp (mkPriceInput customerId pls shipping code now known ex) lines c.
Proof.
  intros H. unfold check_coupon. cbn. destruct (find_by _ _) as [k|]; [|done]. destruct (promotions tp !! _) as [p|] eqn:Hp; [|done].
  destruct (H _ p Hp) as [-> ->]. done.
Qed.
(** Then the cart costs the same. *)
Lemma method_price_same_windows t now now' customerId cart rows shipping : same_windows now now' (promo (sales t)) ->
  method_price fold t now' customerId cart rows shipping = method_price fold t now customerId cart rows shipping.
Proof.
  intros H. unfold method_price, shop_price, price, price_input. cbn [pi_lines pi_couponCode pi_shipping pi_shippingKnown].
  destruct (pricingLines rows) as [|l ls]; [done|]. rewrite (candidates_same_windows _ _ _ _ _ now now') by done.
  destruct (coupon_intents t !! cart_id cart) as [raw|]; [|done]. destruct (truthy raw); [|done]. cbn [fmap option_fmap option_map].
  by rewrite (coupon_same_windows _ _ _ _ _ now now') by done.
Qed.

(** What a checkout with the quote decides. *)
Definition quote_decision (now : Z) (c : CheckoutCommand) (cart : Cart) (rows : list CartRow) (q : ShippingQuote) t
    : result (Cart * list OrderLineSnapshot * ShippingQuote * PricingOutcome) :=
  if (now <? qu_expiresAt q)%Z then
    let priced := method_price fold t now (cq_customerId c) cart rows (qu_amount q) in
    if bool_decide (er_totalDiscount (po_result priced) = qu_promotionDiscount q) then Ok (cart, snapshot_line <$> rows, q, priced)
    else Err (quote_changed "Promotions changed and the cart must be reviewed.")
  else Err shipping_quote_changed.

Lemma load_cart_run customerId cart rows d : cart_of customerId (own d) = Some cart -> cart_rows collate (cart_id cart) (own d) = Some rows ->
  load_cart collate customerId d = Ok (Some (cart, rows), d).
Proof.
  intros Hc Hr. unfold load_cart. erewrite bind_run by reflexivity. rewrite Hc. erewrite bind_run by (unfold unwrap; rewrite Hr; reflexivity). done.
Qed.

Section accept.
Context (d : Shop) (now0 now : Z) (c : CheckoutCommand) (cart : Cart) (rows : list CartRow) (m : ShippingMethod) (q : ShippingQuote).
Context (Hcart : cart_of (cq_customerId c) (own d) = Some cart) (Hrows : cart_rows collate (cart_id cart) (own d) = Some rows).
Context (Hne : rows <> []) (Hs : sellable_rows rows) (Hm : methods (own d) !! sm_id m = Some m) (Ha : sm_isActive m = true).
Context (t0 : ShopTables) (Hq : quoted now0 (cq_customerId c) (cq_address c) cart rows t0 m q).
Context (Hin : quotes (own d) !! qu_id q = Some q) (Hid : cq_shippingQuoteId c = qu_id q).

Lemma quote_valid : valid_quote hash now (cq_customerId c) cart (cq_address c) q m = (now <? qu_expiresAt q)%Z.
Proof using Ha Hq.
  clear Hin Hid. rewrite Hq. unfold valid_quote, method_terms, quote_of. cbn. rewrite Ha, !bool_decide_true by done. cbn. by destruct (now <? _)%Z.
Qed.

Lemma price_checkout_run : price_checkout hash fold collate now c d =
  match quote_decision now c cart rows q (own d) with Ok r => Ok (r, d) | Err e => Err e end.
Proof using All.
  unfold price_checkout, quote_decision. erewrite bind_run by (by apply load_cart_run).
  cbv iota beta. assert (bool_decide (length rows = 0%nat) = false) as -> by (apply bool_decide_eq_false; by intros E%length_zero_iff_nil).
  apply sellable_rows_iff in Hs as Hs'. rewrite Hs'. erewrite bind_run by reflexivity. erewrite bind_run by reflexivity.
  assert (Hr : requireValidQuote hash (cq_shippingQuoteId c) now (cq_customerId c) cart (cq_address c) d =
    if (now <? qu_expiresAt q)%Z then Ok (q, d) else Err shipping_quote_changed).
  { unfold requireValidQuote. erewrite bind_run by reflexivity. rewrite Hid, Hin. assert (qu_shippingMethodId q = sm_id m) as -> by (by rewrite Hq).
    erewrite bind_run by (unfold unwrap; rewrite Hm; reflexivity). rewrite quote_valid. by destruct (now <? _)%Z. }
  destruct (now <? qu_expiresAt q)%Z; [|by apply bind_err]. erewrite bind_run by exact Hr.
  assert (qu_subtotal q = subtotal_of rows) as -> by (by rewrite Hq). assert (qu_pricePolicyRevision q = PRICE_POLICY_REVISION) as -> by (by rewrite Hq).
  unfold subtotal_of. rewrite !bool_decide_true by done. erewrite bind_run by reflexivity. erewrite bind_run by reflexivity.
  by destruct (bool_decide (er_totalDiscount _ = _)).
Qed.
End accept.
End preview.
