(* ===== verification/ShopSafety.v ===== *)
(** The invariant of the shop and that its transactions keep it: carts within their limits,
    versions that pin what a cart holds, quotes that are used once, and orders that enter the
    books of sales. *)

From S2P Require Import Prelude StateMachine Retry PromotionEngine Table Paging Json StableJson CheckoutAddress.
From S2P Require Import AuditTrail InventoryModel Inventory Durable PromotionClaims Credit CreditCommands CreditSales Sales.
From S2P Require Import Shop Carts Checkout InventoryLedger InventoryProofs DurableSafety CreditBooks CreditRuns CreditSaleProofs.
From S2P Require Import PromotionCapacity SalesBooks SalesSafety ShopBooks CartProofs PlacingProofs CheckoutProofs.

(** * A new order in the books of sales *)

Definition core_new (id : string) (o : CreditOrder) (s : OrderStatus) (c : Core) : Core :=
  mkCore (<[id := o]> (k_orders c)) (<[id := s]> (k_order c)) (k_payments c) (k_payment c) (k_refunds c).

Section new_order.
Context (c : Core) (id : string) (o : CreditOrder) (s : OrderStatus).
Context (Hfree : k_orders c !! id = None) (Hst : k_order c !! id = None).

Lemma capture_order_new : capture_ok c -> or_id o = id -> or_payments o = [] -> s <> PAID -> capture_ok (core_new id o s c).
Proof using Hfree.
  intros [A B C D E F G H I J] Eid Ep Hs.
  assert (Hold : forall oid, oid <> id -> shop_order (core_new id o s c) oid -> shop_order c oid).
  { intros oid Hne (x & Hx & Hd). cbn in Hx. rewrite lookup_insert_ne in Hx by done. by exists x. }
  assert (Hpay : forall pid p, k_payments c !! pid = Some p -> pt_orderId p <> id).
  { intros pid p Hp Eo. destruct (B _ _ Hp) as (_ & x & Hx & _). congruence. }
  split; cbn [core_new k_orders k_order k_payments k_payment k_refunds]; try done.
  - intros oid x [[<- <-]|[Hne Hx]]%lookup_insert_Some; [done|by apply A].
  - intros pid p Hp. destruct (B _ _ Hp) as (H1 & x & H2 & H3). split; [done|]. exists x. cbn.
    rewrite lookup_insert_ne; [done|]. apply not_eq_sym. by eapply Hpay.
  - intros oid x pid [[<- <-]|[Hne Hx]]%lookup_insert_Some Hin; [|by eapply C]. rewrite Ep in Hin. by apply elem_of_nil in Hin.
  - intros i1 i2 p1 p2 s1 s2 H1 H2 Eo Hsh. eapply (E i1 i2 p1 p2 s1 s2); try done. apply Hold; [by eapply Hpay|done].
  - intros pid p st H1 H2 H3 Hsh. assert (pt_orderId p <> id) by by eapply Hpay. rewrite lookup_insert_ne by done. eapply F; [done..|by apply Hold].
  - intros oid Hsh Hp. apply lookup_insert_Some in Hp as [[<- ->]|[Hne Hp]]; [done|]. apply G; [by apply Hold|done].
Qed.
Lemma evolves_order_new : core_evolves c (core_new id o s c).
Proof using Hfree Hst.
  split; cbn; [| |intros i p st Hp Hs; by exists p, st|done].
  - intros i x Hx. exists x. rewrite lookup_insert_ne by congruence. done.
  - intros i Hi. rewrite lookup_insert_ne; [done|]. intros <-. rewrite Hst in Hi. by destruct Hi.
Qed.
End new_order.

Section placed_order.
Context (hash : string -> string) (collate : string -> string -> Z).

Lemma ordered_core id o sheet p' row qid q' event cartId cart t :
  core_of (sales (ordered_tables id o sheet p' row qid q' event cartId cart t)) = core_new id o PENDING_PAYMENT (core_of (sales t)).
Proof. unfold ordered_tables, insert_order, core_of, core_new. simpl. by rewrite insert_insert_eq. Qed.

Lemma order_placed_step now c cart lines q outcome id n rs d d' : sale_state (shop_view d) ->
  order_placed hash collate now c cart lines q outcome id n rs d d' -> sale_step (shop_view d) (shop_view d').
Proof.
  intros [Hinv (Hc & Hp & Hb & Hd)]
    (number & itemIds & p' & row & q0 & event & cart0 & _ & _ & Hf & Hs & _ & _ & E & _ & _ & _ & _ & _ & _ & _ & _ & Hp' & _ & _ & db1 & db2 & Q1 & Q2 & Hfill).
  cbn [shop_view inv_of own] in *. apply same_stock_refines in Q1 as (I1 & V1 & _); [|done].
  destruct (lines_filled_placed _ _ _ _ _ _ I1 Hfill) as ((I2 & V2 & _) & _). apply same_stock_refines in Q2 as (I3 & V3 & _); [|done].
  split; [split; [done|]|split; [etrans; [exact V1|]; etrans; [exact V2|exact V3]|]]; cbn [shop_view inv_of own]; rewrite E.
  - split; [rewrite ordered_core; by apply capture_order_new|]. split; [exact Hp'|]. split; [|exact Hd].
    eapply same_books_ok; [exact Hb|by split].
  - rewrite ordered_core. by apply evolves_order_new.
Qed.
End placed_order.

(** * The shop after an order *)

Lemma new_order_fits id itemIds now c number lines q discount : let n := order_to_place now c number lines q discount in
  length itemIds = length lines -> order_check n = true -> sheet_fits (new_order id itemIds n) (no_sheet n).
Proof.
  intros n HL Hn. unfold order_check in Hn. cbn in Hn. repeat match goal with H : (_ && _)%bool = true |- _ => apply andb_prop in H as [? ?] end.
  unfold sheet_fits. cbn. split; [done|]. split; [lia|]. split; [lia|]. split.
  - clear -HL. revert itemIds HL. induction lines as [|l lines IH]; intros [|i itemIds] HL; simplify_eq/=; [done|]. f_equal. by apply IH.
  - apply Forall_forall. intros l Hl%list_elem_of_In. match goal with H : forallb _ _ = true |- _ => rewrite forallb_forall in H; specialize (H l Hl) end.
    repeat match goal with H : (_ && _)%bool = true |- _ => apply andb_prop in H as [? ?] end. lia.
Qed.

Section tables.
Context (id : string) (o : CreditOrder) (sheet : OrderSheet) (p' : PromoTables) (row : Transition OrderStatus) (now : Z) (q : ShippingQuote)
  (event : OutboxEvent) (cart : Cart) (t : ShopTables).
Context (Hok : shop_ok t) (Hfree : orders (credit (sales t)) !! id = None) (Hfits : sheet_fits o sheet).
Context (Hcart : carts t !! cart_id cart = Some cart) (Hq : quotes t !! qu_id q = Some q) (Hun : qu_orderId q = None).

Definition after_order (ks : gmap string CheckoutRecord) : ShopTables :=
  set_checkouts ks (ordered_tables id o sheet p' row (qu_id q) (used_quote now id q) event (cart_id cart) cart t).

Lemma order_other k x : orders (credit (sales t)) !! k = Some x -> k <> id.
Proof using Hfree. congruence. Qed.
Lemma quotes_ok_used : quotes_ok (<[id := o]> (orders (credit (sales t)))) (<[qu_id q := used_quote now id q]> (quotes t)).
Proof using Hfree Hok Hq Hun.
  destruct (sk_quotes _ Hok) as [A B C].
  assert (Hold : forall k x, quotes t !! k = Some x -> qu_orderId x <> Some id).
  { intros k x Hx E. destruct (B _ _ Hx) as [_ Hex]. destruct (Hex _ E). congruence. }
  split.
  - intros k x [[<- <-]|[Hne Hx]]%lookup_insert_Some; [done|by apply A].
  - intros k x [[<- <-]|[Hne Hx]]%lookup_insert_Some.
    + split; [done|]. intros oid [= <-]. rewrite lookup_insert_eq. by eexists.
    + destruct (B _ _ Hx) as [H1 H2]. split; [done|]. intros oid Ho. destruct (H2 _ Ho) as [y Hy]. rewrite lookup_insert_ne; [by exists y|].
      apply not_eq_sym. by eapply order_other.
  - intros k1 k2 x1 x2 oid [[<- <-]|[N1 H1]]%lookup_insert_Some [[<- <-]|[N2 H2]]%lookup_insert_Some E1 E2; [done|..].
    + injection E1 as <-. by destruct (Hold _ _ H2).
    + injection E2 as <-. by destruct (Hold _ _ H1).
    + by eapply C.
Qed.
Lemma sheets_ok_new : sheets_ok (<[id := o]> (orders (credit (sales t)))) (<[id := sheet]> (order_sheets t)).
Proof using Hfits Hfree Hok.
  intros k x [[<- <-]|[Hne Hx]]%lookup_insert_Some; [exists o; by rewrite lookup_insert_eq|].
  destruct (sk_sheets _ Hok _ _ Hx) as (y & Hy & Hf). exists y. by rewrite lookup_insert_ne.
Qed.
Lemma answers_after ks r a : answers t r a -> answers (after_order ks) r a.
Proof using Hfree Hun Hq.
  intros (H1 & (y & s & Hy & Hs & H2) & x & Hx & E1 & E2). split; [done|]. pose proof (order_other _ _ Hy) as Hne. split.
  - exists y, s. unfold after_order. cbn. rewrite !lookup_insert_ne by done. split; [done|]. by split.
  - exists x. unfold after_order. cbn. rewrite lookup_insert_ne; [by split|]. intros E. rewrite <- E in Hx. congruence.
Qed.

(** The claim of the key becomes its completed record. *)
Context (P : CheckoutRecord -> bool) (claim customerId keyHash fp : string) (expiresAt : Z) (a : CheckoutResponse).
Context (Hclaim : delete_many P (checkouts t) !! claim = None).
Context (Hkey : forall k r, delete_many P (checkouts t) !! k = Some r -> same_checkout customerId keyHash r = false).
Context (Ha : co_orderId a = id /\ or_customerId o = customerId /\ co_number a = or_number o /\ co_discount a = or_discount o /\
  co_shipping a = or_shipping o /\ co_total a = or_grandTotal o /\ co_subtotal a = sheet_subtotal sheet /\ co_items a = sheet_lines sheet /\
  co_shippingQuote a = shippingQuoteContract q).

Definition claim_record : CheckoutRecord := mkCheckoutRecord claim customerId keyHash fp (Some id) (Some a) expiresAt.
Definition after_checkout : ShopTables := after_order (<[claim := claim_record]> (delete_many P (checkouts t))).

Lemma records_ok_after : records_ok after_checkout.
Proof using All.
  destruct (sk_records _ Hok) as [A B C].
  assert (Hold : forall k r, delete_many P (checkouts t) !! k = Some r -> checkouts t !! k = Some r) by (by intros k r [Hr _]%lookup_delete_many).
  assert (Hother : forall k r, delete_many P (checkouts t) !! k = Some r -> kr_customerId r = customerId -> kr_keyHash r = keyHash -> False).
  { intros k r Hr E1 E2. specialize (Hkey _ _ Hr). unfold same_checkout in Hkey. by rewrite E1, E2, !bool_decide_true in Hkey. }
  split; cbn.
  - intros k r [[<- <-]|[Hne Hr]]%lookup_insert_Some; [done|]. by apply A, Hold.
  - intros k1 k2 r1 r2 [[<- <-]|[N1 H1]]%lookup_insert_Some [[<- <-]|[N2 H2]]%lookup_insert_Some E1 E2; [done|..].
    + by destruct (Hother _ _ H2).
    + by destruct (Hother _ _ H1).
    + eapply (B k1 k2 r1 r2); try done; by apply Hold.
  - intros k r [[<- <-]|[Hne Hr]]%lookup_insert_Some.
    + exists a. split; [done|]. destruct Ha as (E1 & E2 & E3 & E4 & E5 & E6 & E7 & E8 & E9). split; [by rewrite E1|]. rewrite E1. split.
      * exists o, sheet. cbn. rewrite !lookup_insert_eq. by split_and!.
      * exists (used_quote now id q). rewrite E9. cbn. by rewrite lookup_insert_eq.
    + destruct (C _ _ (Hold _ _ Hr)) as (x & H1 & H2). exists x. split; [done|]. by apply answers_after.
Qed.

Lemma after_checkout_ok : shop_ok after_checkout /\ shop_evolves t after_checkout.
Proof using All.
  destruct Hok as [A B C D M E F G K]. pose proof records_ok_after as Hr.
  assert (Hgrow : forall k, is_Some (carts t !! k) -> is_Some (<[cart_id cart := with_version (cart_version cart + 1) cart]> (carts t) !! k)).
  { intros k Hk. destruct (decide (k = cart_id cart)) as [->|Hne]; [by rewrite lookup_insert_eq|by rewrite lookup_insert_ne]. }
  split; split; try done.
  - by apply carts_ok_write.
  - eapply items_ok_carts; [exact Hgrow|]. eapply items_ok_subset; [apply delete_many_subset|done].
  - intros k [x Hx]. cbn in Hx. apply lookup_delete_Some in Hx as [_ Hx]. apply Hgrow, C. by exists x.
  - exact quotes_ok_used.
  - exact sheets_ok_new.
  - intros k x owner Hx Hw. unfold after_checkout, after_order. cbn. destruct (decide (k = cart_id cart)) as [->|Hne].
    + exists (with_version (cart_version cart + 1) cart). rewrite lookup_insert_eq. assert (x = cart) as -> by congruence. cbn. split_and!; [done..|lia|lia].
    + exists x. rewrite lookup_insert_ne by done. split_and!; [done..|lia|]. intros _. split; cbn; [|by rewrite lookup_delete_ne].
      intros k' i Hi. apply (others_kept_delete (cart_id cart)); [|congruence]. by intros y Hy%bool_decide_eq_true.
  - intros k x oid Hx Ho. cbn. rewrite lookup_insert_ne; [done|]. congruence.
  - cbn. apply insert_subseteq. apply eq_None_not_Some. intros [s Hs]. destruct (F _ _ Hs) as (y & Hy & _). congruence.
Qed.
End tables.

(** * The transaction *)

Definition shop_state (d : Shop) : Prop := sale_state (shop_view d) /\ shop_ok (own d).
(** [d] with other checkout records. *)
Definition with_checkouts (ks : gmap string CheckoutRecord) (d : Shop) : Shop := mkDomain (inv_of d) (set_checkouts ks (own d)).

Section transaction.
Context (cuid uuid : nat -> string) (hash fold : string -> string) (collate : string -> string -> Z).
Implicit Types (d : Shop) (t : ShopTables).

Lemma create_checkout_step customerId keyHash fp expiresAt d id d' : create_checkout cuid customerId keyHash fp expiresAt d = Ok (id, d') ->
  undisturbed d d' /\ checkouts (own d) !! id = None /\ find_checkout customerId keyHash (own d) = None /\
  own d' = set_checkouts (<[id := mkCheckoutRecord id customerId keyHash fp None None expiresAt]> (checkouts (own d))) (own d).
Proof.
  intros H. unfold create_checkout in H. run_inv. match goal with H : on_inv _ _ = _ |- _ => apply fresh_step in H as [E1 Q1] end. run_domain.
  match goal with H : (_ || _)%bool = false |- _ => apply orb_false_iff in H as [G1%bool_decide_eq_false%eq_None_not_Some G2%bool_decide_eq_false%eq_None_not_Some] end.
  rewrite E1 in *. split; [exact Q1|]. by split_and!.
Qed.
Lemma complete_checkout_step id orderId a d u d' : complete_checkout id orderId a d = Ok (u, d') ->
  inv_of d' = inv_of d /\ exists r, checkouts (own d) !! id = Some r /\
    own d' = set_checkouts (<[id := mkCheckoutRecord (kr_id r) (kr_customerId r) (kr_keyHash r) (kr_fingerprint r) (Some orderId) (Some a) (kr_expiresAt r)]>
      (checkouts (own d))) (own d).
Proof. intros H. unfold complete_checkout in H. run_domain. split; [done|]. by eexists. Qed.

Definition expired_key (now : Z) (c : CheckoutCommand) (r : CheckoutRecord) : bool :=
  same_checkout (cq_customerId c) (hash (cq_idempotencyKey c)) r && (kr_expiresAt r <=? now)%Z.
(** A live record of the key answers. *)
Definition checkout_replayed (now : Z) (c : CheckoutCommand) (r : CheckoutResponse) d d' : Prop :=
  exists k prior, checkouts (own d) !! k = Some prior /\ same_checkout (cq_customerId c) (hash (cq_idempotencyKey c)) prior = true /\
    (now < kr_expiresAt prior)%Z /\ kr_fingerprint prior = checkout_print hash c /\ kr_response prior = Some r /\
    d' = with_checkouts (delete_many (expired_key now c) (checkouts (own d))) d.

(** Otherwise the cart becomes an order, and the record of the key answers for a day. *)
Definition checkout_made (now : Z) (c : CheckoutCommand) (cart : Cart) (rows : list CartRow) (q : ShippingQuote) (outcome : PricingOutcome)
    (id : string) (n : NewOrder) (rs : list StockReservation) (claim : string) (r : CheckoutResponse) d d' : Prop :=
  checkout_priced hash fold collate now c cart rows (snapshot_line <$> rows) q outcome (own d) /\
  order_placed hash collate now c cart (snapshot_line <$> rows) q outcome id n rs d (with_checkouts (checkouts (own d)) d') /\
  r = checkout_response c id n q outcome rs /\
  delete_many (expired_key now c) (checkouts (own d)) !! claim = None /\
  checkouts (own d') = <[claim := claim_record id claim (cq_customerId c) (hash (cq_idempotencyKey c)) (checkout_print hash c) (now + CHECKOUT_RECORD_TTL_MS) r]>
    (delete_many (expired_key now c) (checkouts (own d))).

Lemma priced_frame ks now c cart rows lines q outcome t :
  checkout_priced hash fold collate now c cart rows lines q outcome (set_checkouts ks t) -> checkout_priced hash fold collate now c cart rows lines q outcome t.
Proof. done. Qed.

Lemma order_placed_frame ks ks' now c cart lines q outcome id n rs d d1 d2 d' : undisturbed d d1 -> own d1 = set_checkouts ks (own d) -> undisturbed d2 d' ->
  own d' = set_checkouts ks' (own d2) -> order_placed hash collate now c cart lines q outcome id n rs d1 d2 ->
  checkouts (own d2) = ks /\ order_placed hash collate now c cart lines q outcome id n rs d (with_checkouts (checkouts (own d)) d').
Proof.
  intros Q1 E1 Q2 E2 (number & itemIds & p' & row & q0 & event & cart0 & H). repeat match type of H with _ /\ _ => let h := fresh in destruct H as [h H] end.
  rewrite E1 in *. destruct H as (db1 & db2 & S1 & S2 & Hf).
  match goal with E : own d2 = ordered_tables _ _ _ _ _ _ _ _ _ _ _ |- _ => rename E into Eo end. split; [by rewrite Eo|].
  exists number, itemIds, p', row, q0, event, cart0. split_and!; try done.
  - cbn [own with_checkouts]. by rewrite E2, Eo.
  - exists db1, db2. split; [by etrans; [exact Q1|]|]. split; [|done]. by etrans; [exact S2|].
Qed.

Lemma live_records now c k r ks : delete_many (expired_key now c) ks !! k = Some r ->
  same_checkout (cq_customerId c) (hash (cq_idempotencyKey c)) r = true -> ks !! k = Some r /\ (now < kr_expiresAt r)%Z.
Proof.
  intros [Hr He]%lookup_delete_many Hs. split; [done|]. unfold expired_key in He. rewrite Hs in He. cbn in He. by apply Z.leb_gt in He.
Qed.

Lemma checkout_tx_step now c d r d' : shop_state d -> checkout_tx cuid uuid hash fold collate now c d = Ok (r, d') ->
  checkout_replayed now c r d d' \/
  ((forall k row, checkouts (own d) !! k = Some row -> same_checkout (cq_customerId c) (hash (cq_idempotencyKey c)) row = true -> (kr_expiresAt row <= now)%Z) /\
   exists cart rows q outcome id n rs claim, checkout_made now c cart rows q outcome id n rs claim r d d').
Proof.
  intros [[Hinv Hsales] Hok] H. unfold checkout_tx in H. run_inv.
  match goal with H : on_own _ _ = _ |- _ => apply on_own_ok in H as (t1 & H & ->) end. run_inv. cbn [own] in *. fold (expired_key now c) in *.
  destruct (find_checkout _ _ _) as [prior|] eqn:Hf.
  - run_inv. match goal with H : negb _ = false |- _ => apply negb_false_iff, bool_decide_eq_true in H as Hfp end.
    apply find_by_Some in Hf as [[k Hk] Hs]. cbn in Hk. destruct (live_records _ _ _ _ _ Hk Hs) as [Hk' Hl]. left. exists k, prior. by split_and!.
  - right. unfold find_checkout in Hf. rewrite find_by_None in Hf. cbn in Hf. split.
    { intros k row Hk Hs. destruct (Z.leb_spec (kr_expiresAt row) now) as [|Hl]; [done|]. exfalso. rewrite (Hf k row) in Hs; [done|].
      apply lookup_delete_many. split; [done|]. unfold expired_key. rewrite Hs. cbn. by apply Z.leb_gt. }
    run_inv. match goal with H : create_checkout _ _ _ _ _ _ = _ |- _ => apply create_checkout_step in H as (Q1 & Hn & _ & E1) end.
    match goal with H : price_checkout _ _ _ _ _ _ = _ |- _ => apply price_checkout_step in H as [-> Hp] end.
    destruct x0 as [[[cart lines] q] outcome]. destruct Hp as [rows Hp]. run_inv.
    destruct x0 as [[id n] rs]. run_inv. cbn [own inv_of] in *.
    match goal with H : place_order _ _ _ _ _ _ _ _ _ _ _ = _ |- _ => apply place_order_step in H as Hplaced end; cycle 1.
    { eapply inv_same_stock; [exact Hinv|]. exact Q1. }
    { rewrite E1. apply Hsales. }
    match goal with H : complete_checkout _ _ _ _ = _ |- _ => apply complete_checkout_step in H as (I3 & row & Hrow & E3) end.
    match goal with H : record _ _ = _ |- _ => apply shop_audit_step in H as [E4 Q4] end.
    rewrite E1 in Hp. apply priced_frame in Hp. pose proof Hp as (_ & _ & _ & _ & -> & _).
    rewrite <- E4 in E3.
    eapply order_placed_frame in Hplaced as [Ek Hplaced]; [| |exact E1| |exact E3]; [|exact Q1|unfold undisturbed in *; by rewrite I3 in Q4].
    exists cart, rows, q, outcome, id, n, rs, x. split; [exact Hp|]. split; [exact Hplaced|]. split; [done|]. split; [exact Hn|].
    rewrite E3. cbn. rewrite Ek in *. cbn in Hrow. rewrite lookup_insert_eq in Hrow. injection Hrow as <-. cbn. by rewrite insert_insert_eq.
Qed.

(** ** Safety *)

Definition shop_step d d' : Prop := shop_state d' /\ sales_evolves (shop_view d) (shop_view d') /\ shop_evolves (own d) (own d').

Lemma checkouts_only ks t : ks ⊆ checkouts t -> shop_only t (set_checkouts ks t).
Proof.
  intros Hs. split; [done|]. intros [A B C D M E F [G1 G2 G3] K]. split; [split; try done|split; [by apply same_cart_evolves|by intros|done|done]].
  assert (Hold : forall k r, ks !! k = Some r -> checkouts t !! k = Some r) by (intros k r H; by eapply lookup_weaken).
  split; cbn.
  - intros k r Hr. by apply G1, Hold.
  - intros k1 k2 r1 r2 H1 H2. apply (G2 k1 k2 r1 r2); by apply Hold.
  - intros k r Hr. destruct (G3 _ _ (Hold _ _ Hr)) as (a & H1 & H2). by exists a.
Qed.
Lemma only_step d d' : shop_state d -> undisturbed d d' -> shop_only (own d) (own d') -> shop_step d d'.
Proof.
  intros [Hsale Hok] Q [E Ho]. destruct (Ho Hok) as [Hok' Hev].
  destruct (kept_step (shop_view d) (shop_view d') Hsale Q E) as [H1 H2]. by split.
Qed.

Lemma set_checkouts_back ks t : set_checkouts (checkouts t) (set_checkouts ks t) = t.
Proof. by destruct t. Qed.

Lemma checkout_made_step now c cart rows q outcome id n rs claim r d d' : shop_state d ->
  (forall k row, checkouts (own d) !! k = Some row -> same_checkout (cq_customerId c) (hash (cq_idempotencyKey c)) row = true -> (kr_expiresAt row <= now)%Z) ->
  checkout_made now c cart rows q outcome id n rs claim r d d' -> shop_step d d'.
Proof.
  intros [Hsale Hok] Hnone (Hp & Hplaced & -> & Hclaim & Hks). destruct (order_placed_step hash collate now c cart _ q outcome id n rs d _ Hsale Hplaced) as [S1 S2].
  destruct Hp as (Hc & _ & _ & _ & _ & Hq & _). apply cart_of_iff in Hc as [Hc _]; [|apply Hok].
  pose proof (qk_keys _ _ (sk_quotes _ Hok) _ _ Hq) as Eq. rewrite <- Eq in Hq.
  destruct Hplaced as (number & itemIds & p' & row & q0 & event & cart0 & En & Hck & Hf & _ & _ & HL & E & Hc0 & _ & _ & Hq0 & Hun & _).
  assert (cart0 = cart) as -> by congruence. assert (q0 = q) as -> by congruence.
  assert (E' : own d' = after_checkout id (new_order id itemIds n) (no_sheet n) p' row now q event cart (own d) (expired_key now c) claim
    (cq_customerId c) (hash (cq_idempotencyKey c)) (checkout_print hash c) (now + CHECKOUT_RECORD_TTL_MS) (checkout_response c id n q outcome rs)).
  { unfold after_checkout, after_order. rewrite <- Hks. cbn [own with_checkouts] in E. rewrite <- E. by rewrite set_checkouts_back. }
  destruct (after_checkout_ok id (new_order id itemIds n) (no_sheet n) p' row now q event cart (own d) Hok Hf
    ltac:(rewrite En in *; by apply new_order_fits) Hc Hq Hun (expired_key now c) claim (cq_customerId c) (hash (cq_idempotencyKey c)) (checkout_print hash c)
    (now + CHECKOUT_RECORD_TTL_MS) (checkout_response c id n q outcome rs) Hclaim) as [K1 K2].
  - intros k x Hx. destruct (same_checkout _ _ x) eqn:Es; [|done]. destruct (live_records _ _ _ _ _ Hx Es) as [Hx' Hl]. specialize (Hnone _ _ Hx' Es). lia.
  - rewrite En. by split_and!.
  - rewrite <- E' in *. by split.
Qed.

Lemma safe_checkout now c d r d' : shop_state d -> checkout_tx cuid uuid hash fold collate now c d = Ok (r, d') -> shop_step d d'.
Proof.
  intros Hs H. apply checkout_tx_step in H as [(k & prior & _ & _ & _ & _ & _ & ->)|(Hn & cart & rows & q & outcome & id & n & rs & claim & H)]; [| |done].
  - apply only_step; [done|done|]. apply checkouts_only, delete_many_subset.
  - by eapply checkout_made_step.
Qed.
End transaction.

(** The shop among other clients: carts, coupons, previews, checkouts and the commands on
    placed orders each keep the invariants and move forward. *)

(** * Commands on placed orders *)

Lemma sheet_fits_terms o o' sheet : order_terms o' = order_terms o -> sheet_fits o sheet -> sheet_fits o' sheet.
Proof. unfold order_terms, sheet_fits. by intros [= E1 -> -> -> -> E2 E3]. Qed.

(** The shop keeps its invariant while the terms of its orders stay. *)
Lemma shop_ok_sales s' t : shop_ok t -> core_evolves (core_of (sales t)) (core_of s') -> shop_ok (set_sales s' t).
Proof.
  intros [A B C D M E F [G1 G2 G3] K] Hev.
  assert (Hterms : forall id o, orders (credit (sales t)) !! id = Some o -> exists o', orders (credit s') !! id = Some o' /\ order_terms o' = order_terms o)
    by exact (ce_orders _ _ Hev).
  split; try done.
  - destruct E as [E1 E2 E3]. split; [done| |done]. intros id q Hq. destruct (E2 _ _ Hq) as [H1 H2]. split; [done|]. intros o Ho.
    destruct (H2 _ Ho) as [x Hx]. destruct (Hterms _ _ Hx) as (y & Hy & _). by exists y.
  - intros id sheet Hs. destruct (F _ _ Hs) as (o & Ho & Hf). destruct (Hterms _ _ Ho) as (o' & Ho' & Et). exists o'. split; [done|]. by eapply sheet_fits_terms.
  - split; [done|done|]. intros id r Hr. destruct (G3 _ _ Hr) as (a & H1 & H2 & (o & sheet & Ho & Hs & H3) & H4). exists a. split; [done|]. split; [done|].
    split; [|done]. destruct (Hterms _ _ Ho) as (o' & Ho' & Et). exists o', sheet. split; [done|]. split; [done|]. unfold order_terms in Et.
    by injection Et as -> _ -> -> -> -> _.
Qed.
Lemma shop_evolves_sales s' t : shop_evolves t (set_sales s' t).
Proof. split; [by apply same_cart_evolves|by intros|done|done]. Qed.

(** Any step of sales is one of the shop. *)
Definition with_sales (x : Sales) (d : Shop) : Shop := mkDomain (inv_of x) (set_sales (own x) (own d)).
Lemma sale_step_lifts d x : shop_state d -> sale_step (shop_view d) x -> shop_step d (with_sales x d).
Proof.
  intros [Hsale Hok] [H1 H2]. split; [split|split].
  - by destruct x.
  - apply shop_ok_sales; [done|apply H2].
  - by destruct x.
  - apply shop_evolves_sales.
Qed.

(** * Transactions *)

#[export] Instance shop_evolve_preorder : PreOrder (fun d d' => sales_evolves (shop_view d) (shop_view d') /\ shop_evolves (own d) (own d')).
Proof. split; [by intros d|]. intros d1 d2 d3 [A B] [A' B']. split; by etrans. Qed.
Lemma shop_step_trans d1 d2 d3 : shop_step d1 d2 -> (shop_state d2 -> shop_step d2 d3) -> shop_step d1 d3.
Proof. intros (H1 & E1 & F1) H. destruct (H H1) as (H2 & E2 & F2). split; [done|]. split; by etrans. Qed.
Lemma shop_step_refl d : shop_state d -> shop_step d d.
Proof. by split. Qed.

Definition shop_safe {A} (m : HM A) : Prop := forall d a d', shop_state d -> m d = Ok (a, d') -> shop_step d d'.

Section transactions.
Context (cuid uuid : nat -> string) (hash fold : string -> string) (collate : string -> string -> Z).

Lemma safe_mutation now customerId key c : shop_safe (mutation_tx cuid hash collate now customerId key c).
Proof. intros d a d' Hs H. apply mutation_tx_step in H as (Q & Ho & _); [|apply Hs]. by apply only_step. Qed.
Lemma safe_apply_coupon now customerId code userId requestId : shop_safe (apply_coupon_tx fold collate now customerId code userId requestId).
Proof.
  intros d a d' Hs H. apply apply_coupon_step in H as (Q & cart & rows & Hc & _ & _ & _ & E); [|apply Hs]. apply only_step; [done|done|].
  rewrite E. apply coupon_only. by apply cart_of_iff in Hc as [Hc _]; [|apply Hs].
Qed.
Lemma safe_remove_coupon customerId userId requestId : shop_safe (remove_coupon_tx customerId userId requestId).
Proof.
  intros d a d' Hs H. apply remove_coupon_step in H as [Q H]; [|apply Hs]. apply only_step; [done|done|].
  destruct (cart_of customerId (own d)) as [cart|] eqn:Hc; [|by rewrite H]. destruct (coupon_intents (own d) !! cart_id cart); [|by rewrite H].
  rewrite H. apply uncoupon_only. by apply cart_of_iff in Hc as [Hc _]; [|apply Hs].
Qed.
Lemma safe_preview now customerId address : shop_safe (preview_tx cuid hash fold collate now customerId address).
Proof. intros d a d' Hs H. apply preview_tx_step in H as (Q & Ho & _). by apply only_step. Qed.
Lemma safe_checkout_tx now c : shop_safe (checkout_tx cuid uuid hash fold collate now c).
Proof. intros d a d' Hs H. by eapply safe_checkout. Qed.
End transactions.

(** * Among other clients *)

Definition shop_rely (E : env Shop) : Prop := forall k s, shop_state s -> shop_step s (others E k s).
Lemma shop_drift E k n s : shop_rely E -> shop_state s -> shop_step s (drift E k n s).
Proof.
  intros HE. revert k s. induction n as [|n IH]; intros k s Hs; simpl; [by apply shop_step_refl|].
  eapply shop_step_trans; [by apply HE|]. intros H. by apply IH.
Qed.

Definition shop_unlocked (d : Shop) : Shop := mkDomain (set_locks [] (inv_of d)) (own d).
Lemma begin_shop_run {A} (m : HM A) d : begin_shop m d = m (shop_unlocked d).
Proof. unfold begin_shop. by erewrite bind_run by reflexivity. Qed.

(** A command committed once, on a state that the other clients left, or nothing of it
    remains. *)
Definition shop_ran {A} (E : env Shop) (m : HM A) s (out : result A * Shop) : Prop :=
  shop_step s (snd out) /\
  match fst out with
  | Ok a => exists n, m (shop_unlocked (drift E 1 n s)) = Ok (a, snd out)
  | Err _ => exists n, snd out = drift E 1 n s
  end.

Lemma shop_retry {A} E retryable exhausted n (m : HM A) s : shop_rely E -> shop_safe m -> shop_state s -> (1 <= n)%nat ->
  shop_ran E m s (retry_loop E retryable exhausted (begin_shop m) n 1 s).
Proof.
  intros HE Hm Hs Hn. destruct (retry_loop_spec E retryable exhausted (begin_shop m) n 1%nat s Hn) as (j & _ & Hout). unfold shop_ran.
  destruct (retry_loop _ _ _ _ _ _ _) as [[a|e] s']; cbn [fst snd].
  - destruct Hout as [_ Hout]. rewrite begin_shop_run in Hout. split; [|by exists (S j)].
    eapply shop_step_trans; [by apply (shop_drift E 1 (S j))|]. intros Hd. exact (Hm (shop_unlocked _) a s' Hd Hout).
  - subst s'. split; [by apply shop_drift|by exists (S j)].
Qed.
Lemma shop_once {A} E (m : HM A) s : shop_safe m -> shop_state s -> shop_ran E m s (transaction (begin_shop m) s).
Proof.
  intros Hm Hs. unfold transaction, shop_ran. rewrite begin_shop_run. destruct (m (shop_unlocked s)) as [[a s']|e] eqn:H; cbn [fst snd].
  - split; [exact (Hm (shop_unlocked s) a s' Hs H)|by exists 0%nat].
  - split; [by apply shop_step_refl|by exists 0%nat].
Qed.
Lemma shop_refused {A} E (m : HM A) s e : shop_state s -> shop_ran E m s (Err e, s).
Proof. intros Hs. split; [by apply shop_step_refl|by exists 0%nat]. Qed.
