(* ===== verification/StaffOrderProofs.v ===== *)
(** What an order entered by staff leaves: its lines at the prices of the catalog, its stock,
    its record, and that the transaction keeps the invariants of sales and shop. *)

From S2P Require Import Prelude StateMachine Retry PromotionEngine Table Paging Json StableJson CheckoutAddress.
From S2P Require Import AuditTrail InventoryModel Inventory Durable PromotionClaims Credit CreditCommands CreditSales Sales.
From S2P Require Import Shop Carts Checkout StaffOrders InventoryLedger InventoryProofs DurableSafety CreditBooks CreditRuns CreditSaleProofs.
From S2P Require Import PromotionCapacity SalesBooks SalesSafety ShopBooks PlacingProofs CheckoutProofs ShopSafety.

Section staff.
Context (cuid uuid : nat -> string) (hash : string -> string) (collate : string -> string -> Z).
Implicit Types (d : Shop) (t : ShopTables).

(** * Prices *)

Lemma quoteLinesIn_step requested d lines d' : quoteLinesIn requested d = Ok (lines, d') ->
  d' = d /\ Forall2 (fun r l => quote_line (own d) r = Ok l) requested lines.
Proof.
  intros H. unfold quoteLinesIn in H. run_inv. match goal with H : map_each _ _ _ = _ |- _ => rename H into Hm end.
  revert lines Hm. generalize (own d). intros t. revert d. induction requested as [|r rs IH]; intros d lines Hm; simpl in Hm; run_inv; [by split|].
  destruct (quote_line t r) as [l|e] eqn:E; [|done]. simplify_eq.
  match goal with H : map_each _ _ _ = _ |- _ => apply IH in H as [-> F] end. split; [done|]. by constructor.
Qed.
Lemma quote_line_spec t r l : quote_line t r = Ok l ->
  os_quantity l = r.2 /\ os_lineTotal l = (os_unitPrice l * r.2)%Z /\ (0 <= os_unitPrice l)%Z /\
  exists v p, catalog t !! r.1 = Some v /\ products t !! va_productId v = Some p /\ sellable_row v p = true /\
    os_unitPrice l = va_salePrice v /\ os_variantId l = va_id v.
Proof.
  destruct r as [v q]. unfold quote_line. destruct (catalog t !! v) as [w|] eqn:Hv; [|done]. destruct (products t !! va_productId w) as [p|] eqn:Hp; [|done].
  destruct (sellable_row w p) eqn:Hs; [|done]. destruct (va_salePrice w <? 0)%Z eqn:Hz; [done|]. intros [= <-]. cbn. apply Z.ltb_ge in Hz.
  split_and!; [done|done|done|]. by exists w, p.
Qed.
Lemma staff_lines_step p d lines d' : staff_lines p d = Ok (lines, d') ->
  d' = d /\ (exists customer, customers (credit (sales (own d))) !! sp_customerId p = Some customer /\ cu_status customer = CUSTOMER_ACTIVE) /\
  Forall2 (fun r l => quote_line (own d) r = Ok l) (sp_lines p) lines.
Proof.
  intros H. unfold staff_lines in H. run_inv. match goal with H : quoteLinesIn _ _ = _ |- _ => apply quoteLinesIn_step in H as [-> F] end.
  match goal with H : negb _ = false |- _ => apply negb_false_iff, bool_decide_eq_true in H end. split; [done|]. split; [by eexists|done].
Qed.

(** * The order *)

(** The tables after the order: the steps in their order. *)
Definition opened_tables (id : string) (o : CreditOrder) (sheet : OrderSheet) (row : Transition OrderStatus) (event : OutboxEvent) t : ShopTables :=
  let t1 := insert_order id o sheet t in
  let s := set_credit (put (moved_to id PENDING_PAYMENT row (order_status (credit (sales t1)))) (credit (sales t1))) (sales t1) in
  set_sales (set_outbox (<[ob_id event := event]> (outbox s)) s) t1.
Definition staff_tables (id : string) (o : CreditOrder) (sheet : OrderSheet) (row : Transition OrderStatus) (event : OutboxEvent) (r : StaffRecord) t : ShopTables :=
  set_staff_records (<[sr_id r := r]> (staff_records t)) (link_record (sr_id r) id o (opened_tables id o sheet row event t)).

Definition staff_placed (now : Z) (c : StaffCommand) (lines : list OrderLineSnapshot) (id : string) (n : NewOrder) (rs : list StockReservation)
    (itemIds : list string) (row : Transition OrderStatus) (event : OutboxEvent) d d' : Prop :=
  (exists number, n = staff_order now (fc_payload c) number lines) /\ order_check n = true /\
  find_order id (sales (own d)) = None /\ order_state id (sales (own d)) = None /\ NoDup itemIds /\ length itemIds = length lines /\
  own d' = opened_tables id (new_order id itemIds n) (no_sheet n) row event (own d) /\
  transition_row id DRAFT PENDING_PAYMENT (meta_of (Some (fc_actorId c)) (Some (fc_requestId c)) "STAFF_ORDER_CREATED") row /\
  outbox (sales (own d)) !! ob_id event = None /\ ob_topic event = "ORDER_CREATED" /\ ob_aggregateId event = id /\
  exists db1 db2, same_stock (inv_of d) db1 /\ same_stock db2 (inv_of d') /\
    lines_filled collate (staff_placement hash now (hash (fc_idempotencyKey c)) id (fc_actorId c) (fc_requestId c)) db1 lines rs db2.

Lemma place_staff_step now c lines d id n rs d' : inv (inv_of d) -> place_staff_order cuid uuid hash collate now c lines d = Ok ((id, n, rs), d') ->
  exists itemIds row event, staff_placed now c lines id n rs itemIds row event d d'.
Proof.
  intros Hinv H. unfold place_staff_order in H. run_inv.
  match goal with H : on_inv (fresh_id uuid) _ = _ |- _ => apply fresh_step in H as [E0 Q0] end.
  match goal with H : create_order _ _ _ = _ |- _ => apply create_order_step in H as (Q1 & itemIds & L & Hnd & Hf & Hs & Hck & _ & E1) end.
  match goal with H : on_sales (move_order _ _ _ _ _) _ = _ |- _ => apply on_sales_step in H as (moved & H & ->) end.
  match goal with H : move_order _ _ _ _ _ _ = _ |- _ => apply move_order_step in H as (Q3 & _ & _ & Hrow & E3) end.
  match goal with H : on_inv (reserve_lines _ _ _ _) _ = _ |- _ => apply on_inv_ok in H as (stocked & H & ->) end.
  match goal with H : reserve_lines _ _ _ _ _ = _ |- _ => apply reserve_lines_ok in H as Hfill end; cbn [inv_of own] in *.
  2: { eapply inv_same_stock; [exact Hinv|]. etrans; [exact Q0|]. etrans; [exact Q1|exact Q3]. }
  2: { eapply Forall_impl; [exact (order_check_quantities _ Hck)|]. intros l Hl. simpl in Hl. lia. }
  match goal with H : on_sales (create_outbox _ _ _ _ _ _) _ = _ |- _ => apply on_sales_step in H as (told & H & ->) end.
  match goal with H : create_outbox _ _ _ _ _ _ _ = _ |- _ => apply outbox_step in H as (Q5 & eid & O1 & _ & E5) end.
  cbn [inv_of own] in *. unfold shop_view in *. rewrite E3, E1, E0 in *. clear E0 E1 E3. cbn [inv_of own] in *. rewrite E5 in *. clear E5.
  eexists itemIds, _, (mkOutboxEvent eid "ORDER_CREATED" "order" _ _ _).
  split_and!; [by eexists|exact Hck|exact Hf|exact Hs|exact Hnd|exact L|reflexivity|exact Hrow|exact O1|done|done|].
  exists (inv_of moved), stocked. split; [etrans; [exact Q0|]; etrans; [exact Q1|exact Q3]|]. by split.
Qed.

Lemma create_staff_record_step actorId keyHash payloadHash orderId response d u d' :
  create_staff_record cuid actorId keyHash payloadHash orderId response d = Ok (u, d') ->
  undisturbed d d' /\ exists id o, staff_records (own d) !! id = None /\ find_staff actorId keyHash (own d) = None /\
    find_order orderId (sales (own d)) = Some o /\
    own d' = set_staff_records (<[id := mkStaffRecord id actorId keyHash payloadHash (Some orderId) (Some response)]> (staff_records (own d)))
      (link_record id orderId o (own d)).
Proof.
  intros H. unfold create_staff_record in H. run_inv. match goal with H : on_inv _ _ = _ |- _ => apply fresh_step in H as [E1 Q1] end. run_domain.
  repeat match goal with H : bool_decide (is_Some _) = false |- _ => apply bool_decide_eq_false, eq_None_not_Some in H end.
  rewrite E1 in *. split; [exact Q1|]. by do 2 eexists.
Qed.

(** The summary of a new order. *)
Definition new_summary (id : string) (n : NewOrder) (summary : AdminOrderSummary) : Prop :=
  su_id summary = id /\ su_number summary = no_number n /\ su_status summary = PENDING_PAYMENT /\ su_attemptCount summary = 0%Z /\
  su_itemCount summary = Z.of_nat (length (sheet_lines (no_sheet n))) /\ su_subtotal summary = sheet_subtotal (no_sheet n) /\
  su_discount summary = no_discount n /\ su_shipping summary = no_shipping n /\ su_total summary = no_grandTotal n /\
  su_reservationExpiresAt summary = no_reservationExpiresAt n /\ su_customerId summary = no_customerId n /\ su_version summary = 0%Z.

Lemma opened_summary id itemIds n row event t summary : length itemIds = length (sheet_lines (no_sheet n)) ->
  let t' := opened_tables id (new_order id itemIds n) (no_sheet n) row event t in
  order_summary collate id (sales t') (order_sheets t') = Some summary -> new_summary id n summary.
Proof.
  intros HL t' H. unfold order_summary in H.
  assert (E1 : find_order id (sales t') = Some (new_order id itemIds n)) by (unfold find_order, t'; cbn; by rewrite lookup_insert_eq).
  assert (E2 : order_state id (sales t') = Some PENDING_PAYMENT) by (unfold order_state, t'; cbn; by rewrite lookup_insert_eq).
  assert (E3 : order_sheets t' !! id = Some (no_sheet n)) by (unfold t'; cbn; by rewrite lookup_insert_eq).
  rewrite E1, E2, E3 in H. cbn in H. injection H as <-. unfold new_summary. cbn. rewrite length_zip_with, HL, Nat.min_id. by split_and!.
Qed.

(** A record of the key answers; otherwise the lines become an order. *)
Definition staff_replayed (c : StaffCommand) (a : StaffOrderResponse) d d' : Prop :=
  exists k r stored orderId, staff_records (own d) !! k = Some r /\ same_staff_key (fc_actorId c) (hash (fc_idempotencyKey c)) r = true /\
    sr_payloadHash r = staff_print hash c /\ sr_response r = Some stored /\ sr_orderId r = Some orderId /\
    a = mkStaffOrder (st_order stored) true (st_reservations stored) /\ d' = d.
Definition staff_made (now : Z) (c : StaffCommand) (lines : list OrderLineSnapshot) (id : string) (n : NewOrder) (rs : list StockReservation)
    (itemIds : list string) (row : Transition OrderStatus) (event : OutboxEvent) (k : string) (a : StaffOrderResponse) d d' : Prop :=
  (exists customer, customers (credit (sales (own d))) !! sp_customerId (fc_payload c) = Some customer /\ cu_status customer = CUSTOMER_ACTIVE) /\
  Forall2 (fun r l => quote_line (own d) r = Ok l) (sp_lines (fc_payload c)) lines /\
  (exists d1, staff_placed now c lines id n rs itemIds row event d d1 /\ undisturbed d1 d') /\
  new_summary id n (st_order a) /\ st_replayed a = false /\ st_reservations a = reservation_view <$> rs /\
  find_staff (fc_actorId c) (hash (fc_idempotencyKey c)) (own d) = None /\ staff_records (own d) !! k = None /\
  own d' = staff_tables id (new_order id itemIds n) (no_sheet n) row event
    (mkStaffRecord k (fc_actorId c) (hash (fc_idempotencyKey c)) (staff_print hash c) (Some id) (Some a)) (own d).

Lemma staff_tx_step now c d a d' : inv (inv_of d) -> staff_tx cuid uuid hash collate now c d = Ok (a, d') ->
  staff_replayed c a d d' \/ exists lines id n rs itemIds row event k, staff_made now c lines id n rs itemIds row event k a d d'.
Proof.
  intros Hinv H. unfold staff_tx in H. run_inv. destruct (find_staff _ _ _) as [prior|] eqn:Hf.
  - run_inv. match goal with H : negb _ = false |- _ => apply negb_false_iff, bool_decide_eq_true in H as Hfp end.
    destruct (sr_response prior) as [stored|] eqn:Hr; [|by run_inv]. destruct (sr_orderId prior) as [orderId|] eqn:Ho; [|by run_inv].
    destruct (truthy orderId); run_inv. apply find_by_Some in Hf as [[k Hk] Hs]. left. exists k, prior, stored, orderId. by split_and!.
  - run_inv. match goal with H : staff_lines _ _ = _ |- _ => apply staff_lines_step in H as (-> & Hcust & F) end. rename x into lines.
    destruct x0 as [[id n] rs]. run_inv. match goal with H : place_staff_order _ _ _ _ _ _ _ _ = _ |- _ => apply place_staff_step in H as (itemIds & row & event & Hp); [|done] end.
    match goal with H : create_staff_record _ _ _ _ _ _ _ = _ |- _ => apply create_staff_record_step in H as (Q3 & k & o & Hk & Hn & Ho & E3) end.
    match goal with H : record _ _ = _ |- _ => apply shop_audit_step in H as [E4 Q4] end.
    right. exists lines, id, n, rs, itemIds, row, event, k.
    pose proof Hp as ((number & En) & _ & _ & _ & _ & HL & E1 & _).
    assert (HL' : length itemIds = length (sheet_lines (no_sheet n))) by (by rewrite En).
    split_and!; [done|done| | |done|done|done| |].
    + eexists. split; [exact Hp|]. by etrans.
    + eapply opened_summary; [exact HL'|]. rewrite E1 in *. eassumption.
    + rewrite E1 in Hk. exact Hk.
    + rewrite E4, E3. rewrite E1 in *. unfold find_order in Ho. cbn in Ho. rewrite lookup_insert_eq in Ho. injection Ho as <-. done.
Qed.

(** * Safety *)

Lemma staff_core id o sheet row event r t :
  core_of (sales (staff_tables id o sheet row event r t)) = core_new id (with_staff_record (sr_id r) o) PENDING_PAYMENT (core_of (sales t)).
Proof. unfold staff_tables, link_record, opened_tables, insert_order, core_of, core_new. simpl. by rewrite !insert_insert_eq. Qed.

Lemma staff_sale_step now c lines id n rs itemIds row event k a d d' : sale_state (shop_view d) ->
  staff_made now c lines id n rs itemIds row event k a d d' -> sale_step (shop_view d) (shop_view d').
Proof.
  intros [Hinv (Hc & Hp & Hb & Hd)] (_ & _ & (d1 & (_ & _ & Hf & Hs & _ & _ & _ & _ & _ & _ & _ & db1 & db2 & Q1 & Q2 & Hfill) & Q3) & _ & _ & _ & _ & _ & E).
  cbn [shop_view inv_of own] in *. apply same_stock_refines in Q1 as (I1 & V1 & _); [|done].
  destruct (lines_filled_placed _ _ _ _ _ _ I1 Hfill) as ((I2 & V2 & _) & _). apply same_stock_refines in Q2 as (I3 & V3 & _); [|done].
  apply same_stock_refines in Q3 as (I4 & V4 & _); [|done].
  split; [split; [done|]|split; [etrans; [exact V1|]; etrans; [exact V2|]; etrans; [exact V3|exact V4]|]]; cbn [shop_view inv_of own]; rewrite E.
  - split; [rewrite staff_core; by apply capture_order_new|]. split; [exact Hp|]. split; [|exact Hd].
    eapply same_books_ok; [exact Hb|by split].
  - rewrite staff_core. by apply evolves_order_new.
Qed.

Lemma staff_fits now p number lines itemIds id k : let n := staff_order now p number lines in
  length itemIds = length lines -> order_check n = true -> sheet_fits (with_staff_record k (new_order id itemIds n)) (no_sheet n).
Proof.
  intros n HL Hn. unfold order_check in Hn. cbn in Hn. repeat match goal with H : (_ && _)%bool = true |- _ => apply andb_prop in H as [? ?] end.
  unfold sheet_fits. cbn. unfold PICKUP_AMOUNT. split; [done|]. split; [lia|]. split; [lia|]. split.
  - clear -HL. revert itemIds HL. induction lines as [|l lines IH]; intros [|i itemIds] HL; simplify_eq/=; [done|]. f_equal. by apply IH.
  - apply Forall_forall. intros l Hl%list_elem_of_In. match goal with H : forallb _ _ = true |- _ => rewrite forallb_forall in H; specialize (H l Hl) end.
    repeat match goal with H : (_ && _)%bool = true |- _ => apply andb_prop in H as [? ?] end. lia.
Qed.

(** An order and a record more. *)
Lemma staff_tables_ok id o sheet row event r t : shop_ok t -> find_order id (sales t) = None ->
  sheet_fits (with_staff_record (sr_id r) o) sheet -> staff_records t !! sr_id r = None -> find_staff (sr_actorId r) (sr_keyHash r) t = None ->
  shop_ok (staff_tables id o sheet row event r t) /\ shop_evolves t (staff_tables id o sheet row event r t).
Proof.
  intros Hok Hfree Hfits Hk Hkey. assert (Hok' := Hok). destruct Hok' as [A B C D M [E1 E2 E3] F [G1 G2 G3] [K1 K2]].
  set (t' := staff_tables id o sheet row event r t).
  assert (Eo : orders (credit (sales t')) = <[id := with_staff_record (sr_id r) o]> (orders (credit (sales t)))).
  { exact (f_equal k_orders (staff_core id o sheet row event r t)). }
  assert (Es : order_sheets t' = <[id := sheet]> (order_sheets t)) by done. assert (Ek : staff_records t' = <[sr_id r := r]> (staff_records t)) by done.
  assert (Hold : forall i x, orders (credit (sales t)) !! i = Some x -> orders (credit (sales t')) !! i = Some x).
  { intros i x Hx. rewrite Eo, lookup_insert_ne; [done|]. intros <-. unfold find_order in Hfree. congruence. }
  assert (Hsheet : order_sheets t !! id = None).
  { apply eq_None_not_Some. intros [s Hs]. destruct (F _ _ Hs) as (y & Hy & _). unfold find_order in Hfree. congruence. }
  split; split; try done.
  - split; [done| |done]. intros i q Hq. destruct (E2 _ _ Hq) as [H1 H2]. split; [done|]. intros oid Hoid. destruct (H2 _ Hoid) as [x Hx].
    exists x. by apply Hold.
  - rewrite Eo, Es. by eapply sheets_ok_new.
  - split; [done|done|]. intros i x Hx. destruct (G3 _ _ Hx) as (a & H1 & H2 & (y & s & Hy & Hs & H3) & H4). exists a. split; [done|]. split; [done|].
    split; [|done]. exists y, s. split; [by apply Hold|]. split; [|done]. rewrite Es, lookup_insert_ne; [done|]. intros Ei. congruence.
  - assert (Hnew : forall i x, staff_records t !! i = Some x -> sr_actorId x = sr_actorId r -> sr_keyHash x = sr_keyHash r -> False).
    { intros i x Hx X1 X2. unfold find_staff in Hkey. rewrite find_by_None in Hkey. specialize (Hkey _ _ Hx). unfold same_staff_key in Hkey.
      by rewrite X1, X2, !bool_decide_true in Hkey. }
    rewrite Ek. split.
    + intros i x [[<- <-]|[Hne Hx]]%lookup_insert_Some; [done|by apply K1].
    + intros i1 i2 x1 x2 [[<- <-]|[N1 H1]]%lookup_insert_Some [[<- <-]|[N2 H2]]%lookup_insert_Some X1 X2; [done|..].
      * by destruct (Hnew _ _ H2).
      * by destruct (Hnew _ _ H1).
      * by eapply K2.
  - by apply same_cart_evolves.
  - rewrite Es. by apply insert_subseteq.
  - rewrite Ek. by apply insert_subseteq.
Qed.

Lemma safe_staff_tx now c : shop_safe (staff_tx cuid uuid hash collate now c).
Proof.
  intros d a d' Hs H. pose proof Hs as [[Hinv _] Hok]. apply staff_tx_step in H as [(k & r & stored & orderId & _ & _ & _ & _ & _ & _ & ->)|H]; [| |done].
  - by apply shop_step_refl.
  - destruct H as (lines & id & n & rs & itemIds & row & event & k & H). destruct (staff_sale_step _ _ _ _ _ _ _ _ _ _ _ _ _ (proj1 Hs) H) as [S1 S2].
    destruct H as (_ & _ & (d1 & ((number & En) & Hck & Hf & _ & _ & HL & _) & _) & _ & _ & _ & Hkey & Hk & E).
    destruct (staff_tables_ok id (new_order id itemIds n) (no_sheet n) row event
      (mkStaffRecord k (fc_actorId c) (hash (fc_idempotencyKey c)) (staff_print hash c) (Some id) (Some a)) (own d) Hok Hf) as [K1 K2]; [|done|done|].
    + rewrite En in Hck |- *. by apply staff_fits.
    + rewrite <- E in K1, K2. by split.
Qed.

(** * What the order is *)

(** The lines are the requested ones at the prices of the catalog; what is reserved is what is
    ordered; the order waits for payment of the sum of its lines, its one record makes it a
    staff order, and nothing else of the shop changed. *)
Record entered (now : Z) (c : StaffCommand) (lines : list OrderLineSnapshot) (id : string) (rs : list StockReservation) (k : string)
    (a : StaffOrderResponse) d d' : Prop := mkEntered {
  en_customer : exists customer, customers (credit (sales (own d))) !! sp_customerId (fc_payload c) = Some customer /\ cu_status customer = CUSTOMER_ACTIVE;
  en_lines : Forall2 (fun r l => os_quantity l = r.2 /\ os_lineTotal l = (os_unitPrice l * r.2)%Z /\ (0 <= os_unitPrice l)%Z /\
    exists v p, catalog (own d) !! r.1 = Some v /\ products (own d) !! va_productId v = Some p /\ sellable_row v p = true /\
      os_unitPrice l = va_salePrice v /\ os_variantId l = va_id v) (sp_lines (fc_payload c)) lines;
  en_stock : placed (staff_placement hash now (hash (fc_idempotencyKey c)) id (fc_actorId c) (fc_requestId c)) rs (inv_of d) (inv_of d');
  en_reserved : forall v, sumZ (fun x => if bool_decide (variantId (r_key x) = v) then r_quantity x else 0%Z) rs = ordered_of v lines;
  en_new : find_order id (sales (own d)) = None;
  en_status : order_state id (sales (own d')) = Some PENDING_PAYMENT;
  en_order : exists o, find_order id (sales (own d')) = Some o /\ or_customerId o = sp_customerId (fc_payload c) /\
    (item_of <$> or_items o) = (line_of <$> lines) /\ or_grandTotal o = sumZ os_lineTotal lines /\ or_discount o = 0%Z /\ or_shipping o = 0%Z /\
    or_reservationExpiresAt o = (now + 900000)%Z /\ or_payments o = [] /\ or_staffCommandRecords o = [k];
  en_answer : su_id (st_order a) = id /\ su_status (st_order a) = PENDING_PAYMENT /\ su_total (st_order a) = sumZ os_lineTotal lines /\
    st_replayed a = false /\ st_reservations a = reservation_view <$> rs;
  en_record : staff_records (own d') = <[k := mkStaffRecord k (fc_actorId c) (hash (fc_idempotencyKey c)) (staff_print hash c) (Some id) (Some a)]> (staff_records (own d));
  en_frame : carts (own d') = carts (own d) /\ cart_items (own d') = cart_items (own d) /\ coupon_intents (own d') = coupon_intents (own d) /\
    quotes (own d') = quotes (own d) /\ promo (sales (own d')) = promo (sales (own d)) /\ payments (sales (own d')) = payments (sales (own d))
}.

Lemma staff_made_entered now c lines id n rs itemIds row event k a d d' : inv (inv_of d) ->
  staff_made now c lines id n rs itemIds row event k a d d' -> entered now c lines id rs k a d d'.
Proof.
  intros Hinv (Hcust & F & (d1 & ((number & En) & Hck & Hf & _ & _ & HL & _ & _ & _ & _ & _ & db1 & db2 & Q1 & Q2 & Hfill) & Q3) & Hsum & Hrep & Hres & _ & _ & E).
  assert (Hinv1 : inv db1) by (eapply inv_same_stock; [exact Hinv|exact Q1]).
  assert (Eo : find_order id (sales (own d')) = Some (with_staff_record k (new_order id itemIds n))) by (rewrite E; unfold find_order; cbn; by rewrite lookup_insert_eq).
  destruct (staff_fits now (fc_payload c) number lines itemIds id k HL) as (_ & _ & _ & Hitems & _); [by rewrite <- En|]. rewrite <- En in Hitems.
  split; try done.
  - eapply Forall2_impl; [exact F|]. intros r l. apply quote_line_spec.
  - eapply PlacingProofs.placed_frame; [exact Hinv|exact Q1| |etrans; [exact Q2|exact Q3]]. by eapply lines_filled_placed.
  - intros v. by eapply lines_filled_sum.
  - rewrite E. unfold order_state. cbn. by rewrite lookup_insert_eq.
  - exists (with_staff_record k (new_order id itemIds n)). rewrite En in Hitems |- *. rewrite En in Eo. by split_and!.
  - destruct Hsum as (S1 & _ & S3 & _ & _ & _ & _ & _ & S9 & _). rewrite En in S9. by split_and!.
  - by rewrite E.
  - rewrite E. by split_and!.
Qed.

(** A record answers every later command with its key. *)
Lemma staff_record_answers now c d k r a orderId : staff_ok (staff_records (own d)) -> staff_records (own d) !! k = Some r ->
  same_staff_key (fc_actorId c) (hash (fc_idempotencyKey c)) r = true -> sr_response r = Some a -> sr_orderId r = Some orderId -> orderId <> EmptyString ->
  staff_tx cuid uuid hash collate now c d =
    if bool_decide (staff_print hash c = sr_payloadHash r) then Ok (mkStaffOrder (st_order a) true (st_reservations a), d) else Err payload_conflict.
Proof.
  intros [K1 K2] Hk Hsame Ha Ho Hne. unfold staff_tx. erewrite bind_run by reflexivity. cbv beta.
  assert (Hf : find_staff (fc_actorId c) (hash (fc_idempotencyKey c)) (own d) = Some r).
  { unfold find_staff. eapply (find_by_unique _ _ k); [| |exact Hsame]; [|done]. intros k1 k2 r1 r2 H1 H2 S1 S2. unfold same_staff_key in S1, S2.
    apply andb_prop in S1 as [A1%bool_decide_eq_true B1%bool_decide_eq_true], S2 as [A2%bool_decide_eq_true B2%bool_decide_eq_true].
    eapply K2; [exact H1|exact H2|congruence|congruence]. }
  rewrite Hf. destruct (decide (staff_print hash c = sr_payloadHash r)) as [Ep|Ep].
  - rewrite (bool_decide_true (sr_payloadHash r = staff_print hash c)), bool_decide_true by done. erewrite bind_run by reflexivity. rewrite Ha, Ho.
    unfold truthy. by rewrite bool_decide_false.
  - rewrite (bool_decide_false (sr_payloadHash r = staff_print hash c)), bool_decide_false by congruence. by apply bind_err.
Qed.
End staff.
