(* ===== verification/ShopProperties.v ===== *)
(** The properties of the shop: carts, coupons, quotes and checkouts, with the commands on
    the orders that come out of them. *)

From S2P Require Import Prelude Table Paging Json StableJson CheckoutAddress AuditTrail Retry InventoryModel Inventory.
From S2P Require Import InventoryLedger InventoryProofs InventoryProperties Durable DurableSafety StateMachine.
From S2P Require Import PromotionEngine PromotionClaims PromotionCapacity PromotionProperties Credit CreditCommands CreditSales CreditBooks CreditRuns CreditSaleProofs.
From S2P Require Import CreditProperties Sales OrderCommands Fulfilling Payments SalesBooks SalesSafety SalesProperties.
From S2P Require Import Shop Carts Checkout StaffOrders ShopBooks CartProofs PlacingProofs CheckoutProofs ShopSafety StaffOrderProofs.

(** * Commands *)

Inductive ShopCommand :=
  | AddToCart (userId variantId : string) (quantity : number) (key : string)
  | SetInCart (userId variantId : string) (quantity : number) (key : string)
  | RemoveFromCart (userId variantId key : string)
  | ApplyCoupon (reply : option number) (userId rawCode requestId : string)
  | RemoveCoupon (userId requestId : string)
  | PreviewCheckout (userId : string) (address : CheckoutAddress)
  | CheckOut (userId : string) (address : CheckoutAddress) (quoteId key requestId : string)
  | EnterOrder (actorId : string) (input : StaffOrderInput) (key requestId : string)
  | OnOrders (cl : Clients) (later : Z) (cmd : SaleCommand).
Inductive ShopAnswer := R_cart (r : CartResponse) | R_preview (v : CheckoutPreview) | R_checkout (r : CheckoutResponse)
  | R_staff (r : StaffOrderResponse) | R_sale (r : SaleAnswer).
Definition shop_answer {A} (f : A -> ShopAnswer) (out : result A * Shop) : result ShopAnswer * Shop :=
  (match fst out with Ok a => Ok (f a) | Err e => Err e end, snd out).

Section shop.
Context (cuid uuid : nat -> string) (hash fold : string -> string) (collate : string -> string -> Z) (nfkc upper : utext -> utext).
Context (gateway : PaymentGatewayConfig) (provider : PaymentProvider).
Implicit Types (d s : Shop).

Definition run_shop (E : env Shop) (now : Z) (cmd : ShopCommand) (s : Shop) : result ShopAnswer * Shop :=
  match cmd with
  | AddToCart u v q k => shop_answer R_cart (addForUser cuid hash collate E now u v q k s)
  | SetInCart u v q k => shop_answer R_cart (setForUser cuid hash collate E now u v q k s)
  | RemoveFromCart u v k => shop_answer R_cart (removeForUser cuid hash collate E now u v k s)
  | ApplyCoupon reply u code r => shop_answer R_cart (Carts.apply fold collate now reply u code r s)
  | RemoveCoupon u r => shop_answer R_cart (Carts.remove fold collate now u r s)
  | PreviewCheckout u a => shop_answer R_preview (previewForUser cuid hash fold collate nfkc upper now u a s)
  | CheckOut u a q k r => shop_answer R_checkout (createForUser cuid uuid hash fold collate nfkc upper E now u a q k r s)
  | EnterOrder actor input k r => shop_answer R_staff (StaffOrders.create cuid uuid hash collate nfkc upper E now actor r k input s)
  | OnOrders cl later cmd =>
      let out := run_sale cuid hash gateway provider collate cl now later cmd (shop_view s) in
      (match fst out with Ok a => Ok (R_sale a) | Err e => Err e end, with_sales (snd out) s)
  end.
Definition command_rely (cmd : ShopCommand) : Prop := match cmd with OnOrders cl _ _ => clients_rely cl | _ => True end.
(** The commands whose errors leave nothing; a coupon is kept when the view that follows it
    fails, and the commands on orders have several transactions. *)
Definition one_transaction (cmd : ShopCommand) : bool :=
  match cmd with ApplyCoupon _ _ _ _ | RemoveCoupon _ _ | OnOrders _ _ _ => false | _ => true end.

Lemma run_mutation_ran E now userId key checked s : shop_rely E -> shop_state s ->
  shop_step s (snd (run_mutation cuid hash collate E now userId key checked s)) /\
  forall e, fst (run_mutation cuid hash collate E now userId key checked s) = Err e -> exists n, snd (run_mutation cuid hash collate E now userId key checked s) = drift E 1 n s.
Proof.
  intros HE Hs. unfold run_mutation. destruct (c ← checked; _) as [[[c k] customerId]|e]; cbn [fst snd].
  - destruct (shop_retry E isRetryableContention cart_conflict (Z.to_nat CART_SERIALIZABLE_RETRIES) (mutation_tx cuid hash collate now customerId k c) s HE) as [H1 H2];
      [apply safe_mutation|done|unfold CART_SERIALIZABLE_RETRIES; lia|].
    unfold runCartSerializable. split; [exact H1|]. intros e He. by rewrite He in H2.
  - split; [by apply shop_step_refl|]. intros e' _. by exists 0%nat.
Qed.
Lemma createForUser_ran E now userId a q k r s : shop_rely E -> shop_state s ->
  shop_step s (snd (createForUser cuid uuid hash fold collate nfkc upper E now userId a q k r s)) /\
  forall e, fst (createForUser cuid uuid hash fold collate nfkc upper E now userId a q k r s) = Err e ->
    exists n, snd (createForUser cuid uuid hash fold collate nfkc upper E now userId a q k r s) = drift E 1 n s.
Proof.
  intros HE Hs. assert (Hno : forall e : exn, shop_step s s /\ forall e' : exn, Err (A := CheckoutResponse) e = Err e' -> exists n, s = drift E 1 n s).
  { intros e. split; [by apply shop_step_refl|]. intros e' _. by exists 0%nat. }
  unfold createForUser. destruct (normalizeCheckoutAddress _ _ _) as [address|e]; [|apply Hno]. destruct (customer_of_user _ _) as [customer|]; [|apply Hno].
  match goal with |- context [begin_shop ?m] => pose proof (shop_retry E (fun e => is_checkout_contention e || isPrismaSerializableContention e)
    (HttpException ConflictException (Some "CONFLICT") checkout_conflict) 3 m s HE) as H end.
  destruct H as [H1 H2]; [apply safe_checkout_tx|done|lia|]. unfold withSerializableRetry. change (Z.to_nat (Z.max 1 SERIALIZABLE_RETRIES)) with 3%nat.
  split; [exact H1|]. intros e He. by rewrite He in H2.
Qed.
Lemma enter_ran E now actorId requestId key input s : shop_rely E -> shop_state s ->
  shop_step s (snd (StaffOrders.create cuid uuid hash collate nfkc upper E now actorId requestId key input s)) /\
  forall e, fst (StaffOrders.create cuid uuid hash collate nfkc upper E now actorId requestId key input s) = Err e ->
    exists n, snd (StaffOrders.create cuid uuid hash collate nfkc upper E now actorId requestId key input s) = drift E 1 n s.
Proof.
  intros HE Hs. unfold StaffOrders.create. destruct (StaffOrders.validate _ _ _) as [payload|e].
  2:{ split; [by apply shop_step_refl|]. intros e' _. by exists 0%nat. }
  match goal with |- context [begin_shop ?m] => pose proof (shop_retry E (fun e => is_staff_contention e || isPrismaSerializableContention e)
    (HttpException ConflictException (Some "CONFLICT") staff_conflict) 3 m s HE) as H end.
  destruct H as [H1 H2]; [apply safe_staff_tx|done|lia|]. unfold withSerializableRetry. change (Z.to_nat (Z.max 1 SERIALIZABLE_RETRIES)) with 3%nat.
  split; [exact H1|]. intros e He. by rewrite He in H2.
Qed.
Lemma previewForUser_ran E now userId a s : shop_state s ->
  shop_step s (snd (previewForUser cuid hash fold collate nfkc upper now userId a s)) /\
  forall e, fst (previewForUser cuid hash fold collate nfkc upper now userId a s) = Err e ->
    exists n, snd (previewForUser cuid hash fold collate nfkc upper now userId a s) = drift E 1 n s.
Proof.
  intros Hs. assert (Hno : forall e : exn, shop_step s s /\ forall e' : exn, Err (A := CheckoutPreview) e = Err e' -> exists n, s = drift E 1 n s).
  { intros e. split; [by apply shop_step_refl|]. intros e' _. by exists 0%nat. }
  unfold previewForUser. destruct (normalizeCheckoutAddress _ _ _) as [address|e]; [|apply Hno]. destruct (customer_of_user _ _) as [customer|]; [|apply Hno].
  match goal with |- context [begin_shop ?m] => destruct (shop_once E m s) as [H1 H2]; [apply safe_preview|done|] end.
  split; [exact H1|]. intros e He. by rewrite He in H2.
Qed.
Lemma then_view_step now userId (m : HM unit) s : shop_safe m -> shop_state s ->
  shop_step s (snd (then_view fold collate now userId (transaction (begin_shop m) s))).
Proof.
  intros Hm Hs. destruct (shop_once (mkEnv (fun _ s => s) (fun _ => None)) m s Hm Hs) as [H _]. unfold then_view.
  destruct (transaction _ _) as [[u|e] s']; exact H.
Qed.
Lemma coupons_step now reply userId code requestId s : shop_state s ->
  shop_step s (snd (Carts.apply fold collate now reply userId code requestId s)) /\ shop_step s (snd (Carts.remove fold collate now userId requestId s)).
Proof.
  intros Hs. split.
  - unfold Carts.apply. destruct (_ ← cart_customer _ _; _) as [customerId|e]; [|by apply shop_step_refl].
    destruct (negb _); [by apply shop_step_refl|]. apply then_view_step; [apply safe_apply_coupon|done].
  - unfold Carts.remove. destruct (cart_customer _ _) as [customerId|e]; [|by apply shop_step_refl]. apply then_view_step; [apply safe_remove_coupon|done].
Qed.

Lemma run_shop_ran E now cmd s : shop_rely E -> command_rely cmd -> shop_state s ->
  shop_step s (snd (run_shop E now cmd s)) /\
  (one_transaction cmd = true -> forall e, fst (run_shop E now cmd s) = Err e -> exists n, snd (run_shop E now cmd s) = drift E 1 n s).
Proof.
  intros HE Hc Hs. assert (Herr : forall A (f : A -> ShopAnswer) out, (forall e, fst out = Err e -> exists n, snd out = drift E 1 n s) ->
    forall e, fst (shop_answer f out) = Err e -> exists n, snd (shop_answer f out) = drift E 1 n s).
  { intros A f [[a|x] s'] H e He; cbn in *; [done|]. by apply (H x). }
  destruct cmd; cbn [run_shop one_transaction].
  1-3: match goal with |- context [shop_answer R_cart ?out] => assert (Hr : shop_step s (snd out) /\ forall e, fst out = Err e -> exists n, snd out = drift E 1 n s)
    by (by apply run_mutation_ran); destruct Hr as [H1 H2] end; split; [exact H1|intros _; by apply Herr].
  - split; [apply (coupons_step now reply userId rawCode requestId s Hs)|done].
  - split; [apply (coupons_step now None userId EmptyString requestId s Hs)|done].
  - destruct (previewForUser_ran E now userId address s Hs) as [H1 H2]. split; [exact H1|intros _; by apply Herr].
  - destruct (createForUser_ran E now userId address quoteId key requestId s HE Hs) as [H1 H2]. split; [exact H1|intros _; by apply Herr].
  - destruct (enter_ran E now actorId requestId key input s HE Hs) as [H1 H2]. split; [exact H1|intros _; by apply Herr].
  - split; [|done]. cbn [snd]. apply sale_step_lifts; [done|]. apply run_sale_step; [done|apply Hs].
Qed.

(** Histories of the shop, from the start without carts, quotes and checkouts. *)
Inductive shop_history : Shop -> Prop :=
  | shop_start s : sales_history cuid hash gateway provider collate (shop_view s) -> carts (own s) = ∅ -> cart_items (own s) = ∅ ->
      coupon_intents (own s) = ∅ -> mutations (own s) = ∅ -> quotes (own s) = ∅ -> order_sheets (own s) = ∅ -> checkouts (own s) = ∅ ->
      staff_records (own s) = ∅ ->
      (forall id m, methods (own s) !! id = Some m -> sm_id m = id) -> shop_history s
  | shop_other s s' : shop_history s -> shop_step s s' -> shop_history s'
  | shop_command s E now cmd : shop_history s -> shop_rely E -> command_rely cmd -> shop_history (snd (run_shop E now cmd s)).

Lemma shop_history_ok s : shop_history s -> shop_state s.
Proof.
  induction 1 as [s Hsale H1 H2 H3 H4 H5 H6 H7 H8 Hm|s s' _ IH [H _]|s E now cmd _ IH HE Hc]; [|done|by apply run_shop_ran].
  split; [by eapply sales_history_ok|]. split; [split|split| |split|exact Hm|split| |split|split]; rewrite ?H1, ?H2, ?H3, ?H4, ?H5, ?H6, ?H7, ?H8;
    try (intros ? ? H; by rewrite lookup_empty in H); try (intros ? ? ? ? H; by rewrite lookup_empty in H);
    try (intros ? ? ? ? ? H; by rewrite lookup_empty in H).
  - intros id. by rewrite count_rows_tsum, tsum_empty.
  - intros id [x H]. by rewrite lookup_empty in H.
Qed.

(** [C1] The shop is safe.  After any history of carts, coupons, previews, checkouts and
    commands on placed orders, and of orders entered by staff, by this and other clients, every further command keeps the
    invariants of stock, sales and shop and only moves forward.  A customer has one cart of
    at most a hundred lines with 1 to 99 pieces of a variant each; while the version of a
    cart stays, so do its lines and its coupon; a quote pays the way of one order, and an
    order has one quote at most; the sheet of an order adds up and matches its lines; and a
    completed checkout answers what its order has.  A cart change, a preview, a checkout
    or an order of the staff that fails leaves nothing but what the other clients did. *)
Theorem shop_commands_safe E now cmd s : shop_history s -> shop_rely E -> command_rely cmd ->
  let out := run_shop E now cmd s in let t := own (snd out) in
  shop_step s (snd out) /\
  (one_transaction cmd = true -> forall e, fst out = Err e -> exists n, snd out = drift E 1 n s) /\
  (forall x v q, held x v t = Some q -> (1 <= q <= 99)%Z) /\
  (forall x c1 c2 k1 k2, carts t !! k1 = Some c1 -> carts t !! k2 = Some c2 -> cart_customerId c1 = Some x -> cart_customerId c2 = Some x -> k1 = k2) /\
  (forall k, (count_rows (of_cart k) (cart_items t) <= 100)%Z) /\
  (forall k1 k2 q1 q2 o, quotes t !! k1 = Some q1 -> quotes t !! k2 = Some q2 -> qu_orderId q1 = Some o -> qu_orderId q2 = Some o -> k1 = k2) /\
  (forall id sheet, order_sheets t !! id = Some sheet -> exists o, orders (credit (sales t)) !! id = Some o /\ sheet_fits o sheet) /\
  (forall k r, checkouts t !! k = Some r -> exists a, kr_response r = Some a /\ answers t r a).
Proof using All.
  intros Hs HE Hc out t. apply shop_history_ok in Hs. destruct (run_shop_ran E now cmd s HE Hc Hs) as [H1 H2]. pose proof (proj2 (proj1 H1)) as Hok.
  split; [exact H1|]. split; [exact H2|]. split; [|split; [|split; [|split; [|split]]]].
  - intros x v q Hq. apply held_iff in Hq as (k & _ & j & i & Hi & _ & _ & <-); [|exact Hok]. by destruct (ik_rows _ _ (sk_items _ Hok) _ _ Hi) as (_ & H & _).
  - intros x c1 c2 k1 k2 F1 F2 G1 G2. exact (ca_owner _ (sk_carts _ Hok) k1 k2 c1 c2 x F1 F2 G1 G2).
  - exact (ik_limit _ _ (sk_items _ Hok)).
  - exact (qk_single _ _ (sk_quotes _ Hok)).
  - exact (sk_sheets _ Hok).
  - exact (rk_answers _ (sk_records _ Hok)).
Qed.

(** * Carts *)

(** [C21] A change of a cart does what it says to the quantities and to nothing else, and once.
    A first request adds, sets or removes one variant of the customer's cart, keeps every
    other quantity of this and of other customers, leaves the stock, answers the view of the
    cart that is left, and is recorded.  A repeated request with the same key and payload
    within a day gets the recorded answer, whatever the shop became, and changes no cart. *)
Theorem cart_changes_exact now customerId key c d r d' : shop_ok (own d) -> mutation_tx cuid hash collate now customerId key c d = Ok (r, d') ->
  undisturbed d d' /\ shop_ok (own d') /\ cart_evolves (own d) (own d') /\
  ((exists m, mutations (own d) !! mu_id m = Some m /\ recorded hash customerId (change_scope c) key m /\ (now < mu_expiresAt m)%Z /\
      print_matches hash c m = true /\ r = mu_response m /\ prunes now d d') \/
   (exists cartId, cart_changed collate now customerId c (cartId, r) d d' /\
      exists m, mutations (own d') !! mu_id m = Some m /\ mu_response m = r /\ mu_expiresAt m = (now + 86400000)%Z /\
        forall d2 now', shop_ok (own d2) -> mutations (own d2) !! mu_id m = Some m -> (now' < mu_expiresAt m)%Z ->
          exists d3, mutation_tx cuid hash collate now' customerId key c d2 = Ok (r, d3) /\ prunes now' d2 d3)).
Proof.
  intros Hok H. apply mutation_tx_step in H as (Q & Ho & H); [|done]. destruct (proj2 Ho Hok) as [Hok' Hev].
  split; [done|]. split; [done|]. split; [apply Hev|]. destruct H as [H|(cartId & H1 & m & M1 & M2 & M3 & _ & M5 & M6)]; [by left|right].
  exists cartId. split; [done|]. exists m. split; [done|]. split; [done|]. split; [done|]. intros d2 now' Hok2 Hm Hl.
  cbn [snd] in M5. rewrite <- M5. by eapply mutation_replay.
Qed.

(** * Quotes *)


(** * Checkout *)

(** What the order of a checkout left. *)
Definition checked_out (now : Z) (c : CheckoutCommand) (id : string) (n : NewOrder) (rs : list StockReservation) (r : CheckoutResponse) d d' : Prop :=
  let lines := sheet_lines (no_sheet n) in
  placed (checkout_placement hash now (cq_customerId c) (hash (cq_idempotencyKey c)) id (cq_userId c) (cq_requestId c)) rs (inv_of d) (inv_of d') /\
  (forall v, sumZ (fun x => if bool_decide (variantId (r_key x) = v) then r_quantity x else 0%Z) rs = ordered_of v lines) /\
  find_order id (sales (own d)) = None /\ order_state id (sales (own d')) = Some PENDING_PAYMENT /\
  (forall v, held (cq_customerId c) v (own d') = None) /\
  co_orderId r = id /\ co_items r = lines /\ co_subtotal r = sumZ os_lineTotal lines /\
  co_total r = (co_subtotal r - co_discount r + co_shipping r)%Z /\ (0 <= co_total r)%Z /\
  co_reservationExpiresAt r = (now + 900000)%Z.

Lemma emptied_cart x cart t t' : shop_ok t -> shop_ok t' -> cart_of x t = Some cart -> (forall k, owned k x t' -> owned k x t) ->
  cart_items t' = delete_many (of_cart (cart_id cart)) (cart_items t) -> forall v, held x v t' = None.
Proof using.
  intros Hok Hok' Hc Ho Ei v. apply eq_None_not_Some. intros [q Hq]. apply held_iff in Hq as (k & Hk & j & i & Hi & E1 & _); [|done].
  apply cart_of_iff in Hc as [Hc Hx]; [|apply Hok]. destruct (Ho _ Hk) as (c' & Hc' & Hx').
  assert (k = cart_id cart) as -> by (by eapply (ca_owner _ (sk_carts _ Hok))). rewrite Ei in Hi. apply lookup_delete_many in Hi as [_ Hi].
  unfold of_cart in Hi. by rewrite E1, bool_decide_true in Hi.
Qed.

Lemma made_checked_out now c cart rows q outcome id n rs claim r d d' : shop_state d -> shop_state d' ->
  checkout_made hash fold collate now c cart rows q outcome id n rs claim r d d' -> checked_out now c id n rs r d d'.
Proof using cuid uuid.
  intros Hs Hs' (Hp & Hplaced & -> & _ & _). destruct Hp as (Hc & _).
  destruct Hplaced as (number & itemIds & p' & row & q0 & event & cart0 & En & Hck & Hf & _ & _ & HL & E & Hc0 & _ & _ & _ & _ & _ & _ & _ & _ & _ & _ & db1 & db2 & Q1 & Q2 & Hfill).
  assert (El : sheet_lines (no_sheet n) = snapshot_line <$> rows) by (by rewrite En). rewrite <- El in *. rewrite En in Hck.
  pose proof (new_order_fits id itemIds now c number (sheet_lines (no_sheet n)) q (er_totalDiscount (po_result outcome)) HL Hck) as (F1 & F2 & F3 & _).
  rewrite <- En in F1, F2, F3. cbn [own with_checkouts] in E.
  assert (Es : sales (own d') = sales (ordered_tables id (new_order id itemIds n) (no_sheet n) p' row (qu_id q) (used_quote now id q0) event (cart_id cart) cart0 (own d))).
  { by rewrite <- E. }
  assert (Ei : cart_items (own d') = delete_many (of_cart (cart_id cart)) (cart_items (own d))).
  { change (cart_items (own d')) with (cart_items (set_checkouts (checkouts (own d)) (own d'))). by rewrite E. }
  assert (Ec : carts (own d') = <[cart_id cart := with_version (cart_version cart0 + 1) cart0]> (carts (own d))).
  { change (carts (own d')) with (carts (set_checkouts (checkouts (own d)) (own d'))). by rewrite E. }
  assert (Hinv1 : inv db1) by (eapply inv_same_stock; [apply Hs|exact Q1]).
  split; [|split; [|split; [exact Hf|split; [|split; [|split; [|split; [|split; [|split; [|split]]]]]]]]].
  - eapply PlacingProofs.placed_frame; [apply Hs|exact Q1| |exact Q2]. by eapply lines_filled_placed.
  - intros v. by eapply lines_filled_sum.
  - unfold order_state. rewrite Es. cbn. by rewrite lookup_insert_eq.
  - eapply emptied_cart; [apply Hs|apply Hs'|exact Hc| |exact Ei]. intros k (x & Hx & Ho). rewrite Ec in Hx.
    apply lookup_insert_Some in Hx as [[<- <-]|[_ Hx]]; [by exists cart0|by exists x].
  - done.
  - done.
  - cbn. by rewrite F1.
  - exact F2.
  - exact F3.
  - by rewrite En.
Qed.

(** [C2] A checkout places the order that was quoted, or repeats its answer.  While a record
    of its key lives, the same command gets the recorded answer, only expired records of the
    key go, and a different command with the key is refused.  Otherwise the customer's cart,
    priced with a valid quote for its version, address and method and with the discount that
    was promised, becomes one order that waits for payment: its sheet has the lines of the
    cart, its total is their sum less the discount plus the shipping, and is not negative;
    what is reserved for each variant is what was ordered, taken from free stock balance by
    balance in the order of the places and for fifteen minutes, with nothing else moved;
    every promotion applied is counted; the quote is used, the cart and its coupon are empty,
    the order is announced once, and the record answers for a day. *)
Theorem checkout_exact now c d : shop_state d ->
  (forall r d', checkout_tx cuid uuid hash fold collate now c d = Ok (r, d') ->
     shop_step d d' /\
     (checkout_replayed hash now c r d d' \/
      (forall k row, checkouts (own d) !! k = Some row -> same_checkout (cq_customerId c) (hash (cq_idempotencyKey c)) row = true -> (kr_expiresAt row <= now)%Z) /\
      exists cart rows q outcome id n rs claim, checkout_made hash fold collate now c cart rows q outcome id n rs claim r d d' /\
        checked_out now c id n rs r d d')).
Proof using All.
  intros Hs r d' H. pose proof (safe_checkout _ _ _ _ _ _ _ _ _ _ Hs H) as Hstep. split; [done|].
  apply checkout_tx_step in H as [H|(Hn & cart & rows & q & outcome & id & n & rs & claim & H)]; [by left| |done].
  right. split; [done|]. exists cart, rows, q, outcome, id, n, rs, claim. split; [done|]. eapply made_checked_out; [done|apply Hstep|done].
Qed.

(** While the record of a key lives, it decides. *)
Lemma live_record_run now c d k row : shop_state d -> checkouts (own d) !! k = Some row ->
  same_checkout (cq_customerId c) (hash (cq_idempotencyKey c)) row = true -> (now < kr_expiresAt row)%Z ->
  exists a, kr_response row = Some a /\ checkout_tx cuid uuid hash fold collate now c d =
    if bool_decide (kr_fingerprint row = checkout_print hash c) then Ok (a, with_checkouts (delete_many (expired_key hash now c) (checkouts (own d))) d)
    else Err payload_conflict.
Proof using.
  intros [_ Hok] Hk Hsame Hl. destruct (rk_answers _ (sk_records _ Hok) _ _ Hk) as (a & Ha & _). exists a. split; [done|].
  unfold checkout_tx. erewrite bind_run by reflexivity. erewrite bind_run by reflexivity.
  assert (Hf : find_checkout (cq_customerId c) (hash (cq_idempotencyKey c))
    (set_checkouts (delete_many (expired_key hash now c) (checkouts (own d))) (own d)) = Some row).
  { unfold find_checkout. eapply (find_by_unique _ _ k); [| |exact Hsame].
    - intros k1 k2 r1 r2 [H1 _]%lookup_delete_many [H2 _]%lookup_delete_many S1 S2. unfold same_checkout in S1, S2.
      apply andb_prop in S1 as [A1%bool_decide_eq_true B1%bool_decide_eq_true], S2 as [A2%bool_decide_eq_true B2%bool_decide_eq_true].
      eapply (rk_single _ (sk_records _ Hok)); [exact H1|exact H2|congruence|congruence].
    - apply lookup_delete_many. split; [done|]. unfold expired_key. rewrite Hsame. cbn. by apply Z.leb_gt. }
  match goal with |- match ?f with _ => _ end _ = _ => replace f with (Some row) by (symmetry; exact Hf) end.
  case_bool_decide; [|by apply bind_err]. erewrite bind_run by reflexivity. unfold unwrap. by rewrite Ha.
Qed.

(** [C19] A checkout runs once.  After a checkout was answered, its record answers every
    checkout with the same key until it expires: in any later state of the shop that still has
    the record, the same command gets the same answer and changes nothing but expired records
    of the key, and another command is refused with the payload conflict. *)
Theorem checkout_runs_once now c d r d' : shop_state d -> checkout_tx cuid uuid hash fold collate now c d = Ok (r, d') ->
  exists k row, checkouts (own d') !! k = Some row /\ (now < kr_expiresAt row)%Z /\
    forall now' c' d2, shop_state d2 -> checkouts (own d2) !! k = Some row -> (now' < kr_expiresAt row)%Z ->
      cq_customerId c' = cq_customerId c -> cq_idempotencyKey c' = cq_idempotencyKey c ->
      checkout_tx cuid uuid hash fold collate now' c' d2 =
        if bool_decide (checkout_print hash c' = checkout_print hash c)
        then Ok (r, with_checkouts (delete_many (expired_key hash now' c') (checkouts (own d2))) d2) else Err payload_conflict.
Proof using All.
  intros Hs H. assert (Hrow : exists k row, checkouts (own d') !! k = Some row /\ (now < kr_expiresAt row)%Z /\
    same_checkout (cq_customerId c) (hash (cq_idempotencyKey c)) row = true /\ kr_fingerprint row = checkout_print hash c /\ kr_response row = Some r).
  { apply checkout_tx_step in H as [(k & prior & H1 & H2 & H3 & H4 & H5 & ->)|(_ & cart & rows & q & outcome & id & n & rs & claim & _ & _ & _ & Hn & Hks)]; [| |done].
    - exists k, prior. split; [|done]. apply lookup_delete_many. split; [done|]. unfold expired_key. rewrite H2. cbn. by apply Z.leb_gt.
    - eexists claim, _. rewrite Hks, lookup_insert_eq. split; [done|]. unfold same_checkout. cbn. rewrite !bool_decide_true by done.
      split; [unfold CHECKOUT_RECORD_TTL_MS; lia|done]. }
  destruct Hrow as (k & row & H1 & H2 & H3 & H4 & H5). exists k, row. split; [done|]. split; [done|]. intros now' c' d2 Hs2 Hk Hl E1 E2.
  rewrite <- E1, <- E2 in H3. destruct (live_record_run now' c' d2 k row Hs2 Hk H3 Hl) as (a & Ha & ->). rewrite H4.
  assert (a = r) as -> by congruence. by destruct (decide (checkout_print hash c' = checkout_print hash c)) as [->|Hne]; [rewrite !bool_decide_true|rewrite !bool_decide_false].
Qed.
(** * Orders of the staff *)

(** [C3] An order entered by staff is priced by the catalog and made once.  Under the key of a
    request that made an order, the same request gets its recorded answer, marked as
    repeated, and another one is refused, in every later state of the shop.  Otherwise the
    requested lines, at the prices of sellable variants, become one order of an active
    customer that waits for payment of exactly their sum, without discount and shipping; what
    is reserved of each variant is what was ordered, taken from free stock for fifteen
    minutes; its one record makes it a staff order, and carts, quotes, promotions and payments
    stay as they are. *)
Theorem staff_order_exact now c d a d' : shop_state d -> staff_tx cuid uuid hash collate now c d = Ok (a, d') ->
  shop_step d d' /\
  (staff_replayed hash c a d d' \/
   find_staff (fc_actorId c) (hash (fc_idempotencyKey c)) (own d) = None /\
   exists lines id rs k, entered hash now c lines id rs k a d d' /\
     forall now2 c2 d2, shop_step d' d2 -> fc_actorId c2 = fc_actorId c -> fc_idempotencyKey c2 = fc_idempotencyKey c -> id <> EmptyString ->
       staff_tx cuid uuid hash collate now2 c2 d2 =
         if bool_decide (staff_print hash c2 = staff_print hash c) then Ok (mkStaffOrder (st_order a) true (st_reservations a), d2)
         else Err payload_conflict).
Proof using.
  intros Hs H. split; [by eapply safe_staff_tx|]. apply staff_tx_step in H as [H|(lines & id & n & rs & itemIds & row & event & k & H)]; [by left| |apply Hs].
  right. assert (Hent := H). apply staff_made_entered in Hent; [|apply Hs]. destruct H as (_ & _ & _ & _ & _ & _ & Hf & _). split; [done|].
  exists lines, id, rs, k. split; [done|]. intros now2 c2 d2 (Hs2 & _ & Hev) E1 E2 Hid.
  assert (Hk : staff_records (own d2) !! k = Some (mkStaffRecord k (fc_actorId c) (hash (fc_idempotencyKey c)) (staff_print hash c) (Some id) (Some a))).
  { eapply lookup_weaken; [|exact (se_staff _ _ Hev)]. rewrite (en_record _ _ _ _ _ _ _ _ _ _ Hent). by rewrite lookup_insert_eq. }
  eapply (staff_record_answers cuid uuid hash collate now2 c2 d2 k _ a id (sk_staff _ (proj2 Hs2)) Hk); [|done..].
  unfold same_staff_key. cbn. by rewrite E1, E2, !bool_decide_true.
Qed.
End shop.

(** * Witnesses *)

(** One product on two shelves, one shipping method and one customer. *)
Definition demo_shop_tables : ShopTables :=
  mkShop (mkSales (mkCreditTables {["cust" := mkCustomer "cust" (Some "u1") CUSTOMER_ACTIVE]} ∅ ∅ ∅ ∅ ∅ ∅ ∅
      (mkStatusDb ∅ []) ∅ (mkStatusDb ∅ []))
    (own demo_promos) (mkDoorTables ∅ ∅ ∅ ∅) ∅ (mkStatusDb ∅ []) ∅ [] ∅ ∅ ∅ ∅)
  {["v1" := mkVariant "v1" "p1" "SKU1" None 100 VARIANT_ACTIVE true]} {["p1" := mkProduct "p1" "Hinge" PRODUCT_ACTIVE None None]}
  ∅ ∅ ∅ ∅ {["m1" := mkMethod "m1" "POST" "Post" 50 "r1" true]} ∅ ∅ ∅ ∅.
Definition demo_shop : Shop := mkDomain demo_places demo_shop_tables.
Definition quiet_shop : env Shop := mkEnv (fun _ s => s) (fun _ => None).
Definition demo_run (now : Z) (cmd : ShopCommand) (s : Shop) : result ShopAnswer * Shop :=
  run_shop demo_cuid demo_cuid id id byCodeUnit id id demo_gateway demo_provider quiet_shop now cmd s.
Definition shop_after (cmds : list (Z * ShopCommand)) : Shop := fold_left (fun s tc => snd (demo_run (fst tc) (snd tc) s)) cmds demo_shop.

Definition demo_filled : list (Z * ShopCommand) := [(10, AddToCart "u1" "v1" (Int 3) "k1"); (20, ApplyCoupon (Some (Int 1)) "u1" "SPRING" "r1")]%Z.
Definition demo_quoted : list (Z * ShopCommand) := demo_filled ++ [(30, PreviewCheckout "u1" demo_typed)]%Z.
Definition demo_quote_id : string := from_option fst EmptyString (head (map_to_list (quotes (own (shop_after demo_quoted))))).
Definition demo_checkout (key : string) : ShopCommand := CheckOut "u1" demo_typed demo_quote_id key "r2".
Definition demo_ordered : list (Z * ShopCommand) := demo_quoted ++ [(40, demo_checkout "ck")]%Z.
Definition demo_again : list (Z * ShopCommand) :=
  demo_ordered ++ [(86400050, AddToCart "u1" "v1" (Int 1) "k2"); (86400060, PreviewCheckout "u1" demo_typed)]%Z.
Definition second_quote_id : string := "c14".

Lemma quiet_shop_rely : shop_rely quiet_shop.
Proof. intros k s Hs. by apply shop_step_refl. Qed.
Lemma demo_shop_sales : sales_history demo_cuid id demo_gateway demo_provider byCodeUnit (shop_view demo_shop).
Proof.
  apply sales_start; [exact demo_places_inv|exact demo_promos_ok| | |intros oid o Ho|done..]; unfold demo_shop, demo_shop_tables, shop_view in *;
    cbn [own inv_of sales credit doors] in *.
  - apply books_ok_start; [|done..]. split; [|split].
    + intros i a Ha. cbn in Ha. by rewrite lookup_empty in Ha.
    + intros c i1 i2 a1 a2 Ha. cbn in Ha. by rewrite lookup_empty in Ha.
    + intros i a Ha. cbn in Ha. by rewrite lookup_empty in Ha.
  - intros i r Hr. cbn in Hr. by rewrite lookup_empty in Hr.
  - unfold find_order in Ho. cbn in Ho. by rewrite lookup_empty in Ho.
Qed.
Lemma demo_shop_history cmds : Forall (fun tc => command_rely (snd tc)) cmds ->
  shop_history demo_cuid demo_cuid id id byCodeUnit id id demo_gateway demo_provider (shop_after cmds).
Proof.
  unfold shop_after. induction cmds as [|tc cmds IH] using rev_ind; intros H; simpl.
  - apply shop_start; [exact demo_shop_sales|done..|]. intros k m Hm. unfold demo_shop, demo_shop_tables in Hm. cbn in Hm.
    by apply lookup_singleton_Some in Hm as [<- <-].
  - apply Forall_app in H as [H1 [H2 _]%Forall_cons]. rewrite fold_left_app. apply shop_command; [by apply IH|exact quiet_shop_rely|exact H2].
Qed.
Lemma demo_shop_state cmds : Forall (fun tc => command_rely (snd tc)) cmds -> shop_state (shop_after cmds).
Proof. intros H. by eapply shop_history_ok, demo_shop_history. Qed.

(** A cart is filled, given a coupon and quoted; then it becomes an order. *)
Lemma shop_commands_safe_witness :
  is_ok (fst (demo_run 40 (demo_checkout "ck") (shop_after demo_quoted))) = true /\
  held "cust" "v1" (own (shop_after demo_quoted)) = Some 3%Z /\
  held "cust" "v1" (own (snd (demo_run 40 (demo_checkout "ck") (shop_after demo_quoted)))) = None /\
  shop_step (shop_after demo_quoted) (snd (demo_run 40 (demo_checkout "ck") (shop_after demo_quoted))).
Proof.
  split; [vm_compute; reflexivity|]. split; [vm_compute; reflexivity|]. split; [vm_compute; reflexivity|].
  assert (H : Forall (fun tc => command_rely (snd tc)) demo_quoted) by (repeat constructor).
  exact (proj1 (shop_commands_safe demo_cuid demo_cuid id id byCodeUnit id id demo_gateway demo_provider quiet_shop 40 (demo_checkout "ck")
    (shop_after demo_quoted) (demo_shop_history _ H) quiet_shop_rely I)).
Defined.

(** Three pieces and one more are four; the repeated request changes nothing. *)
Definition demo_add (key : string) (s : Shop) : result (CartResponse * Shop) := mutation_tx demo_cuid id byCodeUnit 25 "cust" key (AddLine "v1" 1) s.
Lemma cart_changes_exact_witness :
  match demo_add "k2" (shop_after demo_filled) with
  | Ok (r, d) => held "cust" "v1" (own d) = Some 4%Z /\ shop_ok (own d) /\ cart_evolves (own (shop_after demo_filled)) (own d) /\
                 match demo_add "k2" d with Ok (r', d') => r' = r /\ held "cust" "v1" (own d') = Some 4%Z | Err _ => False end
  | Err _ => False
  end.
Proof.
  destruct (demo_add "k2" (shop_after demo_filled)) as [[r d]|e] eqn:E; [|vm_compute in E; discriminate E].
  assert (F : match demo_add "k2" (shop_after demo_filled) with Ok (r, d) => match demo_add "k2" d with
    Ok (r', d') => r' = r /\ held "cust" "v1" (own d') = Some 4%Z | Err _ => False end /\ held "cust" "v1" (own d) = Some 4%Z | Err _ => False end)
    by (vm_compute; repeat split; reflexivity).
  rewrite E in F. destruct F as [F1 F2]. split; [exact F2|].
  assert (H : Forall (fun tc => command_rely (snd tc)) demo_filled) by (repeat constructor).
  destruct (cart_changes_exact demo_cuid id byCodeUnit 25 "cust" "k2" (AddLine "v1" 1) (shop_after demo_filled) r d (proj2 (demo_shop_state _ H)) E)
    as (_ & H1 & H2 & _). split; [exact H1|]. split; [exact H2|exact F1].
Defined.

Definition demo_command (quoteId key : string) : CheckoutCommand := mkCheckoutCommand "u1" "cust" demo_address quoteId key "r2".

Definition demo_checkout_tx (now : Z) (quoteId key : string) (s : Shop) : result (CheckoutResponse * Shop) :=
  checkout_tx demo_cuid demo_cuid id id byCodeUnit now (demo_command quoteId key) s.
Lemma demo_quoted_state : shop_state (shop_after demo_quoted).
Proof. apply demo_shop_state. repeat constructor. Qed.
Lemma checkout_exact_witness :
  match demo_checkout_tx 40 demo_quote_id "ck" (shop_after demo_quoted) with
  | Ok (r, d) => co_total r = 320%Z /\ order_state (co_orderId r) (sales (own d)) = Some PENDING_PAYMENT /\ rw_quantity <$> co_reservations r = [3%Z] /\
                 shop_step (shop_after demo_quoted) d
  | Err _ => False
  end.
Proof.
  destruct (demo_checkout_tx 40 demo_quote_id "ck" (shop_after demo_quoted)) as [[r d]|e] eqn:E; [|vm_compute in E; discriminate E].
  assert (F : match demo_checkout_tx 40 demo_quote_id "ck" (shop_after demo_quoted) with
    Ok (r, d) => Some (co_total r, order_state (co_orderId r) (sales (own d)), rw_quantity <$> co_reservations r) | Err _ => None end =
    Some (320%Z, Some PENDING_PAYMENT, [3%Z])) by (vm_compute; reflexivity).
  rewrite E in F. injection F as F1 F2 F3. split; [exact F1|]. split; [exact F2|]. split; [exact F3|].
  exact (proj1 (checkout_exact demo_cuid demo_cuid id id byCodeUnit id id demo_gateway demo_provider 40 (demo_command demo_quote_id "ck") (shop_after demo_quoted)
    demo_quoted_state r d E)).
Defined.
Lemma checkout_runs_once_witness :
  match demo_checkout_tx 40 demo_quote_id "ck" (shop_after demo_quoted) with
  | Ok (r, d) => exists k row, checkouts (own d) !! k = Some row /\ (40 < kr_expiresAt row)%Z /\
      match demo_checkout_tx 50 demo_quote_id "ck" d with Ok (r', _) => r' = r | Err _ => False end /\
      demo_checkout_tx 50 "another" "ck" d = Err payload_conflict
  | Err _ => False
  end.
Proof.
  destruct (demo_checkout_tx 40 demo_quote_id "ck" (shop_after demo_quoted)) as [[r d]|e] eqn:E; [|vm_compute in E; discriminate E].
  assert (F : match demo_checkout_tx 40 demo_quote_id "ck" (shop_after demo_quoted) with
    Ok (r, d) => match demo_checkout_tx 50 demo_quote_id "ck" d with Ok (r', _) => r' = r | Err _ => False end /\
      demo_checkout_tx 50 "another" "ck" d = Err payload_conflict | Err _ => False end) by (vm_compute; split; reflexivity).
  rewrite E in F. destruct (checkout_runs_once demo_cuid demo_cuid id id byCodeUnit id id demo_gateway demo_provider 40 (demo_command demo_quote_id "ck")
    (shop_after demo_quoted) r d demo_quoted_state E) as (k & row & H1 & H2 & _).
  exists k, row. split; [exact H1|]. split; [exact H2|exact F].
Defined.

(** The key of a checkout cannot place an order again after its record expired: the
    reservations still have the keys that are derived from it, and those are unique. *)
Example expired_key_refused :
  fst (demo_run 86400070 (CheckOut "u1" demo_typed second_quote_id "ck" "r3") (shop_after demo_again)) =
    Err (HttpException ConflictException (Some "CONFLICT") checkout_conflict) /\
  find_checkout "cust" "ck" (own (shop_after demo_again)) <> None /\
  is_ok (fst (demo_run 86400070 (CheckOut "u1" demo_typed second_quote_id "ck2" "r3") (shop_after demo_again))) = true.
Proof. split; [vm_compute; reflexivity|]. split; [vm_compute; discriminate|vm_compute; reflexivity]. Qed.

(** Two pieces at the counter; the repeated request gets the answer again. *)
Definition demo_entered : StaffOrderInput := mkStaffInput (Some " cust ") [mkStaffLine "v1" (Int 2)] demo_typed None.
Definition demo_staff : StaffCommand := mkStaffCommand "admin" "r8" "sk" (mkPayload "cust" [("v1", 2%Z)] demo_address None).
Definition demo_staff_tx (now : Z) (s : Shop) : result (StaffOrderResponse * Shop) := staff_tx demo_cuid demo_cuid id byCodeUnit now demo_staff s.
Lemma staff_order_exact_witness :
  StaffOrders.validate id id demo_entered = Ok (fc_payload demo_staff) /\
  match demo_staff_tx 40 (shop_after demo_quoted) with
  | Ok (a, d) => su_total (st_order a) = 200%Z /\ rw_quantity <$> st_reservations a = [2%Z] /\ shop_step (shop_after demo_quoted) d /\
      match demo_staff_tx 90 d with Ok (a', d') => st_replayed a' = true /\ st_order a' = st_order a | Err _ => False end
  | Err _ => False
  end.
Proof.
  split; [vm_compute; reflexivity|]. destruct (demo_staff_tx 40 (shop_after demo_quoted)) as [[a d]|e] eqn:E; [|vm_compute in E; discriminate E].
  assert (F : match demo_staff_tx 40 (shop_after demo_quoted) with
    Ok (a, d) => (su_total (st_order a) = 200%Z /\ rw_quantity <$> st_reservations a = [2%Z]) /\
      match demo_staff_tx 90 d with Ok (a', d') => st_replayed a' = true /\ st_order a' = st_order a | Err _ => False end | Err _ => False end)
    by (vm_compute; repeat split).
  rewrite E in F. destruct F as [[F1 F2] F3]. split; [exact F1|]. split; [exact F2|]. split; [|exact F3].
  exact (proj1 (staff_order_exact demo_cuid demo_cuid id byCodeUnit 40 demo_staff (shop_after demo_quoted) a d demo_quoted_state E)).
Defined.
