(* ===== verification/OutboxProofs.v ===== *)
(** The processes of the outbox keep its invariant, whatever they interleave with: every
    consumed event has exactly its effect, and the messages of an effect are attempts of which
    all but the last were refused by rate limiting.  A process that has claimed an effect
    holds a token for it until it has recorded the answer. *)

From S2P Require Import Prelude Processes Table Paging Json AuditTrail Retry InventoryModel Inventory.
From S2P Require Import Durable StateMachine Credit Sales Outbox.

(** * Messages *)

Notation State := (Mail * calls question reply)%type.
Notation Call := (call (Q := question) (R := reply)).

Definition reply_to (id : string) (c : Call) : option (result SmsSendResult) :=
  match asked c as q return reply q -> option (result SmsSendResult) with
  | Send r => fun a => if bool_decide (sms_correlationId r = id) then Some a else None
  | _ => fun _ => None
  end (answer c).
(** The answers to the messages sent for an effect, in their order. *)
Definition messages (id : string) (l : calls question reply) : list (result SmsSendResult) := omap (reply_to id) l.
Arguments messages : simpl never.
Arguments picked : simpl never.
Definition limited (a : result SmsSendResult) : Prop := a = Ok rate_limited.

Lemma messages_app id l l' : messages id (l ++ l') = messages id l ++ messages id l'.
Proof. apply omap_app. Qed.
Lemma messages_ask id l q (r : reply q) : messages id (l ++ [mkCall q r]) = messages id l ++ option_list (reply_to id (mkCall q r)).
Proof. rewrite messages_app. unfold messages. cbn [omap list_omap]. by destruct (reply_to id _). Qed.
Definition is_send (q : question) : bool := match q with Send _ => true | _ => false end.
Lemma messages_other id l q (r : reply q) : is_send q = false -> messages id (l ++ [mkCall q r]) = messages id l.
Proof. intros H. rewrite messages_ask. destruct q; try done; by rewrite app_nil_r. Qed.

(** * How the state moves on *)

Definition effect_moves (e e' : OutboxEffect) : Prop :=
  ef_eventId e' = ef_eventId e /\ ef_kind e' = ef_kind e /\ ef_subjectId e' = ef_subjectId e /\
  (ef_attemptCount e <= ef_attemptCount e')%Z /\ (ef_status e = EFFECT_COMPLETED -> e' = e).
Definition same_terms (m m' : Mail) : Prop :=
  (forall id o, find_order id (own (business m)) = Some o ->
    exists o', find_order id (own (business m')) = Some o' /\ order_line o' = order_line o) /\
  (forall id p, payments (own (business m)) !! id = Some p ->
    exists p', payments (own (business m')) !! id = Some p' /\ pt_orderId p' = pt_orderId p).
Record mail_moves (s s' : State) : Prop := mkMoves {
  mm_clock : (now_of s.1 <= now_of s'.1)%Z;
  mm_events : outbox (own (business s.1)) ⊆ outbox (own (business s'.1));
  mm_terms : same_terms s.1 s'.1;
  mm_delivery : forall id d, delivery s.1 !! id = Some d -> exists d', delivery s'.1 !! id = Some d' /\
    (is_Some (dl_consumedAt d) -> dl_consumedAt d' = dl_consumedAt d);
  mm_effects : forall id e, effects s.1 !! id = Some e -> exists e', effects s'.1 !! id = Some e' /\ effect_moves e e';
  mm_inbox : in_data <$> inbox s.1 ⊆ in_data <$> inbox s'.1;
  mm_calls : s.2 `prefix_of` s'.2
}.

#[export] Instance same_terms_preorder : PreOrder same_terms.
Proof.
  split; [split; [intros id o H; by exists o|intros id p H; by exists p]|].
  intros m1 m2 m3 [A B] [A' B']. split.
  - intros id o H. destruct (A _ _ H) as (o1 & H1 & E1). destruct (A' _ _ H1) as (o2 & H2 & E2). exists o2. split; congruence.
  - intros id p H. destruct (B _ _ H) as (p1 & H1 & E1). destruct (B' _ _ H1) as (p2 & H2 & E2). exists p2. split; congruence.
Qed.
#[export] Instance effect_moves_preorder : PreOrder effect_moves.
Proof.
  split; [by intros e|]. intros e1 e2 e3 (A & B & C & D & E) (A' & B' & C' & D' & E').
  split_and!; [congruence..|lia|]. intros H. rewrite E'; rewrite E; done.
Qed.
#[export] Instance mail_moves_preorder : PreOrder mail_moves.
Proof.
  split.
  - intros s. split; try done; [intros id d H; by exists d|intros id e H; by exists e].
  - intros s1 s2 s3 [A B C D E F G] [A' B' C' D' E' F' G']. split; [lia|by etrans|by etrans| | |by etrans|by etrans].
    + intros id d H. destruct (D _ _ H) as (d1 & H1 & K1). destruct (D' _ _ H1) as (d2 & H2 & K2).
      exists d2. split; [done|]. intros Hc. rewrite K2; [by apply K1|by rewrite K1].
    + intros id e H. destruct (E _ _ H) as (e1 & H1 & K1). destruct (E' _ _ H1) as (e2 & H2 & K2).
      exists e2. split; [done|]. by etrans.
Qed.

(** * Tokens *)

Inductive token := Claimed (id : string) (n : Z) | Answered (id : string) (n : Z) (a : result SmsSendResult).
Definition token_id (t : token) : string := match t with Claimed id _ | Answered id _ _ => id end.
Definition token_count (t : token) : Z := match t with Claimed _ n | Answered _ n _ => n end.
Definition token_sent (t : token) : list (result SmsSendResult) := match t with Claimed _ _ => [] | Answered _ _ a => [a] end.
Record token_holds (t : token) (s : State) : Prop := mkHolds {
  th_row : exists e, effects s.1 !! token_id t = Some e /\ ef_status e = EFFECT_FAILED /\ ef_attemptCount e = token_count t;
  th_sent : exists before, messages (token_id t) s.2 = before ++ token_sent t /\ Forall limited before /\
    (Z.of_nat (length before) < token_count t)%Z
}.
Definition token_apart (t u : token) : Prop := token_id t <> token_id u.
#[export] Instance token_apart_symmetric : Symmetric token_apart.
Proof. intros t u H E. by apply H. Qed.

(** * What the relay claims *)

Section claims.
Context (collate : string -> string -> Z).

Lemma leased_all now rows (t : gmap string Delivery) id :
  (forall row, row ∈ rows -> t !! row.1 = Some row.2) -> NoDup rows.*1 ->
  foldr (fun row t => <[row.1 := leased now row.2]> t) t rows !! id =
  if bool_decide (id ∈ rows.*1) then leased now <$> t !! id else t !! id.
Proof.
  induction rows as [|[i d] rows IH]; cbn; intros Hin Hnd; [by rewrite bool_decide_eq_false_2 by set_solver|].
  apply NoDup_cons in Hnd as [Hni Hnd]. destruct (decide (id = i)) as [->|Hne].
  - rewrite lookup_insert_eq, bool_decide_eq_true_2 by set_solver. specialize (Hin (i, d) ltac:(set_solver)). cbn in Hin. by rewrite Hin.
  - rewrite lookup_insert_ne, IH by (try done; intros; apply Hin; set_solver).
    destruct (decide (id ∈ rows.*1)); [by rewrite !bool_decide_eq_true_2 by set_solver|by rewrite !bool_decide_eq_false_2 by set_solver].
Qed.

Lemma elem_of_picked m row : row ∈ picked collate m -> delivery m !! row.1 = Some row.2 /\ due m row = true.
Proof.
  intros H. unfold picked in H. apply elem_of_take in H as (i & H & _). apply list_elem_of_lookup_2 in H.
  apply elem_of_js_sort in H. rewrite list_elem_of_In, filter_In, <- list_elem_of_In in H. destruct H as [H1 H2].
  split; [|done]. apply elem_of_map_to_list. by destruct row.
Qed.
Lemma NoDup_picked m : NoDup (picked collate m).*1.
Proof.
  unfold picked. rewrite fmap_take. eapply sublist_NoDup; [|apply sublist_take]. rewrite js_sort_Permutation.
  assert (H := NoDup_fst_map_to_list (delivery m)). revert H. generalize (map_to_list (delivery m)). induction l as [|r l IH]; cbn; [done|].
  intros [Hn Hd]%NoDup_cons. destruct (due m r); cbn; [|by apply IH]. apply NoDup_cons. split; [|by apply IH].
  intros Hin. apply Hn. apply list_elem_of_fmap in Hin as (r' & -> & Hr'). apply list_elem_of_In, filter_In in Hr' as [Hr' _].
  apply list_elem_of_fmap. exists r'. by rewrite list_elem_of_In.
Qed.

Lemma claim_batch_step returned m claimed m' : claim_batch collate returned m = Ok (claimed, m') ->
  m' = set_delivery (foldr (fun row t => <[row.1 := leased (now_of m) row.2]> t) (delivery m) (picked collate m)) m /\
  claimed = (fun row : string * Delivery => (row.1, dl_attempts row.2 + 1)%Z) <$> returned (picked collate m) /\
  forall id, delivery m' !! id =
    if bool_decide (id ∈ (picked collate m).*1) then leased (now_of m) <$> delivery m !! id else delivery m !! id.
Proof.
  intros H. unfold claim_batch in H. run_inv. split_and!; [done..|]. intros id. cbn. apply leased_all; [|apply NoDup_picked].
  intros row Hrow. by apply elem_of_picked.
Qed.
End claims.

Section outbox_proofs.
Context (cuid : nat -> string) `{!Inj (=) (=) cuid}.

(** * The invariant *)

Definition delivery_ok (d : Delivery) : Prop :=
  (is_Some (dl_publishedAt d) -> dl_deadLetteredAt d = None) /\
  (is_Some (dl_consumedAt d) -> dl_processingDeadLetteredAt d = None).

(** The effect that an event calls for. *)
Record effect_fits (m : Mail) (ev : OutboxEvent) (e : OutboxEffect) : Prop := mkFits {
  fit_kind : assoc (ob_topic ev) TOPIC_KIND = Some (ef_kind e);
  fit_type : ob_aggregateType ev = expected_aggregate (ob_topic ev);
  fit_subject :
    if bool_decide (expected_aggregate (ob_topic ev) = "order")
    then ef_subjectId e = ob_aggregateId ev /\ is_Some (find_order (ob_aggregateId ev) (own (business m)))
    else exists p, payments (own (business m)) !! ob_aggregateId ev = Some p /\
      ef_subjectId e = if bool_decide (ef_kind e = CUSTOMER_ORDER_PAID) then pt_orderId p else ob_aggregateId ev
}.

(** The order that the notifications of an event are about. *)
Definition event_order (m : Mail) (ev : OutboxEvent) (orderId : string) : Prop :=
  if bool_decide (expected_aggregate (ob_topic ev) = "order") then orderId = ob_aggregateId ev
  else exists p, payments (own (business m)) !! ob_aggregateId ev = Some p /\ pt_orderId p = orderId.
(** An event is consumed, or its consumption [x] is under way. *)
Definition finished (x : option string) (id : string) (d : Delivery) : Prop := x = Some id \/ is_Some (dl_consumedAt d).
Definition notice_fits (x : option string) (m : Mail) (n : NotificationData) : Prop :=
  exists ev d orderId o draft, event_of (ob_id ev) m = Some (ev, d) /\ finished x (ob_id ev) d /\
    event_order m ev orderId /\ find_order orderId (own (business m)) = Some o /\
    draft ∈ default [] (assoc (ob_topic ev) NOTIFICATION_DRAFTS) /\
    n = notice (ob_id ev) orderId (or_number o) draft (nd_userId n).

Record mail_ok_but (x : option string) (m : Mail) : Prop := mkMailOk {
  mo_keys : forall id ev, outbox (own (business m)) !! id = Some ev -> ob_id ev = id;
  mo_rows : forall id, is_Some (outbox (own (business m)) !! id) <-> is_Some (delivery m !! id);
  mo_delivery : forall id d, delivery m !! id = Some d -> delivery_ok d;
  mo_effect_key : forall id e, effects m !! id = Some e -> ef_id e = id;
  mo_fresh : forall n, nextId (inv_of (business m)) <= n -> effects m !! cuid n = None;
  mo_one : forall id id' e e', effects m !! id = Some e -> effects m !! id' = Some e' -> ef_eventId e = ef_eventId e' -> id = id';
  mo_effect : forall id e, effects m !! id = Some e -> exists ev d, event_of (ef_eventId e) m = Some (ev, d) /\
    finished x (ef_eventId e) d /\ effect_fits m ev e;
  mo_consumed : forall id d, delivery m !! id = Some d -> is_Some (dl_consumedAt d) ->
    exists fx e, effects m !! fx = Some e /\ ef_eventId e = id;
  mo_inbox : forall id n, inbox m !! id = Some n -> notice_fits x m (in_data n);
  mo_inbox_one : forall id id' n n', inbox m !! id = Some n -> inbox m !! id' = Some n' ->
    same_notice (in_data n) n' = true -> id = id'
}.
Notation mail_ok := (mail_ok_but None).

(** What the calls have to do with the effects. *)
Record effect_sent (e : OutboxEffect) (ms : list (result SmsSendResult)) : Prop := mkSent {
  se_attempts : (Z.of_nat (length ms) <= ef_attemptCount e <= SMS_MAX_ATTEMPTS)%Z;
  se_pending : ef_status e = EFFECT_PENDING -> (ef_attemptCount e < SMS_MAX_ATTEMPTS)%Z /\ Forall limited ms;
  se_last : forall before a, ms = before ++ [a] -> Forall limited before;
  se_receipt : forall x, ef_providerMessageId e = Some x ->
    ef_status e = EFFECT_COMPLETED /\ exists before, ms = before ++ [Ok (accepted x)]
}.
Definition request_fits (m : Mail) (r : SmsSendRequest) : Prop :=
  exists e o, effects m !! sms_correlationId r = Some e /\ ef_kind e ∈ KINDS /\ sms_purpose r = purpose (ef_kind e) /\
    find_order (ef_subjectId e) (own (business m)) = Some o /\ sms_Order r = or_number o.
Record sms_ok (s : State) : Prop := mkSmsOk {
  so_sent : forall id e, effects s.1 !! id = Some e -> effect_sent e (messages id s.2);
  so_unknown : forall id, effects s.1 !! id = None -> messages id s.2 = [];
  so_requests : forall r a, @mkCall question reply (Send r) a ∈ s.2 -> request_fits s.1 r
}.
Definition mail_inv (s : State) : Prop := mail_ok s.1 /\ sms_ok s.

Notation mwp := (wp mail_inv mail_moves token_holds token_apart).
Notation mgoes := (goes mail_inv mail_moves token_holds token_apart).

(** A step that leaves failed effects and the messages alone disturbs no token. *)
Lemma token_frame (m m' : Mail) l l' o t : token_holds t (m, l) -> clear_of token_apart o t ->
  (forall id e, effects m !! id = Some e -> ef_status e = EFFECT_FAILED -> effects m' !! id = Some e) ->
  (forall id, messages id l' = messages id l) -> token_holds t (m', l').
Proof.
  intros [(e & He & Hs & Hn) (b & Hb)] _ Hrow Hm. split; [exists e; split; [by apply Hrow|done]|].
  exists b. change (messages (token_id t) l' = b ++ token_sent t /\ Forall limited b /\ (Z.of_nat (length b) < token_count t)%Z). by rewrite Hm.
Qed.

(** * Steps that leave effects and notifications alone *)

Lemma event_of_Some id m ev d : event_of id m = Some (ev, d) <-> outbox (own (business m)) !! id = Some ev /\ delivery m !! id = Some d.
Proof.
  unfold event_of. destruct (outbox (own (business m)) !! id) as [e|]; simpl; [|naive_solver].
  destruct (delivery m !! id); simpl; naive_solver.
Qed.

Lemma effect_fits_terms m m' ev e : same_terms m m' -> effect_fits m ev e -> effect_fits m' ev e.
Proof.
  intros [A B] [H1 H2 H3]. split; [done..|]. revert H3. case_bool_decide; intros H3.
  - destruct H3 as [H3 [o Ho]]. destruct (A _ _ Ho) as (o' & Ho' & _). by split; [|exists o'].
  - destruct H3 as (p & Hp & E). destruct (B _ _ Hp) as (p' & Hp' & Eo). exists p'. by rewrite Eo.
Qed.

Lemma effect_fits_same m m' ev e e' : own (business m') = own (business m) -> ef_kind e' = ef_kind e -> ef_subjectId e' = ef_subjectId e ->
  effect_fits m ev e -> effect_fits m' ev e'.
Proof. intros E1 E2 E3 [H1 H2 H3]. split; [by rewrite E2|done|]. by rewrite E1, E2, E3. Qed.

Lemma event_order_terms m m' ev orderId : same_terms m m' -> event_order m ev orderId -> event_order m' ev orderId.
Proof.
  intros [_ B]. unfold event_order. case_bool_decide; [done|]. intros (p & Hp & E).
  destruct (B _ _ Hp) as (p' & Hp' & Eo). exists p'. split; [done|congruence].
Qed.

(** Everything goes on, no event is consumed, and effects and notifications stay. *)
Record onward (m m' : Mail) : Prop := mkOnward {
  on_clock : (now_of m <= now_of m')%Z;
  on_ids : nextId (inv_of (business m)) <= nextId (inv_of (business m'));
  on_events : outbox (own (business m)) ⊆ outbox (own (business m'));
  on_keys : forall id ev, outbox (own (business m')) !! id = Some ev -> ob_id ev = id;
  on_rows : forall id, is_Some (outbox (own (business m')) !! id) <-> is_Some (delivery m' !! id);
  on_terms : same_terms m m';
  on_delivery : forall id d, delivery m !! id = Some d -> exists d', delivery m' !! id = Some d' /\
    dl_consumedAt d' = dl_consumedAt d /\ (delivery_ok d -> delivery_ok d');
  on_new : forall id d, delivery m' !! id = Some d -> delivery m !! id = None -> dl_consumedAt d = None /\ delivery_ok d;
  on_effects : effects m' = effects m;
  on_inbox : in_data <$> inbox m' = in_data <$> inbox m
}.

Lemma onward_event m m' id ev d : onward m m' -> event_of id m = Some (ev, d) ->
  exists d', event_of id m' = Some (ev, d') /\ dl_consumedAt d' = dl_consumedAt d.
Proof.
  intros H [He Hd]%event_of_Some. destruct (on_delivery _ _ H _ _ Hd) as (d' & Hd' & E & _).
  exists d'. split; [|done]. apply event_of_Some. split; [|done]. eapply lookup_weaken; [exact He|apply H].
Qed.

Lemma finished_same x id d d' : dl_consumedAt d' = dl_consumedAt d -> finished x id d -> finished x id d'.
Proof. unfold finished. by intros ->. Qed.

Lemma onward_notice x m m' n : onward m m' -> notice_fits x m n -> notice_fits x m' n.
Proof.
  intros H (ev & d & orderId & o & draft & He & Hc & Ho & Hf & Hd & ->). destruct (onward_event _ _ _ _ _ H He) as (d' & He' & E).
  destruct (proj1 (on_terms _ _ H) _ _ Hf) as (o' & Hf' & El). injection El as En _.
  exists ev, d', orderId, o', draft. rewrite En. split_and!; try done; [by eapply finished_same|by eapply event_order_terms; [apply H|]].
Qed.

Lemma inbox_back m m' id n : in_data <$> inbox m' = in_data <$> inbox m -> inbox m' !! id = Some n ->
  exists n0, inbox m !! id = Some n0 /\ in_data n0 = in_data n.
Proof.
  intros E H. assert (Hn : (in_data <$> inbox m) !! id = Some (in_data n)) by (by rewrite <- E, lookup_fmap, H).
  rewrite lookup_fmap in Hn. destruct (inbox m !! id) as [n0|]; [|done]. exists n0. by injection Hn.
Qed.

Lemma onward_ok x m m' : onward m m' -> mail_ok_but x m -> mail_ok_but x m'.
Proof.
  intros H [A B C D N E F G I J]. split; [apply H|apply H| |by rewrite (on_effects _ _ H)| |by rewrite (on_effects _ _ H)| | | |].
  - intros id d Hd. destruct (delivery m !! id) as [d0|] eqn:E0.
    + destruct (on_delivery _ _ H _ _ E0) as (d' & Hd' & _ & K). simplify_eq. apply K. by eapply C.
    + by apply (on_new _ _ H id).
  - rewrite (on_effects _ _ H). intros n Hn. apply N. assert (Hi := on_ids _ _ H). lia.
  - rewrite (on_effects _ _ H). intros id e He. destruct (F _ _ He) as (ev & d & Hev & Hc & Hf).
    destruct (onward_event _ _ _ _ _ H Hev) as (d' & Hev' & Ed). exists ev, d'.
    split_and!; [done|by eapply finished_same|]. by eapply effect_fits_terms; [apply H|].
  - rewrite (on_effects _ _ H). intros id d Hd Hc. destruct (delivery m !! id) as [d0|] eqn:E0.
    + destruct (on_delivery _ _ H _ _ E0) as (d' & Hd' & Ed & _). simplify_eq. rewrite Ed in Hc. by eapply G.
    + destruct (on_new _ _ H _ _ Hd E0) as [Hn _]. rewrite Hn in Hc. by destruct Hc.
  - intros id n Hn. destruct (inbox_back _ _ _ _ (on_inbox _ _ H) Hn) as (n0 & Hn0 & <-). eapply onward_notice; [done|by eapply I].
  - intros id id' n n' Hn Hn' Hs. destruct (inbox_back _ _ _ _ (on_inbox _ _ H) Hn) as (n0 & Hn0 & En).
    destruct (inbox_back _ _ _ _ (on_inbox _ _ H) Hn') as (n1 & Hn1 & En'). eapply J; [exact Hn0|exact Hn1|].
    unfold same_notice in *. by rewrite En, En'.
Qed.

Lemma request_fits_moves s s' r : mail_moves s s' -> request_fits s.1 r -> request_fits s'.1 r.
Proof.
  intros H (e & o & He & Hk & Hp & Ho & En). destruct (mm_effects _ _ H _ _ He) as (e' & He' & _ & Ek & Es & _ & _).
  destruct (proj1 (mm_terms _ _ H) _ _ Ho) as (o' & Ho' & El). injection El as En' _.
  exists e', o'. rewrite Ek, Es. split_and!; [done..|congruence].
Qed.

Lemma onward_moves m m' l : onward m m' -> mail_moves (m, l) (m', l).
Proof.
  intros H. split; cbn; [apply H|apply H|apply H| | | |done].
  - intros id d Hd. destruct (on_delivery _ _ H _ _ Hd) as (d' & Hd' & E & _). by exists d'.
  - rewrite (on_effects _ _ H). intros id e He. by exists e.
  - by rewrite (on_inbox _ _ H).
Qed.

Lemma onward_inv m m' l : onward m m' -> mail_inv (m, l) -> mail_inv (m', l).
Proof.
  intros H [H1 [A B C]]. split; [by eapply onward_ok|]. split; cbn in *; [by rewrite (on_effects _ _ H)..|].
  intros r a Hr. eapply (request_fits_moves (m, l) (m', l)); [by apply onward_moves|by eapply C].
Qed.

Lemma onward_goes m m' l o : onward m m' -> mail_inv (m, l) -> owned token_holds o (m, l) -> mgoes o (m, l) o (m', l).
Proof.
  intros H Hi Hh.
  assert (F : forall t, token_holds t (m, l) -> token_holds t (m', l)).
  { intros t Ht. eapply (token_frame _ _ _ _ None); [exact Ht|done| |done]. by rewrite (on_effects _ _ H). }
  split; [by eapply onward_inv|by apply onward_moves| |by auto]. destruct o; [by apply F|done].
Qed.

Lemma elsewhere_onward x m m' : mail_ok_but x m -> elsewhere m m' -> onward m m'.
Proof.
  intros Hm H. split; try apply H.
  - split; apply H.
  - intros id d Hd. exists d. split_and!; [by apply H|done|done].
  - intros id d Hd Hn. destruct (el_new _ _ H _ _ Hn Hd) as (now & ->). split; [done|]. split; by intros [].
Qed.

(** A change of delivery columns, row by row. *)
Definition keeps (f : Delivery -> Delivery) : Prop := forall d, dl_consumedAt (f d) = dl_consumedAt d /\ (delivery_ok d -> delivery_ok (f d)).
Lemma delivery_onward x m t : mail_ok_but x m ->
  (forall id, is_Some (t !! id) <-> is_Some (delivery m !! id)) ->
  (forall id d d', delivery m !! id = Some d -> t !! id = Some d' -> dl_consumedAt d' = dl_consumedAt d /\ (delivery_ok d -> delivery_ok d')) ->
  onward m (set_delivery t m).
Proof.
  intros Hm Hdom Hrow. split; cbn; [done|done|done|apply Hm| |change (same_terms m m); reflexivity| | |done|done].
  - intros id. rewrite Hdom. apply Hm.
  - intros id d Hd. destruct (proj2 (Hdom id)) as [d' Hd']; [by eexists|]. exists d'. split; [done|by eapply Hrow].
  - intros id d Hd Hn. destruct (proj1 (Hdom id)) as [d' Hd']; [by eexists|congruence].
Qed.

Lemma update_event_step x id P f m n m' : mail_ok_but x m -> (forall d, P d = true ->
    dl_consumedAt (f d) = dl_consumedAt d /\ (delivery_ok d -> delivery_ok (f d))) ->
  update_event id P f m = Ok (n, m') -> onward m m'.
Proof.
  intros Hm Hf H. unfold update_event in H. run_inv.
  assert (Hrefl : onward m m).
  { replace m with (set_delivery (delivery m) m) at 2 by (by destruct m). eapply delivery_onward; [done|done|]. intros i d d' H1 H2. by simplify_eq. }
  destruct (delivery m !! id) as [d|] eqn:E; [|by run_inv]. destruct (P d) eqn:Ep; [|by run_inv]. run_inv.
  eapply delivery_onward; [done| |]; intros i.
  - destruct (decide (i = id)) as [->|]; [rewrite lookup_insert_eq, E; split; by eexists|by rewrite lookup_insert_ne].
  - intros d0 d1 H0 H1. destruct (decide (i = id)) as [->|].
    + rewrite lookup_insert_eq in H1. simplify_eq. by apply Hf.
    + rewrite lookup_insert_ne in H1 by done. by simplify_eq.
Qed.

(** A statement that goes onward, in a process that holds nothing. *)
Lemma wp_onward {A} (x : M Mail A) post s0 :
  (forall m a m', mail_ok m -> x m = Ok (a, m') -> onward m m') ->
  (forall s r, mail_moves s0 s -> post s None r) -> mwp (stmt x) post s0 None.
Proof.
  intros Hx Hp. apply (wp_stmt mail_inv mail_moves token_holds token_apart). intros [m l] Hs Hi _. split; [intros e; by apply Hp|]. intros a m' Ha.
  assert (G : mgoes None (m, l) None (m', l)) by (apply onward_goes; [eapply Hx; [apply Hi|done]|done|done]).
  assert (M : mail_moves s0 (m', l)) by (etrans; [exact Hs|apply G]).
  exists None. split; [exact G|]. split; [by apply Hp|intros e; by apply Hp].
Qed.

(** A question that is not a message. *)
Lemma ask_inv m l q (r : reply q) : is_send q = false -> mail_inv (m, l) -> mail_inv (m, l ++ [mkCall q r]).
Proof.
  intros Hq [H1 [A B C]]. split; [done|]. split; cbn in *.
  - intros id e He. rewrite messages_other by done. by apply A.
  - intros id He. rewrite messages_other by done. by apply B.
  - intros req a. rewrite elem_of_app, list_elem_of_singleton. intros [H|H]; [by eapply C|]. by destruct q.
Qed.
Lemma wp_ask_other q post s0 o : is_send q = false ->
  (forall s r, mail_moves s0 s -> post s o (Ok r)) -> mwp (ask q) post s0 o.
Proof.
  intros Hq Hp. apply (wp_ask mail_inv mail_moves token_holds token_apart). intros [m l] r Hs Hi Hh.
  assert (F : forall t, token_holds t (m, l) -> token_holds t (m, l ++ [mkCall q r])).
  { intros t Ht. eapply (token_frame _ _ _ _ None); [exact Ht|done|done|]. intros id. by apply messages_other. }
  assert (M : mail_moves (m, l) (m, l ++ [mkCall q r])).
  { split; cbn; try done; [intros i d Hd; by exists d|intros i e He; by exists e|by apply prefix_app_r]. }
  exists o. split; [|apply Hp; by etrans]. split; [by apply ask_inv|done| |by auto]. destruct o; [by apply F|done].
Qed.

(** * Programs that hold nothing and only go onward *)

Definition quiet_at (o : option token) {A} (p : MP A) : Prop := forall s, mwp p (fun _ o' _ => o' = o) s o.
Notation quiet := (quiet_at None).

Lemma quiet_ret o {A} (a : A) : quiet_at o (mret a).
Proof. done. Qed.
Lemma quiet_throw o {A} (e : exn) : quiet_at o (mthrow e : MP A).
Proof. done. Qed.
Lemma quiet_fail o b e : quiet_at o (fail_if b e).
Proof. by destruct b. Qed.
Lemma quiet_result o {A} (r : result A) : quiet_at o (of_result r).
Proof. by destruct r. Qed.
Lemma quiet_bind o {A B} (p : MP A) (f : A -> MP B) : quiet_at o p -> (forall a, quiet_at o (f a)) -> quiet_at o (p ≫= f).
Proof.
  intros Hp Hf s. apply wp_bind. eapply wp_conseq; [apply Hp|]. intros s' o' [a|e] ->; [apply Hf|done].
Qed.
Lemma quiet_try o {A} (p : MP A) h : quiet_at o p -> (forall e, quiet_at o (h e)) -> quiet_at o (try_catch p h).
Proof.
  intros Hp Hh s. apply wp_try. eapply wp_conseq; [apply Hp|]. intros s' o' [a|e] ->; [done|apply Hh].
Qed.
Lemma quiet_each o {X A} (f : A -> X -> MP A) xs acc : (forall a x, quiet_at o (f a x)) -> quiet_at o (each f xs acc).
Proof.
  intros Hf s. apply (wp_each mail_inv mail_moves token_holds token_apart) with (J := fun _ o' _ => o' = o); [done|by intros ? ? ? ->|].
  intros x a s' o' _ ->. eapply wp_conseq; [apply Hf|]. by intros s1 o1 [a'|e].
Qed.
Lemma quiet_query o {A} (f : Mail -> A) : quiet_at o (query f).
Proof. intros s. apply (wp_query mail_inv mail_moves token_holds token_apart). intros s' _ _ _. by split. Qed.
Lemma quiet_stmt {A} (x : M Mail A) : (forall m a m', mail_ok m -> x m = Ok (a, m') -> onward m m') -> quiet (stmt x).
Proof. intros H s. by apply wp_onward. Qed.
Lemma quiet_ask o q : is_send q = false -> quiet_at o (ask q).
Proof. intros H s. by apply wp_ask_other. Qed.
Lemma quiet_forget o {A} (p : MP A) : quiet_at o p -> quiet_at o (forget p).
Proof. intros H. unfold forget. apply (quiet_bind o p (fun _ => Ret tt)); [done|]. intros a. apply (quiet_ret o tt). Qed.

Lemma quiet_update id P f : (forall d, P d = true ->
    dl_consumedAt (f d) = dl_consumedAt d /\ (delivery_ok d -> delivery_ok (f d))) -> quiet (stmt (update_event id P f)).
Proof. intros H. apply quiet_stmt. intros m n m' Hm. by eapply update_event_step. Qed.

Create HintDb quiet.
#[local] Hint Resolve quiet_ret quiet_throw quiet_fail quiet_result quiet_query : quiet.
#[local] Hint Extern 1 (quiet_at _ (ask _)) => by apply quiet_ask : quiet.
Ltac quiet_step :=
  first
  [ assumption
  | solve [auto with quiet nocore]
  | apply quiet_bind; [|intro]
  | apply quiet_try; [|intro]
  | apply quiet_each; intros ? ?
  | match goal with
    | |- quiet_at _ (if ?b then _ else _) => destruct b
    | |- quiet_at _ (match ?x with _ => _ end) => destruct x
    end ].
Ltac quiet_tac := repeat quiet_step.

Section quiet_programs.
Context (collate : string -> string -> Z).

Lemma claim_batch_onward returned m claimed m' : mail_ok m -> claim_batch collate returned m = Ok (claimed, m') -> onward m m'.
Proof.
  intros Hm H. apply claim_batch_step in H as (-> & _ & Hl). eapply delivery_onward; [done| |].
  - intros id. specialize (Hl id). cbn in Hl. rewrite Hl. case_bool_decide; [by rewrite fmap_is_Some|done].
  - intros id d d' Hd Hd'. specialize (Hl id). cbn in Hl. rewrite Hl, Hd in Hd'. case_bool_decide; simplify_eq/=; [|done]. by split; [|intros []].
Qed.

Lemma quiet_relay_event counts event : quiet (relay_event counts event).
Proof.
  unfold relay_event, enqueue. destruct event as [id attempts]. quiet_tac; apply quiet_update; intros d Hd;
    unfold claimed_at in Hd; apply andb_true_iff in Hd as [[_ Hp]%andb_true_iff Hdead]; (split; [done|]); intros [H1 H2]; split; cbn; try done.
  - intros _. by destruct (dl_deadLetteredAt d).
  - intros H. destruct (dl_publishedAt d); [done|by destruct H].
Qed.

Lemma quiet_relay returned : quiet (relay_pass collate returned).
Proof.
  unfold relay_pass. apply quiet_bind; [|intros claimed; apply quiet_bind; [|intros; apply quiet_ret]].
  - apply quiet_stmt. intros m a m'. apply claim_batch_onward.
  - apply quiet_each, quiet_relay_event.
Qed.

Lemma quiet_recordFailure id e final : quiet (recordFailure id e final).
Proof.
  unfold recordFailure. quiet_tac. apply quiet_update. intros d Hd. split; [done|]. intros [H1 H2]. split; cbn; [done|].
  intros [t Ht]. by rewrite Ht in Hd.
Qed.

(** Audits and fresh identifiers touch no table of the outbox. *)
Lemma onward_same x m m' : mail_ok_but x m -> now_of m' = now_of m -> nextId (inv_of (business m)) <= nextId (inv_of (business m')) -> own (business m') = own (business m) -> delivery m' = delivery m ->
  effects m' = effects m -> inbox m' = inbox m -> onward m m'.
Proof.
  intros Hm E1 E0 E2 E3 E4 E5. split; rewrite ?E1, ?E2, ?E3, ?E4, ?E5; [done|done|done|apply Hm|apply Hm| | | |done|done].
  - unfold same_terms. rewrite E2. split; [intros id o H; by exists o|intros id p H; by exists p].
  - intros id d H. by exists d.
  - intros id d H1 H2. congruence.
Qed.
Lemma set_audits_onward x m a : mail_ok_but x m -> onward m (put (Lens := mail_audit) a m).
Proof. intros Hm. by eapply onward_same. Qed.
Lemma create_audit_step actorId action entityId requestId metadata m u m' :
  create_audit actorId action entityId requestId metadata m = Ok (u, m') ->
  m' = put (Lens := mail_audit) (audits (inv_of (business m)) ++ [recordData (mkAuditEvent action "OutboxEvent" entityId None None
    (Some (JObj metadata)) (if truthy actorId then Some actorId else None) (Some requestId))]) m.
Proof. intros H. unfold create_audit in H. run_inv. apply record_ok in H. by simplify_eq. Qed.

Lemma onward_trans m1 m2 m3 : onward m1 m2 -> onward m2 m3 -> onward m1 m3.
Proof.
  intros [A N B C D E F G H I] [A' N' B' C' D' E' F' G' H' I']. split; [lia|lia|by etrans|done|done|by etrans| | |congruence|congruence].
  - intros id d Hd. destruct (F _ _ Hd) as (d1 & Hd1 & E1 & K1). destruct (F' _ _ Hd1) as (d2 & Hd2 & E2 & K2).
    exists d2. split_and!; [done|congruence|auto].
  - intros id d Hd Hn. destruct (delivery m2 !! id) as [d2|] eqn:E2; [|by eapply G'].
    destruct (G _ _ E2 Hn) as [K1 K2]. destruct (F' _ _ E2) as (d3 & Hd3 & E3 & K3). simplify_eq. split; [congruence|auto].
Qed.

Lemma reset_event_onward input id requestId branch now m b m' : mail_ok m ->
  reset_event input id requestId branch now m = Ok (b, m') -> onward m m'.
Proof.
  intros Hm H. unfold reset_event in H. run_inv.
  match goal with H : update_event _ _ _ _ = _ |- _ => eapply update_event_step in H; [|done|intros d Hd; split; [done|by split; cbn; [intros []|]]] end.
  case_bool_decide; run_inv; [|done].
  match goal with H : create_audit _ _ _ _ _ _ = _ |- _ => apply create_audit_step in H as -> end.
  eapply onward_trans; [done|]. eapply set_audits_onward. by eapply onward_ok.
Qed.

Lemma quiet_reject input reason : quiet (reject input reason).
Proof.
  unfold reject, random_uuid. quiet_tac. apply quiet_stmt. intros m u m' Hm H. apply create_audit_step in H as ->. by eapply set_audits_onward.
Qed.
Lemma quiet_clear id : quiet (clearTerminalJob id).
Proof. unfold clearTerminalJob, get_job, get_state, remove_job. quiet_tac. Qed.
#[local] Hint Resolve quiet_reject quiet_clear : quiet.
Lemma quiet_replay input : quiet (replay input).
Proof.
  unfold replay, reset_and_answer, permission_keys, random_uuid.
  quiet_tac. apply quiet_stmt. intros m b m'. apply reset_event_onward.
Qed.

Lemma quiet_template o templates config kind : quiet_at o (template_id templates config kind).
Proof. unfold template_id, resolve. quiet_tac. Qed.
End quiet_programs.

(** * The transaction of the consumer *)

Definition commit_ok (x : string) (s : State) : Prop := mail_ok_but (Some x) s.1 /\ sms_ok s.
(** One write of the transaction that consumes [x]. *)
Record writes (x : string) (m m' : Mail) (l : calls question reply) : Prop := mkWrites {
  wr_ok : commit_ok x (m', l);
  wr_moves : mail_moves (m, l) (m', l);
  wr_failed : forall id e, effects m !! id = Some e -> ef_status e = EFFECT_FAILED -> effects m' !! id = Some e
}.
Lemma writes_trans x m1 m2 m3 l : writes x m1 m2 l -> writes x m2 m3 l -> writes x m1 m3 l.
Proof. intros [A B C] [A' B' C']. split; [done|by etrans|auto]. Qed.
Lemma writes_refl x m l : commit_ok x (m, l) -> writes x m m l.
Proof. by split. Qed.

Lemma onward_writes x m m' l : onward m m' -> commit_ok x (m, l) -> writes x m m' l.
Proof.
  intros H [H1 [A B C]]. split; [|by apply onward_moves|by rewrite (on_effects _ _ H)].
  split; [by eapply onward_ok|]. split; cbn in *; [by rewrite (on_effects _ _ H)..|].
  intros r a Hr. eapply (request_fits_moves (m, l) (m', l)); [by apply onward_moves|by eapply C].
Qed.

(** A change of the effects alone. *)
Lemma effects_moves m t l : (forall id e, effects m !! id = Some e -> exists e', t !! id = Some e' /\ effect_moves e e') ->
  mail_moves (m, l) (set_effects t m, l).
Proof. intros H. split; cbn; try done; [change (same_terms m m); reflexivity|]. intros id d Hd. by exists d. Qed.

(** Rows whose fixed columns stay are still the effects of their events. *)
Definition same_fixed (e e' : OutboxEffect) : Prop :=
  ef_id e' = ef_id e /\ ef_eventId e' = ef_eventId e /\ ef_kind e' = ef_kind e /\ ef_subjectId e' = ef_subjectId e.
Lemma effects_ok x m t : mail_ok_but x m -> (forall id, effects m !! id = None -> t !! id = None) ->
  (forall id e, effects m !! id = Some e -> exists e', t !! id = Some e' /\ same_fixed e e') -> mail_ok_but x (set_effects t m).
Proof.
  intros [A B C D N E F G I J] Hn Hs.
  assert (Hb : forall id e', t !! id = Some e' -> exists e, effects m !! id = Some e /\ same_fixed e e').
  { intros id e' He'. destruct (effects m !! id) as [e|] eqn:Ee; [|by rewrite Hn in He']. exists e. split; [done|].
    destruct (Hs _ _ Ee) as (e2 & He2 & Hf). congruence. }
  split; cbn; try done.
  - intros id e' He'. destruct (Hb _ _ He') as (e & He & -> & _). by eapply D.
  - intros n Hle. by apply Hn, N.
  - intros i j e1 e2 H1 H2 Eq. destruct (Hb _ _ H1) as (e3 & H3 & _ & E3 & _), (Hb _ _ H2) as (e4 & H4 & _ & E4 & _).
    eapply E; [exact H3|exact H4|congruence].
  - intros id e' He'. destruct (Hb _ _ He') as (e & He & _ & Ev & Ek & Es). destruct (F _ _ He) as (ev & d & Hev & Hd & Hfit).
    exists ev, d. rewrite Ev. split_and!; [done|done|by apply (effect_fits_same m _ ev e)].
  - intros id d Hd Hc. destruct (G _ _ Hd Hc) as (fx & e & He & Eid). destruct (Hs _ _ He) as (e' & He' & _ & Ev & _).
    exists fx, e'. split; [done|congruence].
Qed.

Lemma completed_sent e ms : ef_status e = EFFECT_PENDING -> effect_sent e ms -> effect_sent (completed e) ms.
Proof. intros Hp [Q1 Q2 Q3 Q4]. split; [done|done|done|]. intros y Hy. destruct (Q4 _ Hy) as [Hy' _]. congruence. Qed.

Lemma complete_writes x m l P : (forall e, P e = true -> ef_status e = EFFECT_PENDING) -> commit_ok x (m, l) ->
  writes x m (set_effects (update_many P completed (effects m)) m) l.
Proof.
  intros HP [Hok [S1 S2 S3]]. set (t := update_many P completed (effects m)).
  assert (Hl : forall id, t !! id = (fun e => if P e then completed e else e) <$> effects m !! id) by (intros; apply lookup_update_many).
  assert (Hm : mail_moves (m, l) (set_effects t m, l)).
  { apply effects_moves. intros id e He. rewrite Hl, He. eexists. split; [done|]. destruct (P e) eqn:Ep; [|done].
    apply HP in Ep. unfold effect_moves. cbn. split_and!; try done. congruence. }
  split; [split; [|split; cbn]|done|].
  - apply effects_ok; [done|by intros id Hn; rewrite Hl, Hn|]. intros id e He. rewrite Hl, He. eexists. split; [done|]. by destruct (P e).
  - intros id e. rewrite Hl. destruct (effects m !! id) as [e0|] eqn:H0; [|done]. intros [= <-]. specialize (S1 _ _ H0). cbn in S1.
    destruct (P e0) eqn:Ep; [|done]. apply completed_sent; [by apply HP|done].
  - intros id. rewrite Hl, fmap_None. apply S2.
  - intros r a Hr. exact (request_fits_moves _ _ _ Hm (S3 r a Hr)).
  - intros id e He Hs. cbn. rewrite Hl, He. cbn. destruct (P e) eqn:Ep; [|done]. apply HP in Ep. congruence.
Qed.

Lemma notice_fits_moves x s s' n : mail_moves s s' -> notice_fits x s.1 n -> notice_fits x s'.1 n.
Proof.
  intros H (ev & d & orderId & o & draft & He & Hc & Ho & Hf & Hd & ->). apply event_of_Some in He as [He Hdv].
  destruct (mm_delivery _ _ H _ _ Hdv) as (d' & Hd' & E).
  destruct (proj1 (mm_terms _ _ H) _ _ Hf) as (o' & Hf' & El). injection El as En _.
  exists ev, d', orderId, o', draft. rewrite En. split_and!; try done.
  - apply event_of_Some. split; [|done]. eapply lookup_weaken; [exact He|apply H].
  - destruct Hc as [?|Hc]; [by left|right]. by rewrite E.
  - eapply event_order_terms; [apply H|done].
Qed.
Lemma notice_fits_writes x m m' l n : writes x m m' l -> notice_fits (Some x) m n -> notice_fits (Some x) m' n.
Proof. intros H. apply (notice_fits_moves _ (m, l) (m', l)), H. Qed.

Lemma fresh_row_step x m id m' : mail_ok_but x m -> fresh_row cuid m = Ok (id, m') -> onward m m' /\ m' = set_business (business m') m.
Proof.
  intros Hm H. unfold fresh_row in H. apply zoom_ok in H as (b & Hb & ->). unfold on_inv in Hb. apply zoom_ok in Hb as (i & Hi & ->).
  unfold fresh_id in Hi. injection Hi as <- <-. split; [eapply onward_same; try done; cbn; lia|done].
Qed.

(** A new effect, for an event that has none. *)
Lemma insert_effect_writes x m l id e ev d : commit_ok x (m, l) -> event_of x m = Some (ev, d) -> effect_fits m ev e ->
  effects m !! id = None -> find_by (of_event x) (effects m) = None -> ef_id e = id -> ef_eventId e = x -> ef_attemptCount e = 0%Z ->
  ef_providerMessageId e = None -> (forall n, nextId (inv_of (business m)) <= n -> cuid n <> id) ->
  writes x m (set_effects (<[id := e]> (effects m)) m) l.
Proof.
  intros [[A B C D N E F G I J] [S1 S2 S3]] Hev Hfit Hn Hnone Eid Ex En Ep Hfresh. cbn in *.
  rewrite find_by_None in Hnone. unfold of_event in Hnone.
  assert (Hother : forall i e0, effects m !! i = Some e0 -> ef_eventId e0 <> x).
  { intros i e0 H0. specialize (Hnone _ _ H0). by apply bool_decide_eq_false in Hnone. }
  assert (Hold : forall i e0, effects m !! i = Some e0 -> <[id := e]> (effects m) !! i = Some e0).
  { intros i e0 H0. rewrite lookup_insert_ne; [done|congruence]. }
  assert (Hm : mail_moves (m, l) (set_effects (<[id := e]> (effects m)) m, l)).
  { apply effects_moves. intros i e0 H0. exists e0. by split; [apply Hold|]. }
  split; [split; [split; cbn; try done|split; cbn]|done|intros i e0 H0 _; by apply Hold].
  - intros i e0 [[<- <-]|[_ H0]]%lookup_insert_Some; [done|by apply D].
  - intros n Hle. rewrite lookup_insert_ne; [by apply N|]. intros Eq. by eapply Hfresh.
  - intros i j e0 e1 [[<- <-]|[_ H0]]%lookup_insert_Some [[<- <-]|[_ H1]]%lookup_insert_Some Eq; [done| | |by eapply E].
    + exfalso. eapply Hother; [exact H1|congruence].
    + exfalso. eapply Hother; [exact H0|congruence].
  - intros i e0 [[<- <-]|[_ H0]]%lookup_insert_Some.
    + exists ev, d. rewrite Ex. split_and!; [done|by left|]. by apply (effect_fits_same m _ ev e).
    + destruct (F _ _ H0) as (ev0 & d0 & He0 & Hd0 & Hf0). exists ev0, d0. split_and!; [done|done|]. by apply (effect_fits_same m _ ev0 e0).
  - intros i d0 Hd0 Hc. destruct (G _ _ Hd0 Hc) as (fx & e0 & H0 & Eq). exists fx, e0. by split; [apply Hold|].
  - intros i e0 [[<- <-]|[_ H0]]%lookup_insert_Some; [|by apply S1]. rewrite (S2 _ Hn).
    split; [rewrite En; cbn; unfold SMS_MAX_ATTEMPTS; lia|rewrite En; by split| |by rewrite Ep].
    intros [|? before] a Hb; [constructor|done].
  - intros i [H0 _]%lookup_insert_None. by apply S2.
  - intros r a Hr. exact (request_fits_moves _ _ _ Hm (S3 r a Hr)).
Qed.

Lemma create_effect_writes x ev d kind subject status m l u m' : commit_ok x (m, l) -> event_of x m = Some (ev, d) ->
  (forall e, ef_kind e = kind -> ef_subjectId e = subject -> effect_fits m ev e) ->
  create_effect cuid x kind subject status m = Ok (u, m') ->
  writes x m m' l /\ exists fx e, effects m' !! fx = Some e /\ ef_eventId e = x.
Proof.
  intros Hok Hev Hfit H. unfold create_effect in H. run_inv.
  match goal with H : fresh_row _ _ = Ok (?i, ?s) |- _ => rename i into id, s into m1, H into Hr end.
  assert (En : id = cuid (nextId (inv_of (business m)))).
  { unfold fresh_row in Hr. apply zoom_ok in Hr as (b & Hb & _). apply zoom_ok in Hb as (i & Hi & _). by injection Hi. }
  assert (En1 : nextId (inv_of (business m1)) = S (nextId (inv_of (business m)))).
  { unfold fresh_row in Hr. apply zoom_ok in Hr as (b & Hb & ->). apply zoom_ok in Hb as (i & Hi & ->). by injection Hi as _ <-. }
  apply (fresh_row_step (Some x)) in Hr as [Hon Em1]; [|apply Hok].
  assert (W1 : writes x m m1 l) by (by apply onward_writes).
  assert (Hnone : effects m1 !! id = None) by (rewrite (on_effects _ _ Hon), En; by apply (mo_fresh _ _ (proj1 Hok))).
  rewrite (bool_decide_eq_false_2 (is_Some (effects m1 !! id))) by (rewrite Hnone; by intros []). cbn [orb].
  case_bool_decide as Hdup.
  - split; [done|]. destruct Hdup as [e He]. apply find_by_Some in He as [[fx Hfx] He]. exists fx, e. split; [done|].
    by apply bool_decide_eq_true in He.
  - destruct (onward_event _ _ _ _ _ Hon Hev) as (d1 & Hev1 & _). split.
    + eapply writes_trans; [exact W1|]. eapply insert_effect_writes; try done; [apply W1| |by destruct (find_by _ _); [destruct Hdup; eexists|]|].
      * eapply effect_fits_terms; [apply Hon|]. by apply Hfit.
      * intros n Hle Eq. rewrite En in Eq. apply (inj cuid) in Eq. lia.
    + eexists id, _. split; [apply lookup_insert_eq|done].
Qed.

(** A notification, unless its user has it. *)
Lemma insert_notification_writes x m l id n t : commit_ok x (m, l) -> notice_fits (Some x) m n ->
  inbox m !! id = None -> find_by (same_notice n) (inbox m) = None ->
  writes x m (set_inbox (<[id := mkNotification id n None t]> (inbox m)) m) l.
Proof.
  intros [[A B C D N E F G I J] [S1 S2 S3]] Hfit Hn Hnone. cbn in *. rewrite find_by_None in Hnone.
  set (m' := set_inbox _ m).
  assert (Hm : mail_moves (m, l) (m', l)).
  { split; cbn; try done; [change (same_terms m m); reflexivity|intros i d Hd; by exists d|intros i e He; by exists e|].
    rewrite fmap_insert. apply insert_subseteq. by rewrite lookup_fmap, Hn. }
  assert (Hsym : forall i q, inbox m !! i = Some q -> same_notice (in_data q) (mkNotification id n None t) = false).
  { intros i q Hq. specialize (Hnone _ _ Hq). unfold same_notice in *. cbn.
    destruct (decide (nd_userId (in_data q) = nd_userId n)) as [Eu|], (decide (nd_dedupKey (in_data q) = nd_dedupKey n)) as [Ek|];
      rewrite ?(bool_decide_eq_false_2 (nd_userId n = _)), ?(bool_decide_eq_false_2 (nd_dedupKey n = _)), ?andb_false_r by congruence; try done.
    by rewrite !bool_decide_eq_true_2 in Hnone. }
  split; [split; [split; cbn; try done|split; cbn; try done]|done|done].
  - intros i e He. destruct (F _ _ He) as (ev & d & Hev & Hd & Hf). exists ev, d. split_and!; [done|done|]. by apply (effect_fits_same m _ ev e).
  - intros i q [[<- <-]|[_ Hq]]%lookup_insert_Some; [exact Hfit|exact (I _ _ Hq)].
  - intros i j q r [[<- <-]|[_ Hq]]%lookup_insert_Some [[<- <-]|[_ Hr]]%lookup_insert_Some; cbn; intros Hs; [done| | |by eapply J].
    + by rewrite (Hnone _ _ Hr) in Hs.
    + by rewrite (Hsym _ _ Hq) in Hs.
Qed.

Lemma create_notification_writes x n m l u m' : commit_ok x (m, l) -> notice_fits (Some x) m n ->
  create_notification cuid n m = Ok (u, m') -> writes x m m' l.
Proof.
  intros Hok Hfit H. unfold create_notification in H. run_inv.
  match goal with H : fresh_row _ _ = Ok (?i, ?s) |- _ => rename i into id, s into m1, H into Hr end.
  apply (fresh_row_step (Some x)) in Hr as [Hon Em1]; [|apply Hok].
  assert (W1 : writes x m m1 l) by (by apply onward_writes). eapply writes_trans; [exact W1|].
  destruct (inbox m1 !! id) eqn:E1; [apply writes_refl, W1|]. destruct (find_by (same_notice n) (inbox m1)) eqn:E2; [apply writes_refl, W1|].
  apply insert_notification_writes; [apply W1| |done|done]. by eapply notice_fits_writes.
Qed.
Lemma create_notifications_writes x rows m l u m' : commit_ok x (m, l) -> (forall n, n ∈ rows -> notice_fits (Some x) m n) ->
  for_each rows (create_notification cuid) m = Ok (u, m') -> writes x m m' l.
Proof.
  revert m. induction rows as [|n rows IH]; intros m Hok Hfit H; cbn in H; run_inv; [by apply writes_refl|].
  match goal with H1 : create_notification _ _ _ = _ |- _ => eapply create_notification_writes in H1 as W1; [|exact Hok|apply Hfit; set_solver] end.
  eapply writes_trans; [exact W1|]. eapply IH; [apply W1| |done]. intros n' Hn'. eapply notice_fits_writes; [done|]. apply Hfit. set_solver.
Qed.

Lemma finished_all x m d : delivery m !! x = Some d -> is_Some (dl_consumedAt d) -> mail_ok_but (Some x) m -> mail_ok m.
Proof.
  intros Hd Hc [A B C D N E F G I J].
  assert (K : forall i ev d0, event_of i m = Some (ev, d0) -> finished (Some x) i d0 -> finished None i d0).
  { intros i ev d0 [_ H0]%event_of_Some [[= ->]|Hs]; right; [congruence|done]. }
  split; try done.
  - intros i e He. destruct (F _ _ He) as (ev & d0 & Hev & Hf & Hfit). exists ev, d0. split_and!; [done|by eapply K|done].
  - intros i n Hn. destruct (I _ _ Hn) as (ev & d0 & orderId & o & draft & Hev & Hf & Hrest).
    exists ev, d0, orderId, o, draft. split_and!; [done|by eapply K|apply Hrest..].
Qed.

(** The event is marked as consumed once it has its effect. *)
Lemma consumed_moves m l x d now : delivery m !! x = Some d -> dl_consumedAt d = None ->
  mail_moves (m, l) (set_delivery (<[x := consumed now d]> (delivery m)) m, l).
Proof.
  intros Hd Hc. split; cbn; try done; [change (same_terms m m); reflexivity| |intros i e He; by exists e].
  intros i d0 H0. destruct (decide (i = x)) as [->|]; [|exists d0; by rewrite lookup_insert_ne].
  exists (consumed now d). rewrite lookup_insert_eq. split; [done|]. simplify_eq. rewrite Hc. by intros [].
Qed.

Lemma acknowledge_writes m l x d now fx e : commit_ok x (m, l) -> delivery m !! x = Some d -> dl_consumedAt d = None ->
  effects m !! fx = Some e -> ef_eventId e = x -> writes x m (set_delivery (<[x := consumed now d]> (delivery m)) m) l.
Proof.
  intros [[A B C D N E F G I J] [S1 S2 S3]] Hd Hc Hfx Hx. cbn in *.
  assert (Hev : forall i ev d0, event_of i m = Some (ev, d0) -> exists d1,
    event_of i (set_delivery (<[x := consumed now d]> (delivery m)) m) = Some (ev, d1) /\
    (finished (Some x) i d0 -> finished (Some x) i d1)).
  { intros i ev d0 [He H0]%event_of_Some. destruct (decide (i = x)) as [->|Hne].
    - exists (consumed now d). split; [apply event_of_Some; split; [done|apply lookup_insert_eq]|by left].
    - exists d0. split; [apply event_of_Some; split; [done|cbn; by rewrite lookup_insert_ne]|done]. }
  split; [split; [split; cbn; try done|split; cbn; try done]|by apply consumed_moves|done].
  - intros i. rewrite B. destruct (decide (i = x)) as [->|]; [rewrite lookup_insert_eq, Hd; split; by eexists|by rewrite lookup_insert_ne].
  - intros i d0 [[<- <-]|[_ H0]]%lookup_insert_Some; [|by eapply C]. destruct (C _ _ Hd) as [C1 _]. by split.
  - intros i e0 He. destruct (F _ _ He) as (ev & d0 & H0 & Hf & Hfit). destruct (Hev _ _ _ H0) as (d1 & H1 & K).
    exists ev, d1. split_and!; [done|by apply K|]. by apply (effect_fits_same m _ ev e0).
  - intros i d0 [[<- <-]|[_ H0]]%lookup_insert_Some Hs; [by exists fx, e|by eapply G].
  - intros i n Hn. destruct (I _ _ Hn) as (ev & d0 & orderId & o & draft & H0 & Hf & Hrest). destruct (Hev _ _ _ H0) as (d1 & H1 & K).
    exists ev, d1, orderId, o, draft. split_and!; [done|by apply K|apply Hrest..].
Qed.

(** The whole transaction. *)
Lemma consume_writes_goes x ev d kind s rows settled now m l u m' : mail_inv (m, l) -> event_of x m = Some (ev, d) ->
  (forall e, ef_kind e = kind -> ef_subjectId e = sb_subjectId s -> effect_fits m ev e) ->
  (forall n, n ∈ rows -> notice_fits (Some x) m n) ->
  consume_writes cuid x kind s rows settled now m = Ok (u, m') -> mgoes None (m, l) None (m', l).
Proof.
  intros [Hok Hsms] Hev Hfit Hrows H. unfold consume_writes in H.
  assert (C0 : commit_ok x (m, l)).
  { split; [|done]. destruct Hok as [A B C D N E F G I J]. split; try done.
    - intros i e He. destruct (F _ _ He) as (ev0 & d0 & H0 & [?|Hf] & Hfit0); [done|]. exists ev0, d0. split_and!; [done|by right|done].
    - intros i n Hn. destruct (I _ _ Hn) as (ev0 & d0 & orderId & o & draft & H0 & [?|Hf] & Hrest); [done|].
      exists ev0, d0, orderId, o, draft. split_and!; [done|by right|apply Hrest..]. }
  apply bind_ok in H as (? & m1 & H1 & H). apply modify_ok in H1. injection H1 as -> ->.
  match goal with H : context [set_effects ?t m] |- _ => set (m1 := set_effects t m) in * end.
  assert (W1 : writes x m m1 l).
  { apply complete_writes; [|done]. intros e [_ He]%andb_true_iff. by apply bool_decide_eq_true in He. }
  apply bind_ok in H as (? & m2 & H2 & H).
  eapply (create_effect_writes x ev d) in H2 as (W2 & Hfx); [|apply W1|done|intros e H3 H4; by apply (effect_fits_same m _ ev e), Hfit].
  apply bind_ok in H as (? & m3 & H3 & H). assert (W12 := writes_trans _ _ _ _ _ W1 W2).
  eapply create_notifications_writes in H3 as W3; [|apply W2|intros n Hn; eapply notice_fits_writes; [exact W12|by apply Hrows]].
  assert (W13 := writes_trans _ _ _ _ _ W12 W3).
  apply bind_ok in H as (? & m4 & H4 & H).
  assert (W4 : writes x m3 m4 l).
  { destruct settled; [|apply ret_ok in H4; injection H4 as -> ->; apply writes_refl, W3].
    apply modify_ok in H4. injection H4 as -> ->. apply complete_writes; [|apply W3].
    intros e [_ He]%andb_true_iff. by apply bool_decide_eq_true in He. }
  assert (W14 := writes_trans _ _ _ _ _ W13 W4).
  apply bind_ok in H as (n & m5 & H5 & H). apply ret_ok in H. injection H as -> ->.
  assert (Hx : exists fx e, effects m4 !! fx = Some e /\ ef_eventId e = x).
  { destruct Hfx as (fx & e & He & Ex). destruct (mm_effects _ _ (wr_moves _ _ _ _ (writes_trans _ _ _ _ _ W3 W4)) _ _ He) as (e' & He' & Ev & _).
    exists fx, e'. split; [exact He'|congruence]. }
  clear Hfx.
  apply event_of_Some in Hev as [_ Hd]. destruct (mm_delivery _ _ (wr_moves _ _ _ _ W14) _ _ Hd) as (d4 & Hd4 & _). cbn in Hd4.
  unfold update_event in H5. run_inv. rewrite Hd4 in H5. destruct (dl_consumedAt d4) as [t|] eqn:Ec; cbn in H5; run_inv.
  - assert (W5 : mail_inv (m4, l)).
    { split; [|apply W4]. eapply (finished_all x); [exact Hd4|by rewrite Ec|apply W4]. }
    split; [done|apply W14|done|]. intros tk Ht _. split; [|done]. eapply (token_frame _ _ _ _ None); [exact Ht|done|apply W14|done].
  - assert (W5 : writes x m4 (set_delivery (<[x := consumed now d4]> (delivery m4)) m4) l).
    { destruct Hx as (fx & e & He & Ex). by eapply acknowledge_writes; [apply W4|..]. }
    assert (W15 := writes_trans _ _ _ _ _ W14 W5).
    split; [split; [|apply W5]|apply W15|done|].
    + eapply (finished_all x); [apply lookup_insert_eq|by eexists|apply W5].
    + intros tk Ht _. split; [|done]. eapply (token_frame _ _ _ _ None); [exact Ht|done|apply W15|done].
Qed.

(** * The consumer *)

Notation silent := (fun (_ : State) (o : option token) (_ : result _) => o = None).

Lemma event_of_moves s s' id ev d : mail_moves s s' -> event_of id s.1 = Some (ev, d) -> exists d', event_of id s'.1 = Some (ev, d').
Proof.
  intros H [He Hd]%event_of_Some. destruct (mm_delivery _ _ H _ _ Hd) as (d' & Hd' & _). exists d'.
  apply event_of_Some. split; [|done]. eapply lookup_weaken; [exact He|apply H].
Qed.

(** What the consumer knows of the subject. *)
Definition subject_known (m : Mail) (ev : OutboxEvent) (kind : OutboxEffectKind) (s : Subject) : Prop :=
  (forall e, ef_kind e = kind -> ef_subjectId e = sb_subjectId s -> effect_fits m ev e) /\ event_order m ev (sb_orderId s).

Tactic Notation "since" tactic3(tac) := eapply wp_conseq; [apply (wp_since mail_inv mail_moves token_holds token_apart); tac|].

Lemma wp_quiet o {A} (p : MP A) post s0 : quiet_at o p -> (forall s r, mail_moves s0 s -> post s o r) -> mwp p post s0 o.
Proof. intros Hp H. since (apply Hp). intros s o' r [M ->]. by apply H. Qed.

Lemma quiet_to_close topic paymentId : quiet (to_close topic paymentId).
Proof. unfold to_close. case_bool_decide; [apply quiet_query|apply quiet_ret]. Qed.
Lemma quiet_settled kind s : quiet (settled_meanwhile kind s).
Proof. unfold settled_meanwhile. quiet_tac. Qed.
Lemma quiet_recipients d userId now : quiet (recipients d userId now).
Proof. unfold recipients. quiet_tac. Qed.

Lemma read_subject_wp ev kind s0 : assoc (ob_topic ev) TOPIC_KIND = Some kind -> ob_aggregateType ev = expected_aggregate (ob_topic ev) ->
  mwp (read_subject ev kind) (fun s o r => o = None /\ forall sb, r = Ok sb -> subject_known s.1 ev kind sb) s0 None.
Proof.
  intros Hk Ht. unfold read_subject. case_bool_decide as Hagg; apply wp_bind;
    apply (wp_query mail_inv mail_moves token_holds token_apart); intros s1 _ _ _; (split; [|done]).
  - case_bool_decide as Ho; cbn; (split; [done|]); intros sb E; simplify_eq/=. split; cbn.
    + intros e <- Es. split; [done|done|]. by rewrite bool_decide_eq_true_2.
    + unfold event_order. by rewrite bool_decide_eq_true_2.
  - unfold payment_header. destruct (payments (own (business s1.1)) !! ob_aggregateId ev) as [p|] eqn:Ep; cbn; [|by split].
    apply wp_bind. apply wp_quiet; [apply quiet_to_close|].
    intros s2 [closes|e] M; (split; [done|]); intros sb E; simplify_eq.
    destruct (proj2 (mm_terms _ _ M) _ _ Ep) as (p' & Hp' & Eo). split; cbn.
    + intros e <- Es. split; [done|done|]. rewrite bool_decide_eq_false_2 by done. exists p'. by rewrite Eo.
    + unfold event_order. rewrite bool_decide_eq_false_2 by done. by exists p'.
Qed.

Lemma project_wp ev d orderId s0 : event_of (ob_id ev) s0.1 = Some (ev, d) -> event_order s0.1 ev orderId ->
  mwp (project (ob_id ev) (ob_topic ev) orderId)
    (fun s o r => o = None /\ forall rows, r = Ok rows -> forall n, n ∈ rows -> notice_fits (Some (ob_id ev)) s.1 n) s0 None.
Proof.
  intros Hev Hord. unfold project. case_bool_decide as Hd.
  { split; [done|]. intros rows [= <-] n Hn. by apply elem_of_nil in Hn. }
  clear Hd. apply wp_bind. apply (wp_query mail_inv mail_moves token_holds token_apart). intros s1 M1 _ _. split; [|done].
  destruct (order_header orderId s1.1) as [[number userId]|] eqn:Eh; [|split; [done|]; intros rows [= <-] n Hn; by apply elem_of_nil in Hn].
  unfold order_header in Eh. destruct (find_order orderId (own (business s1.1))) as [o|] eqn:Eo; [|done]. injection Eh as <- <-.
  assert (Hfit : forall draft u s2, draft ∈ default [] (assoc (ob_topic ev) NOTIFICATION_DRAFTS) -> mail_moves s1 s2 ->
    notice_fits (Some (ob_id ev)) s2.1 (notice (ob_id ev) orderId (or_number o) draft u)).
  { intros draft u s2 Hin M2. apply (notice_fits_moves _ s1); [done|]. destruct (event_of_moves _ _ _ _ _ M1 Hev) as [d1 Hev1].
    exists ev, d1, orderId, o, draft. split_and!; [done|by left|by eapply event_order_terms; [apply M1|]|done|done|done]. }
  apply wp_bind. apply (wp_query mail_inv mail_moves token_holds token_apart). intros s2 M2 _ _. split; [|done].
  unfold project_drafts. apply (wp_each mail_inv mail_moves token_holds token_apart) with
    (J := fun s o rows => o = None /\ mail_moves s1 s /\ forall n, n ∈ rows -> notice_fits (Some (ob_id ev)) s.1 n).
  - split_and!; [done|done|]. intros n Hn. by apply elem_of_nil in Hn.
  - intros s3 o3 acc (-> & _ & H). split; [done|]. by intros rows [= <-].
  - intros draft acc s3 o3 Hin (-> & M3 & H). apply wp_bind. apply wp_quiet; [apply quiet_recipients|].
    intros s4 [userIds|e] M4; [|done]. split_and!; [done|by etrans|]. intros n [Hn|Hn]%elem_of_app.
    + eapply notice_fits_moves; [exact M4|by apply H].
    + apply list_elem_of_fmap in Hn as (u & -> & _). apply Hfit; [done|by etrans].
Qed.

Lemma quiet_consume eventId : quiet (consume cuid eventId).
Proof.
  intros s0. unfold consume. apply wp_bind. apply (wp_query mail_inv mail_moves token_holds token_apart). intros s1 M1 [I1 _] _. split; [|done].
  destruct (event_of eventId s1.1) as [[ev d]|] eqn:Hev; [|done]. destruct (is_null (dl_consumedAt d)); [|done].
  assert (Eid : ob_id ev = eventId) by (apply event_of_Some in Hev as [He _]; by eapply mo_keys). subst eventId.
  unfold consume_event. destruct (assoc (ob_topic ev) TOPIC_KIND) as [kind|] eqn:Hk; [|done].
  case_bool_decide as Ht; [|done]. cbn [negb].
  match goal with |- wp _ _ _ _ (fail_if _ _ ≫= ?f) ?P ?s ?o => change (mwp (f tt) P s o) end. cbv beta. apply wp_bind.
  since (by apply read_subject_wp). intros s2 o2 [sb|e] (M2 & -> & Hsb); [|done].
  specialize (Hsb sb eq_refl) as [Hfit Hord]. destruct (event_of_moves _ _ _ _ _ M2 Hev) as [d2 Hev2].
  apply wp_bind. since (by eapply project_wp). intros s3 o3 [rows|e] (M3 & -> & Hrows); [|done]. cbv beta iota.
  specialize (Hrows rows eq_refl). apply wp_bind. apply wp_quiet; [apply quiet_settled|].
  intros s4 [settled|e] M4; [|done]. cbv beta iota. apply wp_bind.
  apply (wp_query mail_inv mail_moves token_holds token_apart). intros s5 M5 _ _. split; [|done].
  apply (wp_stmt mail_inv mail_moves token_holds token_apart). intros [m l] M6 I6 _. split; [done|]. intros u m' Hu.
  assert (M : mail_moves s2 (m, l)) by (by repeat (etrans; [eassumption|])). assert (M' : mail_moves s3 (m, l)) by (by repeat (etrans; [eassumption|])).
  destruct (event_of_moves _ _ _ _ _ M Hev2) as [d6 Hev6]. exists None. split; [|by split].
  eapply consume_writes_goes; [done|exact Hev6| | |exact Hu].
  - intros e Ek Es. eapply effect_fits_terms; [apply M|by apply Hfit].
  - intros n Hn. eapply (notice_fits_moves _ s3 (m, l)); [done|by apply Hrows].
Qed.

Lemma quiet_deliver name eventId made attempts : quiet (deliver_job cuid name eventId made attempts).
Proof.
  unfold deliver_job. apply quiet_try.
  - destruct eventId; [apply quiet_bind; [apply quiet_fail|intros; apply quiet_consume]|apply quiet_throw].
  - intros e. apply quiet_bind; [destruct eventId; [apply quiet_recordFailure|apply quiet_ret]|intros; apply quiet_throw].
Qed.

(** * Messages to customers *)

Lemma snoc_forall (P : result SmsSendResult -> Prop) ms before a : Forall P ms -> ms = before ++ [a] -> Forall P before.
Proof. intros H ->. by apply Forall_app in H as [H _]. Qed.

(** A change of one effect's state, by a process to whom it belongs. *)
Lemma update_effect_goes m l id e e' o o' : mail_inv (m, l) -> effects m !! id = Some e -> same_fixed e e' ->
  effect_moves e e' -> effect_sent e' (messages id l) ->
  (forall t, o' = Some t -> token_id t = id /\ token_holds t (set_effects (<[id := e']> (effects m)) m, l)) ->
  (forall t, token_holds t (m, l) -> clear_of token_apart o t -> token_id t <> id) ->
  mgoes o (m, l) o' (set_effects (<[id := e']> (effects m)) m, l).
Proof.
  intros [Hok [S1 S2 S3]] He Hfix Hmv Hsent Ho' Hclear.
  assert (Hm : mail_moves (m, l) (set_effects (<[id := e']> (effects m)) m, l)).
  { apply effects_moves. intros i e0 H0. destruct (decide (i = id)) as [->|]; [exists e'; rewrite lookup_insert_eq; by simplify_eq|].
    exists e0. by rewrite lookup_insert_ne. }
  split; [split; [|split; cbn]|done|destruct o' as [t|]; [by apply Ho'|done]|].
  - apply effects_ok; [done| |].
    + intros i Hi. rewrite lookup_insert_ne; [done|congruence].
    + intros i e0 H0. destruct (decide (i = id)) as [->|]; [exists e'; rewrite lookup_insert_eq; by simplify_eq|].
      exists e0. by rewrite lookup_insert_ne.
  - intros i e0 [[<- <-]|[_ H0]]%lookup_insert_Some; [done|by apply S1].
  - intros i [H0 _]%lookup_insert_None. by apply S2.
  - intros r a Hr. exact (request_fits_moves _ _ _ Hm (S3 r a Hr)).
  - intros t Ht Hc. assert (Hne := Hclear _ Ht Hc). split.
    + destruct Ht as [(e0 & H0 & Hs) Hms]. split; [|done]. exists e0. cbn in *. by rewrite lookup_insert_ne.
    + destruct o' as [u|]; [|done]. intros Eq. apply Hne. rewrite Eq. by apply Ho'.
Qed.

(** Claiming an effect gives its token. *)
Lemma claim_effect_goes id n now m l k m' : mail_inv (m, l) -> claim_effect id n now m = Ok (k, m') ->
  exists o', mgoes None (m, l) o' (m', l) /\ (k = 1%Z -> o' = Some (Claimed id n)) /\ (k <> 1%Z -> o' = None).
Proof.
  intros Hi H. unfold claim_effect, update_effect in H. run_inv.
  assert (Hstay : exists o', mgoes None (m, l) o' (m, l) /\ (0%Z = 1%Z -> o' = Some (Claimed id n)) /\ (0%Z <> 1%Z -> o' = None)).
  { exists None. split; [by apply goes_stay; [apply _| |]|done]. }
  destruct (effects m !! id) as [e|] eqn:He; [|by run_inv]. repeat case_bool_decide; cbn [andb] in H; try by run_inv.
  run_inv. destruct (so_sent _ (proj2 Hi) _ _ He) as [Q1 Q2 Q3 Q4]. destruct (Q2 ltac:(done)) as [Hlt Hlim]. cbn in *.
  exists (Some (Claimed id n)). split; [|done]. apply (update_effect_goes _ _ _ e); [done|done|done| | | |].
  - unfold effect_moves. cbn. split_and!; [done..|lia|congruence].
  - split; cbn; [lia|done|intros before a; by apply snoc_forall|]. intros y Hy. destruct (Q4 _ Hy). congruence.
  - intros t [= <-]. split; [done|]. split; cbn.
    + eexists. split; [apply lookup_insert_eq|done].
    + exists (messages id l). rewrite app_nil_r. split_and!; [done|done|lia].
  - intros t [(e1 & K1 & Ks & _) _] _ Eq. cbn in K1. rewrite Eq, He in K1. congruence.
Qed.

(** What the holder of a token may record. *)
Definition may_record (t : token) (r : SmsSendResult) : Prop :=
  (is_limited r = true -> Forall limited (token_sent t)) /\ (forall x, r = accepted x -> token_sent t = [Ok (accepted x)]).

Lemma record_goes t now r m l k m' : mail_inv (m, l) -> token_holds t (m, l) -> may_record t r ->
  update_effect (token_id t) EFFECT_FAILED (token_count t) (recorded_result (token_count t) now r) m = Ok (k, m') ->
  mgoes (Some t) (m, l) None (m', l).
Proof.
  intros Hi [(e & He & Hs & Hc) (before & Hms & Hlim & Hlen)] [Hr1 Hr2] H. cbn in He, Hms.
  unfold update_effect in H. run_inv. rewrite He in H. rewrite !bool_decide_eq_true_2 in H by done. cbn [andb] in H. run_inv.
  destruct (so_sent _ (proj2 Hi) _ _ He) as [Q1 Q2 Q3 Q4]. cbn in Q1, Q2, Q3, Q4.
  assert (Hno : ef_providerMessageId e = None).
  { destruct (ef_providerMessageId e) as [y|]; [|done]. destruct (Q4 y eq_refl). congruence. }
  apply (update_effect_goes _ _ _ e); [done|done|done| | |done|].
  - unfold effect_moves. cbn. split_and!; try done. congruence.
  - split; cbn; [lia| |done|].
    + unfold will_retry. destruct r; cbn; try done. destruct (token_count t <? SMS_MAX_ATTEMPTS)%Z eqn:El; [|done]. intros _.
      split; [lia|]. rewrite Hms. apply Forall_app. split; [done|by apply Hr1].
    + destruct r as [y| | | | |]; cbn; rewrite ?Hno; try done. intros x [= ->]. split; [done|]. exists before. by rewrite Hms, (Hr2 x).
  - intros u _ Hap. exact Hap.
Qed.

Lemma record_result_wp t r s0 : may_record t r ->
  mwp (record_result (token_id t) (token_count t) r) (fun _ o a => forall b, a = Ok b -> o = None) s0 (Some t).
Proof.
  intros Hr. unfold record_result. apply wp_bind. apply (wp_query mail_inv mail_moves token_holds token_apart).
  intros s1 _ _ _. split; [|done]. apply wp_bind. apply (wp_stmt mail_inv mail_moves token_holds token_apart).
  intros [m l] _ Hi Hh. split; [done|]. intros k m' Hk. exists None. split; [|done]. by eapply record_goes.
Qed.

(** Sending: the call is the message of the attempt that was claimed. *)
Lemma send_goes sms a m l n : mail_inv (m, l) -> token_holds (Claimed (sms_correlationId sms) n) (m, l) -> request_fits m sms ->
  mgoes (Some (Claimed (sms_correlationId sms) n)) (m, l) (Some (Answered (sms_correlationId sms) n a)) (m, l ++ [mkCall (Send sms) a]).
Proof.
  intros [Hok [S1 S2 S3]] [(e & He & Hs & Hc) (before & Hms & Hlim & Hlen)] Hfit. cbn in He, Hc, Hms, Hlen. rewrite app_nil_r in Hms. subst before.
  set (id := sms_correlationId sms) in *.
  assert (Hown : messages id (l ++ [mkCall (Send sms) a]) = messages id l ++ [a]).
  { rewrite messages_ask. cbn. by rewrite bool_decide_eq_true_2. }
  assert (Hothers : forall i, i <> id -> messages i (l ++ [mkCall (Send sms) a]) = messages i l).
  { intros i Hne. rewrite messages_ask. cbn. rewrite bool_decide_eq_false_2 by (by intros E; apply Hne). cbn. by rewrite app_nil_r. }
  destruct (S1 _ _ He) as [Q1 Q2 Q3 Q4]. cbn in Q1, Q2, Q3, Q4.
  assert (Hm : mail_moves (m, l) (m, l ++ [mkCall (Send sms) a])).
  { split; cbn; try done; [intros i d Hd; by exists d|intros i e0 H0; by exists e0|by apply prefix_app_r]. }
  split; [split; [done|split; cbn]|done| |].
  - intros i e0 H0. destruct (decide (i = id)) as [->|Hne]; [|rewrite Hothers by done; by apply S1]. simplify_eq. rewrite Hown. split.
    + rewrite length_app. cbn. lia.
    + by rewrite Hs.
    + intros b x Eq. apply app_inj_tail in Eq as [<- _]. done.
    + intros y Hy. destruct (Q4 _ Hy). congruence.
  - intros i Hn. rewrite Hothers by congruence. by apply S2.
  - intros r b [H|H]%elem_of_app; [exact (S3 r b H)|]. apply list_elem_of_singleton in H. injection H as ->. exact Hfit.
  - split; [by exists e|]. exists (messages id l). by split_and!.
  - intros t [(e0 & H0) (b & Hb)] Hap. cbn in Hap. split; [|exact Hap]. split; [by exists e0|]. exists b.
    cbn [snd]. rewrite Hothers; [exact Hb|exact Hap].
Qed.

Section sms.
Context (collate : string -> string -> Z) (templates : bool) (config : string -> option Z).

Lemma request_fits_of s s' e order t sms : effects s.1 !! ef_id e = Some e -> ef_kind e ∈ KINDS -> mail_moves s s' ->
  order = sms_order (ef_subjectId e) s'.1 -> sms_request e order t = Some sms ->
  request_fits s'.1 sms /\ sms_correlationId sms = ef_id e.
Proof.
  intros He Hk M -> H. unfold sms_request, sms_order in H. destruct (find_order (ef_subjectId e) (own (business s'.1))) as [o|] eqn:Eo; [|done].
  cbn in H. destruct (mobiles s'.1 !! or_customerId o) as [mobile|]; [|done]. cbn in H. destruct t as [t|]; [|done].
  destruct (bool_decide (t = 0%Z) || _); [done|]. injection H as <-. split; [|done].
  destruct (mm_effects _ _ M _ _ He) as (e' & He' & _ & Ek & Es & _). exists e', o. cbn. rewrite Ek, Es. by split_and!.
Qed.

Lemma deliver_effect_wp counts e n s s0 : effects s.1 !! ef_id e = Some e -> ef_kind e ∈ KINDS -> mail_moves s s0 ->
  mwp (deliver_effect templates config counts e n) (fun _ o r => forall c, r = Ok c -> o = None) s0 (Some (Claimed (ef_id e) n)).
Proof.
  intros He Hk M0. unfold deliver_effect. apply wp_bind. apply wp_quiet; [apply quiet_template|]. intros s1 [t|x] M1; [|done]. cbv beta iota.
  apply wp_bind. apply (wp_query mail_inv mail_moves token_holds token_apart). intros s2 M2 _ _. split; [|done]. cbv beta iota.
  assert (M02 : mail_moves s s2) by (etrans; [exact M0|by etrans]).
  destruct (sms_request e (sms_order (ef_subjectId e) s2.1) t) as [sms|] eqn:Er.
  - destruct (request_fits_of _ _ _ _ _ _ He Hk M02 eq_refl Er) as [Hfit Hid].
    apply wp_bind. apply wp_try. unfold send. apply wp_bind. apply (wp_ask mail_inv mail_moves token_holds token_apart).
    intros [m l] a M3 Hi Hh. rewrite <- Hid in Hh |- *. exists (Some (Answered (sms_correlationId sms) n a)). split.
    { apply send_goes; [done|exact Hh|]. exact (request_fits_moves _ _ _ M3 Hfit). }
    assert (K : forall r s3, may_record (Answered (sms_correlationId sms) n a) r ->
      mwp (record_result (sms_correlationId sms) n r ;; mret (count_result n r counts)) (fun _ o r => forall c, r = Ok c -> o = None) s3
        (Some (Answered (sms_correlationId sms) n a))).
    { intros r s3 Hr. apply wp_bind. eapply wp_conseq; [by apply (record_result_wp (Answered (sms_correlationId sms) n a))|].
      intros s4 o4 [u|x] H4; [|done]. rewrite (H4 u eq_refl). by intros c _. }
    destruct a as [r|x].
    + apply K. split; cbn; [|by intros x ->]. destruct r; try done. intros _. by constructor.
    + apply K. by split.
  - apply wp_bind. eapply wp_conseq; [apply (record_result_wp (Claimed (ef_id e) n)); split; [constructor|done]|].
    intros s4 o4 [u|x] H4; [|done]. rewrite (H4 u eq_refl). by intros c _.
Qed.

Lemma dispatch_effect_wp counts e s s0 : effects s.1 !! ef_id e = Some e -> ef_kind e ∈ KINDS -> mail_moves s s0 ->
  mwp (dispatch_effect templates config counts e) (fun _ o r => forall c, r = Ok c -> o = None) s0 None.
Proof.
  intros He Hk M0. unfold dispatch_effect. cbv zeta. apply wp_bind. apply (wp_query mail_inv mail_moves token_holds token_apart).
  intros s1 M1 _ _. split; [|done]. cbv beta iota. apply wp_bind. apply (wp_stmt mail_inv mail_moves token_holds token_apart).
  intros [m l] M2 Hi _. split; [done|]. intros k m' Hk'. destruct (claim_effect_goes _ _ _ _ _ _ _ Hi Hk') as (o' & G & Hyes & Hno).
  exists o'. split; [done|]. split; [|done]. cbv beta iota. case_bool_decide as E; cbn [negb].
  - rewrite (Hyes E). apply (deliver_effect_wp _ _ _ s); [done|done|]. etrans; [exact M0|]. etrans; [exact M1|]. etrans; [exact M2|apply G].
  - by rewrite (Hno E).
Qed.

Lemma elem_of_candidates now m e : mail_ok m -> e ∈ candidates collate now m -> effects m !! ef_id e = Some e /\ sendable now e = true.
Proof.
  intros Hm H. unfold candidates in H. apply elem_of_take in H as (i & H & _). apply list_elem_of_lookup_2, elem_of_js_sort in H.
  apply elem_of_find_many in H as [[k Hk] Hs]. split; [|done]. by rewrite (mo_effect_key _ _ Hm _ _ Hk).
Qed.

Lemma sms_pass_wp s0 : mwp (sms_pass collate templates config) (fun _ _ _ => True) s0 None.
Proof.
  unfold sms_pass. apply wp_bind. apply (wp_query mail_inv mail_moves token_holds token_apart). intros s1 M1 _ _. split; [|done].
  cbv beta iota. apply wp_bind. apply (wp_query mail_inv mail_moves token_holds token_apart). intros s2 M2 [I2 _] _. split; [|done]. cbv beta iota.
  apply (wp_each mail_inv mail_moves token_holds token_apart) with (J := fun s o _ => o = None /\ mail_moves s2 s); [done|done|].
  intros e acc s o Hin [-> M]. destruct (elem_of_candidates _ _ _ I2 Hin) as [He Hs].
  unfold sendable in Hs. apply andb_true_iff in Hs as [[Hk%bool_decide_eq_true _]%andb_true_iff _].
  since (by apply (dispatch_effect_wp _ _ s2)). intros s3 o3 [c|x] [M3 H3]; [|done]. cbv beta iota. split; [by eapply H3|by etrans].
Qed.
End sms.

(** * All processes *)

Context (collate : string -> string -> Z) (templates : bool) (config : string -> option Z).

Lemma wp_forget {A} (p : MP A) post s : mwp p post s None -> mwp (forget p) (fun _ _ _ => True) s None.
Proof.
  intros H. change (mwp (p ≫= fun _ => mret tt) (fun _ _ _ => True) s None). apply wp_bind.
  eapply wp_conseq; [exact H|]. by intros s' o [a|e].
Qed.
Lemma started_ok p s : started cuid collate templates config p -> mwp p (fun _ _ _ => True) s None.
Proof.
  intros [returned| |name eventId made attempts|input]; eapply wp_forget;
    [apply quiet_relay|apply sms_pass_wp|apply quiet_deliver|apply quiet_replay].
Qed.

Notation mail_reaches := (reaches (started cuid collate templates config) elsewhere).

(** In every interleaving the invariant holds and the state has only moved on. *)
Lemma interleavings_ok c c' : mail_inv (tables c, trace c) -> procs c = ∅ -> mail_reaches c c' ->
  mail_inv (tables c', trace c') /\ mail_moves (tables c, trace c) (tables c', trace c').
Proof.
  intros Hi Hp Hr. destruct c as [w l ps]. cbn in *. subst ps.
  eapply (steps_ok mail_inv mail_moves token_holds token_apart) in Hr as [M (owns & Hok)].
  - split; [apply Hok|exact M].
  - intros p s Hs _. by apply started_ok.
  - intros [m l0] m' Hm He. assert (Hon : onward m m') by (eapply elsewhere_onward; [apply Hm|done]).
    split; [by eapply onward_inv|]. split; [by apply onward_moves|]. intros t Ht.
    eapply (token_frame _ _ _ _ None); [exact Ht|done|cbn; by rewrite (on_effects _ _ Hon)|done].
  - by apply idle_ok.
Qed.
End outbox_proofs.
