(* ===== verification/OutboxProperties.v ===== *)
(** The properties of the outbox: what holds after every interleaving of its workers, what a
    pass of the relay and a replay do when they run alone, and an interleaving in which
    a reconciliation stays open. *)

From S2P Require Import Prelude Processes Table Paging Json AuditTrail Retry InventoryModel Inventory.
From S2P Require Import Durable StateMachine Credit Sales Outbox OutboxProofs.
From S2P Require Import InventoryProperties SalesSafety SalesProperties.

(** * Every interleaving *)

(** The effects of an event. *)
Definition effects_for (id : string) (m : Mail) : list OutboxEffect := find_many (of_event id) (effects m).

Lemma effects_for_one cuid m fx e : mail_ok_but cuid None m -> effects m !! fx = Some e -> effects_for (ef_eventId e) m = [e].
Proof.
  intros Hm He. unfold effects_for.
  assert (Hall : forall e', e' ∈ find_many (of_event (ef_eventId e)) (effects m) -> e' = e).
  { intros e' H. apply elem_of_find_many in H as [[k Hk] Hid]. apply bool_decide_eq_true in Hid.
    assert (k = fx) as -> by (by eapply (mo_one _ _ _ Hm)). congruence. }
  assert (Hin : e ∈ find_many (of_event (ef_eventId e)) (effects m)).
  { apply elem_of_find_many. split; [by exists fx|]. by apply bool_decide_eq_true. }
  assert (Hnd : NoDup (ef_id <$> find_many (of_event (ef_eventId e)) (effects m))).
  { apply NoDup_find_many. apply (mo_effect_key _ _ _ Hm). }
  destruct (find_many _ _) as [|a [|b l]]; [by apply elem_of_nil in Hin| |].
  - f_equal. apply Hall. set_solver.
  - exfalso. rewrite (Hall a), (Hall b) in Hnd by set_solver. apply NoDup_cons in Hnd as [Hn _]. set_solver.
Qed.

Lemma effects_for_none cuid m id d : mail_ok_but cuid None m -> delivery m !! id = Some d -> dl_consumedAt d = None -> effects_for id m = [].
Proof.
  intros Hm Hd Hc. unfold effects_for. destruct (find_many _ _) as [|e l] eqn:El; [done|]. exfalso.
  assert (Hin : e ∈ find_many (of_event id) (effects m)) by (rewrite El; set_solver).
  apply elem_of_find_many in Hin as [[k Hk] Hid]. apply bool_decide_eq_true in Hid.
  destruct (mo_effect _ _ _ Hm _ _ Hk) as (ev & d' & Hev & [?|Hs] & _); [done|].
  apply event_of_Some in Hev as [_ Hd']. rewrite Hid, Hd in Hd'. simplify_eq. rewrite Hc in Hs. by destruct Hs.
Qed.

Section interleavings.
Context (cuid : nat -> string) (collate : string -> string -> Z) (templates : bool) (settings : string -> option Z).
Notation mail_reaches := (reaches (started cuid collate templates settings) elsewhere).

(** What every event shows. *)
Definition event_sound (m : Mail) : Prop := forall id ev d, event_of id m = Some (ev, d) ->
  (dl_consumedAt d = None -> effects_for id m = []) /\
  (is_Some (dl_consumedAt d) -> dl_processingDeadLetteredAt d = None /\ exists e, effects_for id m = [e] /\ effect_fits m ev e) /\
  (is_Some (dl_publishedAt d) -> dl_deadLetteredAt d = None).

(** [C14] While relays, consumers, replays and messages run, any number of each and stopped at
    any point, an event that is not consumed has no effect and a consumed event has exactly
    one, of the kind of its topic and about the subject of its aggregate, and is not a dead
    letter; no event is both published and dead-lettered.  Each notification belongs to a
    consumed event, tells what the event's topic drafts about its order, and is there once
    for its user.  Nothing is taken back: consumed events stay consumed, effects keep their
    event, kind and subject and a completed one never changes, notifications stay. *)
Theorem outbox_consumed_once (c c' : config Mail question reply) :
  Inj (=) (=) cuid -> mail_inv cuid (tables c, trace c) -> procs c = ∅ -> mail_reaches c c' ->
  event_sound (tables c') /\
  (forall id n, inbox (tables c') !! id = Some n -> notice_fits None (tables c') (in_data n) /\
    forall id' n', inbox (tables c') !! id' = Some n' -> same_notice (in_data n) n' = true -> id' = id) /\
  (forall id d, delivery (tables c) !! id = Some d -> is_Some (dl_consumedAt d) ->
    dl_consumedAt <$> delivery (tables c') !! id = Some (dl_consumedAt d)) /\
  (forall id e, effects (tables c) !! id = Some e -> exists e', effects (tables c') !! id = Some e' /\ effect_moves e e') /\
  in_data <$> inbox (tables c) ⊆ in_data <$> inbox (tables c').
Proof.
  intros Hinj Hi Hp Hr. destruct (interleavings_ok cuid collate templates settings c c' Hi Hp Hr) as [[Hok _] M]. cbn in Hok.
  split_and!.
  - intros id ev d Hev. assert (Hd := Hev). apply event_of_Some in Hd as [_ Hd]. destruct (mo_delivery _ _ _ Hok _ _ Hd) as [D1 D2].
    split_and!; [by eapply effects_for_none| |done]. intros Hc. split; [by apply D2|].
    destruct (mo_consumed _ _ _ Hok _ _ Hd Hc) as (fx & e & He & <-). exists e. split; [by eapply effects_for_one|].
    destruct (mo_effect _ _ _ Hok _ _ He) as (ev' & d' & Hev' & _ & Hfit). congruence.
  - intros id n Hn. split; [by eapply mo_inbox|]. intros id' n' Hn' Hs. symmetry. by eapply (mo_inbox_one _ _ _ Hok).
  - intros id d Hd Hc. destruct (mm_delivery _ _ M _ _ Hd) as (d' & Hd' & E). cbn in Hd'. rewrite Hd'. cbn. by rewrite E.
  - intros id e He. by apply (mm_effects _ _ M).
  - apply (mm_inbox _ _ M).
Qed.

(** [C15] However the passes that send text messages interleave with each other and with
    everything else, and wherever they are stopped, an effect is sent at most eight times,
    and every message but its last was refused by rate limiting: after a message that was
    or may have been accepted there is no other.  A recorded provider's id is the receipt of
    the last message.  Each message has the purpose of its effect and the number of its order. *)
Theorem customer_messages_at_most_once (c c' : config Mail question reply) :
  Inj (=) (=) cuid -> mail_inv cuid (tables c, trace c) -> procs c = ∅ -> mail_reaches c c' ->
  forall id, let ms := messages id (trace c') in
  length ms <= 8 /\
  (forall before a after, ms = before ++ a :: after -> after <> [] -> a = Ok rate_limited) /\
  (forall e x, effects (tables c') !! id = Some e -> ef_providerMessageId e = Some x ->
    ef_status e = EFFECT_COMPLETED /\ exists before, ms = before ++ [Ok (accepted x)]) /\
  (forall r a, @mkCall question reply (Send r) a ∈ trace c' -> sms_correlationId r = id ->
    exists e o, effects (tables c') !! id = Some e /\ ef_kind e ∈ KINDS /\ sms_purpose r = purpose (ef_kind e) /\
      find_order (ef_subjectId e) (own (business (tables c'))) = Some o /\ sms_Order r = or_number o).
Proof.
  intros Hinj Hi Hp Hr id ms. destruct (interleavings_ok cuid collate templates settings c c' Hi Hp Hr) as [[_ [S1 S2 S3]] _]. cbn in S1, S2, S3.
  split_and!; [| | |by intros r a Hin <-; exact (S3 r a Hin)].
  - destruct (effects (tables c') !! id) as [e|] eqn:He; [|unfold ms; rewrite S2 by done; cbn; lia].
    destruct (S1 _ _ He) as [Q _ _ _]. unfold SMS_MAX_ATTEMPTS in Q. fold ms in Q. lia.
  - intros before a after Hms Hne. destruct (effects (tables c') !! id) as [e|] eqn:He.
    + destruct (S1 _ _ He) as [_ _ Q _]. destruct (exists_last Hne) as (mid & z & ->).
      assert (F : Forall limited (before ++ a :: mid)).
      { apply (Q _ z). fold ms. rewrite Hms. by rewrite <- app_assoc. }
      by apply Forall_app in F as [_ [F _]%Forall_cons].
    + exfalso. unfold ms in Hms. rewrite S2 in Hms by done. by destruct before.
  - intros e x He Hx. by apply (S1 _ _ He).
Qed.
End interleavings.

(** * A pass of the relay *)

Section relay.
Context (collate : string -> string -> Z) (returned : list (string * Delivery) -> list (string * Delivery)) (answers : calls question reply -> forall q, reply q).

(** What the queue's answer makes of an event that was claimed. *)
Definition relayed (now : Z) (a : result unit) (d : Delivery) : Delivery :=
  let attempts := (dl_attempts d + 1)%Z in
  match a with
  | Ok _ => published now (leased now d)
  | Err e => postponed (now + relay_backoff attempts) (if (MAX_ATTEMPTS <=? attempts)%Z then Some now else None) (safeErrorCode e) (leased now d)
  end.
Definition enqueued (rows : list (string * Delivery)) (outs : list (result unit)) : calls question reply :=
  zip_with (fun row a => @mkCall question reply (Enqueue row.1) a) rows outs.
Definition claims (rows : list (string * Delivery)) : list (string * Z) := (fun row => (row.1, dl_attempts row.2 + 1)%Z) <$> rows.
(** The counts that the answers make. *)
Definition gave_up (row : string * Delivery) (a : result unit) : bool := negb (is_ok a) && (MAX_ATTEMPTS <=? dl_attempts row.2 + 1)%Z.
Fixpoint tally (rows : list (string * Delivery)) (outs : list (result unit)) (c : RelayCounts) : RelayCounts :=
  match rows, outs with
  | row :: rows, a :: outs =>
      tally rows outs (mkCounts (rc_published c + (if is_ok a then 1 else 0)) (rc_deadLettered c + (if gave_up row a then 1 else 0)))
  | _, _ => c
  end.

Lemma run_update id P f (m : Mail) d : delivery m !! id = Some d -> P d = true ->
  update_event id P f m = Ok (1%Z, set_delivery (<[id := f d]> (delivery m)) m).
Proof. intros Hd HP. unfold update_event. erewrite bind_run by reflexivity. cbv beta. by rewrite Hd, HP. Qed.

Lemma exec_enqueue id m l :
  exec answers (enqueue id) (m, l) =
  (answers l (Enqueue id), (m, l ++ [@mkCall question reply (Enqueue id) (answers l (Enqueue id))])).
Proof. cbn. by destruct (answers l (Enqueue id)). Qed.

Lemma run_relay_event counts row m l : dl_publishedAt row.2 = None -> dl_deadLetteredAt row.2 = None ->
  delivery m !! row.1 = Some (leased (now_of m) row.2) ->
  let a : result unit := answers l (Enqueue row.1) in
  exec answers (relay_event counts (row.1, dl_attempts row.2 + 1)%Z) (m, l) =
  (Ok (mkCounts (rc_published counts + (if is_ok a then 1 else 0)) (rc_deadLettered counts + (if gave_up row a then 1 else 0))),
   (set_delivery (<[row.1 := relayed (now_of m) a row.2]> (delivery m)) m, l ++ [@mkCall question reply (Enqueue row.1) a])).
Proof.
  intros Hp Hdd Hd a. unfold relay_event. rewrite exec_try, exec_bind, exec_enqueue. fold a. assert (Hc : claimed_at (dl_attempts row.2 + 1) (leased (now_of m) row.2) = true).
  { unfold claimed_at. cbn. by rewrite bool_decide_eq_true_2, Hp, Hdd. }
  destruct a as [[]|e] eqn:Ea.
  - rewrite exec_bind, exec_query. cbn [fst snd]. rewrite exec_bind, exec_stmt. cbn [fst snd]. rewrite (run_update _ _ _ _ _ Hd Hc). cbn.
    by rewrite Z.add_0_r.
  - rewrite exec_bind, exec_query. cbn [fst snd]. rewrite exec_bind, exec_stmt. cbn [fst snd]. rewrite (run_update _ _ _ _ _ Hd Hc). cbn.
    unfold gave_up. cbn. rewrite Z.add_0_r. by destruct (MAX_ATTEMPTS <=? dl_attempts row.2 + 1)%Z; rewrite ?Z.add_0_r.
Qed.

Lemma run_relay_events rows counts m l : NoDup rows.*1 ->
  (forall row, row ∈ rows -> dl_publishedAt row.2 = None /\ dl_deadLetteredAt row.2 = None /\
    delivery m !! row.1 = Some (leased (now_of m) row.2)) ->
  exists outs t, length outs = length rows /\
    exec answers (each relay_event (claims rows) counts) (m, l) = (Ok (tally rows outs counts), (set_delivery t m, l ++ enqueued rows outs)) /\
    (forall i row a, rows !! i = Some row -> outs !! i = Some a ->
      a = answers (l ++ take i (enqueued rows outs)) (Enqueue row.1) /\ t !! row.1 = Some (relayed (now_of m) a row.2)) /\
    (forall id, id ∉ rows.*1 -> t !! id = delivery m !! id).
Proof.
  revert counts m l. induction rows as [|row rows IH]; intros counts m l Hnd Hrows.
  { exists [], (delivery m). cbn. rewrite app_nil_r. split_and!; [done| |done|done]. by destruct m. }
  apply NoDup_cons in Hnd as [Hnew Hnd]. destruct (Hrows row ltac:(set_solver)) as (Hp & Hdd & Hd).
  set (a := answers l (Enqueue row.1) : result unit). set (m1 := set_delivery (<[row.1 := relayed (now_of m) a row.2]> (delivery m)) m).
  set (c1 := mkCounts (rc_published counts + (if is_ok a then 1 else 0)) (rc_deadLettered counts + (if gave_up row a then 1 else 0))).
  destruct (IH c1 m1 (l ++ [@mkCall question reply (Enqueue row.1) a])) as (outs & t & Hlen & Hexec & Hpt & Hrest); [done| |].
  { intros r Hr. destruct (Hrows r ltac:(set_solver)) as (R1 & R2 & R3). split_and!; [done|done|]. cbn.
    rewrite lookup_insert_ne; [done|]. intros E. apply Hnew. rewrite E. apply list_elem_of_fmap. by exists r. }
  exists (a :: outs), t. cbn [length]. split_and!; [by rewrite Hlen| | |].
  - change (claims (row :: rows)) with ((row.1, dl_attempts row.2 + 1)%Z :: claims rows). cbn [each].
    rewrite exec_bind, run_relay_event by done. cbv zeta. fold a. fold m1. fold c1. etrans; [exact Hexec|]. cbn. by rewrite <- app_assoc.
  - intros [|i] r b Hr Hb; cbn in Hr, Hb; simplify_eq.
    + cbn. rewrite app_nil_r. split; [done|]. rewrite Hrest by done. cbn. by rewrite lookup_insert_eq.
    + destruct (Hpt i r b Hr Hb) as [E1 E2]. split; [|done]. rewrite E1, <- app_assoc. done.
  - intros id Hid. rewrite Hrest by set_solver. cbn. rewrite lookup_insert_ne; [done|]. intros E. apply Hid. cbn. rewrite E. by left.
Qed.

(** The order in which events fall due. *)
Lemma due_order_le a b : cmp_le (due_order collate) a b <->
  (dl_availableAt a.2 < dl_availableAt b.2)%Z \/ dl_availableAt a.2 = dl_availableAt b.2 /\ cmp_le collate a.1 b.1.
Proof.
  unfold cmp_le, due_order, then_by, ascending, by_text. case_bool_decide as E; split; intros H; lia.
Qed.
Lemma due_first m row : Total (cmp_le collate) -> Transitive (cmp_le collate) ->
  delivery m !! row.1 = Some row.2 -> due m row = true -> row ∉ picked collate m ->
  length (picked collate m) = BATCH_SIZE /\ forall r, r ∈ picked collate m -> cmp_le (due_order collate) r row.
Proof.
  intros Htot Htr Hrow Hdue Hnot. unfold picked in *. set (l := js_sort (due_order collate) (List.filter (due m) (map_to_list (delivery m)))) in *.
  assert (Hs : StronglySorted (cmp_le (due_order collate)) l).
  { apply js_sort_sorted.
    - intros a b. rewrite !due_order_le. destruct (Htot a.1 b.1); destruct (Z.lt_trichotomy (dl_availableAt a.2) (dl_availableAt b.2)) as [?|[?|?]]; intuition lia.
    - intros a b c. rewrite !due_order_le. intros [H1|[E1 H1]] [H2|[E2 H2]]; [left; lia..|right]. split; [lia|by etrans]. }
  assert (Hin : row ∈ l).
  { apply elem_of_js_sort, list_elem_of_In, filter_In. split; [|done]. apply list_elem_of_In. destruct row. by apply elem_of_map_to_list. }
  rewrite <- (take_drop BATCH_SIZE l) in Hin. apply elem_of_app in Hin as [Hin|Hin]; [done|]. split.
  - rewrite length_take. assert (Hl : drop BATCH_SIZE l <> []) by (intros E; rewrite E in Hin; by apply elem_of_nil in Hin).
    destruct (Nat.le_gt_cases BATCH_SIZE (length l)); [lia|]. rewrite drop_ge in Hl by lia. done.
  - intros r Hr. rewrite <- (take_drop BATCH_SIZE l) in Hs. by eapply (StronglySorted_app_1_elem_of _ _ _ r row Hs).
Qed.

(** [C18] A pass of the relay that nothing disturbs claims the fifty events that have been due
    longest, or all that are due, except those in the hands of other transactions; it offers
    each of them to the queue once, in the order that the database returns, and counts.  What
    the queue accepts is published; what it refuses is due again after the backoff of its
    attempt, or is a dead letter from the eighth attempt on, with the class of the error;
    other events stay. *)
Theorem relay_pass_exact m l :
  Total (cmp_le collate) -> Transitive (cmp_le collate) -> (forall rows, returned rows ≡ₚ rows) ->
  (forall id d, delivery m !! id = Some d -> int4 (dl_attempts d + 1) = true) ->
  let rows := returned (picked collate m) in
  length rows <= BATCH_SIZE /\ NoDup rows.*1 /\ exists outs t, length outs = length rows /\
    exec answers (relay_pass collate returned) (m, l) =
      (Ok (Z.of_nat (length rows), tally rows outs (mkCounts 0 0)), (set_delivery t m, l ++ enqueued rows outs)) /\
    (forall i row a, rows !! i = Some row -> outs !! i = Some a ->
      a = answers (l ++ take i (enqueued rows outs)) (Enqueue row.1) /\
      delivery m !! row.1 = Some row.2 /\ due m row = true /\ t !! row.1 = Some (relayed (now_of m) a row.2)) /\
    (forall id, id ∉ rows.*1 -> t !! id = delivery m !! id) /\
    (forall row, delivery m !! row.1 = Some row.2 -> due m row = true -> row ∉ rows ->
      length rows = BATCH_SIZE /\ forall r, r ∈ rows -> cmp_le (due_order collate) r row).
Proof.
  intros Htot Htr Hret Hint rows. destruct (claim_batch collate returned m) as [[claimed m1]|e] eqn:Ec.
  2:{ exfalso. unfold claim_batch in Ec. erewrite bind_run in Ec by reflexivity. cbv beta in Ec.
      replace (forallb (fun row => int4 (dl_attempts row.2 + 1)) (picked collate m)) with true in Ec; [done|].
      symmetry. apply forallb_forall. intros row Hr. apply list_elem_of_In, elem_of_picked in Hr as [Hr _]. by eapply Hint. }
  assert (HP : rows ≡ₚ picked collate m) by apply Hret. assert (Hrows : forall row, row ∈ rows <-> row ∈ picked collate m) by (intros row; by rewrite HP).
  assert (Hnd : NoDup rows.*1) by (rewrite HP; apply NoDup_picked).
  split; [rewrite HP; unfold picked; rewrite length_take; lia|]. split; [done|].
  assert (Hs := Ec). apply claim_batch_step in Hs as (Em & -> & Hl). change (_ <$> returned (picked collate m)) with (claims rows) in Ec.
  destruct (run_relay_events rows (mkCounts 0 0) m1 l) as (outs & t & Hlen & Hexec & Hpt & Hrest); [done| |].
  { intros row Hr%Hrows. destruct (elem_of_picked _ _ _ Hr) as [Hd Hdue]. unfold due in Hdue. rewrite !andb_true_iff in Hdue.
    destruct Hdue as [[[Hp Hdd] _] _]. split_and!; [by destruct (dl_publishedAt _)|by destruct (dl_deadLetteredAt _)|].
    rewrite Hl, bool_decide_eq_true_2, Hd by (apply list_elem_of_fmap; by exists row). cbn. by rewrite Em. }
  assert (Hnow : now_of m1 = now_of m) by (by rewrite Em). exists outs, t. split_and!; [done| | | |].
  - unfold relay_pass. rewrite exec_bind, exec_stmt. cbn [fst snd]. rewrite Ec, exec_bind, Hexec. cbn.
    unfold claims. rewrite length_fmap. by rewrite Em.
  - intros i row a Hr Ha. destruct (Hpt i row a Hr Ha) as [E1 E2]. rewrite <- Hnow. split; [done|].
    destruct (elem_of_picked _ _ _ (proj1 (Hrows row) (list_elem_of_lookup_2 _ _ _ Hr))) as [Hd Hdue]. by split_and!.
  - intros id Hid. rewrite Hrest by done. rewrite Hl, bool_decide_eq_false_2; [done|]. by rewrite <- HP.
  - intros row Hd Hdue Hnot. destruct (due_first m row Htot Htr Hd Hdue) as [H1 H2]; [by rewrite <- Hrows|].
    split; [by rewrite HP|]. intros r Hr%Hrows. by apply H2.
Qed.
End relay.

(** * Replay *)

Section replay.
Context (answers : calls question reply -> forall q, reply q).
Notation run := (exec answers).

Definition audited (actor : option string) (action : string) (entityId : option string) (requestId : string)
    (metadata : list (string * json)) (m : Mail) : Mail :=
  put (Lens := mail_audit) (audits (inv_of (business m)) ++ [recordData (mkAuditEvent action "OutboxEvent" entityId None None
    (Some (JObj metadata)) actor (Some requestId))]) m.
Definition replay_actor (input : OutboxReplayInput) : option string := if truthy (ri_actorId input) then Some (ri_actorId input) else None.

(** The row of a refusal, which is left out when its actor is not a user. *)
Definition refusal_audited (input : OutboxReplayInput) (reason : OutboxReplayRejection) (requestId : string) (m : Mail) : Mail :=
  if match replay_actor input with Some a => bool_decide (is_Some (users (access m) !! a)) | None => true end then
    audited (replay_actor input) "outbox.replay.rejected" (if EVENT_ID_PATTERN (ri_eventId input) then Some (ri_eventId input) else None)
      requestId [("ticket", JStr (ri_ticket input)); ("reason", JStr (rejection_text reason))] m
  else m.

Lemma run_create_audit actorId action entityId requestId metadata (m : Mail) :
  create_audit actorId action entityId requestId metadata m =
  let actor := if truthy actorId then Some actorId else None in
  if match actor with Some a => bool_decide (is_Some (users (access m) !! a)) | None => true end
  then Ok (tt, audited actor action entityId requestId metadata m) else Err P2003.
Proof. unfold create_audit. cbv zeta. erewrite bind_run by reflexivity. cbv beta. by destruct (match _ with Some _ => _ | None => _ end). Qed.

(** One call of another system and its answer. *)
Definition told (q : question) (a : reply q) : @call question reply := mkCall q a.

Lemma exec_reject input reason (m : Mail) l : exists requestId,
  run (reject input reason) (m, l) =
  (Ok (REJECTED reason), (refusal_audited input reason requestId m, l ++ [told RandomUUID requestId])).
Proof.
  exists (answers l RandomUUID). unfold reject. rewrite exec_bind, exec_try, exec_bind.
  change (run random_uuid (m, l)) with (Ok (answers l RandomUUID), (m, l ++ [@mkCall question reply RandomUUID (answers l RandomUUID)])).
  cbv beta iota. rewrite exec_stmt. cbn [fst snd]. rewrite run_create_audit. cbv zeta. unfold refusal_audited, replay_actor.
  by destruct (match _ with Some _ => _ | None => _ end).
Qed.

Lemma exec_permission_keys actor (m : Mail) l : run (permission_keys actor) (m, l) =
  (answers l (EffectivePermissionKeys actor), (m, l ++ [told (EffectivePermissionKeys actor) (answers l (EffectivePermissionKeys actor))])).
Proof. cbn. by destruct (answers l (EffectivePermissionKeys actor)). Qed.

(** What was asked of the queue about the job of an event, and what it answered. *)
Definition terminal : list string := ["failed"; "completed"].
Definition job_cleared (id : string) (k : calls question reply) : Prop :=
  k = [told (GetJob id) (Ok false)] \/
  exists st, st ∈ terminal /\ k = [told (GetJob id) (Ok true); told (GetState id) (Ok st); told (RemoveJob id) (Ok tt)].
Definition job_active (id : string) (k : calls question reply) : Prop :=
  exists st, st ∉ terminal /\ k = [told (GetJob id) (Ok true); told (GetState id) (Ok st)].
Definition job_failed (id : string) (e : exn) (k : calls question reply) : Prop :=
  k = [told (GetJob id) (Err e)] \/ k = [told (GetJob id) (Ok true); told (GetState id) (Err e)] \/
  exists st, st ∈ terminal /\ k = [told (GetJob id) (Ok true); told (GetState id) (Ok st); told (RemoveJob id) (Err e)].
Lemma exec_clear id (m : Mail) l : exists r k, run (clearTerminalJob id) (m, l) = (r, (m, l ++ k)) /\
  match r with Ok true => job_cleared id k | Ok false => job_active id k | Err e => job_failed id e k end.
Proof.
  set (a1 := answers l (GetJob id) : result bool). set (l1 := l ++ [told (GetJob id) a1]).
  set (a2 := answers l1 (GetState id) : result string). set (l2 := l1 ++ [told (GetState id) a2]).
  set (a3 := answers l2 (RemoveJob id) : result unit). set (l3 := l2 ++ [told (RemoveJob id) a3]).
  assert (E1 : run (get_job id) (m, l) = (a1, (m, l1))) by (cbn; fold a1; by destruct a1).
  assert (E2 : run (get_state id) (m, l1) = (a2, (m, l2))) by (cbn; fold a2; by destruct a2).
  assert (E3 : run (remove_job id) (m, l2) = (a3, (m, l3))) by (cbn; fold a3; by destruct a3).
  assert (L2 : l2 = l ++ [told (GetJob id) a1; told (GetState id) a2]) by (unfold l2, l1; by rewrite <- app_assoc).
  assert (L3 : l3 = l ++ [told (GetJob id) a1; told (GetState id) a2; told (RemoveJob id) a3]) by (unfold l3; rewrite L2; by rewrite <- app_assoc).
  unfold clearTerminalJob. rewrite exec_bind, E1. destruct a1 as [[]|e] eqn:A1.
  - cbn [negb]. rewrite exec_bind, E2. destruct a2 as [st|e] eqn:A2.
    + case_bool_decide as Hst; cbn [negb].
      * rewrite exec_bind, E3. destruct a3 as [[]|e] eqn:A3; rewrite L3.
        -- exists (Ok true). eexists. split; [done|]. right. by exists st.
        -- exists (Err e). eexists. split; [done|]. right. right. by exists st.
      * rewrite L2. exists (Ok false). eexists. split; [done|]. by exists st.
    + rewrite L2. exists (Err e). eexists. split; [done|]. right. by left.
  - exists (Ok true). eexists. split; [done|]. by left.
  - exists (Err e). eexists. split; [done|]. by left.
Qed.

Lemma run_reset_event input id requestId branch now (m : Mail) d : delivery m !! id = Some d -> resettable d = true ->
  hasValidInput input = true -> user_status (ri_actorId input) m = Some USER_ACTIVE ->
  reset_event input id requestId branch now m = Ok (true,
    audited (Some (ri_actorId input)) "outbox.replay.requested" (Some id) requestId
      [("ticket", JStr (ri_ticket input)); ("branch", JStr (branch_text branch))] (set_delivery (<[id := relayable now d]> (delivery m)) m)).
Proof.
  intros Hd Hr Hv Hu. unfold reset_event. rewrite (bind_run _ _ _ _ _ (run_update _ _ _ _ _ Hd Hr)). rewrite bool_decide_eq_true_2 by done.
  unfold hasValidInput in Hv. apply andb_true_iff in Hv as [[_ Ht]%andb_true_iff _].
  erewrite bind_run; [done|]. rewrite run_create_audit. cbv zeta. rewrite Ht. cbn [access set_delivery].
  rewrite bool_decide_eq_true_2; [done|]. unfold user_status in Hu. by destruct (users _ !! _).
Qed.

(** The checks of a replay in their order, each with what was asked of other systems until
    then: the input and the actor, the permission, the event. *)
Definition known_actor (input : OutboxReplayInput) (m : Mail) : Prop :=
  hasValidInput input = true /\ user_status (ri_actorId input) m = Some USER_ACTIVE.
Definition permitted (input : OutboxReplayInput) (m : Mail) (k : calls question reply) : Prop :=
  known_actor input m /\ exists keys, OUTBOX_REPLAY_PERMISSION ∈ keys /\ k = [told (EffectivePermissionKeys (ri_actorId input)) (Ok keys)].
Definition recoverable (input : OutboxReplayInput) (branch : OutboxReplayBranch) (m : Mail) (d : Delivery) : Prop :=
  (exists ev, event_of (ri_eventId input) m = Some (ev, d)) /\ dl_consumedAt d = None /\
  match branch with
  | dead_letter => is_Some (dl_deadLetteredAt d) \/ is_Some (dl_processingDeadLetteredAt d)
  | stranded => is_Some (dl_publishedAt d) /\ dl_deadLetteredAt d = None /\ dl_processingDeadLetteredAt d = None
  end.

(** Why a replay that nothing disturbs is refused: the check that fails, after all checks
    before it passed and nothing more was asked. *)
Definition refused_because (reason : OutboxReplayRejection) (input : OutboxReplayInput) (m : Mail) (k : calls question reply) : Prop :=
  match reason with
  | INVALID_INPUT => hasValidInput input = false /\ k = []
  | ACTOR_INACTIVE => hasValidInput input = true /\ user_status (ri_actorId input) m <> Some USER_ACTIVE /\ k = []
  | PERMISSION_DENIED => known_actor input m /\
      exists keys, OUTBOX_REPLAY_PERMISSION ∉ keys /\ k = [told (EffectivePermissionKeys (ri_actorId input)) (Ok keys)]
  | EVENT_NOT_FOUND => permitted input m k /\ event_of (ri_eventId input) m = None
  | EVENT_CONSUMED => permitted input m k /\ exists ev d, event_of (ri_eventId input) m = Some (ev, d) /\ is_Some (dl_consumedAt d)
  | EVENT_NOT_REPLAYABLE => permitted input m k /\ exists ev d, event_of (ri_eventId input) m = Some (ev, d) /\
      dl_consumedAt d = None /\ dl_publishedAt d = None /\ dl_deadLetteredAt d = None /\ dl_processingDeadLetteredAt d = None
  | JOB_ACTIVE => exists k1 k2 branch d, k = k1 ++ k2 /\ permitted input m k1 /\ recoverable input branch m d /\ job_active (ri_eventId input) k2
  | CONCURRENT_CHANGE => False
  end.

Lemma branchOf_spec d branch : branchOf d = Some branch ->
  match branch with
  | dead_letter => is_Some (dl_deadLetteredAt d) \/ is_Some (dl_processingDeadLetteredAt d)
  | stranded => is_Some (dl_publishedAt d) /\ dl_deadLetteredAt d = None /\ dl_processingDeadLetteredAt d = None
  end.
Proof.
  unfold branchOf. destruct (dl_deadLetteredAt d), (dl_processingDeadLetteredAt d), (dl_publishedAt d); cbn; intros H; simplify_eq; eauto.
Qed.
Lemma branchOf_none d : branchOf d = None -> dl_publishedAt d = None /\ dl_deadLetteredAt d = None /\ dl_processingDeadLetteredAt d = None.
Proof. unfold branchOf. by destruct (dl_deadLetteredAt d), (dl_processingDeadLetteredAt d), (dl_publishedAt d). Qed.
Lemma branchOf_resettable d branch : branchOf d = Some branch -> dl_consumedAt d = None -> resettable d = true.
Proof.
  unfold branchOf, resettable. intros H ->. by destruct (dl_deadLetteredAt d), (dl_processingDeadLetteredAt d), (dl_publishedAt d).
Qed.

(** The outcome of a replay that starts with the tables [m] after the calls [l]. *)
Definition replay_outcome (input : OutboxReplayInput) (m : Mail) (l : calls question reply)
    (out : result OutboxReplayResult * (Mail * calls question reply)) : Prop :=
  let '(r, (m', l')) := out in
  match r with
  | Ok (REPLAYED eventId requestId branch) => exists k1 k2 d, eventId = ri_eventId input /\
      permitted input m k1 /\ recoverable input branch m d /\ job_cleared eventId k2 /\ l' = l ++ k1 ++ k2 ++ [told RandomUUID requestId] /\
      m' = audited (Some (ri_actorId input)) "outbox.replay.requested" (Some eventId) requestId
        [("ticket", JStr (ri_ticket input)); ("branch", JStr (branch_text branch))]
        (set_delivery (<[eventId := relayable (now_of m) d]> (delivery m)) m) /\
      (eventId ∉ locked m -> due m' (eventId, relayable (now_of m) d) = true)
  | Ok (REJECTED reason) => exists k requestId, refused_because reason input m k /\ l' = l ++ k ++ [told RandomUUID requestId] /\
      m' = refusal_audited input reason requestId m
  | Err e => m' = m /\
      (known_actor input m /\ l' = l ++ [told (EffectivePermissionKeys (ri_actorId input)) (Err e)] \/
       exists k1 k2 branch d, l' = l ++ k1 ++ k2 /\ permitted input m k1 /\ recoverable input branch m d /\ job_failed (ri_eventId input) e k2)
  end.

Lemma rejected_outcome input reason (m : Mail) (l k : calls question reply) : refused_because reason input m k ->
  replay_outcome input m l (run (reject input reason) (m, l ++ k)).
Proof.
  intros H. destruct (exec_reject input reason m (l ++ k)) as (requestId & E).
  assert (E' : run (reject input reason) (m, l ++ k) = _) by exact E. rewrite E'. exists k, requestId.
  split_and!; [done| |done]. by rewrite <- app_assoc.
Qed.

Lemma reset_outcome input branch (m : Mail) d (l k : calls question reply) : permitted input m k -> recoverable input branch m d ->
  branchOf d = Some branch -> replay_outcome input m l (run (reset_and_answer input (ri_eventId input) branch) (m, l ++ k)).
Proof.
  intros Hk Hd Hb. pose proof Hk as [[Hv Hu] _]. pose proof Hd as [[ev Hev] [Hc _]]. unfold reset_and_answer. rewrite exec_bind.
  destruct (exec_clear (ri_eventId input) m (l ++ k)) as (r & k2 & E & Hr).
  assert (E' : run (clearTerminalJob (ri_eventId input)) (m, l ++ k) = _) by exact E. rewrite E', <- app_assoc. clear E E'.
  destruct r as [[]|e]; cbn [negb].
  - rewrite exec_bind. set (l2 := l ++ k ++ k2). change (run random_uuid (m, l2)) with (Ok (answers l2 RandomUUID), (m, l2 ++ [told RandomUUID (answers l2 RandomUUID)])).
    cbv beta iota. rewrite exec_bind, exec_query. cbn [fst snd]. rewrite exec_bind, exec_stmt. cbn [fst snd].
    apply event_of_Some in Hev as [_ Hev]. erewrite run_reset_event; [|exact Hev|by eapply branchOf_resettable|done|done].
    cbn [negb]. exists k, k2, d. split_and!; try done; [unfold l2; by rewrite <- !app_assoc|].
    intros Hl. unfold due. cbn. rewrite bool_decide_eq_false_2 by done. unfold now_of. cbn. rewrite Z.leb_refl. done.
  - apply rejected_outcome. by exists k, k2, branch, d.
  - split; [done|]. right. by exists k, k2, branch, d.
Qed.

(** [C17] A replay that nothing disturbs makes exactly one unconsumed event due again, with its
    attempts at zero and one audit row, and only for an active actor with the permission, an
    event that is a dead letter or was published without being consumed, and a job that the
    queue no longer runs.  Otherwise nothing changes but the audit row of the refusal, or a
    call of another system failed.  A refusal names the first of the checks (input, actor,
    permission, event, consumed, replayable, job) that fails: all before it passed, and no
    other system was asked more than they need, so that nobody without the permission reaches
    the queue and no job is removed by a replay that is refused. *)
Theorem replay_exact input m l :
  (forall id ev, outbox (own (business m)) !! id = Some ev -> ob_id ev = id) ->
  replay_outcome input m l (run (replay input) (m, l)).
Proof.
  intros Hids. assert (Hnil : forall reason, refused_because reason input m [] -> replay_outcome input m l (run (reject input reason) (m, l))).
  { intros reason H. apply (rejected_outcome input reason m l []) in H. by rewrite app_nil_r in H. }
  unfold replay. destruct (hasValidInput input) eqn:Hv; cbn [negb]; [|by apply Hnil].
  rewrite exec_bind, exec_query. cbn [fst snd]. case_bool_decide as Hu; cbn [negb]; [|by apply Hnil].
  assert (Hknown : known_actor input m) by done.
  rewrite exec_bind, exec_permission_keys.
  destruct (answers l (EffectivePermissionKeys (ri_actorId input)) : result (list string)) as [keys|e]; [|split; [done|by left]].
  case_bool_decide as Hk; cbn [negb]; [|apply rejected_outcome; split; [done|by exists keys]].
  assert (Hperm : permitted input m [told (EffectivePermissionKeys (ri_actorId input)) (Ok keys)]) by (split; [done|by exists keys]).
  rewrite exec_bind, exec_query. cbn [fst snd]. destruct (event_of (ri_eventId input) m) as [[ev d]|] eqn:Hev; [|by apply rejected_outcome].
  destruct (dl_consumedAt d) as [t|] eqn:Hc; cbn [is_null negb].
  { apply rejected_outcome. split; [done|]. exists ev, d. split; [done|by rewrite Hc]. }
  destruct (branchOf d) as [branch|] eqn:Hb.
  - rewrite (Hids (ri_eventId input)) by (by apply event_of_Some in Hev as [He _]). apply (reset_outcome input branch m d); [done| |done].
    split; [by exists ev|]. split; [done|by apply branchOf_spec].
  - apply rejected_outcome. split; [done|]. exists ev, d. split; [done|]. split; [done|by apply branchOf_none].
Qed.
End replay.

(** * Witnesses *)

Lemma demo_cuid_inj : Inj (=) (=) demo_cuid.
Proof. intros a b H. injection H as H. by apply (inj pretty). Qed.

Definition demo_answers (l : calls question reply) (q : question) : reply q :=
  match q with
  | Enqueue id => if bool_decide (id = "c6") then Ok tt else Err (JsError "ConnectionError" "closed")
  | GetJob _ => Ok true
  | GetState _ => Ok "completed"
  | RemoveJob _ => Ok tt
  | EffectivePermissionKeys _ => Ok ["settings.manage"]
  | RandomUUID => "uuid"
  | ResolveTemplate _ => Ok (Some 7%Z)
  | Send _ => Ok (accepted "m1")
  end.
Definition demo_access : Access := mkAccess {["admin" := mkUser "admin" USER_ACTIVE None]}
  {["ur" := mkUserRole "admin" "r" None None]} {["r" := true]} {["rp" := mkRolePermission "r" "p" None]}
  {["p" := mkPermission "p" "orders.read" true]}.
(** The mail of a shop in which nothing was delivered. *)
Definition new_mail (d : Sales) : Mail :=
  mkMail d ((fun _ => new_delivery (clock (inv_of d))) <$> outbox (own d)) ∅ ∅ {["cust" := "+989120000000"]} demo_access [].

Lemma new_mail_inv d : (forall id ev, outbox (own d) !! id = Some ev -> ob_id ev = id) -> mail_inv demo_cuid (new_mail d, []).
Proof.
  intros Hk. split; [split|split]; cbn; try (intros; by match goal with H : ∅ !! _ = Some _ |- _ => rewrite lookup_empty in H end); try done.
  - intros id. rewrite lookup_fmap. by destruct (outbox _ !! id); cbn; split; intros []; eauto.
  - intros id e H. rewrite lookup_fmap in H. apply fmap_Some in H as (ev & _ & ->). split; intros [? [=]].
  - intros id e H Hc. rewrite lookup_fmap in H. apply fmap_Some in H as (ev & _ & ->). by destruct Hc.
  - intros r a H. by apply elem_of_nil in H.
Qed.
Definition keyed_events (d : Sales) : bool := forallb (fun row => bool_decide (ob_id row.2 = row.1)) (map_to_list (outbox (own d))).
Lemma keyed_events_ok d : keyed_events d = true -> forall id ev, outbox (own d) !! id = Some ev -> ob_id ev = id.
Proof.
  intros H id ev He. unfold keyed_events in H. rewrite forallb_forall in H. specialize (H (id, ev)). apply bool_decide_eq_true in H; [done|].
  by apply list_elem_of_In, elem_of_map_to_list.
Qed.

Definition demo_mail : Mail := new_mail (demo_after demo_pay).
Lemma demo_mail_inv : mail_inv demo_cuid (demo_mail, []).
Proof. apply new_mail_inv, keyed_events_ok. vm_compute. reflexivity. Qed.

Notation demo_reaches := (reaches (started demo_cuid (fun _ _ => 0%Z) true (fun _ => None)) elsewhere).
Definition demo_job : MP unit := forget (deliver_job demo_cuid "deliver" (Some "c6") 0 8).
Definition demo_sms : MP unit := forget (sms_pass (fun _ _ => 0%Z) true (fun _ => None)).
(** Two jobs of the event and two passes: the first ones start, the second ones run in
    between. *)
Definition demo_idle : config Mail question reply := mkConfig demo_mail [] ∅.
Definition demo_jobs : config Mail question reply :=
  advanced demo_answers 99 0 (advanced demo_answers 99 1 (launched 1 demo_job (advanced demo_answers 4 0 (launched 0 demo_job demo_idle)))).
Definition demo_texts : config Mail question reply :=
  advanced demo_answers 99 2 (advanced demo_answers 99 3 (launched 3 demo_sms (advanced demo_answers 2 2 (launched 2 demo_sms demo_jobs)))).
Lemma demo_jobs_reached : demo_reaches demo_idle demo_jobs.
Proof.
  unfold demo_jobs. do 2 apply reaches_advanced. apply reaches_launched; [|vm_compute; reflexivity|constructor].
  apply reaches_advanced, reaches_launched; [constructor|reflexivity|constructor].
Qed.
Lemma demo_texts_reached : demo_reaches demo_idle demo_texts.
Proof.
  unfold demo_texts. do 2 apply reaches_advanced. apply reaches_launched; [|vm_compute; reflexivity|constructor].
  apply reaches_advanced, reaches_launched; [exact demo_jobs_reached|vm_compute; reflexivity|constructor].
Qed.

Lemma outbox_consumed_once_witness :
  demo_reaches demo_idle demo_jobs /\ event_sound (tables demo_jobs) /\
  ef_kind <$> effects_for "c6" (tables demo_jobs) = [CUSTOMER_ORDER_PAID] /\ size (inbox (tables demo_jobs)) = 2 /\
  dl_consumedAt <$> delivery (tables demo_jobs) !! "c6" = Some (Some 7%Z).
Proof.
  split; [exact demo_jobs_reached|]. split; [|vm_compute; split; [reflexivity|split; reflexivity]].
  exact (proj1 (outbox_consumed_once demo_cuid (fun _ _ => 0%Z) true (fun _ => None) demo_idle demo_jobs
    demo_cuid_inj demo_mail_inv eq_refl demo_jobs_reached)).
Defined.

Lemma customer_messages_at_most_once_witness :
  demo_reaches demo_idle demo_texts /\ messages "c7" (trace demo_texts) = [Ok (accepted "m1")] /\ length (messages "c7" (trace demo_texts)) <= 8.
Proof.
  split; [exact demo_texts_reached|]. split; [vm_compute; reflexivity|].
  exact (proj1 (customer_messages_at_most_once demo_cuid (fun _ _ => 0%Z) true (fun _ => None) demo_idle demo_texts
    demo_cuid_inj demo_mail_inv eq_refl demo_texts_reached "c7")).
Defined.

(** An event that is accepted by the queue and one that it refuses for the eighth time. *)
Definition demo_backlog : Mail :=
  set_delivery {["c6" := new_delivery 7; "c1" := mkDelivery 6 None 7 None None None None None]} demo_mail.
Lemma demo_attempts id d : delivery demo_backlog !! id = Some d -> int4 (dl_attempts d + 1) = true.
Proof.
  cbn [delivery demo_backlog set_delivery]. intros H. apply lookup_insert_Some in H as [[_ <-]|[_ H]]; [done|].
  by apply lookup_singleton_Some in H as [_ <-].
Qed.
Definition demo_pass : result (Z * RelayCounts) * (Mail * calls question reply) :=
  exec demo_answers (relay_pass (fun _ _ => 0%Z) reverse) (demo_backlog, []).
Lemma relay_pass_exact_witness :
  (exists outs t, demo_pass = (Ok (2%Z, tally (reverse (picked (fun _ _ => 0%Z) demo_backlog)) outs (mkCounts 0 0)),
     (set_delivery t demo_backlog, enqueued (reverse (picked (fun _ _ => 0%Z) demo_backlog)) outs))) /\
  let '(r, (m, l)) := demo_pass in
  r = Ok (2%Z, mkCounts 1 1) /\ dl_publishedAt <$> delivery m !! "c6" = Some (Some 7%Z) /\
  dl_deadLetteredAt <$> delivery m !! "c1" = Some (Some 7%Z) /\ dl_lastErrorCode <$> delivery m !! "c1" = Some (Some "ConnectionError").
Proof.
  split; [|vm_compute; repeat split].
  destruct (relay_pass_exact (fun _ _ => 0%Z) reverse demo_answers demo_backlog []) as (_ & _ & outs & t & _ & E & _).
  - intros a b. left. vm_compute. discriminate.
  - intros a b c _ _. vm_compute. discriminate.
  - intros rows. apply reverse_Permutation.
  - exact demo_attempts.
  - exists outs, t. exact E.
Defined.

(** A published event that no consumer has taken, in a queue that completed its job. *)
Definition demo_stranded : Mail := set_delivery {["c6" := published 7 (leased 7 (new_delivery 7))]} demo_mail.
Definition demo_replay : OutboxReplayInput := mkReplay "c6" "admin" "TICKET-12".
Lemma replay_exact_witness :
  replay_outcome demo_replay demo_stranded [] (exec demo_answers (replay demo_replay) (demo_stranded, [])) /\
  match exec demo_answers (replay demo_replay) (demo_stranded, []) with
  | (r, (m, l)) => r = Ok (REPLAYED "c6" "uuid" stranded) /\ length l = 5 /\
      match exec demo_answers (replay demo_replay) (m, l) with
      | (r', (m', _)) => r' = Ok (REJECTED EVENT_NOT_REPLAYABLE) /\ length (audits (inv_of (business m'))) = S (length (audits (inv_of (business m))))
      end
  end.
Proof.
  split; [|vm_compute; repeat split]. apply (replay_exact demo_answers demo_replay demo_stranded []).
  apply (keyed_events_ok (demo_after demo_pay)). vm_compute. reflexivity.
Defined.

(** * A reconciliation that stays open *)

(** A consumer of an unconfirmed payment has looked at the payment for the second time and is
    about to commit; the payment is settled, and the settlement's event consumed, before it
    does. *)
Definition demo_unsure : Sales := demo_after (take 1 demo_pay ++ [Verify "auth-1" (Some "NOK") "req-2"]).
Definition demo_settled : Sales := snd (demo_sale_run (Verify "auth-1" (Some "OK") "req-3") demo_unsure).
Definition settle_unsure (m : Mail) : Mail := set_delivery (<["c7" := new_delivery 7]> (delivery m)) (set_business demo_settled m).
Definition job_of (id : string) : MP unit := forget (deliver_job demo_cuid "deliver" (Some id) 0 8).
Definition demo_unsure_idle : config Mail question reply := mkConfig (new_mail demo_unsure) [] ∅.
Definition demo_overtaken : config Mail question reply :=
  advanced demo_answers 99 0 (advanced demo_answers 99 1 (launched 1 (job_of "c7")
    (disturbed settle_unsure (advanced demo_answers 7 0 (launched 0 (job_of "c1") demo_unsure_idle))))).
(** A transaction of the shop that adds one event is something else. *)
Lemma commit_elsewhere d d' id ev now : outbox (own d') = <[id := ev]> (outbox (own d)) -> outbox (own d) !! id = None ->
  (forall i e, outbox (own d') !! i = Some e -> ob_id e = i) -> (clock (inv_of d) <= clock (inv_of d'))%Z -> nextId (inv_of d) <= nextId (inv_of d') ->
  order_line <$> orders (credit (own d')) = order_line <$> orders (credit (own d)) ->
  pt_orderId <$> payments (own d') = pt_orderId <$> payments (own d) ->
  elsewhere (new_mail d) (set_delivery (<[id := new_delivery now]> (delivery (new_mail d))) (set_business d' (new_mail d))).
Proof.
  intros Eo En Hk Hc Hn Elines Epay. split; cbn; try done.
  - rewrite Eo. by apply insert_subseteq.
  - intros i e H. rewrite lookup_insert_ne; [done|]. intros <-. by rewrite lookup_fmap, En in H.
  - intros i e _ H. apply lookup_insert_Some in H as [[_ <-]|[_ H]]; [by eexists|]. rewrite lookup_fmap in H.
    apply fmap_Some in H as (? & _ & ->). by eexists.
  - intros i. rewrite Eo. destruct (decide (i = id)) as [->|]; [rewrite !lookup_insert_eq; split; eauto|].
    rewrite !lookup_insert_ne, lookup_fmap by done. by destruct (outbox _ !! i); split; intros []; eauto.
  - unfold find_order. intros i o H. assert (E := f_equal (fun t => t !! i) Elines). cbv beta in E. rewrite !lookup_fmap, H in E.
    apply fmap_Some in E as (o' & Ho' & E). exists o'. split; [done|exact (eq_sym E)].
  - intros i p H. assert (E := f_equal (fun t => t !! i) Epay). cbv beta in E. rewrite !lookup_fmap, H in E.
    apply fmap_Some in E as (p' & Hp' & E). exists p'. split; [done|exact (eq_sym E)].
Qed.
Lemma settled_elsewhere : elsewhere (new_mail demo_unsure) (settle_unsure (new_mail demo_unsure)).
Proof.
  assert (Eo : exists ev, outbox (own demo_settled) = <["c7" := ev]> (outbox (own demo_unsure))) by (eexists; vm_compute; reflexivity).
  destruct Eo as (ev & Eo). apply (commit_elsewhere demo_unsure demo_settled "c7" ev 7 Eo).
  - vm_compute. reflexivity.
  - apply keyed_events_ok. vm_compute. reflexivity.
  - vm_compute. discriminate.
  - apply Nat.leb_le. vm_compute. reflexivity.
  - vm_compute. reflexivity.
  - vm_compute. reflexivity.
Qed.

Example reconciliation_stays_open :
  mail_inv demo_cuid (new_mail demo_unsure, []) /\ demo_reaches demo_unsure_idle demo_overtaken /\
  let m := tables demo_overtaken in
  payment_closed "c0" m = true /\ open_reconciliations "c0" m = ["c11"] /\
  forallb (fun row => negb (is_null (dl_consumedAt row.2))) (map_to_list (delivery m)) = true.
Proof.
  split; [apply new_mail_inv, keyed_events_ok; vm_compute; reflexivity|]. split; [|vm_compute; repeat split].
  unfold demo_overtaken. do 2 apply reaches_advanced. apply reaches_launched; [|vm_compute; reflexivity|constructor].
  apply reaches_disturbed.
  - apply reaches_advanced, reaches_launched; [constructor|reflexivity|constructor].
  - assert (E : tables (advanced demo_answers 7 0 (launched 0 (job_of "c1") demo_unsure_idle)) = new_mail demo_unsure) by (vm_compute; reflexivity).
    rewrite E. exact settled_elsewhere.
Qed.
